(* ===== verification/_CoqProject ===== *)
-Q . S2P
Prelude.v
Mmu.v
Memory.v
Boot.v
Devices.v
Machine.v
Kalloc.v
Main.v
PageTable.v
Uvm.v
Cow.v
Replace.v
Aq.v
Files.v
Swap.v
Spinlock.v
Pipe.v
PTable.v
Proc.v
Syscall.v
Trap.v
Exec.v
Block.v
Log.v
Bio.v
Ide.v
Fs.v
FsTx.v
FsAlloc.v
FsFile.v
FsDir.v
Mkfs.v
FsInode.v
FsPath.v
FsOp.v
File.v
Sysfile.v
Descr.v
FsDemo.v
FsExamples.v
FileExamples.v
Ulib.v
Grep.v
Utils.v
Umalloc.v
ShParse.v
ShRun.v
Uprog.v
Kbd.v
Console.v
