(* ===== verification/Prelude.v ===== *)
(** * A verification of xv6-paging

    xv6-paging is xv6 for x86 (a small Unix for several processors) with two
    extensions: [fork] shares pages copy-on-write, and a process keeps at most
    sixteen pages in memory and pages the rest out to a swap file, under one of
    four replacement policies (NFUA, LAPA, SCFIFO, AQ). This library models the
    C code by functions of Rocq and proves what makes it correct. File and
    function names below are those of src/.

    ** How code is modelled

    A function of the kernel that changes state is a function in the monad [M]
    of this file: it takes a state and gives [Ok] with a value and a new state,
    [Panic] with the message, [UB] where C leaves the behaviour undefined or
    the kernel dereferences null, or [Diverge]. Theorems are stated with [wp]:
    [wp m Q s] says that [m], run in [s], returns and that [Q] holds of the
    value and the new state. It is total: a function that panics or runs out of
    fuel does not satisfy it. Integers are [Z], with [u8], [u16], [u32] and
    [s32] where the code wraps around. Kernel pages are bytes of one memory
    (Memory.v), so that page tables, trap frames and linked lists overlap where
    they do in the kernel; static tables are lists in records.

    Loops over machine words or lists in memory take fuel. Every operation
    gives its loop as much as the loop can use (the number of pages of a range,
    the length of a table, the size of a buffer, the number of frames for a
    free list), and the theorems show that it suffices. Three kinds of loop
    have no such bound in the code and take the fuel as an argument: waiting
    for a device, waiting for another process, and [main] of the shell and of
    init. Their theorems say which fuel is enough.

    ** The parts and their files

    - Machine words and memory. Mmu.v: mmu.h, memlayout.h, param.h. Memory.v:
      string.c. Machine.v: the state [kstate] of the kernel (proc.h, kalloc.c).
    - Physical pages. Kalloc.v: kalloc.c, the free list and the reference
      counts in [kmem.runs].
    - Virtual memory (vm.c). PageTable.v: [walkpgdir], [mappages], [uva2ka].
      Uvm.v: [setupkvm], [deallocuvm], [freevm], [inituvm], [loaduvm],
      [copyout]. Cow.v: [cowuvm], [handle_cow_pagefault], [copyuvm]. Replace.v
      and Aq.v: the policies and [indexToEvict]. Swap.v: [allocuvm], eviction,
      [handle_pagedout], [pagefault].
    - Processes. Spinlock.v: spinlock.c. PTable.v: the abstract process table.
      Proc.v: proc.c. Pipe.v: pipe.c. Syscall.v: syscall.c and sysproc.c.
      Trap.v: trap.c. Exec.v: exec.c and [sys_exec].
    - Files. Block.v: disk blocks as the buffer cache presents them. Bio.v:
      bio.c, sleeplock.c and memide.c. Ide.v: ide.c. Log.v: log.c. Fs.v: fs.c,
      with the proofs in FsTx.v, FsAlloc.v, FsFile.v, FsDir.v, FsInode.v,
      FsPath.v and FsOp.v. Files.v: files as lists of bytes. File.v: file.c.
      Sysfile.v: sysfile.c. Descr.v: reference counts over sequences of calls.
      Mkfs.v: mkfs.c, which makes the disk. FsDemo.v, FsExamples.v and
      FileExamples.v apply the theorems to a small file system.
    - Devices and start. Boot.v: bootmain.c and mp.c. Devices.v: ioapic.c,
      picirq.c, uart.c, lapic.c. Main.v: [startothers] of main.c. Kbd.v: kbd.c.
      Console.v: console.c.
    - User programs. Ulib.v: ulib.c and printf.c. Uprog.v: the rest of ulib.c,
      init.c, rm.c, mkdir.c, ln.c, kill.c. Grep.v: grep.c. Utils.v: cat.c, wc.c,
      echo.c, ls.c. Umalloc.v: umalloc.c. ShParse.v and ShRun.v: sh.c.

    ** How they interact

    The paging code uses files as lists of bytes (Files.v); File.v proves that
    [filewrite] and [fileread], through the log, the allocator and the inodes,
    do exactly that to the contents of one file and leave all others. The log
    and the file system are written on the blocks of Block.v; Bio.v proves that
    the linked list of buffers implements them over the disk in memory, and
    Ide.v that the driver with its queue and interrupts does to a buffer what
    the disk in memory does. The code of the kernel uses locks as the list of
    those it holds; Spinlock.v proves that [acquire] and [release] implement
    that list, and that two processors never hold one lock. Proc.v proves that
    proc.c takes the steps of PTable.v, where the invariant of processes is
    shown by induction on the steps. Exec.v is proved against an interface of
    copying to user memory, which [copyout] is shown to have. Components with
    state of their own are seen through type classes of operations: the files
    by Proc.v and Syscall.v ([FileLayer], [FileCalls]), the handlers of the
    devices by Trap.v ([Drivers]), the disk by Bio.v ([Device]), the console by
    Fs.v ([DevSwitch]).

    ** What the theorems show

    - Sharing and paging: [Cow.cowuvm_correct] (the child sees the parent's
      memory, frames are shared with exact counts),
      [Cow.handle_cow_pagefault_correct] (the writer gets a copy, nobody's view
      changes), [Swap.allocuvm_withswap_correct] and [Swap.pagefault_restores]
      (a page that is evicted and faulted in has its bytes),
      [PageTable.mappages_refines] (page tables in memory implement a map),
      [Uvm.freevm_correct], [Replace.scfifo_correct] (second chance ends).
    - Crash safety and files: [Log.commit_crash_atomic], [Log.log_transactions],
      [FsFile.readi_correct], [FsFile.writei_correct], [FsDir.dirlink_correct],
      [FsInode.iput_frees], [File.filewrite_refines],
      [Descr.descriptor_refcounts], [Bio.bio_refines], [Ide.ide_refines],
      [Ide.ide_equals_memide], [Mkfs.mkfs_image], [Mkfs.mkfs_finds_files].
    - Processes and concurrency: [Proc.process_ops_refine],
      [PTable.process_table_invariant], [Proc.scheduler_fair],
      [Spinlock.spinlock_mutual_exclusion], [Pipe.pipe_fifo],
      [Pipe.pipe_no_lost_wakeup], [Syscall.arguments_checked],
      [Exec.exec_stack_layout].
    - Devices and start: [Boot.bootmain_loads], [Main.startothers_starts],
      [Devices.cmostime_correct], [Console.console_input_refines],
      [Console.typed_line_is_read].
    - User programs: [ShParse.parse_print_roundtrip], [ShParse.parsecmd_typed],
      [ShRun.runcmd_refines], [Umalloc.malloc_correct], [Grep.match_correct].
    - Places where the code does not do what it means to, as theorems: for
      example [Swap.pagefault_evicted_cow] (a shared page that was paged out is
      lost), [Trap.kernel_write_to_cow_page] (a system call that writes to a
      shared page kills the process), [Exec.loaduvm_evicted_page],
      [Log.log_reservation_overflow], [Pipe.pipe_lost_wakeup],
      [Descr.exec_loses_file], [Boot.mpinit_unknown_entry],
      [Mkfs.mkfs_root_hole], [Uprog.Bytes.memmove_smears].

    ** Assumptions

    Addresses that the linker chooses are the class [KernelImage] of Machine.v.
    A section of kernel code between two switches runs on its own, except in
    Spinlock.v, Pipe.v, Log.v, PTable.v and Ide.v, which model interleavings;
    fs.c and file.c are those of one process, where waiting for a lock that is
    taken is [Diverge]. Devices are state machines with the registers that the
    drivers use. System calls that a user program makes are parameters, or the
    list of their results.

    ** Not modelled

    - The assembly (bootasm.S, entry.S, swtch.S, trapasm.S, vectors.S,
      initcode.S, usys.S): mode switches, saving of registers and jumps. The
      context switch appears as the end of a section of code, the trap frame as
      memory, and entryother.S by the three words it reads below its code.
    - [main] and [mpmain] of main.c, which call the initializations one after
      the other and enter the scheduler; [procdump], which only prints.
    - The test programs usertests.c, ass3Tests.c, forktest.c, stressfs.c and
      zombie.c, and declarations (defs.h, user.h, types.h).
    - The tie between the kernel's system calls and the view that user programs
      have of them, except for descriptors and memory as stated above; timing;
      caches and the translation buffer of the processor.

    ** This file

    The monad, machine-width integers, tactics, hint databases and the generic
    lemmas that the components share. *)

From stdpp Require Import base gmap strings list fin_maps numbers.
From Stdlib Require Import ZArith Lia Zbitwise.

#[global] Set Default Goal Selector "!".
Open Scope Z_scope.

Declare Scope kernel_scope.
Delimit Scope kernel_scope with K.
Open Scope kernel_scope.

Create HintDb kdb.
Create HintDb pte.
Create Rewrite HintDb mem.

(** ** The monad of kernel code

    A computation either returns a value and the new state, or calls
    [panic] with a message, or performs an access that is undefined behaviour
    in C (a null dereference, an index outside an array), or loops: a spin
    loop whose condition nobody changes, or a loop that outlives its bound. *)

Inductive outcome (S A : Type) : Type :=
| Ok (a : A) (s : S)
| Panic (msg : string)
| UB
| Diverge.

Arguments Ok {S A} _ _.
Arguments Panic {S A} _.
Arguments UB {S A}.
Arguments Diverge {S A}.

Definition M (S A : Type) : Type := S -> outcome S A.

Section Monad.
Context {S : Type}.

#[global] Instance M_ret : MRet (M S) := fun A a s => Ok a s.

#[global] Instance M_bind : MBind (M S) := fun A B f m s =>
  match m s with
  | Ok a s' => f a s'
  | Panic e => Panic e
  | UB => UB
  | Diverge => Diverge
  end.

Definition gets {A} (f : S -> A) : M S A := fun s => Ok (f s) s.
Definition modify (f : S -> S) : M S unit := fun s => Ok tt (f s).
Definition panic {A} (msg : string) : M S A := fun _ => Panic msg.
Definition ub {A} : M S A := fun _ => UB.
Definition diverge {A} : M S A := fun _ => Diverge.
Definition when (b : bool) (m : M S unit) : M S unit := if b then m else mret tt.

(** A C statement executed for the elements of a list, in order. *)
Fixpoint for_each {A} (l : list A) (body : A -> M S unit) : M S unit :=
  match l with
  | [] => mret tt
  | x :: l' => body x ;; for_each l' body
  end.

End Monad.

(** Running a computation of a component inside a larger state. *)
Definition zoom {S T A} (g : S -> T) (p : T -> S -> S) (m : M T A) : M S A := fun s =>
  match m (g s) with
  | Ok a t => Ok a (p t s)
  | Panic e => Panic e
  | UB => UB
  | Diverge => Diverge
  end.

(** ** Total-correctness triples

    [wp m Q s]: from state [s], [m] returns (it neither panics, nor has
    undefined behaviour, nor loops) and its result and final state are
    in [Q]. *)
Definition wp {S A} (m : M S A) (Q : A -> S -> Prop) (s : S) : Prop :=
  match m s with Ok a s' => Q a s' | _ => False end.

Section Wp.
Context {S : Type}.
Implicit Types s : S.

Lemma wp_ret {A} (a : A) (Q : A -> S -> Prop) s : wp (mret a) Q s <-> Q a s.
Proof. done. Qed.

Lemma wp_bind {A B} (m : M S A) (f : A -> M S B) Q s :
  wp (m ≫= f) Q s <-> wp m (fun a s' => wp (f a) Q s') s.
Proof. unfold wp, mbind, M_bind. by destruct (m s). Qed.

Lemma wp_gets {A} (f : S -> A) (Q : A -> S -> Prop) s : wp (gets f) Q s <-> Q (f s) s.
Proof. done. Qed.

Lemma wp_modify f (Q : unit -> S -> Prop) s : wp (modify f) Q s <-> Q tt (f s).
Proof. done. Qed.

Lemma wp_when b (m : M S unit) Q s :
  wp (when b m) Q s <-> (if b then wp m Q s else Q tt s).
Proof. by destruct b. Qed.

Lemma wp_mono {A} (m : M S A) (P Q : A -> S -> Prop) s :
  wp m P s -> (forall a s', P a s' -> Q a s') -> wp m Q s.
Proof. unfold wp. destruct (m s); eauto. Qed.

Lemma wp_and {A} (m : M S A) (P Q : A -> S -> Prop) s :
  wp m P s -> wp m Q s -> wp m (fun a s' => P a s' /\ Q a s') s.
Proof. unfold wp. destruct (m s); eauto. Qed.

Lemma wp_Ok {A} (m : M S A) (Q : A -> S -> Prop) s :
  wp m Q s <-> exists a s', m s = Ok a s' /\ Q a s'.
Proof.
  unfold wp. destruct (m s); split; try done.
  - eauto.
  - intros (? & ? & [= <- <-] & ?). done.
  - intros (? & ? & [=] & ?).
  - intros (? & ? & [=] & ?).
  - intros (? & ? & [=] & ?).
Qed.

Lemma wp_eq {A} (m : M S A) (Q : A -> S -> Prop) s a s' :
  m s = Ok a s' -> wp m Q s <-> Q a s'.
Proof. unfold wp. by intros ->. Qed.

Lemma wp_for_each_nil {A} (body : A -> M S unit) Q s :
  wp (for_each [] body) Q s <-> Q tt s.
Proof. done. Qed.

(** The invariant rule of [for_each]: the invariant is indexed by the list
    of the elements still to visit. *)
Lemma wp_for_each {A} (I : list A -> S -> Prop) (body : A -> M S unit) l s :
  I l s ->
  (forall x l' s', I (x :: l') s' -> wp (body x) (fun _ s'' => I l' s'') s') ->
  wp (for_each l body) (fun _ s' => I [] s') s.
Proof.
  intros HI Hb. revert s HI. induction l as [|x l IH]; intros s HI; [done|].
  cbn. apply wp_bind. eapply wp_mono; [by apply Hb|]. intros [] s' HI'. by apply IH.
Qed.

Lemma wp_zoom {T A} (g : S -> T) (p : T -> S -> S) (m : M T A) Q s :
  wp (zoom g p m) Q s <-> wp m (fun a t => Q a (p t s)) (g s).
Proof. unfold wp, zoom. by destruct (m (g s)). Qed.

End Wp.

(** One step of symbolic execution of a triple. *)
Ltac wp_step :=
  match goal with
  | |- wp (mbind _ _) _ _ => rewrite wp_bind
  | |- wp (mret _) _ _ => rewrite wp_ret
  | |- wp (gets _) _ _ => rewrite wp_gets
  | |- wp (modify _) _ _ => rewrite wp_modify
  | |- wp (when _ _) _ _ => rewrite wp_when
  end.
Ltac wp_steps := repeat (wp_step; cbn beta).

(** Inversion of a computation that returned. *)
Lemma bind_Ok {S A B} (m : M S A) (f : A -> M S B) s b s'' :
  (m ≫= f) s = Ok b s'' <-> exists a s', m s = Ok a s' /\ f a s' = Ok b s''.
Proof.
  unfold mbind, M_bind. destruct (m s); split; try done.
  - eauto.
  - intros (? & ? & [= <- <-] & ?). done.
  - intros (? & ? & [=] & ?).
  - intros (? & ? & [=] & ?).
  - intros (? & ? & [=] & ?).
Qed.

Lemma bind_run {S A B} (m : M S A) (f : A -> M S B) s a s' :
  m s = Ok a s' -> (m ≫= f) s = f a s'.
Proof. unfold mbind, M_bind. by intros ->. Qed.

(** ** Machine integers *)

(** [unsigned int] and [int] are 32 bits wide on this target. *)
Definition W32 : Z := 4294967296.
Definition u32 (x : Z) : Z := x mod W32.
Definition s32 (x : Z) : Z :=
  if u32 x <? 2147483648 then u32 x else u32 x - W32.
Definition u16 (x : Z) : Z := x mod 65536.
Definition s16 (x : Z) : Z := if u16 x <? 32768 then u16 x else u16 x - 65536.
Definition u8 (x : Z) : Z := x mod 256.

(** Linear arithmetic with the divisions and remainders by constants
    eliminated. *)
Ltac zlia :=
  unfold u32, u16, u8, W32 in *; Z.to_euclidean_division_equations; lia.

Lemma u32_range x : 0 <= u32 x < W32.
Proof. zlia. Qed.
Lemma u32_small x : 0 <= x < W32 -> u32 x = x.
Proof. intros. apply Z.mod_small. done. Qed.
Lemma u32_idemp x : u32 (u32 x) = u32 x.
Proof. apply u32_small, u32_range. Qed.
Lemma s32_range x : -2147483648 <= s32 x < 2147483648.
Proof. unfold s32. pose proof (u32_range x). unfold W32 in *. destruct (Z.ltb_spec (u32 x) 2147483648); lia. Qed.
Lemma s32_small x : 0 <= x < 2147483648 -> s32 x = x.
Proof.
  intros. unfold s32. rewrite u32_small by (unfold W32; lia).
  destruct (Z.ltb_spec x 2147483648); [done|lia].
Qed.
Lemma u8_range x : 0 <= u8 x < 256.
Proof. zlia. Qed.

#[export] Hint Resolve u32_range u8_range : kdb.

(** ** Bits *)

(** The C test [x & f] used as a condition. *)
Definition has (x f : Z) : bool := negb (Z.land x f =? 0).
(** The C expression [x & ~f]. *)
Definition clr (x f : Z) : Z := Z.ldiff x f.

Lemma testbit_small x p n : 0 <= x < 2 ^ p -> 0 <= p <= n -> Z.testbit x n = false.
Proof.
  intros Hx Hp. rewrite <- (Z.mod_small x (2 ^ p)) by done.
  apply Z.mod_pow2_bits_high. lia.
Qed.

Lemma testbit_multiple k p n : 0 <= p -> n < p -> Z.testbit (k * 2 ^ p) n = false.
Proof. intros. apply Z.mul_pow2_bits_low. done. Qed.

(** Or-ing values with no common bit is adding them. *)
Lemma lor_multiple_add k p f : 0 <= p -> 0 <= f < 2 ^ p -> Z.lor (k * 2 ^ p) f = k * 2 ^ p + f.
Proof.
  intros Hp Hf. rewrite <- Z.add_lor_land.
  assert (Z.land (k * 2 ^ p) f = 0) as ->; [|lia].
  apply Z.bits_inj'. intros n Hn. rewrite Z.land_spec, Z.bits_0.
  destruct (Z.lt_ge_cases n p).
  - rewrite testbit_multiple by lia. done.
  - rewrite (testbit_small f p n) by lia. apply andb_false_r.
Qed.

Lemma has_pow2 x n : 0 <= n -> has x (2 ^ n) = Z.testbit x n.
Proof.
  intros Hn. unfold has.
  assert (Z.land x (2 ^ n) = Z.b2z (Z.testbit x n) * 2 ^ n) as ->.
  { apply Z.bits_inj'. intros m Hm. rewrite Z.land_spec, Z.pow2_bits_eqb by lia.
    destruct (Z.eqb_spec n m) as [<-|Hne].
    - rewrite Z.mul_pow2_bits by lia. rewrite Z.sub_diag.
      destruct (Z.testbit x n); reflexivity.
    - rewrite andb_false_r. symmetry. destruct (Z.testbit x n); cbn [Z.b2z].
      + rewrite Z.mul_1_l. by apply Z.pow2_bits_false.
      + by rewrite Z.mul_0_l, Z.bits_0. }
  pose proof (Z.pow_pos_nonneg 2 n). destruct (Z.testbit x n); cbn [Z.b2z].
  - rewrite Z.mul_1_l. destruct (Z.eqb_spec (2 ^ n) 0); [lia|done].
  - done.
Qed.

(** ** Lists and options *)

Lemma NoDup_lookup_ne {A} (l : list A) i j x y :
  NoDup l -> l !! i = Some x -> l !! j = Some y -> i ≠ j -> x ≠ y.
Proof. intros Hnd Hi Hj Hne ->. apply Hne. by eapply NoDup_lookup. Qed.

Lemma Forall_weaken {A} (P Q : A -> Prop) l :
  Forall P l -> (forall x, P x -> Q x) -> Forall Q l.
Proof. intros H HPQ. eapply Forall_impl; eauto. Qed.

Lemma elem_of_split_length {A} (l : list A) i :
  (i < length l)%nat -> exists x, l !! i = Some x.
Proof. intros H. by apply lookup_lt_is_Some_2 in H. Qed.

Lemma omap_length_le {A B} (f : A -> option B) l : (length (omap f l) <= length l)%nat.
Proof. induction l as [|x l IH]; cbn; [lia|]. destruct (f x); cbn; lia. Qed.

Lemma list_alter_insert_lookup {A} (f : A -> A) (l : list A) i x :
  l !! i = Some x -> alter f i l = <[i := f x]> l.
Proof.
  revert i; induction l as [|y l IH]; intros [|i] H; cbn in *; try done.
  - by injection H as ->.
  - f_equal. by apply IH.
Qed.

(** The indices of a C array of [n] elements. *)
Definition indices (n : nat) : list nat := seq 0 n.

(** Case analysis on the boolean tests that appear in a goal. *)
Ltac case_if :=
  match goal with
  | |- context [if ?b then _ else _] => let E := fresh "E" in destruct b eqn:E
  end.

(** Turns the boolean comparisons of the hypotheses into propositions. *)
Ltac bool_hyps :=
  repeat match goal with
  | H : (_ =? _) = true |- _ => apply Z.eqb_eq in H
  | H : (_ =? _) = false |- _ => apply Z.eqb_neq in H
  | H : (_ <? _) = true |- _ => apply Z.ltb_lt in H
  | H : (_ <? _) = false |- _ => apply Z.ltb_ge in H
  | H : (_ <=? _) = true |- _ => apply Z.leb_le in H
  | H : (_ <=? _) = false |- _ => apply Z.leb_gt in H
  | H : (_ && _)%bool = true |- _ => apply andb_true_iff in H; destruct H
  | H : (_ || _)%bool = false |- _ => apply orb_false_iff in H; destruct H
  | H : negb _ = true |- _ => apply negb_true_iff in H
  | H : negb _ = false |- _ => apply negb_false_iff in H
  end.
