(* ===== verification/Mmu.v ===== *)
(** The x86 memory-management constants and macros of mmu.h, the address
    space layout of memlayout.h and the limits of param.h and types.h, with
    the arithmetic facts about page rounding, page-table indices and
    page-table-entry bits that the rest of the development uses. *)

From S2P Require Import Prelude.
From stdpp Require Import base gmap list.
From Stdlib Require Import ZArith Lia.
Open Scope Z_scope.

(** ** param.h and types.h *)

Definition NPROC : nat := 64.
Definition KSTACKSIZE : Z := 4096.
Definition NCPU : nat := 8.
Definition NOFILE : nat := 16.
Definition NFILE : nat := 100.
Definition NINODE : nat := 50.
Definition NDEV : Z := 10.
Definition ROOTDEV : Z := 1.
Definition MAXARG : nat := 32.
Definition MAXOPBLOCKS : Z := 10.
Definition LOGSIZE : Z := MAXOPBLOCKS * 3.
Definition NBUF : nat := 30.
Definition FSSIZE : Z := 1000.
Definition MAX_PSYC_PAGES : nat := 16.
Definition MAX_TOTAL_PAGES : nat := 32.

(** ** memlayout.h *)

Definition EXTMEM : Z := 0x100000.
Definition PHYSTOP : Z := 0xE000000.
Definition DEVSPACE : Z := 0xFE000000.
Definition KERNBASE : Z := 0x80000000.
Definition KERNLINK : Z := KERNBASE + EXTMEM.

Definition V2P (a : Z) : Z := u32 (a - KERNBASE).
Definition P2V (a : Z) : Z := u32 (a + KERNBASE).

(** ** mmu.h: pages and page-table indices *)

Definition NPDENTRIES : Z := 1024.
Definition NPTENTRIES : Z := 1024.
Definition PGSIZE : Z := 4096.
Definition PTXSHIFT : Z := 12.
Definition PDXSHIFT : Z := 22.
Definition MAXPAGES : Z := PHYSTOP / PGSIZE.

Definition PDX (va : Z) : Z := Z.land (Z.shiftr (u32 va) PDXSHIFT) 0x3FF.
Definition PTX (va : Z) : Z := Z.land (Z.shiftr (u32 va) PTXSHIFT) 0x3FF.
Definition PGADDR (d t o : Z) : Z :=
  u32 (Z.lor (Z.lor (Z.shiftl d PDXSHIFT) (Z.shiftl t PTXSHIFT)) o).

Definition PGROUNDUP (sz : Z) : Z := clr (u32 (sz + PGSIZE - 1)) (PGSIZE - 1).
Definition PGROUNDDOWN (a : Z) : Z := clr (u32 a) (PGSIZE - 1).

(** ** mmu.h: page-table-entry flags *)

Definition PTE_P : Z := 0x001.
Definition PTE_W : Z := 0x002.
Definition PTE_U : Z := 0x004.
Definition PTE_PS : Z := 0x080.
Definition PTE_PG : Z := 0x200.
Definition PTE_A : Z := 0x020.
Definition PTE_COW : Z := 0x400.

Definition FEC_PR : Z := 0x1.
Definition FEC_WR : Z := 0x2.
Definition FEC_U : Z := 0x4.

Definition PTE_ADDR (pte : Z) : Z := clr (u32 pte) 0xFFF.
Definition PTE_FLAGS (pte : Z) : Z := Z.land (u32 pte) 0xFFF.

(** ** mmu.h: segment and gate descriptors *)

Definition FL_IF : Z := 0x200.
Definition SEG_KCODE : Z := 1.
Definition SEG_KDATA : Z := 2.
Definition SEG_UCODE : Z := 3.
Definition SEG_UDATA : Z := 4.
Definition SEG_TSS : Z := 5.
Definition NSEGS : nat := 6.
Definition DPL_USER : Z := 3.
Definition STA_X : Z := 0x8.
Definition STA_W : Z := 0x2.
Definition STA_R : Z := 0x2.
Definition STS_T32A : Z := 0x9.
Definition STS_IG32 : Z := 0xE.
Definition STS_TG32 : Z := 0xF.

(** A segment descriptor, field by field; a value stored in a bit field
    keeps only the bits of its width. *)
Record segdesc := mk_segdesc {
  lim_15_0 : Z; base_15_0 : Z; base_23_16 : Z; seg_type : Z; seg_s : Z;
  seg_dpl : Z; seg_p : Z; lim_19_16 : Z; avl : Z; rsv1 : Z; db : Z; g : Z;
  base_31_24 : Z
}.

Definition SEG (type base lim dpl : Z) : segdesc := {|
  lim_15_0 := Z.land (Z.shiftr lim 12) 0xffff;
  base_15_0 := Z.land (u32 base) 0xffff;
  base_23_16 := Z.land (Z.shiftr (u32 base) 16) 0xff;
  seg_type := type mod 16; seg_s := 1; seg_dpl := dpl mod 4; seg_p := 1;
  lim_19_16 := (Z.shiftr (u32 lim) 28) mod 16;
  avl := 0; rsv1 := 0; db := 1; g := 1;
  base_31_24 := (Z.shiftr (u32 base) 24) mod 256 |}.

Definition SEG16 (type base lim dpl : Z) : segdesc := {|
  lim_15_0 := Z.land lim 0xffff;
  base_15_0 := Z.land (u32 base) 0xffff;
  base_23_16 := Z.land (Z.shiftr (u32 base) 16) 0xff;
  seg_type := type mod 16; seg_s := 1; seg_dpl := dpl mod 4; seg_p := 1;
  lim_19_16 := (Z.shiftr (u32 lim) 16) mod 16;
  avl := 0; rsv1 := 0; db := 1; g := 0;
  base_31_24 := (Z.shiftr (u32 base) 24) mod 256 |}.

(** The linear base address and the byte limit the processor reads back. *)
Definition seg_base (d : segdesc) : Z :=
  base_15_0 d + 65536 * base_23_16 d + 16777216 * base_31_24 d.
Definition seg_limit (d : segdesc) : Z :=
  let l := lim_15_0 d + 65536 * lim_19_16 d in
  if g d =? 1 then 4096 * l + 4095 else l.

Record gatedesc := mk_gatedesc {
  off_15_0 : Z; gate_cs : Z; gate_args : Z; gate_rsv1 : Z; gate_type : Z;
  gate_s : Z; gate_dpl : Z; gate_p : Z; off_31_16 : Z
}.

Definition SETGATE (istrap : bool) (sel off d : Z) : gatedesc := {|
  off_15_0 := Z.land (u32 off) 0xffff;
  gate_cs := sel mod 65536;
  gate_args := 0; gate_rsv1 := 0;
  gate_type := if istrap then STS_TG32 else STS_IG32;
  gate_s := 0; gate_dpl := d mod 4; gate_p := 1;
  off_31_16 := (Z.shiftr (u32 off) 16) mod 65536 |}.

Definition gate_offset (gd : gatedesc) : Z := off_15_0 gd + 65536 * off_31_16 gd.

(** ** Lemmas *)

Lemma clr_ones x n : 0 <= n -> clr x (Z.ones n) = x - x mod 2 ^ n.
Proof.
  intros. unfold clr. rewrite Z.ldiff_ones_r by done.
  rewrite Z.shiftl_mul_pow2, Z.shiftr_div_pow2 by done.
  pose proof (Z.div_mod x (2 ^ n)). lia.
Qed.

Lemma clr_4095 x : clr x 4095 = x - x mod 4096.
Proof. apply (clr_ones x 12). lia. Qed.

Lemma land_1023 x : Z.land x 1023 = x mod 1024.
Proof. apply (Z.land_ones x 10). lia. Qed.
Lemma land_4095 x : Z.land x 4095 = x mod 4096.
Proof. apply (Z.land_ones x 12). lia. Qed.
Lemma land_65535 x : Z.land x 65535 = x mod 65536.
Proof. apply (Z.land_ones x 16). lia. Qed.
Lemma land_255 x : Z.land x 255 = x mod 256.
Proof. apply (Z.land_ones x 8). lia. Qed.

Lemma PGROUNDDOWN_eq a : PGROUNDDOWN a = u32 a - u32 a mod 4096.
Proof. apply clr_4095. Qed.
Lemma PGROUNDUP_eq a : PGROUNDUP a = u32 (a + 4095) - u32 (a + 4095) mod 4096.
Proof. unfold PGROUNDUP. rewrite clr_4095. unfold PGSIZE. f_equal; f_equal; f_equal; lia. Qed.
Lemma PTE_ADDR_eq x : PTE_ADDR x = u32 x - u32 x mod 4096.
Proof. apply clr_4095. Qed.
Lemma PTE_FLAGS_eq x : PTE_FLAGS x = u32 x mod 4096.
Proof. apply land_4095. Qed.
Lemma PDX_eq va : PDX va = u32 va / 4194304.
Proof.
  unfold PDX. rewrite land_1023, Z.shiftr_div_pow2 by done.
  change (2 ^ PDXSHIFT) with 4194304. zlia.
Qed.
Lemma PTX_eq va : PTX va = (u32 va / 4096) mod 1024.
Proof. unfold PTX. by rewrite land_1023, Z.shiftr_div_pow2 by done. Qed.

(** Tactic: expose the arithmetic content of the page macros. *)
Ltac page_unfold :=
  rewrite ?PGROUNDDOWN_eq, ?PGROUNDUP_eq, ?PTE_ADDR_eq, ?PTE_FLAGS_eq, ?PDX_eq, ?PTX_eq in *;
  unfold V2P, P2V, MAXPAGES, PHYSTOP, KERNBASE, PGSIZE, KERNLINK, EXTMEM, DEVSPACE in *.
Ltac page_lia := page_unfold; zlia.

Lemma PDX_range va : 0 <= PDX va < 1024.
Proof. page_lia. Qed.
Lemma PTX_range va : 0 <= PTX va < 1024.
Proof. page_lia. Qed.

(** Two addresses with the same directory and table indices are in the same
    page. *)
Lemma PDX_PTX_inj va va' :
  PDX va = PDX va' -> PTX va = PTX va' -> PGROUNDDOWN va = PGROUNDDOWN va'.
Proof. page_lia. Qed.
Lemma PDX_PGROUNDDOWN va : PDX (PGROUNDDOWN va) = PDX va.
Proof. page_lia. Qed.
Lemma PTX_PGROUNDDOWN va : PTX (PGROUNDDOWN va) = PTX va.
Proof. page_lia. Qed.

(** A virtual address is rebuilt from its two indices and its offset. *)
Lemma PGADDR_split va :
  0 <= va < W32 -> PGADDR (PDX va) (PTX va) (PTE_FLAGS va) = va.
Proof.
  intros Hva. unfold PGADDR. pose proof (PDX_range va). pose proof (PTX_range va).
  rewrite !Z.shiftl_mul_pow2 by done.
  assert (Z.lor (PDX va * 2 ^ PDXSHIFT) (PTX va * 2 ^ PTXSHIFT) = (PDX va * 1024 + PTX va) * 2 ^ 12) as ->.
  { rewrite lor_multiple_add; unfold PDXSHIFT, PTXSHIFT in *; lia. }
  rewrite lor_multiple_add; [|lia|page_lia].
  clear -Hva. page_lia.
Qed.

Definition page_aligned (a : Z) : Prop := a mod 4096 = 0.
#[export] Instance page_aligned_dec a : Decision (page_aligned a).
Proof. unfold page_aligned. apply _. Defined.

Lemma PGROUNDDOWN_aligned a : page_aligned (PGROUNDDOWN a).
Proof. unfold page_aligned. page_lia. Qed.
Lemma PTE_ADDR_aligned a : page_aligned (PTE_ADDR a).
Proof. unfold page_aligned. page_lia. Qed.
Lemma PGROUNDUP_aligned a : page_aligned (PGROUNDUP a).
Proof. unfold page_aligned. page_lia. Qed.
Lemma PGROUNDDOWN_id a : 0 <= a < W32 -> page_aligned a -> PGROUNDDOWN a = a.
Proof. unfold page_aligned. intros. page_lia. Qed.
Lemma PGROUNDUP_bounds a :
  0 <= a -> a + 4095 < W32 -> a <= PGROUNDUP a < a + 4096.
Proof. intros. page_lia. Qed.

#[export] Hint Resolve PGROUNDDOWN_aligned PTE_ADDR_aligned PGROUNDUP_aligned : kdb.

(** *** Flags of an entry built as [pa | flags] *)

Lemma lor_page pa f :
  page_aligned pa -> 0 <= f < 4096 -> Z.lor pa f = pa + f.
Proof.
  unfold page_aligned. intros Hpa Hf.
  assert (pa = (pa / 4096) * 2 ^ 12) as E by zlia.
  rewrite E at 1. rewrite lor_multiple_add by lia. lia.
Qed.

Lemma PTE_ADDR_lor pa f :
  page_aligned pa -> 0 <= pa < W32 -> 0 <= f < 4096 -> PTE_ADDR (Z.lor pa f) = pa.
Proof. unfold page_aligned. intros. rewrite lor_page by done. page_lia. Qed.
Lemma PTE_FLAGS_lor pa f :
  page_aligned pa -> 0 <= pa < W32 -> 0 <= f < 4096 -> PTE_FLAGS (Z.lor pa f) = f.
Proof. unfold page_aligned. intros. rewrite lor_page by done. page_lia. Qed.

(** The single-bit flags, by bit number. *)
Definition is_flag (f : Z) : Prop := exists n, 0 <= n < 12 /\ f = 2 ^ n.

Lemma flag_P : is_flag PTE_P.
Proof. by exists 0. Qed.
Lemma flag_W : is_flag PTE_W.
Proof. by exists 1. Qed.
Lemma flag_U : is_flag PTE_U.
Proof. by exists 2. Qed.
Lemma flag_A : is_flag PTE_A.
Proof. by exists 5. Qed.
Lemma flag_PG : is_flag PTE_PG.
Proof. by exists 9. Qed.
Lemma flag_COW : is_flag PTE_COW.
Proof. by exists 10. Qed.
#[export] Hint Resolve flag_P flag_W flag_U flag_A flag_PG flag_COW : pte.

Lemma has_lor x y f : is_flag f -> has (Z.lor x y) f = (has x f || has y f)%bool.
Proof. intros [n [Hn ->]]. rewrite !has_pow2 by lia. apply Z.lor_spec. Qed.
Lemma has_clr x y f : is_flag f -> has (clr x y) f = (has x f && negb (has y f))%bool.
Proof. intros [n [Hn ->]]. rewrite !has_pow2 by lia. apply Z.ldiff_spec. Qed.
Lemma has_land x y f : is_flag f -> has (Z.land x y) f = (has x f && has y f)%bool.
Proof. intros [n [Hn ->]]. rewrite !has_pow2 by lia. apply Z.land_spec. Qed.
Lemma has_page pa f : page_aligned pa -> is_flag f -> has pa f = false.
Proof.
  intros Hpa [n [Hn ->]]. rewrite has_pow2 by lia.
  assert (pa = (pa / 4096) * 2 ^ 12) as -> by (unfold page_aligned in Hpa; zlia).
  apply testbit_multiple; lia.
Qed.
Lemma has_0 f : has 0 f = false.
Proof. unfold has. by rewrite Z.land_0_l. Qed.
Lemma has_self f : is_flag f -> has f f = true.
Proof. intros [n [Hn ->]]. rewrite has_pow2 by lia. rewrite Z.pow2_bits_true; [done|lia]. Qed.
Lemma has_FLAGS x f : 0 <= x < W32 -> is_flag f -> has (PTE_FLAGS x) f = has x f.
Proof.
  intros Hx [n [Hn ->]]. rewrite !has_pow2 by lia. unfold PTE_FLAGS.
  rewrite u32_small by done. rewrite Z.land_spec.
  change 0xFFF with (Z.ones 12). rewrite Z.ones_spec_low by lia. apply andb_true_r.
Qed.

(** Or-ing or clearing flags keeps an entry a 32-bit value and keeps its
    address part. *)
Lemma lor_lt_pow2 x y n : 0 <= n -> 0 <= x < 2 ^ n -> 0 <= y < 2 ^ n -> 0 <= Z.lor x y < 2 ^ n.
Proof.
  intros Hn [Hx Hx'] [Hy Hy']. split; [by apply Z.lor_nonneg|].
  destruct (Z.eq_dec (Z.lor x y) 0) as [->|Hne]; [lia|].
  apply Z.log2_lt_pow2; [pose proof (proj2 (Z.lor_nonneg x y) (conj Hx Hy)); lia|].
  rewrite Z.log2_lor by done. destruct (decide (n = 0)) as [->|].
  { assert (x = 0 /\ y = 0) as [-> ->] by (cbn in *; lia). done. }
  apply Z.max_lub_lt.
  - destruct (Z.eq_dec x 0) as [->|]; [cbn; lia|]. apply Z.log2_lt_pow2; lia.
  - destruct (Z.eq_dec y 0) as [->|]; [cbn; lia|]. apply Z.log2_lt_pow2; lia.
Qed.
Lemma lor_u32 x y : 0 <= x < W32 -> 0 <= y < W32 -> 0 <= Z.lor x y < W32.
Proof. apply (lor_lt_pow2 x y 32). done. Qed.

Lemma land_bounds x y : 0 <= x -> 0 <= y -> 0 <= Z.land x y <= y.
Proof.
  intros Hx Hy. split; [apply Z.land_nonneg; auto|].
  rewrite <- (Z.lor_ldiff_and y x) at 2. rewrite Z.land_comm.
  assert (0 <= Z.ldiff y x) by (apply Z.ldiff_nonneg; auto).
  rewrite <- Z.add_nocarry_lor; [lia|].
  apply Z.bits_inj'. intros n Hn.
  rewrite !Z.land_spec, Z.ldiff_spec, Z.bits_0.
  destruct (Z.testbit y n), (Z.testbit x n); done.
Qed.

Lemma clr_bounds x y : 0 <= x -> 0 <= clr x y <= x.
Proof.
  intros Hx. assert (0 <= clr x y) by (apply Z.ldiff_nonneg; auto). split; [done|].
  rewrite <- (Z.lor_ldiff_and x y) at 2. unfold clr in *.
  rewrite <- Z.add_nocarry_lor.
  - pose proof (proj2 (Z.land_nonneg x y) (or_introl Hx)). lia.
  - apply Z.bits_inj'. intros n Hn.
    rewrite !Z.land_spec, Z.ldiff_spec, Z.bits_0.
    destruct (Z.testbit x n), (Z.testbit y n); done.
Qed.

Lemma PTE_ADDR_testbit x n :
  0 <= x < W32 -> 0 <= n -> Z.testbit (PTE_ADDR x) n = (Z.testbit x n && (12 <=? n))%bool.
Proof.
  intros Hx Hn. unfold PTE_ADDR, clr. rewrite u32_small by done. rewrite Z.ldiff_spec.
  change 0xFFF with (Z.ones 12). destruct (Z.leb_spec 12 n).
  - by rewrite Z.ones_spec_high by lia.
  - by rewrite Z.ones_spec_low by lia.
Qed.

Lemma flags_high f n : 0 <= f < 4096 -> 12 <= n -> Z.testbit f n = false.
Proof. intros. apply (testbit_small f 12); change (2 ^ 12) with 4096; lia. Qed.

Lemma PTE_ADDR_lor_flags x f :
  0 <= x < W32 -> 0 <= f < 4096 -> PTE_ADDR (Z.lor x f) = PTE_ADDR x.
Proof.
  intros Hx Hf. apply Z.bits_inj'. intros n Hn.
  assert (0 <= Z.lor x f < W32) by (apply lor_u32; unfold W32 in *; lia).
  rewrite !PTE_ADDR_testbit by done.
  rewrite Z.lor_spec. destruct (Z.leb_spec 12 n).
  - rewrite (flags_high f n) by done. by rewrite orb_false_r.
  - by rewrite !andb_false_r.
Qed.

Lemma PTE_ADDR_clr_flags x f :
  0 <= x < W32 -> 0 <= f < 4096 -> PTE_ADDR (clr x f) = PTE_ADDR x.
Proof.
  intros Hx Hf. apply Z.bits_inj'. intros n Hn. pose proof (clr_bounds x f).
  rewrite !PTE_ADDR_testbit; [|lia..].
  unfold clr. rewrite Z.ldiff_spec. destruct (Z.leb_spec 12 n).
  - rewrite (flags_high f n) by done. by rewrite andb_true_r.
  - by rewrite !andb_false_r.
Qed.

(** *** Kernel addresses and frames *)

Lemma P2V_V2P a : KERNBASE <= a < W32 -> P2V (V2P a) = a.
Proof. intros. page_lia. Qed.
Lemma V2P_P2V a : 0 <= a < KERNBASE -> V2P (P2V a) = a.
Proof. intros. page_lia. Qed.
Lemma P2V_small a : 0 <= a < KERNBASE -> P2V a = a + KERNBASE.
Proof. intros. page_lia. Qed.

(** The macro [SETGATE] splits the handler address in two halves that
    recombine to it. *)
Lemma gate_offset_SETGATE b sel off d : gate_offset (SETGATE b sel off d) = u32 off.
Proof.
  unfold gate_offset, SETGATE; cbn. rewrite land_65535, Z.shiftr_div_pow2 by done.
  change (2 ^ 16) with 65536. zlia.
Qed.
Lemma seg_base_SEG t base lim dpl : seg_base (SEG t base lim dpl) = u32 base.
Proof.
  unfold seg_base, SEG; cbn. rewrite land_65535, land_255, !Z.shiftr_div_pow2 by done.
  change (2 ^ 16) with 65536. change (2 ^ 24) with 16777216. zlia.
Qed.
