(* ===== verification/Memory.v ===== *)
(** Byte-addressed memory and the memory and string routines of string.c.

    A memory maps addresses (as the kernel uses them, that is kernel virtual
    addresses) to bytes; words are little endian.  The routines follow the
    loops of the source byte by byte (or word by word for [stosl]), so that
    overlapping source and destination behave as in the C code. *)

From S2P Require Import Prelude Mmu.
From stdpp Require Import base gmap list numbers.
From Stdlib Require Import ZArith Lia.
Open Scope Z_scope.

(** ** Loads and stores *)

(** An address with no cell reads as zero, and a read is reduced to a byte,
    so that every [gmap Z Z] is a memory. *)
Definition load8 (m : gmap Z Z) (a : Z) : Z := u8 (default 0 (m !! a)).
Definition store8 (m : gmap Z Z) (a v : Z) : gmap Z Z := <[a := u8 v]> m.

Definition load32 (m : gmap Z Z) (a : Z) : Z :=
  load8 m a + 256 * load8 m (a + 1) + 65536 * load8 m (a + 2)
  + 16777216 * load8 m (a + 3).
Definition store32 (m : gmap Z Z) (a v : Z) : gmap Z Z :=
  store8 (store8 (store8 (store8 m a v) (a + 1) (v / 256)) (a + 2) (v / 65536))
    (a + 3) (v / 16777216).

Fixpoint load_bytes (m : gmap Z Z) (a : Z) (n : nat) : list Z :=
  match n with
  | O => []
  | S n' => load8 m a :: load_bytes m (a + 1) n'
  end.
Fixpoint store_bytes (m : gmap Z Z) (a : Z) (bs : list Z) : gmap Z Z :=
  match bs with
  | [] => m
  | b :: bs' => store_bytes (store8 m a b) (a + 1) bs'
  end.

(** ** string.c *)

(** [rep stosb] and [rep stosl]. *)
Fixpoint stosb (m : gmap Z Z) (addr data : Z) (cnt : nat) : gmap Z Z :=
  match cnt with
  | O => m
  | S cnt' => stosb (store8 m addr data) (addr + 1) data cnt'
  end.
Fixpoint stosl (m : gmap Z Z) (addr data : Z) (cnt : nat) : gmap Z Z :=
  match cnt with
  | O => m
  | S cnt' => stosl (store32 m addr data) (addr + 4) data cnt'
  end.

Definition memset (m : gmap Z Z) (dst c n : Z) : gmap Z Z :=
  if ((dst mod 4 =? 0) && (n mod 4 =? 0))%bool then
    let c := Z.land c 0xFF in
    stosl m dst
      (Z.lor (Z.lor (Z.lor (Z.shiftl c 24) (Z.shiftl c 16)) (Z.shiftl c 8)) c)
      (Z.to_nat (n / 4))
  else stosb m dst c (Z.to_nat n).

Fixpoint memcmp_loop (m : gmap Z Z) (s1 s2 : Z) (n : nat) : Z :=
  match n with
  | O => 0
  | S n' =>
      if load8 m s1 =? load8 m s2 then memcmp_loop m (s1 + 1) (s2 + 1) n'
      else load8 m s1 - load8 m s2
  end.
Definition memcmp (m : gmap Z Z) (v1 v2 n : Z) : Z := memcmp_loop m v1 v2 (Z.to_nat n).

(** [while(n-- > 0) *d++ = *s++] *)
Fixpoint copy_up (m : gmap Z Z) (d s : Z) (n : nat) : gmap Z Z :=
  match n with
  | O => m
  | S n' => copy_up (store8 m d (load8 m s)) (d + 1) (s + 1) n'
  end.
(** [while(n-- > 0) *--d = *--s] *)
Fixpoint copy_down (m : gmap Z Z) (d s : Z) (n : nat) : gmap Z Z :=
  match n with
  | O => m
  | S n' => copy_down (store8 m (d - 1) (load8 m (s - 1))) (d - 1) (s - 1) n'
  end.
Definition memmove (m : gmap Z Z) (dst src n : Z) : gmap Z Z :=
  if ((src <? dst) && (dst <? src + n))%bool
  then copy_down m (dst + n) (src + n) (Z.to_nat n)
  else copy_up m dst src (Z.to_nat n).
Definition memcpy (m : gmap Z Z) (dst src n : Z) : gmap Z Z := memmove m dst src n.

Fixpoint strncmp (m : gmap Z Z) (p q : Z) (n : nat) : Z :=
  match n with
  | O => 0
  | S n' =>
      if (negb (load8 m p =? 0) && (load8 m p =? load8 m q))%bool
      then strncmp m (p + 1) (q + 1) n'
      else load8 m p - load8 m q
  end.

Fixpoint strncpy (m : gmap Z Z) (s t : Z) (n : nat) : gmap Z Z :=
  match n with
  | O => m
  | S n' =>
      let c := load8 m t in
      let m' := store8 m s c in
      if c =? 0 then stosb m' (s + 1) 0 n' else strncpy m' (s + 1) (t + 1) n'
  end.

(** The loop of [safestrcpy] and the store after it; [k] is [n - 1], the
    number of times [--n > 0] can still hold. *)
Fixpoint safestrcpy_loop (m : gmap Z Z) (s t : Z) (k : nat) : gmap Z Z :=
  match k with
  | O => store8 m s 0
  | S k' =>
      let c := load8 m t in
      let m' := store8 m s c in
      if c =? 0 then store8 m' (s + 1) 0 else safestrcpy_loop m' (s + 1) (t + 1) k'
  end.
Definition safestrcpy (m : gmap Z Z) (s t n : Z) : gmap Z Z :=
  if n <=? 0 then m else safestrcpy_loop m s t (Z.to_nat (n - 1)).

(** [strlen] stops at the first NUL byte; [fuel] bounds the scan. *)
Fixpoint strlen (m : gmap Z Z) (s : Z) (fuel : nat) : option Z :=
  match fuel with
  | O => None
  | S fuel' =>
      if load8 m s =? 0 then Some 0
      else n ← strlen m (s + 1) fuel'; Some (1 + n)
  end.

(** ** Facts about loads and stores *)

Lemma load8_range m a : 0 <= load8 m a < 256.
Proof. apply u8_range. Qed.
Lemma load32_range m a : 0 <= load32 m a < W32.
Proof.
  unfold load32, W32. pose proof (load8_range m a). pose proof (load8_range m (a + 1)).
  pose proof (load8_range m (a + 2)). pose proof (load8_range m (a + 3)). lia.
Qed.
#[export] Hint Resolve load8_range load32_range : kdb.

Lemma load8_store8 m a v b :
  load8 (store8 m a v) b = if decide (a = b) then u8 v else load8 m b.
Proof.
  unfold load8, store8. rewrite lookup_insert. case_decide; [|done]. cbn. zlia.
Qed.
Lemma load8_store8_eq m a v : load8 (store8 m a v) a = u8 v.
Proof. rewrite load8_store8. by rewrite decide_True. Qed.
Lemma load8_store8_ne m a v b : a ≠ b -> load8 (store8 m a v) b = load8 m b.
Proof. intros. rewrite load8_store8. by rewrite decide_False. Qed.

Lemma load8_store32 m a v b :
  load8 (store32 m a v) b =
  if decide (a <= b < a + 4) then u8 (v / 256 ^ (b - a)) else load8 m b.
Proof.
  unfold store32. rewrite !load8_store8. destruct (decide (a <= b < a + 4)).
  - assert (b - a = 0 \/ b - a = 1 \/ b - a = 2 \/ b - a = 3) as Hc by lia.
    destruct Hc as [E|[E|[E|E]]]; rewrite E; repeat case_decide; try lia;
      change (256 ^ 0) with 1; rewrite ?Z.div_1_r; done.
  - repeat case_decide; try lia; done.
Qed.

Lemma load32_ext m m' a :
  (forall x, a <= x < a + 4 -> load8 m x = load8 m' x) -> load32 m a = load32 m' a.
Proof. intros H. unfold load32. rewrite !H by lia. done. Qed.

Lemma load32_store32_eq m a v : load32 (store32 m a v) a = u32 v.
Proof.
  unfold load32. rewrite !load8_store32. repeat case_decide; try lia.
  replace (a - a) with 0 by lia. replace (a + 1 - a) with 1 by lia.
  replace (a + 2 - a) with 2 by lia. replace (a + 3 - a) with 3 by lia.
  change (256 ^ 0) with 1. change (256 ^ 1) with 256. change (256 ^ 2) with 65536.
  change (256 ^ 3) with 16777216. zlia.
Qed.
Lemma load32_store32_ne m a v b :
  a + 4 <= b \/ b + 4 <= a -> load32 (store32 m a v) b = load32 m b.
Proof.
  intros. apply load32_ext. intros x Hx. rewrite load8_store32. case_decide; [lia|done].
Qed.
Lemma load8_store32_ne m a v b :
  b < a \/ a + 4 <= b -> load8 (store32 m a v) b = load8 m b.
Proof. intros. rewrite load8_store32. case_decide; [lia|done]. Qed.
#[export] Hint Rewrite load8_store8_eq load32_store32_eq : mem.

Lemma length_load_bytes m a n : length (load_bytes m a n) = n.
Proof. revert a; induction n; intros; cbn; [done|]. by rewrite IHn. Qed.
Lemma lookup_load_bytes m a n i :
  (i < n)%nat -> load_bytes m a n !! i = Some (load8 m (a + Z.of_nat i)).
Proof.
  revert a i; induction n as [|n IH]; intros a [|i] Hi; cbn; try lia.
  - f_equal; f_equal; lia.
  - rewrite IH by lia. f_equal; f_equal; lia.
Qed.
Lemma load_bytes_ext m m' a n :
  (forall x, a <= x < a + Z.of_nat n -> load8 m x = load8 m' x) ->
  load_bytes m a n = load_bytes m' a n.
Proof.
  revert a; induction n as [|n IH]; intros a H; cbn; [done|]. f_equal.
  - apply H. lia.
  - apply IH. intros. apply H. lia.
Qed.
Lemma load_bytes_Forall m a n : Forall (fun b => 0 <= b < 256) (load_bytes m a n).
Proof. revert a; induction n; cbn; constructor; auto using load8_range. Qed.

Lemma load8_store_bytes m a bs x :
  load8 (store_bytes m a bs) x =
  if decide (a <= x < a + Z.of_nat (length bs))
  then u8 (default 0 (bs !! Z.to_nat (x - a))) else load8 m x.
Proof.
  revert m a; induction bs as [|b bs IH]; intros m a; cbn [store_bytes length].
  - rewrite decide_False by lia. done.
  - rewrite IH, load8_store8. repeat case_decide; try lia.
    + replace (Z.to_nat (x - a)) with (S (Z.to_nat (x - (a + 1)))) by lia. done.
    + subst. by replace (Z.to_nat (x - x)) with O by lia.
Qed.

(** ** The routines compute what their names say *)

Lemma load8_stosb m a c n x :
  load8 (stosb m a c n) x =
  if decide (a <= x < a + Z.of_nat n) then u8 c else load8 m x.
Proof.
  revert m a; induction n as [|n IH]; intros m a; cbn [stosb].
  - rewrite decide_False by lia. done.
  - rewrite IH, load8_store8. repeat case_decide; try lia; done.
Qed.

Lemma load8_stosl m a c w n x :
  (forall k, 0 <= k < 4 -> u8 (w / 256 ^ k) = c) ->
  load8 (stosl m a w n) x =
  if decide (a <= x < a + 4 * Z.of_nat n) then c else load8 m x.
Proof.
  intros Hw. revert m a; induction n as [|n IH]; intros m a; cbn [stosl].
  - rewrite decide_False by lia. done.
  - rewrite IH, load8_store32. repeat case_decide; try lia; try done.
    apply Hw. lia.
Qed.

(** [memset] sets exactly the [n] bytes at [dst], in both its paths. *)
Lemma load8_memset m dst c n x :
  0 <= n ->
  load8 (memset m dst c n) x =
  if decide (dst <= x < dst + n) then u8 c else load8 m x.
Proof.
  intros Hn. unfold memset. case_if.
  - bool_hyps. rewrite (load8_stosl _ _ (u8 c)).
    + replace (4 * Z.of_nat (Z.to_nat (n / 4))) with n by zlia. done.
    + rewrite land_255. fold (u8 c). pose proof (u8_range c). intros k Hk.
      rewrite !Z.shiftl_mul_pow2 by lia.
      rewrite (lor_multiple_add (u8 c) 24 (u8 c * 2 ^ 16)) by lia.
      replace (u8 c * 2 ^ 24 + u8 c * 2 ^ 16) with ((u8 c * 257) * 2 ^ 16) by lia.
      rewrite (lor_multiple_add (u8 c * 257) 16 (u8 c * 2 ^ 8)) by lia.
      replace (u8 c * 257 * 2 ^ 16 + u8 c * 2 ^ 8) with ((u8 c * 65793) * 2 ^ 8) by lia.
      rewrite lor_multiple_add by lia.
      assert (k = 0 \/ k = 1 \/ k = 2 \/ k = 3) as [->|[->|[->| ->]]] by lia; cbn; zlia.
  - rewrite load8_stosb. replace (Z.of_nat (Z.to_nat n)) with n by lia. done.
Qed.

Lemma load8_copy_up m d s n x :
  d <= s \/ s + Z.of_nat n <= d ->
  load8 (copy_up m d s n) x =
  if decide (d <= x < d + Z.of_nat n) then load8 m (s + (x - d)) else load8 m x.
Proof.
  revert m d s; induction n as [|n IH]; intros m d s Hd; cbn [copy_up].
  - rewrite decide_False by lia. done.
  - rewrite IH by lia. pose proof (load8_range m s) as Hr.
    rewrite !load8_store8. repeat case_decide; try lia; subst.
    + f_equal; lia.
    + unfold u8. rewrite Z.mod_small by done. f_equal; lia.
Qed.

Lemma load8_copy_down m d s n x :
  s <= d \/ d <= s - Z.of_nat n ->
  load8 (copy_down m d s n) x =
  if decide (d - Z.of_nat n <= x < d) then load8 m (s + (x - d)) else load8 m x.
Proof.
  revert m d s; induction n as [|n IH]; intros m d s Hd; cbn [copy_down].
  - rewrite decide_False by lia. done.
  - rewrite IH by lia. pose proof (load8_range m (s - 1)) as Hr.
    rewrite !load8_store8. repeat case_decide; try lia; subst.
    + f_equal; lia.
    + unfold u8. rewrite Z.mod_small by done. f_equal; lia.
Qed.

(** The behaviour of [memmove] on every pair of (possibly overlapping)
    ranges. *)
Lemma load8_memmove m dst src n x :
  0 <= n ->
  load8 (memmove m dst src n) x =
  if decide (dst <= x < dst + n) then load8 m (src + (x - dst)) else load8 m x.
Proof.
  intros Hn. unfold memmove. case_if; bool_hyps.
  - rewrite load8_copy_down by lia. rewrite Z2Nat.id by lia.
    repeat case_decide; try lia. f_equal; lia.
  - rewrite load8_copy_up; rewrite Z2Nat.id by lia; [done|].
    apply andb_false_iff in E as [E|E]; bool_hyps; lia.
Qed.

Lemma load_bytes_memmove m dst src n :
  load_bytes (memmove m dst src (Z.of_nat n)) dst n = load_bytes m src n.
Proof.
  apply list_eq. intros i. destruct (decide (i < n)%nat).
  - rewrite !lookup_load_bytes by done. rewrite load8_memmove by lia.
    rewrite decide_True by lia. do 2 f_equal. lia.
  - rewrite !lookup_ge_None_2; rewrite ?length_load_bytes; [done|lia..].
Qed.

(** [safestrcpy] writes only in the [n] bytes at [s]. *)
Lemma load8_safestrcpy_loop_out m s t k x :
  x < s \/ s + Z.of_nat k < x -> load8 (safestrcpy_loop m s t k) x = load8 m x.
Proof.
  revert m s t; induction k as [|k IH]; intros m s t Hx; cbn [safestrcpy_loop].
  - rewrite load8_store8_ne by lia. done.
  - case_if.
    + rewrite !load8_store8_ne by lia. done.
    + rewrite IH by lia. rewrite load8_store8_ne by lia. done.
Qed.

Lemma safestrcpy_loop_terminated m s t k :
  exists j, 0 <= j <= Z.of_nat k /\ load8 (safestrcpy_loop m s t k) (s + j) = 0.
Proof.
  revert m s t; induction k as [|k IH]; intros m s t; cbn [safestrcpy_loop].
  - exists 0. split; [lia|]. rewrite Z.add_0_r. rewrite load8_store8_eq. done.
  - case_if.
    + exists 0. split; [lia|]. rewrite Z.add_0_r, load8_store8_ne by lia.
      rewrite load8_store8_eq. bool_hyps. by rewrite E.
    + destruct (IH (store8 m s (load8 m t)) (s + 1) (t + 1)) as (j & Hj & Hz).
      exists (j + 1). split; [lia|]. rewrite <- Hz. f_equal. lia.
Qed.

Lemma strncmp_zero m p q n :
  strncmp m p q n = 0 <->
  (forall i, 0 <= i < Z.of_nat n ->
     (forall j, 0 <= j < i -> load8 m (p + j) ≠ 0) -> load8 m (p + i) = load8 m (q + i)).
Proof.
  revert p q; induction n as [|n IH]; intros p q; cbn [strncmp].
  - split; [lia|done].
  - destruct (Z.eqb_spec (load8 m p) 0) as [Hz|Hz]; cbn [negb andb].
    + split.
      * intros Heq i Hi Hj. destruct (Z.eq_dec i 0) as [->|].
        -- rewrite !Z.add_0_r. lia.
        -- exfalso. apply (Hj 0); [lia|]. by rewrite Z.add_0_r.
      * intros H. specialize (H 0 ltac:(lia)). rewrite !Z.add_0_r in H.
        rewrite H; [lia|intros; lia].
    + destruct (Z.eqb_spec (load8 m p) (load8 m q)) as [He|He].
      * rewrite IH. split.
        -- intros H i Hi Hj. destruct (Z.eq_dec i 0) as [->|]; [by rewrite !Z.add_0_r|].
           specialize (H (i - 1) ltac:(lia)).
           replace (p + 1 + (i - 1)) with (p + i) in H by lia.
           replace (q + 1 + (i - 1)) with (q + i) in H by lia. apply H.
           intros j Hj'. replace (p + 1 + j) with (p + (j + 1)) by lia. apply Hj. lia.
        -- intros H i Hi Hj.
           replace (p + 1 + i) with (p + (i + 1)) by lia.
           replace (q + 1 + i) with (q + (i + 1)) by lia. apply H; [lia|].
           intros j Hj'. destruct (Z.eq_dec j 0) as [->|]; [by rewrite Z.add_0_r|].
           replace (p + j) with (p + 1 + (j - 1)) by lia. apply Hj. lia.
      * split; [lia|]. intros H. specialize (H 0 ltac:(lia)).
        rewrite !Z.add_0_r in H. exfalso. apply He, H. intros; lia.
Qed.

Lemma strlen_spec m s n fuel :
  strlen m s fuel = Some n <->
  0 <= n < Z.of_nat fuel /\ load8 m (s + n) = 0 /\
  (forall i, 0 <= i < n -> load8 m (s + i) ≠ 0).
Proof.
  revert s n; induction fuel as [|fuel IH]; intros s n; cbn [strlen].
  - split; [done|lia].
  - destruct (Z.eqb_spec (load8 m s) 0) as [Hz|Hz].
    + split.
      * intros [= <-]. rewrite Z.add_0_r. split_and!; lia || done.
      * intros (Hn & H0 & Hlt). destruct (Z.eq_dec n 0) as [->|]; [done|].
        exfalso. apply (Hlt 0); [lia|]. by rewrite Z.add_0_r.
    + split.
      * intros H. destruct (strlen m (s + 1) fuel) as [k|] eqn:E; [|done].
        cbn in H. injection H as <-. apply IH in E as (Hk & H0 & Hlt). split_and!.
        -- lia.
        -- lia.
        -- rewrite <- H0. f_equal. lia.
        -- intros i Hi. destruct (Z.eq_dec i 0) as [->|]; [by rewrite Z.add_0_r|].
           replace (s + i) with (s + 1 + (i - 1)) by lia. apply Hlt. lia.
      * intros (Hn & H0 & Hlt). assert (n ≠ 0).
        { intros ->. rewrite Z.add_0_r in H0. done. }
        assert (strlen m (s + 1) fuel = Some (n - 1)) as ->.
        { apply IH. split_and!; [lia|lia| |].
          - rewrite <- H0. f_equal. lia.
          - intros i Hi. replace (s + 1 + i) with (s + (i + 1)) by lia. apply Hlt. lia. }
        cbn. f_equal. lia.
Qed.
