(* ===== verification/Boot.v ===== *)
(** Starting the machine: the boot loader (bootmain.c), which reads the kernel
    from the disk, and the search for the processors (mp.c). The loader places
    every segment of the kernel; the table of the processors is read back as
    it was written, and an entry of an unknown type is never passed. *)

From S2P Require Import Prelude Mmu Memory.
From stdpp Require Import base gmap list strings.
From Stdlib Require Import ZArith Lia.
Open Scope Z_scope.

(** ** The boot loader *)

Definition SECTSIZE : Z := 512.
Definition BOOT_MAGIC : Z := 0x464C457F.
(** Where the ELF header is read to. *)
Definition SCRATCH : Z := 0x10000.

(** Memory, and the disk controller: the bytes written to its ports, and for
    how many polls it will still be busy. *)
Record boot := mk_boot { bmem : gmap Z Z; ports : gmap Z Z; polls : nat }.

Section Loader.
(** The bytes of the disk. *)
Context (disk : Z -> Z).

Definition in_status : M boot Z := fun s => match polls s with S n => Ok 0x80 {| s with polls := n |} | O => Ok 0x40 s end.
Fixpoint waitdisk_loop (fuel : nat) : M boot unit :=
  r ← in_status;
  if negb (Z.land r 0xC0 =? 0x40) then match fuel with O => diverge | S fuel' => waitdisk_loop fuel' end else mret tt.
Definition waitdisk : M boot unit := n ← gets polls; waitdisk_loop n.
Definition out (p v : Z) : M boot unit := modify (fun s => {| s with ports := <[p := u8 v]> (ports s) |}).
Definition port (P : gmap Z Z) (p : Z) : Z := default 0 (P !! p).
(** The sector that the ports select. *)
Definition lba (P : gmap Z Z) : Z := port P 0x1F3 + 256 * port P 0x1F4 + 65536 * port P 0x1F5 + 16777216 * Z.land (port P 0x1F6) 0x0f.
(** [insl]: the data of the sector. *)
Definition in_sector (dst : Z) : M boot unit :=
  modify (fun s => {| s with bmem := store_bytes (bmem s) dst (disk <$> seqZ (SECTSIZE * lba (ports s)) SECTSIZE) |}).

Definition readsect (dst offset : Z) : M boot unit :=
  waitdisk ;;
  out 0x1F2 1 ;;
  out 0x1F3 offset ;;
  out 0x1F4 (Z.shiftr offset 8) ;;
  out 0x1F5 (Z.shiftr offset 16) ;;
  out 0x1F6 (Z.lor (Z.shiftr offset 24) 0xE0) ;;
  out 0x1F7 0x20 ;;
  waitdisk ;;
  in_sector dst.
Fixpoint readseg_loop (pa epa offset : Z) (fuel : nat) : M boot unit :=
  if pa <? epa then
    match fuel with
    | O => diverge
    | S fuel' => readsect pa offset ;; readseg_loop (u32 (pa + SECTSIZE)) epa (u32 (offset + 1)) fuel'
    end
  else mret tt.
Definition readseg (pa count offset : Z) : M boot unit :=
  let epa := u32 (pa + count) in
  let pa := u32 (pa - offset mod SECTSIZE) in
  readseg_loop pa epa (offset / SECTSIZE + 1) (Z.to_nat ((epa - pa) / SECTSIZE + 1)).

Definition ld (a : Z) : M boot Z := gets (fun s => load32 (bmem s) a).
(** The loop over the program headers at [ph], of which [n] remain. *)
Fixpoint load_headers (ph : Z) (n : nat) : M boot unit :=
  match n with
  | O => mret tt
  | S n' =>
      pa ← ld (ph + 12);
      filesz ← ld (ph + 16);
      off ← ld (ph + 4);
      readseg pa filesz off ;;
      memsz ← ld (ph + 20);
      filesz ← ld (ph + 16);
      when (filesz <? memsz) (modify (fun s => {| s with bmem := stosb (bmem s) (u32 (pa + filesz)) 0 (Z.to_nat (memsz - filesz)) |})) ;;
      load_headers (ph + 32) n'
  end.
(** The entry point; [None] when the magic number is wrong. *)
Definition bootmain : M boot (option Z) :=
  readseg SCRATCH 4096 0 ;;
  magic ← ld SCRATCH;
  if negb (magic =? BOOT_MAGIC) then mret None else
  phoff ← ld (SCRATCH + 28);
  phnum ← gets (fun s => load8 (bmem s) (SCRATCH + 44) + 256 * load8 (bmem s) (SCRATCH + 45));
  load_headers (SCRATCH + phoff) (Z.to_nat phnum) ;;
  entry ← ld (SCRATCH + 24);
  mret (Some entry).

(** *** Reading *)

Context (Hdisk : forall i, 0 <= disk i < 256).

Lemma waitdisk_eq s : waitdisk s = Ok tt {| s with polls := 0%nat |}.
Proof.
  unfold waitdisk. unfold mbind at 1, M_bind at 1, gets at 1. assert (forall n s, polls s = n -> waitdisk_loop n s = Ok tt {| s with polls := 0%nat |}) as H; [|by apply H].
  clear. induction n as [|n IH]; intros s Hn; cbn [waitdisk_loop]; unfold mbind, M_bind, in_status; rewrite Hn; [cbn; rewrite <- Hn; by destruct s|]. cbn. by rewrite IH.
Qed.
Lemma lba_eq (P : gmap Z Z) x v :
  0 <= x < 268435456 ->
  lba (<[0x1F7 := v]> (<[0x1F6 := u8 (Z.lor (Z.shiftr x 24) 0xE0)]> (<[0x1F5 := u8 (Z.shiftr x 16)]> (<[0x1F4 := u8 (Z.shiftr x 8)]> (<[0x1F3 := u8 x]> P))))) = x.
Proof.
  intros Hx. unfold lba, port. rewrite (lookup_insert_ne _ 0x1F7 0x1F3), (lookup_insert_ne _ 0x1F7 0x1F4), (lookup_insert_ne _ 0x1F7 0x1F5), (lookup_insert_ne _ 0x1F7 0x1F6) by done.
  rewrite (lookup_insert_eq _ 0x1F6), (lookup_insert_ne _ 0x1F6 0x1F5), (lookup_insert_eq _ 0x1F5), (lookup_insert_ne _ 0x1F6 0x1F4), (lookup_insert_ne _ 0x1F5 0x1F4), (lookup_insert_eq _ 0x1F4) by done.
  rewrite (lookup_insert_ne _ 0x1F6 0x1F3), (lookup_insert_ne _ 0x1F5 0x1F3), (lookup_insert_ne _ 0x1F4 0x1F3), (lookup_insert_eq _ 0x1F3) by done. cbn [default from_option id].
  assert (Z.land (u8 (Z.lor (Z.shiftr x 24) 224)) 15 = Z.shiftr x 24) as ->.
  { change 15 with (Z.ones 4). rewrite Z.shiftr_div_pow2 by lia. change (2 ^ 24) with 16777216. assert (0 <= x / 16777216 < 16) as Hq by (Z.to_euclidean_division_equations; lia). revert Hq. generalize (x / 16777216). intros y Hy.
    assert (Forall (fun y => Z.land (u8 (Z.lor y 224)) (Z.ones 4) = y) (seqZ 0 16)) as HF by (apply (bool_decide_eq_true_1 _); vm_compute; reflexivity).
    rewrite list.Forall_forall in HF. apply HF, elem_of_seqZ. lia. }
  rewrite !Z.shiftr_div_pow2 by lia. unfold u8. change (2 ^ 8) with 256. change (2 ^ 16) with 65536. change (2 ^ 24) with 16777216. Z.to_euclidean_division_equations. lia.
Qed.
Lemma wp_readsect dst k Q s :
  0 <= k < 268435456 -> (forall P, Q tt (mk_boot (store_bytes (bmem s) dst (disk <$> seqZ (SECTSIZE * k) SECTSIZE)) P 0)) -> wp (readsect dst k) Q s.
Proof.
  intros Hk HQ. unfold readsect. rewrite wp_bind, (wp_eq _ _ _ _ _ (waitdisk_eq _)). unfold out. wp_steps. cbn [ports bmem polls].
  rewrite (wp_eq _ _ _ _ _ (waitdisk_eq _)). unfold in_sector. wp_steps. cbn [ports bmem polls]. rewrite lba_eq by done. apply HQ.
Qed.

(** *** A range of the disk *)

(** [m'] is [m] with the [n] bytes of the disk at [d] stored at [a]; up to a
    sector of memory after them may have changed too. *)
Definition copied (m m' : gmap Z Z) (a n d : Z) : Prop := forall x,
  (a <= x < a + n -> load8 m' x = disk (d + (x - a))) /\
  (x < a \/ a + n + 511 <= x -> load8 m' x = load8 m x).
Lemma load8_sector m a k x :
  load8 (store_bytes m a (disk <$> seqZ (SECTSIZE * k) SECTSIZE)) x = if decide (a <= x < a + 512) then disk (SECTSIZE * k + (x - a)) else load8 m x.
Proof.
  rewrite load8_store_bytes, length_fmap, length_seqZ. change (Z.of_nat (Z.to_nat SECTSIZE)) with 512. case_decide; [|done].
  rewrite list_lookup_fmap, lookup_seqZ_lt by (unfold SECTSIZE; lia). cbn. rewrite Z2Nat.id by lia. unfold u8. apply Z.mod_small, Hdisk.
Qed.
Lemma wp_readseg_loop fuel : forall pa epa k s,
  0 <= pa -> epa + 511 < 4294967296 -> epa <= pa + 512 * Z.of_nat fuel -> 0 <= k -> k + Z.of_nat fuel <= 268435456 ->
  wp (readseg_loop pa epa k fuel) (fun _ s' => copied (bmem s) (bmem s') pa (epa - pa) (SECTSIZE * k)) s.
Proof.
  induction fuel as [|fuel IH]; intros pa epa k s Hpa Hepa Hf Hk Hkf; cbn [readseg_loop]; destruct (Z.ltb_spec pa epa) as [Hlt|Hge]; try lia.
  - apply wp_ret. intros x. split; [lia|done].
  - rewrite wp_bind. apply wp_readsect; [lia|]. intros P. unfold u32, W32. change SECTSIZE with 512. rewrite !Z.mod_small by lia.
    eapply wp_mono; [apply (IH (pa + 512) epa (k + 1)); lia|]. cbn [bmem]. intros _ s' H x. specialize (H x) as [H1 H2]. rewrite load8_sector in H2. unfold SECTSIZE in *. split.
    + intros Hx. destruct (decide (pa + 512 <= x)); [rewrite H1 by lia; f_equal; lia|]. rewrite H2 by lia. by rewrite decide_True by lia.
    + intros Hx. rewrite H2 by lia. by rewrite decide_False by lia.
  - apply wp_ret. intros x. split; [lia|done].
Qed.
Lemma wp_readseg pa count off s :
  0 <= pa - off mod 512 -> 0 <= count -> pa + count + 511 < 4294967296 -> 0 <= off -> off + count + 1024 <= 137438953472 ->
  wp (readseg pa count off) (fun _ s' => copied (bmem s) (bmem s') (pa - off mod 512) (count + off mod 512) (512 + (off - off mod 512))) s.
Proof.
  intros Hlo Hc Hhi Ho Hdk. unfold readseg, SECTSIZE, u32, W32. pose proof (Z.mod_pos_bound off 512 ltac:(lia)) as Hm. pose proof (Z.div_mod off 512 ltac:(lia)) as Hd. rewrite (Z.mod_small (pa + count)), (Z.mod_small (pa - off mod 512)) by lia.
  set (n := Z.to_nat _). assert (512 * Z.of_nat n <= count + off mod 512 + 512 /\ count + off mod 512 <= 512 * Z.of_nat n) as [Hn1 Hn2]. { unfold n. pose proof (Z.div_mod (pa + count - (pa - off mod 512)) 512 ltac:(lia)). pose proof (Z.mod_pos_bound (pa + count - (pa - off mod 512)) 512 ltac:(lia)). lia. }
  eapply wp_mono; [apply wp_readseg_loop; lia|]. cbn beta. intros _ s'. unfold SECTSIZE. replace (pa + count - (pa - off mod 512)) with (count + off mod 512) by lia.
  by replace (512 * (off / 512 + 1)) with (512 + (off - off mod 512)) by lia.
Qed.

(** *** The segments *)

Definition u32_at (a : Z) : Z := disk a + 256 * disk (a + 1) + 65536 * disk (a + 2) + 16777216 * disk (a + 3).
Definition u16_at (a : Z) : Z := disk a + 256 * disk (a + 1).
(** A program header: where its bytes are in the file and in memory. *)
Record segment := { s_off : Z; s_pa : Z; s_filesz : Z; s_memsz : Z }.
Definition lo (g : segment) : Z := s_pa g - s_off g mod 512.
(** The program headers of the kernel on the disk: the file starts at the
    second sector. *)
Definition header (k : nat) : segment :=
  let a := 512 + u32_at (512 + 28) + 32 * Z.of_nat k in
  {| s_off := u32_at (a + 4); s_pa := u32_at (a + 12); s_filesz := u32_at (a + 16); s_memsz := u32_at (a + 20) |}.
Definition headers : list segment := header <$> seq 0 (Z.to_nat (u16_at (512 + 44))).

(** A header that asks for nothing, as the one that describes the stack. *)
Definition nothing (g : segment) : bool := (s_filesz g =? 0) && (s_memsz g =? 0) && (s_off g mod 512 =? 0).
(** A segment lies after the scratch page, and the bytes that are read with
    its first sector do too. *)
Definition placed (g : segment) : Prop :=
  nothing g = false ->
  SCRATCH + 4096 <= lo g /\ s_filesz g <= s_memsz g /\ s_pa g + s_memsz g + 511 < 4294967296.
(** The segments come in increasing order. *)
Definition before (g h : segment) : Prop := nothing g = false -> nothing h = false -> s_pa g + s_memsz g <= lo h.
Fixpoint increasing (l : list segment) : Prop :=
  match l with [] => True | g :: l' => Forall (before g) l' /\ increasing l' end.
Definition loaded (m : gmap Z Z) (g : segment) : Prop := forall i, 0 <= i < s_memsz g ->
  load8 m (s_pa g + i) = if decide (i < s_filesz g) then disk (512 + s_off g + i) else 0.

(** What loading the segments [l] does: they are there, and the memory below
    all of them is as it was. *)
Definition loads (m m' : gmap Z Z) (l : list segment) : Prop :=
  Forall (loaded m') l /\
  forall x, Forall (fun g => nothing g = true \/ x < lo g) l -> load8 m' x = load8 m x.
(** The headers [l] are in memory at [ph]. *)
Definition at_headers (m : gmap Z Z) (ph : Z) (l : list segment) : Prop := forall k g, l !! k = Some g ->
  let a := ph + 32 * Z.of_nat k in
  load32 m (a + 4) = s_off g /\ load32 m (a + 12) = s_pa g /\ load32 m (a + 16) = s_filesz g /\ load32 m (a + 20) = s_memsz g.

Lemma load32_bound m a : 0 <= load32 m a < 4294967296.
Proof. unfold load32, load8, u8. Z.to_euclidean_division_equations. lia. Qed.
Lemma at_headers_ext m m' ph l :
  (forall x, ph <= x < ph + 32 * Z.of_nat (length l) -> load8 m' x = load8 m x) -> at_headers m ph l -> at_headers m' ph l.
Proof.
  intros H Ha k g Hk. pose proof (lookup_lt_Some _ _ _ Hk). cbn zeta. rewrite !(load32_ext m' m) by (intros; apply H; lia). by apply Ha.
Qed.
Lemma at_headers_tail m ph g l : at_headers m ph (g :: l) -> at_headers m (ph + 32) l.
Proof. intros H k h Hk. specialize (H (S k) h Hk). cbn zeta in *. by replace (ph + 32 + 32 * Z.of_nat k) with (ph + 32 * Z.of_nat (S k)) by lia. Qed.

(** The fields of a header are 32 bits wide. *)
Definition wide (g : segment) : Prop := 0 <= s_off g < 4294967296 /\ 0 <= s_pa g < 4294967296 /\ 0 <= s_filesz g < 4294967296 /\ 0 <= s_memsz g < 4294967296.
Lemma nothing_true g : nothing g = true -> s_filesz g = 0 /\ s_memsz g = 0 /\ s_off g mod 512 = 0.
Proof. unfold nothing. rewrite !andb_true_iff, !Z.eqb_eq. tauto. Qed.
Lemma readseg_nothing pa off s : 0 <= pa < 4294967296 -> off mod 512 = 0 -> readseg pa 0 off s = Ok tt s.
Proof. intros Hpa Ho. unfold readseg, SECTSIZE, u32, W32. rewrite Ho, Z.add_0_r, Z.sub_0_r, Z.mod_small, Z.sub_diag by lia. cbn [Z.to_nat]. change (Z.to_nat (0 / 512 + 1)) with 1%nat. cbn [readseg_loop]. by rewrite Z.ltb_irrefl. Qed.
Lemma wp_readseg_segment g s :
  wide g -> placed g ->
  wp (readseg (s_pa g) (s_filesz g) (s_off g)) (fun _ s' =>
    (forall x, nothing g = true \/ x < lo g -> load8 (bmem s') x = load8 (bmem s) x) /\
    (forall i, 0 <= i < s_filesz g -> load8 (bmem s') (s_pa g + i) = disk (512 + s_off g + i))) s.
Proof.
  intros (W1 & W2 & W3 & W4) Hp. destruct (nothing g) eqn:Hn.
  { apply nothing_true in Hn as (-> & _ & Ho). rewrite (wp_eq _ _ _ _ _ (readseg_nothing _ _ s W2 Ho)). split; [done|lia]. }
  destruct (Hp Hn) as (P1 & P2 & P3). unfold lo, SCRATCH in *. pose proof (Z.mod_pos_bound (s_off g) 512 ltac:(lia)).
  eapply wp_mono; [apply wp_readseg; lia|]. cbn beta. intros _ s' Hc. split.
  - intros x [?|Hx]; [done|]. apply Hc. lia.
  - intros i Hi. destruct (Hc (s_pa g + i)) as [Hx _]. rewrite Hx by lia. f_equal. lia.
Qed.

(** The zeroes after the bytes of the file. *)
Definition zeroed (m : gmap Z Z) (g : segment) : gmap Z Z :=
  if s_filesz g <? s_memsz g then stosb m (u32 (s_pa g + s_filesz g)) 0 (Z.to_nat (s_memsz g - s_filesz g)) else m.
Lemma load8_zeroed m g x :
  wide g -> placed g ->
  load8 (zeroed m g) x = if decide (s_pa g + s_filesz g <= x < s_pa g + s_memsz g) then 0 else load8 m x.
Proof.
  intros (W1 & W2 & W3 & W4) Hp. unfold zeroed. destruct (Z.ltb_spec (s_filesz g) (s_memsz g)) as [Hlt|Hge]; [|by rewrite decide_False by lia].
  destruct (nothing g) eqn:Hn; [apply nothing_true in Hn; lia|]. destruct (Hp Hn) as (P1 & P2 & P3).
  unfold u32, W32. rewrite Z.mod_small, load8_stosb, Z2Nat.id by lia. by replace (s_pa g + s_filesz g + (s_memsz g - s_filesz g)) with (s_pa g + s_memsz g) by lia.
Qed.
Lemma loads_one m m1 g :
  wide g -> placed g -> (forall x, nothing g = true \/ x < lo g -> load8 m1 x = load8 m x) ->
  (forall i, 0 <= i < s_filesz g -> load8 m1 (s_pa g + i) = disk (512 + s_off g + i)) ->
  loads m (zeroed m1 g) [g].
Proof.
  intros Hw Hp Hlow Hread. split.
  - apply Forall_singleton. intros i Hi. rewrite load8_zeroed by done. repeat case_decide; try lia. apply Hread. lia.
  - intros x Hx. apply (proj1 (Forall_singleton _ _)) in Hx. rewrite load8_zeroed by done. cbn beta in Hx. rewrite decide_False; [exact (Hlow x Hx)|].
    destruct Hw as (W1 & W2 & W3 & W4). pose proof (Z.mod_pos_bound (s_off g) 512 ltac:(lia)). unfold lo in Hx. destruct Hx as [Hn%nothing_true|Hx]; lia.
Qed.
(** A segment that is loaded stays while later ones are. *)
Lemma loaded_kept m m' g l :
  wide g -> (forall x, Forall (fun h => nothing h = true \/ x < lo h) l -> load8 m' x = load8 m x) -> Forall (before g) l -> loaded m g -> loaded m' g.
Proof.
  intros Hw Hk Hb Hl i Hi. rewrite Hk; [by apply Hl|]. eapply Forall_impl; [exact Hb|]. cbn beta. intros h H. destruct (nothing h) eqn:Hh; [by left|right].
  assert (nothing g = false) as Hg. { destruct (nothing g) eqn:E; [|done]. apply nothing_true in E. lia. } specialize (H Hg Hh). lia.
Qed.

(** The headers [l] are loaded in their order. *)
Lemma wp_load_headers l : forall ph s,
  at_headers (bmem s) ph l -> Forall wide l -> Forall placed l -> increasing l -> ph + 32 * Z.of_nat (length l) <= SCRATCH + 4096 ->
  wp (load_headers ph (length l)) (fun _ s' => loads (bmem s) (bmem s') l) s.
Proof.
  induction l as [|g l IH]; intros ph s Ha Hw Hp Hi Hend; cbn [length load_headers].
  { apply wp_ret. split; [constructor|done]. }
  apply list.Forall_cons in Hw as [Wg Hw]. apply list.Forall_cons in Hp as [Pg Hp]. destruct Hi as [Hb Hi]. cbn [length] in Hend.
  destruct (Ha 0%nat g eq_refl) as (A1 & A2 & A3 & A4). rewrite Z.mul_0_r, Z.add_0_r in A1, A2, A3, A4.
  unfold ld. wp_steps. rewrite A1, A2, A3. eapply wp_mono; [by apply wp_readseg_segment|]. cbn beta. intros _ s1 [Hsame Hread]. wp_steps.
  assert (forall x, ph <= x < ph + 32 * Z.of_nat (length (g :: l)) -> load8 (bmem s1) x = load8 (bmem s) x) as Hhd.
  { intros x Hx. apply Hsame. destruct (nothing g) eqn:Hn; [by left|right]. destruct (Pg Hn) as [? _]. cbn [length] in Hx. lia. }
  rewrite !(load32_ext (bmem s1) (bmem s)) by (intros; apply Hhd; cbn [length]; lia). rewrite A3, A4.
  assert (loads (bmem s) (zeroed (bmem s1) g) [g]) as [Hg Hlow] by (by apply loads_one). apply (proj1 (Forall_singleton _ _)) in Hg.
  assert (forall s2, bmem s2 = zeroed (bmem s1) g -> wp (load_headers (ph + 32) (length l)) (fun _ s' => loads (bmem s) (bmem s') (g :: l)) s2) as Hgo.
  { intros s2 E2. assert (forall x, ph <= x < ph + 32 * Z.of_nat (length (g :: l)) -> load8 (bmem s2) x = load8 (bmem s) x) as Hhd2.
    { intros x Hx. rewrite E2. apply Hlow, Forall_singleton. destruct (nothing g) eqn:Hn; [by left|right]. destruct (Pg Hn) as [? _]. cbn [length] in Hx. lia. }
    eapply wp_mono; [apply IH; [|done..|lia]|]; [apply (at_headers_ext (bmem s)); [intros x Hx; apply Hhd2; cbn [length]; lia|by eapply at_headers_tail]|].
    cbn beta. intros _ s' [L1 L2]. rewrite E2 in L2. split.
    - constructor; [|done]. by eapply loaded_kept.
    - intros x Hx. apply list.Forall_cons in Hx as [Hx1 Hx2]. rewrite L2 by done. by apply Hlow, Forall_singleton. }
  unfold zeroed in Hgo. destruct (s_filesz g <? s_memsz g); [|by apply Hgo]. apply wp_modify, Hgo. done.
Qed.

Lemma header_byte m m' : copied m m' SCRATCH 4096 512 -> forall a, 0 <= a < 4096 -> load8 m' (SCRATCH + a) = disk (512 + a).
Proof. intros H a Ha. destruct (H (SCRATCH + a)) as [Hx _]. rewrite Hx by lia. f_equal. lia. Qed.
Lemma header_page m m' : copied m m' SCRATCH 4096 512 -> forall a, 0 <= a -> a + 4 <= 4096 -> load32 m' (SCRATCH + a) = u32_at (512 + a).
Proof. intros H a Ha1 Ha2. unfold load32, u32_at. rewrite <- !Z.add_assoc, !(header_byte _ _ H) by lia. by rewrite !Z.add_assoc. Qed.
Lemma wide_header k : wide (header k).
Proof.
  assert (forall a, 0 <= u32_at a < 4294967296) as H. { intros a. unfold u32_at. pose proof (Hdisk a). pose proof (Hdisk (a + 1)). pose proof (Hdisk (a + 2)). pose proof (Hdisk (a + 3)). lia. }
  unfold wide, header. cbn [s_off s_pa s_filesz s_memsz]. by split_and!; apply H.
Qed.
Lemma u32_at_bound a : 0 <= u32_at a.
Proof. unfold u32_at. pose proof (Hdisk a). pose proof (Hdisk (a + 1)). pose proof (Hdisk (a + 2)). pose proof (Hdisk (a + 3)). lia. Qed.
Lemma at_headers_disk m m' :
  copied m m' SCRATCH 4096 512 -> u32_at (512 + 28) + 32 * u16_at (512 + 44) <= 4096 ->
  at_headers m' (SCRATCH + u32_at (512 + 28)) headers.
Proof.
  intros Hc Hfit k g Hk. unfold headers in Hk. apply list_lookup_fmap_Some in Hk as (k' & -> & Hk). apply lookup_seq in Hk as [-> Hk]. cbn zeta.
  pose proof (u32_at_bound (512 + 28)). assert (32 * Z.of_nat k + 32 <= 32 * u16_at (512 + 44)) by lia.
  rewrite <- !Z.add_assoc, !(header_page _ _ Hc) by lia. cbn [header s_off s_pa s_filesz s_memsz]. rewrite !Z.add_assoc. done.
Qed.

(** C21. Of a disk whose second sector starts a kernel, with the headers in its
    first page and the segments in increasing order above that page, the boot
    loader copies every segment to its address and clears the rest of it; the
    memory below the page, where the loader itself is, stays as it was, and
    the entry point is the one of the file. Without the magic number nothing
    more is loaded. *)
Theorem bootmain_loads s :
  u32_at (512 + 28) + 32 * u16_at (512 + 44) <= 4096 -> Forall placed headers -> increasing headers ->
  exists r s', bootmain s = Ok r s' /\
    r = (if u32_at 512 =? BOOT_MAGIC then Some (u32_at (512 + 24)) else None) /\
    (u32_at 512 = BOOT_MAGIC -> Forall (loaded (bmem s')) headers) /\
    (forall x, x < SCRATCH -> load8 (bmem s') x = load8 (bmem s) x).
Proof.
  intros Hfit Hp Hi. apply wp_Ok. unfold bootmain. rewrite wp_bind. eapply wp_mono; [by apply wp_readseg|]. cbn beta. rewrite Zmod_0_l, !Z.add_0_r, Z.sub_0_r. intros _ s1 Hc.
  unfold ld. wp_steps. rewrite <- (Z.add_0_r SCRATCH), (header_page _ _ Hc), Z.add_0_r by lia. destruct (Z.eqb_spec (u32_at 512) BOOT_MAGIC) as [E|E]; cbn [negb].
  2:{ apply wp_ret. split_and!; [done..|]. intros x Hx. apply Hc. by left. }
  wp_steps. rewrite !(header_byte _ _ Hc) by lia. rewrite (header_page _ _ Hc) by lia. change (512 + 45) with (512 + 44 + 1). fold (u16_at (512 + 44)).
  assert (Z.to_nat (u16_at (512 + 44)) = length headers) as -> by (unfold headers; by rewrite length_fmap, length_seq).
  assert (Forall wide headers) as Hw by (apply list.Forall_fmap, list.Forall_forall; intros k _; apply wide_header).
  assert (length headers = Z.to_nat (u16_at (512 + 44))) as Hlen by (unfold headers; by rewrite length_fmap, length_seq).
  eapply wp_mono; [apply wp_load_headers; [by eapply at_headers_disk|done..|]|]. { pose proof (Hdisk (512 + 44)). pose proof (Hdisk (512 + 44 + 1)). unfold u16_at in *. lia. }
  cbn beta. intros _ s2 [L1 L2]. wp_steps.
  assert (forall x, x < SCRATCH + 4096 -> load8 (bmem s2) x = load8 (bmem s1) x) as Hlow.
  { intros x Hx. apply L2. eapply Forall_impl; [exact Hp|]. cbn beta. intros g Hg. destruct (nothing g) eqn:Hn; [by left|right]. destruct (Hg Hn). lia. }
  split_and!; [|done|].
  - f_equal. rewrite (load32_ext _ (bmem s1)) by (intros; apply Hlow; lia). apply (header_page _ _ Hc); lia.
  - intros x Hx. rewrite Hlow by lia. apply Hc. by left.
Qed.
End Loader.

(** ** The processors *)

Definition NCPU : Z := 8.
Definition sizeof_mp : Z := 16.
Definition sizeof_mpconf : Z := 44.
Definition sizeof_mpproc : Z := 20.
Definition sizeof_mpioapic : Z := 8.
Definition MPPROC : Z := 0.
Definition MPBUS : Z := 1.
Definition MPIOAPIC : Z := 2.
Definition MPIOINTR : Z := 3.
Definition MPLINTR : Z := 4.
Definition sig_mp : list Z := [95; 77; 80; 95].
Definition sig_pcmp : list Z := [80; 67; 77; 80].

(** What the search leaves: the APIC ids of [cpus[0..ncpu)], the globals
    [ioapicid] and [lapic], and the ports that were written. *)
Record mpst := mk_mpst { cpus : list Z; ioapicid : Z; lapic : Z; imcr : Z; outs : list (Z * Z) }.

Section Processors.
(** The memory, by kernel virtual address. *)
Context (m : gmap Z Z).

Definition load16 (a : Z) : Z := load8 m a + 256 * load8 m (a + 1).
Definition sum (addr : Z) (len : nat) : Z := u8 (foldr Z.add 0 (load_bytes m addr len)).
Definition is_mp (p : Z) : bool := bool_decide (load_bytes m p 4 = sig_mp) && (sum p 16 =? 0).
Fixpoint mpsearch1_loop (p e : Z) (fuel : nat) : Z :=
  match fuel with
  | O => 0
  | S fuel' => if p <? e then (if is_mp p then p else mpsearch1_loop (p + sizeof_mp) e fuel') else 0
  end.
Definition mpsearch1 (a len : Z) : Z := mpsearch1_loop (P2V a) (P2V a + len) (Z.to_nat (len / sizeof_mp + 1)).
Definition mpsearch : Z :=
  let bda := P2V 0x400 in
  let p := Z.shiftl (Z.lor (Z.shiftl (load8 m (bda + 0x0F)) 8) (load8 m (bda + 0x0E))) 4 in
  let mp :=
    if negb (p =? 0) then mpsearch1 p 1024
    else mpsearch1 (u32 (Z.lor (Z.shiftl (load8 m (bda + 0x14)) 8) (load8 m (bda + 0x13)) * 1024 - 1024)) 1024 in
  if negb (mp =? 0) then mp else mpsearch1 0xF0000 0x10000.
(** The configuration table and the structure that points to it. *)
Definition mpconfig : option (Z * Z) :=
  let mp := mpsearch in
  if mp =? 0 then None else
  if load32 m (mp + 4) =? 0 then None else
  let conf := P2V (load32 m (mp + 4)) in
  if negb (bool_decide (load_bytes m conf 4 = sig_pcmp)) then None else
  if negb (load8 m (conf + 6) =? 1) && negb (load8 m (conf + 6) =? 4) then None else
  if negb (sum conf (Z.to_nat (load16 (conf + 4))) =? 0) then None else
  Some (mp, conf).

Definition add_cpu (apicid : Z) : M mpst unit :=
  modify (fun s => if Z.of_nat (length (cpus s)) <? NCPU then {| s with cpus := cpus s ++ [apicid] |} else s).
(** The loop over the entries: the [break] of the last case leaves the
    [switch], not the loop. *)
Fixpoint mpinit_loop (p e : Z) (ismp : bool) (fuel : nat) : M mpst bool :=
  if p <? e then
    match fuel with
    | O => diverge
    | S fuel' =>
        let t := load8 m p in
        if t =? MPPROC then add_cpu (load8 m (p + 1)) ;; mpinit_loop (u32 (p + sizeof_mpproc)) e ismp fuel'
        else if t =? MPIOAPIC then modify (fun s => {| s with ioapicid := load8 m (p + 1) |}) ;; mpinit_loop (u32 (p + sizeof_mpioapic)) e ismp fuel'
        else if (t =? MPBUS) || (t =? MPIOINTR) || (t =? MPLINTR) then mpinit_loop (u32 (p + 8)) e ismp fuel'
        else mpinit_loop p e false fuel'
    end
  else mret ismp.
Definition outb_mp (port v : Z) : M mpst unit := modify (fun s => {| s with outs := outs s ++ [(port, v)] |}).
Definition mpinit (fuel : nat) : M mpst unit :=
  match mpconfig with
  | None => panic "Expect to run on an SMP"
  | Some (mp, conf) =>
      modify (fun s => {| s with lapic := load32 m (conf + 36) |}) ;;
      ismp ← mpinit_loop (u32 (conf + sizeof_mpconf)) (u32 (conf + load16 (conf + 4))) true fuel;
      if negb ismp then panic "Didn't find a suitable machine" else
      when (negb (load8 m (mp + 12) =? 0)) (
        outb_mp 0x22 0x70 ;;
        v ← gets imcr;
        outb_mp 0x23 (Z.lor v 1))
  end.

(** *** The search *)

(** The structure that is found is the first one on a 16-byte boundary of the
    range that has the signature and the checksum. *)
Lemma mpsearch1_loop_first fuel : forall p e,
  0 < p -> e <= p + 16 * Z.of_nat fuel -> (e - p) mod 16 = 0 ->
  let r := mpsearch1_loop p e fuel in
  (r = 0 /\ forall k, 0 <= k -> p + 16 * k < e -> is_mp (p + 16 * k) = false) \/
  (exists k, 0 <= k /\ r = p + 16 * k /\ r < e /\ is_mp r = true /\ forall j, 0 <= j < k -> is_mp (p + 16 * j) = false).
Proof.
  induction fuel as [|fuel IH]; intros p e Hp He Hm; cbn [mpsearch1_loop]; cbn zeta; [left; split; [done|lia]|].
  destruct (Z.ltb_spec p e) as [Hlt|Hge]; [|left; split; [done|lia]].
  destruct (is_mp p) eqn:Hi; [right; exists 0; rewrite Z.mul_0_r, Z.add_0_r; split_and!; [lia|done..|lia]|].
  specialize (IH (p + sizeof_mp) e). unfold sizeof_mp in *. destruct IH as [[-> H]|(k & Hk & -> & Hr & Hi' & H)]; [lia|lia|Z.to_euclidean_division_equations; lia|left|right].
  - split; [done|]. intros k Hk Hke. destruct (decide (k = 0)) as [->|]; [by rewrite Z.mul_0_r, Z.add_0_r|]. replace (p + 16 * k) with (p + 16 + 16 * (k - 1)) by lia. apply H; lia.
  - exists (k + 1). replace (p + 16 * (k + 1)) with (p + 16 + 16 * k) by lia. split_and!; [lia|done..|].
    intros j Hj. destruct (decide (j = 0)) as [->|]; [by rewrite Z.mul_0_r, Z.add_0_r|]. replace (p + 16 * j) with (p + 16 + 16 * (j - 1)) by lia. apply H; lia.
Qed.

(** *** The table *)

(** The entries of the table, with the bytes that [mpinit] does not look at. *)
Inductive entry :=
  | Processor (apicid : Z) (rest : list Z)
  | IoApic (apicno : Z) (rest : list Z)
  | OtherEntry (type : Z) (rest : list Z).
Definition entry_bytes (x : entry) : list Z :=
  match x with
  | Processor a r => MPPROC :: a :: r
  | IoApic a r => MPIOAPIC :: a :: r
  | OtherEntry t r => t :: r
  end.
Definition wf_entry (x : entry) : bool :=
  match x with
  | Processor _ r => (length r =? 18)%nat
  | IoApic _ r => (length r =? 6)%nat
  | OtherEntry t r => ((t =? MPBUS) || (t =? MPIOINTR) || (t =? MPLINTR)) && (length r =? 7)%nat
  end.
Definition table (es : list entry) : list Z := mjoin (entry_bytes <$> es).

(** What an entry says. *)
Definition apply_entry (x : entry) (s : mpst) : mpst :=
  match x with
  | Processor a _ => if Z.of_nat (length (cpus s)) <? NCPU then {| s with cpus := cpus s ++ [a] |} else s
  | IoApic a _ => {| s with ioapicid := a |}
  | OtherEntry _ _ => s
  end.
Definition apply_entries (es : list entry) (s : mpst) : mpst := foldl (fun s x => apply_entry x s) s es.
Definition processors (es : list entry) : list Z := omap (fun x => match x with Processor a _ => Some a | _ => None end) es.
Definition ioapics (es : list entry) : list Z := omap (fun x => match x with IoApic a _ => Some a | _ => None end) es.

Lemma cpus_apply_entries es : forall s, cpus (apply_entries es s) = cpus s ++ take (8 - length (cpus s)) (processors es).
Proof.
  induction es as [|x es IH]; intros s; cbn [apply_entries foldl processors omap list_omap]; [by rewrite take_nil, app_nil_r|].
  fold (apply_entries es (apply_entry x s)). fold (processors es). rewrite IH. destruct x as [a r|a r|t r]; cbn [apply_entry]; [|done..].
  unfold NCPU. destruct (Z.ltb_spec (Z.of_nat (length (cpus s))) 8) as [Hl|Hl].
  - cbn [cpus]. rewrite length_app. cbn [length]. replace (8 - length (cpus s))%nat with (S (8 - (length (cpus s) + 1))) by lia. cbn [take]. by rewrite <- app_assoc.
  - by replace (8 - length (cpus s))%nat with 0%nat by lia.
Qed.
Lemma last_cons_default (l : list Z) : forall a d, List.last (a :: l) d = List.last l a.
Proof. induction l as [|b l IH]; intros a d; [done|]. change (List.last (a :: b :: l) d) with (List.last (b :: l) d). by rewrite !IH. Qed.
Lemma ioapicid_apply_entries es : forall s, ioapicid (apply_entries es s) = List.last (ioapics es) (ioapicid s).
Proof.
  induction es as [|x es IH]; intros s; cbn [apply_entries foldl ioapics omap list_omap]; [done|].
  fold (apply_entries es (apply_entry x s)). fold (ioapics es). rewrite IH. destruct x as [a r|a r|t r]; cbn [apply_entry]; [|cbn [ioapicid]|done].
  - by destruct (_ <? _).
  - by rewrite last_cons_default.
Qed.
Lemma rest_apply_entries es : forall s, lapic (apply_entries es s) = lapic s /\ imcr (apply_entries es s) = imcr s /\ outs (apply_entries es s) = outs s.
Proof.
  induction es as [|x es IH]; intros s; [done|]. cbn [apply_entries foldl]. fold (apply_entries es (apply_entry x s)). destruct (IH (apply_entry x s)) as (-> & -> & ->).
  destruct x; cbn [apply_entry]; [destruct (_ <? _)|..]; done.
Qed.

Lemma load_bytes_split a (l1 l2 : list Z) :
  load_bytes m a (length (l1 ++ l2)) = l1 ++ l2 -> load_bytes m a (length l1) = l1 /\ load_bytes m (a + Z.of_nat (length l1)) (length l2) = l2.
Proof.
  revert a. induction l1 as [|b l1 IH]; intros a; cbn [app length load_bytes]; [by rewrite Z.add_0_r|].
  intros [= -> H]. apply IH in H as [-> H2]. split; [done|]. by replace (a + Z.of_nat (S (length l1))) with (a + 1 + Z.of_nat (length l1)) by lia.
Qed.
Lemma mpinit_loop_entry x p e ismp fuel s :
  wf_entry x = true -> load_bytes m p (length (entry_bytes x)) = entry_bytes x -> 0 <= p -> p + Z.of_nat (length (entry_bytes x)) <= e -> e < 4294967296 ->
  mpinit_loop p e ismp (S fuel) s = mpinit_loop (p + Z.of_nat (length (entry_bytes x))) e ismp fuel (apply_entry x s).
Proof.
  intros Hwf Hb Hp He1 He2. cbn [mpinit_loop]. rewrite (proj2 (Z.ltb_lt p e)) by (destruct x; cbn [entry_bytes length] in He1; lia). unfold u32, W32.
  destruct x as [a r|a r|t r]; cbn [wf_entry entry_bytes length load_bytes] in *.
  - apply Nat.eqb_eq in Hwf. rewrite Hwf in Hb, He1 |- *. injection Hb as Ht Ha _. rewrite Ht, Ha. cbn [MPPROC Z.eqb]. rewrite (Z.mod_small (p + sizeof_mpproc)) by (unfold sizeof_mpproc; lia). done.
  - apply Nat.eqb_eq in Hwf. rewrite Hwf in Hb, He1 |- *. injection Hb as Ht Ha _. rewrite Ht, Ha. rewrite (Z.mod_small (p + sizeof_mpioapic)) by (unfold sizeof_mpioapic; lia). done.
  - apply andb_true_iff in Hwf as [Hk Hwf]. apply Nat.eqb_eq in Hwf. rewrite Hwf in Hb, He1 |- *. injection Hb as Ht _. rewrite Ht, Hk. unfold sizeof_mpioapic. rewrite !(Z.mod_small (p + 8)) by lia.
    apply orb_true_iff in Hk as [[->%Z.eqb_eq| ->%Z.eqb_eq]%orb_true_iff| ->%Z.eqb_eq]; done.
Qed.
Lemma mpinit_loop_table es : forall p e ismp fuel s,
  forallb wf_entry es = true -> load_bytes m p (length (table es)) = table es -> 0 <= p -> p + Z.of_nat (length (table es)) <= e -> e < 4294967296 -> (length es <= fuel)%nat ->
  mpinit_loop p e ismp fuel s = mpinit_loop (p + Z.of_nat (length (table es))) e ismp (fuel - length es) (apply_entries es s).
Proof.
  induction es as [|x es IH]; intros p e ismp fuel s Hwf Hb Hp He1 He2 Hf; [cbn [length table mjoin fmap list_fmap list_join]; by rewrite Z.add_0_r, Nat.sub_0_r|].
  cbn [forallb] in Hwf. apply andb_true_iff in Hwf as [Hx Hwf]. change (table (x :: es)) with (entry_bytes x ++ table es) in *. apply load_bytes_split in Hb as [Hb1 Hb2].
  rewrite length_app in *. destruct fuel as [|fuel]; [cbn [length] in Hf; lia|]. rewrite (mpinit_loop_entry x) by (done || lia). rewrite IH by (done || cbn [length] in Hf; lia).
  by replace (p + Z.of_nat (length (entry_bytes x)) + Z.of_nat (length (table es))) with (p + Z.of_nat (length (entry_bytes x) + length (table es))) by lia.
Qed.

(** Memory holds a configuration table at [conf] with the entries [es] and the
    bytes [after] to its end. *)
Definition holds_table (mp conf : Z) (es : list entry) (after : list Z) : Prop :=
  mpconfig = Some (mp, conf) /\ 0 <= conf /\ forallb wf_entry es = true /\
  load16 (conf + 4) = sizeof_mpconf + Z.of_nat (length (table es ++ after)) /\
  conf + load16 (conf + 4) < 4294967296 /\
  load_bytes m (conf + sizeof_mpconf) (length (table es ++ after)) = table es ++ after.

(** The processors are read back from the table: the first eight APIC ids in
    the order of the table, and the id of its last I/O APIC. The local APIC is
    where the header says, and on a machine with an IMCR the external
    interrupts are masked. *)
Theorem mpinit_reads_table mp conf es fuel s :
  holds_table mp conf es [] -> (length es <= fuel)%nat -> cpus s = [] ->
  exists s', mpinit fuel s = Ok tt s' /\
    cpus s' = take 8 (processors es) /\
    ioapicid s' = List.last (ioapics es) (ioapicid s) /\
    lapic s' = load32 m (conf + 36) /\
    outs s' = outs s ++ (if load8 m (mp + 12) =? 0 then [] else [(0x22, 0x70); (0x23, Z.lor (imcr s) 1)]).
Proof.
  intros (Hc & Hp & Hwf & Hl & Hb & Ht) Hf H0. rewrite app_nil_r in *. unfold mpinit. rewrite Hc. unfold mbind at 1, M_bind at 1, modify at 1. cbn beta.
  set (s1 := {| s with lapic := load32 m (conf + 36) |}). unfold u32, W32. unfold sizeof_mpconf in *. rewrite (Z.mod_small (conf + 44)), (Z.mod_small (conf + load16 (conf + 4))) by lia.
  unfold mbind at 1, M_bind at 1. rewrite (mpinit_loop_table es) by (done || lia).
  assert (forall fuel' s', mpinit_loop (conf + 44 + Z.of_nat (length (table es))) (conf + load16 (conf + 4)) true fuel' s' = Ok true s') as -> by (intros []; intros; cbn [mpinit_loop]; by rewrite (proj2 (Z.ltb_ge _ _)) by lia).
  cbn [negb]. destruct (rest_apply_entries es s1) as (E1 & E2 & E3). pose proof (cpus_apply_entries es s1) as E4. pose proof (ioapicid_apply_entries es s1) as E5. cbn [cpus ioapicid lapic imcr outs s1] in E1, E2, E3, E4, E5. rewrite H0 in E4.
  destruct (load8 m (mp + 12) =? 0); cbn [negb when]; (eexists; split; [reflexivity|]); cbn [cpus ioapicid lapic imcr outs]; rewrite ?app_nil_r, ?E1, ?E2, ?E3, ?E4, ?E5, <- ?app_assoc; done.
Qed.

(** An entry of a type that is not known is never passed: [mpinit] neither
    returns nor panics, however long it runs. *)
Theorem mpinit_unknown_entry mp conf es t after fuel s :
  holds_table mp conf es (t :: after) -> 4 < t -> mpinit fuel s = Diverge.
Proof.
  intros (Hc & Hp & Hwf & Hl & Hb & Ht) Hu. unfold mpinit. rewrite Hc. unfold mbind at 1, M_bind at 1, modify at 1. cbn beta.
  generalize {| s with lapic := load32 m (conf + 36) |}. clear s. intros s. rewrite length_app in Hl. cbn [length] in Hl. apply load_bytes_split in Ht as [Ht1 Ht2]. cbn [length load_bytes] in Ht2. injection Ht2 as Ht2 _.
  unfold sizeof_mpconf, u32, W32 in *. rewrite (Z.mod_small (conf + 44)), (Z.mod_small (conf + load16 (conf + 4))) by lia. unfold mbind, M_bind.
  assert (forall fuel' ismp s', mpinit_loop (conf + 44 + Z.of_nat (length (table es))) (conf + load16 (conf + 4)) ismp fuel' s' = Diverge) as Hloop.
  { induction fuel' as [|fuel' IH]; intros ismp s'; cbn [mpinit_loop]; rewrite (proj2 (Z.ltb_lt _ _)) by lia; [done|]. rewrite Ht2. unfold MPPROC, MPIOAPIC, MPBUS, MPIOINTR, MPLINTR. do 5 (rewrite (proj2 (Z.eqb_neq _ _)) by lia). apply IH. }
  destruct (decide (length es <= fuel)%nat); [rewrite (mpinit_loop_table es) by (done || lia); by rewrite Hloop|].
  rewrite <- (take_drop fuel es) in Hwf, Ht1, Hl. rewrite forallb_app in Hwf. apply andb_true_iff in Hwf as [Hwf _]. unfold table in Ht1, Hl. rewrite fmap_app, join_app in Ht1, Hl. apply load_bytes_split in Ht1 as [Ht1 _]. rewrite length_app in Hl.
  fold (table (take fuel es)) in Ht1, Hl. rewrite (mpinit_loop_table (take fuel es)) by (done || rewrite ?length_take; lia).
  rewrite length_take, Nat.min_l, Nat.sub_diag by lia. cbn [mpinit_loop]. by rewrite (proj2 (Z.ltb_lt _ _)) by lia.
Qed.
End Processors.

(** ** A machine *)

Definition word (z : Z) : list Z := [u8 z; u8 (z / 256); u8 (z / 65536); u8 (z / 16777216)].
(** A kernel of one segment of three bytes, with seven to clear, and the empty
    header for its stack. *)
Definition kernel_file : list Z :=
  word BOOT_MAGIC ++ replicate 20 0 ++ word 0x10000c ++ word 52 ++ replicate 12 0 ++ [2; 0] ++ replicate 6 0 ++
  word 1 ++ word 116 ++ word 0 ++ word 0x100074 ++ word 3 ++ word 10 ++ replicate 8 0 ++
  replicate 32 0 ++ [11; 22; 33].
Definition kernel_disk (i : Z) : Z := if decide (512 <= i) then default 0 (kernel_file !! Z.to_nat (i - 512)) else 0.

Lemma kernel_disk_bytes i : 0 <= kernel_disk i < 256.
Proof.
  unfold kernel_disk. case_decide; [|lia]. destruct (kernel_file !! _) as [b|] eqn:E; cbn; [|lia].
  assert (forallb (fun b => (0 <=? b) && (b <? 256)) kernel_file = true) as HF by (vm_compute; reflexivity). rewrite forallb_forall in HF.
  specialize (HF b (proj1 (list_elem_of_In _ _) (list_elem_of_lookup_2 _ _ _ E))). apply andb_true_iff in HF as [?%Z.leb_le ?%Z.ltb_lt]. lia.
Qed.
Lemma kernel_headers : headers kernel_disk = [ {| s_off := 116; s_pa := 0x100074; s_filesz := 3; s_memsz := 10 |}; {| s_off := 0; s_pa := 0; s_filesz := 0; s_memsz := 0 |} ].
Proof. vm_compute. reflexivity. Qed.
Lemma bootmain_loads_witness : exists s', bootmain kernel_disk (mk_boot ∅ ∅ 3) = Ok (Some 0x10000c) s' /\ loaded kernel_disk (bmem s') {| s_off := 116; s_pa := 0x100074; s_filesz := 3; s_memsz := 10 |}.
Proof.
  destruct (bootmain_loads kernel_disk kernel_disk_bytes (mk_boot ∅ ∅ 3)) as (r & s' & E & -> & HF & _).
  - vm_compute. discriminate.
  - rewrite kernel_headers. repeat constructor; vm_compute; discriminate.
  - rewrite kernel_headers. repeat constructor; vm_compute; discriminate.
  - exists s'. split; [exact E|]. specialize (HF ltac:(vm_compute; reflexivity)). rewrite kernel_headers in HF. by inversion HF.
Defined.

(** A floating pointer in the BIOS area and a table of nine processors, an
    I/O APIC and a bus; [t] is the type of a last entry. *)
Definition mp_entries : list entry :=
  ((fun i => Processor (Z.of_nat i + 10) (replicate 18 0)) <$> seq 0 9) ++ [IoApic 7 (replicate 6 0); OtherEntry MPBUS (replicate 7 0)].
Definition checked (n : nat) (l : list Z) : list Z := <[n := u8 (- foldr Z.add 0 l)]> l.
Definition mp_table (after : list Z) : list Z :=
  let body := table mp_entries ++ after in
  checked 7 (sig_pcmp ++ [u8 (44 + Z.of_nat (length body)); u8 ((44 + Z.of_nat (length body)) / 256); 4; 0] ++ replicate 28 0 ++ word 0xfee00000 ++ replicate 4 0 ++ body).
Definition mp_memory (after : list Z) : gmap Z Z :=
  store_bytes (store_bytes ∅ (P2V 0xF0010) (checked 10 (sig_mp ++ word 0xF1000 ++ [1; 4; 0; 0; 0x80; 0; 0; 0]))) (P2V 0xF1000) (mp_table after).
Definition mp_start : mpst := mk_mpst [] 0 0 0 [].

Lemma mp_memory_table after : after = [] \/ after = [9; 0; 0; 0; 0; 0; 0; 0] -> holds_table (mp_memory after) (P2V 0xF0010) (P2V 0xF1000) mp_entries after.
Proof. intros [-> | ->]; unfold holds_table; split_and!; vm_compute; (reflexivity || discriminate). Qed.
Lemma mpinit_reads_table_witness : exists s', mpinit (mp_memory []) 11 mp_start = Ok tt s' /\ cpus s' = [10; 11; 12; 13; 14; 15; 16; 17] /\ ioapicid s' = 7 /\ lapic s' = 0xfee00000 /\ outs s' = [(0x22, 0x70); (0x23, 1)].
Proof.
  destruct (mpinit_reads_table (mp_memory []) (P2V 0xF0010) (P2V 0xF1000) mp_entries 11 mp_start) as (s' & E & Hc & Hi & Hl & Ho).
  - apply mp_memory_table. by left.
  - vm_compute. lia.
  - reflexivity.
  - exists s'. split; [exact E|]. rewrite Hc, Hi, Hl, Ho. vm_compute. by split_and!.
Defined.
Lemma mpinit_unknown_entry_witness : mpinit (mp_memory [9; 0; 0; 0; 0; 0; 0; 0]) 1000 mp_start = Diverge.
Proof. apply (mpinit_unknown_entry _ (P2V 0xF0010) (P2V 0xF1000) mp_entries 9 [0; 0; 0; 0; 0; 0; 0]); [apply mp_memory_table; by right|lia]. Defined.
