(* ===== verification/Devices.v ===== *)
(** The small devices: the interrupt controllers (ioapic.c, lapic.c, picirq.c),
    the serial port (uart.c) and the clock (lapic.c). Interrupts are routed as
    they were enabled, the serial port sends what is written to it, a processor
    is started at the address that was asked for, and the date that is read is
    one that the clock showed. *)

From S2P Require Import Prelude Mmu Memory.
From stdpp Require Import base gmap list strings.
From Stdlib Require Import ZArith Lia.
Open Scope Z_scope.

(** ** The I/O APIC *)

Definition REG_ID : Z := 0x00.
Definition REG_VER : Z := 0x01.
Definition REG_TABLE : Z := 0x10.
Definition INT_DISABLED : Z := 0x00010000.
Definition IRQ_BASE : Z := 32.
(** The selected register, the registers, and the lines printed on the
    console. *)
Record ioapic := mk_ioapic { io_sel : Z; io_regs : gmap Z Z; io_msgs : list string }.
Definition io_reg (s : ioapic) (r : Z) : Z := default 0 (io_regs s !! r).

Definition ioapicread (reg : Z) : M ioapic Z :=
  modify (fun s => {| s with io_sel := reg |}) ;;
  gets (fun s => io_reg s (io_sel s)).
Definition ioapicwrite (reg data : Z) : M ioapic unit :=
  modify (fun s => {| s with io_sel := reg |}) ;;
  modify (fun s => {| s with io_regs := <[io_sel s := u32 data]> (io_regs s) |}).
Definition ioapicinit (ioapicid : Z) : M ioapic unit :=
  ver ← ioapicread REG_VER;
  let maxintr := Z.land (Z.shiftr ver 16) 0xFF in
  idr ← ioapicread REG_ID;
  let id := Z.shiftr idr 24 in
  when (negb (id =? ioapicid)) (modify (fun s => {| s with io_msgs := io_msgs s ++ ["ioapicinit: id isn't equal to ioapicid; not a MP"%string] |})) ;;
  for_each (seqZ 0 (maxintr + 1)) (fun i =>
    ioapicwrite (REG_TABLE + 2 * i) (Z.lor INT_DISABLED (IRQ_BASE + i)) ;;
    ioapicwrite (REG_TABLE + 2 * i + 1) 0).
Definition ioapicenable (irq cpunum : Z) : M ioapic unit :=
  ioapicwrite (REG_TABLE + 2 * irq) (IRQ_BASE + irq) ;;
  ioapicwrite (REG_TABLE + 2 * irq + 1) (Z.shiftl cpunum 24).

(** The entry of an interrupt: is it masked, its vector and its processor. *)
Definition masked (s : ioapic) (irq : Z) : bool := has (io_reg s (REG_TABLE + 2 * irq)) INT_DISABLED.
Definition vector (s : ioapic) (irq : Z) : Z := io_reg s (REG_TABLE + 2 * irq) mod 256.
Definition route (s : ioapic) (irq : Z) : Z := Z.shiftr (io_reg s (REG_TABLE + 2 * irq + 1)) 24.
Definition maxintr (s : ioapic) : Z := Z.land (Z.shiftr (io_reg s REG_VER) 16) 0xFF.
(** The processor that an interrupt was enabled for last. *)
Definition enabled (es : list (Z * Z)) (irq : Z) : option Z :=
  foldl (fun a e => if e.1 =? irq then Some e.2 else a) None es.

Lemma wp_ioapicwrite r d (Q : unit -> ioapic -> Prop) s :
  wp (ioapicwrite r d) Q s <-> Q tt (mk_ioapic r (<[r := u32 d]> (io_regs s)) (io_msgs s)).
Proof. done. Qed.
Lemma io_reg_insert sel m ms r d x : io_reg (mk_ioapic sel (<[r := d]> m) ms) x = if decide (x = r) then d else default 0 (m !! x).
Proof. unfold io_reg. cbn [io_regs]. case_decide as E; [subst; by rewrite lookup_insert_eq|by rewrite lookup_insert_ne]. Qed.

(** What an entry says: masked or routed. *)
Definition entry_is (s : ioapic) (irq : Z) (e : option Z) : Prop :=
  match e with
  | None => masked s irq = true
  | Some cpu => masked s irq = false /\ vector s irq = IRQ_BASE + irq /\ route s irq = cpu
  end.
Definition entries_are (s : ioapic) (n : Z) (f : Z -> option Z) : Prop := forall irq, 0 <= irq < n -> entry_is s irq (f irq).

Lemma vector_bits i : 0 <= i < 224 -> has (u32 (Z.lor INT_DISABLED (IRQ_BASE + i))) INT_DISABLED = true /\ has (u32 (IRQ_BASE + i)) INT_DISABLED = false /\ u32 (IRQ_BASE + i) mod 256 = IRQ_BASE + i.
Proof.
  intros Hi. assert (forallb (fun i => has (u32 (Z.lor INT_DISABLED (IRQ_BASE + i))) INT_DISABLED && negb (has (u32 (IRQ_BASE + i)) INT_DISABLED) && (u32 (IRQ_BASE + i) mod 256 =? IRQ_BASE + i)) (seqZ 0 224) = true) as H by (vm_compute; reflexivity).
  rewrite forallb_forall in H. specialize (H i). rewrite !andb_true_iff, negb_true_iff, Z.eqb_eq in H. destruct H as [[H1 H2] H3]; [apply list_elem_of_In, elem_of_seqZ; lia|]. done.
Qed.

Lemma init_entries n : forall i s (Q : unit -> ioapic -> Prop),
  0 <= i -> i + Z.of_nat n <= 224 -> entries_are s i (fun _ => None) ->
  (forall s', entries_are s' (i + Z.of_nat n) (fun _ => None) -> Q tt s') ->
  wp (for_each (seqZ i (Z.of_nat n)) (fun i =>
    ioapicwrite (REG_TABLE + 2 * i) (Z.lor INT_DISABLED (IRQ_BASE + i)) ;;
    ioapicwrite (REG_TABLE + 2 * i + 1) 0)) Q s.
Proof.
  induction n as [|n IH]; intros i s Q Hi Hn He HQ; [apply wp_for_each_nil, HQ; by rewrite Z.add_0_r|].
  rewrite seqZ_cons by lia. replace (Z.pred (Z.of_nat (S n))) with (Z.of_nat n) by lia. cbn [for_each]. rewrite !wp_bind, !wp_ioapicwrite. cbn [io_regs io_msgs].
  apply (IH (Z.succ i)); [lia|lia| |intros s' H; apply HQ; by replace (i + Z.of_nat (S n)) with (Z.succ i + Z.of_nat n) by lia].
  intros irq Hirq. unfold entry_is, masked. rewrite io_reg_insert. unfold REG_TABLE. rewrite decide_False by lia. destruct (decide (irq = i)) as [->|Hne].
  - rewrite lookup_insert_eq. cbn [default from_option id]. apply vector_bits. lia.
  - rewrite lookup_insert_ne by lia. apply (He irq). lia.
Qed.
Lemma wp_ioapicenable s irq cpu n f (Q : unit -> ioapic -> Prop) :
  0 <= irq < n -> n <= 224 -> 0 <= cpu < 256 -> entries_are s n f ->
  (forall s', entries_are s' n (fun i => if irq =? i then Some cpu else f i) -> Q tt s') -> wp (ioapicenable irq cpu) Q s.
Proof.
  intros Hi Hn Hc He HQ. unfold ioapicenable. rewrite wp_bind, !wp_ioapicwrite. cbn [io_regs io_msgs]. apply HQ. intros i Hi'. specialize (He i Hi'). unfold entry_is, masked, vector, route in *. rewrite !io_reg_insert. unfold REG_TABLE.
  rewrite (decide_False (P := 16 + 2 * i = 16 + 2 * irq + 1)) by lia. destruct (Z.eqb_spec irq i) as [->|Hne].
  - rewrite decide_True, lookup_insert_eq by done. cbn [default from_option id]. destruct (vector_bits i ltac:(lia)) as (_ & H2 & H3). split_and!; [done..|].
    rewrite Z.shiftl_mul_pow2, Z.shiftr_div_pow2 by lia. unfold u32, W32. change (2 ^ 24) with 16777216. rewrite Z.mod_small by lia. apply Z.div_mul. lia.
  - rewrite decide_False, !lookup_insert_ne by lia. exact He.
Qed.

(** After the interrupts were disabled and some of them enabled, exactly these
    are not masked; each has the vector of its trap and goes to the processor
    it was enabled for last. *)
Theorem ioapic_routes s ioapicid es :
  maxintr s < 224 -> Forall (fun e => 0 <= e.1 <= maxintr s /\ 0 <= e.2 < 256) es ->
  wp (ioapicinit ioapicid ;; for_each es (fun e => ioapicenable e.1 e.2)) (fun _ s' => entries_are s' (maxintr s + 1) (enabled es)) s.
Proof.
  intros Hm Hes. assert (0 <= maxintr s) as H0 by (unfold maxintr; apply Z.land_nonneg; right; lia). rewrite wp_bind. unfold ioapicinit, ioapicread. wp_steps. change (Z.land (Z.shiftr (io_reg _ (io_sel _)) 16) 0xFF) with (maxintr s).
  replace (maxintr s + 1) with (Z.of_nat (Z.to_nat (maxintr s + 1))) by lia. set (n := Z.to_nat (maxintr s + 1)).
  assert (forall s1 f, entries_are s1 (Z.of_nat n) f -> wp (for_each es (fun e => ioapicenable e.1 e.2)) (fun _ s' => entries_are s' (Z.of_nat n) (fun i => foldl (fun a e => if e.1 =? i then Some e.2 else a) (f i) es)) s1) as Hen.
  { clear -Hes Hm H0. induction es as [|e es IH]; intros s1 f He; [done|]. apply list.Forall_cons in Hes as [[E1 E2] Hes]. cbn [for_each foldl]. rewrite wp_bind. apply (wp_ioapicenable s1 e.1 e.2 (Z.of_nat n) f); try done; try lia. intros s' H'. by apply (IH Hes s' _ H'). }
  assert (forall s1, wp (for_each (seqZ 0 (Z.of_nat n)) (fun i => ioapicwrite (REG_TABLE + 2 * i) (Z.lor INT_DISABLED (IRQ_BASE + i)) ;; ioapicwrite (REG_TABLE + 2 * i + 1) 0)) (fun _ s1 => wp (for_each es (fun e => ioapicenable e.1 e.2)) (fun _ s' => entries_are s' (Z.of_nat n) (enabled es)) s1) s1) as Hgo.
  { intros s1. apply init_entries; [lia|lia|intros irq Hirq; lia|]. intros s2 H2. by apply (Hen s2 _ H2). }
  case_match; wp_steps; apply Hgo.
Qed.
Lemma ioapic_routes_witness :
  let s := mk_ioapic 0 (list_to_map [(0, 0x02000000); (1, 0x00170011)]) [] in
  wp (ioapicinit 2 ;; for_each [(1, 0); (14, 1); (1, 3)] (fun e => ioapicenable e.1 e.2)) (fun _ s' => masked s' 4 = true /\ masked s' 1 = false /\ vector s' 1 = 33 /\ route s' 1 = 3 /\ route s' 14 = 1) s.
Proof.
  intros s. eapply wp_mono; [apply (ioapic_routes s 2 [(1, 0); (14, 1); (1, 3)]); [by vm_compute|by repeat constructor; vm_compute]|].
  cbn beta. intros _ s' H. destruct (H 1 ltac:(by vm_compute)) as (A1 & A2 & A3), (H 14 ltac:(by vm_compute)) as (B1 & B2 & B3). pose proof (H 4 ltac:(by vm_compute)) as C. split_and!; done.
Defined.

(** ** The old interrupt controllers *)

Definition IO_PIC1 : Z := 0x20.
Definition IO_PIC2 : Z := 0xA0.
Definition pic_out (p v : Z) : M (gmap Z Z) unit := modify (fun ps => <[p := u8 v]> ps).
Definition picinit : M (gmap Z Z) unit := pic_out (IO_PIC1 + 1) 0xFF ;; pic_out (IO_PIC2 + 1) 0xFF.
(** All sixteen lines are masked. *)
Lemma picinit_masks ps irq : 0 <= irq < 16 ->
  wp picinit (fun _ ps' => Z.testbit (default 0 (ps' !! (if irq <? 8 then IO_PIC1 + 1 else IO_PIC2 + 1))) (irq mod 8) = true) ps.
Proof.
  intros Hi. unfold picinit, pic_out. wp_steps. assert (Z.testbit 255 (irq mod 8) = true) as Hb. { change 255 with (Z.ones 8). apply Z.ones_spec_low. zlia. }
  destruct (irq <? 8); [rewrite lookup_insert_ne by done|]; rewrite lookup_insert_eq; exact Hb.
Qed.

(** ** The serial port *)

Definition COM1 : Z := 0x3f8.
Definition IRQ_COM1 : Z := 4.
(** The chip: is there one, its control registers, for how many polls it is
    still sending and for how many it sends a byte, the bytes sent, those lost
    because it was busy, and those received and not yet read. [uart] is the
    variable of the driver. *)
Record serial := mk_serial {
  present : bool; lcr : Z; ier : Z; divisor : Z; busy : nat; delay : nat;
  sent : list Z; lost : list Z; rx : list Z; uart : bool; pic : ioapic
}.
Definition dlab (s : serial) : bool := Z.testbit (lcr s) 7.
Definition ser_out (p v : Z) : M serial unit := fun s =>
  if negb (present s) then Ok tt s else
  if p =? COM1 + 3 then Ok tt {| s with lcr := u8 v |} else
  if p =? COM1 + 1 then (if dlab s then Ok tt {| s with divisor := 256 * u8 v + divisor s mod 256 |} else Ok tt {| s with ier := u8 v |}) else
  if p =? COM1 + 0 then
    if dlab s then Ok tt {| s with divisor := 256 * (divisor s / 256) + u8 v |}
    else if (busy s =? 0)%nat then Ok tt {| s with sent := sent s ++ [u8 v]; busy := delay s |}
    else Ok tt {| s with lost := lost s ++ [u8 v] |}
  else Ok tt s.
Definition ser_in (p : Z) : M serial Z := fun s =>
  if negb (present s) then Ok 0xFF s else
  if p =? COM1 + 5 then Ok ((if (busy s =? 0)%nat then 0x20 else 0) + (match rx s with [] => 0 | _ => 1 end)) {| s with busy := pred (busy s) |} else
  if p =? COM1 + 0 then match rx s with [] => Ok 0 s | b :: r => Ok b {| s with rx := r |} end
  else Ok 0 s.

Fixpoint uart_wait (n : nat) : M serial unit :=
  match n with
  | O => mret tt
  | S n' => st ← ser_in (COM1 + 5); if Z.land st 0x20 =? 0 then uart_wait n' else mret tt
  end.
Definition uartputc (c : Z) : M serial unit :=
  on ← gets uart;
  if negb on then mret tt else
  uart_wait 128 ;;
  ser_out (COM1 + 0) c.
Definition uartgetc : M serial Z :=
  on ← gets uart;
  if negb on then mret (-1) else
  st ← ser_in (COM1 + 5);
  if Z.land st 0x01 =? 0 then mret (-1) else
  ser_in (COM1 + 0).
(** "xv6..." and a newline *)
Definition greeting : list Z := [120; 118; 54; 46; 46; 46; 10].
Definition uartinit : M serial unit :=
  ser_out (COM1 + 2) 0 ;;
  ser_out (COM1 + 3) 0x80 ;;
  ser_out (COM1 + 0) (115200 / 9600) ;;
  ser_out (COM1 + 1) 0 ;;
  ser_out (COM1 + 3) 0x03 ;;
  ser_out (COM1 + 4) 0 ;;
  ser_out (COM1 + 1) 0x01 ;;
  st ← ser_in (COM1 + 5);
  if st =? 0xFF then mret tt else
  modify (fun s => {| s with uart := true |}) ;;
  ser_in (COM1 + 2) ;;
  ser_in (COM1 + 0) ;;
  zoom pic (fun t s => {| s with pic := t |}) (ioapicenable IRQ_COM1 0) ;;
  for_each greeting uartputc.

(** The port is set up, and sends a byte within the 128 polls of the driver. *)
Definition sending (s : serial) : Prop := present s = true /\ uart s = true /\ dlab s = false /\ (busy s <= 127)%nat /\ (delay s <= 127)%nat.

Lemma uart_wait_ready n : forall s, present s = true -> (busy s < n)%nat -> uart_wait n s = Ok tt {| s with busy := 0%nat |}.
Proof.
  induction n as [|n IH]; intros s Hp Hb; [lia|]. cbn [uart_wait]. unfold mbind, M_bind, ser_in. rewrite Hp. cbn [negb]. change (COM1 + 5 =? COM1 + 5) with true. cbv iota.
  destruct (busy s) as [|b] eqn:Eb; cbn [Nat.eqb pred].
  - destruct (rx s); cbn; done.
  - assert (Z.land (0 + match rx s with [] => 0 | _ => 1 end) 32 =? 0 = true) as -> by (destruct (rx s); done). rewrite IH by (cbn; (done || lia)). done.
Qed.
(** Every byte that is written is sent, in order, and none is lost. *)
Lemma uart_sends bytes : forall s, sending s ->
  wp (for_each bytes uartputc) (fun _ s' => sent s' = sent s ++ (u8 <$> bytes) /\ lost s' = lost s /\ sending s' /\ rx s' = rx s /\ divisor s' = divisor s /\ lcr s' = lcr s /\ ier s' = ier s /\ pic s' = pic s) s.
Proof.
  induction bytes as [|b bytes IH]; intros s (S1 & S2 & S3 & S4 & S5); [cbn [for_each]; apply wp_ret; by rewrite app_nil_r|]. cbn [for_each]. rewrite wp_bind. unfold uartputc at 1. rewrite wp_bind, wp_gets, S2. cbn [negb].
  rewrite wp_bind, (wp_eq _ _ _ _ _ (uart_wait_ready 128 s S1 ltac:(lia))). set (s1 := {| s with busy := 0%nat |}).
  assert (ser_out (COM1 + 0) b s1 = Ok tt {| s1 with sent := sent s ++ [u8 b]; busy := delay s |}) as E. { unfold ser_out. cbn [present s1 negb]. rewrite S1. cbn [negb]. change (dlab s1) with (dlab s). rewrite S3. done. }
  rewrite (wp_eq _ _ _ _ _ E). eapply wp_mono; [apply IH; by split_and!|]. cbn [sent lost rx divisor lcr ier pic fmap list_fmap s1]. intros _ s' (-> & -> & H & -> & -> & -> & -> & ->). by rewrite <- app_assoc.
Qed.

Definition with_lcr (s : serial) (v : Z) : serial := {| s with lcr := v |}.
Definition with_divisor (s : serial) (v : Z) : serial := {| s with divisor := v |}.
Section SerialPorts.
Context (s : serial).
Hypothesis Hp : present s = true.
Lemma ser_out_other k v : k = 2 \/ k = 4 -> ser_out (COM1 + k) v s = Ok tt s.
Proof. unfold ser_out. rewrite Hp at 1. by intros [-> | ->]. Qed.
Lemma ser_out_lcr v : ser_out (COM1 + 3) v s = Ok tt (with_lcr s (u8 v)).
Proof. unfold ser_out. by rewrite Hp at 1. Qed.
Lemma ser_out_low v : dlab s = true -> ser_out (COM1 + 0) v s = Ok tt (with_divisor s (256 * (divisor s / 256) + u8 v)).
Proof. intros H. unfold ser_out. rewrite Hp at 1. by rewrite H. Qed.
Lemma ser_out_high v : dlab s = true -> ser_out (COM1 + 1) v s = Ok tt (with_divisor s (256 * u8 v + divisor s mod 256)).
Proof. intros H. unfold ser_out. rewrite Hp at 1. by rewrite H. Qed.
Lemma ser_out_ier v : dlab s = false -> ser_out (COM1 + 1) v s = Ok tt {| s with ier := u8 v |}.
Proof. intros H. unfold ser_out. rewrite Hp at 1. by rewrite H. Qed.
Lemma ser_in_status : ser_in (COM1 + 5) s = Ok ((if (busy s =? 0)%nat then 0x20 else 0) + (match rx s with [] => 0 | _ => 1 end)) {| s with busy := pred (busy s) |}.
Proof. unfold ser_in. by rewrite Hp at 1. Qed.
Lemma ser_in_iir : ser_in (COM1 + 2) s = Ok 0 s.
Proof. unfold ser_in. by rewrite Hp at 1. Qed.
Lemma ser_in_data : ser_in (COM1 + 0) s = Ok (default 0 (head (rx s))) {| s with rx := tail (rx s) |}.
Proof. unfold ser_in. rewrite Hp at 1. destruct s as [? ? ? ? ? ? ? ? r ? ?]. by destruct r. Qed.
End SerialPorts.
(** What the first part of [uartinit] leaves of a port that is there. *)
Definition configured (s : serial) : serial :=
  {| s with lcr := 3; ier := 1; divisor := 12; busy := pred (busy s); rx := tail (rx s); uart := true |}.
Lemma uartinit_present s (Q : unit -> serial -> Prop) :
  present s = true ->
  wp (zoom pic (fun t s => {| s with pic := t |}) (ioapicenable IRQ_COM1 0) ;; for_each greeting uartputc) Q (configured s) -> wp uartinit Q s.
Proof.
  intros Hp HQ. unfold uartinit. assert (256 * 0 + (256 * (divisor s / 256) + 12) mod 256 = 12) as Ed by zlia.
  assert (forall (K : M serial unit) t, wp K Q {| t with lcr := 3; ier := 1; divisor := 12 |} -> present t = true -> divisor t = divisor s ->
    wp (ser_out (COM1 + 2) 0 ;; ser_out (COM1 + 3) 0x80 ;; ser_out (COM1 + 0) (115200 / 9600) ;; ser_out (COM1 + 1) 0 ;; ser_out (COM1 + 3) 0x03 ;; ser_out (COM1 + 4) 0 ;; ser_out (COM1 + 1) 0x01 ;; K) Q t) as H.
  { intros K t HK Hpt Hd. do 7 (rewrite wp_bind; erewrite wp_eq; [|first [apply ser_out_lcr; exact Hpt|apply ser_out_low; [exact Hpt|reflexivity]|apply ser_out_high; [exact Hpt|reflexivity]|apply ser_out_ier; [exact Hpt|reflexivity]|apply ser_out_other; [exact Hpt|lia]]]).
    unfold with_divisor, with_lcr. cbn [lcr divisor present ier busy delay sent lost rx uart pic]. change (u8 (115200 / 9600)) with 12. change (u8 0) with 0. rewrite Hd, Ed. exact HK. }
  apply H; [|done|done]. rewrite wp_bind. erewrite wp_eq; [|apply ser_in_status; exact Hp]. cbn [busy rx].
  assert (((if (busy s =? 0)%nat then 32 else 0) + match rx s with [] => 0 | _ => 1 end =? 255) = false) as -> by (destruct (busy s), (rx s); done).
  rewrite wp_bind, wp_modify, wp_bind. erewrite wp_eq; [|apply ser_in_iir; exact Hp]. rewrite wp_bind. erewrite wp_eq; [|apply ser_in_data; exact Hp]. exact HQ.
Qed.

(** A port that is there is set to 9600 baud, 8 data bits and receive
    interrupts, which go to processor 0, and sends the greeting and all that is
    written to it, in order and without loss. *)
Theorem serial_sends s bytes :
  present s = true -> (busy s <= 127)%nat -> (delay s <= 127)%nat ->
  wp (uartinit ;; for_each bytes uartputc) (fun _ s' =>
    sent s' = sent s ++ greeting ++ (u8 <$> bytes) /\ lost s' = lost s /\ divisor s' = 12 /\ lcr s' = 3 /\ ier s' = 1 /\
    entry_is (pic s') IRQ_COM1 (Some 0)) s.
Proof.
  intros Hp Hb Hd. rewrite wp_bind. apply uartinit_present; [done|]. rewrite wp_bind, wp_zoom. unfold ioapicenable. rewrite wp_bind, !wp_ioapicwrite. cbn [io_regs io_msgs pic configured].
  set (p := mk_ioapic _ _ _). set (s1 := {| (configured s) with pic := p |}). assert (sending s1) as S1 by (split_and!; (done || cbn; lia)).
  assert (entry_is p IRQ_COM1 (Some 0)) as Ep.
  { assert (io_reg p (REG_TABLE + 2 * IRQ_COM1) = 36) as E1 by (unfold p; rewrite io_reg_insert, decide_False by done; by rewrite lookup_insert_eq). assert (io_reg p (REG_TABLE + 2 * IRQ_COM1 + 1) = 0) as E2 by (unfold p; rewrite io_reg_insert; by rewrite decide_True).
    unfold entry_is, masked, vector, route. rewrite E1, E2. done. }
  eapply wp_mono; [apply (uart_sends greeting s1 S1)|]. cbn beta. intros _ s2 (A1 & A2 & A3 & _ & A5 & A6 & A7 & A8). eapply wp_mono; [apply (uart_sends bytes s2 A3)|]. cbn beta. intros _ s3 (B1 & B2 & _ & _ & B5 & B6 & B7 & B8).
  rewrite B1, B2, B5, B6, B7, B8, A1, A2, A5, A6, A7, A8, <- app_assoc. by split_and!.
Qed.
Definition com_port : serial := mk_serial true 0 0 1 0 5 [] [] [] false (mk_ioapic 0 ∅ []).
Lemma serial_sends_witness : wp (uartinit ;; for_each [104; 105] uartputc) (fun _ s' => sent s' = [120; 118; 54; 46; 46; 46; 10; 104; 105] /\ lost s' = []) com_port.
Proof.
  eapply wp_mono; [apply (serial_sends com_port [104; 105]); [reflexivity|cbn; lia|cbn; lia]|]. cbn beta. intros _ s' (-> & -> & _). done.
Defined.

(** What is received is read in its order, and then there is no more. *)
Lemma uart_receives s : sending s ->
  wp uartgetc (fun r s' => sending s' /\ match rx s with [] => r = -1 /\ rx s' = [] | b :: t => r = b /\ rx s' = t end) s.
Proof.
  intros (S1 & S2 & S3 & S4 & S5). unfold uartgetc. rewrite wp_bind, wp_gets, S2. cbn [negb]. rewrite wp_bind. erewrite wp_eq; [|by apply ser_in_status].
  destruct (rx s) as [|b r] eqn:Er.
  - assert (Z.land ((if (busy s =? 0)%nat then 32 else 0) + 0) 1 =? 0 = true) as -> by (by destruct (busy s)). apply wp_ret. split_and!; try done; [|cbn; lia..]. by split_and!; [done..|cbn; lia|done].
  - assert (Z.land ((if (busy s =? 0)%nat then 32 else 0) + 1) 1 =? 0 = false) as -> by (by destruct (busy s)). erewrite wp_eq; [|by apply ser_in_data]. cbn [rx]. split_and!; try done. by split_and!; [done..|cbn; lia|done].
Qed.
(** Without a port nothing is sent, and nothing read. *)
Lemma uart_absent s c : present s = false -> uart s = false -> (uartinit ;; uartputc c) s = Ok tt s /\ uartgetc s = Ok (-1) s.
Proof.
  intros Hp Hu. assert (forall p v, ser_out p v s = Ok tt s) as Ho by (intros; unfold ser_out; by rewrite Hp). assert (forall p, ser_in p s = Ok 0xFF s) as Hi by (intros; unfold ser_in; by rewrite Hp).
  assert (uartinit s = Ok tt s) as E. { unfold uartinit, mbind, M_bind. rewrite !Ho, Hi. done. }
  unfold uartgetc, uartputc, mbind, M_bind, gets. rewrite E, Hu. done.
Qed.

(** ** The clock *)

Record rtcdate := mk_date { second : Z; minute : Z; hour : Z; day : Z; month : Z; year : Z }.
#[export] Instance rtcdate_eq_dec : EqDecision rtcdate.
Proof. solve_decision. Defined.
Definition CMOS_STATA : Z := 0x0a.
Definition CMOS_STATB : Z := 0x0b.
Definition CMOS_UIP : Z := 128.
Definition SECS : Z := 0x00.
Definition MINS : Z := 0x02.
Definition HOURS : Z := 0x04.
Definition DAY : Z := 0x07.
Definition MONTH : Z := 0x08.
Definition YEAR : Z := 0x09.

Definition to_bcd (x : Z) : Z := 16 * (x / 10) + x mod 10.
Definition map_date (f : Z -> Z) (d : rtcdate) : rtcdate := mk_date (f (second d)) (f (minute d)) (f (hour d)) (f (day d)) (f (month d)) (f (year d)).

Section Clock.
(** The date that the clock shows at the [k]-th access, whether it is just
    being updated, and the format register. *)
Context (shown : nat -> rtcdate) (uip : nat -> bool) (statb : Z).
Definition is_bcd : bool := Z.land statb 4 =? 0.
Definition raw (k : nat) : rtcdate := if is_bcd then map_date to_bcd (shown k) else shown k.
Definition cmos (k : nat) (reg : Z) : Z :=
  if reg =? SECS then second (raw k) else if reg =? MINS then minute (raw k) else if reg =? HOURS then hour (raw k) else
  if reg =? DAY then day (raw k) else if reg =? MONTH then month (raw k) else if reg =? YEAR then year (raw k) else
  if reg =? CMOS_STATA then (if uip k then CMOS_UIP else 0) else statb.

(** The state is the number of accesses so far. *)
Definition cmos_read (reg : Z) : M nat Z := fun k => Ok (cmos k reg) (S k).
Definition fill_rtcdate : M nat rtcdate :=
  s ← cmos_read SECS;
  mi ← cmos_read MINS;
  h ← cmos_read HOURS;
  d ← cmos_read DAY;
  mo ← cmos_read MONTH;
  y ← cmos_read YEAR;
  mret (mk_date s mi h d mo y).
Fixpoint cmostime_loop (fuel : nat) : M nat rtcdate :=
  match fuel with
  | O => diverge
  | S fuel' =>
      t1 ← fill_rtcdate;
      a ← cmos_read CMOS_STATA;
      if negb (Z.land a CMOS_UIP =? 0) then cmostime_loop fuel' else
      t2 ← fill_rtcdate;
      if decide (t1 = t2) then mret t1 else cmostime_loop fuel'
  end.
Definition conv (x : Z) : Z := u32 (Z.shiftr x 4 * 10) + Z.land x 0xf.
Definition cmostime (fuel : nat) : M nat rtcdate :=
  sb ← cmos_read CMOS_STATB;
  let bcd := Z.land sb 4 =? 0 in
  t1 ← cmostime_loop fuel;
  let t := if bcd then map_date conv t1 else t1 in
  mret (mk_date (second t) (minute t) (hour t) (day t) (month t) (u32 (year t + 2000))).

(** Two-digit numbers; an update changes the date at once, at most once in 13
    accesses. *)
Definition two_digits (x : Z) : Prop := 0 <= x < 100.
Definition date_ok (d : rtcdate) : Prop := two_digits (second d) /\ two_digits (minute d) /\ two_digits (hour d) /\ two_digits (day d) /\ two_digits (month d) /\ two_digits (year d).
Definition ticks_slowly : Prop := forall k, exists u, forall j, (k <= j < k + 13)%nat -> shown j = if (j <? u)%nat then shown k else shown (k + 12)%nat.
(** From access [k0] on the clock rests for two attempts. *)
Definition rests (k0 : nat) : Prop := forall j, (k0 <= j < k0 + 26)%nat -> shown j = shown k0 /\ uip j = false.

Lemma conv_to_bcd x : two_digits x -> conv (to_bcd x) = x.
Proof.
  intros Hx. assert (forallb (fun x => conv (to_bcd x) =? x) (seqZ 0 100) = true) as H by (vm_compute; reflexivity). rewrite forallb_forall in H. unfold two_digits in Hx.
  apply Z.eqb_eq, H, list_elem_of_In, elem_of_seqZ. lia.
Qed.
Lemma raw_decode k : date_ok (shown k) -> (if is_bcd then map_date conv (raw k) else raw k) = shown k.
Proof.
  intros (D1 & D2 & D3 & D4 & D5 & D6). unfold raw. destruct is_bcd; [|done]. destruct (shown k). unfold map_date. cbn [second minute hour day month year] in *. by rewrite !conv_to_bcd.
Qed.
Definition filled (k : nat) : rtcdate := mk_date (second (raw k)) (minute (raw (k + 1))) (hour (raw (k + 2))) (day (raw (k + 3))) (month (raw (k + 4))) (year (raw (k + 5))).
Lemma fill_eq k : fill_rtcdate k = Ok (filled k) (k + 6)%nat.
Proof. unfold fill_rtcdate, filled, cmos_read, mbind, M_bind. cbn. repeat f_equal; lia. Qed.
Lemma filled_same k d : (forall j, (k <= j < k + 6)%nat -> raw j = d) -> filled k = d.
Proof. intros H. unfold filled. rewrite !H by lia. by destruct d. Qed.

(** Two readings that agree are a date that was shown. *)
Lemma readings_agree k : ticks_slowly -> filled k = filled (k + 7) -> exists j, (k <= j < k + 13)%nat /\ filled k = raw j.
Proof.
  intros Hs E. destruct (Hs k) as [u Hu]. assert (forall j, (k <= j < k + 13)%nat -> raw j = if (j <? u)%nat then raw k else raw (k + 12)) as Hr. { intros j Hj. unfold raw. rewrite (Hu j Hj). by destruct (j <? u)%nat. }
  destruct (decide (u <= k + 7)%nat) as [Hle|Hgt].
  - exists (k + 12)%nat. split; [lia|]. rewrite E. apply filled_same. intros j Hj. rewrite Hr by lia. by rewrite (proj2 (Nat.ltb_ge _ _)) by lia.
  - exists k. split; [lia|]. apply filled_same. intros j Hj. rewrite Hr by lia. by rewrite (proj2 (Nat.ltb_lt _ _)) by lia.
Qed.
Lemma cmostime_loop_ends k0 fuel : forall k, ticks_slowly -> rests k0 -> (k <= k0 + 13)%nat -> (k0 + 13 - k < fuel)%nat ->
  exists j k', (k <= j < k')%nat /\ cmostime_loop fuel k = Ok (raw j) k'.
Proof.
  induction fuel as [|fuel IH]; intros k Hs Hq Hk Hf; [lia|]. cbn [cmostime_loop]. unfold mbind at 1, M_bind at 1. rewrite fill_eq. unfold mbind at 1, M_bind at 1, cmos_read at 1. change (cmos (k + 6) CMOS_STATA) with (if uip (k + 6)%nat then CMOS_UIP else 0).
  assert (forall k1, (k < k1 <= k + 13)%nat -> (k < k0)%nat -> exists j k', (k <= j < k')%nat /\ cmostime_loop fuel k1 = Ok (raw j) k') as Hagain.
  { intros k1 Hk1 Hlt. destruct (IH k1 Hs Hq) as (j & k' & Hj & E); [lia|lia|]. exists j, k'. split; [lia|done]. }
  destruct (uip (k + 6)%nat) eqn:Eu; cbn [negb].
  - apply Hagain; [lia|]. destruct (decide (k < k0)%nat); [done|]. destruct (Hq (k + 6)%nat); [lia|congruence].
  - change (Z.land 0 CMOS_UIP =? 0) with true. cbn [negb]. unfold mbind at 1, M_bind at 1. rewrite fill_eq. replace (S (k + 6)) with (k + 7)%nat by lia. destruct (decide (filled k = filled (k + 7))) as [E|E].
    + destruct (readings_agree k Hs E) as (j & Hj & Er). exists j, (k + 7 + 6)%nat. split; [lia|]. by rewrite Er.
    + apply Hagain; [lia|]. destruct (decide (k < k0)%nat); [done|]. destruct E. assert (forall j, (k <= j < k + 13)%nat -> raw j = raw k0) as Hr by (intros j Hj; unfold raw; by rewrite (proj1 (Hq j ltac:(lia)))).
      rewrite (filled_same k (raw k0)), (filled_same (k + 7) (raw k0)); [done|intros; apply Hr; lia..].
Qed.

End Clock.
(** A clock that ticks at the twentieth access. *)
Definition tick (j : nat) : rtcdate := mk_date (if (j <? 20)%nat then 58 else 59) 34 12 27 6 20.

(** ** The local APIC *)

Definition ID : Z := 8.
Definition VER : Z := 12.
Definition TPR : Z := 32.
Definition EOI : Z := 44.
Definition SVR : Z := 60.
Definition ENABLE : Z := 0x100.
Definition ESR : Z := 160.
Definition ICRLO : Z := 192.
Definition INIT : Z := 0x500.
Definition STARTUP : Z := 0x600.
Definition DELIVS : Z := 0x1000.
Definition ASSERT : Z := 0x4000.
Definition LEVEL : Z := 0x8000.
Definition BCAST : Z := 0x80000.
Definition ICRHI : Z := 196.
Definition TIMER : Z := 200.
Definition X1 : Z := 0xB.
Definition PERIODIC : Z := 0x20000.
Definition PCINT : Z := 208.
Definition LINT0 : Z := 212.
Definition LINT1 : Z := 216.
Definition ERROR : Z := 220.
Definition MASKED : Z := 0x10000.
Definition TICR : Z := 224.
Definition TDCR : Z := 248.
Definition IRQ_SPURIOUS : Z := 31.
Definition IRQ_ERROR : Z := 19.
Definition CMOS_PORT : Z := 0x70.

(** The APIC of a processor: its registers and the commands it sent, each with
    its destination, which is in [ICRHI] when [ICRLO] is written; for how many
    polls a command is still being delivered; the memory and the ports.
    [there] says that the pointer [lapic] is not 0. *)
Record apic := mk_apic { there : bool; ap_regs : gmap Z Z; ipis : list (Z * Z); pending : nat; ap_mem : gmap Z Z; ap_ports : gmap Z Z }.
Definition ap_reg (s : apic) (r : Z) : Z := default 0 (ap_regs s !! r).
Definition lapicw (index value : Z) : M apic unit := modify (fun s =>
  let s' := {| s with ap_regs := <[index := u32 value]> (ap_regs s) |} in
  if index =? ICRLO then {| s' with ipis := ipis s ++ [(Z.shiftr (ap_reg s ICRHI) 24, u32 value)] |} else s').
Definition lapicr_icrlo : M apic Z := fun s =>
  match pending s with
  | S n => Ok (Z.lor (ap_reg s ICRLO) DELIVS) {| s with pending := n |}
  | O => Ok (clr (ap_reg s ICRLO) DELIVS) s
  end.
Fixpoint wait_delivered (fuel : nat) : M apic unit :=
  v ← lapicr_icrlo;
  if has v DELIVS then match fuel with O => diverge | S fuel' => wait_delivered fuel' end else mret tt.
Definition lapicinit : M apic unit :=
  on ← gets there;
  if negb on then mret tt else
  lapicw SVR (Z.lor ENABLE (IRQ_BASE + IRQ_SPURIOUS)) ;;
  lapicw TDCR X1 ;;
  lapicw TIMER (Z.lor PERIODIC IRQ_BASE) ;;
  lapicw TICR 10000000 ;;
  lapicw LINT0 MASKED ;;
  lapicw LINT1 MASKED ;;
  ver ← gets (fun s => ap_reg s VER);
  when (4 <=? Z.land (Z.shiftr ver 16) 0xFF) (lapicw PCINT MASKED) ;;
  lapicw ERROR (IRQ_BASE + IRQ_ERROR) ;;
  lapicw ESR 0 ;;
  lapicw ESR 0 ;;
  lapicw EOI 0 ;;
  lapicw ICRHI 0 ;;
  lapicw ICRLO (Z.lor (Z.lor BCAST INIT) LEVEL) ;;
  n ← gets pending;
  wait_delivered n ;;
  lapicw TPR 0.
Definition lapicid : M apic Z := gets (fun s => if there s then Z.shiftr (ap_reg s ID) 24 else 0).
Definition lapiceoi : M apic unit := on ← gets there; when on (lapicw EOI 0).

Definition outb_ap (p v : Z) : M apic unit := modify (fun s => {| s with ap_ports := <[p := u8 v]> (ap_ports s) |}).
Definition store16 (m : gmap Z Z) (a v : Z) : gmap Z Z := store8 (store8 m a v) (a + 1) (v / 256).
Definition WRV : Z := P2V 0x467.
Definition lapicstartap (apicid addr : Z) : M apic unit :=
  outb_ap CMOS_PORT 0xF ;;
  outb_ap (CMOS_PORT + 1) 0x0A ;;
  modify (fun s => {| s with ap_mem := store16 (ap_mem s) WRV 0 |}) ;;
  modify (fun s => {| s with ap_mem := store16 (ap_mem s) (WRV + 2) (Z.shiftr addr 4) |}) ;;
  lapicw ICRHI (Z.shiftl apicid 24) ;;
  lapicw ICRLO (Z.lor (Z.lor INIT LEVEL) ASSERT) ;;
  lapicw ICRLO (Z.lor INIT LEVEL) ;;
  for_each [0; 1] (fun _ =>
    lapicw ICRHI (Z.shiftl apicid 24) ;;
    lapicw ICRLO (Z.lor STARTUP (Z.shiftr addr 12))).

(** *** Starting a processor *)

Lemma wp_lapicw r v (Q : unit -> apic -> Prop) s :
  wp (lapicw r v) Q s <-> Q tt (if r =? ICRLO then {| s with ap_regs := <[r := u32 v]> (ap_regs s); ipis := ipis s ++ [(Z.shiftr (ap_reg s ICRHI) 24, u32 v)] |}
                                else {| s with ap_regs := <[r := u32 v]> (ap_regs s) |}).
Proof. unfold lapicw. rewrite wp_modify. by destruct (r =? ICRLO). Qed.
(** A command to the processor in [ICRHI]. *)
Lemma wp_ipi id v (Q : unit -> apic -> Prop) s :
  0 <= id < 256 -> ap_reg s ICRHI = Z.shiftl id 24 -> (forall s', ap_reg s' ICRHI = Z.shiftl id 24 -> ipis s' = ipis s ++ [(id, u32 v)] -> ap_mem s' = ap_mem s -> ap_ports s' = ap_ports s -> Q tt s') -> wp (lapicw ICRLO v) Q s.
Proof.
  intros Hi Hr HQ. rewrite wp_lapicw. cbn [Z.eqb ICRLO Pos.eqb]. apply HQ; try done; cbn [ap_regs ipis].
  - unfold ap_reg in *. cbn [ap_regs]. by rewrite lookup_insert_ne.
  - rewrite Hr, Z.shiftl_mul_pow2, Z.shiftr_div_pow2, Z.div_mul by lia. done.
Qed.
Lemma wp_destination id (Q : unit -> apic -> Prop) s :
  0 <= id < 256 -> (forall s', ap_reg s' ICRHI = Z.shiftl id 24 -> ipis s' = ipis s -> ap_mem s' = ap_mem s -> ap_ports s' = ap_ports s -> Q tt s') -> wp (lapicw ICRHI (Z.shiftl id 24)) Q s.
Proof.
  intros Hi HQ. rewrite wp_lapicw. cbn [Z.eqb ICRLO ICRHI Pos.eqb]. apply HQ; try done. unfold ap_reg. cbn [ap_regs]. rewrite lookup_insert_eq. cbn. rewrite Z.shiftl_mul_pow2 by lia. change (2 ^ 24) with 16777216. unfold u32, W32. apply Z.mod_small. lia.
Qed.
Definition load16_at (m : gmap Z Z) (a : Z) : Z := load8 m a + 256 * load8 m (a + 1).
Lemma load16_store16 m a v : load16_at (store16 m a v) a = u16 v.
Proof. unfold load16_at, store16. rewrite !load8_store8. repeat case_decide; try lia. zlia. Qed.
Lemma load16_store16_ne m a b v : b + 1 < a \/ a + 1 < b -> load16_at (store16 m a v) b = load16_at m b.
Proof. intros H. unfold load16_at, store16. rewrite !load8_store8. repeat case_decide; lia. Qed.
Lemma startup_vector p : 0 <= p < 256 -> u32 (Z.lor STARTUP p) = STARTUP + p.
Proof.
  intros Hp. assert (forallb (fun p => u32 (Z.lor STARTUP p) =? STARTUP + p) (seqZ 0 256) = true) as H by (vm_compute; reflexivity). rewrite forallb_forall in H.
  apply Z.eqb_eq, H, list_elem_of_In, elem_of_seqZ. lia.
Qed.

Lemma wp_lapicstartap s apicid addr (Q : unit -> apic -> Prop) :
  0 <= apicid < 256 -> 0 <= addr < 0x100000 ->
  (forall s', ipis s' = ipis s ++ [(apicid, 0xC500); (apicid, 0x8500); (apicid, STARTUP + addr / 4096); (apicid, STARTUP + addr / 4096)] ->
     ap_mem s' = store16 (store16 (ap_mem s) WRV 0) (WRV + 2) (Z.shiftr addr 4) ->
     ap_ports s' = <[CMOS_PORT + 1 := 0x0A]> (<[CMOS_PORT := 0xF]> (ap_ports s)) -> Q tt s') ->
  wp (lapicstartap apicid addr) Q s.
Proof.
  intros Hi Ha HQ. unfold lapicstartap, outb_ap. do 4 (rewrite wp_bind, wp_modify). cbn beta. set (s0 := {| _ with ap_mem := _ |}).
  rewrite wp_bind. apply wp_destination; [done|]. intros s1 R1 I1 M1 P1. rewrite wp_bind. apply (wp_ipi apicid); [done|done|]. intros s2 R2 I2 M2 P2. rewrite wp_bind. apply (wp_ipi apicid); [done|done|]. intros s3 R3 I3 M3 P3.
  cbn [for_each]. rewrite wp_bind, wp_bind. apply wp_destination; [done|]. intros s4 R4 I4 M4 P4. apply (wp_ipi apicid); [done|done|]. intros s5 R5 I5 M5 P5.
  rewrite wp_bind, wp_bind. apply wp_destination; [done|]. intros s6 R6 I6 M6 P6. apply (wp_ipi apicid); [done|done|]. intros s7 R7 I7 M7 P7. apply wp_ret, HQ;
  rewrite ?I7, ?I6, ?I5, ?I4, ?I3, ?I2, ?I1, ?M7, ?M6, ?M5, ?M4, ?M3, ?M2, ?M1, ?P7, ?P6, ?P5, ?P4, ?P3, ?P2, ?P1; cbn [ipis ap_mem ap_ports s0]; [|done|done].
  rewrite Z.shiftr_div_pow2 by lia. change (2 ^ 12) with 4096. rewrite startup_vector by (Z.to_euclidean_division_equations; lia). by rewrite <- !app_assoc.
Qed.
(** The processor [apicid] gets INIT, its end, and two STARTUP commands, which
    are for the page of [addr]; the warm reset vector leads to [addr] too, and
    the shutdown code says that it is used. *)
Theorem lapicstartap_starts s apicid addr :
  0 <= apicid < 256 -> 0 <= addr < 0x100000 -> addr mod 4096 = 0 ->
  wp (lapicstartap apicid addr) (fun _ s' =>
    ipis s' = ipis s ++ [(apicid, 0xC500); (apicid, 0x8500); (apicid, STARTUP + addr / 4096); (apicid, STARTUP + addr / 4096)] /\
    16 * load16_at (ap_mem s') (WRV + 2) + load16_at (ap_mem s') WRV = addr /\
    ap_ports s' !! CMOS_PORT = Some 0xF /\ ap_ports s' !! (CMOS_PORT + 1) = Some 0x0A) s.
Proof.
  intros Hi Ha Hm. apply wp_lapicstartap; [done|done|]. intros s' I' M' P'. rewrite I', M', P'.
  split_and!; [done| |by rewrite lookup_insert_ne, lookup_insert_eq by done|by rewrite lookup_insert_eq].
  rewrite load16_store16, load16_store16_ne, load16_store16 by lia. rewrite Z.shiftr_div_pow2 by lia. change (2 ^ 4) with 16. change (u16 0) with 0. zlia.
Qed.
Definition boot_apic : apic := mk_apic true ∅ [] 3 ∅ ∅.
Lemma lapicstartap_starts_witness : wp (lapicstartap 1 0x7000) (fun _ s' => ipis s' = [(1, 0xC500); (1, 0x8500); (1, 0x607); (1, 0x607)]) boot_apic.
Proof. eapply wp_mono; [apply (lapicstartap_starts boot_apic 1 0x7000); [lia|lia|reflexivity]|]. cbn beta. intros _ s' (-> & _). reflexivity. Defined.

(** *** Setting up the local APIC *)

Lemma wait_delivered_eq n : forall s, pending s = n -> wait_delivered n s = Ok tt {| s with pending := 0%nat |}.
Proof.
  assert (forall x, has (Z.lor x DELIVS) DELIVS = true) as H1. { intros x. unfold has. apply negb_true_iff, Z.eqb_neq. intros E. assert (Z.testbit (Z.land (Z.lor x DELIVS) DELIVS) 12 = true) as T by (rewrite Z.land_spec, Z.lor_spec; apply andb_true_iff; split; [apply orb_true_iff; by right|done]). by rewrite E in T. }
  assert (forall x, has (clr x DELIVS) DELIVS = false) as H2. { intros x. unfold has, clr. apply negb_false_iff, Z.eqb_eq. rewrite Z.ldiff_land, <- Z.land_assoc, (Z.land_comm (Z.lnot DELIVS)), Z.land_lnot_diag. apply Z.land_0_r. }
  induction n as [|n IH]; intros s Hn; cbn [wait_delivered]; unfold mbind, M_bind, lapicr_icrlo; rewrite Hn; [rewrite H2, <- Hn; by destruct s|]. rewrite H1. by rewrite IH.
Qed.
Ltac apic_step := rewrite wp_bind, wp_lapicw; match goal with |- context [?a =? ICRLO] => let b := eval vm_compute in (a =? ICRLO) in change (a =? ICRLO) with b end; cbv iota; cbn [ap_regs ipis pending there ap_mem ap_ports].
(** After [lapicinit] the APIC is enabled, the timer interrupts periodically
    with the trap of the timer, the external lines are masked, and all APICs
    were synchronised; the wait for the delivery of that command ends. *)
Lemma lapicinit_ready s : there s = true ->
  wp lapicinit (fun _ s' => ap_reg s' SVR = ENABLE + 63 /\ ap_reg s' TIMER = PERIODIC + IRQ_BASE /\ ap_reg s' LINT0 = MASKED /\ ap_reg s' LINT1 = MASKED /\
    ap_reg s' ERROR = IRQ_BASE + IRQ_ERROR /\ ap_reg s' TPR = 0 /\ ipis s' = ipis s ++ [(0, BCAST + INIT + LEVEL)]) s.
Proof.
  intros Ht. unfold lapicinit. rewrite wp_bind, wp_gets, Ht. cbn [negb].
  do 6 apic_step. rewrite wp_bind, wp_gets, wp_bind.
  assert (forall m, wp (lapicw ERROR (IRQ_BASE + IRQ_ERROR) ;; lapicw ESR 0 ;; lapicw ESR 0 ;; lapicw EOI 0 ;; lapicw ICRHI 0 ;; lapicw ICRLO (Z.lor (Z.lor BCAST INIT) LEVEL) ;; n ← gets pending; wait_delivered n ;; lapicw TPR 0)
    (fun _ s' => ap_regs s' = <[TPR := 0]> (<[ICRLO := 0x88500]> (<[ICRHI := 0]> (<[EOI := 0]> (<[ESR := 0]> (<[ESR := 0]> (<[ERROR := 51]> m)))))) /\ ipis s' = ipis s ++ [(0, 0x88500)]) {| s with ap_regs := m |}) as Hrest.
  { intros m. do 6 apic_step. rewrite wp_bind, wp_gets, wp_bind. cbn [pending]. erewrite wp_eq; [|by apply wait_delivered_eq]. rewrite wp_lapicw. change (TPR =? ICRLO) with false. cbv iota. cbn [ap_regs ipis]. split; [done|]. unfold ap_reg. cbn [ap_regs]. by rewrite lookup_insert_eq. }
  rewrite wp_when. case_match; [rewrite wp_lapicw; change (PCINT =? ICRLO) with false; cbv iota|]; (eapply wp_mono; [apply Hrest|]); cbn beta; intros _ s' [Hr Hi]; rewrite Hi; unfold ap_reg; rewrite Hr; cbn [ap_regs].
  all: split_and!; try done; repeat first [rewrite lookup_insert_eq; done|rewrite lookup_insert_ne by done].
Qed.
