(* ===== verification/Machine.v ===== *)
(** The state of the kernel: physical memory, the allocator's bookkeeping
    (kalloc.c), the process table (proc.h, proc.c) with its per-process paging
    metadata, the locks the executing CPU holds, and the control registers.

    Everything that the kernel places in pages it got from [kalloc] (page
    directories and tables, kernel stacks with their trap frames and contexts,
    [queue_node]s and [fblock]s) lives in the byte memory [mem] at the address
    the code uses; static tables of the kernel image ([ptable], [kmem.runs])
    are typed components of the state. *)

From S2P Require Import Prelude Mmu Memory.
From stdpp Require Import base gmap list strings.
From Stdlib Require Import ZArith Lia.
Open Scope Z_scope.

(** ** Build configuration *)

(** The page-replacement policy the kernel is compiled with
    ([-D SELECTION=...], values of defs.h). *)
Inductive selection_policy := NFUA | LAPA | SCFIFO | AQ | DUMMY | NONE.
#[export] Instance selection_policy_eq_dec : EqDecision selection_policy.
Proof. solve_decision. Defined.

Definition selection_code (p : selection_policy) : Z :=
  match p with NFUA => 1 | LAPA => 2 | SCFIFO => 3 | AQ => 4 | DUMMY => 5 | NONE => 8 end.

(** The symbols the linker script kernel.ld defines, and the two assembly
    entry points whose addresses C code stores. *)
Class KernelImage := {
  kdata : Z;
  kend : Z;
  trapret_addr : Z;
  forkret_addr : Z;
  (** [&mycpu()->ts] *)
  ts_addr : Z;
  kdata_aligned : page_aligned kdata;
  kdata_low : KERNLINK < kdata;
  kend_high : kdata <= kend;
  kend_range : kend < KERNBASE + PHYSTOP
}.

(** The addresses of the kernel image in the repository (kernel.sym). *)
Definition xv6_image : KernelImage.
Proof.
  refine {| kdata := 0x8010a000; kend := 0x801975a8;
            trapret_addr := 0x8010651f; forkret_addr := 0x801041f0;
            ts_addr := 0x80185b88 |}.
  all: done.
Defined.

(** ** Locks held by the executing CPU

    The spin locks of the modelled part of the kernel. A CPU's view of them is
    the list of those it holds; Spinlock.v shows that the lock implementation
    provides this view. *)
Inductive lockname := L_kmem | L_ptable | L_ticks.
#[export] Instance lockname_eq_dec : EqDecision lockname.
Proof. solve_decision. Defined.

(** ** Processes (proc.h) *)

Inductive procstate := UNUSED | EMBRYO | SLEEPING | RUNNABLE | RUNNING | ZOMBIE.
#[export] Instance procstate_eq_dec : EqDecision procstate.
Proof. solve_decision. Defined.

(** What a process sleeps on: the address of a process-table entry, of
    [ticks], or of another kernel object. *)
Inductive channel := NoChan | ChProc (p : nat) | ChTicks | ChAddr (a : Z).
#[export] Instance channel_eq_dec : EqDecision channel.
Proof. solve_decision. Defined.

(** [struct page]: one entry of a process's table of resident or swapped
    pages. *)
Record page := mk_page {
  page_pgdir : Z;
  isused : Z;
  virt_addr : Z;
  swap_offset : Z;
  ref_bit : Z;
  nfua_counter : Z;
  lapa_counter : Z
}.
Definition page_zero : page := mk_page 0 0 0 0 0 0 0.
#[export] Instance page_eq_dec : EqDecision page.
Proof. solve_decision. Defined.

(** [struct proc]; process pointers are indices into [ptable.proc]. *)
Record proc := mk_proc {
  sz : Z;
  pgdir : Z;
  kstack : Z;
  state : procstate;
  pid : Z;
  parent : option nat;
  tf : Z;
  context : Z;
  chan : channel;
  killed : Z;
  ofile : list Z;
  cwd : Z;
  name : list Z;
  swapFile : Z;
  nummemorypages : Z;
  numswappages : Z;
  swappedPages : list page;
  ramPages : list page;
  num_ram : Z;
  num_swap : Z;
  clockHand : Z;
  free_head : Z;
  free_tail : Z;
  queue_head : Z;
  queue_tail : Z;
  selection : Z;
  totalPgfltCount : Z;
  totalPgoutCount : Z
}.

(** An entry of the process table as the loader leaves it (zeroed .bss). *)
Definition proc_zero : proc :=
  mk_proc 0 0 0 UNUSED 0 None 0 0 NoChan 0 (replicate NOFILE 0) 0 (replicate 16 0) 0 0 0
    (replicate MAX_PSYC_PAGES page_zero) (replicate MAX_PSYC_PAGES page_zero)
    0 0 0 0 0 0 0 0 0 0.

(** ** The allocator's bookkeeping (kalloc.c) *)

(** [struct run]; run pointers are indices into [kmem.runs]. *)
Record run := mk_run { run_next : option Z; refcount : Z }.
Definition run_zero : run := mk_run None 0.

Record kmem := mk_kmem {
  use_lock : Z;
  freelist : option Z;
  runs : gmap Z run
}.

(** ** The executing CPU (proc.h, [struct cpu])

    The part of [struct cpu] that the memory code sets up: the descriptor
    table and the fields of the task state segment, with the registers that
    refer to them. *)
Record cpu := mk_cpu {
  gdt : list segdesc;
  ts_ss0 : Z;
  ts_esp0 : Z;
  ts_iomb : Z;
  (** the task register *)
  tr : Z
}.
Definition segdesc_zero : segdesc := mk_segdesc 0 0 0 0 0 0 0 0 0 0 0 0 0.
Definition cpu_zero : cpu := mk_cpu (replicate NSEGS segdesc_zero) 0 0 0 0.

(** ** The kernel state *)

Record kstate := mk_kstate {
  mem : gmap Z Z;
  km : kmem;
  held : list lockname;
  procs : list proc;
  (** [mycpu()->proc] *)
  curproc : option nat;
  nextpid : Z;
  initproc : option nat;
  ticks : Z;
  cr2 : Z;
  cr3 : Z;
  kpgdir : Z;
  buffer : list Z;
  (** contents of the swap files, by [struct file] pointer *)
  swapfiles : gmap Z (list Z);
  (** contents of the files, by in-memory inode; File.v shows that the
      file-system code provides this view *)
  inodes : gmap Z (list Z);
  mycpu : cpu
}.

(** ** Accessors *)

Definition run_at (k : kmem) (i : Z) : run := default run_zero (runs k !! i).
Definition set_run (i : Z) (r : run) (k : kmem) : kmem :=
  {| k with runs := <[i := r]> (runs k) |}.
Definition set_freelist (f : option Z) (k : kmem) : kmem := {| k with freelist := f |}.

(** The loads and stores of C code through a pointer: dereferencing the null
    pointer is undefined behaviour. *)
Definition ld32 (a : Z) : M kstate Z :=
  if a =? 0 then ub else gets (fun s => load32 (mem s) a).
Definition st32 (a v : Z) : M kstate unit :=
  if a =? 0 then ub else modify (fun s => {| s with mem := store32 (mem s) a v |}).

(** [p->field] for a pointer [p] to a structure with the field at [off]. *)
Definition ldf (p off : Z) : M kstate Z :=
  if p =? 0 then ub else gets (fun s => load32 (mem s) (p + off)).
Definition stf (p off v : Z) : M kstate unit :=
  if p =? 0 then ub else modify (fun s => {| s with mem := store32 (mem s) (p + off) v |}).

Definition set_mem (f : gmap Z Z -> gmap Z Z) : M kstate unit :=
  modify (fun s => {| s with mem := f (mem s) |}).

(** [&ptable.proc[i]] *)
Definition get_proc (i : nat) : M kstate proc := fun s =>
  match procs s !! i with Some p => Ok p s | None => UB end.
Definition set_proc (i : nat) (f : proc -> proc) : M kstate unit :=
  modify (fun s => {| s with procs := alter f i (procs s) |}).

(** [myproc()] *)
Definition myproc : M kstate (option nat) := gets curproc.
(** [*myproc()], and an assignment to fields of it *)
Definition cur : M kstate proc :=
  i ← myproc; match i with Some i => get_proc i | None => ub end.
Definition set_cur (f : proc -> proc) : M kstate unit :=
  i ← myproc; match i with Some i => set_proc i f | None => ub end.

(** The CPU's own view of [acquire] and [release]. *)
Definition acquire (l : lockname) : M kstate unit := fun s =>
  if decide (l ∈ held s) then Panic "acquire" else Ok tt {| s with held := l :: held s |}.
Definition release (l : lockname) : M kstate unit := fun s =>
  if decide (l ∈ held s) then Ok tt {| s with held := filter (.≠ l) (held s) |}
  else Panic "release".

(** The proc of the current process in a state. *)
Definition curp (s : kstate) : option proc := i ← curproc s; procs s !! i.

(** ** Lemmas *)

Lemma run_at_set k i r j :
  run_at (set_run i r k) j = if decide (i = j) then r else run_at k j.
Proof. unfold run_at, set_run. cbn. rewrite lookup_insert. by case_decide. Qed.
Lemma run_at_set_eq k i r : run_at (set_run i r k) i = r.
Proof. rewrite run_at_set. by rewrite decide_True. Qed.
Lemma run_at_set_ne k i r j : i ≠ j -> run_at (set_run i r k) j = run_at k j.
Proof. intros. rewrite run_at_set. by rewrite decide_False. Qed.

Lemma wp_ld32 a Q s : a ≠ 0 -> wp (ld32 a) Q s <-> Q (load32 (mem s) a) s.
Proof. intros. unfold ld32. destruct (Z.eqb_spec a 0); done. Qed.
Lemma wp_st32 a v Q s :
  a ≠ 0 -> wp (st32 a v) Q s <-> Q tt {| s with mem := store32 (mem s) a v |}.
Proof. intros. unfold st32. destruct (Z.eqb_spec a 0); done. Qed.
Lemma wp_ldf p o Q s : p ≠ 0 -> wp (ldf p o) Q s <-> Q (load32 (mem s) (p + o)) s.
Proof. intros. unfold ldf. destruct (Z.eqb_spec p 0); done. Qed.
Lemma wp_stf p o v Q s :
  p ≠ 0 -> wp (stf p o v) Q s <-> Q tt {| s with mem := store32 (mem s) (p + o) v |}.
Proof. intros. unfold stf. destruct (Z.eqb_spec p 0); done. Qed.
Lemma wp_set_mem f Q s : wp (set_mem f) Q s <-> Q tt {| s with mem := f (mem s) |}.
Proof. done. Qed.
Lemma wp_get_proc i p Q s : procs s !! i = Some p -> wp (get_proc i) Q s <-> Q p s.
Proof. unfold wp, get_proc. by intros ->. Qed.
Lemma wp_set_proc i f Q s :
  wp (set_proc i f) Q s <-> Q tt {| s with procs := alter f i (procs s) |}.
Proof. done. Qed.
Lemma wp_acquire l Q s :
  l ∉ held s -> wp (acquire l) Q s <-> Q tt {| s with held := l :: held s |}.
Proof. intros. unfold wp, acquire. by rewrite decide_False. Qed.
Lemma wp_release l Q s :
  l ∈ held s -> wp (release l) Q s <-> Q tt {| s with held := filter (.≠ l) (held s) |}.
Proof. intros. unfold wp, release. by rewrite decide_True. Qed.

Lemma wp_cur p Q s : curp s = Some p -> wp cur Q s <-> Q p s.
Proof.
  unfold curp, cur, myproc. intros H. rewrite wp_bind, wp_gets.
  destruct (curproc s) as [i|]; [|done]. by apply wp_get_proc.
Qed.
Lemma wp_set_cur i f Q s :
  curproc s = Some i ->
  wp (set_cur f) Q s <-> Q tt {| s with procs := alter f i (procs s) |}.
Proof.
  intros H. assert (set_cur f s = set_proc i f s) as E.
  { unfold set_cur, myproc, mbind, M_bind, gets. by rewrite H. }
  unfold wp. by rewrite E.
Qed.

Lemma filter_ne_notin (l : lockname) (ls : list lockname) : l ∉ ls -> filter (.≠ l) ls = ls.
Proof.
  induction ls as [|x ls IH]; [done|]. intros H. apply not_elem_of_cons in H as [H1 H2].
  rewrite filter_cons_True by congruence. by rewrite IH.
Qed.

(** Acquiring a free lock and releasing it restores the set of held locks. *)
Lemma release_acquired (l : lockname) (ls : list lockname) : l ∉ ls -> filter (.≠ l) (l :: ls) = ls.
Proof. intros. rewrite filter_cons_False by tauto. by apply filter_ne_notin. Qed.
