(* ===== verification/Kalloc.v ===== *)
(** The physical page allocator (kalloc.c): a free list threaded through the
    array [kmem.runs], which also holds the reference count of every page
    frame (used by copy-on-write sharing). *)

From S2P Require Import Prelude Mmu Memory Machine.
From stdpp Require Import base gmap list strings.
From Stdlib Require Import ZArith Lia.
Open Scope Z_scope.

Section Kalloc.
Context {KI : KernelImage}.

(** ** Operations *)

(** [if(kmem.use_lock) acquire(&kmem.lock)] and its counterpart *)
Definition lock_kmem : M kstate unit :=
  k ← gets km; when (negb (use_lock k =? 0)) (acquire L_kmem).
Definition unlock_kmem : M kstate unit :=
  k ← gets km; when (negb (use_lock k =? 0)) (release L_kmem).

Definition set_km (f : kmem -> kmem) : M kstate unit :=
  modify (fun s => {| s with km := f (km s) |}).

(** The test both [kfree] and [kfree_nocheck] start with. *)
Definition bad_page (v : Z) : bool :=
  (negb (v mod PGSIZE =? 0) || (v <? kend) || (PHYSTOP <=? V2P v))%bool.

(** The index of the run of a page: [V2P(v) / PGSIZE]. *)
Definition frame_of (v : Z) : Z := V2P v / PGSIZE.

Definition kfree (v : Z) : M kstate unit :=
  if bad_page v then panic "kfree" else
  set_mem (fun m => memset m v 1 PGSIZE) ;;
  lock_kmem ;;
  let r := frame_of v in
  k ← gets km;
  if negb (refcount (run_at k r) =? 1) then panic "kfree: freeing a shared page" else
  set_km (fun k => set_freelist (Some r) (set_run r (mk_run (freelist k) 0) k)) ;;
  unlock_kmem.

Definition kfree_nocheck (v : Z) : M kstate unit :=
  if bad_page v then panic "kfree_nocheck" else
  set_mem (fun m => memset m v 1 PGSIZE) ;;
  lock_kmem ;;
  let r := frame_of v in
  set_km (fun k => set_freelist (Some r) (set_run r (mk_run (freelist k) 0) k)) ;;
  unlock_kmem.

Definition kalloc : M kstate Z :=
  lock_kmem ;;
  k ← gets km;
  (match freelist k with
   | Some r =>
       let rn := run_next (run_at k r) in
       set_km (fun k => set_freelist rn (set_run r (mk_run rn 1) k))
   | None => mret tt
   end) ;;
  unlock_kmem ;;
  mret (match freelist k with Some r => P2V (u32 (r * PGSIZE)) | None => 0 end).

Definition add_ref (v d : Z) : M kstate unit :=
  lock_kmem ;;
  let r := frame_of v in
  set_km (fun k =>
    set_run r (mk_run (run_next (run_at k r)) (u32 (refcount (run_at k r) + d))) k) ;;
  unlock_kmem.
Definition refDec (v : Z) : M kstate unit := add_ref v (-1).
Definition refInc (v : Z) : M kstate unit := add_ref v 1.

Definition getRefs (v : Z) : M kstate Z :=
  k ← gets km; mret (s32 (refcount (run_at k (frame_of v)))).

(** [getNumOfFreePages] walks the free list; a walk of more than [MAXPAGES]
    nodes would mean that the list is cyclic. *)
Fixpoint count_free (k : kmem) (r : option Z) (fuel : nat) : option Z :=
  match r, fuel with
  | None, _ => Some 0
  | Some _, O => None
  | Some i, S fuel' => c ← count_free k (run_next (run_at k i)) fuel'; Some (1 + c)
  end.
Definition getNumOfFreePages : M kstate Z :=
  k ← gets km;
  match count_free k (freelist k) (Z.to_nat MAXPAGES) with
  | Some c => mret c
  | None => diverge
  end.

(** [for(; p + PGSIZE <= vend; p += PGSIZE) kfree_nocheck(p)] *)
Fixpoint freerange_loop (p vend : Z) (fuel : nat) : M kstate unit :=
  if p + PGSIZE <=? vend then
    match fuel with
    | O => diverge
    | S fuel' => kfree_nocheck p ;; freerange_loop (p + PGSIZE) vend fuel'
    end
  else mret tt.
Definition freerange (vstart vend : Z) : M kstate unit :=
  let p := PGROUNDUP vstart in
  freerange_loop p vend (Z.to_nat ((vend - p) / PGSIZE)).

Definition kinit1 (vstart vend : Z) : M kstate unit :=
  set_km (fun k => {| k with use_lock := 0 |}) ;;
  freerange vstart vend.
Definition kinit2 (vstart vend : Z) : M kstate unit :=
  freerange vstart vend ;;
  set_km (fun k => {| k with use_lock := 1 |}).

(** ** Invariant *)

(** The frames on the free list starting at [r], in list order. *)
Fixpoint fl_chain (k : kmem) (r : option Z) (l : list Z) : Prop :=
  match l with
  | [] => r = None
  | i :: l' => r = Some i /\ fl_chain k (run_next (run_at k i)) l'
  end.

(** The frames [kfree] accepts. *)
Definition user_frame (i : Z) : Prop :=
  0 <= i < MAXPAGES /\ kend <= P2V (i * PGSIZE).
(** The kernel address of a frame. *)
Definition frame_addr (i : Z) : Z := KERNBASE + i * PGSIZE.

Record kmem_ok (k : kmem) (l : list Z) : Prop := {
  ko_chain : fl_chain k (freelist k) l;
  ko_nodup : NoDup l;
  ko_range : Forall user_frame l;
  ko_ref : Forall (fun i => refcount (run_at k i) = 0) l
}.

(** The executing CPU may take the allocator's lock. *)
Definition kmem_unlocked (s : kstate) : Prop :=
  use_lock (km s) = 0 \/ L_kmem ∉ held s.

(** ** Lemmas *)

Lemma user_frame_bounds i : user_frame i -> 0 <= i < 57344.
Proof. intros [H _]. revert H. page_lia. Qed.
Lemma frame_addr_P2V i : 0 <= i < MAXPAGES -> P2V (u32 (i * PGSIZE)) = frame_addr i.
Proof. unfold frame_addr. intros. page_lia. Qed.
Lemma frame_of_addr i : 0 <= i < MAXPAGES -> frame_of (frame_addr i) = i.
Proof. unfold frame_of, frame_addr. intros. page_lia. Qed.
Lemma frame_addr_of v :
  page_aligned v -> KERNBASE <= v < W32 -> frame_addr (frame_of v) = v.
Proof. unfold frame_of, frame_addr, page_aligned. intros. page_lia. Qed.
Lemma frame_addr_range i : 0 <= i < MAXPAGES -> KERNBASE <= frame_addr i < KERNBASE + PHYSTOP.
Proof. unfold frame_addr. intros. page_lia. Qed.
Lemma frame_addr_aligned i : page_aligned (frame_addr i).
Proof. unfold frame_addr, page_aligned. page_lia. Qed.
Lemma frame_addr_inj i j : frame_addr i = frame_addr j -> i = j.
Proof. unfold frame_addr, PGSIZE. lia. Qed.
#[local] Hint Resolve frame_addr_aligned : kdb.

Lemma bad_page_frame i : user_frame i -> bad_page (frame_addr i) = false.
Proof.
  intros [Hi He]. unfold bad_page. rewrite !orb_false_iff.
  pose proof (frame_addr_range i Hi). pose proof (frame_addr_aligned i) as Ha.
  unfold page_aligned in Ha. split_and!.
  - change PGSIZE with 4096. by rewrite Ha.
  - apply Z.ltb_ge. revert He. unfold frame_addr. page_lia.
  - apply Z.leb_gt. page_lia.
Qed.

Lemma fl_chain_set k i rn r l :
  i ∉ l -> fl_chain k r l -> fl_chain (set_run i rn k) r l.
Proof.
  revert r; induction l as [|j l IH]; intros r Hi; cbn; [done|].
  apply not_elem_of_cons in Hi as [Hne Hi]. intros [-> Hc]. split; [done|].
  rewrite run_at_set_ne by done. by apply IH.
Qed.
Lemma fl_chain_freelist k f r l :
  fl_chain (set_freelist f k) r l <-> fl_chain k r l.
Proof. revert r; induction l as [|j l IH]; intros r; cbn; [done|]. by rewrite IH. Qed.

Lemma ref_set k i rn l :
  i ∉ l -> Forall (fun j => refcount (run_at k j) = 0) l ->
  Forall (fun j => refcount (run_at (set_run i rn k) j) = 0) l.
Proof.
  intros Hi. rewrite !Forall_forall. intros H j Hj.
  rewrite run_at_set_ne; [auto|]. intros ->. done.
Qed.

(** Bookkeeping of a run that is not on the free list does not disturb the
    invariant. *)
Lemma kmem_ok_set k l i rn : i ∉ l -> kmem_ok k l -> kmem_ok (set_run i rn k) l.
Proof.
  intros Hi [Hc Hn Hr H0]. split; cbn; auto using fl_chain_set, ref_set.
Qed.

Lemma kmem_ok_push k l i :
  i ∉ l -> user_frame i -> kmem_ok k l ->
  kmem_ok (set_freelist (Some i) (set_run i (mk_run (freelist k) 0) k)) (i :: l).
Proof.
  intros Hi Hu [Hc Hn Hr H0]. split.
  - cbn. split; [done|]. apply fl_chain_freelist.
    unfold run_at; cbn. rewrite lookup_insert_eq. cbn. by apply fl_chain_set.
  - by constructor.
  - by constructor.
  - constructor.
    + unfold run_at; cbn. by rewrite lookup_insert_eq.
    + by apply ref_set.
Qed.

Lemma kmem_ok_pop k l i rn :
  kmem_ok k (i :: l) -> run_next rn = run_next (run_at k i) ->
  kmem_ok (set_freelist (run_next (run_at k i)) (set_run i rn k)) l.
Proof.
  intros [[Hf Hc] Hn Hr H0] Hrn. apply NoDup_cons in Hn as [Hi Hn].
  apply Forall_cons in Hr as [_ Hr]. apply Forall_cons in H0 as [_ H0].
  split; [|done..|by apply ref_set].
  apply fl_chain_freelist. cbn. by apply fl_chain_set.
Qed.

Lemma kmem_ok_length k l : kmem_ok k l -> (length l <= Z.to_nat MAXPAGES)%nat.
Proof.
  intros [_ Hn Hr _].
  assert (l ⊆+ seqZ 0 MAXPAGES) as Hs.
  { apply NoDup_submseteq; [done|]. intros i Hi. rewrite Forall_forall in Hr.
    apply elem_of_seqZ. destruct (Hr i Hi). lia. }
  apply submseteq_length in Hs. by rewrite length_seqZ in Hs.
Qed.

Lemma count_free_chain k r l fuel :
  fl_chain k r l -> (length l <= fuel)%nat ->
  count_free k r fuel = Some (Z.of_nat (length l)).
Proof.
  revert r fuel; induction l as [|i l IH]; intros r fuel; cbn [fl_chain length].
  - intros -> _. by destruct fuel.
  - intros [-> Hc] Hf. destruct fuel as [|fuel]; [lia|]. cbn [count_free].
    rewrite (IH _ fuel) by (done || lia). cbn. f_equal. lia.
Qed.

(** *** Triples *)

Lemma wp_lock_kmem Q s :
  kmem_unlocked s ->
  (forall h, (use_lock (km s) ≠ 0 -> h = L_kmem :: held s) ->
             (use_lock (km s) = 0 -> h = held s) -> Q tt {| s with held := h |}) ->
  wp lock_kmem Q s.
Proof.
  intros Hu HQ. unfold lock_kmem. wp_steps. destruct (Z.eqb_spec (use_lock (km s)) 0) as [E|E]; cbn.
  - specialize (HQ (held s)). destruct s; cbn in *. by apply HQ.
  - destruct Hu as [?|Hu]; [done|]. rewrite wp_acquire by done. by apply HQ.
Qed.

(** Running the body of a critical section on the allocator's state. *)
Lemma wp_kmem_section f Q s :
  kmem_unlocked s -> (forall k, use_lock (f k) = use_lock k) ->
  Q tt {| s with km := f (km s) |} ->
  wp (lock_kmem ;; set_km f ;; unlock_kmem) Q s.
Proof.
  intros Hu Hf HQ. wp_steps. apply wp_lock_kmem; [done|]. intros h H1 H0.
  unfold set_km, unlock_kmem. wp_steps. cbn. rewrite Hf.
  destruct (Z.eqb_spec (use_lock (km s)) 0) as [E|E]; cbn.
  - rewrite H0 by done. by destruct s.
  - rewrite H1 by done. destruct Hu as [?|Hu]; [done|].
    rewrite wp_release; cbn; [|apply elem_of_cons; by left].
    destruct (decide (L_kmem ≠ L_kmem)); [done|].
    rewrite filter_ne_notin by done. by destruct s.
Qed.

Lemma wp_kalloc_cons Q s i l :
  kmem_unlocked s -> kmem_ok (km s) (i :: l) ->
  (Q (frame_addr i)
     {| s with km := set_freelist (run_next (run_at (km s) i))
                        (set_run i (mk_run (run_next (run_at (km s) i)) 1) (km s)) |}) ->
  wp kalloc Q s.
Proof.
  intros Hu Hk HQ. unfold kalloc.
  destruct (ko_chain _ _ Hk) as [Hf _].
  assert (0 <= i < MAXPAGES) as Hi.
  { pose proof (ko_range _ _ Hk) as Hr. apply Forall_cons in Hr as [[Hr _] _]. done. }
  wp_steps. apply wp_lock_kmem; [done|]. intros h H1 H0. wp_steps. cbn. rewrite Hf.
  unfold set_km. wp_steps. unfold unlock_kmem. wp_steps. cbn.
  rewrite frame_addr_P2V by done.
  destruct (Z.eqb_spec (use_lock (km s)) 0) as [E|E]; cbn.
  - rewrite H0 by done. by destruct s.
  - rewrite H1 by done. destruct Hu as [?|Hu]; [done|].
    rewrite wp_release; cbn; [|apply elem_of_cons; by left].
    destruct (decide (L_kmem ≠ L_kmem)); [done|].
    rewrite filter_ne_notin by done. wp_steps. by destruct s.
Qed.

Lemma wp_kalloc_nil Q s :
  kmem_unlocked s -> kmem_ok (km s) [] -> Q 0 s -> wp kalloc Q s.
Proof.
  intros Hu Hk HQ. unfold kalloc. pose proof (ko_chain _ _ Hk) as Hf. cbn in Hf.
  wp_steps. apply wp_lock_kmem; [done|]. intros h H1 H0. wp_steps. cbn. rewrite Hf.
  wp_steps. unfold unlock_kmem. wp_steps. cbn.
  destruct (Z.eqb_spec (use_lock (km s)) 0) as [E|E]; cbn.
  - rewrite H0 by done. by destruct s.
  - rewrite H1 by done. destruct Hu as [?|Hu]; [done|].
    rewrite wp_release; cbn; [|apply elem_of_cons; by left].
    destruct (decide (L_kmem ≠ L_kmem)); [done|].
    rewrite filter_ne_notin by done. wp_steps. by destruct s.
Qed.

Lemma wp_kfree Q s i :
  kmem_unlocked s -> user_frame i -> refcount (run_at (km s) i) = 1 ->
  Q tt {| s with mem := memset (mem s) (frame_addr i) 1 PGSIZE;
                 km := set_freelist (Some i) (set_run i (mk_run (freelist (km s)) 0) (km s)) |} ->
  wp (kfree (frame_addr i)) Q s.
Proof.
  intros Hu Hi Hr HQ. unfold kfree. rewrite bad_page_frame by done.
  rewrite frame_of_addr by apply Hi.
  rewrite wp_bind, wp_set_mem, wp_bind. apply wp_lock_kmem; [done|]. intros h H1 H0.
  cbn in H1, H0. wp_steps. cbn. rewrite Hr. cbn.
  unfold set_km, unlock_kmem. wp_steps. cbn.
  destruct (Z.eqb_spec (use_lock (km s)) 0) as [E|E]; cbn.
  - rewrite H0 by done. by destruct s.
  - rewrite H1 by done. destruct Hu as [?|Hu]; [done|].
    rewrite wp_release; cbn; [|apply elem_of_cons; by left].
    destruct (decide (L_kmem ≠ L_kmem)); [done|].
    rewrite filter_ne_notin by done. by destruct s.
Qed.

Lemma wp_add_ref v d Q s :
  kmem_unlocked s ->
  Q tt {| s with km := set_run (frame_of v)
            (mk_run (run_next (run_at (km s) (frame_of v)))
                    (u32 (refcount (run_at (km s) (frame_of v)) + d))) (km s) |} ->
  wp (add_ref v d) Q s.
Proof. intros Hu HQ. unfold add_ref. by apply wp_kmem_section. Qed.

Lemma wp_getRefs v Q s :
  wp (getRefs v) Q s <-> Q (s32 (refcount (run_at (km s) (frame_of v)))) s.
Proof. done. Qed.

Lemma wp_kfree_nocheck Q s i :
  kmem_unlocked s -> user_frame i ->
  Q tt {| s with mem := memset (mem s) (frame_addr i) 1 PGSIZE;
                 km := set_freelist (Some i) (set_run i (mk_run (freelist (km s)) 0) (km s)) |} ->
  wp (kfree_nocheck (frame_addr i)) Q s.
Proof.
  intros Hu Hi HQ. unfold kfree_nocheck. rewrite bad_page_frame by done.
  rewrite frame_of_addr by apply Hi. rewrite wp_bind, wp_set_mem.
  by apply wp_kmem_section.
Qed.

(** The loop of [freerange] pushes the frames [i], ..., [i + n - 1]. *)
Lemma wp_freerange_loop n : forall s l i vend,
  kmem_unlocked s -> kmem_ok (km s) l ->
  frame_addr (i + Z.of_nat n) <= vend < frame_addr (i + Z.of_nat n + 1) ->
  (forall j, i <= j < i + Z.of_nat n -> user_frame j /\ j ∉ l) ->
  wp (freerange_loop (frame_addr i) vend n) (fun _ s' =>
    kmem_ok (km s') (rev (seqZ i (Z.of_nat n)) ++ l) /\
    s' = {| s with mem := mem s'; km := km s' |} /\ use_lock (km s') = use_lock (km s)) s.
Proof.
  induction n as [|n IH]; intros s l i vend Hu Hk Hend Hfr; cbn [freerange_loop];
    unfold frame_addr in Hend.
  - destruct (Z.leb_spec (frame_addr i + PGSIZE) vend) as [E|_].
    { unfold frame_addr in E. lia. }
    cbn. by destruct s.
  - destruct (Z.leb_spec (frame_addr i + PGSIZE) vend) as [_|E].
    2: { unfold frame_addr, PGSIZE in *. lia. }
    rewrite wp_bind. apply wp_kfree_nocheck; [done|apply Hfr; lia|].
    replace (frame_addr i + PGSIZE) with (frame_addr (i + 1)) by (unfold frame_addr; lia).
    destruct (Hfr i) as [Hui Hil]; [lia|].
    eapply wp_mono.
    + apply (IH _ (i :: l)).
      * done.
      * cbn. by apply kmem_ok_push.
      * unfold frame_addr, PGSIZE in *. lia.
      * intros j Hj. rewrite not_elem_of_cons. destruct (Hfr j) as [? ?]; [lia|]. split_and!; try done. lia.
    + intros [] s' (Hk' & Hs & Hl). split_and!; [|rewrite Hs; by destruct s|done].
      rewrite (seqZ_cons i) by lia. cbn [rev]. rewrite <- app_assoc.
      replace (Z.succ i) with (i + 1) by lia. replace (Z.pred (Z.of_nat (S n))) with (Z.of_nat n) by lia.
      done.
Qed.

(** ** Correctness of the allocator *)

(** [kalloc] takes the first page of the free list: it returns that
    page's address with reference count 1, the rest of the list remains, no
    other page's bookkeeping, no byte of memory and no other part of the kernel
    state changes, the lock is released; on an empty list it returns 0 and changes nothing. *)
Theorem kalloc_correct s l :
  kmem_unlocked s -> kmem_ok (km s) l ->
  wp kalloc (fun r s' =>
    match l with
    | [] => r = 0 /\ s' = s
    | i :: l' => r = frame_addr i /\ kmem_ok (km s') l' /\
        refcount (run_at (km s') i) = 1 /\ use_lock (km s') = use_lock (km s) /\
        (forall j, j ≠ i -> run_at (km s') j = run_at (km s) j) /\
        s' = {| s with km := km s' |}
    end) s.
Proof.
  intros Hu Hk. destruct l as [|i l]; [by apply wp_kalloc_nil|].
  eapply wp_kalloc_cons; [done..|]. cbn. split_and!; try done.
  - by apply kmem_ok_pop.
  - unfold run_at; cbn. by rewrite lookup_insert_eq.
  - intros j Hj. unfold run_at; cbn. by rewrite lookup_insert_ne by done.
Qed.

(** [kfree] of a page with reference count 1 fills it with junk and puts
    it at the head of the free list; the invariant holds again. *)
Theorem kfree_correct s l i :
  kmem_unlocked s -> kmem_ok (km s) l -> user_frame i -> refcount (run_at (km s) i) = 1 ->
  wp (kfree (frame_addr i)) (fun _ s' =>
    kmem_ok (km s') (i :: l) /\ use_lock (km s') = use_lock (km s) /\
    (forall x, load8 (mem s') x =
       if decide (frame_addr i <= x < frame_addr i + PGSIZE) then 1 else load8 (mem s) x) /\
    s' = {| s with mem := mem s'; km := km s' |}) s.
Proof.
  intros Hu Hk Hi Hr. apply wp_kfree; [done..|]. cbn. split_and!; try done.
  - apply kmem_ok_push; [|done..]. intros Hin. pose proof (ko_ref _ _ Hk) as H0.
    rewrite Forall_forall in H0. rewrite (H0 i Hin) in Hr. lia.
  - intros x. by rewrite load8_memset by done.
Qed.

(** [kfree] stops the kernel instead of corrupting the free list: an
    address that is not a page of the allocator, a page that is already free
    and a page that is still shared are all reported by a panic. *)
Theorem kfree_rejects s l v :
  kmem_unlocked s -> kmem_ok (km s) l ->
  bad_page v = true \/ frame_of v ∈ l \/ 1 < refcount (run_at (km s) (frame_of v)) ->
  exists msg, kfree v s = Panic msg.
Proof.
  intros Hu Hk H. unfold kfree. destruct (bad_page v) eqn:Eb; [by eexists|].
  assert (refcount (run_at (km s) (frame_of v)) ≠ 1) as Hr.
  { destruct H as [H|[H|H]]; [done| |lia]. pose proof (ko_ref _ _ Hk) as H0.
    rewrite Forall_forall in H0. rewrite (H0 _ H). lia. }
  unfold set_mem, lock_kmem, gets, modify, when, mbind, M_bind. cbn.
  destruct (use_lock (km s) =? 0) eqn:E; cbn.
  - apply Z.eqb_neq in Hr. rewrite Hr. by eexists.
  - unfold acquire. cbn. destruct (decide _) as [|_]; [by eexists|]. cbn.
    apply Z.eqb_neq in Hr. rewrite Hr. by eexists.
Qed.

(** Freeing a page and allocating again gives back the same page, with
    reference count 1, and the free list is as before. *)
Theorem kfree_kalloc s l i :
  kmem_unlocked s -> kmem_ok (km s) l -> user_frame i -> refcount (run_at (km s) i) = 1 ->
  wp (kfree (frame_addr i) ;; kalloc) (fun r s' =>
    r = frame_addr i /\ kmem_ok (km s') l /\ freelist (km s') = freelist (km s) /\
    refcount (run_at (km s') i) = 1) s.
Proof.
  intros Hu Hk Hi Hr. rewrite wp_bind. apply wp_kfree; [done..|].
  assert (i ∉ l) as Hil.
  { intros Hin. pose proof (ko_ref _ _ Hk) as H0. rewrite Forall_forall in H0.
    rewrite (H0 i Hin) in Hr. lia. }
  eapply wp_kalloc_cons; [done|by apply kmem_ok_push|]. cbn. split_and!; [done| | |].
  - eapply kmem_ok_pop; [by apply kmem_ok_push|done].
  - unfold run_at; cbn. by rewrite lookup_insert_eq.
  - unfold run_at; cbn. by rewrite lookup_insert_eq.
Qed.

(** [getNumOfFreePages] terminates and returns the length of the free
    list. *)
Theorem getNumOfFreePages_correct s l :
  kmem_ok (km s) l -> getNumOfFreePages s = Ok (Z.of_nat (length l)) s.
Proof.
  intros Hk. unfold getNumOfFreePages, gets, mbind, M_bind.
  rewrite (count_free_chain _ _ l); [done|apply Hk|by apply kmem_ok_length in Hk].
Qed.

(** [freerange], with which [kinit1] and [kinit2] build the free list,
    adds exactly the whole pages between its bounds, the highest first. *)
Theorem freerange_correct s l vstart vend :
  kmem_unlocked s -> kmem_ok (km s) l -> kend <= vstart ->
  PGROUNDUP vstart <= vend <= KERNBASE + PHYSTOP -> vstart <= vend ->
  let first := frame_of (PGROUNDUP vstart) in
  let n := (vend - PGROUNDUP vstart) / PGSIZE in
  (forall j, first <= j < first + n -> j ∉ l) ->
  wp (freerange vstart vend) (fun _ s' =>
    kmem_ok (km s') (rev (seqZ first n) ++ l) /\
    s' = {| s with mem := mem s'; km := km s' |} /\ use_lock (km s') = use_lock (km s)) s.
Proof.
  intros Hu Hk Hs He Hv first n Hl. unfold freerange.
  pose proof kend_high. pose proof kdata_low.
  assert (KERNBASE <= vstart < W32 - 4096) as Hr by (unfold KERNLINK, KERNBASE, EXTMEM, PHYSTOP, W32 in *; lia).
  destruct (PGROUNDUP_bounds vstart) as [Hb1 Hb2]; [unfold KERNBASE, W32 in *; lia..|].
  assert (frame_addr first = PGROUNDUP vstart) as Hf.
  { apply frame_addr_of; [apply PGROUNDUP_aligned|]. unfold KERNBASE, W32, PHYSTOP in *. lia. }
  assert (0 <= n) as Hn by (apply Z.div_pos; [lia|done]).
  rewrite <- Hf. replace (vend - frame_addr first) with (vend - PGROUNDUP vstart) by lia. fold n.
  assert (seqZ first n = seqZ first (Z.of_nat (Z.to_nat n))) as -> by (by rewrite Z2Nat.id).
  assert (n * PGSIZE <= vend - PGROUNDUP vstart < (n + 1) * PGSIZE) as Hnn.
  { unfold n. generalize (vend - PGROUNDUP vstart). unfold PGSIZE. clear. intros. zlia. }
  apply wp_freerange_loop; [done|done| |].
  - rewrite Z2Nat.id by done. unfold frame_addr in *. lia.
  - intros j Hj. rewrite Z2Nat.id in Hj by done. split; [|by apply Hl].
    assert (frame_addr first <= frame_addr j) as Hj1 by (unfold frame_addr, PGSIZE; lia).
    assert (frame_addr j + PGSIZE <= KERNBASE + PHYSTOP) as Hj2 by (unfold frame_addr, PGSIZE in *; lia).
    assert (0 <= j < MAXPAGES) as Hj3.
    { change MAXPAGES with 57344. unfold frame_addr, PHYSTOP, KERNBASE, PGSIZE in *. lia. }
    split; [done|]. rewrite P2V_small by (change MAXPAGES with 57344 in *; unfold KERNBASE, PGSIZE in *; lia).
    unfold frame_addr in *. lia.
Qed.

End Kalloc.

#[export] Hint Resolve frame_addr_aligned : kdb.

(** ** Witnesses

    A kernel in which frame 1000 is allocated and the frames 1001 to 1003 are
    free. *)

Definition demo_kmem : kmem :=
  mk_kmem 1 (Some 1001)
    (<[1000 := mk_run None 1]> (<[1001 := mk_run (Some 1002) 0]>
      (<[1002 := mk_run (Some 1003) 0]> ∅))).
Definition demo_state : kstate :=
  mk_kstate ∅ demo_kmem [] [] None 1 None 0 0 0 0 [] ∅ ∅ cpu_zero.

Lemma user_frame_xv6 i : 407 < i < 57344 -> @user_frame xv6_image i.
Proof.
  intros H. split; [change MAXPAGES with 57344; lia|].
  rewrite P2V_small by (unfold KERNBASE, PGSIZE; lia). cbn. unfold PGSIZE, KERNBASE. lia.
Qed.
Lemma demo_ok : @kmem_ok xv6_image (km demo_state) [1001; 1002; 1003].
Proof.
  split.
  - vm_compute. done.
  - vm_compute. apply (bool_decide_unpack _). vm_compute. done.
  - repeat constructor; apply user_frame_xv6; lia.
  - repeat constructor.
Qed.
Lemma demo_unlocked : kmem_unlocked demo_state.
Proof. right. apply not_elem_of_nil. Qed.

Lemma kalloc_correct_witness :
  wp kalloc (fun r s' => r = 0x803e9000 /\ kmem_ok (KI := xv6_image) (km s') [1002; 1003]) demo_state.
Proof.
  eapply wp_mono; [apply (kalloc_correct (KI := xv6_image) _ _ demo_unlocked demo_ok)|].
  intros r s' (-> & H & _). split; [reflexivity|exact H].
Defined.

Lemma kfree_correct_witness :
  wp (kfree (KI := xv6_image) (frame_addr 1000))
     (fun _ s' => kmem_ok (KI := xv6_image) (km s') [1000; 1001; 1002; 1003]) demo_state.
Proof.
  eapply wp_mono; [apply (kfree_correct (KI := xv6_image) _ _ 1000 demo_unlocked demo_ok)|].
  - apply user_frame_xv6. lia.
  - reflexivity.
  - intros r s' (H & _). exact H.
Defined.

Lemma kfree_rejects_witness :
  exists msg, kfree (KI := xv6_image) (frame_addr 1002) demo_state = Panic msg.
Proof.
  apply (kfree_rejects (KI := xv6_image) _ _ _ demo_unlocked demo_ok). right. left.
  apply elem_of_cons. right. apply elem_of_cons. left. reflexivity.
Defined.

Lemma kfree_kalloc_witness :
  wp (kfree (KI := xv6_image) (frame_addr 1000) ;; kalloc) (fun r _ => r = frame_addr 1000) demo_state.
Proof.
  eapply wp_mono; [apply (kfree_kalloc (KI := xv6_image) _ _ 1000 demo_unlocked demo_ok)|].
  - apply user_frame_xv6. lia.
  - reflexivity.
  - intros r s' (H & _). exact H.
Defined.

Lemma getNumOfFreePages_witness : getNumOfFreePages demo_state = Ok 3 demo_state.
Proof. apply (getNumOfFreePages_correct (KI := xv6_image) demo_state _ demo_ok). Defined.

(** [kinit1(end, P2V(4 * 1024 * 1024))] on the state the loader leaves. *)
Lemma freerange_correct_witness :
  let s := mk_kstate ∅ (mk_kmem 0 None ∅) [] [] None 1 None 0 0 0 0 [] ∅ ∅ cpu_zero in
  wp (freerange (KI := xv6_image) 0x801975a8 0x80400000)
     (fun _ s' => kmem_ok (KI := xv6_image) (km s') (rev (seqZ 408 616) ++ [])) s.
Proof.
  intros s. eapply wp_mono.
  - apply (freerange_correct (KI := xv6_image) s [] 0x801975a8 0x80400000).
    + left. reflexivity.
    + split; [reflexivity|constructor..].
    + cbn. lia.
    + vm_compute. split; discriminate.
    + lia.
    + intros j _. apply not_elem_of_nil.
  - intros r s' (H & _). exact H.
Defined.
