(* ===== verification/Main.v ===== *)
(** Starting the other processors ([startothers] of main.c), composed of the
    memory allocator, the local APIC and the code in entryother.S, and the page
    directory that the processors start with. *)

From S2P Require Import Prelude Mmu Memory Machine Kalloc Devices.
From stdpp Require Import base gmap list strings.
From Stdlib Require Import ZArith Lia.
Open Scope Z_scope.

(** The state of the kernel, the local APIC of the boot processor, the APIC ids
    of the processors, and those that run: with their stack pointer, the
    address they call and the address in their cr3. *)
Record mainst := mk_mainst { ks : kstate; ap : apic; cpu_ids : list Z; running : list (Z * Z * Z * Z) }.
Definition on_kernel {A} (m : M kstate A) : M mainst A := zoom ks (fun t s => {| s with ks := t |}) m.
(** The APIC and the kernel share the memory. *)
Definition on_apic {A} (m : M apic A) : M mainst A :=
  zoom (fun s => {| (ap s) with ap_mem := mem (ks s) |}) (fun t s => {| s with ap := t; ks := {| (ks s) with mem := ap_mem t |} |}) m.

Section Start.
Context `{KI : KernelImage}.
(** Addresses from the linker: the image of entryother.S and its size, the
    function [mpenter] and the page directory [entrypgdir]. *)
Context (entryother_start entryother_size mpenter entrypgdir_addr : Z).

Definition code : Z := P2V 0x7000.

(** entryother.S, run by a processor after a STARTUP command: it loads cr3 from
    start-12 and the stack pointer from start-4, and calls start-8; [mpmain]
    sets [started]. Without such a command the loop in [startothers] goes on. *)
Definition wait_started (apicid : Z) : M mainst unit := fun s =>
  if bool_decide (last (ipis (ap s)) = Some (apicid, STARTUP + V2P code / 4096)) then
    let m := mem (ks s) in
    Ok tt {| s with running := running s ++ [(apicid, load32 m (code - 4), load32 m (code - 8), load32 m (code - 12))] |}
  else Diverge.
Definition start_one (c : Z) : M mainst unit :=
  stack ← on_kernel kalloc;
  on_kernel (st32 (code - 4) (u32 (stack + KSTACKSIZE))) ;;
  on_kernel (st32 (code - 8) mpenter) ;;
  on_kernel (st32 (code - 12) (V2P entrypgdir_addr)) ;;
  on_apic (lapicstartap c (V2P code)) ;;
  wait_started c.
(** The loop over [cpus]: [k] is the index of the first of [ids], [me] that of
    [mycpu()]. *)
Fixpoint start_loop (ids : list Z) (k me : nat) : M mainst unit :=
  match ids with
  | [] => mret tt
  | c :: ids' => (if bool_decide (k = me) then mret tt else start_one c) ;; start_loop ids' (S k) me
  end.
Definition startothers (me : nat) : M mainst unit :=
  on_kernel (set_mem (fun m => memmove m code entryother_start entryother_size)) ;;
  ids ← gets cpu_ids;
  start_loop ids 0 me.

(** What a processor is started with. *)
Definition start_state (c i : Z) : Z * Z * Z * Z := (c, frame_addr i + KSTACKSIZE, mpenter, V2P entrypgdir_addr).
Definition code_placed (m0 m : gmap Z Z) : Prop := forall i, 0 <= i < entryother_size -> load8 m (code + i) = load8 m0 (entryother_start + i).

Hypothesis Hsize : 0 <= entryother_size <= 4096.
Hypothesis Henter : 0 <= mpenter < 4294967296.

Lemma wp_start_one s c i l m0 (Q : unit -> mainst -> Prop) :
  kmem_unlocked (ks s) -> kmem_ok (km (ks s)) (i :: l) -> 0 <= c < 256 -> code_placed m0 (mem (ks s)) ->
  (forall s', kmem_unlocked (ks s') -> kmem_ok (km (ks s')) l -> code_placed m0 (mem (ks s')) -> cpu_ids s' = cpu_ids s ->
     running s' = running s ++ [start_state c i] -> Q tt s') ->
  wp (start_one c) Q s.
Proof.
  intros Hu Hk Hc Hp HQ. pose proof (ko_range _ _ Hk) as Hr. apply list.Forall_cons in Hr as [Hr _]. pose proof (user_frame_bounds _ Hr) as Hib.
  unfold start_one. rewrite wp_bind. unfold on_kernel at 1. rewrite wp_zoom. apply (wp_kalloc_cons _ _ i l); [done|done|]. set (k1 := {| (ks s) with km := _ |}).
  assert (kmem_ok (km k1) l) as Hk1 by (by apply kmem_ok_pop). unfold on_kernel, st32. change (code - 4 =? 0) with false. change (code - 8 =? 0) with false. change (code - 12 =? 0) with false. cbv iota.
  do 3 (rewrite wp_bind, wp_zoom, wp_modify; cbn [ks ap cpu_ids running mem km]). rewrite wp_bind. unfold on_apic. rewrite wp_zoom. apply wp_lapicstartap; [done|by vm_compute|]. intros t I' M' _. cbn [ks ap cpu_ids running mem km ap_mem ipis] in *.
  unfold wait_started, wp. cbn [ks ap cpu_ids running mem]. rewrite I', bool_decide_true by (by rewrite last_snoc || (rewrite last_app; done)). set (m1 := ap_mem t) in *.
  assert (forall x, x ∉ seqZ WRV 4 -> load8 m1 x = load8 (store32 (store32 (store32 (mem (ks s)) (code - 4) (u32 (frame_addr i + KSTACKSIZE))) (code - 8) mpenter) (code - 12) (V2P entrypgdir_addr)) x) as Hm1.
  { intros x Hx. rewrite elem_of_seqZ in Hx. rewrite M'. unfold store16. rewrite !load8_store8. repeat case_decide; try lia. done. }
  assert (forall a, 0x80006000 <= a -> load32 m1 a = load32 (store32 (store32 (store32 (mem (ks s)) (code - 4) (u32 (frame_addr i + KSTACKSIZE))) (code - 8) mpenter) (code - 12) (V2P entrypgdir_addr)) a) as Hm2.
  { intros a Ha. apply load32_ext. intros x Hx. apply Hm1. rewrite elem_of_seqZ. change WRV with 0x80000467. lia. }
  apply HQ; cbn [ks ap cpu_ids running mem km].
  - destruct Hu as [Hu|Hu]; [by left|by right].
  - exact Hk1.
  - intros j Hj. rewrite Hm1 by (rewrite elem_of_seqZ; change WRV with 0x80000467; change code with 0x80007000; lia). rewrite !load8_store32_ne by lia. by apply Hp.
  - done.
  - rewrite !Hm2 by (change code with 0x80007000; lia). rewrite (load32_store32_ne _ (code - 12) _ (code - 4)), (load32_store32_ne _ (code - 8) _ (code - 4)), (load32_store32_ne _ (code - 12) _ (code - 8)), !load32_store32_eq by lia.
    unfold start_state. do 4 f_equal; [|by apply Z.mod_small|unfold V2P; by apply Z.mod_small, Z.mod_pos_bound]. rewrite u32_idemp, u32_small; [done|]. unfold frame_addr, KERNBASE, PGSIZE, KSTACKSIZE, W32. lia.
Qed.
Lemma wp_start_loop ids : forall k me s l m0 (Q : unit -> mainst -> Prop),
  kmem_unlocked (ks s) -> kmem_ok (km (ks s)) l -> Forall (fun c => 0 <= c < 256) ids -> code_placed m0 (mem (ks s)) ->
  let others := if decide (k <= me)%nat then delete (me - k)%nat ids else ids in
  (length others <= length l)%nat ->
  (forall s', kmem_ok (km (ks s')) (drop (length others) l) -> code_placed m0 (mem (ks s')) ->
     running s' = running s ++ zip_with start_state others l -> Q tt s') ->
  wp (start_loop ids k me) Q s.
Proof.
  induction ids as [|c ids IH]; intros k me s l m0 Q Hu Hk Hc Hp others Hl HQ.
  { cbn [start_loop]. apply wp_ret. assert (others = []) as E by (unfold others; case_decide; [by destruct (me - k)%nat|done]). rewrite E in HQ. apply HQ; [done|done|by rewrite app_nil_r]. }
  apply list.Forall_cons in Hc as [Hc0 Hc]. cbn [start_loop]. rewrite wp_bind. destruct (decide (k = me)) as [->|Hne].
  - rewrite bool_decide_true by done. apply wp_ret. assert (others = ids) as E by (unfold others; by rewrite decide_True, Nat.sub_diag by lia).
    apply (IH (S me) me s l m0); try done; rewrite (decide_False (P := (S me <= me)%nat)) by lia; rewrite <- E; done.
  - rewrite bool_decide_false by done. set (others' := if decide (S k <= me)%nat then delete (me - S k)%nat ids else ids).
    assert (others = c :: others') as E. { unfold others, others'. destruct (decide (k <= me)%nat); [rewrite decide_True by lia|by rewrite decide_False by lia]. by replace (me - k)%nat with (S (me - S k)) by lia. }
    rewrite E in Hl, HQ. destruct l as [|i l]; [cbn in Hl; lia|]. cbn [length] in Hl. apply (wp_start_one s c i l m0); try done. intros s1 Hu1 Hk1 Hp1 _ Hr1.
    apply (IH (S k) me s1 l m0); try done; [fold others'; lia|]. fold others'. intros s' Hk' Hp' Hr'. apply HQ; [done|done|]. cbn [zip_with]. by rewrite Hr', Hr1, <- app_assoc.
Qed.

(** C36. Every other processor is started once, in the order of the table; each with
    a stack of its own from the allocator, with [mpenter] to call and the page
    directory [entrypgdir], and the code of entryother.S is at the address it
    was started at. *)
Theorem startothers_starts s me l :
  kmem_unlocked (ks s) -> kmem_ok (km (ks s)) l -> Forall (fun c => 0 <= c < 256) (cpu_ids s) -> running s = [] ->
  (length (delete me (cpu_ids s)) <= length l)%nat ->
  wp (startothers me) (fun _ s' =>
    running s' = zip_with start_state (delete me (cpu_ids s)) l /\
    kmem_ok (km (ks s')) (drop (length (delete me (cpu_ids s))) l) /\ NoDup (running s').*1.*1.*2 /\
    code_placed (mem (ks s)) (mem (ks s'))) s.
Proof.
  intros Hu Hk Hc Hr Hl. unfold startothers. rewrite wp_bind. unfold on_kernel, set_mem. rewrite wp_zoom, wp_modify, wp_bind, wp_gets. cbn [cpu_ids].
  apply (wp_start_loop (cpu_ids s) 0 me _ l (mem (ks s))); cbn [ks km mem held]; try done.
  - intros i Hi. rewrite load8_memmove by lia. rewrite decide_True by lia. f_equal. lia.
  - by rewrite decide_True, Nat.sub_0_r by lia.
  - rewrite decide_True, Nat.sub_0_r by lia. cbn [running]. intros s' Hk' Hp' Hr'. rewrite Hr in Hr'. cbn [app] in Hr'. split_and!; try done. rewrite Hr'.
    assert ((zip_with start_state (delete me (cpu_ids s)) l).*1.*1.*2 = (fun i => frame_addr i + KSTACKSIZE) <$> take (length (delete me (cpu_ids s))) l) as ->.
    { clear -Hl. revert l Hl. induction (delete me (cpu_ids s)) as [|c cs IH]; intros l Hl; [done|]. destruct l as [|i l]; [cbn in Hl; lia|]. cbn in Hl |- *. f_equal. apply IH. lia. }
    apply NoDup_fmap_2; [intros i j; unfold frame_addr, PGSIZE; lia|]. apply (NoDup_app (take _ l) (drop (length (delete me (cpu_ids s))) l)). rewrite take_drop. apply Hk.
Qed.
End Start.

(** ** The first page directory *)

Definition entrypgdir (i : Z) : Z :=
  if i =? 0 then Z.lor (Z.lor (Z.lor 0 PTE_P) PTE_W) PTE_PS
  else if i =? Z.shiftr KERNBASE PDXSHIFT then Z.lor (Z.lor (Z.lor 0 PTE_P) PTE_W) PTE_PS
  else 0.
(** The translation of an address by entries for pages of 4 Mbytes. *)
Definition translate (pd : Z -> Z) (va : Z) : option Z :=
  let e := pd (PDX va) in
  if has e PTE_P && has e PTE_PS then Some (Z.shiftr e 22 * 4194304 + va mod 4194304) else None.
(** It maps the first 4 Mbytes to themselves and at [KERNBASE], and nothing
    else: the jump of entry.S to high addresses continues at the same code. *)
Lemma entrypgdir_maps va : 0 <= va < 4294967296 ->
  translate entrypgdir va =
    if decide (va < 4194304) then Some va else if decide (KERNBASE <= va < KERNBASE + 4194304) then Some (va - KERNBASE) else None.
Proof.
  intros Hva. unfold translate, entrypgdir. assert (PDX va = va / 4194304) as ->.
  { unfold PDX, PDXSHIFT. rewrite u32_small by done. rewrite Z.shiftr_div_pow2 by lia. change 0x3FF with (Z.ones 10). rewrite Z.land_ones by lia. change (2 ^ 22) with 4194304. apply Z.mod_small. zlia. }
  change (Z.lor (Z.lor (Z.lor 0 PTE_P) PTE_W) PTE_PS) with 131. change (Z.shiftr KERNBASE PDXSHIFT) with 512. unfold KERNBASE. destruct (Z.eqb_spec (va / 4194304) 0) as [E|E]; [|destruct (Z.eqb_spec (va / 4194304) 512) as [E'|E']].
  - rewrite decide_True by zlia. change (has 131 PTE_P && has 131 PTE_PS) with true. cbv iota. change (Z.shiftr 131 22) with 0. f_equal. zlia.
  - rewrite decide_False, decide_True by zlia. change (has 131 PTE_P && has 131 PTE_PS) with true. cbv iota. change (Z.shiftr 131 22) with 0. f_equal. zlia.
  - rewrite !decide_False by zlia. done.
Qed.

(** Two other processors next to the boot processor. *)
Definition demo_main : mainst := mk_mainst demo_state boot_apic [0; 3; 5] [].
Lemma startothers_starts_witness :
  wp (startothers 0x8010b48c 138 0x801037e0 0x8010a000 0) (fun _ s' =>
    running s' = [(3, 0x803ea000, 0x801037e0, 0x10a000); (5, 0x803eb000, 0x801037e0, 0x10a000)] /\ kmem_ok (KI := xv6_image) (km (ks s')) [1003]) demo_main.
Proof.
  eapply wp_mono; [apply (startothers_starts (KI := xv6_image) 0x8010b48c 138 0x801037e0 0x8010a000 ltac:(lia) ltac:(lia) demo_main 0 [1001; 1002; 1003]); [apply demo_unlocked|apply demo_ok|by repeat constructor|reflexivity|cbn; lia]|].
  cbn beta. intros _ s' (Hr & Hk & _). split; [rewrite Hr; vm_compute; reflexivity|exact Hk].
Defined.
