(* ===== verification/PageTable.v ===== *)
(** Two-level page tables (vm.c): [walkpgdir] and [mappages], the abstract
    view of a page directory as a function from virtual pages to entries, and
    the proof that the operations on memory implement updates of that
    function. *)

From S2P Require Import Prelude Mmu Memory Machine Kalloc.
From stdpp Require Import base gmap list strings.
From Stdlib Require Import ZArith Lia.
Open Scope Z_scope.

Section PageTable.
Context {KI : KernelImage}.

(** ** Operations *)

(** Returns the address of the entry for [va], or 0. *)
Definition walkpgdir (pgdir va : Z) (alloc : bool) : M kstate Z :=
  pde ← ldf pgdir (4 * PDX va);
  if has pde PTE_P then mret (P2V (PTE_ADDR pde) + 4 * PTX va)
  else if negb alloc then mret 0 else
  pgtab ← kalloc;
  if pgtab =? 0 then mret 0 else
  set_mem (fun m => memset m pgtab 0 PGSIZE) ;;
  stf pgdir (4 * PDX va) (Z.lor (Z.lor (Z.lor (V2P pgtab) PTE_P) PTE_W) PTE_U) ;;
  mret (pgtab + 4 * PTX va).

(** The [for(;;)] loop of [mappages]; it leaves at [a == last], which is
    [(last - a) / PGSIZE] pages away (modulo the 32-bit address space). *)
Fixpoint mappages_loop (pgdir a last pa perm : Z) (fuel : nat) : M kstate Z :=
  pte ← walkpgdir pgdir a true;
  if pte =? 0 then mret (-1) else
  v ← ld32 pte;
  if has v PTE_P then panic "remap" else
  st32 pte (Z.lor (Z.lor pa perm) PTE_P) ;;
  if a =? last then mret 0 else
  match fuel with
  | O => diverge
  | S fuel' => mappages_loop pgdir (u32 (a + PGSIZE)) last (u32 (pa + PGSIZE)) perm fuel'
  end.
Definition mappages (pgdir va size pa perm : Z) : M kstate Z :=
  let a := PGROUNDDOWN va in
  let last := PGROUNDDOWN (u32 (va + size - 1)) in
  mappages_loop pgdir a last pa perm (Z.to_nat (u32 (last - a) / PGSIZE)).

(** Used by [exec] for the guard page below the user stack. *)
Definition clearpteu (pgdir uva : Z) : M kstate unit :=
  pte ← walkpgdir pgdir uva false;
  if pte =? 0 then panic "clearpteu" else
  v ← ld32 pte; st32 pte (clr v PTE_U).

(** [uva2ka] reads the entry without testing the pointer [walkpgdir]
    returned. *)
Definition uva2ka (pgdir uva : Z) : M kstate Z :=
  pte ← walkpgdir pgdir uva false;
  v ← ld32 pte;
  if negb (has v PTE_P) then mret 0 else
  if negb (has v PTE_U) then mret 0 else
  mret (P2V (PTE_ADDR v)).

(** ** The abstract view *)

(** [x] is an address inside frame [f]. *)
Definition in_frame (f x : Z) : Prop := frame_addr f <= x < frame_addr f + 4096.
(** Frame [f] has the same contents in [m] and [m']. *)
Definition same_frame (m m' : gmap Z Z) (f : Z) : Prop :=
  forall x, in_frame f x -> load8 m' x = load8 m x.

(** The frame of the [i]-th page table of the directory in frame [pd]. *)
Definition tbl (m : gmap Z Z) (pd i : Z) : option Z :=
  let d := load32 m (frame_addr pd + 4 * i) in
  if has d PTE_P then Some (PTE_ADDR d / PGSIZE) else None.

(** The entry for [va]: 0 when there is no page table for it, which is what a
    fresh page table would hold. This is the abstract state of a page
    directory. *)
Definition pte_val (m : gmap Z Z) (pd va : Z) : Z :=
  match tbl m pd (PDX va) with
  | Some f => load32 m (frame_addr f + 4 * PTX va)
  | None => 0
  end.

(** Well-formed directory: its tables are distinct frames, other than the
    directory's own. *)
Record pt_wf (m : gmap Z Z) (pd : Z) : Prop := {
  wf_pd : 0 <= pd < MAXPAGES;
  wf_tbl : forall i f, 0 <= i < 1024 -> tbl m pd i = Some f -> 0 <= f < MAXPAGES /\ f ≠ pd;
  wf_inj : forall i j f, 0 <= i < 1024 -> 0 <= j < 1024 ->
             tbl m pd i = Some f -> tbl m pd j = Some f -> i = j
}.

(** The frames the directory consists of. *)
Definition owns (m : gmap Z Z) (pd f : Z) : Prop :=
  f = pd \/ exists i, 0 <= i < 1024 /\ tbl m pd i = Some f.

(** The same page. *)
Definition vpn (va : Z) : Z := u32 va / 4096.

(** What page-table code needs of the state: the allocator is usable, the
    directory is well formed, and no free frame is part of it. *)
Record as_ok (s : kstate) (pd : Z) (l : list Z) : Prop := {
  ok_unlocked : kmem_unlocked s;
  ok_kmem : kmem_ok (km s) l;
  ok_wf : pt_wf (mem s) pd;
  ok_free : forall f, f ∈ l -> ~ owns (mem s) pd f
}.

(** How page-table code changes the state: it takes frames from the front of
    the free list and makes them tables of the directory; nothing outside the
    directory's own frames changes. *)
Record pt_ext (pd : Z) (s s' : kstate) (used l' : list Z) : Prop := {
  px_ok : as_ok s' pd l';
  px_state : s' = {| s with mem := mem s'; km := km s' |};
  px_lock : use_lock (km s') = use_lock (km s);
  px_tbls : forall i f, 0 <= i < 1024 -> tbl (mem s) pd i = Some f -> tbl (mem s') pd i = Some f;
  px_new : forall f, owns (mem s') pd f -> owns (mem s) pd f \/ f ∈ used;
  px_used : forall f, f ∈ used -> owns (mem s') pd f;
  px_mem : forall f, ~ owns (mem s') pd f -> 0 <= f < MAXPAGES -> same_frame (mem s) (mem s') f;
  px_ref : forall f, f ∉ used -> run_at (km s') f = run_at (km s) f;
  px_ref1 : forall f, f ∈ used -> refcount (run_at (km s') f) = 1
}.

(** The abstract operation: [n] consecutive pages from [va] map to consecutive
    physical pages from [pa], with [perm] and the present bit. *)
Definition abs_map (t : Z -> Z) (va pa perm n : Z) : Z -> Z := fun va' =>
  let j := vpn va' - vpn va in
  if (0 <=? j) && (j <? n) then u32 (Z.lor (Z.lor (u32 (pa + j * PGSIZE)) perm) PTE_P) else t va'.

(** ** Lemmas: frames *)

Lemma in_frame_dec f g x : in_frame f x -> in_frame g x -> f = g.
Proof. unfold in_frame, frame_addr, PGSIZE. lia. Qed.

Lemma load32_same_frame m m' f o :
  same_frame m m' f -> 0 <= o <= 4092 ->
  load32 m' (frame_addr f + o) = load32 m (frame_addr f + o).
Proof.
  intros H Ho. apply load32_ext. intros x Hx. apply H. unfold in_frame. lia.
Qed.

Lemma tbl_same m m' pd i :
  same_frame m m' pd -> 0 <= i < 1024 -> tbl m' pd i = tbl m pd i.
Proof. intros H Hi. unfold tbl. rewrite (load32_same_frame m m') by (done || lia). done. Qed.

(** Memory outside a directory's frames does not matter to it. *)
Lemma pt_frame m m' pd :
  pt_wf m pd -> (forall f, owns m pd f -> same_frame m m' f) ->
  pt_wf m' pd /\ (forall i, 0 <= i < 1024 -> tbl m' pd i = tbl m pd i) /\
  (forall va, pte_val m' pd va = pte_val m pd va).
Proof.
  intros [Hp Ht Hi] Hs.
  assert (forall i, 0 <= i < 1024 -> tbl m' pd i = tbl m pd i) as Htbl.
  { intros i Hr. apply tbl_same; [|done]. apply Hs. by left. }
  split_and!; [|done|].
  - split; [done| |].
    + intros i f Hr. rewrite Htbl by done. by apply Ht.
    + intros i j f Hr Hj. rewrite !Htbl by done. by apply Hi.
  - intros va. unfold pte_val. pose proof (PDX_range va). pose proof (PTX_range va).
    rewrite Htbl by done. destruct (tbl m pd (PDX va)) as [f|] eqn:E; [|done].
    apply load32_same_frame; [|lia]. apply Hs. right. eauto.
Qed.

Lemma owns_frame m m' pd f :
  (forall i, 0 <= i < 1024 -> tbl m' pd i = tbl m pd i) -> owns m' pd f <-> owns m pd f.
Proof.
  intros H. unfold owns. split; (intros [->|(i & Hi & Ht)]; [by left|right; exists i]).
  - by rewrite <- H.
  - by rewrite H.
Qed.

Lemma same_frame_refl m f : same_frame m m f.
Proof. done. Qed.
Lemma same_frame_trans m1 m2 m3 f :
  same_frame m1 m2 f -> same_frame m2 m3 f -> same_frame m1 m3 f.
Proof. intros H1 H2 x Hx. by rewrite H2, H1. Qed.

Lemma same_frame_store32 m f g o v :
  f ≠ g -> 0 <= o <= 4092 -> same_frame m (store32 m (frame_addr g + o) v) f.
Proof.
  intros Hne Ho x Hx. apply load8_store32_ne.
  unfold in_frame, frame_addr, PGSIZE in *. lia.
Qed.
Lemma same_frame_memset m f g c :
  f ≠ g -> same_frame m (memset m (frame_addr g) c PGSIZE) f.
Proof.
  intros Hne x Hx. rewrite load8_memset by done. rewrite decide_False; [done|].
  unfold in_frame, frame_addr, PGSIZE in *. lia.
Qed.
Lemma load32_memset_frame m g o :
  0 <= o <= 4092 -> load32 (memset m (frame_addr g) 0 PGSIZE) (frame_addr g + o) = 0.
Proof.
  intros Ho. unfold load32. rewrite !load8_memset by done.
  rewrite !decide_True by (unfold PGSIZE; lia). done.
Qed.

Lemma pte_val_range m pd va : 0 <= pte_val m pd va < W32.
Proof.
  unfold pte_val. destruct (tbl m pd (PDX va)); [apply load32_range|done].
Qed.

Lemma pte_val_vpn m pd va va' : vpn va = vpn va' -> pte_val m pd va = pte_val m pd va'.
Proof.
  unfold vpn. intros E. unfold pte_val.
  assert (PDX va = PDX va' /\ PTX va = PTX va') as [-> ->]; [|done].
  rewrite !PDX_eq, !PTX_eq, <- E. split; [|done].
  change 4194304 with (4096 * 1024). rewrite <- !Z.div_div by lia. by rewrite E.
Qed.
Lemma vpn_page k : 0 <= k < 1048576 -> vpn (k * PGSIZE) = k.
Proof. intros. unfold vpn. page_lia. Qed.
Lemma vpn_range va : 0 <= va < KERNBASE -> 0 <= vpn va < 524288.
Proof. intros. unfold vpn. page_lia. Qed.
Lemma PDX_vpn va : PDX va = vpn va / 1024.
Proof.
  rewrite PDX_eq. unfold vpn. by rewrite Z.div_div by lia.
Qed.

(** Storing an entry changes the view at that page and nowhere else. *)
Lemma pte_val_store m pd va f v :
  pt_wf m pd -> tbl m pd (PDX va) = Some f ->
  let m' := store32 m (frame_addr f + 4 * PTX va) v in
  pt_wf m' pd /\ (forall i, 0 <= i < 1024 -> tbl m' pd i = tbl m pd i) /\
  (forall va', pte_val m' pd va' = if decide (vpn va = vpn va') then u32 v else pte_val m pd va').
Proof.
  intros Hwf Hf m'. destruct (wf_tbl _ _ Hwf _ _ (PDX_range va) Hf) as [Hfr Hne].
  pose proof (PTX_range va) as Hptx.
  assert (same_frame m m' pd) as Hs by (apply same_frame_store32; [done|lia]).
  assert (forall i, 0 <= i < 1024 -> tbl m' pd i = tbl m pd i) as Htbl.
  { intros. by apply tbl_same. }
  split_and!; [|done|].
  - destruct Hwf as [Hp Ht Hi]. split; [done| |].
    + intros i g Hr. rewrite Htbl by done. by apply Ht.
    + intros i j g Hr Hj. rewrite !Htbl by done. by apply Hi.
  - intros va'. unfold pte_val. pose proof (PDX_range va'). pose proof (PTX_range va').
    rewrite Htbl by done.
    destruct (decide (vpn va = vpn va')) as [E|E].
    + assert (PDX va' = PDX va /\ PTX va' = PTX va) as [-> ->].
      { unfold vpn in E. page_lia. }
      rewrite Hf. apply load32_store32_eq.
    + destruct (tbl m pd (PDX va')) as [g|] eqn:Eg; [|done].
      destruct (decide (f = g)) as [<-|Hfg].
      * assert (PDX va = PDX va') as HP by (eapply (wf_inj _ _ Hwf); eauto using PDX_range).
        apply load32_store32_ne. assert (PTX va ≠ PTX va'); [|lia].
        intros HT. apply E. unfold vpn. clear - HP HT. page_lia.
      * apply load32_same_frame; [|lia]. apply same_frame_store32; [done|lia].
Qed.

(** Hooking a fresh zeroed frame into the directory changes no entry. *)
Lemma pte_val_new_table m pd va f :
  pt_wf m pd -> tbl m pd (PDX va) = None -> 0 <= f < MAXPAGES -> ~ owns m pd f ->
  let m' := store32 (memset m (frame_addr f) 0 PGSIZE) (frame_addr pd + 4 * PDX va)
              (Z.lor (Z.lor (Z.lor (V2P (frame_addr f)) PTE_P) PTE_W) PTE_U) in
  pt_wf m' pd /\
  (forall i, 0 <= i < 1024 -> tbl m' pd i = if decide (i = PDX va) then Some f else tbl m pd i) /\
  (forall va', pte_val m' pd va' = pte_val m pd va').
Proof.
  intros Hwf Hnone Hf Hown m'. pose proof (PDX_range va) as Hpdx.
  assert (f ≠ pd) as Hne by (intros ->; apply Hown; by left).
  set (e := Z.lor (Z.lor (Z.lor (V2P (frame_addr f)) PTE_P) PTE_W) PTE_U) in *.
  assert (e = f * PGSIZE + 7) as He.
  { unfold e. assert (V2P (frame_addr f) = f * PGSIZE) as -> by (unfold frame_addr; page_lia).
    rewrite <- !Z.lor_assoc. rewrite lor_page; [done| |done].
    unfold page_aligned. page_lia. }
  assert (has e PTE_P = true) as HeP.
  { rewrite He. unfold has, PTE_P. rewrite (Z.land_ones _ 1) by done. change (2 ^ 1) with 2.
    apply negb_true_iff, Z.eqb_neq. page_lia. }
  assert (forall i, 0 <= i < 1024 ->
            tbl m' pd i = if decide (i = PDX va) then Some f else tbl m pd i) as Htbl.
  { intros i Hi. unfold tbl, m'. destruct (decide (i = PDX va)) as [->|Hi'].
    - rewrite load32_store32_eq. rewrite u32_small by (rewrite He; page_lia).
      rewrite HeP, He. f_equal. page_lia.
    - rewrite load32_store32_ne by lia.
      rewrite (load32_same_frame m) by (lia || by apply same_frame_memset). done. }
  split_and!; [|done|].
  - destruct Hwf as [Hp Ht Hi]. split; [done| |].
    + intros i g Hr. rewrite Htbl by done. case_decide; [by intros [= <-]|by apply Ht].
    + intros i j g Hr Hj. rewrite !Htbl by done. repeat case_decide; subst.
      * done.
      * intros [= <-] Hg. exfalso. apply Hown. right. eauto.
      * intros Hg [= <-]. exfalso. apply Hown. right. eauto.
      * by apply Hi.
  - intros va'. unfold pte_val. pose proof (PDX_range va'). pose proof (PTX_range va').
    rewrite Htbl by done. case_decide as E.
    + rewrite E, Hnone. unfold m'.
      rewrite (load32_same_frame (memset m (frame_addr f) 0 PGSIZE)).
      * apply load32_memset_frame. lia.
      * apply same_frame_store32; [done|lia].
      * lia.
    + destruct (tbl m pd (PDX va')) as [g|] eqn:Eg; [|done].
      destruct (wf_tbl _ _ Hwf _ _ (PDX_range va') Eg) as [Hg Hgp].
      apply load32_same_frame; [|lia]. eapply same_frame_trans.
      * apply (same_frame_memset m g f 0). intros ->. apply Hown. right. eauto.
      * apply same_frame_store32; [done|lia].
Qed.

(** ** Lemmas: evolution of the state *)

Lemma pt_ext_refl pd s l : as_ok s pd l -> pt_ext pd s s [] l.
Proof.
  intros Hok. split; try done.
  - by destruct s.
  - intros f Hf. by left.
  - intros f Hf. by apply not_elem_of_nil in Hf.
  - intros f Hf. by apply not_elem_of_nil in Hf.
Qed.

Lemma px_owns pd s s' used l' f :
  pt_ext pd s s' used l' -> owns (mem s) pd f -> owns (mem s') pd f.
Proof.
  intros Hx [->|(i & Hi & Ht)]; [by left|]. right. exists i. split; [done|].
  by apply (px_tbls _ _ _ _ _ Hx).
Qed.

Lemma pt_ext_trans pd s1 s2 s3 u1 u2 l2 l3 :
  pt_ext pd s1 s2 u1 l2 -> pt_ext pd s2 s3 u2 l3 -> pt_ext pd s1 s3 (u1 ++ u2) l3.
Proof.
  intros HA HB. pose proof (fun f => px_owns _ _ _ _ _ f HB) as Hown. revert HA HB.
  intros [A1 A2 A3 A4 A5 A6 A7 A8 A9] [B1 B2 B3 B4 B5 B6 B7 B8 B9]. split.
  - done.
  - rewrite B2, A2. done.
  - congruence.
  - auto.
  - intros f Hf. rewrite elem_of_app. destruct (B5 f Hf) as [H|H]; [|by auto].
    destruct (A5 f H); auto.
  - intros f Hf. apply elem_of_app in Hf as [Hf|Hf]; auto.
  - intros f Hf Hr. eapply same_frame_trans; [apply A7|apply B7]; auto.
  - intros f Hf. rewrite not_elem_of_app in Hf. destruct Hf. rewrite B8, A8; done.
  - intros f Hf. destruct (decide (f ∈ u2)) as [H2|H2]; [by apply B9|].
    rewrite B8 by done. apply A9. apply elem_of_app in Hf as [Hf|Hf]; done.
Qed.

Lemma pt_ext_store pd s l f va v :
  as_ok s pd l -> tbl (mem s) pd (PDX va) = Some f ->
  pt_ext pd s {| s with mem := store32 (mem s) (frame_addr f + 4 * PTX va) v |} [] l.
Proof.
  intros [Hu Hk Hw Hf] Ht. pose proof (PTX_range va).
  destruct (pte_val_store (mem s) pd va f v Hw Ht) as (Hw' & Htbl & _).
  assert (forall g, owns (store32 (mem s) (frame_addr f + 4 * PTX va) v) pd g <-> owns (mem s) pd g)
    as Hown by (intros; by apply owns_frame).
  split; cbn; try done.
  - split; cbn; try done. intros g Hg. rewrite Hown. auto.
  - intros i g Hi. by rewrite Htbl.
  - intros g. rewrite Hown. by left.
  - intros g Hg. by apply not_elem_of_nil in Hg.
  - intros g Hg _. apply same_frame_store32; [|lia]. rewrite Hown in Hg. intros ->.
    apply Hg. right. eauto using PDX_range.
  - intros g Hg. by apply not_elem_of_nil in Hg.
Qed.

(** ** Triples of [walkpgdir] *)

Lemma frame_addr_nz f : 0 <= f -> frame_addr f ≠ 0.
Proof. unfold frame_addr, KERNBASE, PGSIZE. lia. Qed.

Lemma P2V_PTE_ADDR v :
  0 <= PTE_ADDR v / PGSIZE < MAXPAGES -> P2V (PTE_ADDR v) = frame_addr (PTE_ADDR v / PGSIZE).
Proof.
  pose proof (PTE_ADDR_aligned v) as Ha. revert Ha. generalize (PTE_ADDR v).
  unfold frame_addr, page_aligned. intros. page_lia.
Qed.

Lemma wp_walkpgdir_false s pd va Q :
  pt_wf (mem s) pd ->
  (forall f, tbl (mem s) pd (PDX va) = Some f -> Q (frame_addr f + 4 * PTX va) s) ->
  (tbl (mem s) pd (PDX va) = None -> Q 0 s) ->
  wp (walkpgdir (frame_addr pd) va false) Q s.
Proof.
  intros Hw HS HN. unfold walkpgdir. rewrite wp_bind, wp_ldf; [|apply frame_addr_nz, Hw].
  pose proof (wf_tbl _ _ Hw (PDX va)) as Hwt. unfold tbl in *.
  destruct (has (load32 (mem s) (frame_addr pd + 4 * PDX va)) PTE_P); cbn; wp_steps.
  - specialize (Hwt _ (PDX_range va) eq_refl) as [Hr _]. specialize (HS _ eq_refl).
    by rewrite P2V_PTE_ADDR.
  - by apply HN.
Qed.

(** The state after a table [i] from the free list was made for [va]. *)
Definition new_table (s : kstate) (pd va i : Z) : kstate :=
  {| s with mem := store32 (memset (mem s) (frame_addr i) 0 PGSIZE) (frame_addr pd + 4 * PDX va)
              (Z.lor (Z.lor (Z.lor (V2P (frame_addr i)) PTE_P) PTE_W) PTE_U);
            km := set_freelist (run_next (run_at (km s) i)) (set_run i (mk_run (run_next (run_at (km s) i)) 1) (km s)) |}.
Lemma new_table_ext s pd va i l :
  as_ok s pd (i :: l) -> tbl (mem s) pd (PDX va) = None -> user_frame i ->
  pt_ext pd s (new_table s pd va i) [i] l /\ tbl (mem (new_table s pd va i)) pd (PDX va) = Some i /\
  (forall va', pte_val (mem (new_table s pd va i)) pd va' = pte_val (mem s) pd va') /\
  (forall j, 0 <= j < 1024 -> is_Some (tbl (mem (new_table s pd va i)) pd j) -> is_Some (tbl (mem s) pd j) \/ j = PDX va).
Proof.
  intros [Hu Hk Hw Hfree] Et Hui. assert (~ owns (mem s) pd i) as Hno by (apply Hfree, elem_of_cons; by left).
  destruct (pte_val_new_table (mem s) pd va i Hw Et (proj1 Hui) Hno) as (Hw' & Htbl & Hval).
  assert (tbl (mem (new_table s pd va i)) pd (PDX va) = Some i) as Hnew by (cbn; rewrite Htbl by apply PDX_range; by rewrite decide_True).
  split_and!; [|done|exact Hval|intros j Hj; cbn; rewrite Htbl by done; case_decide; auto].
  pose proof (ko_nodup _ _ Hk) as Hnd. apply NoDup_cons in Hnd as [Hil Hnd].
  assert (forall g, owns (mem (new_table s pd va i)) pd g -> owns (mem s) pd g \/ g = i) as Hinv.
  { intros g [->|(j & Hj & Hg)]; [by left; left|]. cbn in Hg. rewrite Htbl in Hg by done.
    case_decide; [right; congruence|]. left. right. eauto. }
  assert (owns (mem (new_table s pd va i)) pd i) as Hio by (right; exists (PDX va); split; [apply PDX_range|done]).
  split; cbn in *; try done.
  - split; cbn; [by destruct Hu; [left|right]|by apply kmem_ok_pop|done|].
    intros g Hg Ho. destruct (Hinv g Ho) as [H| ->]; [|done]. apply (Hfree g); [|done]. apply elem_of_cons. by right.
  - intros j g Hj Hg. rewrite Htbl by done. case_decide; [congruence|done].
  - intros g Hg. destruct (Hinv g Hg) as [H| ->]; [by left|right]. by apply list_elem_of_singleton.
  - by intros g ->%list_elem_of_singleton.
  - intros g Hg Hr. eapply same_frame_trans; [apply (same_frame_memset _ g i); by intros ->|].
    apply same_frame_store32; [|pose proof (PDX_range va); lia]. intros ->. apply Hg. by left.
  - intros g Hg. rewrite list_elem_of_singleton in Hg. unfold run_at; cbn. by rewrite lookup_insert_ne by congruence.
  - intros g ->%list_elem_of_singleton. unfold run_at; cbn. by rewrite lookup_insert_eq.
Qed.

Lemma wp_walkpgdir_true s pd va l :
  as_ok s pd l ->
  wp (walkpgdir (frame_addr pd) va true) (fun r s' =>
    (r = 0 /\ s' = s /\ l = [] /\ tbl (mem s) pd (PDX va) = None) \/
    (exists used l' f, l = used ++ l' /\ pt_ext pd s s' used l' /\
       tbl (mem s') pd (PDX va) = Some f /\ r = frame_addr f + 4 * PTX va /\
       (forall va', pte_val (mem s') pd va' = pte_val (mem s) pd va') /\
       (forall i, 0 <= i < 1024 -> is_Some (tbl (mem s') pd i) -> is_Some (tbl (mem s) pd i) \/ i = PDX va))) s.
Proof.
  intros Hok. pose proof (ok_wf _ _ _ Hok) as Hw.
  pose proof (wp_walkpgdir_false s pd va (fun r s' => s' = s /\
    match tbl (mem s) pd (PDX va) with Some f => r = frame_addr f + 4 * PTX va | None => r = 0 end) Hw) as Hfalse.
  revert Hfalse. unfold walkpgdir. rewrite !wp_bind, !wp_ldf by (apply frame_addr_nz, Hw).
  destruct (tbl (mem s) pd (PDX va)) as [f|] eqn:Et.
  - assert (has (load32 (mem s) (frame_addr pd + 4 * PDX va)) PTE_P = true) as ->.
    { unfold tbl in Et. by destruct (has _ _). }
    rewrite !wp_ret. intros H.
    destruct H as [_ ->]; [by intros ? [= ->]|done|].
    right. exists [], l, f. split_and!; try done.
    + by apply pt_ext_refl.
    + intros i Hi. by left.
  - intros _.
    assert (has (load32 (mem s) (frame_addr pd + 4 * PDX va)) PTE_P = false) as ->.
    { unfold tbl in Et. by destruct (has _ _). }
    cbn [negb]. rewrite wp_bind. pose proof (ok_unlocked _ _ _ Hok) as Hu. pose proof (ok_kmem _ _ _ Hok) as Hk.
    destruct l as [|i l].
    { apply wp_kalloc_nil; try done. left. done. }
    eapply wp_kalloc_cons; try done.
    assert (user_frame i) as Hui.
    { pose proof (ko_range _ _ Hk) as Hr. by apply Forall_cons in Hr as [? _]. }
    destruct (Z.eqb_spec (frame_addr i) 0) as [E|_]; [by apply frame_addr_nz in E; [|apply Hui]|].
    rewrite wp_bind, wp_set_mem, wp_bind, wp_stf by (apply frame_addr_nz, Hw). rewrite wp_ret.
    destruct (new_table_ext s pd va i l Hok Et Hui) as (Hx & Htbl & Hval & Hnew).
    right. exists [i], l, i. split_and!; [done|exact Hx|exact Htbl|done|exact Hval|exact Hnew].
Qed.

(** ** [mappages] implements [abs_map] *)

Lemma has_P_entry x : has (u32 (Z.lor x PTE_P)) PTE_P = true.
Proof.
  change PTE_P with (2 ^ 0). rewrite has_pow2 by done. unfold u32, W32.
  change 4294967296 with (2 ^ 32). rewrite Z.mod_pow2_bits_low by lia.
  rewrite Z.lor_spec. by rewrite Z.pow2_bits_true, orb_true_r by done.
Qed.

Lemma abs_map_succ t va pa perm n va' :
  0 <= va -> va + PGSIZE + n * PGSIZE <= W32 -> page_aligned va -> 0 <= n ->
  abs_map (abs_map t va pa perm 1) (va + PGSIZE) (u32 (pa + PGSIZE)) perm n va' =
  abs_map t va pa perm (n + 1) va'.
Proof.
  intros H0 Hw Ha Hn. unfold abs_map.
  assert (n = 0 \/ vpn (va + PGSIZE) = vpn va + 1) as Hv.
  { unfold vpn, page_aligned in *. page_lia. }
  destruct Hv as [->|Hv].
  { rewrite (proj2 (andb_false_iff (0 <=? vpn va' - vpn (va + PGSIZE)) _))
      by (destruct (Z.leb_spec 0 (vpn va' - vpn (va + PGSIZE))); [right; apply Z.ltb_ge; lia|by left]).
    done. }
  rewrite Hv. replace (vpn va' - (vpn va + 1)) with (vpn va' - vpn va - 1) by lia.
  generalize (vpn va' - vpn va). intros j.
  destruct (Z.leb_spec 0 (j - 1)), (Z.ltb_spec (j - 1) n), (Z.leb_spec 0 j), (Z.ltb_spec j 1),
    (Z.ltb_spec j (n + 1)); cbn; try lia; try done.
  do 3 f_equal. clear. page_lia.
Qed.

(** What a run of the loop over [n] pages achieves; a failure leaves a prefix
    mapped and the free list empty. *)
Definition mapped pd s l va pa perm n (r : Z) (s' : kstate) : Prop :=
  exists used l', l = used ++ l' /\ pt_ext pd s s' used l' /\
    (forall i, 0 <= i < 1024 -> is_Some (tbl (mem s') pd i) -> is_Some (tbl (mem s) pd i) \/
       exists k, 0 <= k < n /\ i = PDX (va + k * PGSIZE)) /\
    ((r = 0 /\ forall va', pte_val (mem s') pd va' = abs_map (pte_val (mem s) pd) va pa perm n va') \/
     (r = -1 /\ l' = [] /\ exists k, 0 <= k < n /\ tbl (mem s) pd (PDX (va + k * PGSIZE)) = None /\
        forall va', pte_val (mem s') pd va' = abs_map (pte_val (mem s) pd) va pa perm k va')).

(** One iteration of the loop, followed by the rest [K] of the code. *)
Lemma wp_map_page s pd l va pa perm (K : M kstate Z) Q :
  as_ok s pd l -> has (pte_val (mem s) pd va) PTE_P = false -> 0 <= pa < W32 ->
  (l = [] -> tbl (mem s) pd (PDX va) = None -> Q (-1) s) ->
  (forall s2 used l', l = used ++ l' -> pt_ext pd s s2 used l' ->
     (forall i, 0 <= i < 1024 -> is_Some (tbl (mem s2) pd i) -> is_Some (tbl (mem s) pd i) \/ i = PDX va) ->
     (forall va', pte_val (mem s2) pd va' = abs_map (pte_val (mem s) pd) va pa perm 1 va') -> wp K Q s2) ->
  wp (pte ← walkpgdir (frame_addr pd) va true;
      if pte =? 0 then mret (-1) else
      v ← ld32 pte;
      if has v PTE_P then panic "remap" else st32 pte (Z.lor (Z.lor pa perm) PTE_P) ;; K) Q s.
Proof.
  intros Hok Hfree Hpa Hfail HK. rewrite wp_bind. eapply wp_mono; [by apply wp_walkpgdir_true|].
  intros r1 s1 [(-> & -> & -> & Ht)|(u1 & l1 & f & -> & Hx & Ht & -> & Hval & Hgrow)]; [by apply Hfail|].
  pose proof (px_ok _ _ _ _ _ Hx) as Hok1. pose proof (ok_wf _ _ _ Hok1) as Hw1.
  destruct (wf_tbl _ _ Hw1 _ _ (PDX_range va) Ht) as [Hfr _]. pose proof (PTX_range va).
  assert (frame_addr f + 4 * PTX va ≠ 0) as Hnz by (unfold frame_addr, KERNBASE, PGSIZE; lia).
  destruct (Z.eqb_spec (frame_addr f + 4 * PTX va) 0) as [|_]; [done|].
  rewrite wp_bind, wp_ld32 by done.
  assert (load32 (mem s1) (frame_addr f + 4 * PTX va) = pte_val (mem s) pd va) as ->.
  { rewrite <- Hval. unfold pte_val. by rewrite Ht. }
  rewrite Hfree, wp_bind, wp_st32 by done.
  destruct (pte_val_store _ _ _ _ (Z.lor (Z.lor pa perm) PTE_P) Hw1 Ht) as (_ & Htbl2 & Hval2).
  apply (HK _ u1 l1); [done| | |].
  - rewrite <- (app_nil_r u1). eapply pt_ext_trans; [done|]. by apply pt_ext_store.
  - intros i Hi. cbn. rewrite Htbl2 by done. by apply Hgrow.
  - intros va'. cbn. rewrite Hval2, Hval. unfold abs_map. case_decide as E.
    + rewrite E, Z.sub_diag. cbn. by rewrite Z.add_0_r, (u32_small pa).
    + case_if; [bool_hyps; lia|done].
Qed.

Lemma abs_map_present t va pa perm n va' :
  0 <= vpn va' - vpn va < n -> has (abs_map t va pa perm n va') PTE_P = true.
Proof. intros. unfold abs_map. case_if; [apply has_P_entry|bool_hyps; lia]. Qed.
Lemma abs_map_outside t va pa perm n va' :
  ~ 0 <= vpn va' - vpn va < n -> abs_map t va pa perm n va' = t va'.
Proof. intros. unfold abs_map. case_if; [bool_hyps; lia|done]. Qed.
Lemma abs_map_ext t t' va pa perm n va' :
  (forall x, t x = t' x) -> abs_map t va pa perm n va' = abs_map t' va pa perm n va'.
Proof. intros H. unfold abs_map. by rewrite H. Qed.

(** The pages mapped after the first one. *)
Lemma mapped_succ pd s s2 l u1 l1 va pa perm n r s' :
  l = u1 ++ l1 -> pt_ext pd s s2 u1 l1 -> 0 <= va -> page_aligned va ->
  va + PGSIZE + n * PGSIZE <= W32 -> 0 <= n ->
  (forall i, 0 <= i < 1024 -> is_Some (tbl (mem s2) pd i) -> is_Some (tbl (mem s) pd i) \/ i = PDX va) ->
  (forall va', pte_val (mem s2) pd va' = abs_map (pte_val (mem s) pd) va pa perm 1 va') ->
  mapped pd s2 l1 (va + PGSIZE) (u32 (pa + PGSIZE)) perm n r s' ->
  mapped pd s l va pa perm (n + 1) r s'.
Proof.
  intros -> Hx H0 Ha Hw Hn Hgrow Hval (u2 & l2 & -> & Hx2 & Hgrow2 & Hres).
  exists (u1 ++ u2), l2. split_and!; [by rewrite app_assoc|by eapply pt_ext_trans| |].
  - intros i Hi Hs. destruct (Hgrow2 i Hi Hs) as [H2|(k & Hk & ->)].
    + destruct (Hgrow i Hi H2) as [?| ->]; [by left|]. right. exists 0. split; [lia|]. f_equal. lia.
    + right. exists (k + 1). split; [lia|]. f_equal. lia.
  - destruct Hres as [[-> Hv]|(-> & -> & k & Hk & Ht & Hv)]; [left|right]; split_and!; try done.
    + intros va'. rewrite Hv, (abs_map_ext _ _ _ _ _ _ _ Hval). by apply abs_map_succ.
    + exists (k + 1). split_and!; [lia|lia| |].
      * replace (va + (k + 1) * PGSIZE) with (va + PGSIZE + k * PGSIZE) by lia.
        destruct (tbl (mem s) pd (PDX (va + PGSIZE + k * PGSIZE))) as [f|] eqn:E; [|done].
        apply (px_tbls _ _ _ _ _ Hx) in E; [congruence|apply PDX_range].
      * intros va'. rewrite Hv, (abs_map_ext _ _ _ _ _ _ _ Hval). apply abs_map_succ; try done; [|lia].
        unfold PGSIZE in *. lia.
Qed.

Lemma wp_mappages_loop n : forall s pd l va pa perm,
  as_ok s pd l -> 0 <= va -> page_aligned va -> va + (Z.of_nat n + 1) * PGSIZE <= W32 -> 0 <= pa < W32 ->
  (forall va', 0 <= vpn va' - vpn va <= Z.of_nat n -> has (pte_val (mem s) pd va') PTE_P = false) ->
  wp (mappages_loop (frame_addr pd) va (va + Z.of_nat n * PGSIZE) pa perm n)
     (mapped pd s l va pa perm (Z.of_nat n + 1)) s.
Proof.
  induction n as [|n IH]; intros s pd l va pa perm Hok H0 Ha Hw Hpa Hfree;
    cbn [mappages_loop]; (apply (wp_map_page s pd l); [done|apply Hfree; lia|done| |]).
  1,3: intros -> Ht; exists [], []; split_and!; [done|by apply pt_ext_refl|by left|];
    right; split_and!; [done|done|]; exists 0; split_and!; [lia|lia|by rewrite Z.mul_0_l, Z.add_0_r|];
    intros va'; by rewrite abs_map_outside by lia.
  all: intros s2 u1 l1 -> Hx Hgrow Hval.
  - replace (va + Z.of_nat 0 * PGSIZE) with va by lia. rewrite Z.eqb_refl, wp_ret.
    exists u1, l1. split_and!; [done|done| |by left].
    intros i Hi Hs. destruct (Hgrow i Hi Hs) as [?| ->]; [by left|].
    right. exists 0. split; [lia|]. f_equal. lia.
  - unfold PGSIZE in Hw.
    destruct (Z.eqb_spec va (va + Z.of_nat (S n) * PGSIZE)) as [E|_]; [unfold PGSIZE in E; lia|].
    rewrite (u32_small (va + PGSIZE)) by (unfold PGSIZE in *; lia).
    replace (va + Z.of_nat (S n) * PGSIZE) with (va + PGSIZE + Z.of_nat n * PGSIZE) by lia.
    replace (Z.of_nat (S n) + 1) with ((Z.of_nat n + 1) + 1) by lia.
    assert (vpn (va + PGSIZE) = vpn va + 1) as Hv.
    { unfold vpn, page_aligned, PGSIZE in *. rewrite !u32_small by (unfold W32 in *; lia).
      rewrite <- (Z.mul_1_l 4096) at 1. by rewrite Z.div_add. }
    eapply wp_mono.
    + apply (IH s2 pd l1); [apply (px_ok _ _ _ _ _ Hx)|unfold PGSIZE; lia| |unfold PGSIZE; lia|apply u32_range|].
      * unfold page_aligned, PGSIZE in *. rewrite <- (Z.mul_1_l 4096) at 1. by rewrite Z_mod_plus_full.
      * intros va' Hj. rewrite Hval, abs_map_outside by lia. apply Hfree. lia.
    + intros r s' Hm. eapply mapped_succ; eauto; [unfold PGSIZE|]; lia.
Qed.

(** The number of pages [mappages] visits for [size] bytes at [va]. *)
Definition map_pages (va size : Z) : Z := (va + size - 1) / PGSIZE - va / PGSIZE + 1.

Lemma wp_mappages s pd l va size pa perm :
  as_ok s pd l -> 0 <= va -> 0 < size -> va + size <= W32 -> 0 <= pa < W32 ->
  (forall va', 0 <= vpn va' - vpn va < map_pages va size -> has (pte_val (mem s) pd va') PTE_P = false) ->
  wp (mappages (frame_addr pd) va size pa perm)
     (mapped pd s l (PGROUNDDOWN va) pa perm (map_pages va size)) s.
Proof.
  intros Hok H0 Hs Hw Hpa Hfree. unfold mappages.
  rewrite (u32_small (va + size - 1)) by lia. rewrite !PGROUNDDOWN_eq.
  rewrite (u32_small va), (u32_small (va + size - 1)) by lia.
  unfold map_pages, PGSIZE in *.
  set (q := (va + size - 1) / 4096 - va / 4096).
  assert (0 <= q) as Hq by (unfold q; pose proof (Z.div_le_mono va (va + size - 1) 4096); lia).
  assert (va - va mod 4096 = va / 4096 * 4096) as -> by (clear; zlia).
  assert (va + size - 1 - (va + size - 1) mod 4096 = va / 4096 * 4096 + Z.of_nat (Z.to_nat q) * 4096) as ->
    by (rewrite Z2Nat.id by done; unfold q; clear; zlia).
  assert (va / 4096 * 4096 + (q + 1) * 4096 <= W32) as Hb by (unfold q, W32 in *; clear - Hw H0 Hs; zlia).
  replace (va / 4096 * 4096 + Z.of_nat (Z.to_nat q) * 4096 - va / 4096 * 4096) with (q * 4096) by lia.
  rewrite (u32_small (q * 4096)) by (pose proof (Z.div_pos va 4096); lia). rewrite Z.div_mul by done.
  replace (q + 1) with (Z.of_nat (Z.to_nat q) + 1) by lia.
  apply wp_mappages_loop; [done|pose proof (Z.div_pos va 4096); lia| |unfold PGSIZE; lia|done|].
  - unfold page_aligned. apply Z.mod_mul. done.
  - intros va' Hv. apply Hfree. revert Hv. unfold vpn.
    rewrite (u32_small va), (u32_small (va / 4096 * 4096)) by (pose proof (Z.div_pos va 4096); lia).
    rewrite Z.div_mul by done. lia.
Qed.

Lemma wp_uva2ka s pd uva f :
  pt_wf (mem s) pd -> tbl (mem s) pd (PDX uva) = Some f ->
  wp (uva2ka (frame_addr pd) uva) (fun r s' => s' = s /\
    r = let v := pte_val (mem s) pd uva in
        if has v PTE_P && has v PTE_U then P2V (PTE_ADDR v) else 0) s.
Proof.
  intros Hw Ht. unfold uva2ka. rewrite wp_bind.
  pose proof (wf_tbl _ _ Hw _ _ (PDX_range uva) Ht) as [Hf _]. pose proof (PTX_range uva).
  apply wp_walkpgdir_false; [done| |congruence].
  intros g Hg. rewrite Ht in Hg. injection Hg as <-. rewrite wp_bind, wp_ld32.
  2: { unfold frame_addr, KERNBASE, PGSIZE. lia. }
  unfold pte_val. rewrite Ht. cbn.
  destruct (has _ PTE_P); cbn; [|done]. by destruct (has _ PTE_U).
Qed.

(** ** Correctness *)

(** C8. [mappages] implements the abstract operation [abs_map] on the
    directory's view: on success the pages of the range map to consecutive
    frames with the permissions and the present bit, and no other virtual page
    changes; it returns -1 only when the free list is exhausted, with a prefix of
    the range mapped. In both cases only the directory's own frames are written
    and the frames it took are now page tables of it. *)
Theorem mappages_refines s pd l va size pa perm :
  as_ok s pd l -> 0 <= va -> 0 < size -> va + size <= W32 -> 0 <= pa < W32 ->
  (forall va', 0 <= vpn va' - vpn va < map_pages va size -> has (pte_val (mem s) pd va') PTE_P = false) ->
  wp (mappages (frame_addr pd) va size pa perm) (fun r s' =>
    exists used l', l = used ++ l' /\ pt_ext pd s s' used l' /\
    ((r = 0 /\ forall va', pte_val (mem s') pd va' =
        abs_map (pte_val (mem s) pd) (PGROUNDDOWN va) pa perm (map_pages va size) va') \/
     (r = -1 /\ l' = [] /\ exists k, 0 <= k < map_pages va size /\ forall va', pte_val (mem s') pd va' =
        abs_map (pte_val (mem s) pd) (PGROUNDDOWN va) pa perm k va'))) s.
Proof.
  intros Hok H0 Hs Hw Hpa Hfree. eapply wp_mono; [by apply wp_mappages|].
  intros r s' (u & l' & -> & Hx & _ & H). exists u, l'. split_and!; [done|done|].
  destruct H as [?|(-> & -> & k & Hk & _ & Hv)]; [by left|right; eauto].
Qed.

(** Mapping a page that is already present is caught: [mappages] panics
    at the first page instead of overwriting the entry. *)
Theorem mappages_remap s pd va size pa perm :
  pt_wf (mem s) pd -> has (pte_val (mem s) pd va) PTE_P = true ->
  mappages (frame_addr pd) va size pa perm s = Panic "remap".
Proof.
  intros Hw Hp. unfold mappages.
  destruct (tbl (mem s) pd (PDX va)) as [f|] eqn:Ht.
  2: { unfold pte_val in Hp. by rewrite Ht in Hp. }
  pose proof (wf_tbl _ _ Hw _ _ (PDX_range va) Ht) as [Hf _]. pose proof (PTX_range va).
  assert (walkpgdir (frame_addr pd) (PGROUNDDOWN va) true s = Ok (frame_addr f + 4 * PTX va) s) as Hwalk.
  { assert (wp (walkpgdir (frame_addr pd) (PGROUNDDOWN va) false)
      (fun r s' => r = frame_addr f + 4 * PTX va /\ s' = s) s) as Hn.
    { apply wp_walkpgdir_false; rewrite ?PDX_PGROUNDDOWN, ?PTX_PGROUNDDOWN; [done| |congruence].
      intros g Hg. rewrite Ht in Hg. by injection Hg as <-. }
    apply wp_Ok in Hn as (? & ? & Hrun & -> & ->). rewrite <- Hrun.
    unfold walkpgdir, mbind, M_bind, ldf, gets. rewrite PDX_PGROUNDDOWN.
    destruct (Z.eqb_spec (frame_addr pd) 0) as [E|_]; [by apply frame_addr_nz in E; [|apply Hw]|].
    assert (has (load32 (mem s) (frame_addr pd + 4 * PDX va)) PTE_P = true) as ->; [|done].
    unfold tbl in Ht. by destruct (has (load32 (mem s) (frame_addr pd + 4 * PDX va)) PTE_P). }
  assert (frame_addr f + 4 * PTX va ≠ 0) as Hnz by (unfold frame_addr, KERNBASE, PGSIZE; lia).
  apply Z.eqb_neq in Hnz. unfold pte_val in Hp. rewrite Ht in Hp.
  destruct (Z.to_nat _); cbn [mappages_loop]; rewrite (bind_run _ _ _ _ _ Hwalk), Hnz;
    unfold ld32, mbind, M_bind, gets; by rewrite Hnz, Hp.
Qed.

(** [uva2ka] returns the kernel address of the frame of a present user
    page and 0 for a page that is absent or not accessible to the user, provided there is a
    page table for the address. *)
Theorem uva2ka_correct s pd uva f :
  pt_wf (mem s) pd -> tbl (mem s) pd (PDX uva) = Some f ->
  wp (uva2ka (frame_addr pd) uva) (fun r s' => s' = s /\
    r = let v := pte_val (mem s) pd uva in
        if has v PTE_P && has v PTE_U then P2V (PTE_ADDR v) else 0) s.
Proof. apply wp_uva2ka. Qed.

(** When the directory has no page table for the address, [uva2ka]
    dereferences the null pointer that [walkpgdir] returned. *)
Theorem uva2ka_null s pd uva :
  pt_wf (mem s) pd -> tbl (mem s) pd (PDX uva) = None ->
  uva2ka (frame_addr pd) uva s = UB.
Proof.
  intros Hw Ht.
  assert (wp (walkpgdir (frame_addr pd) uva false) (fun r s' => r = 0 /\ s' = s) s) as Hn.
  { apply wp_walkpgdir_false; [done|congruence|done]. }
  apply wp_Ok in Hn as (? & ? & Hrun & -> & ->).
  unfold uva2ka. by rewrite (bind_run _ _ _ _ _ Hrun).
Qed.

End PageTable.

(** ** Witnesses: an empty directory in frame 1000 *)

Lemma load32_empty a : load32 ∅ a = 0.
Proof. unfold load32, load8. by rewrite !lookup_empty. Qed.
Lemma tbl_empty pd i : tbl ∅ pd i = None.
Proof. unfold tbl. by rewrite load32_empty. Qed.
Lemma pt_wf_empty pd : 0 <= pd < MAXPAGES -> pt_wf ∅ pd.
Proof. intros H. split; [done|..]; intros; by rewrite tbl_empty in *. Qed.
Lemma owns_empty pd f : owns ∅ pd f -> f = pd.
Proof. intros [->|(i & _ & H)]; [done|]. by rewrite tbl_empty in H. Qed.

Lemma demo_as_ok : @as_ok xv6_image demo_state 1000 [1001; 1002; 1003].
Proof.
  split; [apply demo_unlocked|apply demo_ok|by apply pt_wf_empty|].
  intros f Hf ->%owns_empty. revert Hf. apply (bool_decide_unpack _). vm_compute. done.
Qed.

Lemma mappages_refines_witness :
  wp (mappages (frame_addr 1000) 0x3ff800 0x1000 0x5000 PTE_U)
     (fun r s' => r = 0 \/ r = -1) demo_state.
Proof.
  eapply wp_mono; [apply (mappages_refines (KI := xv6_image) _ 1000 _ 0x3ff800 0x1000 0x5000 PTE_U demo_as_ok)|].
  1-4: unfold W32; lia.
  - intros va' _. unfold pte_val. cbn [mem demo_state]. rewrite tbl_empty. reflexivity.
  - intros r s' (u & l' & _ & _ & [[H _]|[H _]]); auto.
Defined.

(** A directory whose first table, in frame 1001, maps page 0 to frame 1005
    with the flags [fl]. *)
Definition demo_dir (fl : Z) : gmap Z Z :=
  store32 (store32 ∅ (frame_addr 1000) (1001 * 4096 + 7)) (frame_addr 1001) (1005 * 4096 + fl).
Lemma demo_tbl fl i : 0 <= i < 1024 -> tbl (demo_dir fl) 1000 i = if decide (i = 0) then Some 1001 else None.
Proof.
  intros Hi. unfold tbl, demo_dir. rewrite load32_store32_ne by (unfold frame_addr, PGSIZE; lia).
  case_decide as E.
  - subst i. reflexivity.
  - rewrite load32_store32_ne by lia. by rewrite load32_empty.
Qed.
Lemma demo_wf fl : pt_wf (demo_dir fl) 1000.
Proof.
  split; [done|..].
  - intros i f Hi. rewrite demo_tbl by done. case_decide; [intros [= <-]; done|done].
  - intros i j f Hi Hj. rewrite !demo_tbl by done. repeat case_decide; congruence.
Qed.
Lemma demo_owns fl f : owns (demo_dir fl) 1000 f -> f = 1000 \/ f = 1001.
Proof.
  intros [->|(i & Hi & Ht)]; [by left|]. rewrite demo_tbl in Ht by done. case_decide; [|done].
  right. congruence.
Qed.
Lemma demo_pte fl va : pte_val (demo_dir fl) 1000 va = if decide (vpn va = 0) then u32 (1005 * 4096 + fl) else 0.
Proof.
  unfold pte_val. pose proof (PTX_range va). pose proof (PDX_range va). rewrite demo_tbl by done.
  rewrite PDX_vpn, PTX_eq in *. fold (vpn va) in *. destruct (decide (vpn va / 1024 = 0)) as [E|E].
  - unfold demo_dir. destruct (decide (vpn va = 0)) as [->|E'].
    + change (frame_addr 1001 + 4 * (0 mod 1024)) with (frame_addr 1001). apply load32_store32_eq.
    + assert (0 <= vpn va) by (unfold vpn; pose proof (u32_range va); zlia).
      rewrite load32_store32_ne by zlia.
      rewrite load32_store32_ne by (unfold frame_addr, PGSIZE; lia). apply load32_empty.
  - rewrite decide_False; [done|]. intros E'. by rewrite E' in E.
Qed.

Lemma mappages_remap_witness :
  mappages (frame_addr 1000) 0 4096 0 PTE_U {| demo_state with mem := demo_dir 7 |} = Panic "remap".
Proof. apply mappages_remap; [apply demo_wf|reflexivity]. Defined.

Lemma uva2ka_correct_witness :
  wp (uva2ka (frame_addr 1000) 4) (fun r s' => r = 0x803ed000) {| demo_state with mem := demo_dir 7 |}.
Proof.
  eapply wp_mono; [apply (uva2ka_correct _ 1000 4 1001); [apply demo_wf|reflexivity]|].
  intros r s' [_ ->]. reflexivity.
Defined.

Lemma uva2ka_null_witness :
  uva2ka (frame_addr 1000) 0x400000 {| demo_state with mem := demo_dir 7 |} = UB.
Proof. apply uva2ka_null; [apply demo_wf|reflexivity]. Defined.
