(* ===== verification/Uvm.v ===== *)
(** Address spaces (vm.c): construction of the kernel part ([setupkvm]),
    release of user pages ([deallocuvm]) and of whole address spaces
    ([freevm]), switching ([switchkvm], [switchuvm]), loading the first
    program ([inituvm], [loaduvm]) and copying to user memory ([copyout]). *)

From S2P Require Import Prelude Mmu Memory Machine Kalloc PageTable.
From stdpp Require Import base gmap list strings.
From Stdlib Require Import ZArith Lia.
Open Scope Z_scope.

Section Uvm.
Context {KI : KernelImage}.

(** ** Operations *)

(** The reaction to the last reference to a page, in [deallocuvm], [freevm]
    and the page-replacement code:
    [if(getRefs(v) == 1) kfree(v); else refDec(v);] *)
Definition drop_page (v : Z) : M kstate unit :=
  r ← getRefs v; if r =? 1 then kfree v else refDec v.

(** The scan of the two page tables of the current process for page [a]. The
    entries are copied to locals before they are cleared, so that only the
    counters change. *)
Definition dealloc_scan (pgdir a : Z) : M kstate unit :=
  for_each (indices MAX_PSYC_PAGES) (fun i =>
    p ← cur;
    match ramPages p !! i, swappedPages p !! i with
    | Some p_ram, Some p_swap =>
        when ((virt_addr p_ram =? a) && (page_pgdir p_ram =? pgdir))
          (set_cur (fun p => {| p with num_ram := s32 (num_ram p - 1) |})) ;;
        when ((virt_addr p_swap =? a) && (page_pgdir p_swap =? pgdir))
          (set_cur (fun p => {| p with num_swap := s32 (num_swap p - 1) |}))
    | _, _ => ub
    end).

Fixpoint deallocuvm_loop (pgdir a oldsz : Z) (fuel : nat) : M kstate unit :=
  if a <? oldsz then
    match fuel with
    | O => diverge
    | S fuel' =>
        pte ← walkpgdir pgdir a false;
        if pte =? 0 then
          deallocuvm_loop pgdir (u32 (u32 (a + (NPTENTRIES - 1) * PGSIZE) + PGSIZE)) oldsz fuel'
        else
          v ← ld32 pte;
          when (has v PTE_P) (
            let pa := PTE_ADDR v in
            if pa =? 0 then panic "kfree" else
            drop_page (P2V pa) ;;
            p ← cur;
            when (2 <? pid p) (dealloc_scan pgdir a) ;;
            st32 pte 0) ;;
          deallocuvm_loop pgdir (u32 (a + PGSIZE)) oldsz fuel'
    end
  else mret tt.
Definition deallocuvm (pgdir oldsz newsz : Z) : M kstate Z :=
  if oldsz <=? newsz then mret oldsz else
  let a := PGROUNDUP newsz in
  deallocuvm_loop pgdir a oldsz (Z.to_nat ((oldsz - a) / PGSIZE + 1)) ;;
  mret newsz.

Definition freevm (pgdir : Z) : M kstate unit :=
  if pgdir =? 0 then panic "freevm: no pgdir" else
  deallocuvm pgdir KERNBASE 0 ;;
  for_each (seqZ 0 NPDENTRIES) (fun i =>
    d ← ldf pgdir (4 * i);
    when (has d PTE_P) (drop_page (P2V (PTE_ADDR d)))) ;;
  kfree pgdir.

(** The entries of [kmap]. *)
Record kmap_entry := mk_kmap { k_virt : Z; k_phys_start : Z; k_phys_end : Z; k_perm : Z }.
Definition kmap : list kmap_entry :=
  [ mk_kmap KERNBASE 0 EXTMEM PTE_W;
    mk_kmap KERNLINK (V2P KERNLINK) (V2P kdata) 0;
    mk_kmap kdata (V2P kdata) PHYSTOP PTE_W;
    mk_kmap DEVSPACE DEVSPACE 0 PTE_W ].

Fixpoint setupkvm_loop (pgdir : Z) (ks : list kmap_entry) : M kstate Z :=
  match ks with
  | [] => mret pgdir
  | k :: ks' =>
      r ← mappages pgdir (k_virt k) (u32 (k_phys_end k - k_phys_start k)) (k_phys_start k) (k_perm k);
      if r <? 0 then freevm pgdir ;; mret 0 else setupkvm_loop pgdir ks'
  end.
Definition setupkvm : M kstate Z :=
  pgdir ← kalloc;
  if pgdir =? 0 then mret 0 else
  set_mem (fun m => memset m pgdir 0 PGSIZE) ;;
  if DEVSPACE <? P2V PHYSTOP then panic "PHYSTOP too high" else
  setupkvm_loop pgdir kmap.

(** [lcr3]: the paging unit walks the directory at this physical address. *)
Definition lcr3 (pa : Z) : M kstate unit := modify (fun s => {| s with cr3 := pa |}).
Definition switchkvm : M kstate unit := k ← gets kpgdir; lcr3 (V2P k).
Definition kvmalloc : M kstate unit :=
  pgdir ← setupkvm;
  modify (fun s => {| s with kpgdir := pgdir |}) ;;
  switchkvm.

Definition set_mycpu (f : cpu -> cpu) : M kstate unit :=
  modify (fun s => {| s with mycpu := f (mycpu s) |}).
Definition set_gdt (i : Z) (d : segdesc) : M kstate unit :=
  set_mycpu (fun c => {| c with gdt := <[Z.to_nat i := d]> (gdt c) |}).

Definition seginit : M kstate unit :=
  set_gdt SEG_KCODE (SEG (Z.lor STA_X STA_R) 0 0xffffffff 0) ;;
  set_gdt SEG_KDATA (SEG STA_W 0 0xffffffff 0) ;;
  set_gdt SEG_UCODE (SEG (Z.lor STA_X STA_R) 0 0xffffffff DPL_USER) ;;
  set_gdt SEG_UDATA (SEG STA_W 0 0xffffffff DPL_USER).

(** [sizeof(struct taskstate)] *)
Definition TS_SIZE : Z := 104.

(** The [pushcli]/[popcli] pair around the updates has no net effect on the
    interrupt state (Spinlock.v) and the updates are those of one CPU. *)
Definition switchuvm (p : option nat) : M kstate unit :=
  match p with
  | None => panic "switchuvm: no process"
  | Some i =>
      p ← get_proc i;
      if kstack p =? 0 then panic "switchuvm: no kstack" else
      if pgdir p =? 0 then panic "switchuvm: no pgdir" else
      set_gdt SEG_TSS ({| (SEG16 STS_T32A ts_addr (TS_SIZE - 1) 0) with seg_s := 0 |}) ;;
      set_mycpu (fun c => {| c with ts_ss0 := Z.shiftl SEG_KDATA 3 |}) ;;
      set_mycpu (fun c => {| c with ts_esp0 := u32 (kstack p + KSTACKSIZE) |}) ;;
      set_mycpu (fun c => {| c with ts_iomb := 0xFFFF |}) ;;
      set_mycpu (fun c => {| c with tr := Z.shiftl SEG_TSS 3 |}) ;;
      lcr3 (V2P (pgdir p))
  end.

(** [init] is the address of the code in the kernel image. The result of
    [kalloc] is not tested: with no memory, [memset] writes to address 0. *)
Definition inituvm (pgdir init sz : Z) : M kstate unit :=
  if PGSIZE <=? sz then panic "inituvm: more than a page" else
  mem ← kalloc;
  if mem =? 0 then ub else
  set_mem (fun m => memset m mem 0 PGSIZE) ;;
  mappages pgdir 0 PGSIZE (V2P mem) (Z.lor PTE_W PTE_U) ;;
  set_mem (fun m => memmove m mem init sz).

(** [readi] as the rest of the kernel sees it: bytes of the file at [ip] are
    copied to kernel memory; -1 for an offset past the end. FsFile.v shows that
    the block-level code implements it. *)
Definition readi (ip dst off n : Z) : M kstate Z := fun s =>
  match inodes s !! ip with
  | None => UB
  | Some c =>
      let size := Z.of_nat (length c) in
      if ((size <? off) || (u32 (off + n) <? off))%bool then Ok (-1) s else
      let k := if size <? off + n then size - off else n in
      Ok k {| s with mem := store_bytes (mem s) dst (take (Z.to_nat k) (drop (Z.to_nat off) c)) |}
  end.

Fixpoint loaduvm_loop (pgdir addr ip offset sz i : Z) (fuel : nat) : M kstate Z :=
  if i <? sz then
    match fuel with
    | O => diverge
    | S fuel' =>
        pte ← walkpgdir pgdir (u32 (addr + i)) false;
        if pte =? 0 then panic "loaduvm: address should exist" else
        v ← ld32 pte;
        let pa := PTE_ADDR v in
        let n := if sz - i <? PGSIZE then sz - i else PGSIZE in
        r ← readi ip (P2V pa) (u32 (offset + i)) n;
        if negb (r =? n) then mret (-1) else
        loaduvm_loop pgdir addr ip offset sz (u32 (i + PGSIZE)) fuel'
    end
  else mret 0.
Definition loaduvm (pgdir addr ip offset sz : Z) : M kstate Z :=
  if negb (addr mod PGSIZE =? 0) then panic "loaduvm: addr must be page aligned" else
  loaduvm_loop pgdir addr ip offset sz 0 (Z.to_nat (sz / PGSIZE + 1)).

Fixpoint copyout_loop (pgdir va buf len : Z) (fuel : nat) : M kstate Z :=
  if 0 <? len then
    match fuel with
    | O => diverge
    | S fuel' =>
        let va0 := PGROUNDDOWN va in
        pa0 ← uva2ka pgdir va0;
        if pa0 =? 0 then mret (-1) else
        let n := Z.min (u32 (PGSIZE - (va - va0))) len in
        set_mem (fun m => memmove m (u32 (pa0 + (va - va0))) buf n) ;;
        copyout_loop pgdir (u32 (va0 + PGSIZE)) (buf + n) (len - n) fuel'
    end
  else mret 0.
(** Every round but the first and the last copies a whole page. *)
Definition copyout (pgdir va p len : Z) : M kstate Z :=
  copyout_loop pgdir va p len (Z.to_nat (len / PGSIZE + 2)).

(** ** Invariant of the user part *)

(** The frame that [va] maps to. *)
Definition uframe (m : gmap Z Z) (pd va : Z) : Z := PTE_ADDR (pte_val m pd va) / PGSIZE.
Definition present (m : gmap Z Z) (pd va : Z) : Prop := has (pte_val m pd va) PTE_P = true.
Definition ref_of (s : kstate) (f : Z) : Z := refcount (run_at (km s) f).

(** The present user pages are frames of the allocator, none of them part of
    the directory, each with at least one reference; no frame is
    mapped twice in one directory. *)
Record user_ok (s : kstate) (pd : Z) : Prop := {
  uo_frame : forall va, 0 <= va < KERNBASE -> present (mem s) pd va ->
    user_frame (uframe (mem s) pd va) /\ ~ owns (mem s) pd (uframe (mem s) pd va) /\
    1 <= ref_of s (uframe (mem s) pd va) < 2147483648;
  uo_inj : forall va va', 0 <= va < KERNBASE -> 0 <= va' < KERNBASE ->
    present (mem s) pd va -> present (mem s) pd va' ->
    uframe (mem s) pd va = uframe (mem s) pd va' -> vpn va = vpn va'
}.

(** ** Lemmas *)

Lemma in_free_ref s l f : kmem_ok (km s) l -> 1 <= ref_of s f -> f ∉ l.
Proof.
  intros Hk Hr Hin. pose proof (ko_ref _ _ Hk) as H0. rewrite Forall_forall in H0.
  unfold ref_of in Hr. rewrite (H0 f Hin) in Hr. lia.
Qed.

(** What dropping a reference to frame [f] does. *)
Record dropped (s s' : kstate) (f : Z) (l l' : list Z) : Prop := {
  dr_list : l' = if decide (ref_of s f = 1) then f :: l else l;
  dr_kmem : kmem_ok (km s') l';
  dr_state : s' = {| s with mem := mem s'; km := km s' |};
  dr_lock : use_lock (km s') = use_lock (km s);
  dr_ref : ref_of s' f = ref_of s f - 1;
  dr_other : forall g, g ≠ f -> run_at (km s') g = run_at (km s) g;
  dr_mem : forall g, g ≠ f \/ ref_of s f ≠ 1 -> same_frame (mem s) (mem s') g
}.

Lemma wp_drop_page s f l (Q : unit -> kstate -> Prop) :
  kmem_unlocked s -> kmem_ok (km s) l -> user_frame f -> 1 <= ref_of s f < 2147483648 ->
  (forall s' l', dropped s s' f l l' -> Q tt s') ->
  wp (drop_page (frame_addr f)) Q s.
Proof.
  intros Hu Hk Hf Hr HQ. unfold drop_page. rewrite wp_bind, wp_getRefs, frame_of_addr by apply Hf.
  fold (ref_of s f). rewrite (s32_small (ref_of s f)) by lia.
  pose proof (in_free_ref s l f Hk ltac:(lia)) as Hfl.
  destruct (Z.eqb_spec (ref_of s f) 1) as [E|E].
  - apply wp_kfree; [done..|]. apply (HQ _ (f :: l)). split; cbn; try done.
    + by rewrite decide_True.
    + by apply kmem_ok_push.
    + rewrite E. unfold ref_of, run_at; cbn. by rewrite lookup_insert_eq.
    + intros g Hg. unfold run_at; cbn. by rewrite lookup_insert_ne by done.
    + intros g [Hg|Hg]; [|done]. by apply same_frame_memset.
  - unfold refDec. apply wp_add_ref; [done|]. rewrite frame_of_addr by apply Hf. apply (HQ _ l). split; cbn; try done.
    + by rewrite decide_False.
    + by apply kmem_ok_set.
    + unfold ref_of. cbn. rewrite run_at_set_eq. cbn. fold (ref_of s f).
      apply u32_small. unfold W32. lia.
    + intros g Hg. by rewrite run_at_set_ne by done.
Qed.

(** The scan changes nothing but the two counters of the current process. *)
Definition same_but_counts (s s' : kstate) : Prop :=
  s' = {| s with procs := procs s' |} /\
  forall j, exists n1 n2,
    procs s' !! j = (fun p => {| p with num_ram := n1; num_swap := n2 |}) <$> procs s !! j /\
    (curproc s ≠ Some j -> procs s' !! j = procs s !! j).

Lemma same_but_counts_refl s : same_but_counts s s.
Proof.
  split; [by destruct s|]. intros j. destruct (procs s !! j) as [p|] eqn:E.
  - exists (num_ram p), (num_swap p). cbn. split; [|done]. by destruct p.
  - by exists 0, 0.
Qed.

Lemma same_but_counts_trans s1 s2 s3 :
  same_but_counts s1 s2 -> same_but_counts s2 s3 -> same_but_counts s1 s3.
Proof.
  intros [E1 H1] [E2 H2]. split.
  - rewrite E2, E1. done.
  - intros j. destruct (H1 j) as (a & b & Ha & Hb), (H2 j) as (c & d & Hc & Hd).
    exists c, d. split.
    + rewrite Hc, Ha. by destruct (procs s1 !! j).
    + intros Hj. rewrite Hd by (by rewrite E1). by apply Hb.
Qed.

Lemma same_but_counts_set s i f :
  curproc s = Some i -> (forall p, exists n1 n2, f p = {| p with num_ram := n1; num_swap := n2 |}) ->
  same_but_counts s {| s with procs := alter f i (procs s) |}.
Proof.
  intros Hi Hf. split; [done|]. intros j. cbn. destruct (decide (i = j)) as [<-|Hne].
  - rewrite list_lookup_alter_eq. destruct (procs s !! i) as [p|]; cbn; [|by exists 0, 0].
    destruct (Hf p) as (a & b & ->). exists a, b. done.
  - rewrite list_lookup_alter_ne by done. destruct (procs s !! j) as [p|].
    + exists (num_ram p), (num_swap p). split; [by destruct p|done].
    + by exists 0, 0.
Qed.

(** A conditional assignment to the counters. *)
Definition set_cur_if (b : bool) (i : nat) (f : proc -> proc) (s : kstate) : kstate :=
  if b then {| s with procs := alter f i (procs s) |} else s.
Lemma wp_when_set_cur b i f Q s :
  curproc s = Some i -> Q tt (set_cur_if b i f s) -> wp (when b (set_cur f)) Q s.
Proof. intros Hi HQ. destruct b; [|done]. by apply (wp_set_cur i). Qed.
Lemma same_but_counts_if b s i f :
  curproc s = Some i -> (forall p, exists n1 n2, f p = {| p with num_ram := n1; num_swap := n2 |}) ->
  same_but_counts s (set_cur_if b i f s).
Proof. intros. destruct b; [by apply same_but_counts_set|apply same_but_counts_refl]. Qed.

(** The current process, with the tables it was created with. *)
Definition cur_ok (s : kstate) : Prop :=
  exists p, curp s = Some p /\ length (ramPages p) = MAX_PSYC_PAGES /\
            length (swappedPages p) = MAX_PSYC_PAGES.

Lemma cur_ok_same s s' : same_but_counts s s' -> cur_ok s -> cur_ok s'.
Proof.
  intros [E H] (p & Hp & Hl1 & Hl2). unfold cur_ok, curp in *. rewrite E.
  change (curproc {| s with procs := procs s' |}) with (curproc s).
  destruct (curproc s) as [i|]; [|done]. cbn in *. destruct (H i) as (a & b & Ha & _).
  rewrite Hp in Ha. eexists. split; [exact Ha|]. done.
Qed.

Lemma wp_dealloc_scan s pgd a :
  cur_ok s -> wp (dealloc_scan pgd a) (fun _ s' => same_but_counts s s') s.
Proof.
  intros Hc. unfold dealloc_scan.
  assert (forall i, i ∈ indices MAX_PSYC_PAGES -> (i < MAX_PSYC_PAGES)%nat) as Hidx.
  { intros i Hi. apply elem_of_seq in Hi. lia. }
  eapply wp_mono; [apply (wp_for_each (fun l s' => same_but_counts s s' /\ cur_ok s' /\
    forall i, i ∈ l -> (i < MAX_PSYC_PAGES)%nat))|].
  - split_and!; [apply same_but_counts_refl|done|done].
  - intros i l s1 (Hs & Hc1 & Hl). destruct Hc1 as (p & Hp & Hl1 & Hl2) eqn:Ec. clear Ec.
    pose proof (Hl i ltac:(apply elem_of_cons; by left)) as Hi.
    rewrite wp_bind, (wp_cur p) by done.
    destruct (elem_of_split_length (ramPages p) i) as [p1 ->]; [lia|].
    destruct (elem_of_split_length (swappedPages p) i) as [p2 ->]; [lia|].
    assert (exists i0, curproc s1 = Some i0) as [i0 Hi0].
    { unfold curp in Hp. destruct (curproc s1); [by eexists|done]. }
    assert (forall s2, same_but_counts s1 s2 -> same_but_counts s s2 /\ cur_ok s2 /\
      forall i, i ∈ l -> (i < MAX_PSYC_PAGES)%nat) as Hstep.
    { intros s2 H2. split_and!; [by eapply same_but_counts_trans|by eapply cur_ok_same|].
      intros j Hj. apply Hl, elem_of_cons. by right. }
    rewrite wp_bind. apply (wp_when_set_cur _ i0); [done|].
    assert (forall s2, same_but_counts s1 s2 -> curproc s2 = Some i0) as Hcur.
    { intros s2 [-> _]. done. }
    set (b := ((virt_addr p1 =? a) && _)%bool).
    assert (same_but_counts s1 (set_cur_if b i0 (fun p => {| p with num_ram := s32 (num_ram p - 1) |}) s1)) as H1.
    { apply same_but_counts_if; [done|]. intros q. by exists (s32 (num_ram q - 1)), (num_swap q). }
    apply (wp_when_set_cur _ i0); [by apply Hcur|]. apply Hstep.
    eapply same_but_counts_trans; [exact H1|]. apply same_but_counts_if; [by apply Hcur|].
    intros q. by exists (num_ram q), (s32 (num_swap q - 1)).
  - by intros [] s' (H & _).
Qed.

(** *** Releasing a range of user pages *)

(** [f] is mapped by a present user page with number in [lo, hi). *)
Definition hit (s : kstate) (pd lo hi f : Z) : Prop :=
  exists va, 0 <= va < KERNBASE /\ lo <= vpn va < hi /\ present (mem s) pd va /\
             uframe (mem s) pd va = f.

(** [s'] is [s] with the pages numbered [lo] to [hi - 1] released: their
    entries are cleared, each of their frames has one reference less, and those
    without a further reference are back on the free list. *)
Record released (pd lo hi : Z) (s s' : kstate) (l l' : list Z) : Prop := {
  rl_ok : as_ok s' pd l';
  rl_user : user_ok s' pd;
  rl_cur : cur_ok s';
  rl_tbl : forall i, 0 <= i < 1024 -> tbl (mem s') pd i = tbl (mem s) pd i;
  rl_in : forall va, 0 <= va < KERNBASE -> lo <= vpn va < hi -> present (mem s) pd va ->
            pte_val (mem s') pd va = 0;
  rl_out : forall va, ~ (lo <= vpn va < hi /\ present (mem s) pd va) ->
             pte_val (mem s') pd va = pte_val (mem s) pd va;
  rl_list : exists freed, l' = freed ++ l /\
              forall f, f ∈ freed <-> hit s pd lo hi f /\ ref_of s f = 1;
  rl_ref : forall f, hit s pd lo hi f -> ref_of s' f = ref_of s f - 1;
  rl_run : forall f, ~ hit s pd lo hi f -> run_at (km s') f = run_at (km s) f;
  rl_mem : forall f, ~ owns (mem s) pd f -> ~ (hit s pd lo hi f /\ ref_of s f = 1) ->
             same_frame (mem s) (mem s') f;
  rl_lock : use_lock (km s') = use_lock (km s);
  rl_state : same_but_counts {| s with mem := mem s'; km := km s' |} s'
}.

Lemma released_none pd lo hi s l :
  as_ok s pd l -> user_ok s pd -> cur_ok s ->
  (forall va, 0 <= va < KERNBASE -> lo <= vpn va < hi -> ~ present (mem s) pd va) ->
  released pd lo hi s s l l.
Proof.
  intros Hok Hu Hc Hno.
  assert (forall f, ~ hit s pd lo hi f) as Hnh.
  { intros f (va & Hva & Hv & Hp & _). by apply (Hno va). }
  split; try done.
  - intros va Hva Hv Hp. by apply Hno in Hp.
  - exists []. split; [done|]. intros f. split; [by intros ?%not_elem_of_nil|].
    intros [Hh _]. by apply Hnh in Hh.
  - intros f Hh. by apply Hnh in Hh.
  - assert (s = {| s with mem := mem s; km := km s |}) as E by (by destruct s).
    rewrite <- E. apply same_but_counts_refl.
Qed.

Lemma hit_split s pd lo mid hi f :
  lo <= mid <= hi -> hit s pd lo hi f <-> hit s pd lo mid f \/ hit s pd mid hi f.
Proof.
  intros Hm. split.
  - intros (va & Hva & Hv & H). destruct (Z.lt_ge_cases (vpn va) mid); [left|right];
      exists va; (split; [done|]; split; [lia|done]).
  - intros [(va & Hva & Hv & H)|(va & Hva & Hv & H)]; exists va; (split; [done|]; split; [lia|done]).
Qed.

(** Two ranges have no frame in common. *)
Lemma hit_disjoint s pd lo mid hi f :
  user_ok s pd -> hit s pd lo mid f -> ~ hit s pd mid hi f.
Proof.
  intros Hu (va & Hva & Hv & Hp & Hf) (va' & Hva' & Hv' & Hp' & Hf').
  assert (vpn va = vpn va') by (eapply (uo_inj _ _ Hu); eauto; congruence). lia.
Qed.

Lemma released_hit pd lo mid hi s s1 l l1 f :
  released pd lo mid s s1 l l1 -> hit s1 pd mid hi f <-> hit s pd mid hi f.
Proof.
  intros Hr. unfold hit, present, uframe.
  split; intros (va & Hva & Hv & H); exists va; split_and!; try done; try lia; try apply H;
    revert H; rewrite (rl_out _ _ _ _ _ _ _ Hr va) by lia; by intros [? ?].
Qed.

Lemma released_trans pd lo mid hi s s1 s2 l l1 l2 :
  lo <= mid <= hi -> user_ok s pd ->
  released pd lo mid s s1 l l1 -> released pd mid hi s1 s2 l1 l2 -> released pd lo hi s s2 l l2.
Proof.
  intros Hm Hu H1 H2.
  assert (forall f, hit s pd mid hi f -> ref_of s1 f = ref_of s f) as Href.
  { intros f Hf. unfold ref_of. rewrite (rl_run _ _ _ _ _ _ _ H1); [done|].
    intros Hlo. by eapply hit_disjoint in Hlo. }
  split; try apply H2.
  - intros i Hi. rewrite (rl_tbl _ _ _ _ _ _ _ H2), (rl_tbl _ _ _ _ _ _ _ H1); done.
  - intros va Hva Hv Hp. destruct (Z.lt_ge_cases (vpn va) mid).
    + rewrite (rl_out _ _ _ _ _ _ _ H2) by lia. apply (rl_in _ _ _ _ _ _ _ H1); [done|lia|done].
    + apply (rl_in _ _ _ _ _ _ _ H2); [done|lia|].
      unfold present. rewrite (rl_out _ _ _ _ _ _ _ H1) by lia. done.
  - intros va Hn.
    assert (pte_val (mem s1) pd va = pte_val (mem s) pd va) as E.
    { apply (rl_out _ _ _ _ _ _ _ H1). intros [? ?]. apply Hn. split; [lia|done]. }
    rewrite (rl_out _ _ _ _ _ _ _ H2); [done|]. unfold present. rewrite E. intros [? ?].
    apply Hn. split; [lia|done].
  - destruct (rl_list _ _ _ _ _ _ _ H1) as (f1 & -> & Hf1), (rl_list _ _ _ _ _ _ _ H2) as (f2 & -> & Hf2).
    exists (f2 ++ f1). split; [by rewrite app_assoc|]. intros f.
    rewrite elem_of_app, Hf1, Hf2, (released_hit _ _ _ _ _ _ _ _ _ H1), (hit_split s pd lo mid hi) by done.
    split.
    + intros [[Hh Hr]|[Hh Hr]]; [|by auto]. rewrite Href in Hr by done. auto.
    + intros [[Hh|Hh] Hr]; [by auto|]. left. by rewrite Href.
  - intros f Hh. rewrite (hit_split s pd lo mid hi) in Hh by done. destruct Hh as [Hh|Hh].
    + unfold ref_of at 1. rewrite (rl_run _ _ _ _ _ _ _ H2).
      * by apply (rl_ref _ _ _ _ _ _ _ H1).
      * rewrite (released_hit _ _ _ _ _ _ _ _ _ H1). by eapply hit_disjoint.
    + rewrite (rl_ref _ _ _ _ _ _ _ H2), Href; [done|done|]. by apply (released_hit _ _ _ _ _ _ _ _ _ H1).
  - intros f Hh. rewrite (hit_split s pd lo mid hi) in Hh by done.
    rewrite (rl_run _ _ _ _ _ _ _ H2), (rl_run _ _ _ _ _ _ _ H1); [done|by auto|].
    rewrite (released_hit _ _ _ _ _ _ _ _ _ H1). by auto.
  - intros f Ho Hh. rewrite (hit_split s pd lo mid hi) in Hh by done.
    eapply same_frame_trans; [apply (rl_mem _ _ _ _ _ _ _ H1)|apply (rl_mem _ _ _ _ _ _ _ H2)].
    + done.
    + intros [? ?]. apply Hh. auto.
    + rewrite (owns_frame (mem s)); [done|]. apply (rl_tbl _ _ _ _ _ _ _ H1).
    + rewrite (released_hit _ _ _ _ _ _ _ _ _ H1). intros [Hm2 Hr]. apply Hh.
      rewrite Href in Hr by done. auto.
  - rewrite (rl_lock _ _ _ _ _ _ _ H2). apply (rl_lock _ _ _ _ _ _ _ H1).
  - pose proof (rl_state _ _ _ _ _ _ _ H1) as [E1 S1]. pose proof (rl_state _ _ _ _ _ _ _ H2) as [E2 S2].
    apply (same_but_counts_trans _ {| s1 with mem := mem s2; km := km s2 |}); [|by split].
    split; [by rewrite E1|exact S1].
Qed.

(** The view of a directory after the entry of a page was cleared. *)
Definition cleared_view (pd va : Z) (s s' : kstate) : Prop :=
  (forall i, 0 <= i < 1024 -> tbl (mem s') pd i = tbl (mem s) pd i) /\
  (forall va', pte_val (mem s') pd va' = if decide (vpn va = vpn va') then 0 else pte_val (mem s) pd va').

Lemma cleared_page_view s s1 s2 pd l l1 va t :
  pt_wf (mem s) pd -> ~ owns (mem s) pd (uframe (mem s) pd va) -> tbl (mem s) pd (PDX va) = Some t ->
  dropped s s1 (uframe (mem s) pd va) l l1 -> mem s2 = mem s1 ->
  let s' := {| s2 with mem := store32 (mem s2) (frame_addr t + 4 * PTX va) 0 |} in
  pt_wf (mem s') pd /\ cleared_view pd va s s'.
Proof.
  intros Hw Hfo Ht Hd Em s'. destruct (pt_frame (mem s) (mem s1) pd Hw) as (Hw1 & Htbl1 & Hv1).
  { intros g Hg. apply (dr_mem _ _ _ _ _ Hd). left. intros ->. done. }
  assert (tbl (mem s1) pd (PDX va) = Some t) as Ht1 by (by rewrite Htbl1 by apply PDX_range).
  destruct (pte_val_store _ _ _ _ 0 Hw1 Ht1) as (Hw2 & Htbl2 & Hv2). rewrite <- Em in Hw2, Htbl2, Hv2.
  split; [done|]. split.
  - intros i Hi. cbn. rewrite Htbl2, Em, Htbl1; done.
  - intros va'. cbn. rewrite Hv2. case_decide; [done|]. by rewrite Em, Hv1.
Qed.

Lemma cleared_user_ok s s' pd va :
  user_ok s pd -> cleared_view pd va s s' -> 0 <= va < KERNBASE -> present (mem s) pd va ->
  (forall g, g ≠ uframe (mem s) pd va -> run_at (km s') g = run_at (km s) g) -> user_ok s' pd.
Proof.
  intros Hu [Htbl Hview] Hva Hp Hrun. split.
  - intros va' Hva'. unfold present, uframe. rewrite Hview. case_decide as E; [done|]. intros Hp'.
    destruct (uo_frame _ _ Hu va' Hva' Hp') as (G1 & G2 & G3).
    rewrite (owns_frame (mem s)) by done. unfold ref_of. rewrite Hrun; [done|]. intros Heq. apply E.
    by apply (uo_inj _ _ Hu).
  - intros va1 va2 Hr1 Hr2. unfold present, uframe. rewrite !Hview. repeat case_decide; try done.
    by apply (uo_inj _ _ Hu).
Qed.

(** The state after the entry of a page was cleared and its frame dropped. *)
Lemma released_page s s1 s2 pd l l1 va t :
  as_ok s pd l -> user_ok s pd -> cur_ok s -> 0 <= va < KERNBASE ->
  tbl (mem s) pd (PDX va) = Some t -> present (mem s) pd va ->
  dropped s s1 (uframe (mem s) pd va) l l1 -> same_but_counts s1 s2 ->
  released pd (vpn va) (vpn va + 1) s
    {| s2 with mem := store32 (mem s2) (frame_addr t + 4 * PTX va) 0 |} l l1.
Proof.
  intros Hok Hu Hc Hva Ht Hp Hd Hs2. set (f := uframe (mem s) pd va) in *.
  destruct (uo_frame _ _ Hu va Hva Hp) as (Hf & Hfo & Hfr). fold f in Hf, Hfo, Hfr.
  assert (mem s2 = mem s1 /\ km s2 = km s1 /\ held s2 = held s) as (Em & Ek & Eh).
  { destruct Hs2 as [-> _]. rewrite (dr_state _ _ _ _ _ Hd). done. }
  destruct (cleared_page_view s s1 s2 pd l l1 va t (ok_wf _ _ _ Hok) Hfo Ht Hd Em) as [Hw' Hcl].
  set (s' := {| s2 with mem := _ |}) in *. pose proof Hcl as [Htbl Hview].
  assert (forall g, owns (mem s') pd g <-> owns (mem s) pd g) as Hown by (intros g; by apply owns_frame).
  assert (forall g, g ≠ f -> run_at (km s') g = run_at (km s) g) as Hrun.
  { intros g Hg. cbn. rewrite Ek. by apply (dr_other _ _ _ _ _ Hd). }
  assert (forall g, hit s pd (vpn va) (vpn va + 1) g <-> g = f) as Hhit.
  { intros g. split.
    - intros (va' & _ & Hv & _ & <-). unfold f, uframe. by rewrite (pte_val_vpn _ _ va va') by lia.
    - intros ->. exists va. split_and!; [lia|lia|lia|lia|done|done]. }
  assert (same_but_counts {| s with mem := mem s'; km := km s' |} s') as Hsame.
  { destruct Hs2 as [E2 S2]. rewrite (dr_state _ _ _ _ _ Hd) in S2, E2. split; [|exact S2]. unfold s'. by rewrite E2. }
  split; try done.
  - split; [unfold kmem_unlocked; cbn; rewrite Ek, Eh, (dr_lock _ _ _ _ _ Hd); apply Hok|cbn; rewrite Ek; apply Hd|done|].
    intros g. rewrite Hown, (dr_list _ _ _ _ _ Hd). case_decide; [intros [->|Hg]%elem_of_cons; [done|]|]; by apply (ok_free _ _ _ Hok).
  - by apply (cleared_user_ok s s' pd va).
  - by eapply cur_ok_same; [exact Hsame|].
  - intros va' Hva' Hv _. rewrite Hview. by rewrite decide_True by lia.
  - intros va' Hn. rewrite Hview. case_decide as E; [|done]. exfalso. apply Hn. split; [lia|].
    unfold present. rewrite (pte_val_vpn _ _ va' va) by done. done.
  - exists (if decide (ref_of s f = 1) then [f] else []). split; [rewrite (dr_list _ _ _ _ _ Hd); by case_decide|].
    intros g. rewrite Hhit. case_decide as E; [rewrite list_elem_of_singleton; split; [by intros ->|by intros [-> _]]|].
    split; [by intros ?%not_elem_of_nil|]. by intros [-> ?].
  - intros g ->%Hhit. unfold ref_of at 1. cbn. rewrite Ek. apply (dr_ref _ _ _ _ _ Hd).
  - intros g Hg. apply Hrun. by rewrite <- Hhit.
  - intros g Hg Hn. rewrite Hhit in Hn. eapply same_frame_trans.
    + apply (dr_mem _ _ _ _ _ Hd). destruct (decide (g = f)); [right|by left]. intros E. apply Hn. subst. done.
    + cbn. rewrite Em. pose proof (PTX_range va). apply same_frame_store32; [|lia].
      intros ->. apply Hg. right. exists (PDX va). split; [apply PDX_range|done].
  - cbn. rewrite Ek. apply Hd.
Qed.

Lemma wp_release_page s pd l va t :
  as_ok s pd l -> user_ok s pd -> cur_ok s -> 0 <= va < KERNBASE ->
  tbl (mem s) pd (PDX va) = Some t -> present (mem s) pd va ->
  wp (let pa := PTE_ADDR (pte_val (mem s) pd va) in
      if pa =? 0 then panic "kfree" else
      drop_page (P2V pa) ;; p ← cur; when (2 <? pid p) (dealloc_scan (frame_addr pd) va) ;;
      st32 (frame_addr t + 4 * PTX va) 0)
     (fun _ s' => exists l', released pd (vpn va) (vpn va + 1) s s' l l') s.
Proof.
  intros Hok Hu Hc Hva Ht Hp. cbv zeta.
  destruct (uo_frame _ _ Hu va Hva Hp) as (Hf & Hfo & Hfr).
  destruct (Z.eqb_spec (PTE_ADDR (pte_val (mem s) pd va)) 0) as [E|_].
  { exfalso. unfold uframe in Hf. rewrite E in Hf. destruct Hf as [_ Hf].
    pose proof kdata_low. pose proof kend_high. revert Hf. change (P2V (0 / PGSIZE * PGSIZE)) with KERNBASE.
    unfold KERNLINK, EXTMEM in *. lia. }
  rewrite P2V_PTE_ADDR by apply Hf. fold (uframe (mem s) pd va). rewrite wp_bind.
  apply (wp_drop_page _ _ l); [apply Hok|apply Hok|done|done|].
  intros s1 l1 Hd. rewrite wp_bind.
  assert (cur_ok s1) as Hc1 by (rewrite (dr_state _ _ _ _ _ Hd); exact Hc).
  destruct Hc1 as (p & Hp1 & Hl). rewrite (wp_cur p) by done. rewrite wp_bind.
  assert (frame_addr t + 4 * PTX va ≠ 0) as Hnz.
  { pose proof (wf_tbl _ _ (ok_wf _ _ _ Hok) _ _ (PDX_range va) Ht) as [Ht0 _].
    pose proof (PTX_range va). unfold frame_addr, KERNBASE, PGSIZE. lia. }
  assert (forall s2, same_but_counts s1 s2 ->
    wp (st32 (frame_addr t + 4 * PTX va) 0)
       (fun _ s' => exists l', released pd (vpn va) (vpn va + 1) s s' l l') s2) as Hend.
  { intros s2 Hs2. apply wp_st32; [done|]. exists l1. by eapply released_page. }
  apply wp_when. destruct (2 <? pid p).
  - eapply wp_mono; [apply wp_dealloc_scan; by exists p|]. intros [] s2. apply Hend.
  - apply Hend, same_but_counts_refl.
Qed.

(** The first page of the range has a page table, or starts one: the loop
    skips 4MB at a time where there is no table. *)
Definition at_table (m : gmap Z Z) (pd k : Z) : Prop :=
  k mod 1024 = 0 \/ is_Some (tbl m pd (k / 1024)).

Lemma at_table_succ m pd k t :
  tbl m pd (k / 1024) = Some t -> at_table m pd (k + 1).
Proof.
  intros Ht. unfold at_table. destruct (decide ((k + 1) mod 1024 = 0)) as [|E]; [by left|]. right.
  assert ((k + 1) / 1024 = k / 1024) as ->; [zlia|by eexists].
Qed.

Lemma PDX_page k : 0 <= k < 1048576 -> PDX (k * PGSIZE) = k / 1024.
Proof. intros. by rewrite PDX_vpn, vpn_page. Qed.

(** One page of a table, followed by the rest [K] of the loop. *)
Lemma wp_dealloc_page s pd l k t (K : M kstate unit) Q :
  as_ok s pd l -> user_ok s pd -> cur_ok s -> 0 <= k < 524288 ->
  tbl (mem s) pd (PDX (k * PGSIZE)) = Some t ->
  (forall s1 l1, released pd k (k + 1) s s1 l l1 -> wp K Q s1) ->
  wp (let pte := frame_addr t + 4 * PTX (k * PGSIZE) in
      v ← ld32 pte;
      when (has v PTE_P) (
        let pa := PTE_ADDR v in
        if pa =? 0 then panic "kfree" else
        drop_page (P2V pa) ;; p ← cur; when (2 <? pid p) (dealloc_scan (frame_addr pd) (k * PGSIZE)) ;;
        st32 pte 0) ;; K) Q s.
Proof.
  intros Hok Hu Hc Hk Ht HK. cbv zeta.
  assert (frame_addr t + 4 * PTX (k * PGSIZE) ≠ 0) as Hnz.
  { pose proof (wf_tbl _ _ (ok_wf _ _ _ Hok) _ _ (PDX_range _) Ht) as [Ht0 _].
    pose proof (PTX_range (k * PGSIZE)). unfold frame_addr, KERNBASE, PGSIZE in *. lia. }
  rewrite wp_bind, wp_ld32 by done.
  assert (load32 (mem s) (frame_addr t + 4 * PTX (k * PGSIZE)) = pte_val (mem s) pd (k * PGSIZE)) as ->.
  { unfold pte_val. by rewrite Ht. }
  rewrite wp_bind. apply (wp_mono _ (fun _ s' => exists l', released pd k (k + 1) s s' l l')).
  - apply wp_when. destruct (has (pte_val (mem s) pd (k * PGSIZE)) PTE_P) eqn:Hp.
    + pose proof (wp_release_page s pd l (k * PGSIZE) t Hok Hu Hc) as H. rewrite vpn_page in H by lia.
      apply H; [unfold PGSIZE, KERNBASE; lia|done|done].
    + exists l. apply released_none; try done. intros va Hva Hv. unfold present.
      rewrite (pte_val_vpn _ _ va (k * PGSIZE)) by (rewrite vpn_page; lia). by rewrite Hp.
  - intros [] s1 (l1 & H1). by eapply HK.
Qed.

Lemma wp_deallocuvm_loop fuel : forall s pd l k oldsz,
  as_ok s pd l -> user_ok s pd -> cur_ok s -> at_table (mem s) pd k ->
  0 <= k -> oldsz <= KERNBASE -> oldsz < (k + Z.of_nat fuel) * PGSIZE + 1 ->
  k <= (oldsz + 4095) / PGSIZE ->
  wp (deallocuvm_loop (frame_addr pd) (k * PGSIZE) oldsz fuel)
     (fun _ s' => exists l', released pd k ((oldsz + 4095) / PGSIZE) s s' l l') s.
Proof.
  induction fuel as [|fuel IH]; intros s pd l k oldsz Hok Hu Hc Hat Hk Hold Hfuel Hle; cbn [deallocuvm_loop];
    (destruct (Z.ltb_spec (k * PGSIZE) oldsz) as [Hlt|Hge];
    [|apply wp_ret; exists l; apply released_none; try done; intros va Hva Hv;
      exfalso; unfold PGSIZE, KERNBASE in *; clear - Hge Hv; zlia]).
  { unfold PGSIZE in *. lia. }
  assert (0 <= k < 524288) as Hk2 by (unfold PGSIZE, KERNBASE in *; lia).
  assert (k + 1 <= (oldsz + 4095) / PGSIZE) as Hk1 by (unfold PGSIZE in *; clear - Hlt; zlia).
  rewrite wp_bind. apply wp_walkpgdir_false; [apply Hok| |].
  - intros t Ht. pose proof (wf_tbl _ _ (ok_wf _ _ _ Hok) _ _ (PDX_range _) Ht) as [Ht0 _].
    destruct (Z.eqb_spec (frame_addr t + 4 * PTX (k * PGSIZE)) 0) as [E|_].
    { pose proof (PTX_range (k * PGSIZE)). unfold frame_addr, KERNBASE, PGSIZE in *. lia. }
    rewrite u32_small by (unfold W32, PGSIZE in *; lia).
    replace (k * PGSIZE + PGSIZE) with ((k + 1) * PGSIZE) by lia.
    apply (wp_dealloc_page s pd l k t); try done. intros s1 l1 H1.
    eapply wp_mono.
    + apply (IH s1 pd l1); try apply H1; try lia. rewrite PDX_page in Ht by lia.
      apply (at_table_succ _ _ _ t). rewrite (rl_tbl _ _ _ _ _ _ _ H1); [done|]. clear - Hk2. zlia.
    + intros [] s' (l' & H2). exists l'. eapply (released_trans _ _ (k + 1) _ _ s1 _ _ l1); try done; lia.
  - intros Ht. cbn [Z.eqb]. rewrite PDX_page in Ht by lia.
    destruct Hat as [Hat|[t Hat]]; [|congruence].
    assert (u32 (u32 (k * PGSIZE + (NPTENTRIES - 1) * PGSIZE) + PGSIZE) = (k + 1024) * PGSIZE) as ->.
    { unfold NPTENTRIES, PGSIZE in *. rewrite (u32_small (k * 4096 + _)) by (unfold W32; lia).
      rewrite u32_small by (unfold W32; lia). lia. }
    assert (forall va, 0 <= va < KERNBASE -> k <= vpn va < k + 1024 -> ~ present (mem s) pd va) as Hno.
    { intros va Hva' Hv. unfold present, pte_val. rewrite PDX_vpn.
      assert (vpn va / 1024 = k / 1024) as -> by (clear - Hv Hat; zlia). by rewrite Ht, has_0. }
    destruct (Z.le_gt_cases (k + 1024) ((oldsz + 4095) / PGSIZE)) as [Hle'|Hgt].
    + eapply wp_mono.
      * apply (IH s pd l); try done; try lia. left. clear - Hat. zlia.
      * intros [] s' (l' & H2). exists l'. eapply (released_trans _ _ (k + 1024) _ _ s _ _ l); try done; [lia|].
        by apply released_none.
    + assert (((k + 1024) * PGSIZE <? oldsz) = false) as Hend.
      { apply Z.ltb_ge. unfold PGSIZE in *. clear - Hgt. zlia. }
      destruct fuel; cbn [deallocuvm_loop]; rewrite Hend, wp_ret; exists l; apply released_none; try done;
        intros va Hva' Hv; apply Hno; lia.
Qed.

Lemma wp_deallocuvm s pd l oldsz newsz :
  as_ok s pd l -> user_ok s pd -> cur_ok s -> 0 <= newsz < oldsz -> oldsz <= KERNBASE ->
  at_table (mem s) pd ((newsz + 4095) / PGSIZE) ->
  wp (deallocuvm (frame_addr pd) oldsz newsz) (fun r s' => r = newsz /\ exists l',
    released pd ((newsz + 4095) / PGSIZE) ((oldsz + 4095) / PGSIZE) s s' l l') s.
Proof.
  intros Hok Hu Hc Hn Hold Hat. unfold deallocuvm.
  destruct (Z.leb_spec oldsz newsz); [lia|].
  assert (PGROUNDUP newsz = (newsz + 4095) / PGSIZE * PGSIZE) as ->.
  { unfold KERNBASE in *. page_lia. }
  rewrite wp_bind. eapply wp_mono.
  - apply (wp_deallocuvm_loop _ s pd l); try done.
    + unfold PGSIZE. clear - Hn. zlia.
    + unfold PGSIZE. clear - Hn. zlia.
    + unfold PGSIZE. apply Z.div_le_mono; lia.
  - intros [] s' (l' & H'). split; [done|by exists l'].
Qed.

(** *** Releasing an address space *)

(** The frames a directory consists of come from the allocator and are not
    shared. *)
Definition tables_ok (s : kstate) (pd : Z) : Prop :=
  forall f, owns (mem s) pd f -> user_frame f /\ ref_of s f = 1.

(** [s'] is [s] with the frames [fr] back on the free list. *)
Record freed_frames (s s' : kstate) (l fr : list Z) : Prop := {
  ff_kmem : kmem_ok (km s') (fr ++ l);
  ff_run : forall f, f ∉ fr -> run_at (km s') f = run_at (km s) f;
  ff_mem : forall f, f ∉ fr -> same_frame (mem s) (mem s') f;
  ff_lock : use_lock (km s') = use_lock (km s);
  ff_state : s' = {| s with mem := mem s'; km := km s' |}
}.

Lemma freed_frames_nil s l : kmem_ok (km s) l -> freed_frames s s l [].
Proof. intros. split; try done. by destruct s. Qed.

Lemma freed_frames_unlocked s s' l fr : freed_frames s s' l fr -> kmem_unlocked s -> kmem_unlocked s'.
Proof.
  intros H. unfold kmem_unlocked. rewrite (ff_lock _ _ _ _ H), (ff_state _ _ _ _ H). done.
Qed.

Lemma freed_frames_drop s s1 s2 l l2 fr f :
  freed_frames s s1 l fr -> ref_of s1 f = 1 -> dropped s1 s2 f (fr ++ l) l2 ->
  freed_frames s s2 l (f :: fr).
Proof.
  intros [Hk Hr Hm Hl Hs] H1 [D1 D2 D3 D4 D5 D6 D7]. rewrite decide_True in D1 by done. subst l2. split.
  - done.
  - intros g [Hg ?]%not_elem_of_cons. rewrite D6, Hr; done.
  - intros g [Hg ?]%not_elem_of_cons. eapply same_frame_trans; [by apply Hm|]. apply D7. by left.
  - congruence.
  - rewrite D3, Hs. done.
Qed.

Lemma wp_free_tables s pd l :
  kmem_unlocked s -> kmem_ok (km s) l -> pt_wf (mem s) pd -> tables_ok s pd ->
  wp (for_each (seqZ 0 NPDENTRIES) (fun i =>
        d ← ldf (frame_addr pd) (4 * i); when (has d PTE_P) (drop_page (P2V (PTE_ADDR d)))))
     (fun _ s' => exists fr, freed_frames s s' l fr /\
        forall f, f ∈ fr <-> exists i, 0 <= i < 1024 /\ tbl (mem s) pd i = Some f) s.
Proof.
  intros Hu Hk Hw Ht. eapply wp_mono.
  - apply (wp_for_each (fun rest s' => exists j fr, rest = seqZ j (1024 - j) /\ 0 <= j <= 1024 /\
      freed_frames s s' l fr /\ forall f, f ∈ fr <-> exists i, 0 <= i < j /\ tbl (mem s) pd i = Some f)).
    + exists 0, []. split_and!; [done|lia|lia|by apply freed_frames_nil|].
      intros f. split; [by intros ?%not_elem_of_nil|]. intros (i & Hi & _). lia.
    + intros i rest s1 (j & fr & Hrest & Hj & Hff & Hfr).
      destruct (decide (j = 1024)) as [->|Hj']; [done|].
      rewrite seqZ_cons in Hrest by lia. injection Hrest as -> ->.
      assert (pd ∉ fr) as Hpd.
      { intros (i & Hi & Hit)%Hfr. destruct (wf_tbl _ _ Hw i pd) as [_ ?]; [lia|done|done]. }
      assert (tbl (mem s1) pd j = tbl (mem s) pd j) as Etbl.
      { apply tbl_same; [by apply (ff_mem _ _ _ _ Hff)|lia]. }
      rewrite wp_bind, wp_ldf by apply frame_addr_nz, Hw.
      apply wp_when. unfold tbl at 1 in Etbl. cbv zeta in Etbl.
      destruct (has (load32 (mem s1) (frame_addr pd + 4 * j)) PTE_P).
      * symmetry in Etbl. destruct (wf_tbl _ _ Hw j _ ltac:(lia) Etbl) as [Hr _].
        rewrite P2V_PTE_ADDR by done. set (f := PTE_ADDR _ / PGSIZE) in *.
        destruct (Ht f) as [Huf Hrf]; [right; exists j; split; [lia|done]|].
        assert (f ∉ fr) as Hffr.
        { intros (i & Hi & Hit)%Hfr. assert (i = j); [|lia]. eapply (wf_inj _ _ Hw); eauto; lia. }
        assert (ref_of s1 f = 1) as Hr1 by (unfold ref_of; by rewrite (ff_run _ _ _ _ Hff)).
        apply (wp_drop_page _ _ (fr ++ l)); [by eapply freed_frames_unlocked|apply Hff|done|lia|].
        intros s2 l2 Hd. exists (j + 1), (f :: fr). split_and!; [f_equal; lia|lia|lia|by eapply freed_frames_drop|].
        intros g. rewrite elem_of_cons, Hfr. split.
        { intros [->|(i & Hi & Hit)]; [by exists j; split; [lia|]|by exists i; split; [lia|]]. }
        intros (i & Hi & Hit). destruct (decide (i = j)) as [->|]; [left; congruence|].
        right. exists i. split; [lia|done].
      * exists (j + 1), fr. split_and!; [f_equal; lia|lia|lia|done|]. intros g. rewrite Hfr.
        split; intros (i & Hi & Hit); exists i; (split; [|done]); [lia|].
        destruct (decide (i = j)) as [->|]; [congruence|lia].
  - intros [] s' (j & fr & Hrest & Hj & Hff & Hfr). exists fr. split; [done|].
    destruct (decide (j = 1024)) as [->|]; [done|]. rewrite seqZ_cons in Hrest by lia. done.
Qed.

(** [s'] is [s] without the address space in [pd]. *)
Record torn_down (pd : Z) (s s' : kstate) (l : list Z) : Prop := {
  td_list : exists freed, kmem_ok (km s') (freed ++ l) /\
    forall f, f ∈ freed <-> owns (mem s) pd f \/ (hit s pd 0 524288 f /\ ref_of s f = 1);
  td_ref : forall f, hit s pd 0 524288 f -> ref_of s' f = ref_of s f - 1;
  td_run : forall f, ~ hit s pd 0 524288 f -> ~ owns (mem s) pd f -> run_at (km s') f = run_at (km s) f;
  td_mem : forall f, ~ owns (mem s) pd f -> ~ (hit s pd 0 524288 f /\ ref_of s f = 1) ->
             same_frame (mem s) (mem s') f;
  td_lock : use_lock (km s') = use_lock (km s);
  td_state : same_but_counts {| s with mem := mem s'; km := km s' |} s'
}.

Lemma hit_not_owns s pd lo hi f : user_ok s pd -> hit s pd lo hi f -> ~ owns (mem s) pd f.
Proof. intros Hu (va & Hva & _ & Hp & <-). by apply (uo_frame _ _ Hu va). Qed.

Lemma torn_down_intro pd s s1 s3 l l1 fr :
  user_ok s pd -> released pd 0 524288 s s1 l l1 -> freed_frames s1 s3 l1 fr ->
  (forall f, f ∈ fr <-> owns (mem s) pd f) -> torn_down pd s s3 l.
Proof.
  intros Hu H1 Hff Hall.
  assert (forall f, hit s pd 0 524288 f -> f ∉ fr) as Hh.
  { intros f Hf Hin%Hall. by eapply hit_not_owns in Hf. }
  split.
  - destruct (rl_list _ _ _ _ _ _ _ H1) as (f1 & -> & Hf1). exists (fr ++ f1). split.
    + rewrite <- app_assoc. apply Hff.
    + intros f. by rewrite elem_of_app, Hall, Hf1.
  - intros f Hf. unfold ref_of at 1. rewrite (ff_run _ _ _ _ Hff) by auto.
    by apply (rl_ref _ _ _ _ _ _ _ H1).
  - intros f Hf Ho. rewrite (ff_run _ _ _ _ Hff) by (by rewrite Hall).
    by apply (rl_run _ _ _ _ _ _ _ H1).
  - intros f Ho Hn. eapply same_frame_trans; [by apply (rl_mem _ _ _ _ _ _ _ H1)|].
    apply (ff_mem _ _ _ _ Hff). by rewrite Hall.
  - rewrite (ff_lock _ _ _ _ Hff). apply H1.
  - destruct (rl_state _ _ _ _ _ _ _ H1) as [E S1]. rewrite (ff_state _ _ _ _ Hff). split; [|exact S1].
    cbn. rewrite E. done.
Qed.

Lemma wp_freevm s pd l :
  as_ok s pd l -> user_ok s pd -> cur_ok s -> tables_ok s pd ->
  wp (freevm (frame_addr pd)) (fun _ s' => torn_down pd s s' l) s.
Proof.
  intros Hok Hu Hc Ht. unfold freevm. pose proof (ok_wf _ _ _ Hok) as Hw.
  destruct (Z.eqb_spec (frame_addr pd) 0) as [E|_]; [by apply frame_addr_nz in E; [|apply Hw]|].
  rewrite wp_bind. eapply wp_mono; [apply (wp_deallocuvm s pd l KERNBASE 0); try done; by left|].
  intros r s1 (_ & l1 & H1). rewrite wp_bind.
  change ((0 + 4095) / PGSIZE) with 0 in H1. change ((KERNBASE + 4095) / PGSIZE) with 524288 in H1.
  pose proof (rl_ok _ _ _ _ _ _ _ H1) as Hok1.
  assert (forall f, owns (mem s1) pd f <-> owns (mem s) pd f) as Hown.
  { intros f. apply owns_frame, (rl_tbl _ _ _ _ _ _ _ H1). }
  assert (forall f, owns (mem s) pd f -> run_at (km s1) f = run_at (km s) f) as Hrun.
  { intros f Hf. apply (rl_run _ _ _ _ _ _ _ H1). intros Hh. by eapply hit_not_owns in Hh. }
  assert (tables_ok s1 pd) as Ht1.
  { intros f Hf%Hown. unfold ref_of. rewrite Hrun by done. by apply Ht. }
  eapply wp_mono; [apply (wp_free_tables s1 pd l1); [apply Hok1..|done]|].
  intros [] s2 (fr & Hff & Hfr).
  assert (pd ∉ fr) as Hpd.
  { intros (i & Hi & Hit)%Hfr. by destruct (wf_tbl _ _ (ok_wf _ _ _ Hok1) i pd Hi Hit). }
  destruct (Ht1 pd) as [Hpu Hpr]; [by left|].
  assert (ref_of s2 pd = 1) as Hpr2 by (unfold ref_of; by rewrite (ff_run _ _ _ _ Hff)).
  apply wp_kfree; [eapply freed_frames_unlocked; [done|apply Hok1]|done|done|].
  assert (freed_frames s1 {| s2 with mem := memset (mem s2) (frame_addr pd) 1 PGSIZE;
    km := set_freelist (Some pd) (set_run pd (mk_run (freelist (km s2)) 0) (km s2)) |} l1 (pd :: fr)) as Hff3.
  { eapply (freed_frames_drop s1 s2 _ l1 (pd :: fr ++ l1)); [done|done|]. split; cbn; try done.
    - by rewrite decide_True.
    - apply kmem_ok_push; [|done|apply Hff]. eapply in_free_ref; [apply Hff|]. lia.
    - unfold ref_of, run_at in *; cbn. rewrite lookup_insert_eq. cbn. lia.
    - intros g Hg. unfold run_at; cbn. by rewrite lookup_insert_ne by done.
    - intros g [Hg|Hg]; [|done]. by apply same_frame_memset. }
  revert Hff3. set (s3 := {| s2 with mem := _; km := _ |}). intros Hff3.
  assert (forall f, f ∈ pd :: fr <-> owns (mem s) pd f) as Hall.
  { intros f. rewrite <- Hown, elem_of_cons, Hfr. done. }
  by apply (torn_down_intro pd s s1 s3 l l1 (pd :: fr)).
Qed.

(** *** The kernel part of an address space *)

Definition k_size (e : kmap_entry) : Z := u32 (k_phys_end e - k_phys_start e).
Definition k_pages (e : kmap_entry) : Z := map_pages (k_virt e) (k_size e).

(** The view of an address space with no user pages. *)
Definition map_entries (t : Z -> Z) (ks : list kmap_entry) : Z -> Z :=
  fold_left (fun t e => abs_map t (k_virt e) (k_phys_start e) (k_perm e) (k_pages e)) ks t.
Definition kview : Z -> Z := map_entries (fun _ => 0) kmap.

Lemma map_entries_ext ks : forall t t' va,
  (forall x, t x = t' x) -> map_entries t ks va = map_entries t' ks va.
Proof.
  induction ks as [|e ks IH]; intros t t' va H; cbn; [done|].
  apply IH. intros x. by apply abs_map_ext.
Qed.

(** The entries are in increasing order and do not overlap. *)
Fixpoint kmap_sorted (lo : Z) (ks : list kmap_entry) : Prop :=
  match ks with
  | [] => True
  | e :: ks' => lo <= k_virt e /\ page_aligned (k_virt e) /\ page_aligned (k_size e) /\ 0 < k_size e /\
      k_virt e + k_size e <= W32 /\ 0 <= k_phys_start e < W32 /\ kmap_sorted (k_virt e + k_size e) ks'
  end.

Lemma kdata_bounds : KERNLINK < kdata < KERNBASE + PHYSTOP.
Proof. pose proof kdata_low. pose proof kend_high. pose proof kend_range. lia. Qed.

(** The four ranges with their sizes. *)
Lemma kmap_sizes :
  (fun e => (k_virt e, k_phys_start e, k_size e)) <$> kmap =
  [(KERNBASE, 0, EXTMEM); (KERNLINK, EXTMEM, kdata - KERNLINK);
   (kdata, kdata - KERNBASE, KERNBASE + PHYSTOP - kdata); (DEVSPACE, DEVSPACE, 0x2000000)].
Proof.
  pose proof kdata_bounds as Hb. unfold KERNLINK, KERNBASE, EXTMEM, PHYSTOP in Hb.
  assert (V2P kdata = kdata - KERNBASE) as Ev by (apply u32_small; unfold KERNBASE, W32; lia).
  assert (u32 (V2P kdata - V2P KERNLINK) = kdata - KERNLINK) as E1.
  { rewrite Ev. change (V2P KERNLINK) with EXTMEM. unfold KERNLINK, KERNBASE, EXTMEM.
    rewrite u32_small by (unfold W32; lia). lia. }
  assert (u32 (PHYSTOP - V2P kdata) = KERNBASE + PHYSTOP - kdata) as E2.
  { rewrite Ev. unfold KERNBASE, PHYSTOP. rewrite u32_small by (unfold W32; lia). lia. }
  unfold kmap, k_size. cbn [fmap list_fmap k_virt k_phys_start k_phys_end]. rewrite E1, E2, Ev. done.
Qed.

Lemma kmap_is_sorted : kmap_sorted KERNBASE kmap.
Proof.
  pose proof kmap_sizes as Hs. pose proof kdata_bounds as Hb. pose proof kdata_aligned as Ha.
  unfold kmap in *. cbn [fmap list_fmap k_virt k_phys_start] in Hs.
  injection Hs as S2 E3 S3. cbn [kmap_sorted k_virt k_phys_start]. rewrite S2, S3, E3.
  change (k_size (mk_kmap KERNBASE 0 EXTMEM PTE_W)) with EXTMEM.
  change (k_size (mk_kmap DEVSPACE DEVSPACE 0 PTE_W)) with 0x2000000.
  change (V2P KERNLINK) with EXTMEM.
  unfold page_aligned, KERNLINK, KERNBASE, EXTMEM, PHYSTOP, DEVSPACE, W32 in *.
  split_and!; try lia; try done; clear - Ha; zlia.
Qed.

(** The directory indices the kernel part uses: 56 for the physical memory
    and 8 for the devices. *)
Definition kernel_pdx : list Z := seqZ 512 56 ++ seqZ 1016 8.

Lemma kmap_bounds e :
  e ∈ kmap -> KERNBASE <= k_virt e /\ k_virt e + k_size e <= KERNBASE + PHYSTOP \/
              DEVSPACE <= k_virt e /\ k_virt e + k_size e <= W32.
Proof.
  intros He. apply (list_elem_of_fmap_2 (fun e => (k_virt e, k_phys_start e, k_size e))) in He.
  rewrite kmap_sizes in He. pose proof kdata_bounds as Hb. revert He.
  generalize (k_virt e), (k_phys_start e), (k_size e). intros v ps sz He.
  unfold KERNLINK, KERNBASE, EXTMEM, PHYSTOP, DEVSPACE, W32 in *.
  rewrite !elem_of_cons in He.
  destruct He as [[= -> _ ->]|[[= -> _ ->]|[[= -> _ ->]|[[= -> _ ->]|He%not_elem_of_nil]]]]; lia || done.
Qed.

Lemma kernel_pdx_range e k :
  e ∈ kmap -> page_aligned (k_virt e) -> page_aligned (k_size e) -> 0 < k_size e ->
  0 <= k < k_pages e -> PDX (k_virt e + k * PGSIZE) ∈ kernel_pdx.
Proof.
  intros He Ha Hz Hpos Hk. unfold kernel_pdx. rewrite elem_of_app, !elem_of_seqZ, PDX_eq.
  unfold k_pages, map_pages, page_aligned, PGSIZE in *.
  assert (k_virt e + k * 4096 <= k_virt e + k_size e - 4096) as Hk2 by (clear - Ha Hz Hk Hpos; zlia).
  destruct (kmap_bounds e He) as [[H1 H2]|[H1 H2]]; unfold KERNBASE, PHYSTOP, DEVSPACE in *;
    rewrite u32_small by (unfold W32 in *; lia); [left|right]; unfold W32 in *; clear - H1 H2 Hk Hk2; zlia.
Qed.

(** With no user page nothing is present below [KERNBASE]. *)
Definition no_user (m : gmap Z Z) (pd : Z) : Prop :=
  forall va, 0 <= va < KERNBASE -> ~ present m pd va.
Lemma no_user_ok s pd : no_user (mem s) pd -> user_ok s pd.
Proof. intros H. split; [intros va Hva Hp|intros va va' Hva Hva' Hp]; by apply H in Hp. Qed.

(** The invariant of the loop: [s0] is the state after the directory was
    taken from the free list. *)
Record building (pd : Z) (s0 s : kstate) (l0 used l : list Z) : Prop := {
  bd_ext : pt_ext pd s0 s used l;
  bd_list : l0 = used ++ l;
  bd_pdx : forall i, 0 <= i < 1024 -> is_Some (tbl (mem s) pd i) -> i ∈ kernel_pdx
}.

(** No more than 64 frames become page tables. *)
Lemma building_length pd s0 s l0 used l :
  (forall i, 0 <= i < 1024 -> tbl (mem s0) pd i = None) -> pd ∉ l0 -> NoDup l0 ->
  building pd s0 s l0 used l -> (length used <= 64)%nat.
Proof.
  intros Hz Hpd Hnd [Hx -> Hb].
  assert (used ⊆+ omap (tbl (mem s) pd) kernel_pdx) as Hs.
  { apply NoDup_submseteq; [by apply NoDup_app in Hnd as [? _]|]. intros f Hf.
    destruct (px_used _ _ _ _ _ Hx f Hf) as [->|(i & Hi & Ht)].
    - exfalso. apply Hpd, elem_of_app. by left.
    - apply list_elem_of_omap. exists i. split; [|done]. apply Hb; [done|by eexists]. }
  apply submseteq_length in Hs. pose proof (omap_length_le (tbl (mem s) pd) kernel_pdx) as Hle.
  assert (length kernel_pdx = 64%nat) by reflexivity. lia.
Qed.

Section Setup.
(** The state in which the empty directory [pd] was just taken from the free
    list, which now is [l0]. *)
Context (pd : Z) (s0 : kstate) (l0 : list Z).
Hypothesis empty_pd : forall i, 0 <= i < 1024 -> tbl (mem s0) pd i = None.
Hypothesis pd_taken : pd ∉ l0.
Hypothesis ok0 : as_ok s0 pd l0.
Hypothesis pd_user : user_frame pd.
Hypothesis pd_ref : ref_of s0 pd = 1.

Lemma building_start : building pd s0 s0 l0 [] l0.
Proof.
  split; [by apply pt_ext_refl|done|]. intros i Hi. rewrite empty_pd by done. by intros [? ?].
Qed.

Lemma building_tables s used l : building pd s0 s l0 used l -> tables_ok s pd.
Proof.
  intros [Hx Hl _] f Hf. destruct (px_new _ _ _ _ _ Hx f Hf) as [[->|(i & Hi & Ht)]|Hu].
  - split; [done|]. unfold ref_of. rewrite (px_ref _ _ _ _ _ Hx); [done|].
    intros Hin. apply pd_taken. rewrite Hl. apply elem_of_app. by left.
  - by rewrite empty_pd in Ht.
  - split; [|by apply (px_ref1 _ _ _ _ _ Hx)].
    pose proof (ko_range _ _ (ok_kmem _ _ _ ok0)) as Hr. rewrite Forall_forall in Hr.
    apply Hr. rewrite Hl. apply elem_of_app. by left.
Qed.

(** Nothing is mapped yet below [KERNBASE] or from page [lo] on. *)
Definition unmapped (s : kstate) (lo : Z) : Prop :=
  forall va, vpn va < 524288 \/ lo / PGSIZE <= vpn va -> pte_val (mem s) pd va = 0.

Lemma unmapped_no_user s lo : unmapped s lo -> no_user (mem s) pd.
Proof.
  intros H va Hva. unfold present. rewrite H by (left; by apply vpn_range). by rewrite has_0.
Qed.

Lemma k_pages_aligned e :
  page_aligned (k_virt e) -> page_aligned (k_size e) -> 0 < k_size e ->
  k_pages e = k_size e / PGSIZE /\ (k_virt e + k_size e) / PGSIZE = k_virt e / PGSIZE + k_pages e.
Proof.
  unfold page_aligned, k_pages, map_pages, PGSIZE. intros. split; zlia.
Qed.

(** One entry of [kmap]. *)
Lemma wp_map_entry s used l lo e :
  building pd s0 s l0 used l -> unmapped s lo -> e ∈ kmap -> KERNBASE <= lo -> kmap_sorted lo [e] ->
  wp (mappages (frame_addr pd) (k_virt e) (k_size e) (k_phys_start e) (k_perm e)) (fun r s' =>
    exists used' l', building pd s0 s' l0 used' l' /\ no_user (mem s') pd /\
    ((r = 0 /\ unmapped s' (k_virt e + k_size e) /\ forall va, pte_val (mem s') pd va =
        abs_map (pte_val (mem s) pd) (k_virt e) (k_phys_start e) (k_perm e) (k_pages e) va) \/
     (r = -1 /\ l' = []))) s.
Proof.
  intros [Hx Hl Hb] Hun He Hlo (H1 & Ha & Hz & Hp & Hw & Hph & _).
  destruct (k_pages_aligned e Ha Hz Hp) as [Ek1 Ek2].
  assert (vpn (k_virt e) = k_virt e / PGSIZE) as Ev.
  { unfold vpn. rewrite u32_small by (unfold W32, KERNBASE in *; lia). done. }
  assert (0 <= k_pages e) as Hk0 by (rewrite Ek1; apply Z.div_pos; [lia|done]).
  assert (lo / PGSIZE <= k_virt e / PGSIZE) as Hdiv by (apply Z.div_le_mono; [done|lia]).
  assert (524288 <= vpn (k_virt e)) as Hkern.
  { rewrite Ev. change 524288 with (KERNBASE / PGSIZE). apply Z.div_le_mono; [done|lia]. }
  eapply wp_mono.
  - apply (wp_mappages s pd l); [apply Hx|unfold KERNBASE in *; lia|done|done|done|].
    intros va Hva. rewrite Hun by (right; lia). done.
  - intros r s' (u & l' & -> & Hx' & Hgrow & Hres).
    rewrite PGROUNDDOWN_id in Hres by (done || (unfold KERNBASE, W32 in *; lia)).
    exists (used ++ u), l'. split; [|].
    + split; [by eapply pt_ext_trans|by rewrite <- app_assoc|]. intros i Hi Hs.
      destruct (Hgrow i Hi Hs) as [?|(k & Hk & ->)]; [by apply Hb|].
      rewrite PGROUNDDOWN_id by (done || (unfold KERNBASE, W32 in *; lia)). by apply kernel_pdx_range.
    + assert (forall k va, vpn va < 524288 -> abs_map (pte_val (mem s) pd) (k_virt e) (k_phys_start e) (k_perm e) k va = 0) as Hlow.
      { intros k va Hva. rewrite abs_map_outside by lia. apply Hun. by left. }
      assert (forall k, (forall va, pte_val (mem s') pd va = abs_map (pte_val (mem s) pd)
        (k_virt e) (k_phys_start e) (k_perm e) k va) -> no_user (mem s') pd) as Hnu.
      { intros k Hv va Hva. unfold present. rewrite Hv, Hlow by (by apply vpn_range). by rewrite has_0. }
      destruct Hres as [[-> Hv]|(-> & -> & k & Hk & _ & Hv)]; (split; [by eapply Hnu|]); [left|by right].
      split; [done|]. split; [|exact Hv].
      intros va Hva. rewrite Hv. destruct Hva as [Hva|Hva]; [by apply Hlow|].
      fold (k_pages e). rewrite abs_map_outside by lia. apply Hun. right. lia.
Qed.

Lemma wp_setupkvm_loop ks : forall pre s used l lo,
  kmap = pre ++ ks -> building pd s0 s l0 used l -> unmapped s lo -> KERNBASE <= lo -> kmap_sorted lo ks ->
  cur_ok s0 \/ (64 < length l0)%nat ->
  wp (setupkvm_loop (frame_addr pd) ks) (fun r s' =>
    (r = frame_addr pd /\ exists used' l' lo', building pd s0 s' l0 used' l' /\ unmapped s' lo' /\
       forall va, pte_val (mem s') pd va = map_entries (pte_val (mem s) pd) ks va) \/
    (r = 0 /\ (length l0 <= 64)%nat /\ exists s2, building pd s0 s2 l0 l0 [] /\
       no_user (mem s2) pd /\ torn_down pd s2 s' [])) s.
Proof.
  pose proof (ko_nodup _ _ (ok_kmem _ _ _ ok0)) as Hnd.
  induction ks as [|e ks IH]; intros pre s used l lo Hpre Hb Hun Hlo Hs Hcur; cbn [setupkvm_loop].
  { apply wp_ret. left. split; [done|]. by exists used, l, lo. }
  rewrite wp_bind. cbn [kmap_sorted] in Hs.
  eapply wp_mono.
  { apply (wp_map_entry s used l lo e); try done.
    - rewrite Hpre. apply elem_of_app. right. apply elem_of_cons. by left.
    - cbn [kmap_sorted]. by destruct Hs as (? & ? & ? & ? & ? & ? & _). }
  intros r s1 (u1 & l1 & Hb1 & Hnu & [(-> & Hun1 & Hv1)|[-> ->]]).
  - cbn [Z.ltb Z.compare]. destruct Hs as (? & ? & ? & ? & ? & ? & Hs).
    eapply wp_mono; [apply (IH (pre ++ [e]) s1 u1 l1 (k_virt e + k_size e)); try done|].
    + by rewrite <- app_assoc.
    + lia.
    + intros r s' [(-> & u2 & l2 & lo2 & Hb2 & Hun2 & Hv2)|Hfail]; [left|by right].
      split; [done|]. exists u2, l2, lo2. split_and!; [done|done|]. intros va. rewrite Hv2. cbn.
      by apply map_entries_ext.
  - cbn [Z.ltb Z.compare]. pose proof (bd_list _ _ _ _ _ _ Hb1) as El. rewrite app_nil_r in El. subst u1.
    pose proof (building_length pd s0 s1 l0 l0 [] empty_pd pd_taken Hnd Hb1) as Hlen.
    destruct Hcur as [Hcur|]; [|lia]. rewrite wp_bind.
    eapply wp_mono; [apply (wp_freevm s1 pd [])|].
    + apply Hb1.
    + by apply no_user_ok.
    + destruct Hcur as (p & Hp & Hl). exists p. split; [|done].
      unfold curp. rewrite (px_state _ _ _ _ _ (bd_ext _ _ _ _ _ _ Hb1)). exact Hp.
    + by eapply building_tables.
    + intros [] s' Htd. apply wp_ret. right. split_and!; [done|done|]. by exists s1.
Qed.

End Setup.

(** [f] is outside of [l]; used to say what an operation leaves alone. *)
Definition untouched (s s' : kstate) (l : list Z) : Prop :=
  forall f, f ∉ l -> run_at (km s') f = run_at (km s) f /\
                     (0 <= f < MAXPAGES -> same_frame (mem s) (mem s') f).

(** A new directory [pd], made of frames of the free list [l], with nothing
    below [KERNBASE]. *)
Record fresh_dir (s s' : kstate) (l : list Z) (pd : Z) (l' : list Z) : Prop := {
  fd_ok : as_ok s' pd l';
  fd_tables : tables_ok s' pd;
  fd_user : forall va, vpn va < 524288 -> pte_val (mem s') pd va = 0;
  fd_view : forall va, pte_val (mem s') pd va = kview va;
  fd_list : exists used, l = (pd :: used) ++ l' /\
              (forall f, owns (mem s') pd f <-> f = pd \/ f ∈ used) /\ untouched s s' (pd :: used);
  fd_lock : use_lock (km s') = use_lock (km s);
  fd_state : s' = {| s with mem := mem s'; km := km s' |}
}.

Lemma fresh_no_user s s' l pd l' : fresh_dir s s' l pd l' -> no_user (mem s') pd.
Proof.
  intros H va Hva. unfold present. rewrite (fd_user _ _ _ _ _ H) by (by apply vpn_range). by rewrite has_0.
Qed.

Lemma empty_directory s pd l :
  kmem_unlocked s -> kmem_ok (km s) (pd :: l) ->
  let s0 := {| s with mem := memset (mem s) (frame_addr pd) 0 PGSIZE;
                      km := set_freelist (run_next (run_at (km s) pd))
                              (set_run pd (mk_run (run_next (run_at (km s) pd)) 1) (km s)) |} in
  as_ok s0 pd l /\ (forall i, 0 <= i < 1024 -> tbl (mem s0) pd i = None) /\
  ref_of s0 pd = 1 /\ user_frame pd /\ (pd ∉ l) /\ untouched s s0 [pd] /\ unmapped pd s0 KERNBASE.
Proof.
  intros Hu Hk s0. pose proof (ko_nodup _ _ Hk) as Hnd. apply NoDup_cons in Hnd as [Hpl Hnd].
  pose proof (ko_range _ _ Hk) as Hr. apply Forall_cons in Hr as [Hpu _].
  assert (forall i, 0 <= i < 1024 -> tbl (mem s0) pd i = None) as Hz.
  { intros i Hi. unfold tbl. cbn. rewrite load32_memset_frame by lia. done. }
  split_and!; try done.
  - split.
    + by destruct Hu; [left|right].
    + by apply kmem_ok_pop.
    + split; [apply Hpu|..]; intros i; intros; by rewrite Hz in *.
    + intros f Hf [->|(i & Hi & Ht)]; [done|]. by rewrite Hz in Ht.
  - unfold ref_of, run_at; cbn. by rewrite lookup_insert_eq.
  - intros f Hf. rewrite list_elem_of_singleton in Hf. split.
    + unfold run_at; cbn. by rewrite lookup_insert_ne by congruence.
    + intros _. by apply same_frame_memset.
  - intros va _. unfold pte_val. by rewrite Hz by apply PDX_range.
Qed.

Lemma building_untouched s s0 s' pd l0 used l' :
  (forall i, 0 <= i < 1024 -> tbl (mem s0) pd i = None) -> untouched s s0 [pd] ->
  building pd s0 s' l0 used l' ->
  (forall f, owns (mem s') pd f <-> f = pd \/ f ∈ used) /\ untouched s s' (pd :: used).
Proof.
  intros Hz Hunt [Hx Hl _].
  assert (forall f, owns (mem s') pd f <-> f = pd \/ f ∈ used) as Hown.
  { intros f. split.
    - intros [[->|(i & Hi & Ht)]|Hf]%(px_new _ _ _ _ _ Hx); [by left|by rewrite Hz in Ht|by right].
    - intros [->|Hf]; [by left|by apply (px_used _ _ _ _ _ Hx)]. }
  split; [done|]. intros f [Hf1 Hf2]%not_elem_of_cons.
  destruct (Hunt f) as [Hr Hm]; [by rewrite list_elem_of_singleton|]. split.
  - rewrite (px_ref _ _ _ _ _ Hx) by done. done.
  - intros Hf. eapply same_frame_trans; [by apply Hm|]. apply (px_mem _ _ _ _ _ Hx); [|done].
    rewrite Hown. by intros [?|?].
Qed.

(** When building fails, the free list is as before up to order. *)
Lemma building_undone s s0 s2 s' pd l0 :
  (forall i, 0 <= i < 1024 -> tbl (mem s0) pd i = None) -> untouched s s0 [pd] -> NoDup (pd :: l0) ->
  s0 = {| s with mem := mem s0; km := km s0 |} -> use_lock (km s0) = use_lock (km s) ->
  building pd s0 s2 l0 l0 [] -> no_user (mem s2) pd -> torn_down pd s2 s' [] ->
  exists l', kmem_ok (km s') l' /\ l' ≡ₚ (pd :: l0) /\ untouched s s' (pd :: l0) /\
    use_lock (km s') = use_lock (km s) /\ same_but_counts {| s with mem := mem s'; km := km s' |} s'.
Proof.
  intros Hz Hunt Hnd Es0 El0 Hb Hnu Htd. pose proof (bd_ext _ _ _ _ _ _ Hb) as Hx.
  destruct (building_untouched s s0 s2 pd l0 l0 [] Hz Hunt Hb) as [Hown Hunt2].
  assert (forall f, ~ hit s2 pd 0 524288 f) as Hnh.
  { intros f (va & Hva & _ & Hp & _). by apply (Hnu va). }
  destruct (td_list _ _ _ _ Htd) as (freed & Hk & Hfreed). rewrite app_nil_r in Hk.
  exists freed. split_and!; [done| | | |].
  - apply NoDup_Permutation; [apply Hk|done|]. intros f. rewrite Hfreed, Hown, elem_of_cons.
    split; [|by auto]. intros [?|[Hh _]]; [done|]. by apply Hnh in Hh.
  - intros f Hf. destruct (Hunt2 f Hf) as [Hr Hm].
    assert (~ owns (mem s2) pd f) as Ho.
    { rewrite Hown. by rewrite elem_of_cons in Hf. }
    split; [by rewrite (td_run _ _ _ _ Htd)|]. intros Hr'.
    eapply same_frame_trans; [by apply Hm|]. apply (td_mem _ _ _ _ Htd); [done|].
    intros [Hh _]. by apply Hnh in Hh.
  - rewrite (td_lock _ _ _ _ Htd), (px_lock _ _ _ _ _ Hx). done.
  - destruct (td_state _ _ _ _ Htd) as [E S]. rewrite (px_state _ _ _ _ _ Hx), Es0 in E, S. by split.
Qed.

Lemma wp_setupkvm s l :
  kmem_unlocked s -> kmem_ok (km s) l -> cur_ok s \/ (65 < length l)%nat ->
  wp setupkvm (fun r s' =>
    (exists pd l', r = frame_addr pd /\ fresh_dir s s' l pd l') \/
    (r = 0 /\ (length l <= 65)%nat /\ exists l', kmem_ok (km s') l' /\ l' ≡ₚ l /\ untouched s s' l /\
       use_lock (km s') = use_lock (km s) /\ same_but_counts {| s with mem := mem s'; km := km s' |} s')) s.
Proof.
  intros Hu Hk Hcur. unfold setupkvm. rewrite wp_bind. destruct l as [|pd l0].
  { apply wp_kalloc_nil; [done..|]. apply wp_ret. right. split_and!; [done|cbn; lia|]. exists [].
    split_and!; try done. assert (s = {| s with mem := mem s; km := km s |}) as <- by (by destruct s).
    apply same_but_counts_refl. }
  eapply wp_kalloc_cons; [done..|]. cbn beta iota.
  destruct (empty_directory s pd l0 Hu Hk) as (Hok0 & Hz & Hr0 & Hpu & Hpl & Hunt & Hun).
  destruct (Z.eqb_spec (frame_addr pd) 0) as [E|_]; [by apply frame_addr_nz in E; [|apply Hpu]|].
  rewrite wp_bind, wp_set_mem. change (DEVSPACE <? P2V PHYSTOP) with false. cbv iota.
  match type of Hok0 with as_ok ?x _ _ => set (s0 := x) in * end.
  eapply wp_mono; [apply (wp_setupkvm_loop pd s0 l0 Hz Hpl Hok0 Hpu Hr0 kmap [] s0 [] l0 KERNBASE); try done|].
  - by apply building_start.
  - apply kmap_is_sorted.
  - destruct Hcur as [Hc|Hl]; [left; exact Hc|right]. cbn in Hl. lia.
  - intros r s' [(-> & used & l' & lo' & Hb & Hun' & Hv)|(-> & Hlen & s2 & Hb & Hnu & Htd)]; [left|right].
    + exists pd, l'. split; [done|]. pose proof (bd_ext _ _ _ _ _ _ Hb) as Hx. split.
      * apply Hx.
      * by eapply building_tables.
      * intros va Hva. apply Hun'. by left.
      * intros va. rewrite Hv. apply map_entries_ext. intros x. unfold pte_val. by rewrite Hz by apply PDX_range.
      * exists used. split; [by rewrite (bd_list _ _ _ _ _ _ Hb)|].
        apply (building_untouched s s0 s' pd l0 used l'); done.
      * rewrite (px_lock _ _ _ _ _ Hx). done.
      * rewrite (px_state _ _ _ _ _ Hx). done.
    + split; [done|]. split; [cbn; lia|]. apply (building_undone s s0 s2 s' pd l0); try done. apply Hk.
Qed.

(** *** The kernel view *)

Lemma abs_map_entry t va pa perm n va' :
  0 <= vpn va' - vpn va < n -> page_aligned pa -> 0 <= perm < 4096 ->
  0 <= pa -> pa + (vpn va' - vpn va) * PGSIZE < W32 ->
  PTE_ADDR (abs_map t va pa perm n va') = pa + (vpn va' - vpn va) * PGSIZE /\
  PTE_FLAGS (abs_map t va pa perm n va') = Z.lor perm PTE_P.
Proof.
  intros Hj Hpa Hperm H0 Hw. unfold abs_map. rewrite (proj2 (andb_true_iff _ _)) by lia.
  set (x := pa + (vpn va' - vpn va) * PGSIZE) in *.
  rewrite (u32_small x) by (unfold PGSIZE in *; lia). rewrite <- Z.lor_assoc.
  assert (page_aligned x) as Hx by (unfold page_aligned, x, PGSIZE in *; clear - Hpa; zlia).
  assert (0 <= Z.lor perm PTE_P < 4096) as Hf.
  { apply (lor_lt_pow2 _ _ 12); [lia|done|done]. }
  rewrite u32_small by (rewrite lor_page by done; unfold page_aligned, W32, PGSIZE in *; zlia).
  split; [apply PTE_ADDR_lor|apply PTE_FLAGS_lor]; try done; unfold PGSIZE in *; lia.
Qed.

Lemma vpn_small va : 0 <= va < W32 -> vpn va = va / PGSIZE.
Proof. intros. unfold vpn. by rewrite u32_small. Qed.

(** The direct map of physical memory: the kernel text is read-only, the
    rest is writable, nothing is accessible to user code. *)
Lemma kview_direct va :
  KERNBASE <= va < KERNBASE + PHYSTOP ->
  PTE_ADDR (kview va) = PGROUNDDOWN (V2P va) /\
  PTE_FLAGS (kview va) = if decide (KERNLINK <= va < kdata) then PTE_P else Z.lor PTE_W PTE_P.
Proof.
  intros Hva. pose proof kmap_sizes as Hs. pose proof kdata_bounds as Hb. pose proof kdata_aligned as Ha.
  unfold kview, kmap, map_entries in *. cbn [fmap list_fmap k_virt k_phys_start] in Hs.
  injection Hs as S2 E3 S3. cbn [fold_left k_virt k_phys_start k_perm]. unfold k_pages.
  cbn [k_virt]. rewrite S2, S3, E3.
  change (k_size (mk_kmap KERNBASE 0 EXTMEM PTE_W)) with EXTMEM.
  change (k_size (mk_kmap DEVSPACE DEVSPACE 0 PTE_W)) with 0x2000000.
  change (V2P KERNLINK) with EXTMEM.
  assert (PGROUNDDOWN (V2P va) = (va / PGSIZE - KERNBASE / PGSIZE) * PGSIZE) as ->.
  { unfold KERNBASE, PHYSTOP in Hva. clear - Hva. page_lia. }
  unfold KERNLINK, KERNBASE, EXTMEM, PHYSTOP, DEVSPACE in *.
  assert (vpn va = va / PGSIZE) as Ev by (apply vpn_small; unfold W32; lia).
  assert (vpn kdata = kdata / PGSIZE) as Ed by (apply vpn_small; unfold W32; lia).
  unfold page_aligned in Ha.
  rewrite (abs_map_outside _ 0xFE000000) by (rewrite Ev; change (vpn 0xFE000000) with 1040384; unfold PGSIZE; clear - Hva; zlia).
  destruct (Z.lt_ge_cases va kdata) as [Hd|Hd].
  - rewrite (abs_map_outside _ kdata) by (rewrite Ev, Ed; unfold PGSIZE in *; clear - Hd Ha; zlia).
    destruct (Z.lt_ge_cases va (0x80000000 + 0x100000)) as [Hl|Hl].
    + rewrite abs_map_outside by (rewrite Ev; change (vpn (0x80000000 + 0x100000)) with 524544; unfold PGSIZE; clear - Hl; zlia).
      rewrite decide_False by lia.
      assert (vpn 0x80000000 = 524288) as E0 by done.
      edestruct (abs_map_entry (fun _ => 0) 0x80000000 0 PTE_W (map_pages 0x80000000 0x100000) va) as [-> ->];
        rewrite ?E0, ?Ev; try done; unfold map_pages, PGSIZE, W32 in *; clear - Hva Hl; zlia.
    + rewrite decide_True by lia.
      assert (vpn (0x80000000 + 0x100000) = 524544) as E0 by done.
      edestruct (abs_map_entry (abs_map (fun _ => 0) 0x80000000 0 PTE_W (map_pages 0x80000000 0x100000))
        (0x80000000 + 0x100000) 0x100000 0 (map_pages (0x80000000 + 0x100000) (kdata - (0x80000000 + 0x100000))) va)
        as [-> ->]; rewrite ?E0, ?Ev; try done; unfold map_pages, PGSIZE, W32 in *; [clear - Hva Hl Hd Ha; zlia..|].
      split; [|done]. clear. zlia.
  - rewrite decide_False by lia.
    match goal with |- context [abs_map ?t kdata _ _ _] =>
      edestruct (abs_map_entry t kdata (kdata - 0x80000000) PTE_W
        (map_pages kdata (0x80000000 + 0xE000000 - kdata)) va) as [-> ->] end;
        rewrite ?Ed, ?Ev; try done; unfold page_aligned, map_pages, PGSIZE, W32 in *; [clear - Hva Hb Hd Ha; zlia..|].
    split; [|done]. clear - Ha Hb. zlia.
Qed.

Lemma map_entries_user ks : forall lo t va,
  KERNBASE <= lo -> kmap_sorted lo ks -> vpn va < 524288 -> map_entries t ks va = t va.
Proof.
  induction ks as [|e ks IH]; intros lo t va Hlo Hs Hva; [done|].
  destruct Hs as (H1 & _ & _ & H2 & H3 & _ & Hs). cbn [map_entries fold_left].
  fold (map_entries (abs_map t (k_virt e) (k_phys_start e) (k_perm e) (k_pages e)) ks).
  rewrite (IH (k_virt e + k_size e)) by (done || lia). apply abs_map_outside.
  rewrite (vpn_small (k_virt e)) by (unfold KERNBASE, W32 in *; lia).
  assert (KERNBASE / PGSIZE <= k_virt e / PGSIZE) as Hd by (apply Z.div_le_mono; [done|lia]).
  change (KERNBASE / PGSIZE) with 524288 in Hd. lia.
Qed.
Lemma kview_user va : vpn va < 524288 -> kview va = 0.
Proof. intros. by apply (map_entries_user kmap KERNBASE (fun _ => 0)); [|apply kmap_is_sorted|]. Qed.

(** ** Correctness *)

(** [deallocuvm] releases exactly the present pages between the two
    sizes: their entries are cleared and no other entry changes, each of their frames
    loses one reference, the frames nobody else references are put on the free
    list (the other frames keep their contents), and of the rest of the kernel state only the two
    page counters of the current process change. *)
Theorem deallocuvm_correct s pd l oldsz newsz :
  as_ok s pd l -> user_ok s pd -> cur_ok s -> 0 <= newsz < oldsz -> oldsz <= KERNBASE ->
  at_table (mem s) pd ((newsz + 4095) / PGSIZE) ->
  wp (deallocuvm (frame_addr pd) oldsz newsz) (fun r s' => r = newsz /\ exists l',
    released pd ((newsz + 4095) / PGSIZE) ((oldsz + 4095) / PGSIZE) s s' l l') s.
Proof. apply wp_deallocuvm. Qed.

(** C29. [freevm] gives back everything an address space consists of: the
    directory, its page tables and the user pages nobody else references are
    afterwards on the free list (and nothing else is), the shared pages lose one reference
    and keep their contents. *)
Theorem freevm_correct s pd l :
  as_ok s pd l -> user_ok s pd -> cur_ok s -> tables_ok s pd ->
  wp (freevm (frame_addr pd)) (fun _ s' =>
    (exists freed, kmem_ok (km s') (freed ++ l) /\
       forall f, f ∈ freed <-> owns (mem s) pd f \/ (hit s pd 0 524288 f /\ ref_of s f = 1)) /\
    (forall f, hit s pd 0 524288 f -> ref_of s' f = ref_of s f - 1) /\
    (forall f, ~ hit s pd 0 524288 f -> ~ owns (mem s) pd f -> run_at (km s') f = run_at (km s) f) /\
    (forall f, ~ owns (mem s) pd f -> ~ (hit s pd 0 524288 f /\ ref_of s f = 1) ->
       same_frame (mem s) (mem s') f)) s.
Proof.
  intros Hok Hu Hc Ht. eapply wp_mono; [by apply wp_freevm|].
  intros [] s' [H1 H2 H3 H4 _ _]. done.
Qed.

(** [setupkvm] returns a new directory, built from frames of the free
    list, in which user space is empty and all of physical memory is mapped at
    [KERNBASE] with the kernel text read-only; or it returns 0 and all the frames it had taken
    are back on the free list. It cannot fail when more than 65 pages are free. *)
Theorem setupkvm_correct s l :
  kmem_unlocked s -> kmem_ok (km s) l -> cur_ok s \/ (65 < length l)%nat ->
  wp setupkvm (fun r s' =>
    (exists pd l', r = frame_addr pd /\ as_ok s' pd l' /\ tables_ok s' pd /\ no_user (mem s') pd /\
       (exists used, l = (pd :: used) ++ l' /\ untouched s s' (pd :: used)) /\
       forall va, KERNBASE <= va < KERNBASE + PHYSTOP ->
         PTE_ADDR (pte_val (mem s') pd va) = PGROUNDDOWN (V2P va) /\
         PTE_FLAGS (pte_val (mem s') pd va) =
           if decide (KERNLINK <= va < kdata) then PTE_P else Z.lor PTE_W PTE_P) \/
    (r = 0 /\ (length l <= 65)%nat /\
       exists l', kmem_ok (km s') l' /\ l' ≡ₚ l /\ untouched s s' l)) s.
Proof.
  intros Hu Hk Hc. eapply wp_mono; [by apply wp_setupkvm|].
  intros r s' [(pd & l' & -> & Hd)|(-> & Hl & l' & Hk' & Hp & Hun & _)]; [left|right].
  - exists pd, l'. split_and!; try apply Hd; try done.
    + by eapply fresh_no_user.
    + destruct (fd_list _ _ _ _ _ Hd) as (used & -> & _ & Hun). by exists used.
    + intros va Hva. rewrite (fd_view _ _ _ _ _ Hd). by apply kview_direct.
  - split_and!; [done|done|]. by exists l'.
Qed.

End Uvm.

(** ** Witnesses *)

(** The free list [lo], ..., [lo + n - 1]. *)
Definition free_runs (lo : Z) (n : nat) : gmap Z run :=
  list_to_map ((fun i => (i, mk_run (Some (i + 1)) 0)) <$> seqZ lo (Z.of_nat n - 1)).
Lemma free_runs_lookup lo n i :
  free_runs lo n !! i = if decide (lo <= i < lo + Z.of_nat n - 1) then Some (mk_run (Some (i + 1)) 0) else None.
Proof.
  unfold free_runs. destruct (decide (lo <= i < lo + Z.of_nat n - 1)) as [H|H].
  - apply elem_of_list_to_map.
    + rewrite <- list_fmap_compose. cbn. rewrite list_fmap_id. apply NoDup_seqZ.
    + apply list_elem_of_fmap. exists i. split; [done|]. apply elem_of_seqZ. lia.
  - apply not_elem_of_list_to_map. rewrite <- list_fmap_compose. cbn. rewrite list_fmap_id.
    rewrite elem_of_seqZ. lia.
Qed.
Lemma free_chain k lo n :
  (0 < n)%nat -> (forall i, lo <= i < lo + Z.of_nat n -> run_at k i = run_at (mk_kmem 0 None (free_runs lo n)) i) ->
  fl_chain k (Some lo) (seqZ lo (Z.of_nat n)).
Proof.
  intros Hn Hk. assert (forall j, (j < n)%nat -> fl_chain k (Some (lo + Z.of_nat (n - 1 - j)))
    (seqZ (lo + Z.of_nat (n - 1 - j)) (Z.of_nat (S j)))) as H.
  { intros j. induction j as [|j IH]; intros Hj; rewrite seqZ_cons by lia; cbn [fl_chain];
      (split; [done|]); rewrite Hk by lia; unfold run_at; cbn [runs]; rewrite free_runs_lookup.
    - rewrite decide_False by lia. replace (Z.pred (Z.of_nat 1)) with 0 by lia. done.
    - rewrite decide_True by lia. cbn [default run_next].
      replace (lo + Z.of_nat (n - 1 - S j) + 1) with (lo + Z.of_nat (n - 1 - j)) by lia.
      replace (Z.succ (lo + Z.of_nat (n - 1 - S j))) with (lo + Z.of_nat (n - 1 - j)) by lia.
      replace (Z.pred (Z.of_nat (S (S j)))) with (Z.of_nat (S j)) by lia. apply IH. lia. }
  specialize (H (n - 1)%nat ltac:(lia)). replace (n - 1 - (n - 1))%nat with 0%nat in H by lia.
  replace (S (n - 1)) with n in H by lia. by rewrite Z.add_0_r in H.
Qed.

(** 1200 free frames from 2000 on; the frames 1000, 1001 and 1005 are in
    use, 1005 with [r] references. *)
Definition demo_runs (r : Z) : kmem :=
  mk_kmem 1 (Some 2000) (<[1000 := mk_run None 1]> (<[1001 := mk_run None 1]> (<[1005 := mk_run None r]>
    (free_runs 2000 1200)))).
Lemma demo_runs_ok r : @kmem_ok xv6_image (demo_runs r) (seqZ 2000 1200).
Proof.
  assert (forall i, 2000 <= i < 3200 ->
    run_at (demo_runs r) i = run_at (mk_kmem 0 None (free_runs 2000 1200)) i) as H.
  { intros i Hi. unfold run_at, demo_runs. cbn [runs]. by rewrite !lookup_insert_ne by lia. }
  split.
  - by apply (free_chain _ 2000 1200); [lia|].
  - apply NoDup_seqZ.
  - apply Forall_forall. intros i Hi%elem_of_seqZ. apply user_frame_xv6. lia.
  - apply Forall_forall. intros i Hi%elem_of_seqZ. rewrite H by lia. unfold run_at. cbn [runs].
    rewrite free_runs_lookup. by case_decide.
Qed.

(** A process with pid 3 runs in the address space of [demo_dir], whose only
    user page is page 0 in frame 1005. *)
Definition demo_proc : proc := {| proc_zero with pid := 3; pgdir := frame_addr 1000; tf := 0x80300000 |}.
Definition demo_user (fl r : Z) : kstate :=
  {| demo_state with mem := demo_dir fl; procs := [demo_proc]; curproc := Some 0%nat; km := demo_runs r |}.

Lemma demo_user_as_ok fl r : @as_ok xv6_image (demo_user fl r) 1000 (seqZ 2000 1200).
Proof.
  split; [right; apply not_elem_of_nil|apply demo_runs_ok|apply demo_wf|].
  intros f Hf%elem_of_seqZ [->| ->]%demo_owns; lia.
Qed.
Lemma demo_present fl va :
  0 <= fl < 4096 -> present (demo_dir fl) 1000 va -> vpn va = 0 /\ uframe (demo_dir fl) 1000 va = 1005.
Proof.
  intros Hfl. unfold present, uframe. rewrite demo_pte. case_decide as E; [|done]. intros _. split; [done|].
  rewrite PTE_ADDR_eq. unfold PGSIZE. zlia.
Qed.
Lemma demo_user_ok fl r :
  0 <= fl < 4096 -> 1 <= r < 2147483648 -> @user_ok xv6_image (demo_user fl r) 1000.
Proof.
  intros Hfl Hr. split.
  - intros va _ Hp. destruct (demo_present fl va Hfl Hp) as [_ E]. cbn [mem demo_user]. rewrite E.
    split_and!; [apply user_frame_xv6; lia|by intros [?|?]%demo_owns|apply Hr|apply Hr].
  - intros va va' _ _ Hp Hp' _. destruct (demo_present fl va Hfl Hp), (demo_present fl va' Hfl Hp'). congruence.
Qed.
Lemma demo_cur_ok fl r : cur_ok (demo_user fl r).
Proof. exists demo_proc. done. Qed.
Lemma demo_tables_ok fl r : @tables_ok xv6_image (demo_user fl r) 1000.
Proof.
  intros f [->| ->]%demo_owns; (split; [apply user_frame_xv6; lia|reflexivity]).
Qed.

Lemma deallocuvm_correct_witness :
  wp (deallocuvm (KI := xv6_image) (frame_addr 1000) 8192 0) (fun r _ => r = 0) (demo_user 7 1).
Proof.
  eapply wp_mono; [apply (deallocuvm_correct (KI := xv6_image) _ 1000 _ 8192 0
    (demo_user_as_ok 7 1) (demo_user_ok 7 1 ltac:(lia) ltac:(lia)) (demo_cur_ok 7 1))|].
  - lia.
  - vm_compute. discriminate.
  - left. reflexivity.
  - intros r s' [H _]. exact H.
Defined.

Lemma freevm_correct_witness :
  wp (freevm (KI := xv6_image) (frame_addr 1000)) (fun _ s' =>
    exists freed, kmem_ok (KI := xv6_image) (km s') (freed ++ seqZ 2000 1200)) (demo_user 7 1).
Proof.
  eapply wp_mono; [apply (freevm_correct (KI := xv6_image) _ 1000 _ (demo_user_as_ok 7 1)
    (demo_user_ok 7 1 ltac:(lia) ltac:(lia)) (demo_cur_ok 7 1) (demo_tables_ok 7 1))|].
  intros r s' ((freed & H & _) & _). exists freed. exact H.
Defined.

Lemma setupkvm_correct_witness :
  wp (setupkvm (KI := xv6_image)) (fun r _ => r ≠ 0) (demo_user 7 1).
Proof.
  eapply wp_mono; [apply (setupkvm_correct (KI := xv6_image) (demo_user 7 1) (seqZ 2000 1200))|].
  - apply (demo_user_as_ok 7 1).
  - apply demo_runs_ok.
  - right. rewrite length_seqZ. lia.
  - intros r s' [(pd & l' & -> & H & _)|(_ & H & _)].
    + apply frame_addr_nz. apply H.
    + exfalso. rewrite length_seqZ in H. lia.
Defined.
