(* ===== verification/Cow.v ===== *)
(** Copying address spaces (vm.c): the copy-on-write duplication [cowuvm]
    that [fork] uses, the resolution of copy-on-write faults
    ([handle_cow_pagefault]) and the eager [copyuvm]. *)

From S2P Require Import Prelude Mmu Memory Machine Kalloc PageTable Uvm.
From stdpp Require Import base gmap list strings.
From Stdlib Require Import ZArith Lia.
Open Scope Z_scope.

Section Cow.
Context {KI : KernelImage}.

(** ** Operations *)

(** [*pte op= ...] *)
Definition update_pte (pte : Z) (f : Z -> Z) : M kstate unit := v ← ld32 pte; st32 pte (f v).

(** The loop of [cowuvm]; [invlpg] only concerns cached translations. The
    result is whether the copy is complete. *)
Fixpoint cowuvm_loop (pgdir d i sz : Z) (fuel : nat) : M kstate bool :=
  if i <? sz then
    match fuel with
    | O => diverge
    | S fuel' =>
        pte ← walkpgdir pgdir i false;
        if pte =? 0 then panic "cowuvm: no pte" else
        v ← ld32 pte;
        if negb (has v PTE_P) && negb (has v PTE_PG)
        then panic "cowuvm: page not present and not page faulted!" else
        if has v PTE_PG then
          pte ← walkpgdir d i true;
          st32 pte (Z.lor (Z.lor PTE_U PTE_W) PTE_PG) ;;
          cowuvm_loop pgdir d (u32 (i + PGSIZE)) sz fuel'
        else
          update_pte pte (fun v => Z.lor v PTE_COW) ;;
          update_pte pte (fun v => clr v PTE_W) ;;
          v ← ld32 pte;
          let pa := PTE_ADDR v in
          let flags := PTE_FLAGS v in
          r ← mappages d i PGSIZE pa flags;
          if r <? 0 then mret false else
          refInc (P2V pa) ;;
          cowuvm_loop pgdir d (u32 (i + PGSIZE)) sz fuel'
    end
  else mret true.
Definition cowuvm (pgdir sz : Z) : M kstate Z :=
  d ← setupkvm;
  if d =? 0 then mret 0 else
  ok ← cowuvm_loop pgdir d 0 sz (Z.to_nat (sz / PGSIZE + 1));
  if (ok : bool) then lcr3 (V2P pgdir) ;; mret d
  else freevm d ;; lcr3 (V2P pgdir) ;; mret 0.

(** The loop of [copyuvm] for the two ways the kernel is compiled. Without
    page replacement a page that could not be mapped is freed again. *)
Fixpoint copyuvm_loop (selection : selection_policy) (pgdir d i sz : Z) (fuel : nat) : M kstate bool :=
  if i <? sz then
    match fuel with
    | O => diverge
    | S fuel' =>
        pte ← walkpgdir pgdir i false;
        if pte =? 0 then panic "copyuvm: pte should exist" else
        v ← ld32 pte;
        let paging := negb (bool_decide (selection = NONE)) in
        if paging && negb (has v PTE_P) && negb (has v PTE_PG)
        then panic "copyuvm: page not present and also not paged out to disk" else
        if negb paging && negb (has v PTE_P) then panic "copyuvm: page not present" else
        if paging && has v PTE_PG then
          pte ← walkpgdir d i true;
          st32 pte (Z.lor (Z.lor PTE_U PTE_W) PTE_PG) ;;
          copyuvm_loop selection pgdir d (u32 (i + PGSIZE)) sz fuel'
        else
          let pa := PTE_ADDR v in
          let flags := PTE_FLAGS v in
          mem ← kalloc;
          if mem =? 0 then mret false else
          set_mem (fun m => memmove m mem (P2V pa) PGSIZE) ;;
          r ← mappages d i PGSIZE (V2P mem) flags;
          if r <? 0 then when (negb paging) (kfree mem) ;; mret false else
          copyuvm_loop selection pgdir d (u32 (i + PGSIZE)) sz fuel'
    end
  else mret true.
Definition copyuvm (selection : selection_policy) (pgdir sz : Z) : M kstate Z :=
  d ← setupkvm;
  if d =? 0 then mret 0 else
  ok ← copyuvm_loop selection pgdir d 0 sz (Z.to_nat (sz / PGSIZE + 1));
  if (ok : bool) then mret d else freevm d ;; mret 0.

(** [offsetof(struct trapframe, err)] *)
Definition TF_err : Z := 52.

(** [va] is only used to invalidate the cached translation. The new page is
    used without testing the result of [kalloc]. *)
Definition handle_cow_pagefault (pte va : Z) : M kstate unit :=
  p ← cur;
  err ← ldf (tf p) TF_err;
  if has err FEC_WR then
    v ← ld32 pte;
    if negb (has v PTE_COW) then set_cur (fun p => {| p with killed := 1 |})
    else
      let pa := PTE_ADDR v in
      let virt_addr := P2V pa in
      let flags := PTE_FLAGS v in
      ref_count ← getRefs virt_addr;
      if 1 <? ref_count then
        new_page ← kalloc;
        if new_page =? 0 then ub else
        set_mem (fun m => memmove m new_page virt_addr PGSIZE) ;;
        st32 pte (Z.lor (Z.lor (Z.lor (V2P new_page) flags) PTE_P) PTE_W) ;;
        refDec virt_addr
      else
        update_pte pte (fun v => Z.lor v PTE_W) ;;
        update_pte pte (fun v => clr v PTE_COW)
  else set_cur (fun p => {| p with killed := 1 |}).

(** ** Abstract entries *)

(** What [cowuvm] makes of the parent's entry [v] and the child's entry for
    the same page. *)
Definition cow_parent (v : Z) : Z := if has v PTE_PG then v else clr (Z.lor v PTE_COW) PTE_W.
Definition cow_child (v : Z) : Z :=
  if has v PTE_PG then Z.lor (Z.lor PTE_U PTE_W) PTE_PG else cow_parent v.

Lemma cow_entry_facts v :
  0 <= v < W32 -> let v' := clr (Z.lor v PTE_COW) PTE_W in
  0 <= v' < W32 /\ PTE_ADDR v' = PTE_ADDR v /\ has v' PTE_P = has v PTE_P /\
  has v' PTE_W = false /\ has v' PTE_COW = true /\ has v' PTE_PG = has v PTE_PG /\
  has v' PTE_U = has v PTE_U.
Proof.
  intros Hv v'. assert (0 <= Z.lor v PTE_COW < W32) as H1 by (apply lor_u32; [done|unfold PTE_COW, W32; lia]).
  pose proof (clr_bounds (Z.lor v PTE_COW) PTE_W (proj1 H1)) as H2. subst v'.
  split_and!; try lia.
  - rewrite PTE_ADDR_clr_flags, PTE_ADDR_lor_flags; done.
  - rewrite has_clr, has_lor by auto with pte. cbn. by rewrite orb_false_r, andb_true_r.
  - rewrite has_clr, has_lor by auto with pte. cbn. by rewrite andb_false_r.
  - rewrite has_clr, has_lor by auto with pte. cbn. by rewrite orb_true_r.
  - rewrite has_clr, has_lor by auto with pte. cbn. by rewrite orb_false_r, andb_true_r.
  - rewrite has_clr, has_lor by auto with pte. cbn. by rewrite orb_false_r, andb_true_r.
Qed.

(** An entry is its address and its flags. *)
Lemma pte_split v : 0 <= v < W32 -> Z.lor (PTE_ADDR v) (PTE_FLAGS v) = v.
Proof.
  intros Hv. rewrite lor_page.
  - rewrite PTE_ADDR_eq, PTE_FLAGS_eq, (u32_small v) by done. lia.
  - apply PTE_ADDR_aligned.
  - rewrite PTE_FLAGS_eq. zlia.
Qed.
Lemma lor_has v f : is_flag f -> has v f = true -> Z.lor v f = v.
Proof.
  intros (n & Hn & ->). rewrite has_pow2 by lia. intros H. apply Z.bits_inj'. intros m Hm.
  rewrite Z.lor_spec, Z.pow2_bits_eqb by lia. destruct (Z.eqb_spec n m) as [<-|].
  - by rewrite H.
  - by rewrite orb_false_r.
Qed.

(** ** Duplicating an address space *)

Lemma owns_length m pd used :
  NoDup used -> (forall f, f ∈ used -> owns m pd f) -> (length used <= 1025)%nat.
Proof.
  intros Hnd Ho.
  assert (used ⊆+ pd :: omap (tbl m pd) (seqZ 0 1024)) as Hs.
  { apply NoDup_submseteq; [done|]. intros f Hf. apply elem_of_cons.
    destruct (Ho f Hf) as [->|(i & Hi & Ht)]; [by left|right].
    apply list_elem_of_omap. exists i. split; [apply elem_of_seqZ; lia|done]. }
  apply submseteq_length in Hs. pose proof (omap_length_le (tbl m pd) (seqZ 0 1024)) as Hle.
  rewrite length_seqZ in Hle. cbn [length] in Hs. lia.
Qed.

(** The invariant of the loop after [k] pages: [s0] is the state before the
    copy, with free list [l0]; [pd] is the parent's and [d] the child's
    directory. *)
Record cow_inv (pd d k : Z) (s0 s : kstate) (l0 l : list Z) : Prop := {
  ci_p : as_ok s pd l;
  ci_d : as_ok s d l;
  ci_dt : tables_ok s d;
  ci_free : exists used, l0 = used ++ l /\ forall f, owns (mem s) d f <-> f ∈ used;
  ci_ptbl : forall i, 0 <= i < 1024 -> tbl (mem s) pd i = tbl (mem s0) pd i;
  ci_pview : forall va, pte_val (mem s) pd va =
    if decide (vpn va < k) then cow_parent (pte_val (mem s0) pd va) else pte_val (mem s0) pd va;
  ci_dview : forall va, pte_val (mem s) d va =
    if decide (vpn va < k) then cow_child (pte_val (mem s0) pd va) else kview va;
  ci_hit : forall f, hit s0 pd 0 k f -> ref_of s f = ref_of s0 f + 1;
  ci_nohit : forall f, f ∉ l0 -> ~ hit s0 pd 0 k f -> ref_of s f = ref_of s0 f;
  ci_mem : forall f, f ∉ l0 -> ~ owns (mem s0) pd f -> 0 <= f < MAXPAGES -> same_frame (mem s0) (mem s) f;
  ci_lock : use_lock (km s) = use_lock (km s0);
  ci_state : s = {| s0 with mem := mem s; km := km s |}
}.

Section CowLoop.
Context (pd : Z) (s0 : kstate) (l0 : list Z).
Hypothesis p_ok : as_ok s0 pd l0.
Hypothesis p_user : user_ok s0 pd.

Lemma parent_not_free f : owns (mem s0) pd f -> f ∉ l0.
Proof. intros Hf Hin. by apply (ok_free _ _ _ p_ok f Hin). Qed.
Lemma user_not_free va :
  0 <= va < KERNBASE -> present (mem s0) pd va -> uframe (mem s0) pd va ∉ l0.
Proof.
  intros Hva Hp. eapply in_free_ref; [apply p_ok|]. by apply (uo_frame _ _ p_user va).
Qed.

(** A fresh directory beside the parent's. *)
Lemma cow_inv_start s d l : fresh_dir s0 s l0 d l -> cow_inv pd d 0 s0 s l0 l.
Proof.
  intros Hd. destruct (fd_list _ _ _ _ _ Hd) as (used & El & Hown & Hun).
  assert (forall f, f ∉ l0 -> f ∉ d :: used) as Hn.
  { intros f Hf Hin. apply Hf. rewrite El. apply elem_of_app. by left. }
  destruct (pt_frame (mem s0) (mem s) pd (ok_wf _ _ _ p_ok)) as (Hw & Htbl & Hv).
  { intros f Hf. apply Hun; [by apply Hn, parent_not_free|].
    destruct Hf as [->|(i & Hi & Ht)]; [apply p_ok|]. by apply (wf_tbl _ _ (ok_wf _ _ _ p_ok) i). }
  split; try apply Hd.
  - split; [apply Hd|apply Hd|done|]. intros f Hf Ho.
    apply (owns_frame (mem s0) (mem s)) in Ho; [|done].
    apply (ok_free _ _ _ p_ok f); [|done]. rewrite El. apply elem_of_app. by right.
  - exists (d :: used). split; [done|]. intros f. by rewrite Hown, elem_of_cons.
  - done.
  - intros va. rewrite Hv. rewrite decide_False; [done|]. unfold vpn. pose proof (u32_range va). zlia.
  - intros va. rewrite (fd_view _ _ _ _ _ Hd). rewrite decide_False; [done|].
    unfold vpn. pose proof (u32_range va). zlia.
  - intros f (va & _ & Hv0 & _). lia.
  - intros f Hf _. unfold ref_of. by rewrite (proj1 (Hun f (Hn f Hf))).
  - intros f Hf _ Hr. by apply (Hun f (Hn f Hf)).
Qed.

(** The frames of the two directories are distinct, and the parent's user
    pages are not part of the child's directory. *)
Lemma cow_inv_sep d k s l f : cow_inv pd d k s0 s l0 l -> f ∉ l0 -> ~ owns (mem s) d f.
Proof.
  intros Hi Hf Ho. destruct (ci_free _ _ _ _ _ _ _ Hi) as (used & El & Hown).
  apply Hf. rewrite El. apply elem_of_app. left. by apply Hown.
Qed.

Lemma cow_inv_room d k s l :
  cow_inv pd d k s0 s l0 l -> (1025 < length l0)%nat -> l ≠ [].
Proof.
  intros Hi Hl ->. destruct (ci_free _ _ _ _ _ _ _ Hi) as (used & El & Hown).
  rewrite app_nil_r in El. subst used.
  pose proof (owns_length (mem s) d l0) as H. pose proof (ko_nodup _ _ (ok_kmem _ _ _ p_ok)).
  assert (length l0 <= 1025)%nat; [|lia]. apply H; [done|]. intros f. by rewrite Hown.
Qed.

Lemma hit_succ k f :
  0 <= k < 524288 ->
  hit s0 pd 0 (k + 1) f <->
  hit s0 pd 0 k f \/ (present (mem s0) pd (k * PGSIZE) /\ f = uframe (mem s0) pd (k * PGSIZE)).
Proof.
  intros Hk. rewrite (hit_split s0 pd 0 k (k + 1)) by lia.
  assert (hit s0 pd k (k + 1) f <-> present (mem s0) pd (k * PGSIZE) /\ f = uframe (mem s0) pd (k * PGSIZE)) as ->.
  2: done.
  assert (vpn (k * PGSIZE) = k) as Ek by (apply vpn_page; lia). split.
  - intros (va & Hva & Hv & Hp & <-). unfold present, uframe in *.
    rewrite (pte_val_vpn _ _ (k * PGSIZE) va) by lia. done.
  - intros [Hp ->]. exists (k * PGSIZE). split_and!; try done; unfold PGSIZE, KERNBASE in *; lia.
Qed.

(** One more page done, in terms of what the step changed. *)
Lemma cow_inv_next d k s s' l l' used :
  0 <= k < 524288 -> cow_inv pd d k s0 s l0 l -> l = used ++ l' ->
  as_ok s' pd l' -> as_ok s' d l' -> tables_ok s' d ->
  (forall f, owns (mem s') d f <-> owns (mem s) d f \/ f ∈ used) ->
  (forall i, 0 <= i < 1024 -> tbl (mem s') pd i = tbl (mem s) pd i) ->
  (forall va, pte_val (mem s') pd va =
     if decide (vpn va = k) then cow_parent (pte_val (mem s0) pd va) else pte_val (mem s) pd va) ->
  (forall va, pte_val (mem s') d va =
     if decide (vpn va = k) then cow_child (pte_val (mem s0) pd va) else pte_val (mem s) d va) ->
  (forall f, f ∉ l0 -> ref_of s' f = ref_of s f +
     if has (pte_val (mem s0) pd (k * PGSIZE)) PTE_P && (f =? uframe (mem s0) pd (k * PGSIZE)) then 1 else 0) ->
  (forall f, f ∉ l0 -> ~ owns (mem s0) pd f -> 0 <= f < MAXPAGES -> same_frame (mem s) (mem s') f) ->
  use_lock (km s') = use_lock (km s) -> s' = {| s with mem := mem s'; km := km s' |} ->
  cow_inv pd d (k + 1) s0 s' l0 l'.
Proof.
  intros Hk [I1 I2 I3 (u & El & Hown) I5 I6 I7 I8 I9 I10 I11 I12] -> Hp Hd Hdt Ho Ht Hpv Hdv Hr Hm Hlk Hst.
  split; try done.
  - exists (u ++ used). split; [by rewrite <- app_assoc|]. intros f. by rewrite Ho, Hown, elem_of_app.
  - intros i Hi. rewrite Ht, I5; done.
  - intros va. rewrite Hpv, I6. repeat case_decide; try lia; done.
  - intros va. rewrite Hdv, I7. repeat case_decide; try lia; done.
  - intros f Hh. assert (f ∉ l0) as Hf.
    { destruct Hh as (va & Hva & _ & Hpr & <-). by apply user_not_free. }
    rewrite Hr by done. apply hit_succ in Hh as [Hh|[Hpr ->]]; [|..|done].
    + rewrite (I8 f Hh). rewrite (proj2 (andb_false_iff _ _)); [lia|].
      destruct (has (pte_val (mem s0) pd (k * PGSIZE)) PTE_P) eqn:E; [right|by left].
      apply Z.eqb_neq. intros ->. destruct (hit_disjoint s0 pd 0 k (k + 1) _ p_user Hh).
      exists (k * PGSIZE). rewrite vpn_page by lia. unfold PGSIZE, KERNBASE. split_and!; try lia; done.
    + rewrite (I9 _ Hf). { unfold present in Hpr. rewrite Hpr, Z.eqb_refl. done. }
      intros Hh. destruct (hit_disjoint s0 pd 0 k (k + 1) _ p_user Hh).
      exists (k * PGSIZE). rewrite vpn_page by lia. unfold PGSIZE, KERNBASE. split_and!; try lia; done.
  - intros f Hf Hh. rewrite hit_succ in Hh by done. rewrite Hr, (I9 f Hf) by auto.
    rewrite (proj2 (andb_false_iff _ _)); [lia|].
    destruct (has (pte_val (mem s0) pd (k * PGSIZE)) PTE_P) eqn:E; [right|by left].
    apply Z.eqb_neq. intros ->. apply Hh. by right.
  - intros f Hf Hnf Hrg. eapply same_frame_trans; [by apply I10|by apply Hm].
  - congruence.
  - rewrite Hst, I12. done.
Qed.

(** A store into a frame outside a directory does not concern it. *)
Lemma as_ok_store s dd l f o v :
  as_ok s dd l -> ~ owns (mem s) dd f -> 0 <= o <= 4092 ->
  let s' := {| s with mem := store32 (mem s) (frame_addr f + o) v |} in
  as_ok s' dd l /\ (forall g, owns (mem s') dd g <-> owns (mem s) dd g) /\
  (forall va, pte_val (mem s') dd va = pte_val (mem s) dd va).
Proof.
  intros [Hu Hk Hw Hf] Hno Ho s'.
  destruct (pt_frame (mem s) (mem s') dd Hw) as (Hw' & Ht & Hv).
  { intros g Hg. apply same_frame_store32; [|done]. intros ->. done. }
  assert (forall g, owns (mem s') dd g <-> owns (mem s) dd g) as Hown by (intros; by apply owns_frame).
  split_and!; try done. split; try done. intros g Hg. rewrite Hown. auto.
Qed.

(** The same for the growth of another directory. *)
Lemma as_ok_other s s' dd d used l' l :
  as_ok s dd l -> l = used ++ l' -> pt_ext d s s' used l' ->
  (forall f, owns (mem s) dd f -> ~ owns (mem s') d f) ->
  as_ok s' dd l' /\ (forall i, 0 <= i < 1024 -> tbl (mem s') dd i = tbl (mem s) dd i) /\
  (forall va, pte_val (mem s') dd va = pte_val (mem s) dd va).
Proof.
  intros [Hu Hk Hw Hf] -> Hx Hsep.
  destruct (pt_frame (mem s) (mem s') dd Hw) as (Hw' & Ht & Hv).
  { intros g Hg. apply (px_mem _ _ _ _ _ Hx); [by apply Hsep|].
    destruct Hg as [->|(i & Hi & Hti)]; [apply Hw|]. by apply (wf_tbl _ _ Hw i). }
  split_and!; try done. pose proof (px_ok _ _ _ _ _ Hx) as [Hu' Hk' _ _]. split; try done.
  intros g Hg. rewrite (owns_frame (mem s)) by done. apply Hf, elem_of_app. by right.
Qed.

Lemma tables_ok_ext s s' d used l l' :
  as_ok s d l -> tables_ok s d -> l = used ++ l' -> pt_ext d s s' used l' -> tables_ok s' d.
Proof.
  intros Hok Ht -> Hx f Hf. destruct (decide (f ∈ used)) as [Hu|Hu].
  - split; [|by apply (px_ref1 _ _ _ _ _ Hx)].
    pose proof (ko_range _ _ (ok_kmem _ _ _ Hok)) as Hr. rewrite Forall_forall in Hr.
    apply Hr, elem_of_app. by left.
  - destruct (px_new _ _ _ _ _ Hx f Hf) as [Ho|]; [|done].
    unfold ref_of. rewrite (px_ref _ _ _ _ _ Hx) by done. by apply Ht.
Qed.

Lemma as_ok_ref s dd l f r :
  as_ok s dd l -> f ∉ l -> as_ok {| s with km := set_run f r (km s) |} dd l.
Proof.
  intros [Hu Hk Hw Hf] Hfl. split; try done. by apply kmem_ok_set.
Qed.

(** The parent's entry for [va] became read-only and copy-on-write. *)
Record marked (d va : Z) (s s2 : kstate) (l : list Z) : Prop := {
  mk_p : as_ok s2 pd l;
  mk_d : as_ok s2 d l;
  mk_ptbl : forall i, 0 <= i < 1024 -> tbl (mem s2) pd i = tbl (mem s) pd i;
  mk_pview : forall va', pte_val (mem s2) pd va' =
    if decide (vpn va = vpn va') then clr (Z.lor (pte_val (mem s) pd va) PTE_COW) PTE_W
    else pte_val (mem s) pd va';
  mk_down : forall f, owns (mem s2) d f <-> owns (mem s) d f;
  mk_dview : forall va', pte_val (mem s2) d va' = pte_val (mem s) d va';
  mk_mem : forall f, ~ owns (mem s) pd f -> same_frame (mem s) (mem s2) f;
  mk_state : s2 = {| s with mem := mem s2 |}
}.

(** The parent's entry becomes read-only and copy-on-write. *)
Lemma wp_cow_mark {A} d k s l va t (K : M kstate A) Q :
  cow_inv pd d k s0 s l0 l -> tbl (mem s) pd (PDX va) = Some t ->
  (forall s2, marked d va s s2 l -> wp K Q s2) ->
  wp (update_pte (frame_addr t + 4 * PTX va) (fun v => Z.lor v PTE_COW) ;;
      update_pte (frame_addr t + 4 * PTX va) (fun v => clr v PTE_W) ;; K) Q s.
Proof.
  intros Hi Ht HQ. pose proof (ci_p _ _ _ _ _ _ _ Hi) as Hp. pose proof (ok_wf _ _ _ Hp) as Hw.
  destruct (wf_tbl _ _ Hw _ _ (PDX_range va) Ht) as [Htr _]. pose proof (PTX_range va).
  assert (frame_addr t + 4 * PTX va ≠ 0) as Hnz by (unfold frame_addr, KERNBASE, PGSIZE; lia).
  pose proof (pte_val_range (mem s) pd va) as Hvr.
  set (v := pte_val (mem s) pd va) in *.
  assert (load32 (mem s) (frame_addr t + 4 * PTX va) = v) as Hv by (unfold v, pte_val; by rewrite Ht).
  assert (t ∉ l0) as Htl.
  { apply parent_not_free. right. exists (PDX va). split; [apply PDX_range|].
    by rewrite <- (ci_ptbl _ _ _ _ _ _ _ Hi) by apply PDX_range. }
  assert (0 <= Z.lor v PTE_COW < W32) as Hor by (apply lor_u32; [done|unfold PTE_COW, W32; lia]).
  unfold update_pte. rewrite !wp_bind, wp_ld32, Hv, wp_st32 by done.
  set (s1 := {| s with mem := _ |}).
  rewrite !wp_bind, wp_ld32, wp_st32 by done.
  assert (load32 (mem s1) (frame_addr t + 4 * PTX va) = Z.lor v PTE_COW) as ->.
  { cbn. rewrite load32_store32_eq. by apply u32_small. }
  pose proof (pt_ext_store pd s l t va (Z.lor v PTE_COW) Hp Ht) as Hx1. fold s1 in Hx1.
  destruct (pte_val_store (mem s) pd va t (Z.lor v PTE_COW) Hw Ht) as (Hw1 & Htbl1 & Hv1).
  assert (tbl (mem s1) pd (PDX va) = Some t) as Ht1 by (cbn; by rewrite Htbl1 by apply PDX_range).
  destruct (pte_val_store (mem s1) pd va t (clr (Z.lor v PTE_COW) PTE_W) Hw1 Ht1) as (Hw2 & Htbl2 & Hv2).
  destruct (as_ok_store s d l t (4 * PTX va) (Z.lor v PTE_COW) (ci_d _ _ _ _ _ _ _ Hi)) as (D1 & D2 & D3);
    [by eapply cow_inv_sep|lia|]. fold s1 in D1, D2, D3.
  destruct (as_ok_store s1 d l t (4 * PTX va) (clr (Z.lor v PTE_COW) PTE_W) D1) as (E1 & E2 & E3);
    [rewrite D2; by eapply cow_inv_sep|lia|].
  apply HQ. split.
  - apply (pt_ext_store pd s1 l t va (clr (Z.lor v PTE_COW) PTE_W)); [apply Hx1|done].
  - exact E1.
  - intros i Hii. cbn. rewrite Htbl2, Htbl1; done.
  - intros va'. cbn. rewrite Hv2, Hv1. case_decide; [|done].
    fold v. apply u32_small. pose proof (clr_bounds (Z.lor v PTE_COW) PTE_W (proj1 Hor)). lia.
  - intros f. by rewrite E2, D2.
  - intros va'. by rewrite E3, D3.
  - intros f Hf. assert (f ≠ t).
    { intros ->. apply Hf. right. exists (PDX va). split; [apply PDX_range|done]. }
    eapply same_frame_trans; apply same_frame_store32; done || lia.
  - done.
Qed.

Context (d : Z).

Lemma grow_room k s s2 s3 l l' u :
  cow_inv pd d k s0 s l0 l -> (1025 < length l0)%nat ->
  (forall f, owns (mem s2) d f <-> owns (mem s) d f) ->
  l = u ++ l' -> pt_ext d s2 s3 u l' -> l' ≠ [].
Proof.
  intros Hi Hl Hown -> Hx ->. destruct (ci_free _ _ _ _ _ _ _ Hi) as (used & El & Hu).
  assert (length l0 <= 1025)%nat; [|lia].
  apply (owns_length (mem s3) d); [apply (ok_kmem _ _ _ p_ok)|]. intros f Hf. rewrite El, app_nil_r in Hf.
  apply elem_of_app in Hf as [Hf|Hf]; [|by apply (px_used _ _ _ _ _ Hx)].
  eapply px_owns; [done|]. by apply Hown, Hu.
Qed.

(** Frames that were not free do not become part of the child's directory. *)
Lemma grow_sep k s s2 s3 l l' u f :
  cow_inv pd d k s0 s l0 l -> (forall f, owns (mem s2) d f <-> owns (mem s) d f) ->
  l = u ++ l' -> pt_ext d s2 s3 u l' -> f ∉ l0 -> ~ owns (mem s3) d f.
Proof.
  intros Hi Hown -> Hx Hf Ho. destruct (px_new _ _ _ _ _ Hx f Ho) as [H|H].
  - apply Hown in H. by eapply cow_inv_sep in H.
  - destruct (ci_free _ _ _ _ _ _ _ Hi) as (used & El & _). apply Hf. rewrite El.
    apply elem_of_app. right. apply elem_of_app. by left.
Qed.

Lemma parent_owned_not_free k s l f : cow_inv pd d k s0 s l0 l -> owns (mem s) pd f -> f ∉ l0.
Proof.
  intros Hi Hf. apply parent_not_free. apply (owns_frame (mem s0) (mem s)); [|done].
  apply (ci_ptbl _ _ _ _ _ _ _ Hi).
Qed.

(** An entry with the present bit, mapped by its address and its flags. *)
Lemma abs_map_self t va va' v : 0 <= v < W32 -> has v PTE_P = true -> vpn va' = vpn va ->
  abs_map t va (PTE_ADDR v) (PTE_FLAGS v) 1 va' = v.
Proof.
  intros Hv HP E. unfold abs_map. rewrite E, Z.sub_diag, Z.mul_0_l, Z.add_0_r. cbn [Z.leb Z.ltb Z.compare andb].
  rewrite (u32_small (PTE_ADDR v)) by (rewrite PTE_ADDR_eq; zlia). rewrite pte_split by done.
  rewrite lor_has; [by apply u32_small|auto with pte|done].
Qed.

(** Frames that were not free keep their counts when the child's tables grow. *)
Lemma cow_grow_run k va s s2 s3 l l' u g :
  cow_inv pd d k s0 s l0 l -> marked d va s s2 l -> l = u ++ l' -> pt_ext d s2 s3 u l' ->
  g ∉ l0 -> run_at (km s3) g = run_at (km s) g /\ g ∉ l'.
Proof.
  intros Hi Hm El Hx Hg. destruct (ci_free _ _ _ _ _ _ _ Hi) as (used & El0 & _). rewrite El0, El, !not_elem_of_app in Hg.
  split; [|tauto]. rewrite (px_ref _ _ _ _ _ Hx) by tauto. by rewrite (mk_state _ _ _ _ _ Hm).
Qed.

(** The child's entry for page [k] was mapped to the parent's frame and the
    frame has one more reference. *)
Lemma cow_shared_next k s s2 s3 l l' u nx :
  cow_inv pd d k s0 s l0 l -> 0 <= k < 524288 ->
  let va := k * PGSIZE in let v := pte_val (mem s0) pd va in
  let f := uframe (mem s0) pd va in let v' := clr (Z.lor v PTE_COW) PTE_W in
  has v PTE_P = true -> has v PTE_PG = false ->
  marked d va s s2 l -> l = u ++ l' -> pt_ext d s2 s3 u l' ->
  (forall va', pte_val (mem s3) d va' =
     abs_map (pte_val (mem s2) d) va (PTE_ADDR v') (PTE_FLAGS v') 1 va') ->
  cow_inv pd d (k + 1) s0 {| s3 with km := set_run f (mk_run nx (ref_of s3 f + 1)) (km s3) |} l0 l'.
Proof.
  intros Hi Hk va v f v' HP HPG Hm El Hx Hv3.
  assert (vpn va = k) as Ek by (apply vpn_page; lia).
  assert (0 <= va < KERNBASE) as Hva by (unfold va, PGSIZE, KERNBASE; lia).
  assert (f ∉ l0) as Hfl by (by apply user_not_free).
  pose proof (fun g => cow_grow_run k va s s2 s3 l l' u g Hi Hm El Hx) as Hrun.
  assert (f ∉ l') as Hfl' by (by apply Hrun).
  assert (forall va', vpn va' = k -> pte_val (mem s0) pd va' = v) as Hvk.
  { intros va' E. unfold v. apply pte_val_vpn. lia. }
  pose proof (pte_val_range (mem s0) pd va) as Hvr. fold v in Hvr.
  destruct (cow_entry_facts v Hvr) as (Hv'r & _ & Hv'P & _). fold v' in Hv'r, Hv'P.
  destruct (as_ok_other s2 s3 pd d u l' l (mk_p _ _ _ _ _ Hm) El Hx) as (P3 & T3 & V3).
  { intros g Hg. eapply grow_sep; [done|apply Hm|done|done|]. eapply parent_owned_not_free; [done|].
    apply (owns_frame (mem s) (mem s2)); [apply Hm|done]. }
  assert (forall g, owns (mem s3) d g <-> owns (mem s) d g \/ g ∈ u) as Hown3.
  { intros g. rewrite <- (mk_down _ _ _ _ _ Hm). split; [by apply (px_new _ _ _ _ _ Hx)|].
    intros [Hg|Hg]; [by eapply px_owns|by apply (px_used _ _ _ _ _ Hx)]. }
  apply (cow_inv_next d k s _ l l' u); try done.
  - by apply as_ok_ref.
  - apply as_ok_ref; [apply Hx|done].
  - intros g Hg. cbn in Hg. assert (tables_ok s3 d) as Ht3.
    { eapply (tables_ok_ext s2); [apply Hm| |done|done]. intros h Hh%(mk_down _ _ _ _ _ Hm).
      rewrite (mk_state _ _ _ _ _ Hm). by apply (ci_dt _ _ _ _ _ _ _ Hi). }
    destruct (Ht3 g Hg) as [G1 G2]. split; [done|]. unfold ref_of. cbn. rewrite run_at_set_ne; [exact G2|].
    intros <-. eapply grow_sep in Hg; [done|done|apply Hm|done|done|done].
  - intros i Hi'. cbn. rewrite T3, (mk_ptbl _ _ _ _ _ Hm); done.
  - intros va'. cbn. rewrite V3, (mk_pview _ _ _ _ _ Hm), Ek.
    assert (pte_val (mem s) pd va = v) as ->.
    { rewrite (ci_pview _ _ _ _ _ _ _ Hi), Ek. by rewrite decide_False by lia. }
    destruct (decide (vpn va' = k)) as [E|E]; [rewrite decide_True by done|by rewrite decide_False by congruence].
    rewrite (Hvk va' E). unfold cow_parent. by rewrite HPG.
  - intros va'. cbn. rewrite Hv3. destruct (decide (vpn va' = k)) as [E|E].
    + rewrite (Hvk va' E). unfold cow_child, cow_parent. rewrite HPG. fold v'. apply abs_map_self; [done|congruence|congruence].
    + rewrite abs_map_outside by lia. apply (mk_dview _ _ _ _ _ Hm).
  - intros g Hg. fold va v f. rewrite HP. cbn [andb]. unfold ref_of at 1. cbn. rewrite run_at_set.
    case_decide as E; [subst g; rewrite Z.eqb_refl; cbn; unfold ref_of; by rewrite (proj1 (Hrun f Hfl))|].
    rewrite (proj2 (Z.eqb_neq g f)) by congruence. unfold ref_of. rewrite (proj1 (Hrun g Hg)). lia.
  - intros g Hg Hno Hr. assert (~ owns (mem s) pd g) as Hno'.
    { rewrite (owns_frame (mem s0)); [done|]. apply (ci_ptbl _ _ _ _ _ _ _ Hi). }
    eapply same_frame_trans; [by apply (mk_mem _ _ _ _ _ Hm)|]. apply (px_mem _ _ _ _ _ Hx); [|done].
    eapply grow_sep; [done|apply Hm|done|done|done].
  - cbn. rewrite (px_lock _ _ _ _ _ Hx). by rewrite (mk_state _ _ _ _ _ Hm).
  - rewrite (px_state _ _ _ _ _ Hx). cbn. by rewrite (mk_state _ _ _ _ _ Hm).
Qed.

(** The page [k] of the parent is present: it is shared with the child. *)
Lemma wp_cow_shared k s l t (K : M kstate bool) Q :
  cow_inv pd d k s0 s l0 l -> 0 <= k < 524288 -> (1025 < length l0)%nat ->
  let va := k * PGSIZE in let v := pte_val (mem s0) pd va in
  tbl (mem s) pd (PDX va) = Some t -> has v PTE_P = true -> has v PTE_PG = false ->
  ref_of s0 (uframe (mem s0) pd va) + 1 < 2147483648 ->
  (forall s' l', cow_inv pd d (k + 1) s0 s' l0 l' -> wp K Q s') ->
  wp (let pte := frame_addr t + 4 * PTX va in
      update_pte pte (fun v => Z.lor v PTE_COW) ;;
      update_pte pte (fun v => clr v PTE_W) ;;
      v ← ld32 pte;
      let pa := PTE_ADDR v in
      let flags := PTE_FLAGS v in
      r ← mappages (frame_addr d) va PGSIZE pa flags;
      if r <? 0 then mret false else refInc (P2V pa) ;; K) Q s.
Proof.
  intros Hi Hk Hl0 va v Ht HP HPG Hrmax HK. cbv zeta.
  assert (vpn va = k) as Ek by (apply vpn_page; lia).
  assert (0 <= va < KERNBASE) as Hva by (unfold va, PGSIZE, KERNBASE; lia).
  assert (pte_val (mem s) pd va = v) as Hsv.
  { rewrite (ci_pview _ _ _ _ _ _ _ Hi), Ek. by rewrite decide_False by lia. }
  pose proof (pte_val_range (mem s0) pd va) as Hvr. fold v in Hvr.
  destruct (cow_entry_facts v Hvr) as (Hv'r & Hv'a & _). set (v' := clr (Z.lor v PTE_COW) PTE_W) in *.
  set (f := uframe (mem s0) pd va) in *.
  destruct (uo_frame _ _ p_user va Hva HP) as (Hfu & _ & Hfr). fold f in Hfu, Hfr.
  eapply wp_cow_mark; [done|done|]. intros s2 Hm.
  assert (tbl (mem s2) pd (PDX va) = Some t) as Ht2 by (rewrite (mk_ptbl _ _ _ _ _ Hm); [done|apply PDX_range]).
  destruct (wf_tbl _ _ (ok_wf _ _ _ (mk_p _ _ _ _ _ Hm)) (PDX va) t (PDX_range va) Ht2) as [Htr _].
  pose proof (PTX_range va).
  rewrite wp_bind, wp_ld32 by (unfold frame_addr, KERNBASE, PGSIZE; lia).
  assert (load32 (mem s2) (frame_addr t + 4 * PTX va) = v') as ->.
  { pose proof (mk_pview _ _ _ _ _ Hm va) as E. rewrite decide_True, Hsv in E by done.
    unfold pte_val in E. rewrite Ht2 in E. exact E. }
  rewrite wp_bind. eapply wp_mono.
  { apply (wp_mappages s2 d l va PGSIZE); [apply Hm|lia|done|unfold KERNBASE, PGSIZE, W32 in *; lia| |].
    - rewrite PTE_ADDR_eq. pose proof (u32_range v'). unfold W32 in *. zlia.
    - intros va' Hj. rewrite (mk_dview _ _ _ _ _ Hm), (ci_dview _ _ _ _ _ _ _ Hi).
      assert (map_pages va PGSIZE = 1) as E1.
      { unfold va, map_pages, PGSIZE. clear. zlia. }
      rewrite decide_False, kview_user by lia. done. }
  assert (map_pages va PGSIZE = 1) as E1 by (unfold va, map_pages, PGSIZE; clear; zlia).
  assert (page_aligned va) as Hal by (unfold va, page_aligned, PGSIZE; apply Z.mod_mul; done).
  rewrite E1, PGROUNDDOWN_id by (done || (unfold KERNBASE, W32 in *; lia)).
  intros r s3 (u & l' & El & Hx & _ & [[-> Hv3]|(-> & -> & _)]).
  2: { by destruct (grow_room k s s2 s3 l [] u Hi Hl0 (mk_down _ _ _ _ _ Hm) El Hx). }
  cbn [Z.ltb Z.compare]. rewrite wp_bind, P2V_PTE_ADDR; [|rewrite Hv'a; apply Hfu].
  rewrite Hv'a. change (PTE_ADDR v / PGSIZE) with f. unfold refInc. apply wp_add_ref; [apply Hx|].
  rewrite frame_of_addr by apply Hfu. fold (ref_of s3 f).
  assert (ref_of s3 f = ref_of s0 f) as Hrf.
  { assert (f ∉ l0) as Hfl by (by apply user_not_free).
    unfold ref_of at 1. rewrite (px_ref _ _ _ _ _ Hx).
    - rewrite (mk_state _ _ _ _ _ Hm). apply (ci_nohit _ _ _ _ _ _ _ Hi); [done|].
      intros Hh. apply (hit_disjoint s0 pd 0 k (k + 1)) in Hh; [|done]. apply Hh. exists va. split_and!; try done; lia.
    - intros Hin. destruct (ci_free _ _ _ _ _ _ _ Hi) as (used & El0 & _). apply Hfl. rewrite El0, El.
      apply elem_of_app. right. apply elem_of_app. by left. }
  rewrite (u32_small (ref_of s3 f + 1)) by (unfold W32; lia).
  eapply HK. by eapply (cow_shared_next k s s2 s3 l l' u).
Qed.

(** The page is paged out: the child gets a paged-out entry. *)
Lemma wp_cow_paged k s l (K : M kstate bool) Q :
  cow_inv pd d k s0 s l0 l -> 0 <= k < 524288 -> (1025 < length l0)%nat ->
  let va := k * PGSIZE in let v := pte_val (mem s0) pd va in
  has v PTE_P = false -> has v PTE_PG = true ->
  (forall s' l', cow_inv pd d (k + 1) s0 s' l0 l' -> wp K Q s') ->
  wp (pte ← walkpgdir (frame_addr d) va true; st32 pte (Z.lor (Z.lor PTE_U PTE_W) PTE_PG) ;; K) Q s.
Proof.
  intros Hi Hk Hl0 va v HP HPG HK.
  assert (vpn va = k) as Ek by (apply vpn_page; lia).
  pose proof (ci_d _ _ _ _ _ _ _ Hi) as Hd.
  rewrite wp_bind. eapply wp_mono; [by apply (wp_walkpgdir_true s d va l)|].
  intros r s2 [(-> & -> & -> & _)|(u & l' & t & El & Hx & Ht & -> & Hv & _)].
  { by destruct (cow_inv_room d k s [] Hi Hl0). }
  pose proof (px_ok _ _ _ _ _ Hx) as Hd2.
  destruct (wf_tbl _ _ (ok_wf _ _ _ Hd2) _ _ (PDX_range va) Ht) as [Htr _]. pose proof (PTX_range va).
  rewrite wp_bind, wp_st32 by (unfold frame_addr, KERNBASE, PGSIZE; lia).
  set (e := Z.lor (Z.lor PTE_U PTE_W) PTE_PG).
  pose proof (pt_ext_store d s2 l' t va e Hd2 Ht) as Hx2.
  pose proof (pt_ext_trans _ _ _ _ _ _ _ _ Hx Hx2) as Hx3. rewrite app_nil_r in Hx3.
  destruct (pte_val_store (mem s2) d va t e (ok_wf _ _ _ Hd2) Ht) as (_ & _ & Hv2).
  set (s3 := {| s2 with mem := _ |}) in *.
  assert (forall f, owns (mem s) d f <-> owns (mem s) d f) as Hrefl by done.
  destruct (as_ok_other s s3 pd d u l' l (ci_p _ _ _ _ _ _ _ Hi) El Hx3) as (P3 & T3 & V3).
  { intros g Hg. eapply (grow_sep k s s s3); [done|done|done|done|]. by eapply parent_owned_not_free. }
  apply (HK s3 l'). apply (cow_inv_next d k s s3 l l' u); try done.
  - apply Hx3.
  - eapply (tables_ok_ext s); [done|apply (ci_dt _ _ _ _ _ _ _ Hi)|done|done].
  - intros g. split; [by apply (px_new _ _ _ _ _ Hx3)|].
    intros [Hg|Hg]; [by eapply px_owns|by apply (px_used _ _ _ _ _ Hx3)].
  - intros va'. rewrite V3. case_decide as E; [|done].
    rewrite (ci_pview _ _ _ _ _ _ _ Hi), decide_False by lia. unfold cow_parent.
    rewrite (pte_val_vpn (mem s0) pd va' va) by lia. fold v. by rewrite HPG.
  - intros va'. cbn. rewrite Hv2, Hv, Ek. destruct (decide (vpn va' = k)) as [E|E].
    + rewrite decide_True by done. rewrite (pte_val_vpn (mem s0) pd va' va) by lia. fold v.
      unfold cow_child. by rewrite HPG.
    + by rewrite decide_False by congruence.
  - intros g Hg. fold va v. rewrite HP. cbn [andb]. rewrite Z.add_0_r. unfold ref_of.
    rewrite (px_ref _ _ _ _ _ Hx3); [done|]. intros Hin.
    destruct (ci_free _ _ _ _ _ _ _ Hi) as (used & El0 & _). apply Hg. rewrite El0, El.
    apply elem_of_app. right. apply elem_of_app. by left.
  - intros g Hg _ Hr. apply (px_mem _ _ _ _ _ Hx3); [|done].
    eapply (grow_sep k s s s3); done.
  - apply Hx3.
  - apply Hx3.
Qed.

Lemma wp_cowuvm_loop fuel : forall k s l sz,
  cow_inv pd d k s0 s l0 l -> 0 <= k -> sz <= KERNBASE -> (1025 < length l0)%nat ->
  sz < (k + Z.of_nat fuel) * PGSIZE + 1 -> k <= (sz + 4095) / PGSIZE ->
  (forall va, 0 <= va < sz -> let v := pte_val (mem s0) pd va in
     has v PTE_PG = negb (has v PTE_P)) ->
  (forall va, 0 <= va < sz -> ref_of s0 (uframe (mem s0) pd va) + 1 < 2147483648) ->
  wp (cowuvm_loop (frame_addr pd) (frame_addr d) (k * PGSIZE) sz fuel) (fun r s' =>
    r = true /\ exists l', cow_inv pd d ((sz + 4095) / PGSIZE) s0 s' l0 l') s.
Proof.
  induction fuel as [|fuel IH]; intros k s l sz Hi Hk Hsz Hl0 Hfuel Hle Hpg Href; cbn [cowuvm_loop];
    (destruct (Z.ltb_spec (k * PGSIZE) sz) as [Hlt|Hge];
    [|apply wp_ret; split; [done|]; exists l;
      assert ((sz + 4095) / PGSIZE = k) as -> by (unfold PGSIZE in *; clear - Hge Hle; zlia); done]).
  { unfold PGSIZE in *. lia. }
  assert (0 <= k < 524288) as Hk2 by (unfold PGSIZE, KERNBASE in *; lia).
  assert (k + 1 <= (sz + 4095) / PGSIZE) as Hk1 by (unfold PGSIZE in *; clear - Hlt; zlia).
  assert (u32 (k * PGSIZE + PGSIZE) = (k + 1) * PGSIZE) as Enext.
  { rewrite u32_small by (unfold PGSIZE, W32 in *; lia). lia. }
  assert (pte_val (mem s) pd (k * PGSIZE) = pte_val (mem s0) pd (k * PGSIZE)) as Hsame.
  { rewrite (ci_pview _ _ _ _ _ _ _ Hi), vpn_page by lia. by rewrite decide_False by lia. }
  assert (0 <= k * PGSIZE < sz) as Hva by (unfold PGSIZE in *; lia).
  specialize (Hpg (k * PGSIZE) Hva) as Hpgk. cbv zeta in Hpgk.
  rewrite wp_bind. apply wp_walkpgdir_false; [apply Hi| |].
  2: { intros Ht. exfalso. unfold pte_val at 1 in Hsame. rewrite Ht in Hsame. by rewrite <- Hsame in Hpgk. }
  intros t Ht. destruct (wf_tbl _ _ (ok_wf _ _ _ (ci_p _ _ _ _ _ _ _ Hi)) _ _ (PDX_range _) Ht) as [Htr _].
  pose proof (PTX_range (k * PGSIZE)).
  assert (frame_addr t + 4 * PTX (k * PGSIZE) ≠ 0) as Hnz by (unfold frame_addr, KERNBASE, PGSIZE in *; lia).
  destruct (Z.eqb_spec (frame_addr t + 4 * PTX (k * PGSIZE)) 0) as [|_]; [done|].
  rewrite wp_bind, wp_ld32 by done.
  assert (load32 (mem s) (frame_addr t + 4 * PTX (k * PGSIZE)) = pte_val (mem s0) pd (k * PGSIZE)) as ->.
  { rewrite <- Hsame. unfold pte_val. by rewrite Ht. }
  rewrite Hpgk. destruct (has (pte_val (mem s0) pd (k * PGSIZE)) PTE_P) eqn:HP; cbn [negb andb] in *; rewrite Enext.
  - apply (wp_cow_shared k s l); try done; [by apply Href|].
    intros s' l' Hi'. by eapply IH; eauto; lia.
  - eapply (wp_cow_paged k s l); try done.
    intros s' l' Hi'. by eapply IH; eauto; lia.
Qed.

End CowLoop.

(** What user code reads at [va] through directory [pd]. *)
Definition uread (m : gmap Z Z) (pd va : Z) : option Z :=
  let v := pte_val m pd va in
  if has v PTE_P && has v PTE_U then Some (load8 m (P2V (PTE_ADDR v) + va mod PGSIZE)) else None.
(** User code may write at [va]. *)
Definition uwritable (m : gmap Z Z) (pd va : Z) : bool :=
  let v := pte_val m pd va in has v PTE_P && has v PTE_U && has v PTE_W.

(** The two address spaces after a copy-on-write duplication of the pages
    below [sz]. *)
Record cow_copied (pd d sz : Z) (s s' : kstate) (l l' : list Z) : Prop := {
  cc_p : as_ok s' pd l';
  cc_d : as_ok s' d l';
  cc_pu : user_ok s' pd;
  cc_du : user_ok s' d;
  cc_dt : tables_ok s' d;
  cc_sep : forall f, owns (mem s') pd f -> ~ owns (mem s') d f;
  cc_pview : forall va, 0 <= va < KERNBASE -> pte_val (mem s') pd va =
    if decide (vpn va < (sz + 4095) / PGSIZE) then cow_parent (pte_val (mem s) pd va) else pte_val (mem s) pd va;
  cc_dview : forall va, 0 <= va < KERNBASE -> pte_val (mem s') d va =
    if decide (vpn va < (sz + 4095) / PGSIZE) then cow_child (pte_val (mem s) pd va) else 0;
  cc_hit : forall f, hit s pd 0 ((sz + 4095) / PGSIZE) f -> ref_of s' f = ref_of s f + 1;
  cc_nohit : forall f, f ∉ l -> ~ hit s pd 0 ((sz + 4095) / PGSIZE) f -> ref_of s' f = ref_of s f;
  cc_mem : forall f, f ∉ l -> ~ owns (mem s) pd f -> 0 <= f < MAXPAGES -> same_frame (mem s) (mem s') f
}.

Lemma cow_parent_frame v :
  0 <= v < W32 -> has (cow_parent v) PTE_P = has v PTE_P /\ PTE_ADDR (cow_parent v) = PTE_ADDR v /\
                  has (cow_parent v) PTE_U = has v PTE_U.
Proof.
  intros Hv. unfold cow_parent. destruct (has v PTE_PG); [done|].
  by destruct (cow_entry_facts v Hv) as (_ & -> & -> & _ & _ & _ & ->).
Qed.
Lemma cow_child_frame v :
  0 <= v < W32 -> has v PTE_PG = negb (has v PTE_P) ->
  has (cow_child v) PTE_P = has v PTE_P /\
  (has v PTE_P = true -> cow_child v = cow_parent v /\ PTE_ADDR (cow_child v) = PTE_ADDR v).
Proof.
  intros Hv Hpg. unfold cow_child. rewrite Hpg. destruct (has v PTE_P) eqn:E; cbn.
  - destruct (cow_parent_frame v Hv) as (H1 & H2 & _). by rewrite H1, H2.
  - split; [reflexivity|done].
Qed.

Lemma cow_inv_copied pd d sz s s' l l' :
  as_ok s pd l -> user_ok s pd -> 0 <= sz <= KERNBASE ->
  (forall va, 0 <= va < KERNBASE -> vpn va < (sz + 4095) / PGSIZE ->
     has (pte_val (mem s) pd va) PTE_PG = negb (has (pte_val (mem s) pd va) PTE_P)) ->
  (forall f, hit s pd 0 ((sz + 4095) / PGSIZE) f -> ref_of s f + 1 < 2147483648) ->
  cow_inv pd d ((sz + 4095) / PGSIZE) s s' l l' -> cow_copied pd d sz s s' l l'.
Proof.
  intros Hok Hu Hsz Hpg Href Hi. set (k := (sz + 4095) / PGSIZE) in *.
  assert (forall va, 0 <= va < KERNBASE -> present (mem s) pd va -> uframe (mem s) pd va ∉ l) as Hufree.
  { intros. by eapply user_not_free. }
  assert (forall va, 0 <= va < KERNBASE -> 1 <= ref_of s' (uframe (mem s) pd va) < 2147483648 \/ ~ present (mem s) pd va) as Hr'.
  { intros va Hva. destruct (has (pte_val (mem s) pd va) PTE_P) eqn:HP; [left|right; unfold present; congruence].
    destruct (uo_frame _ _ Hu va Hva HP) as (_ & _ & Hr).
    destruct (decide (vpn va < k)) as [Hk|Hk].
    - assert (hit s pd 0 k (uframe (mem s) pd va)) as Hh.
      { exists va. pose proof (vpn_range va Hva). split_and!; try done; lia. }
      rewrite (ci_hit _ _ _ _ _ _ _ Hi) by done. specialize (Href _ Hh). lia.
    - rewrite (ci_nohit _ _ _ _ _ _ _ Hi); [done|by apply Hufree|].
      intros (va' & Hva' & Hv' & Hp' & E). assert (vpn va' = vpn va) by (by eapply (uo_inj _ _ Hu)). lia. }
  assert (forall va, has (pte_val (mem s') pd va) PTE_P = has (pte_val (mem s) pd va) PTE_P /\
    PTE_ADDR (pte_val (mem s') pd va) = PTE_ADDR (pte_val (mem s) pd va)) as Hpp.
  { intros va. rewrite (ci_pview _ _ _ _ _ _ _ Hi). case_decide; [|done].
    by destruct (cow_parent_frame (pte_val (mem s) pd va) (pte_val_range _ _ _)) as (-> & -> & _). }
  assert (forall va, 0 <= va < KERNBASE -> present (mem s') d va ->
    present (mem s) pd va /\ uframe (mem s') d va = uframe (mem s) pd va) as Hdp.
  { intros va Hva. unfold present, uframe. rewrite (ci_dview _ _ _ _ _ _ _ Hi). case_decide as Hk.
    - destruct (cow_child_frame (pte_val (mem s) pd va) (pte_val_range _ _ _) (Hpg va Hva Hk)) as [-> H].
      intros HP. split; [done|]. by destruct (H HP) as [_ ->].
    - rewrite kview_user by (by apply vpn_range). done. }
  split; try apply Hi.
  - split.
    + intros va Hva. unfold present, uframe. destruct (Hpp va) as [-> ->]. fold (uframe (mem s) pd va).
      intros HP. destruct (uo_frame _ _ Hu va Hva HP) as (F1 & F2 & _). split; [done|].
      rewrite (owns_frame (mem s) (mem s')) by apply (ci_ptbl _ _ _ _ _ _ _ Hi). split; [done|].
      by destruct (Hr' va Hva).
    + intros va va' Hva Hva'. unfold present, uframe. destruct (Hpp va) as [-> ->], (Hpp va') as [-> ->].
      by apply (uo_inj _ _ Hu).
  - split.
    + intros va Hva HP. destruct (Hdp va Hva HP) as [HP0 ->].
      destruct (uo_frame _ _ Hu va Hva HP0) as (F1 & F2 & _). split; [done|]. split.
      * eapply (cow_inv_sep pd s l); [done|by apply Hufree].
      * by destruct (Hr' va Hva).
    + intros va va' Hva Hva' HP HP'. destruct (Hdp va Hva HP) as [HP0 ->], (Hdp va' Hva' HP') as [HP0' ->].
      by apply (uo_inj _ _ Hu).
  - intros f Hf. eapply (cow_inv_sep pd s l); [done|]. eapply parent_owned_not_free; eauto.
  - intros va Hva. apply (ci_pview _ _ _ _ _ _ _ Hi).
  - intros va Hva. rewrite (ci_dview _ _ _ _ _ _ _ Hi). fold k. repeat case_decide; try done.
    apply kview_user. by apply vpn_range.
Qed.

Lemma wp_cowuvm s pd l sz :
  as_ok s pd l -> user_ok s pd -> 0 <= sz <= KERNBASE -> (1025 < length l)%nat ->
  (forall va, 0 <= va < KERNBASE -> vpn va < (sz + 4095) / PGSIZE ->
     has (pte_val (mem s) pd va) PTE_PG = negb (has (pte_val (mem s) pd va) PTE_P)) ->
  (forall f, ref_of s f + 1 < 2147483648) ->
  wp (cowuvm (frame_addr pd) sz) (fun r s' => exists d l', r = frame_addr d /\ cow_copied pd d sz s s' l l') s.
Proof.
  intros Hok Hu Hsz Hlen Hpg Href. unfold cowuvm. rewrite wp_bind.
  eapply wp_mono; [apply (wp_setupkvm s l); [apply Hok|apply Hok|right; lia]|].
  intros r s1 [(d & l1 & -> & Hd)|(_ & Hl & _)]; [|lia].
  pose proof (cow_inv_start pd s l Hok s1 d l1 Hd) as Hi.
  destruct (Z.eqb_spec (frame_addr d) 0) as [E|_].
  { apply frame_addr_nz in E; [done|]. apply (fd_ok _ _ _ _ _ Hd). }
  rewrite wp_bind. eapply wp_mono.
  { apply (wp_cowuvm_loop pd s l Hok Hu d _ 0 s1 l1 sz Hi); try lia.
    - unfold PGSIZE. clear - Hsz. zlia.
    - unfold PGSIZE. clear - Hsz. zlia.
    - intros va Hva. apply Hpg; [lia|]. rewrite vpn_small by (unfold KERNBASE, W32 in *; lia).
      unfold PGSIZE. clear - Hva. zlia.
    - done. }
  intros ok s2 (-> & l' & Hi2).
  assert (cow_copied pd d sz s s2 l l') as Hc by (by apply cow_inv_copied).
  cbn. exists d, l'. split; [done|].
  destruct Hc as [[? ? ? ?] [? ? ? ?] [? ?] [? ?] ? ? ? ? ? ? ?].
  split; try done; split; done.
Qed.

(** ** Correctness *)

(** C1. [cowuvm] gives the child an address space with the contents of the
    parent's: below [sz], user code of either process reads what the parent read before, every
    present page is shared, read-only in both directories and has one more reference, paged-out pages
    are paged out in the child too; above [sz] the child has nothing; the two
    directories have no frame in common and no page of memory other than the parent's
    page tables and formerly free frames is written. *)
Theorem cowuvm_correct s pd l sz :
  as_ok s pd l -> user_ok s pd -> 0 <= sz <= KERNBASE -> (1025 < length l)%nat ->
  (forall va, 0 <= va < KERNBASE -> vpn va < (sz + 4095) / PGSIZE ->
     has (pte_val (mem s) pd va) PTE_PG = negb (has (pte_val (mem s) pd va) PTE_P)) ->
  (forall f, ref_of s f + 1 < 2147483648) ->
  wp (cowuvm (frame_addr pd) sz) (fun r s' => exists d l', r = frame_addr d /\
    cow_copied pd d sz s s' l l' /\
    (forall va, 0 <= va < KERNBASE -> uread (mem s') pd va = uread (mem s) pd va) /\
    (forall va, 0 <= va < KERNBASE -> vpn va < (sz + 4095) / PGSIZE ->
       uread (mem s') d va = uread (mem s) pd va /\
       uwritable (mem s') pd va = false /\ uwritable (mem s') d va = false)) s.
Proof.
  intros Hok Hu Hsz Hlen Hpg Href. eapply wp_mono; [by apply (wp_cowuvm s pd l sz)|].
  intros r s' (d & l' & -> & Hc). exists d, l'.
  assert (forall va, 0 <= va < KERNBASE -> present (mem s) pd va ->
    load8 (mem s') (P2V (PTE_ADDR (pte_val (mem s) pd va)) + va mod PGSIZE) =
    load8 (mem s) (P2V (PTE_ADDR (pte_val (mem s) pd va)) + va mod PGSIZE)) as Hread.
  { intros va Hva HP. destruct (uo_frame _ _ Hu va Hva HP) as (F1 & F2 & F3).
    rewrite P2V_PTE_ADDR by apply F1. apply (cc_mem _ _ _ _ _ _ _ Hc (uframe (mem s) pd va)); [|done|apply F1|].
    - eapply in_free_ref; [apply Hok|]. lia.
    - unfold in_frame, uframe, PGSIZE. pose proof (Z.mod_pos_bound va 4096). lia. }
  split_and!; [done|done| |].
  - intros va Hva. unfold uread. rewrite (cc_pview _ _ _ _ _ _ _ Hc) by done.
    destruct (cow_parent_frame (pte_val (mem s) pd va) (pte_val_range _ _ _)) as (E1 & E2 & E3).
    case_decide; rewrite ?E1, ?E2, ?E3; (destruct (has (pte_val (mem s) pd va) PTE_P) eqn:HP; [|done]);
      (destruct (has (pte_val (mem s) pd va) PTE_U); [|done]); cbn; f_equal; by apply Hread.
  - intros va Hva Hk. unfold uread, uwritable. rewrite (cc_dview _ _ _ _ _ _ _ Hc), (cc_pview _ _ _ _ _ _ _ Hc) by done.
    rewrite !decide_True by done. set (v := pte_val (mem s) pd va) in *.
    destruct (cow_parent_frame v (pte_val_range _ _ _)) as (E1 & E2 & E3).
    destruct (cow_child_frame v (pte_val_range _ _ _) (Hpg va Hva Hk)) as (C1 & C2).
    rewrite C1, E1. destruct (has v PTE_P) eqn:HP; cbn; [|done].
    destruct (C2 eq_refl) as [-> C3]. rewrite E2, E3. unfold cow_parent.
    pose proof (Hpg va Hva Hk) as Hv. fold v in Hv. rewrite Hv, HP. cbn.
    destruct (cow_entry_facts v (pte_val_range _ _ _)) as (_ & _ & _ & -> & _). rewrite !andb_false_r.
    split_and!; try done. destruct (has v PTE_U); [|done]. f_equal. by apply Hread.
Qed.

(** ** Copy-on-write faults *)

(** The entries written by the two branches. *)
Definition cow_private (v pa : Z) : Z := Z.lor (Z.lor (Z.lor pa (PTE_FLAGS v)) PTE_P) PTE_W.
Definition cow_reclaim (v : Z) : Z := clr (Z.lor v PTE_W) PTE_COW.

Lemma cow_private_facts v pa :
  0 <= v < W32 -> page_aligned pa -> 0 <= pa < W32 ->
  0 <= cow_private v pa < W32 /\ PTE_ADDR (cow_private v pa) = pa /\
  has (cow_private v pa) PTE_P = true /\ has (cow_private v pa) PTE_W = true /\
  has (cow_private v pa) PTE_U = has v PTE_U.
Proof.
  intros Hv Ha Hpa. unfold cow_private.
  assert (0 <= PTE_FLAGS v < 4096) as Hf by (rewrite PTE_FLAGS_eq; zlia).
  assert (0 <= Z.lor pa (PTE_FLAGS v) < W32) as H1 by (apply lor_u32; unfold W32 in *; lia).
  assert (0 <= Z.lor (Z.lor pa (PTE_FLAGS v)) PTE_P < W32) as H2 by (apply lor_u32; [done|unfold PTE_P, W32; lia]).
  split_and!.
  - apply Z.lor_nonneg. split; [lia|done].
  - apply lor_u32; [done|unfold PTE_W, W32; lia].
  - rewrite !PTE_ADDR_lor_flags by done.
    rewrite PTE_ADDR_eq, u32_small by done. unfold page_aligned in Ha. lia.
  - rewrite !has_lor by auto with pte. rewrite (has_self PTE_P) by auto with pte. by rewrite orb_true_r.
  - rewrite !has_lor by auto with pte. rewrite (has_self PTE_W) by auto with pte. by rewrite orb_true_r.
  - rewrite !has_lor by auto with pte. rewrite (has_page pa) by auto with pte.
    rewrite has_FLAGS by auto with pte. cbn. by rewrite !orb_false_r.
Qed.

Lemma cow_reclaim_facts v :
  0 <= v < W32 -> 0 <= cow_reclaim v < W32 /\ PTE_ADDR (cow_reclaim v) = PTE_ADDR v /\
  has (cow_reclaim v) PTE_P = has v PTE_P /\ has (cow_reclaim v) PTE_W = true /\
  has (cow_reclaim v) PTE_U = has v PTE_U /\ has (cow_reclaim v) PTE_COW = false.
Proof.
  intros Hv. unfold cow_reclaim.
  assert (0 <= Z.lor v PTE_W < W32) as H1 by (apply lor_u32; [done|unfold PTE_W, W32; lia]).
  pose proof (clr_bounds (Z.lor v PTE_W) PTE_COW (proj1 H1)) as H2.
  split_and!; try lia; rewrite ?PTE_ADDR_clr_flags, ?PTE_ADDR_lor_flags, ?has_clr, ?has_lor by (done || auto with pte);
    try done; cbn; by rewrite ?orb_false_r, ?orb_true_r, ?andb_true_r, ?andb_false_r.
Qed.

(** The entry for [va] now is [v'] and nothing else changed in memory. *)
Record stored (pd va v' : Z) (s s' : kstate) (l : list Z) : Prop := {
  st_ext : pt_ext pd s s' [] l;
  st_tbl : forall i, 0 <= i < 1024 -> tbl (mem s') pd i = tbl (mem s) pd i;
  st_view : forall va', pte_val (mem s') pd va' =
              if decide (vpn va = vpn va') then v' else pte_val (mem s) pd va';
  st_km : km s' = km s
}.

Lemma stored_owns pd va v' s s' l f : stored pd va v' s s' l -> owns (mem s') pd f <-> owns (mem s) pd f.
Proof. intros H. apply owns_frame, (st_tbl _ _ _ _ _ _ H). Qed.

Lemma wp_store_pte s pd l va t v' :
  as_ok s pd l -> tbl (mem s) pd (PDX va) = Some t -> 0 <= v' < W32 ->
  wp (st32 (frame_addr t + 4 * PTX va) v') (fun _ s' => stored pd va v' s s' l) s.
Proof.
  intros Hok Ht Hv. destruct (wf_tbl _ _ (ok_wf _ _ _ Hok) _ _ (PDX_range va) Ht) as [Htr _].
  pose proof (PTX_range va). apply wp_st32; [unfold frame_addr, KERNBASE, PGSIZE; lia|].
  destruct (pte_val_store (mem s) pd va t v' (ok_wf _ _ _ Hok) Ht) as (_ & Htbl & Hview).
  split; [by apply pt_ext_store|done| |done].
  intros va'. cbn. rewrite Hview. case_decide; [by apply u32_small|done].
Qed.

Lemma wp_update_pte s pd l va t f :
  as_ok s pd l -> tbl (mem s) pd (PDX va) = Some t -> 0 <= f (pte_val (mem s) pd va) < W32 ->
  wp (update_pte (frame_addr t + 4 * PTX va) f)
     (fun _ s' => stored pd va (f (pte_val (mem s) pd va)) s s' l) s.
Proof.
  intros Hok Ht Hv. destruct (wf_tbl _ _ (ok_wf _ _ _ Hok) _ _ (PDX_range va) Ht) as [Htr _].
  pose proof (PTX_range va). unfold update_pte.
  rewrite wp_bind, wp_ld32 by (unfold frame_addr, KERNBASE, PGSIZE; lia).
  assert (load32 (mem s) (frame_addr t + 4 * PTX va) = pte_val (mem s) pd va) as ->.
  { unfold pte_val. by rewrite Ht. }
  by apply wp_store_pte.
Qed.

Lemma stored_trans pd va v1 v2 s s1 s2 l :
  stored pd va v1 s s1 l -> stored pd va v2 s1 s2 l -> stored pd va v2 s s2 l.
Proof.
  intros [A1 A2 A3 A4] [B1 B2 B3 B4]. split.
  - apply (pt_ext_trans _ _ _ _ [] [] _ _ A1 B1).
  - intros i Hi. rewrite B2, A2; done.
  - intros va'. rewrite B3, A3. by case_decide.
  - congruence.
Qed.

(** A fault is resolved: the page is writable and the process's own, the
    process reads what it read before, the frames outside its directory that were in use keep
    their contents, and no other frame's reference count changed. *)
Record cow_resolved (pd va : Z) (s s' : kstate) (l l' : list Z) : Prop := {
  cr_ok : as_ok s' pd l';
  cr_user : user_ok s' pd;
  cr_write : has (pte_val (mem s') pd va) PTE_P = true /\ has (pte_val (mem s') pd va) PTE_W = true;
  cr_private : ref_of s' (uframe (mem s') pd va) = 1;
  cr_read : forall va', 0 <= va' < KERNBASE -> uread (mem s') pd va' = uread (mem s) pd va';
  cr_mem : forall f, f ∉ l -> ~ owns (mem s) pd f -> 0 <= f < MAXPAGES -> same_frame (mem s) (mem s') f;
  cr_ref : forall f, f ∉ l -> f ≠ uframe (mem s) pd va -> ref_of s' f = ref_of s f;
  cr_old : 1 < ref_of s (uframe (mem s) pd va) ->
           ref_of s' (uframe (mem s) pd va) = ref_of s (uframe (mem s) pd va) - 1
}.

(** Reading through an unchanged frame. *)
Lemma uread_same m m' pd va :
  has (pte_val m' pd va) PTE_P = has (pte_val m pd va) PTE_P ->
  has (pte_val m' pd va) PTE_U = has (pte_val m pd va) PTE_U ->
  (has (pte_val m pd va) PTE_P = true ->
     0 <= uframe m pd va < MAXPAGES /\ 0 <= uframe m' pd va < MAXPAGES /\
     forall o, 0 <= o < 4096 ->
       load8 m' (frame_addr (uframe m' pd va) + o) = load8 m (frame_addr (uframe m pd va) + o)) ->
  uread m' pd va = uread m pd va.
Proof.
  intros HP HU H. unfold uread. rewrite HP, HU.
  destruct (has (pte_val m pd va) PTE_P); [|done]. destruct (has (pte_val m pd va) PTE_U); [|done]. cbn.
  destruct (H eq_refl) as (F1 & F2 & F3). rewrite !P2V_PTE_ADDR by done. f_equal. apply F3.
  unfold PGSIZE. apply Z.mod_pos_bound. done.
Qed.

Lemma wp_cow_reclaim s pd l va t :
  as_ok s pd l -> user_ok s pd -> 0 <= va < KERNBASE -> tbl (mem s) pd (PDX va) = Some t ->
  has (pte_val (mem s) pd va) PTE_P = true -> ref_of s (uframe (mem s) pd va) = 1 ->
  wp (update_pte (frame_addr t + 4 * PTX va) (fun v => Z.lor v PTE_W) ;;
      update_pte (frame_addr t + 4 * PTX va) (fun v => clr v PTE_COW))
     (fun _ s' => cow_resolved pd va s s' l l) s.
Proof.
  intros Hok Hu Hva Ht HP Hr. set (v := pte_val (mem s) pd va) in *.
  assert (0 <= v < W32) as Hv by apply pte_val_range.
  assert (0 <= Z.lor v PTE_W < W32) as H1 by (apply lor_u32; [done|unfold PTE_W, W32; lia]).
  destruct (cow_reclaim_facts v Hv) as (C0 & C1 & C2 & C3 & C4 & _).
  rewrite wp_bind. eapply wp_mono; [by apply (wp_update_pte s pd l va t)|]. fold v. intros [] s1 Hs1.
  assert (pte_val (mem s1) pd va = Z.lor v PTE_W) as E1.
  { rewrite (st_view _ _ _ _ _ _ Hs1). by rewrite decide_True. }
  eapply wp_mono.
  { apply (wp_update_pte s1 pd l va t); [apply Hs1|by rewrite (st_tbl _ _ _ _ _ _ Hs1) by apply PDX_range|].
    by rewrite E1. }
  rewrite E1. intros [] s2 Hs2. pose proof (stored_trans _ _ _ _ _ _ _ _ Hs1 Hs2) as Hst. clear Hs1 Hs2 E1.
  fold (cow_reclaim v) in Hst. pose proof (st_ext _ _ _ _ _ _ Hst) as Hx.
  assert (forall va', has (pte_val (mem s2) pd va') PTE_P = has (pte_val (mem s) pd va') PTE_P /\
    has (pte_val (mem s2) pd va') PTE_U = has (pte_val (mem s) pd va') PTE_U /\
    uframe (mem s2) pd va' = uframe (mem s) pd va') as Hsame.
  { intros va'. unfold uframe. rewrite (st_view _ _ _ _ _ _ Hst). case_decide as E; [|done].
    rewrite C1, C2, C4, (pte_val_vpn (mem s) pd va' va) by done. done. }
  assert (forall f, ref_of s2 f = ref_of s f) as Href by (intros; unfold ref_of; by rewrite (st_km _ _ _ _ _ _ Hst)).
  split.
  - apply Hx.
  - split.
    + intros va' Hva' HP'. unfold present in HP'. destruct (Hsame va') as (E1 & _ & ->). rewrite E1 in HP'.
      rewrite (stored_owns _ _ _ _ _ _ _ Hst), Href. by apply (uo_frame _ _ Hu).
    + intros va1 va2 Hr1 Hr2. unfold present. destruct (Hsame va1) as (-> & _ & ->), (Hsame va2) as (-> & _ & ->).
      by apply (uo_inj _ _ Hu).
  - rewrite (st_view _ _ _ _ _ _ Hst), decide_True by done. by rewrite C2, C3.
  - destruct (Hsame va) as (_ & _ & ->). by rewrite Href.
  - intros va' Hva'. destruct (Hsame va') as (E1 & E2 & E3). apply uread_same; [done|done|].
    intros HP'. destruct (uo_frame _ _ Hu va' Hva' HP') as (F1 & F2 & _). rewrite E3. split_and!; try apply F1.
    intros o Ho. apply (px_mem _ _ _ _ _ Hx (uframe (mem s) pd va')); [by rewrite (stored_owns _ _ _ _ _ _ _ Hst)|apply F1|].
    unfold in_frame. lia.
  - intros f Hf Hno Hrg. apply (px_mem _ _ _ _ _ Hx); [by rewrite (stored_owns _ _ _ _ _ _ _ Hst)|done].
  - intros f _ _. apply Href.
  - lia.
Qed.

(** The state after the page was copied to the frame [i] taken from the free
    list. *)
Record copied_page (f i : Z) (s s' : kstate) (l : list Z) : Prop := {
  cp_kmem : kmem_ok (km s') l;
  cp_ref : ref_of s' i = 1;
  cp_run : forall g, g ≠ i -> run_at (km s') g = run_at (km s) g;
  cp_copy : forall o, 0 <= o < 4096 -> load8 (mem s') (frame_addr i + o) = load8 (mem s) (frame_addr f + o);
  cp_mem : forall g, g ≠ i -> same_frame (mem s) (mem s') g;
  cp_lock : use_lock (km s') = use_lock (km s);
  cp_state : s' = {| s with mem := mem s'; km := km s' |}
}.

Lemma wp_copy_page {A} s l i f (K : Z -> M kstate A) Q :
  kmem_unlocked s -> kmem_ok (km s) (i :: l) -> user_frame f -> f ≠ i ->
  (forall s', copied_page f i s s' l -> wp (K (frame_addr i)) Q s') ->
  wp (new_page ← kalloc; if new_page =? 0 then ub else
      set_mem (fun m => memmove m new_page (frame_addr f) PGSIZE) ;; K new_page) Q s.
Proof.
  intros Hu Hk Hf Hne HK. rewrite wp_bind. eapply wp_kalloc_cons; [done..|].
  pose proof (ko_range _ _ Hk) as Hr. apply Forall_cons in Hr as [Hiu _].
  destruct (Z.eqb_spec (frame_addr i) 0) as [E|_]; [by apply frame_addr_nz in E; [|apply Hiu]|].
  rewrite wp_bind, wp_set_mem. apply HK. split; cbn; try done.
  - by apply kmem_ok_pop.
  - unfold ref_of, run_at; cbn. by rewrite lookup_insert_eq.
  - intros g Hg. unfold run_at; cbn. by rewrite lookup_insert_ne by done.
  - intros o Ho. rewrite load8_memmove by done. rewrite decide_True by (unfold PGSIZE; lia). f_equal. lia.
  - intros g Hg x Hx. rewrite load8_memmove by done. rewrite decide_False; [done|].
    unfold in_frame, frame_addr, PGSIZE in *. lia.
Qed.

Lemma copied_page_as_ok f i s s' l pd :
  as_ok s pd (i :: l) -> copied_page f i s s' l ->
  as_ok s' pd l /\ (forall k, 0 <= k < 1024 -> tbl (mem s') pd k = tbl (mem s) pd k) /\
  (forall va, pte_val (mem s') pd va = pte_val (mem s) pd va).
Proof.
  intros [Hu Hk Hw Hf] Hc. pose proof (Hf i ltac:(apply elem_of_cons; by left)) as Hi.
  destruct (pt_frame (mem s) (mem s') pd Hw) as (Hw' & Ht & Hv).
  { intros g Hg. apply (cp_mem _ _ _ _ _ Hc). intros ->. done. }
  split_and!; try done. split; [|apply Hc|done|].
  - unfold kmem_unlocked. rewrite (cp_lock _ _ _ _ _ Hc), (cp_state _ _ _ _ _ Hc). done.
  - intros g Hg. rewrite (owns_frame (mem s)) by done. apply Hf, elem_of_cons. by right.
Qed.

(** The page of [va] moved to frame [i]. *)
Lemma user_ok_moved s s' pd va i :
  user_ok s pd -> user_frame i -> ~ owns (mem s) pd i ->
  (forall va', 0 <= va' < KERNBASE -> present (mem s) pd va' -> uframe (mem s) pd va' ≠ i) ->
  (forall g, owns (mem s') pd g <-> owns (mem s) pd g) ->
  (forall va', vpn va ≠ vpn va' -> pte_val (mem s') pd va' = pte_val (mem s) pd va') ->
  (forall va', vpn va = vpn va' -> uframe (mem s') pd va' = i) ->
  1 <= ref_of s' i < 2147483648 ->
  (forall va', vpn va ≠ vpn va' -> 0 <= va' < KERNBASE -> present (mem s) pd va' ->
     1 <= ref_of s' (uframe (mem s) pd va') < 2147483648) ->
  user_ok s' pd.
Proof.
  intros Hu Hi Hio Hni Hown Hother Hthis Hri Href. split.
  - intros va' Hva' HP. destruct (decide (vpn va = vpn va')) as [E|E].
    + rewrite Hthis, Hown by done. done.
    + unfold present, uframe in *. rewrite Hother in * by done.
      destruct (uo_frame _ _ Hu va' Hva' HP) as (G1 & G2 & _). rewrite Hown. split_and!; try done; by apply Href.
  - intros va1 va2 H1 H2 P1 P2.
    destruct (decide (vpn va = vpn va1)) as [E1|E1], (decide (vpn va = vpn va2)) as [E2|E2].
    + congruence.
    + rewrite (Hthis va1) by done. unfold present, uframe in *. rewrite (Hother va2) in * by done.
      intros E. by destruct (Hni va2 H2 P2).
    + rewrite (Hthis va2) by done. unfold present, uframe in *. rewrite (Hother va1) in * by done.
      intros E. by destruct (Hni va1 H1 P1).
    + unfold present, uframe in *. rewrite !Hother in * by done. by apply (uo_inj _ _ Hu).
Qed.

(** After a page was copied to frame [i] all pages show the bytes they did. *)
Lemma uread_moved s s' pd va i v' :
  user_ok s pd -> 0 <= va < KERNBASE -> has (pte_val (mem s) pd va) PTE_P = true -> 0 <= i < MAXPAGES ->
  (forall va', vpn va ≠ vpn va' -> pte_val (mem s') pd va' = pte_val (mem s) pd va') ->
  (forall va', vpn va = vpn va' -> pte_val (mem s') pd va' = v') ->
  has v' PTE_P = true -> has v' PTE_U = has (pte_val (mem s) pd va) PTE_U -> PTE_ADDR v' = i * PGSIZE ->
  (forall o, 0 <= o < 4096 -> load8 (mem s') (frame_addr i + o) = load8 (mem s) (frame_addr (uframe (mem s) pd va) + o)) ->
  (forall g, g ≠ i -> ~ owns (mem s) pd g -> 0 <= g < MAXPAGES -> same_frame (mem s) (mem s') g) ->
  (forall va', 0 <= va' < KERNBASE -> present (mem s) pd va' -> uframe (mem s) pd va' ≠ i) ->
  forall va', 0 <= va' < KERNBASE -> uread (mem s') pd va' = uread (mem s) pd va'.
Proof.
  intros Hu Hva HP Hi Hother Hthis C2 C4 C1 Hcopy Hmem Hni va' Hva'. destruct (uo_frame _ _ Hu va Hva HP) as (Hfu & _ & _).
  destruct (decide (vpn va = vpn va')) as [E|E].
  - assert (pte_val (mem s) pd va' = pte_val (mem s) pd va) as Ev by (by apply pte_val_vpn).
    apply uread_same; [by rewrite Hthis, Ev, C2, HP|by rewrite Hthis, Ev, C4|]. intros _.
    assert (uframe (mem s') pd va' = i) as -> by (unfold uframe; rewrite Hthis, C1 by done; by rewrite Z.div_mul).
    assert (uframe (mem s) pd va' = uframe (mem s) pd va) as -> by (unfold uframe; by rewrite Ev).
    split_and!; try apply Hfu; try apply Hi. exact Hcopy.
  - apply uread_same; [by rewrite Hother..|].
    intros HP'. unfold uframe. rewrite Hother by done. fold (uframe (mem s) pd va').
    destruct (uo_frame _ _ Hu va' Hva' HP') as (G1 & G2 & G3). split_and!; try apply G1.
    intros o Ho. apply (Hmem (uframe (mem s) pd va')); [by apply Hni|done|apply G1|unfold in_frame; lia].
Qed.

Lemma cow_split_resolved s s1 s2 pd i l va nx :
  as_ok s pd (i :: l) -> user_ok s pd -> 0 <= va < KERNBASE ->
  let v := pte_val (mem s) pd va in let f := uframe (mem s) pd va in
  has v PTE_P = true -> 1 < ref_of s f -> copied_page f i s s1 l ->
  stored pd va (cow_private v (i * PGSIZE)) s1 s2 l ->
  cow_resolved pd va s {| s2 with km := set_run f (mk_run nx (ref_of s f + -1)) (km s2) |} (i :: l) l.
Proof.
  intros Hok Hu Hva v f HP Hr Hc Hst.
  destruct (uo_frame _ _ Hu va Hva HP) as (Hfu & Hfo & Hfr). fold f in Hfu, Hfo, Hfr, Hr.
  assert (forall g, 1 <= ref_of s g -> g ∉ i :: l) as Hnf by (intros; eapply in_free_ref; [apply Hok|done]).
  pose proof (Hnf f ltac:(lia)) as Hfl. apply not_elem_of_cons in Hfl as [Hfi Hfl].
  pose proof (ko_range _ _ (ok_kmem _ _ _ Hok)) as Hrg. apply Forall_cons in Hrg as [Hiu _].
  destruct (cow_private_facts v (i * PGSIZE)) as (C0 & C1 & C2 & C3 & C4).
  { apply pte_val_range. }
  { unfold page_aligned, PGSIZE. by apply Z.mod_mul. }
  { destruct Hiu as [Hi _]. revert Hi. change MAXPAGES with 57344. unfold PGSIZE, W32. lia. }
  destruct (copied_page_as_ok _ _ _ _ _ _ Hok Hc) as (Hok1 & Ht1 & Hv1).
  pose proof (st_ext _ _ _ _ _ _ Hst) as Hx. set (s' := {| s2 with km := _ |}).
  assert (forall va', pte_val (mem s') pd va' =
    if decide (vpn va = vpn va') then cow_private v (i * PGSIZE) else pte_val (mem s) pd va') as Hview.
  { intros va'. cbn. rewrite (st_view _ _ _ _ _ _ Hst). case_decide; [done|apply Hv1]. }
  assert (forall g, owns (mem s') pd g <-> owns (mem s) pd g) as Hown.
  { intros g. rewrite <- (owns_frame (mem s) (mem s1)) by done. apply (stored_owns _ _ _ _ _ _ _ Hst). }
  assert (~ owns (mem s) pd i) as Hio by (apply (ok_free _ _ _ Hok), elem_of_cons; by left).
  assert (forall g, g ≠ i -> g ≠ f -> ref_of s' g = ref_of s g) as Href.
  { intros g Hg Hgf. unfold ref_of. cbn. rewrite run_at_set_ne by done.
    by rewrite (st_km _ _ _ _ _ _ Hst), (cp_run _ _ _ _ _ Hc). }
  assert (ref_of s' i = 1) as Hri.
  { unfold ref_of. cbn. rewrite run_at_set_ne, (st_km _ _ _ _ _ _ Hst) by done. apply Hc. }
  assert (forall g, g ≠ i -> ~ owns (mem s) pd g -> 0 <= g < MAXPAGES -> same_frame (mem s) (mem s') g) as Hmem.
  { intros g Hg Ho Hrr. eapply same_frame_trans; [by apply (cp_mem _ _ _ _ _ Hc)|].
    apply (px_mem _ _ _ _ _ Hx); [|done]. by rewrite <- (Hown g) in Ho. }
  assert (uframe (mem s') pd va = i) as Eui.
  { unfold uframe. rewrite Hview, decide_True, C1 by done. by rewrite Z.div_mul. }
  assert (forall va', 0 <= va' < KERNBASE -> present (mem s) pd va' -> uframe (mem s) pd va' ≠ i) as Hni.
  { intros va' Hva' HP' E. destruct (uo_frame _ _ Hu va' Hva' HP') as (_ & _ & [G _]).
    apply Hnf in G. rewrite E in G. apply G, elem_of_cons. by left. }
  assert (forall va', vpn va ≠ vpn va' -> pte_val (mem s') pd va' = pte_val (mem s) pd va') as Hother.
  { intros va' E. rewrite Hview. by rewrite decide_False. }
  assert (forall va', vpn va = vpn va' -> pte_val (mem s') pd va' = cow_private v (i * PGSIZE)) as Hthis.
  { intros va' E. rewrite Hview. by rewrite decide_True. }
  split.
  - apply as_ok_ref; [apply Hx|done].
  - apply (user_ok_moved s s' pd va i); try done.
    + intros va' E. unfold uframe. rewrite Hthis, C1 by done. by rewrite Z.div_mul.
    + rewrite Hri. lia.
    + intros va' E Hva' HP'. destruct (uo_frame _ _ Hu va' Hva' HP') as (_ & _ & G).
      rewrite Href; [done|by apply Hni|]. intros E'. apply E. by apply (uo_inj _ _ Hu).
  - rewrite Hthis by done. done.
  - by rewrite Eui.
  - apply (uread_moved s s' pd va i (cow_private v (i * PGSIZE))); try done; [apply Hiu|].
    intros o Ho. fold f. rewrite <- (cp_copy _ _ _ _ _ Hc o Ho). cbn.
    apply (px_mem _ _ _ _ _ Hx i); [by rewrite <- (Hown i) in Hio|apply Hiu|unfold in_frame; lia].
  - intros g Hg Ho Hrr. apply not_elem_of_cons in Hg as [Hg _]. by apply Hmem.
  - intros g Hg Hgf. apply not_elem_of_cons in Hg as [Hg _]. by apply Href.
  - intros _. fold f. unfold ref_of at 1. cbn. rewrite run_at_set_eq. cbn. lia.
Qed.

(** The page was shared: it is copied and the old frame loses a reference. *)
Lemma wp_cow_split s pd i l va t :
  as_ok s pd (i :: l) -> user_ok s pd -> 0 <= va < KERNBASE -> tbl (mem s) pd (PDX va) = Some t ->
  has (pte_val (mem s) pd va) PTE_P = true -> 1 < ref_of s (uframe (mem s) pd va) ->
  let v := pte_val (mem s) pd va in let f := uframe (mem s) pd va in
  wp (new_page ← kalloc; if new_page =? 0 then ub else
      set_mem (fun m => memmove m new_page (frame_addr f) PGSIZE) ;;
      st32 (frame_addr t + 4 * PTX va) (Z.lor (Z.lor (Z.lor (V2P new_page) (PTE_FLAGS v)) PTE_P) PTE_W) ;;
      refDec (frame_addr f))
     (fun _ s' => cow_resolved pd va s s' (i :: l) l) s.
Proof.
  intros Hok Hu Hva Ht HP Hr v f.
  destruct (uo_frame _ _ Hu va Hva HP) as (Hfu & Hfo & Hfr). fold f in Hfu, Hfo, Hfr, Hr.
  assert (f ∉ i :: l) as Hfl by (eapply in_free_ref; [apply Hok|]; lia).
  apply not_elem_of_cons in Hfl as [Hfi Hfl].
  pose proof (ko_range _ _ (ok_kmem _ _ _ Hok)) as Hrg. apply Forall_cons in Hrg as [Hiu _].
  pose proof (ko_nodup _ _ (ok_kmem _ _ _ Hok)) as Hnd. apply NoDup_cons in Hnd as [Hil _].
  assert (V2P (frame_addr i) = i * PGSIZE) as Epa by (unfold frame_addr; destruct Hiu as [Hi _]; clear - Hi; page_lia).
  destruct (cow_private_facts v (i * PGSIZE)) as (C0 & C1 & C2 & C3 & C4).
  { apply pte_val_range. }
  { unfold page_aligned, PGSIZE. by apply Z.mod_mul. }
  { destruct Hiu as [Hi _]. revert Hi. change MAXPAGES with 57344. unfold PGSIZE, W32. lia. }
  eapply wp_copy_page; [apply Hok|apply Hok|done|done|]. intros s1 Hc. rewrite Epa.
  destruct (copied_page_as_ok _ _ _ _ _ _ Hok Hc) as (Hok1 & Ht1 & Hv1).
  fold (cow_private v (i * PGSIZE)). rewrite wp_bind.
  eapply wp_mono; [apply (wp_store_pte s1 pd l va t); [done|by rewrite Ht1 by apply PDX_range|done]|].
  intros [] s2 Hst. unfold refDec. pose proof (st_ext _ _ _ _ _ _ Hst) as Hx.
  apply wp_add_ref; [apply Hx|]. rewrite frame_of_addr by apply Hfu.
  assert (refcount (run_at (km s2) f) = ref_of s f) as Erf.
  { rewrite (st_km _ _ _ _ _ _ Hst), (cp_run _ _ _ _ _ Hc) by done. done. }
  rewrite Erf, (u32_small (ref_of s f + -1)) by (unfold W32; lia).
  apply (cow_split_resolved s s1 s2 pd i l va); done.
Qed.

(** Another address space whose frames are in use and are not frames of
    [pd] reads the same after the fault. *)
Definition separate (s : kstate) (pd pd' va : Z) (l : list Z) : Prop :=
  pt_wf (mem s) pd' /\ (forall f, owns (mem s) pd' f -> (f ∉ l) /\ ~ owns (mem s) pd f) /\
  (present (mem s) pd' va -> 0 <= uframe (mem s) pd' va < MAXPAGES /\ (uframe (mem s) pd' va ∉ l) /\
     ~ owns (mem s) pd (uframe (mem s) pd' va)).

Lemma uread_separate s s' pd pd' va l :
  (forall f, f ∉ l -> ~ owns (mem s) pd f -> 0 <= f < MAXPAGES -> same_frame (mem s) (mem s') f) ->
  separate s pd pd' va l -> uread (mem s') pd' va = uread (mem s) pd' va.
Proof.
  intros Hm (Hw & Ho & Hp). destruct (pt_frame (mem s) (mem s') pd' Hw) as (_ & _ & Hv).
  { intros f Hf. apply Hm; try apply (Ho f Hf). destruct Hf as [->|(i & Hi & Ht)]; [apply Hw|].
    by apply (wf_tbl _ _ Hw i). }
  apply uread_same; [by rewrite Hv..|]. unfold uframe. rewrite Hv. intros HP.
  destruct (Hp HP) as (H1 & H2 & H3). split_and!; try apply H1. intros o Hr.
  apply (Hm (uframe (mem s) pd' va)); [done..|]. unfold in_frame, uframe. lia.
Qed.

Lemma wp_cow_kills s pte va i p :
  curproc s = Some i -> procs s !! i = Some p -> tf p ≠ 0 -> pte ≠ 0 ->
  has (load32 (mem s) (tf p + TF_err)) FEC_WR = false \/ has (load32 (mem s) pte) PTE_COW = false ->
  wp (handle_cow_pagefault pte va) (fun _ s' =>
    s' = {| s with procs := <[i := {| p with killed := 1 |}]> (procs s) |}) s.
Proof.
  intros Hc Hp Htf Hpte H. unfold handle_cow_pagefault.
  assert (curp s = Some p) as Hcp by (unfold curp; by rewrite Hc).
  assert (wp (set_cur (fun p => {| p with killed := 1 |})) (fun _ s' =>
    s' = {| s with procs := <[i := {| p with killed := 1 |}]> (procs s) |}) s) as Hk.
  { apply (wp_set_cur i); [done|]. by rewrite (list_alter_insert_lookup _ _ _ p). }
  rewrite wp_bind, (wp_cur p) by done. rewrite wp_bind, wp_ldf by done.
  destruct (has (load32 (mem s) (tf p + TF_err)) FEC_WR); [|done].
  destruct H as [|H]; [done|]. rewrite wp_bind, wp_ld32, H by done. done.
Qed.

(** C2. A write fault on a copy-on-write page is resolved: afterwards the
    page is writable and its frame has this process as only user, the process reads the same
    bytes everywhere, and so does every other address space, whether it shared the page
    or not; the frame that was shared has one reference less. *)
Theorem handle_cow_pagefault_correct s pd l va t p :
  as_ok s pd l -> user_ok s pd -> l ≠ [] -> 0 <= va < KERNBASE ->
  tbl (mem s) pd (PDX va) = Some t -> curp s = Some p -> tf p ≠ 0 ->
  has (load32 (mem s) (tf p + TF_err)) FEC_WR = true ->
  has (pte_val (mem s) pd va) PTE_P = true -> has (pte_val (mem s) pd va) PTE_COW = true ->
  wp (handle_cow_pagefault (frame_addr t + 4 * PTX va) va) (fun _ s' => exists l',
    cow_resolved pd va s s' l l' /\
    forall pd' va', separate s pd pd' va' l -> uread (mem s') pd' va' = uread (mem s) pd' va') s.
Proof.
  intros Hok Hu Hl Hva Ht Hp Htf Herr HP Hcow.
  assert (forall s' l', cow_resolved pd va s s' l l' -> exists l', cow_resolved pd va s s' l l' /\
    forall pd' va', separate s pd pd' va' l -> uread (mem s') pd' va' = uread (mem s) pd' va') as Hend.
  { intros s' l' Hc. exists l'. split; [done|]. intros pd' va' Hs.
    eapply uread_separate; [|done]. apply Hc. }
  unfold handle_cow_pagefault. rewrite wp_bind, (wp_cur p) by done. rewrite wp_bind, wp_ldf, Herr by done.
  destruct (wf_tbl _ _ (ok_wf _ _ _ Hok) _ _ (PDX_range va) Ht) as [Htr _]. pose proof (PTX_range va).
  rewrite wp_bind, wp_ld32 by (unfold frame_addr, KERNBASE, PGSIZE; lia).
  assert (load32 (mem s) (frame_addr t + 4 * PTX va) = pte_val (mem s) pd va) as ->.
  { unfold pte_val. by rewrite Ht. }
  rewrite Hcow. cbn [negb]. destruct (uo_frame _ _ Hu va Hva HP) as (Hfu & Hfo & Hfr).
  rewrite P2V_PTE_ADDR by apply Hfu. fold (uframe (mem s) pd va).
  rewrite wp_bind, wp_getRefs, frame_of_addr by apply Hfu. fold (ref_of s (uframe (mem s) pd va)).
  rewrite s32_small by lia. destruct (Z.ltb_spec 1 (ref_of s (uframe (mem s) pd va))) as [Hr|Hr].
  - destruct l as [|i l]; [done|].
    eapply wp_mono; [by apply (wp_cow_split s pd i l va t)|]. intros [] s'. apply Hend.
  - eapply wp_mono; [apply (wp_cow_reclaim s pd l va t); try done; lia|]. intros [] s'. apply Hend.
Qed.

(** A fault that is not a write, or is on a page that is not
    copy-on-write, marks the process as killed and changes nothing else. *)
Theorem handle_cow_pagefault_kills s pte va i p :
  curproc s = Some i -> procs s !! i = Some p -> tf p ≠ 0 -> pte ≠ 0 ->
  has (load32 (mem s) (tf p + TF_err)) FEC_WR = false \/ has (load32 (mem s) pte) PTE_COW = false ->
  wp (handle_cow_pagefault pte va) (fun _ s' =>
    s' = {| s with procs := <[i := {| p with killed := 1 |}]> (procs s) |}) s.
Proof. apply wp_cow_kills. Qed.

End Cow.

(** ** Witnesses *)

Lemma cowuvm_correct_witness :
  wp (cowuvm (KI := xv6_image) (frame_addr 1000) 100) (fun r s' => exists d, r = frame_addr d /\
    uread (mem s') d 8 = uread (mem (demo_user 7 1)) 1000 8) (demo_user 7 1).
Proof.
  assert (vpn 8 < (100 + 4095) / PGSIZE) as H8 by reflexivity.
  eapply wp_mono; [apply (cowuvm_correct (KI := xv6_image) _ 1000 _ 100 (demo_user_as_ok 7 1)
    (demo_user_ok 7 1 ltac:(lia) ltac:(lia)))|].
  - unfold KERNBASE. lia.
  - rewrite length_seqZ. lia.
  - intros va Hva Hv. cbn [mem demo_user]. rewrite demo_pte. rewrite decide_True; [reflexivity|].
    change ((100 + 4095) / PGSIZE) with 1 in Hv. pose proof (vpn_range va Hva). lia.
  - intros f. unfold ref_of, run_at. cbn [km demo_user demo_runs runs]. rewrite !lookup_insert.
    repeat case_decide; cbn; try lia. rewrite free_runs_lookup. case_decide; cbn; lia.
  - intros r s' (d & l' & -> & _ & _ & H). exists d. split; [reflexivity|]. apply H; [unfold KERNBASE; lia|exact H8].
Defined.

(** A write fault (error code 7) on a page shared by two processes. *)
Definition demo_fault (r : Z) : kstate :=
  {| (demo_user 0x405 r) with mem := store32 (demo_dir 0x405) (0x80300000 + TF_err) 7 |}.
Lemma demo_fault_frame f : 1000 <= f -> same_frame (demo_dir 0x405) (mem (demo_fault 2)) f.
Proof.
  intros Hf x Hx. cbn [mem demo_fault]. apply load8_store32_ne.
  unfold in_frame, frame_addr, PGSIZE, KERNBASE, TF_err in *. lia.
Qed.
Lemma demo_fault_view :
  pt_wf (mem (demo_fault 2)) 1000 /\
  (forall i, 0 <= i < 1024 -> tbl (mem (demo_fault 2)) 1000 i = tbl (demo_dir 0x405) 1000 i) /\
  (forall va, pte_val (mem (demo_fault 2)) 1000 va = pte_val (demo_dir 0x405) 1000 va).
Proof.
  apply pt_frame; [apply demo_wf|]. intros f [->| ->]%demo_owns; apply demo_fault_frame; lia.
Qed.
Lemma demo_fault_as_ok : @as_ok xv6_image (demo_fault 2) 1000 (seqZ 2000 1200).
Proof.
  destruct demo_fault_view as (Hw & Ht & _).
  split; [right; apply not_elem_of_nil|apply demo_runs_ok|exact Hw|].
  intros f Hf Ho. apply (owns_frame (demo_dir 0x405)) in Ho; [|done].
  by apply (ok_free _ _ _ (demo_user_as_ok 0x405 2) f Hf).
Qed.
Lemma demo_fault_user_ok : @user_ok xv6_image (demo_fault 2) 1000.
Proof.
  destruct demo_fault_view as (_ & Ht & Hv). pose proof (demo_user_ok 0x405 2 ltac:(lia) ltac:(lia)) as [H1 H2].
  split.
  - intros va Hva. unfold present, uframe. rewrite Hv. rewrite (owns_frame (demo_dir 0x405)) by done.
    by apply (H1 va).
  - intros va va' Hva Hva'. unfold present, uframe. rewrite !Hv. by apply (H2 va va').
Qed.

Lemma handle_cow_pagefault_correct_witness :
  wp (handle_cow_pagefault (frame_addr 1001 + 4 * PTX 0) 0) (fun _ s' =>
    has (pte_val (mem s') 1000 0) PTE_W = true) (demo_fault 2).
Proof.
  destruct demo_fault_view as (_ & Ht & Hv).
  eapply wp_mono; [apply (handle_cow_pagefault_correct (KI := xv6_image) _ 1000 _ 0 1001 demo_proc
    demo_fault_as_ok demo_fault_user_ok)|].
  - rewrite seqZ_cons by lia. discriminate.
  - unfold KERNBASE. lia.
  - rewrite Ht by apply PDX_range. reflexivity.
  - reflexivity.
  - discriminate.
  - reflexivity.
  - rewrite Hv, demo_pte. reflexivity.
  - rewrite Hv, demo_pte. reflexivity.
  - intros r s' (l' & H & _). apply H.
Defined.

Lemma handle_cow_pagefault_kills_witness :
  wp (handle_cow_pagefault (frame_addr 1001) 0) (fun _ s' =>
    s' = {| (demo_user 5 2) with procs := [ {| demo_proc with killed := 1 |} ] |}) (demo_user 5 2).
Proof.
  apply (handle_cow_pagefault_kills (demo_user 5 2) (frame_addr 1001) 0 0 demo_proc); try reflexivity; try discriminate.
  left. reflexivity.
Defined.
