(* ===== verification/Replace.v ===== *)
(** Page replacement policies (vm.c): the counters of NFUA and LAPA and their
    aging, second-chance FIFO with its clock hand, and the advancing queue
    AQ, a doubly linked list of [queue_node]s; [indexToEvict] selects the
    policy the kernel was compiled with. *)

From S2P Require Import Prelude Mmu Memory Machine Kalloc PageTable.
From stdpp Require Import base gmap list strings sorting.
From Stdlib Require Import ZArith Lia.
Open Scope Z_scope.

(** ** NFUA and LAPA: selection by counter *)

(** [while (n) { count += n & 1; n >>= 1; }]; a 32-bit value is 0 after 32
    rounds. *)
Fixpoint countSetBits_loop (n count : Z) (fuel : nat) : Z :=
  match fuel with
  | O => count
  | S fuel' =>
      if n =? 0 then count
      else countSetBits_loop (Z.shiftr n 1) (u32 (count + Z.land n 1)) fuel'
  end.
Definition countSetBits (n : Z) : Z := countSetBits_loop n 0 32.

(** The loop of [nfua] over the entries from index [i] on. *)
Fixpoint nfua_loop (rest : list page) (i minval minloc : Z) : Z :=
  match rest with
  | [] => minloc
  | p :: rest' =>
      if nfua_counter p <? minval then nfua_loop rest' (i + 1) (nfua_counter p) i
      else nfua_loop rest' (i + 1) minval minloc
  end.
Definition nfua_index (ramPages : list page) : Z :=
  match ramPages with
  | [] => 0
  | p :: rest => nfua_loop rest 1 (nfua_counter p) 0
  end.

(** The first loop of [lapa] computes the least number of ones, the index of
    its first occurrence and the counter [instances]. *)
Fixpoint lapa_loop1 (rest : list page) (i minNumOfOnes minloc instances : Z) : Z * Z * Z :=
  match rest with
  | [] => (minNumOfOnes, minloc, instances)
  | p :: rest' =>
      let numOfOnes := countSetBits (lapa_counter p) in
      if numOfOnes <? minNumOfOnes then lapa_loop1 rest' (i + 1) numOfOnes i 1
      else if numOfOnes =? minNumOfOnes then lapa_loop1 rest' (i + 1) minNumOfOnes minloc (instances + 1)
      else lapa_loop1 rest' (i + 1) minNumOfOnes minloc instances
  end.
Fixpoint lapa_loop2 (rest : list page) (i minNumOfOnes minvalue minloc : Z) : Z :=
  match rest with
  | [] => minloc
  | p :: rest' =>
      if ((countSetBits (lapa_counter p) =? minNumOfOnes) && (lapa_counter p <? minvalue))%bool
      then lapa_loop2 rest' (i + 1) minNumOfOnes (lapa_counter p) i
      else lapa_loop2 rest' (i + 1) minNumOfOnes minvalue minloc
  end.
Definition lapa_index (ramPages : list page) : Z :=
  match ramPages with
  | [] => 0
  | p :: rest =>
      let '(minNumOfOnes, minloc, instances) :=
        lapa_loop1 rest 1 (countSetBits (lapa_counter p)) 0 0 in
      if 1 <? instances then
        let minvalue := lapa_counter (default page_zero (ramPages !! Z.to_nat minloc)) in
        lapa_loop2 rest 1 minNumOfOnes minvalue minloc
      else minloc
  end.

Section Replace.
Context {KI : KernelImage}.

Definition nfua : M kstate Z := p ← cur; mret (nfua_index (ramPages p)).
Definition lapa : M kstate Z := p ← cur; mret (lapa_index (ramPages p)).

(** ** Aging of the counters *)

(** [p->ramPages[i]] and an assignment to it. *)
Definition ram_page (pi i : nat) : M kstate page :=
  p ← get_proc pi; match ramPages p !! i with Some pg => mret pg | None => ub end.
Definition set_ram_page (pi i : nat) (f : page -> page) : M kstate unit :=
  set_proc pi (fun p => {| p with ramPages := alter f i (ramPages p) |}).

(** The bodies of [updateNfua] and [updateLapa]: shift the counter right and
    enter the accessed bit at the top, then clear that bit of the entry. *)
Definition updateNfua (pi : nat) : M kstate unit :=
  for_each (indices MAX_PSYC_PAGES) (fun i =>
    pg ← ram_page pi i;
    when (negb (isused pg =? 0)) (
      pte ← walkpgdir (page_pgdir pg) (virt_addr pg) false;
      if pte =? 0 then panic "updateNfua: no pte" else
      v ← ld32 pte;
      if has v PTE_A then
        set_ram_page pi i (fun pg => {| pg with nfua_counter := Z.shiftr (nfua_counter pg) 1 |}) ;;
        set_ram_page pi i (fun pg => {| pg with nfua_counter := Z.lor (nfua_counter pg) 0x80000000 |}) ;;
        st32 pte (clr v PTE_A)
      else
        set_ram_page pi i (fun pg => {| pg with nfua_counter := Z.shiftr (nfua_counter pg) 1 |}))).

(** [1 << 31] is converted to [uint] by the compound assignment. *)
Definition updateLapa (pi : nat) : M kstate unit :=
  for_each (indices MAX_PSYC_PAGES) (fun i =>
    pg ← ram_page pi i;
    when (negb (isused pg =? 0)) (
      pte ← walkpgdir (page_pgdir pg) (virt_addr pg) false;
      if pte =? 0 then panic "updateLapa: no pte" else
      v ← ld32 pte;
      if has v PTE_A then
        set_ram_page pi i (fun pg => {| pg with lapa_counter := Z.shiftr (lapa_counter pg) 1 |}) ;;
        set_ram_page pi i (fun pg => {| pg with lapa_counter := Z.lor (lapa_counter pg) (u32 (Z.shiftl 1 31)) |}) ;;
        st32 pte (clr v PTE_A)
      else
        set_ram_page pi i (fun pg => {| pg with lapa_counter := Z.shiftr (lapa_counter pg) 1 |}))).

(** ** Second-chance FIFO *)

Definition cur_ram_page (i : nat) : M kstate page :=
  p ← cur; match ramPages p !! i with Some pg => mret pg | None => ub end.

(** The two [for] loops: [None] when they run to their end. The first tests
    [clockHand] when it advances it; the bound of the second is reread. *)
Fixpoint scfifo_up (i : nat) (n : nat) : M kstate (option Z) :=
  match n with
  | O => mret None
  | S n' =>
      pg ← cur_ram_page i;
      pte ← walkpgdir (page_pgdir pg) (virt_addr pg) false;
      v ← ld32 pte;
      if negb (has v PTE_A) then
        p ← cur;
        (if clockHand p =? 15 then set_cur (fun p => {| p with clockHand := 0 |})
         else set_cur (fun p => {| p with clockHand := Z.of_nat i + 1 |})) ;;
        mret (Some (Z.of_nat i))
      else st32 pte (clr v PTE_A) ;; scfifo_up (S i) n'
  end.
Fixpoint scfifo_down (j : nat) (fuel : nat) : M kstate (option Z) :=
  p ← cur;
  if Z.of_nat j <? clockHand p then
    match fuel with
    | O => diverge
    | S fuel' =>
        pg ← cur_ram_page j;
        pte ← walkpgdir (page_pgdir pg) (virt_addr pg) false;
        v ← ld32 pte;
        if negb (has v PTE_A) then
          set_cur (fun p => {| p with clockHand := Z.of_nat j + 1 |}) ;;
          mret (Some (Z.of_nat j))
        else st32 pte (clr v PTE_A) ;; scfifo_down (S j) fuel'
    end
  else mret None.
(** [while(1)]: [rounds] bounds the number of passes. *)
Fixpoint scfifo_while (rounds : nat) : M kstate Z :=
  match rounds with
  | O => diverge
  | S rounds' =>
      p ← cur;
      r ← scfifo_up (Z.to_nat (clockHand p)) (MAX_PSYC_PAGES - Z.to_nat (clockHand p));
      match r with
      | Some i => mret i
      | None =>
          r ← scfifo_down 0 (S MAX_PSYC_PAGES);
          match r with
          | Some j => mret j
          | None => scfifo_while rounds'
          end
      end
  end.
(** Two passes are enough: the first clears every accessed bit it meets. *)
Definition scfifo : M kstate Z := scfifo_while 2.

(** ** The advancing queue *)

(** Offsets of the fields of [struct queue_node]. *)
Definition QN_next : Z := 0.
Definition QN_prev : Z := 4.
Definition QN_page_index : Z := 8.

Definition aq : M kstate Z :=
  p ← cur;
  res ← ldf (queue_tail p) QN_page_index;
  if ((queue_tail p =? 0) || (queue_head p =? 0))%bool
  then panic "AQ INDEX SELECTION: empty queue cann't make index selection!" else
  new_tail ←
    (if queue_tail p =? queue_head p then
       set_cur (fun p => {| p with queue_head := 0 |}) ;; mret 0
     else
       prev ← ldf (queue_tail p) QN_prev;
       stf prev QN_next 0 ;;
       ldf (queue_tail p) QN_prev);
  set_cur (fun p => {| p with queue_tail := new_tail |}) ;;
  mret res.

Definition swapAQ (curr_node : Z) : M kstate unit :=
  prev_node ← ldf curr_node QN_prev;
  p ← cur;
  when (curr_node =? queue_tail p) (
    set_cur (fun p => {| p with queue_tail := prev_node |}) ;;
    p ← cur; stf (queue_tail p) QN_next 0) ;;
  p ← cur;
  when (prev_node =? queue_head p) (
    set_cur (fun p => {| p with queue_head := curr_node |}) ;;
    p ← cur; stf (queue_head p) QN_prev 0) ;;
  maybeLeft ← ldf prev_node QN_prev;
  maybeRight ← ldf curr_node QN_next;
  stf curr_node QN_next prev_node ;;
  stf prev_node QN_prev curr_node ;;
  when (negb (maybeLeft =? 0)) (
    stf curr_node QN_prev maybeLeft ;;
    stf maybeLeft QN_next curr_node) ;;
  when (negb (maybeRight =? 0)) (
    stf prev_node QN_next maybeRight ;;
    stf maybeRight QN_prev prev_node).

(** An element of [ramPages], by the [int] index a node holds. *)
Definition ram_index (pi : nat) (i : Z) : M kstate page :=
  if (i <? 0)%Z then ub else ram_page pi (Z.to_nat i).

(** The loop of [updateAQ]: [curr_page] and [prev_page] are indices into
    [ramPages] and lag behind [curr_node] as in the source. *)
Fixpoint updateAQ_loop (pi : nat) (curr_node curr_page prev_page : Z) (fuel : nat) : M kstate unit :=
  if curr_node =? 0 then mret tt else
  match fuel with
  | O => diverge
  | S fuel' =>
      cp ← ram_index pi curr_page;
      pte_curr ← walkpgdir (page_pgdir cp) (virt_addr cp) false;
      if pte_curr =? 0 then panic "updateAQ: no pte" else
      v ← ld32 pte_curr;
      when (has v PTE_A) (
        prev ← ldf curr_node QN_prev;
        when (negb (prev =? 0)) (
          pp ← ram_index pi prev_page;
          pte_prev ← walkpgdir (page_pgdir pp) (virt_addr pp) false;
          if pte_prev =? 0 then panic "updateAQ: no pte" else
          w ← ld32 pte_prev;
          when (negb (has w PTE_A)) (swapAQ curr_node)) ;;
        v ← ld32 pte_curr;
        st32 pte_curr (clr v PTE_A)) ;;
      curr_page ← ldf curr_node QN_page_index;
      prev ← ldf curr_node QN_prev;
      prev_page ← (if negb (prev =? 0) then ldf prev QN_page_index else mret prev_page);
      curr_node ← ldf curr_node QN_prev;
      updateAQ_loop pi curr_node (s32 curr_page) (s32 prev_page) fuel'
  end.
(** The queue has a node per resident page; [curr_node->page_index] is read
    before the queue is tested for being empty. *)
Definition updateAQ (pi : nat) (fuel : nat) : M kstate unit :=
  p ← get_proc pi;
  let curr_node := queue_tail p in
  curr_page ← ldf curr_node QN_page_index;
  if ((queue_tail p =? 0) || (queue_head p =? 0))%bool then mret tt else
  prev ← ldf curr_node QN_prev;
  if prev =? 0 then mret tt else
  prev_page ← ldf prev QN_page_index;
  updateAQ_loop pi curr_node (s32 curr_page) (s32 prev_page) fuel.

(** The functions called for the compiled policy; a policy with no function
    of its own evicts index 11 (and DUMMY index 3). *)
Definition indexToEvict (sel : selection_policy) : M kstate Z :=
  match sel with
  | DUMMY => mret 3
  | SCFIFO => scfifo
  | NFUA => nfua
  | LAPA => lapa
  | AQ => r ← aq; mret (u32 r)
  | NONE => mret 11
  end.

End Replace.

(** ** Counting bits *)

(** The number of ones among the bits [i], ..., [i + n - 1] of [x]. *)
Fixpoint ones_from (x i : Z) (n : nat) : Z :=
  match n with
  | O => 0
  | S n' => Z.b2z (Z.testbit x i) + ones_from x (i + 1) n'
  end.

Lemma ones_from_range x i n : 0 <= ones_from x i n <= Z.of_nat n.
Proof.
  revert i; induction n as [|n IH]; intros i; cbn [ones_from]; [lia|].
  specialize (IH (i + 1)).
  assert (0 <= Z.b2z (Z.testbit x i) <= 1) by (destruct (Z.testbit x i); cbn; lia). lia.
Qed.
Lemma ones_from_0 i n : ones_from 0 i n = 0.
Proof. revert i; induction n as [|n IH]; intros i; cbn [ones_from]; [done|]. by rewrite IH, Z.bits_0. Qed.
Lemma ones_from_shift x i n : 0 <= i -> ones_from (Z.shiftr x 1) i n = ones_from x (i + 1) n.
Proof.
  revert i; induction n as [|n IH]; intros i Hi; cbn [ones_from]; [done|].
  rewrite Z.shiftr_spec, IH by lia. done.
Qed.

Lemma countSetBits_loop_spec n c fuel :
  0 <= c -> c + Z.of_nat fuel < W32 -> countSetBits_loop n c fuel = c + ones_from n 0 fuel.
Proof.
  revert n c; induction fuel as [|fuel IH]; intros n c Hc Hw; cbn [countSetBits_loop]; [cbn; lia|].
  destruct (Z.eqb_spec n 0) as [->|Hn]; [rewrite ones_from_0; lia|].
  cbn [ones_from]. assert (Z.land n 1 = Z.b2z (Z.testbit n 0)) as ->.
  { rewrite Z.bit0_odd. change 1 with (Z.ones 1) at 1. rewrite Z.land_ones by lia. apply Zmod_odd. }
  assert (0 <= Z.b2z (Z.testbit n 0) <= 1) by (destruct (Z.testbit n 0); cbn; lia).
  rewrite u32_small by lia. rewrite IH by lia. rewrite ones_from_shift by lia. cbn [Z.add]. lia.
Qed.
Lemma countSetBits_ones n : countSetBits n = ones_from n 0 32.
Proof. unfold countSetBits. rewrite countSetBits_loop_spec; [lia|lia|reflexivity]. Qed.

(** ** Selection by counter *)

Lemma nfua_loop_spec pages : forall rest i minval minloc pre,
  pages = pre ++ rest -> i = Z.of_nat (length pre) -> 0 <= minloc < i ->
  (exists p, pages !! Z.to_nat minloc = Some p /\ nfua_counter p = minval) ->
  (forall j p, pre !! j = Some p -> minval <= nfua_counter p /\
     (Z.of_nat j < minloc -> minval < nfua_counter p)) ->
  let r := nfua_loop rest i minval minloc in
  0 <= r < Z.of_nat (length pages) /\ exists q, pages !! Z.to_nat r = Some q /\
  forall j p, pages !! j = Some p -> nfua_counter q <= nfua_counter p /\
    (Z.of_nat j < r -> nfua_counter q < nfua_counter p).
Proof.
  intros rest. induction rest as [|p rest IH]; intros i minval minloc pre Hp Hi Hm (q & Hq & Hqv) Hall; cbn [nfua_loop].
  - rewrite app_nil_r in Hp. subst pages i. split; [lia|]. exists q. split; [done|].
    intros j p' Hj. rewrite Hqv. by apply Hall.
  - assert (pages !! length pre = Some p) as Hpi by (rewrite Hp; by apply list_lookup_middle).
    destruct (Z.ltb_spec (nfua_counter p) minval) as [Hlt|Hge]; apply (IH _ _ _ (pre ++ [p]));
      try (rewrite length_app; cbn; lia); try (by rewrite <- app_assoc); try lia.
    + exists p. subst i. by rewrite Nat2Z.id.
    + intros j p' Hj. apply lookup_app_Some in Hj as [Hj|[Hlen Hj]].
      * destruct (Hall j p' Hj). split; lia.
      * apply list_lookup_singleton_Some in Hj as [Hj ->]. lia.
    + by exists q.
    + intros j p' Hj. apply lookup_app_Some in Hj as [Hj|[Hlen Hj]]; [by apply Hall|].
      apply list_lookup_singleton_Some in Hj as [Hj ->]. lia.
Qed.

(** [nfua] selects the page with the least aging counter, the first one
    if there are several. *)
Theorem nfua_least pages :
  pages ≠ [] ->
  let r := nfua_index pages in
  0 <= r < Z.of_nat (length pages) /\ exists q, pages !! Z.to_nat r = Some q /\
  forall j p, pages !! j = Some p -> nfua_counter q <= nfua_counter p /\
    (Z.of_nat j < r -> nfua_counter q < nfua_counter p).
Proof.
  intros Hne. destruct pages as [|p rest]; [done|]. cbn [nfua_index].
  apply (nfua_loop_spec (p :: rest) rest 1 (nfua_counter p) 0 [p]); [done|done|lia|by exists p|].
  intros j q Hj. apply list_lookup_singleton_Some in Hj as [-> ->]. lia.
Qed.

(** The number of pages of a list with [m] ones in the counter. *)
Definition ties (m : Z) (l : list page) : Z :=
  Z.of_nat (length (filter (fun p => countSetBits (lapa_counter p) = m) l)).
Definition ones (p : page) : Z := countSetBits (lapa_counter p).

Lemma ties_app m l1 l2 : ties m (l1 ++ l2) = ties m l1 + ties m l2.
Proof. unfold ties. rewrite filter_app, length_app. lia. Qed.
Lemma ties_one m p : ties m [p] = if decide (ones p = m) then 1 else 0.
Proof.
  unfold ties, ones. case_decide as E.
  - rewrite filter_cons_True by done. done.
  - rewrite filter_cons_False by done. done.
Qed.
Lemma ties_none m l : (forall p, p ∈ l -> ones p ≠ m) -> ties m l = 0.
Proof.
  unfold ties, ones. intros H. induction l as [|p l IH]; [done|].
  rewrite filter_cons_False by (apply H, elem_of_cons; by left). apply IH. intros q Hq. apply H, elem_of_cons. by right.
Qed.

Lemma ties_unique m l p q : ties m l <= 1 -> p ∈ l -> q ∈ l -> ones p = m -> ones q = m -> p = q.
Proof.
  unfold ties, ones. intros Ht Hp Hq Hpm Hqm.
  assert (p ∈ filter (fun p => countSetBits (lapa_counter p) = m) l) as H1 by (by apply list_elem_of_filter).
  assert (q ∈ filter (fun p => countSetBits (lapa_counter p) = m) l) as H2 by (by apply list_elem_of_filter).
  destruct (filter _ l) as [|x [|y l']]; cbn in Ht; [by apply not_elem_of_nil in H1| |lia].
  apply list_elem_of_singleton in H1, H2. congruence.
Qed.
Lemma ties_pos m l p : p ∈ l -> ones p = m -> 1 <= ties m l.
Proof.
  unfold ties, ones. intros Hp Hm.
  assert (p ∈ filter (fun p => countSetBits (lapa_counter p) = m) l) as H1 by (by apply list_elem_of_filter).
  destruct (filter _ l); [by apply not_elem_of_nil in H1|]. cbn. lia.
Qed.

Lemma lapa_loop1_spec p0 : forall rest pre m loc inst,
  0 <= loc < Z.of_nat (length (p0 :: pre)) ->
  (exists q, (p0 :: pre) !! Z.to_nat loc = Some q /\ ones q = m) ->
  (forall j q, (p0 :: pre) !! j = Some q -> m <= ones q /\ (Z.of_nat j < loc -> m < ones q)) ->
  inst = ties m pre ->
  let '(m', loc', inst') := lapa_loop1 rest (Z.of_nat (length (p0 :: pre))) m loc inst in
  let pages := p0 :: pre ++ rest in
  0 <= loc' < Z.of_nat (length pages) /\
  (exists q, pages !! Z.to_nat loc' = Some q /\ ones q = m') /\
  (forall j q, pages !! j = Some q -> m' <= ones q /\ (Z.of_nat j < loc' -> m' < ones q)) /\
  inst' = ties m' (pre ++ rest).
Proof.
  intros rest. induction rest as [|p rest IH]; intros pre m loc inst Hl Hq Hall Hinst; cbn [lapa_loop1].
  { rewrite app_nil_r. done. }
  fold (ones p). replace (Z.of_nat (length (p0 :: pre)) + 1) with (Z.of_nat (length (p0 :: pre ++ [p])))
    by (cbn [length]; rewrite length_app; cbn [length]; lia).
  replace (pre ++ p :: rest) with ((pre ++ [p]) ++ rest) by (by rewrite <- app_assoc).
  assert ((p0 :: pre ++ [p]) !! length (p0 :: pre) = Some p) as Hpi.
  { rewrite app_comm_cons. rewrite lookup_app_r by lia. by rewrite Nat.sub_diag. }
  assert (forall j q, (p0 :: pre ++ [p]) !! j = Some q ->
    (p0 :: pre) !! j = Some q \/ j = length (p0 :: pre) /\ q = p) as Hsplit.
  { intros j q Hj. rewrite app_comm_cons in Hj. apply lookup_app_Some in Hj as [Hj|[Hlen Hj]]; [by left|right].
    apply list_lookup_singleton_Some in Hj as [Hj ->]. split; [lia|done]. }
  assert (length (p0 :: pre ++ [p]) = S (length (p0 :: pre))) as Elen
    by (cbn [length]; rewrite length_app; cbn [length]; lia).
  assert (forall j q, (p0 :: pre) !! j = Some q -> (p0 :: pre ++ [p]) !! j = Some q) as Hext.
  { intros j q Hj. rewrite app_comm_cons. by apply lookup_app_l_Some. }
  destruct Hq as (q & Hq & Hqm).
  destruct (Z.ltb_spec (ones p) m) as [Hlt|Hge]; [|destruct (Z.eqb_spec (ones p) m) as [Heq|Hne]].
  - apply IH.
    + rewrite Elen. lia.
    + exists p. by rewrite Nat2Z.id.
    + intros j q' Hj. destruct (Hsplit j q' Hj) as [Hj'|[-> ->]]; [|lia].
      destruct (Hall j q' Hj'). split; lia.
    + rewrite ties_app, ties_one, decide_True by done. rewrite ties_none; [done|].
      intros q' Hq'. apply list_elem_of_lookup in Hq' as [j Hj]. destruct (Hall (S j) q' Hj). lia.
  - apply IH; [rewrite Elen; lia|by eauto| |].
    + intros j q' Hj. destruct (Hsplit j q' Hj) as [Hj'|[-> ->]]; [by apply Hall|lia].
    + rewrite ties_app, ties_one, decide_True by done. lia.
  - apply IH; [rewrite Elen; lia|by eauto| |].
    + intros j q' Hj. destruct (Hsplit j q' Hj) as [Hj'|[-> ->]]; [by apply Hall|lia].
    + rewrite ties_app, ties_one, decide_False by done. lia.
Qed.

Lemma lapa_loop2_spec p0 m : forall rest pre minv loc,
  0 <= loc < Z.of_nat (length (p0 :: pre ++ rest)) ->
  (exists q, (p0 :: pre ++ rest) !! Z.to_nat loc = Some q /\ ones q = m /\ lapa_counter q = minv) ->
  (forall q, q ∈ pre -> ones q = m -> minv <= lapa_counter q) ->
  (ones p0 = m -> minv <= lapa_counter p0) ->
  let r := lapa_loop2 rest (Z.of_nat (length (p0 :: pre))) m minv loc in
  let pages := p0 :: pre ++ rest in
  0 <= r < Z.of_nat (length pages) /\ exists q, pages !! Z.to_nat r = Some q /\ ones q = m /\
  forall p, p ∈ pages -> ones p = m -> lapa_counter q <= lapa_counter p.
Proof.
  intros rest. induction rest as [|p rest IH]; intros pre minv loc Hl (q & Hq & Hqm & Hqv) Hpre Hp0; cbn [lapa_loop2].
  { rewrite app_nil_r in *. split; [lia|]. exists q. split_and!; [done|done|]. rewrite Hqv.
    intros p [->|Hp]%elem_of_cons Hm; [by apply Hp0|by apply Hpre]. }
  fold (ones p). replace (Z.of_nat (length (p0 :: pre)) + 1) with (Z.of_nat (length (p0 :: pre ++ [p])))
    by (cbn [length]; rewrite length_app; cbn [length]; lia).
  assert (pre ++ p :: rest = (pre ++ [p]) ++ rest) as E by (by rewrite <- app_assoc). rewrite E in *.
  assert ((p0 :: (pre ++ [p]) ++ rest) !! length (p0 :: pre) = Some p) as Hpi.
  { rewrite <- app_assoc, app_comm_cons. by apply list_lookup_middle. }
  destruct (Z.eqb_spec (ones p) m) as [Hm|Hm]; cbn [andb]; [destruct (Z.ltb_spec (lapa_counter p) minv) as [Hlt|Hge]|].
  - apply IH.
    + cbn [length]. rewrite !length_app. cbn [length]. lia.
    + exists p. by rewrite Nat2Z.id.
    + intros q' [Hq'| ->%list_elem_of_singleton]%elem_of_app Hm'; [|lia]. specialize (Hpre q' Hq' Hm'). lia.
    + intros H0. specialize (Hp0 H0). lia.
  - apply IH; [done|by exists q| |done].
    intros q' [Hq'| ->%list_elem_of_singleton]%elem_of_app Hm'; [by apply Hpre|lia].
  - apply IH; [done|by exists q| |done].
    intros q' [Hq'| ->%list_elem_of_singleton]%elem_of_app Hm'; [by apply Hpre|lia].
Qed.

(** [lapa] selects a page whose counter has the least number of ones;
    among those pages it selects the one with the least counter, unless page 0 is one of exactly two. *)
Theorem lapa_least p0 rest :
  let pages := p0 :: rest in let r := lapa_index pages in
  0 <= r < Z.of_nat (length pages) /\ exists q, pages !! Z.to_nat r = Some q /\
  (forall p, p ∈ pages -> countSetBits (lapa_counter q) <= countSetBits (lapa_counter p)) /\
  (~ (ones p0 = ones q /\ ties (ones q) rest = 1) ->
   forall p, p ∈ pages -> ones p = ones q -> lapa_counter q <= lapa_counter p).
Proof.
  cbv zeta. cbn [lapa_index].
  pose proof (lapa_loop1_spec p0 rest [] (ones p0) 0 0) as H1. cbn [app length] in H1.
  specialize (H1 ltac:(lia) ltac:(by exists p0)). change (Z.of_nat 1) with 1 in H1. fold (ones p0).
  destruct (lapa_loop1 rest 1 (ones p0) 0 0) as [[m loc] inst].
  destruct H1 as (Hl & (q & Hq & Hqm) & Hall & Hinst); [|done|].
  { intros j q Hj. apply list_lookup_singleton_Some in Hj as [-> ->]. lia. }
  assert (forall p, p ∈ p0 :: rest -> m <= ones p) as Hmin.
  { intros p Hp. apply list_elem_of_lookup in Hp as [j Hj]. apply (Hall j p Hj). }
  destruct (Z.ltb_spec 1 inst) as [Hi|Hi].
  - change 1 with (Z.of_nat (length [p0])) at 1.
    destruct (lapa_loop2_spec p0 m rest [] (lapa_counter q) loc) as (Hr & q' & Hq' & Hqm' & Hle).
    + done.
    + by exists q.
    + intros q'. by intros ?%not_elem_of_nil.
    + intros Hm0. destruct (decide (loc = 0)) as [->|Hne].
      * cbn in Hq. injection Hq as <-. lia.
      * destruct (Hall 0%nat p0 eq_refl) as [_ H]. lia.
    + rewrite Hq. cbn [default]. split; [done|]. exists q'. split; [done|]. split.
      * intros p Hp. fold (ones q') (ones p). rewrite Hqm'. by apply Hmin.
      * intros _ p Hp Hpm. apply Hle; [done|congruence].
  - split; [done|]. exists q. split; [done|]. split.
    + intros p Hp. fold (ones q) (ones p). rewrite Hqm. by apply Hmin.
    + rewrite Hqm. intros Hno p Hp Hpm.
      assert (p = q) as ->; [|lia]. destruct (decide (loc = 0)) as [->|Hne].
      * cbn in Hq. injection Hq as <-. apply elem_of_cons in Hp as [->|Hp]; [done|].
        pose proof (ties_pos m rest p Hp Hpm). destruct Hno. split; [done|lia].
      * destruct (Hall 0%nat p0 eq_refl) as [_ H0].
        assert (q ∈ rest) as Hqr.
        { replace (Z.to_nat loc) with (S (Z.to_nat (loc - 1))) in Hq by lia. cbn in Hq.
          by apply list_elem_of_lookup_2 in Hq. }
        apply elem_of_cons in Hp as [->|Hp]; [lia|]. by apply (ties_unique m rest); [lia|..].
Qed.

(** The tie that [lapa] does not break: with page 0 and exactly one other page tied in the number of
    ones, page 0 is selected although the other page's counter is smaller. *)
Theorem lapa_tie_unbroken :
  exists pages p1, length pages = MAX_PSYC_PAGES /\ lapa_index pages = 0 /\ pages !! 1%nat = Some p1 /\
    countSetBits (lapa_counter p1) = countSetBits 2 /\ (lapa_counter <$> pages !! 0%nat) = Some 2 /\
    lapa_counter p1 < 2.
Proof.
  exists ({| page_zero with lapa_counter := 2 |} :: {| page_zero with lapa_counter := 1 |} ::
          replicate 14 {| page_zero with lapa_counter := 7 |}), {| page_zero with lapa_counter := 1 |}.
  vm_compute. done.
Qed.

(** ** Second-chance FIFO *)

(** The scan in clock order: pages with the bit set lose it until one without
    it is found. *)
Fixpoint clock_scan (bit : nat -> bool) (order : list nat) : option nat * list nat :=
  match order with
  | [] => (None, [])
  | i :: rest =>
      if bit i then let '(r, cl) := clock_scan bit rest in (r, i :: cl) else (Some i, [])
  end.

(** The view after the accessed bit of the pages [vas] was cleared. *)
Definition clear_A (t : Z -> Z) (vas : list Z) : Z -> Z := fun va =>
  if decide (vpn va ∈ (vpn <$> vas)) then clr (t va) PTE_A else t va.

Section Scfifo.
Context {KI : KernelImage}.
Context (pd : Z) (ci : nat) (p : proc) (s0 : kstate).
Hypothesis cur_ci : curproc s0 = Some ci.
Hypothesis cur_p : procs s0 !! ci = Some p.
Hypothesis ram_len : length (ramPages p) = MAX_PSYC_PAGES.
Hypothesis wf0 : pt_wf (mem s0) pd.
(** The resident pages are pages of [pd], all different. *)
Hypothesis ram_dir : forall i pg, ramPages p !! i = Some pg ->
  page_pgdir pg = frame_addr pd /\ is_Some (tbl (mem s0) pd (PDX (virt_addr pg))).
Hypothesis ram_inj : forall i j pg pg', ramPages p !! i = Some pg -> ramPages p !! j = Some pg' ->
  vpn (virt_addr pg) = vpn (virt_addr pg') -> i = j.

Definition ram_va (i : nat) : Z := virt_addr (default page_zero (ramPages p !! i)).
(** The accessed bit of the page at index [i] of the table. *)
Definition accessed (m : gmap Z Z) (i : nat) : bool := has (pte_val m pd (ram_va i)) PTE_A.

(** [s] is [s0] after clearing the bits of the pages [cl]. *)
Record bits_cleared (s : kstate) (cl : list nat) : Prop := {
  bc_state : s = {| s0 with mem := mem s |};
  bc_wf : pt_wf (mem s) pd;
  bc_tbl : forall i, 0 <= i < 1024 -> tbl (mem s) pd i = tbl (mem s0) pd i;
  bc_view : forall va, pte_val (mem s) pd va = clear_A (pte_val (mem s0) pd) (ram_va <$> cl) va
}.

Lemma bits_cleared_nil : bits_cleared s0 [].
Proof.
  split; [by destruct s0|done|done|]. intros va. unfold clear_A.
  rewrite decide_False; [done|]. apply not_elem_of_nil.
Qed.

Lemma ram_lookup i : (i < MAX_PSYC_PAGES)%nat -> ramPages p !! i = Some (default page_zero (ramPages p !! i)).
Proof. intros Hi. destruct (elem_of_split_length (ramPages p) i) as [pg E]; [lia|]. by rewrite E. Qed.

Lemma bits_cleared_other s cl i :
  bits_cleared s cl -> (i < MAX_PSYC_PAGES)%nat -> (forall j, j ∈ cl -> (j < MAX_PSYC_PAGES)%nat) -> i ∉ cl ->
  pte_val (mem s) pd (ram_va i) = pte_val (mem s0) pd (ram_va i).
Proof.
  intros Hb Hi Hcl Hn. rewrite (bc_view _ _ Hb). unfold clear_A. rewrite decide_False; [done|].
  rewrite list_elem_of_fmap. intros (va & E & Hva). apply list_elem_of_fmap in Hva as (j & -> & Hj).
  apply Hn. assert (i = j) as ->; [|done]. by eapply ram_inj; eauto using ram_lookup.
Qed.

(** Clearing one more bit. *)
Lemma bits_cleared_cons s cl i t :
  bits_cleared s cl -> (i < MAX_PSYC_PAGES)%nat -> (forall j, j ∈ cl -> (j < MAX_PSYC_PAGES)%nat) -> i ∉ cl ->
  tbl (mem s) pd (PDX (ram_va i)) = Some t ->
  bits_cleared {| s with mem := store32 (mem s) (frame_addr t + 4 * PTX (ram_va i))
    (clr (pte_val (mem s0) pd (ram_va i)) PTE_A) |} (cl ++ [i]).
Proof.
  intros Hb Hi Hcl Hn Ht. destruct (pte_val_store (mem s) pd (ram_va i) t
    (clr (pte_val (mem s0) pd (ram_va i)) PTE_A) (bc_wf _ _ Hb) Ht) as (Hw & Htbl & Hv).
  split.
  - cbn. by rewrite (bc_state _ _ Hb).
  - done.
  - intros k Hk. cbn. rewrite Htbl by done. by apply Hb.
  - intros va. cbn. rewrite Hv, (bc_view _ _ Hb). unfold clear_A. rewrite fmap_app, fmap_app. cbn [fmap list_fmap].
    destruct (decide (vpn (ram_va i) = vpn va)) as [E|E].
    + rewrite (decide_True (P := vpn va ∈ _)).
      2: { apply elem_of_app. right. apply list_elem_of_singleton. done. }
      rewrite (pte_val_vpn (mem s0) pd va (ram_va i)) by done. apply u32_small.
      pose proof (pte_val_range (mem s0) pd (ram_va i)) as Hr.
      pose proof (clr_bounds (pte_val (mem s0) pd (ram_va i)) PTE_A (proj1 Hr)). lia.
    + apply decide_ext. rewrite elem_of_app, list_elem_of_singleton. split; [by left|].
      intros [?|?]; [done|congruence].
Qed.

Definition set_hand (h : Z) (s : kstate) : kstate :=
  {| s with procs := alter (fun p => {| p with clockHand := h |}) ci (procs s) |}.

(** One page of a scan, followed by [K1] when it is chosen and by [K2] when
    its bit was cleared. *)
Lemma wp_scan_page {A} s cl i (K1 : M kstate A) (K2 : M kstate A) Q :
  bits_cleared s cl -> (i < MAX_PSYC_PAGES)%nat -> (forall j, j ∈ cl -> (j < MAX_PSYC_PAGES)%nat) -> i ∉ cl ->
  (accessed (mem s0) i = false -> wp K1 Q s) ->
  (accessed (mem s0) i = true -> forall s', bits_cleared s' (cl ++ [i]) -> wp K2 Q s') ->
  wp (pg ← cur_ram_page i;
      pte ← walkpgdir (page_pgdir pg) (virt_addr pg) false;
      v ← ld32 pte;
      if negb (has v PTE_A) then K1 else st32 pte (clr v PTE_A) ;; K2) Q s.
Proof.
  intros Hb Hi Hcl Hn H1 H2. pose proof (ram_lookup i Hi) as Hpg.
  destruct (ram_dir i _ Hpg) as [Hdir [t Ht]]. fold (ram_va i) in Ht.
  rewrite wp_bind. unfold cur_ram_page. rewrite wp_bind, (wp_cur p).
  2: { unfold curp. rewrite (bc_state _ _ Hb). cbn. by rewrite cur_ci. }
  rewrite Hpg, wp_ret, Hdir. fold (ram_va i).
  assert (tbl (mem s) pd (PDX (ram_va i)) = Some t) as Ht' by (rewrite (bc_tbl _ _ Hb); [done|apply PDX_range]).
  destruct (wf_tbl _ _ (bc_wf _ _ Hb) _ _ (PDX_range _) Ht') as [Htr _]. pose proof (PTX_range (ram_va i)).
  rewrite wp_bind. apply wp_walkpgdir_false; [apply Hb| |congruence].
  intros t' E. rewrite Ht' in E. injection E as <-.
  assert (frame_addr t + 4 * PTX (ram_va i) ≠ 0) as Hnz by (unfold frame_addr, KERNBASE, PGSIZE; lia).
  rewrite wp_bind, wp_ld32 by done.
  assert (load32 (mem s) (frame_addr t + 4 * PTX (ram_va i)) = pte_val (mem s0) pd (ram_va i)) as ->.
  { rewrite <- (bits_cleared_other s cl i) by done. unfold pte_val. by rewrite Ht'. }
  unfold accessed in *. destruct (has (pte_val (mem s0) pd (ram_va i)) PTE_A) eqn:E; cbn [negb]; [|by apply H1].
  rewrite wp_bind, wp_st32 by done. apply H2; [done|]. by apply bits_cleared_cons.
Qed.

(** The final state of a scan of [order] from hand [h]. *)
Definition scanned (h : Z) (order : list nat) (r : option Z) (s' : kstate) : Prop :=
  let '(x, cl) := clock_scan (accessed (mem s0)) order in
  r = Z.of_nat <$> x /\
  exists s1, bits_cleared s1 cl /\ s' = match x with Some _ => set_hand h s1 | None => s1 end.

Lemma bits_cleared_cur s cl : bits_cleared s cl -> curp s = Some p /\ curproc s = Some ci.
Proof. intros Hb. rewrite (bc_state _ _ Hb). unfold curp. cbn. by rewrite cur_ci. Qed.

Lemma clock_scan_app bit l1 l2 :
  clock_scan bit (l1 ++ l2) =
  let '(r, cl) := clock_scan bit l1 in
  match r with Some i => (Some i, cl) | None => let '(r', cl') := clock_scan bit l2 in (r', cl ++ cl') end.
Proof.
  induction l1 as [|i l1 IH]; cbn.
  - by destruct (clock_scan bit l2).
  - destruct (bit i); [|done]. rewrite IH. destruct (clock_scan bit l1) as [[r|] cl]; [done|].
    by destruct (clock_scan bit l2).
Qed.

Lemma wp_scfifo_up n : forall i s cl,
  bits_cleared s cl -> (i + n = MAX_PSYC_PAGES)%nat -> (forall j, j ∈ cl -> (j < i)%nat) ->
  wp (scfifo_up i n) (fun r s' =>
    let '(x, cl') := clock_scan (accessed (mem s0)) (seq i n) in r = Z.of_nat <$> x /\
    exists s1, bits_cleared s1 (cl ++ cl') /\
    s' = match x with
         | Some k => set_hand (if clockHand p =? 15 then 0 else Z.of_nat k + 1) s1
         | None => s1 end) s.
Proof.
  induction n as [|n IH]; intros i s cl Hb Hi Hcl; cbn [scfifo_up seq clock_scan].
  { apply wp_ret. split; [done|]. exists s. by rewrite app_nil_r. }
  apply (wp_scan_page s cl i); [done|lia| | | |].
  - intros j Hj. specialize (Hcl j Hj). lia.
  - intros Hin. specialize (Hcl i Hin). lia.
  - intros ->. destruct (bits_cleared_cur s cl Hb) as [Hp Hc].
    rewrite wp_bind, (wp_cur p) by done. rewrite wp_bind.
    destruct (clockHand p =? 15); apply (wp_set_cur ci); try done; apply wp_ret;
      (split; [done|]; exists s; by rewrite app_nil_r).
  - intros -> s' Hb'. eapply wp_mono.
    + apply (IH (S i) s' (cl ++ [i])); [done|lia|].
      intros j [Hj| ->%list_elem_of_singleton]%elem_of_app; [specialize (Hcl j Hj)|]; lia.
    + intros r s2. destruct (clock_scan (accessed (mem s0)) (seq (S i) n)) as [x cl'].
      intros [-> H]. split; [done|]. by rewrite <- app_assoc in H.
Qed.

Lemma wp_scfifo_down n : forall j s cl fuel,
  bits_cleared s cl -> Z.of_nat (j + n) = clockHand p -> (j + n <= MAX_PSYC_PAGES)%nat -> (n < fuel)%nat ->
  (forall k, k ∈ cl -> (k < j)%nat \/ (j + n <= k < MAX_PSYC_PAGES)%nat) ->
  wp (scfifo_down j fuel) (fun r s' =>
    let '(x, cl') := clock_scan (accessed (mem s0)) (seq j n) in r = Z.of_nat <$> x /\
    exists s1, bits_cleared s1 (cl ++ cl') /\
    s' = match x with Some k => set_hand (Z.of_nat k + 1) s1 | None => s1 end) s.
Proof.
  induction n as [|n IH]; intros j s cl fuel Hb Hj Hm Hf Hcl; (destruct fuel as [|fuel]; [lia|]);
    cbn [scfifo_down seq clock_scan]; destruct (bits_cleared_cur s cl Hb) as [Hp Hc];
    rewrite wp_bind, (wp_cur p) by done.
  - destruct (Z.ltb_spec (Z.of_nat j) (clockHand p)); [lia|]. apply wp_ret. split; [done|].
    exists s. by rewrite app_nil_r.
  - destruct (Z.ltb_spec (Z.of_nat j) (clockHand p)); [|lia].
    apply (wp_scan_page s cl j); [done|lia| | | |].
    + intros k Hk. specialize (Hcl k Hk). lia.
    + intros Hin. specialize (Hcl j Hin). lia.
    + intros ->. rewrite wp_bind. apply (wp_set_cur ci); [done|]. apply wp_ret.
      split; [done|]. exists s. by rewrite app_nil_r.
    + intros -> s' Hb'. eapply wp_mono.
      * apply (IH (S j) s' (cl ++ [j]) fuel); [done|lia|lia|lia|].
        intros k [Hk| ->%list_elem_of_singleton]%elem_of_app; [specialize (Hcl k Hk)|]; lia.
      * intros r s2. destruct (clock_scan (accessed (mem s0)) (seq (S j) n)) as [x cl'].
        intros [-> H']. split; [done|]. by rewrite <- app_assoc in H'.
Qed.

(** The order in which the pages are visited from hand [h]. *)
Definition clock_order (h : nat) : list nat := seq h (MAX_PSYC_PAGES - h) ++ seq 0 h.
(** The hand after page [i] was chosen. *)
Definition next_hand (i : nat) : Z :=
  if Z.of_nat i <? clockHand p then Z.of_nat i + 1
  else if clockHand p =? 15 then 0 else Z.of_nat i + 1.

Lemma clock_scan_in bit order i cl : clock_scan bit order = (Some i, cl) -> i ∈ order.
Proof.
  revert cl; induction order as [|j order IH]; intros cl; cbn; [done|].
  destruct (bit j).
  - destruct (clock_scan bit order) as [r cl'] eqn:E. intros [= -> <-]. apply elem_of_cons. right. by eapply IH.
  - intros [= -> <-]. apply elem_of_cons. by left.
Qed.
Lemma clock_scan_None bit order cl : clock_scan bit order = (None, cl) -> cl = order.
Proof.
  revert cl; induction order as [|j order IH]; intros cl; cbn; [by intros [= <-]|].
  destruct (bit j); [|done]. destruct (clock_scan bit order) as [r cl'] eqn:E. intros [= -> <-].
  f_equal. by apply IH.
Qed.

(** One pass: both loops. *)
Lemma wp_scfifo_pass rounds Q :
  0 <= clockHand p <= 16 ->
  (let '(x, cl) := clock_scan (accessed (mem s0)) (clock_order (Z.to_nat (clockHand p))) in
   forall s1, bits_cleared s1 cl ->
   match x with
   | Some i => Q (Z.of_nat i) (set_hand (next_hand i) s1)
   | None => wp (scfifo_while rounds) Q s1
   end) ->
  wp (scfifo_while (S rounds)) Q s0.
Proof.
  intros Hh HQ. cbn [scfifo_while]. destruct (bits_cleared_cur s0 [] bits_cleared_nil) as [Hp Hc].
  rewrite wp_bind, (wp_cur p) by done. set (h := Z.to_nat (clockHand p)) in *.
  unfold clock_order in HQ. rewrite clock_scan_app in HQ. rewrite wp_bind.
  assert (h <= MAX_PSYC_PAGES)%nat as Hh16 by (unfold MAX_PSYC_PAGES; lia).
  eapply wp_mono.
  { apply (wp_scfifo_up (MAX_PSYC_PAGES - h) h s0 []); [apply bits_cleared_nil|lia|].
    intros j. by intros ?%not_elem_of_nil. }
  intros r s1 H. destruct (clock_scan (accessed (mem s0)) (seq h (MAX_PSYC_PAGES - h))) as [x cl1] eqn:E1.
  destruct H as (-> & s2 & Hb2 & ->). cbn [app] in Hb2. destruct x as [i|]; cbn [fmap option_fmap option_map].
  - apply clock_scan_in, elem_of_seq in E1. specialize (HQ s2 Hb2). unfold next_hand in HQ.
    destruct (Z.ltb_spec (Z.of_nat i) (clockHand p)); [lia|]. exact HQ.
  - apply clock_scan_None in E1. subst cl1. rewrite wp_bind. eapply wp_mono.
    { apply (wp_scfifo_down h 0 s2 (seq h (MAX_PSYC_PAGES - h))); [done|lia|lia|lia|].
      intros k Hk%elem_of_seq. lia. }
    intros r s3 H. destruct (clock_scan (accessed (mem s0)) (seq 0 h)) as [x cl2] eqn:E2.
    destruct H as (-> & s4 & Hb4 & ->). specialize (HQ s4 Hb4). destruct x as [i|]; cbn [fmap option_fmap option_map]; [|done].
    apply clock_scan_in, elem_of_seq in E2. unfold next_hand in HQ.
    destruct (Z.ltb_spec (Z.of_nat i) (clockHand p)); [|lia]. done.
Qed.

Lemma bits_cleared_all s cl i :
  bits_cleared s cl -> i ∈ cl -> accessed (mem s) i = false.
Proof.
  intros Hb Hi. unfold accessed. rewrite (bc_view _ _ Hb). unfold clear_A. rewrite decide_True.
  - rewrite has_clr by auto with pte. by rewrite has_self, andb_false_r by auto with pte.
  - apply list_elem_of_fmap_2, list_elem_of_fmap_2. done.
Qed.

End Scfifo.

(** The page chosen and the bits cleared: if all pages were accessed, the
    second round finds the one at the hand. *)
Definition second_chance (bit : nat -> bool) (order : list nat) : nat * list nat :=
  match clock_scan bit order with
  | (Some i, cl) => (i, cl)
  | (None, cl) => (hd 0%nat order, cl)
  end.

Lemma bits_cleared_again pd p s s1 s2 cl :
  bits_cleared pd p s s1 cl -> bits_cleared pd p s1 s2 [] -> bits_cleared pd p s s2 cl.
Proof.
  intros Hb1 Hb2. split.
  - rewrite (bc_state _ _ _ _ _ Hb2), (bc_state _ _ _ _ _ Hb1). done.
  - apply Hb2.
  - intros i Hi. rewrite (bc_tbl _ _ _ _ _ Hb2), (bc_tbl _ _ _ _ _ Hb1); done.
  - intros va. rewrite (bc_view _ _ _ _ _ Hb2). cbn. unfold clear_A at 1.
    rewrite decide_False by apply not_elem_of_nil. apply (bc_view _ _ _ _ _ Hb1).
Qed.

Lemma clock_order_hd h : (h <= MAX_PSYC_PAGES)%nat ->
  exists i rest, clock_order h = i :: rest /\ (i < MAX_PSYC_PAGES)%nat.
Proof.
  intros Hh. unfold clock_order. destruct (MAX_PSYC_PAGES - h)%nat as [|n] eqn:E.
  - destruct h as [|h]; [unfold MAX_PSYC_PAGES in *; lia|]. exists 0%nat, (seq 1 h). split; [done|].
    unfold MAX_PSYC_PAGES. lia.
  - exists h, (seq (S h) n ++ seq 0 h). split; [done|lia].
Qed.

Lemma clock_order_in h i : i ∈ clock_order h -> (h <= MAX_PSYC_PAGES)%nat -> (i < MAX_PSYC_PAGES)%nat.
Proof. unfold clock_order. rewrite elem_of_app, !elem_of_seq. lia. Qed.

(** C35. [scfifo] implements second-chance replacement: starting at the
    clock hand and going round, it clears the accessed bit of the pages that have it
    and chooses the first page that does not (the page at the hand if all have it); it terminates within
    two rounds, and changes only those bits and the clock hand, which stays within 0 to 16. *)
Theorem scfifo_correct pd ci p s :
  curproc s = Some ci -> procs s !! ci = Some p -> length (ramPages p) = MAX_PSYC_PAGES ->
  pt_wf (mem s) pd ->
  (forall i pg, ramPages p !! i = Some pg ->
     page_pgdir pg = frame_addr pd /\ is_Some (tbl (mem s) pd (PDX (virt_addr pg)))) ->
  (forall i j pg pg', ramPages p !! i = Some pg -> ramPages p !! j = Some pg' ->
     vpn (virt_addr pg) = vpn (virt_addr pg') -> i = j) ->
  0 <= clockHand p <= 16 ->
  wp scfifo (fun r s' => exists i cl s1,
    second_chance (accessed pd p (mem s)) (clock_order (Z.to_nat (clockHand p))) = (i, cl) /\
    r = Z.of_nat i /\ (i < MAX_PSYC_PAGES)%nat /\ 0 <= next_hand p i <= 16 /\
    bits_cleared pd p s s1 cl /\ s' = set_hand ci (next_hand p i) s1) s.
Proof.
  intros Hc Hp Hlen Hw Hdir Hinj Hh. unfold scfifo, second_chance.
  assert (forall i, (i < MAX_PSYC_PAGES)%nat -> 0 <= next_hand p i <= 16) as Hnext.
  { intros i Hi. unfold next_hand, MAX_PSYC_PAGES in *. repeat case_if; lia. }
  assert (Z.to_nat (clockHand p) <= MAX_PSYC_PAGES)%nat as Hh' by (unfold MAX_PSYC_PAGES; lia).
  set (order := clock_order (Z.to_nat (clockHand p))) in *.
  assert (forall i, i ∈ order -> (i < MAX_PSYC_PAGES)%nat) as Hord by (intros i Hi; by eapply clock_order_in).
  apply (wp_scfifo_pass pd ci p s Hc Hp Hlen Hw Hdir Hinj); [done|]. fold order.
  destruct (clock_scan (accessed pd p (mem s)) order) as [[i|] cl] eqn:Escan; intros s1 Hb1.
  - apply clock_scan_in in Escan. exists i, cl, s1. split_and!; try done; by apply Hnext, Hord || apply Hord.
  - apply clock_scan_None in Escan. subst cl.
    destruct (clock_order_hd (Z.to_nat (clockHand p)) Hh') as (i & rest & Eo & Hi). fold order in Eo.
    apply (wp_scfifo_pass pd ci p s1); try done.
    + by rewrite (bc_state _ _ _ _ _ Hb1).
    + by rewrite (bc_state _ _ _ _ _ Hb1).
    + apply Hb1.
    + intros k pg Hk. rewrite (bc_tbl _ _ _ _ _ Hb1) by apply PDX_range. by eapply Hdir.
    + assert (accessed pd p (mem s1) i = false) as Ha.
      { apply (bits_cleared_all pd p s s1 order i Hb1). rewrite Eo. apply elem_of_cons. by left. }
      assert (clock_scan (accessed pd p (mem s1)) order = (Some i, [])) as E2.
      { rewrite Eo. cbn. by rewrite Ha. }
      fold order. rewrite E2. intros s2 Hb2. exists i, order, s2.
      assert (hd 0%nat order = i) as -> by (by rewrite Eo).
      split_and!; try done; [by apply Hnext|by apply Hnext|]. by eapply bits_cleared_again.
Qed.

(** ** Witnesses *)

Lemma nfua_least_witness :
  nfua_index ((fun c => {| page_zero with nfua_counter := c |}) <$> [5; 3; 8; 3]) = 1 /\
  0 <= nfua_index ((fun c => {| page_zero with nfua_counter := c |}) <$> [5; 3; 8; 3]) < 4.
Proof. split; [reflexivity|]. apply nfua_least. discriminate. Defined.

(** Sixteen resident pages of one table, pages 1 and 2 not accessed. *)
Definition demo_ram_mem : gmap Z Z :=
  foldr (fun i m => store32 m (frame_addr 1001 + 4 * i) ((1100 + i) * 4096 + if (i =? 1) || (i =? 2) then 7 else 39))
    (store32 ∅ (frame_addr 1000) (1001 * 4096 + 7)) (seqZ 0 16).
Definition demo_ram : list page :=
  (fun i => {| page_zero with page_pgdir := frame_addr 1000; isused := 1; virt_addr := i * 4096 |}) <$> seqZ 0 16.
Definition demo_ram_proc : proc := {| proc_zero with pid := 3; ramPages := demo_ram; clockHand := 15 |}.
Definition demo_ram_state : kstate :=
  {| demo_state with mem := demo_ram_mem; procs := [demo_ram_proc]; curproc := Some 0%nat |}.

Lemma demo_ram_tbl i : 0 <= i < 1024 -> tbl demo_ram_mem 1000 i = if decide (i = 0) then Some 1001 else None.
Proof.
  intros Hi. unfold tbl, demo_ram_mem. change (seqZ 0 16) with [0;1;2;3;4;5;6;7;8;9;10;11;12;13;14;15]. cbn [foldr].
  rewrite !load32_store32_ne by (unfold frame_addr, PGSIZE; lia). case_decide as E.
  - subst i. reflexivity.
  - rewrite load32_store32_ne by lia. by rewrite load32_empty.
Qed.
Lemma demo_ram_wf : pt_wf demo_ram_mem 1000.
Proof.
  split; [done|..].
  - intros i f Hi. rewrite demo_ram_tbl by done. case_decide; [intros [= <-]; done|done].
  - intros i j f Hi Hj. rewrite !demo_ram_tbl by done. repeat case_decide; congruence.
Qed.
Lemma demo_ram_lookup i pg :
  demo_ram !! i = Some pg -> pg = {| page_zero with page_pgdir := frame_addr 1000; isused := 1; virt_addr := Z.of_nat i * 4096 |}
  /\ (i < 16)%nat.
Proof.
  unfold demo_ram. rewrite list_lookup_fmap. destruct (seqZ 0 16 !! i) as [j|] eqn:E; [|done].
  apply lookup_seqZ in E as [-> ?]. cbn. intros [= <-]. split; [done|lia].
Qed.

(** The hand is at page 15, which was accessed, and so was page 0; page 1 is
    chosen. *)
Lemma scfifo_correct_witness : wp scfifo (fun r _ => r = 1) demo_ram_state.
Proof.
  eapply wp_mono; [apply (scfifo_correct 1000 0 demo_ram_proc demo_ram_state)|].
  - reflexivity.
  - reflexivity.
  - reflexivity.
  - apply demo_ram_wf.
  - intros i pg Hi. destruct (demo_ram_lookup i pg Hi) as [-> Hlt]. split; [reflexivity|].
    cbn [virt_addr mem demo_ram_state]. rewrite demo_ram_tbl by apply PDX_range.
    assert (PDX (Z.of_nat i * 4096) = 0) as -> by (rewrite PDX_eq, u32_small by (unfold W32; lia); zlia).
    rewrite decide_True by reflexivity. eexists. reflexivity.
  - intros i j pg pg' Hi Hj. destruct (demo_ram_lookup i pg Hi) as [-> H1], (demo_ram_lookup j pg' Hj) as [-> H2].
    cbn [virt_addr]. change 4096 with PGSIZE. rewrite !vpn_page by lia. lia.
  - cbn. lia.
  - intros r s' (i & cl & s1 & E & -> & _). vm_compute in E. injection E as <- _. reflexivity.
Defined.
