(* ===== verification/Aq.v ===== *)
(** The advancing queue (vm.c): the queue of [queue_node]s as a doubly linked
    list in memory, and the proofs that [aq] removes its last element and
    that [swapAQ] exchanges two neighbours. *)

From S2P Require Import Prelude Mmu Memory Machine Kalloc PageTable Replace.
From stdpp Require Import base gmap list strings.
From Stdlib Require Import ZArith Lia.
Open Scope Z_scope.

(** ** The list in memory *)

Definition hdn (n : Z) (ns : list Z) : Z := default n (head ns).
Definition lastp (p : Z) (ns : list Z) : Z := default p (last ns).

(** The nodes [ns] are linked in both directions; the first one's [prev] is
    [p] and the last one's [next] is [n]. *)
Fixpoint dseg (m : gmap Z Z) (p : Z) (ns : list Z) (n : Z) : Prop :=
  match ns with
  | [] => True
  | a :: ns' => load32 m (a + QN_prev) = p /\ load32 m (a + QN_next) = hdn n ns' /\ dseg m a ns' n
  end.

(** Nodes are 12 bytes long and do not overlap. *)
Definition apart (a b : Z) : Prop := a + 12 <= b \/ b + 12 <= a.
Fixpoint all_apart (ns : list Z) : Prop :=
  match ns with
  | [] => True
  | a :: ns' => 0 < a < W32 /\ Forall (apart a) ns' /\ all_apart ns'
  end.

Record queue (m : gmap Z Z) (head tail : Z) (ns : list Z) : Prop := {
  q_head : head = hdn 0 ns;
  q_tail : tail = lastp 0 ns;
  q_seg : dseg m 0 ns 0;
  q_apart : all_apart ns
}.

(** ** Lemmas *)

Lemma hdn_app n l1 l2 : hdn n (l1 ++ l2) = hdn (hdn n l2) l1.
Proof. by destruct l1. Qed.
Lemma lastp_app p l1 l2 : lastp p (l1 ++ l2) = lastp (lastp p l1) l2.
Proof. unfold lastp. rewrite last_app. by destruct (last l2). Qed.
Lemma lastp_snoc p l a : lastp p (l ++ [a]) = a.
Proof. by rewrite lastp_app. Qed.

Lemma dseg_app m p l1 l2 n :
  dseg m p (l1 ++ l2) n <-> dseg m p l1 (hdn n l2) /\ dseg m (lastp p l1) l2 n.
Proof.
  revert p; induction l1 as [|a l1 IH]; intros p; cbn; [tauto|].
  rewrite IH, hdn_app. assert (lastp p (a :: l1) = lastp a l1) as ->; [|tauto].
  unfold lastp. rewrite last_cons. by destruct (last l1).
Qed.

Lemma all_apart_app l1 l2 :
  all_apart (l1 ++ l2) <-> all_apart l1 /\ all_apart l2 /\ Forall (fun a => Forall (apart a) l2) l1.
Proof.
  induction l1 as [|a l1 IH]; cbn.
  - split; [intros; split_and!; done|tauto].
  - rewrite IH, Forall_app, Forall_cons. tauto.
Qed.
Lemma apart_sym a b : apart a b -> apart b a.
Proof. unfold apart. lia. Qed.

(** The links of nodes away from [x] survive a store to a field of [x]. *)
Lemma dseg_store m p ns n x o v :
  Forall (apart x) ns -> 0 <= o <= 8 -> dseg m p ns n -> dseg (store32 m (x + o) v) p ns n.
Proof.
  revert p; induction ns as [|a ns IH]; intros p Hx Ho; cbn; [done|].
  apply Forall_cons in Hx as [Hxa Hx]. intros (H1 & H2 & H3). unfold apart, QN_prev, QN_next in *.
  rewrite !load32_store32_ne by lia. split_and!; try done. by apply IH.
Qed.

(** Redirecting the end of a list. *)
Lemma dseg_set_next m p l x n n' :
  all_apart (l ++ [x]) -> 0 <= n' < W32 -> dseg m p (l ++ [x]) n -> dseg (store32 m (x + QN_next) n') p (l ++ [x]) n'.
Proof.
  intros Ha Hn. rewrite !dseg_app. cbn [hdn head default dseg]. intros (H1 & H2 & _ & _).
  apply all_apart_app in Ha as (_ & _ & Hf). split_and!; try done.
  - apply dseg_store; [|unfold QN_next; lia|done]. apply Forall_forall. intros a Hin.
    rewrite Forall_forall in Hf. specialize (Hf a Hin). apply Forall_cons in Hf as [Hf _]. by apply apart_sym.
  - rewrite load32_store32_ne by (unfold QN_prev, QN_next; lia). done.
  - rewrite load32_store32_eq. by apply u32_small.
Qed.
(** Redirecting its start. *)
Lemma dseg_set_prev m p p' y l n :
  all_apart (y :: l) -> 0 <= p' < W32 -> dseg m p (y :: l) n -> dseg (store32 m (y + QN_prev) p') p' (y :: l) n.
Proof.
  intros (_ & Hf & _) Hp. cbn [dseg]. intros (_ & H2 & H3). split_and!.
  - rewrite load32_store32_eq. by apply u32_small.
  - rewrite load32_store32_ne by (unfold QN_prev, QN_next; lia). done.
  - apply dseg_store; [done|unfold QN_prev; lia|done].
Qed.

(** Loads of fields after stores to fields. *)
Ltac qload :=
  unfold QN_prev, QN_next, QN_page_index, apart in *;
  repeat (rewrite load32_store32_eq || rewrite load32_store32_ne by lia);
  rewrite ?u32_small by lia.

Section Aq.
Context {KI : KernelImage}.

(** The queue of the current process. *)
Definition cur_queue (s : kstate) (ns : list Z) : Prop :=
  exists p, curp s = Some p /\ queue (mem s) (queue_head p) (queue_tail p) ns.

Lemma aq_empty_test x : 0 < x -> ((x =? 0) || (x =? 0))%bool = false.
Proof. intros. rewrite (proj2 (Z.eqb_neq x 0)) by lia. done. Qed.

Lemma wp_aq s i p ns x :
  curproc s = Some i -> procs s !! i = Some p ->
  queue (mem s) (queue_head p) (queue_tail p) (ns ++ [x]) ->
  wp aq (fun r s' => r = load32 (mem s) (x + QN_page_index) /\
    queue (mem s') (hdn 0 ns) (lastp 0 ns) ns /\
    (forall a, a ∈ ns ++ [x] -> load32 (mem s') (a + QN_page_index) = load32 (mem s) (a + QN_page_index)) /\
    s' = {| s with mem := mem s';
      procs := <[i := {| p with queue_head := hdn 0 ns; queue_tail := lastp 0 ns |}]> (procs s) |}) s.
Proof.
  intros Hc Hp [Hh Ht Hseg Hap]. rewrite lastp_snoc in Ht.
  assert (curp s = Some p) as Hcp by (unfold curp; by rewrite Hc).
  apply all_apart_app in Hap as Hap'. destruct Hap' as (Hap1 & (Hx & _ & _) & Hapx).
  unfold aq. rewrite wp_bind, (wp_cur p), Ht by done.
  rewrite wp_bind, wp_ldf by lia. rewrite (proj2 (Z.eqb_neq x 0)) by lia. cbn [orb].
  destruct ns as [|y ns _] using rev_ind.
  - assert (queue_head p = x) as -> by done. rewrite (proj2 (Z.eqb_neq x 0)), Z.eqb_refl by lia.
    rewrite wp_bind, wp_bind. apply (wp_set_cur i); [done|]. rewrite wp_ret, wp_bind.
    apply (wp_set_cur i); [done|]. rewrite wp_ret. split_and!; [done|done|done|].
    rewrite (list_alter_insert_lookup _ _ _ p) by done. cbn.
    rewrite (list_alter_insert_lookup _ _ _ {| p with queue_head := 0 |})
      by (apply list_lookup_insert_eq; by eapply lookup_lt_Some).
    by rewrite list_insert_insert_eq.
  - rewrite dseg_app, lastp_snoc in Hseg. destruct Hseg as (Hseg & Hxp & _).
    apply all_apart_app in Hap1 as Hap2. destruct Hap2 as (Hl & (Hy & _) & Hly).
    rewrite Forall_app in Hapx. destruct Hapx as [Hlx Hyx]. rewrite !Forall_singleton in Hyx.
    assert (hdn 0 (ns ++ [y]) = hdn 0 ((ns ++ [y]) ++ [x])) as Eh by (by destruct ns).
    assert (apart (hdn 0 (ns ++ [y])) x /\ hdn 0 (ns ++ [y]) ≠ 0) as [Hhx Hhnz].
    { destruct ns as [|a ns]; [split; [done|cbn; lia]|]. apply Forall_cons in Hlx as [Hlx _].
      rewrite Forall_singleton in Hlx. split; [exact Hlx|]. destruct Hl as (? & _). cbn. lia. }
    rewrite Hh, <- Eh. rewrite (proj2 (Z.eqb_neq (hdn 0 (ns ++ [y])) 0)) by done.
    rewrite (proj2 (Z.eqb_neq x (hdn 0 (ns ++ [y])))) by (unfold apart in Hhx; lia). cbn iota.
    rewrite wp_bind, wp_bind, wp_ldf, Hxp by lia. rewrite wp_bind, wp_stf, wp_ldf by lia.
    cbn [mem]. rewrite load32_store32_ne, Hxp by (unfold apart, QN_prev, QN_next in *; lia).
    rewrite wp_bind. apply (wp_set_cur i); [done|]. rewrite wp_ret. split_and!; [done| | |].
    + split; [done|done| |done]. cbn [mem]. by eapply dseg_set_next.
    + intros a Ha. cbn [mem]. apply load32_store32_ne. apply elem_of_app in Ha as [Ha| ->%list_elem_of_singleton].
      * apply elem_of_app in Ha as [Ha| ->%list_elem_of_singleton]; [|unfold QN_page_index, QN_next; lia].
        rewrite Forall_forall in Hly. specialize (Hly a Ha). rewrite Forall_singleton in Hly.
        unfold apart, QN_page_index, QN_next in *. lia.
      * unfold apart, QN_page_index, QN_next in *. lia.
    + cbn. rewrite (list_alter_insert_lookup _ _ _ p) by done. f_equal. f_equal.
      rewrite lastp_snoc, Eh, <- Hh. by destruct p.
Qed.

(** *** [swapAQ] *)

Lemma all_apart_swap l1 u c l2 : all_apart (l1 ++ u :: c :: l2) -> all_apart (l1 ++ c :: u :: l2).
Proof.
  rewrite !all_apart_app. cbn. intros (H1 & (Hu & Hu2 & Hc & Hc2 & H2) & Hf).
  apply Forall_cons in Hu2 as [Huc Hu2]. split_and!; try done; try lia.
  - constructor; [by apply apart_sym|done].
  - eapply Forall_impl; [exact Hf|]. cbn. intros a Ha. rewrite !Forall_cons in *. tauto.
Qed.

(** The separation facts used below. *)
Lemma swap_apart l1 u c l2 :
  all_apart (l1 ++ u :: c :: l2) ->
  0 < u < W32 /\ 0 < c < W32 /\ apart u c /\ Forall (apart u) l1 /\ Forall (apart c) l1 /\
  Forall (apart u) l2 /\ Forall (apart c) l2 /\ all_apart l1 /\ all_apart l2 /\
  Forall (fun a => Forall (apart a) l2) l1.
Proof.
  rewrite all_apart_app. cbn. intros (H1 & (Hu & Hu2 & Hc & Hc2 & H2) & Hf).
  apply Forall_cons in Hu2 as [Huc Hu2]. rewrite !Forall_forall in *.
  split_and!; try done; try lia; intros a Ha; specialize (Hf a Ha); rewrite !Forall_cons in Hf;
    try (apply apart_sym); tauto.
Qed.

Lemma dseg_swapped m l1 u c l2 :
  dseg m 0 l1 c -> load32 m (c + QN_prev) = lastp 0 l1 -> load32 m (c + QN_next) = u ->
  load32 m (u + QN_prev) = c -> load32 m (u + QN_next) = hdn 0 l2 -> dseg m u l2 0 ->
  dseg m 0 (l1 ++ c :: u :: l2) 0.
Proof. intros. rewrite dseg_app. cbn. done. Qed.

(** The memory after [swapAQ] in the order of the stores. *)
Definition swap_mem (m : gmap Z Z) (l1 : list Z) (u c : Z) (l2 : list Z) : gmap Z Z :=
  let m := match l2 with [] => store32 m (u + QN_next) 0 | _ => m end in
  let m := match l1 with [] => store32 m (c + QN_prev) 0 | _ => m end in
  let m := store32 (store32 m (c + QN_next) u) (u + QN_prev) c in
  let m := match last l1 with
           | Some x => store32 (store32 m (c + QN_prev) x) (x + QN_next) c
           | None => m end in
  match l2 with
  | y :: _ => store32 (store32 m (u + QN_next) y) (y + QN_prev) u
  | [] => m end.

Lemma swap_mem_seg m l1 u c l2 :
  all_apart (l1 ++ u :: c :: l2) -> dseg m 0 (l1 ++ u :: c :: l2) 0 ->
  dseg (swap_mem m l1 u c l2) 0 (l1 ++ c :: u :: l2) 0.
Proof.
  intros Ha Hseg. destruct (swap_apart _ _ _ _ Ha) as (Hu & Hc & Huc & Hul1 & Hcl1 & Hul2 & Hcl2 & Hl1 & Hl2 & H12).
  rewrite dseg_app in Hseg. cbn [dseg hdn head default] in Hseg.
  destruct Hseg as (S1 & Sup & Sun & Scp & Scn & S2).
  assert (forall m x o v, Forall (apart x) l2 -> 0 <= o <= 8 -> dseg m c l2 0 -> dseg (store32 m (x + o) v) c l2 0) as F2
    by (intros; by apply dseg_store).
  assert (forall m x o v, Forall (apart x) l1 -> 0 <= o <= 8 -> dseg m 0 l1 u -> dseg (store32 m (x + o) v) 0 l1 u) as F1
    by (intros; by apply dseg_store).
  unfold swap_mem. destruct l1 as [|x l1 _] using rev_ind.
  - destruct l2 as [|y l2]; cbn [last].
    + apply (dseg_swapped _ []); try done; qload; done.
    + apply Forall_cons in Hul2 as [Huy Hul2]. apply Forall_cons in Hcl2 as [Hcy Hcl2].
      destruct Hl2 as (Hy & Hyl2 & Hl2).
      apply (dseg_swapped _ []); [done|qload; done..|].
      apply (dseg_set_prev _ c); [exact (conj Hy (conj Hyl2 Hl2))|lia|]. cbn [dseg] in S2 |- *. destruct S2 as (A1 & A2 & A3).
      split_and!; [qload; done|qload; done|].
      repeat (apply dseg_store; [done|unfold QN_prev, QN_next; lia|]). done.
  - rewrite last_snoc. rewrite Forall_app in Hul1, Hcl1, H12.
    destruct Hul1 as [Hul1 Hux], Hcl1 as [Hcl1 Hcx], H12 as [H12 Hxl2]. rewrite Forall_singleton in Hux, Hcx, Hxl2.
    assert (0 < x < W32) as Hx by (apply all_apart_app in Hl1 as (_ & (Hx & _) & _); done).
    rewrite lastp_snoc in *.
    destruct (l1 ++ [x]) as [|z l1'] eqn:El; [by destruct l1|]. rewrite <- El in *. clear El z l1'.
    destruct l2 as [|y l2].
    + apply dseg_swapped; [|rewrite ?lastp_snoc; qload; done..|done].
      eapply dseg_set_next; [done|lia|].
      repeat (apply dseg_store; [by (rewrite Forall_app, Forall_singleton)|unfold QN_prev, QN_next; lia|]). exact S1.
    + apply Forall_cons in Hul2 as [Huy Hul2]. apply Forall_cons in Hcl2 as [Hcy Hcl2].
      apply Forall_cons in Hxl2 as [Hxy Hxl2].
      assert (Forall (apart y) (l1 ++ [x])) as Hyl1.
      { rewrite Forall_app, Forall_singleton. split; [|by apply apart_sym]. eapply Forall_impl; [exact H12|].
        cbn. intros a [Hay _]%Forall_cons. by apply apart_sym. }
      destruct Hl2 as (Hy & Hyl2 & Hl2).
      apply dseg_swapped; [|rewrite ?lastp_snoc; qload; done..|].
      * do 2 (apply dseg_store; [done || by (rewrite Forall_app, Forall_singleton)|unfold QN_prev, QN_next; lia|]).
        eapply dseg_set_next; [done|lia|].
        repeat (apply dseg_store; [by (rewrite Forall_app, Forall_singleton)|unfold QN_prev, QN_next; lia|]). exact S1.
      * apply (dseg_set_prev _ c); [exact (conj Hy (conj Hyl2 Hl2))|lia|]. cbn [dseg] in S2 |- *. destruct S2 as (A1 & A2 & A3).
        split_and!; [qload; done|qload; done|].
        repeat (apply dseg_store; [done|unfold QN_prev, QN_next; lia|]). done.
Qed.

(** A store to a link of one node does not concern the index of any node. *)
Lemma index_store m a x o v :
  a = x \/ apart x a -> o = QN_next \/ o = QN_prev ->
  load32 (store32 m (x + o) v) (a + QN_page_index) = load32 m (a + QN_page_index).
Proof.
  intros Ha Ho. apply load32_store32_ne. unfold apart, QN_next, QN_prev, QN_page_index in *. lia.
Qed.

Lemma all_apart_elem ns a b : all_apart ns -> a ∈ ns -> b ∈ ns -> a = b \/ apart a b.
Proof.
  induction ns as [|x ns IH]; intros H Ha Hb; [by apply not_elem_of_nil in Ha|].
  destruct H as (_ & Hf & H). rewrite Forall_forall in Hf. rewrite elem_of_cons in Ha, Hb.
  destruct Ha as [->|Ha], Hb as [->|Hb]; auto using apart_sym.
Qed.

Lemma swap_mem_index m l1 u c l2 a :
  all_apart (l1 ++ u :: c :: l2) -> a ∈ l1 ++ u :: c :: l2 ->
  load32 (swap_mem m l1 u c l2) (a + QN_page_index) = load32 m (a + QN_page_index).
Proof.
  intros Hap Ha.
  assert (forall x, x ∈ l1 ++ u :: c :: l2 -> a = x \/ apart x a) as Hx.
  { intros x Hin. destruct (all_apart_elem _ x a Hap Hin Ha) as [->|]; auto. }
  assert (a = u \/ apart u a) as Hu by (apply Hx; rewrite elem_of_app, !elem_of_cons; tauto).
  assert (a = c \/ apart c a) as Hc by (apply Hx; rewrite elem_of_app, !elem_of_cons; tauto).
  assert (forall x, last l1 = Some x -> a = x \/ apart x a) as Hl.
  { intros x Hl. apply Hx. apply elem_of_app. left. by apply last_Some_elem_of. }
  assert (forall y l, l2 = y :: l -> a = y \/ apart y a) as Hr.
  { intros y l ->. apply Hx. rewrite elem_of_app, !elem_of_cons. tauto. }
  unfold swap_mem. destruct l2 as [|y l2]; [|specialize (Hr y l2 eq_refl)];
    (destruct (last l1) as [x|]; [specialize (Hl x eq_refl)|]); destruct l1;
    rewrite !index_store by auto; done.
Qed.

(** The state [s] with memory [m] and the current process's queue pointers
    [qh] and [qt]; the code of the queue changes nothing else. *)
Section QueueState.
Context (s : kstate) (i : nat) (p : proc).
Hypothesis Hcur : curproc s = Some i.
Hypothesis Hp : procs s !! i = Some p.

Definition qstate (m : gmap Z Z) (qh qt : Z) : kstate :=
  {| s with mem := m; procs := <[i := {| p with queue_head := qh; queue_tail := qt |}]> (procs s) |}.

Lemma qstate_self : s = qstate (mem s) (queue_head p) (queue_tail p).
Proof.
  unfold qstate. assert ({| p with queue_head := queue_head p; queue_tail := queue_tail p |} = p) as ->
    by (by destruct p).
  rewrite list_insert_id by done. by destruct s.
Qed.
Lemma wp_q_start {A} (m : M kstate A) Q : wp m Q (qstate (mem s) (queue_head p) (queue_tail p)) -> wp m Q s.
Proof. by rewrite <- qstate_self. Qed.
Lemma qstate_lookup m qh qt :
  procs (qstate m qh qt) !! i = Some {| p with queue_head := qh; queue_tail := qt |}.
Proof. cbn. apply list_lookup_insert_eq. by eapply lookup_lt_Some. Qed.
Lemma wp_q_cur m qh qt Q :
  Q {| p with queue_head := qh; queue_tail := qt |} (qstate m qh qt) -> wp cur Q (qstate m qh qt).
Proof.
  intros HQ. apply (wp_cur {| p with queue_head := qh; queue_tail := qt |}); [|done].
  unfold curp. change (curproc (qstate m qh qt)) with (curproc s). rewrite Hcur. apply qstate_lookup.
Qed.
Lemma wp_q_set m qh qt qh' qt' f Q :
  (forall q, f q = {| q with queue_head := qh'; queue_tail := queue_tail q |} /\ qt' = qt \/
             f q = {| q with queue_head := queue_head q; queue_tail := qt' |} /\ qh' = qh) ->
  Q tt (qstate m qh' qt') -> wp (set_cur f) Q (qstate m qh qt).
Proof.
  intros Hf HQ. apply (wp_set_cur i); [done|].
  rewrite (list_alter_insert_lookup _ _ _ _ (qstate_lookup m qh qt)).
  destruct (Hf {| p with queue_head := qh; queue_tail := qt |}) as [[-> <-]|[-> <-]]; cbn;
    rewrite list_insert_insert_eq; exact HQ.
Qed.
Lemma wp_q_ldf m qh qt a o Q :
  a ≠ 0 -> Q (load32 m (a + o)) (qstate m qh qt) -> wp (ldf a o) Q (qstate m qh qt).
Proof. intros. by apply wp_ldf. Qed.
Lemma wp_q_stf m qh qt a o v Q :
  a ≠ 0 -> Q tt (qstate (store32 m (a + o) v) qh qt) -> wp (stf a o v) Q (qstate m qh qt).
Proof. intros. by apply wp_stf. Qed.

(** The three conditional steps of [swapAQ]. *)
Lemma wp_q_tail (b : bool) m qh qt u : u ≠ 0 ->
  wp (when b (set_cur (fun p => {| p with queue_tail := u |}) ;; p ← cur; stf (queue_tail p) QN_next 0))
    (fun _ s' => s' = qstate (if b then store32 m (u + QN_next) 0 else m) qh (if b then u else qt)) (qstate m qh qt).
Proof.
  intros Hu. rewrite wp_when. destruct b; [|done]. rewrite wp_bind. apply (wp_q_set _ _ _ qh u); [intros q; right; by split|].
  rewrite wp_bind. apply wp_q_cur. cbn [queue_tail]. by apply wp_q_stf.
Qed.
Lemma wp_q_head (b : bool) m qh qt c : c ≠ 0 ->
  wp (when b (set_cur (fun p => {| p with queue_head := c |}) ;; p ← cur; stf (queue_head p) QN_prev 0))
    (fun _ s' => s' = qstate (if b then store32 m (c + QN_prev) 0 else m) (if b then c else qh) qt) (qstate m qh qt).
Proof.
  intros Hc. rewrite wp_when. destruct b; [|done]. rewrite wp_bind. apply (wp_q_set _ _ _ c qt); [intros q; left; by split|].
  rewrite wp_bind. apply wp_q_cur. cbn [queue_head]. by apply wp_q_stf.
Qed.
Lemma wp_q_join m qh qt a f x g : a ≠ 0 ->
  wp (when (negb (x =? 0)) (stf a f x ;; stf x g a))
    (fun _ s' => s' = qstate (if x =? 0 then m else store32 (store32 m (a + f) x) (x + g) a) qh qt) (qstate m qh qt).
Proof.
  intros Ha. rewrite wp_when. destruct (Z.eqb_spec x 0) as [|Hx]; [done|]. cbn [negb]. rewrite wp_bind. apply wp_q_stf; [done|]. by apply wp_q_stf.
Qed.

End QueueState.

Lemma all_apart_nz ns a : all_apart ns -> a ∈ ns -> a ≠ 0.
Proof.
  induction ns as [|x ns IH]; intros H Ha; [by apply not_elem_of_nil in Ha|].
  destruct H as (Hx & _ & H). apply elem_of_cons in Ha as [->|Ha]; [lia|auto].
Qed.

Lemma tail_test l1 u c l2 :
  all_apart (l1 ++ u :: c :: l2) ->
  (c =? lastp 0 (l1 ++ u :: c :: l2)) = match l2 with [] => true | _ => false end.
Proof.
  intros Ha. destruct (swap_apart _ _ _ _ Ha) as (_ & _ & _ & _ & _ & _ & Hcl2 & _).
  rewrite lastp_app. destruct l2 as [|y l2]; [cbn; by rewrite Z.eqb_refl|].
  apply Z.eqb_neq. unfold lastp. rewrite !last_cons.
  destruct (last l2) as [z|] eqn:El; cbn.
  - apply last_Some_elem_of in El. rewrite Forall_forall in Hcl2.
    specialize (Hcl2 z ltac:(apply elem_of_cons; by right)). unfold apart in Hcl2. lia.
  - apply Forall_cons in Hcl2 as [Hcy _]. unfold apart in Hcy. lia.
Qed.
Lemma head_test l1 u c l2 :
  all_apart (l1 ++ u :: c :: l2) ->
  (u =? hdn 0 (l1 ++ u :: c :: l2)) = match l1 with [] => true | _ => false end.
Proof.
  intros Ha. destruct (swap_apart _ _ _ _ Ha) as (_ & _ & _ & Hul1 & _).
  destruct l1 as [|x l1]; cbn; [by rewrite Z.eqb_refl|].
  apply Z.eqb_neq. apply Forall_cons in Hul1 as [Hux _]. unfold apart in Hux. lia.
Qed.

(** [swapAQ] exchanges a node with the one before it in the queue and
    leaves the rest of the queue, the pages the nodes stand for and the rest of the kernel
    state alone; the head and tail pointers follow. *)
Theorem swapAQ_correct s i p l1 u c l2 :
  curproc s = Some i -> procs s !! i = Some p ->
  queue (mem s) (queue_head p) (queue_tail p) (l1 ++ u :: c :: l2) ->
  wp (swapAQ c) (fun _ s' =>
    let ns' := l1 ++ c :: u :: l2 in
    queue (mem s') (hdn 0 ns') (lastp 0 ns') ns' /\
    (forall a, a ∈ ns' -> load32 (mem s') (a + QN_page_index) = load32 (mem s) (a + QN_page_index)) /\
    s' = qstate s i p (mem s') (hdn 0 ns') (lastp 0 ns')) s.
Proof.
  intros Hcur Hp [Hh Ht Hseg Hap]. cbv zeta.
  apply (wp_mono _ (fun _ s' => s' = qstate s i p (swap_mem (mem s) l1 u c l2)
    (hdn 0 (l1 ++ c :: u :: l2)) (lastp 0 (l1 ++ c :: u :: l2)))).
  2: { intros [] s' ->. cbn [qstate mem]. split_and!; [|..|done].
    - split; [done|done|by apply swap_mem_seg|by apply all_apart_swap].
    - intros a Ha. apply swap_mem_index; [done|]. rewrite elem_of_app, !elem_of_cons in *. tauto. }
  destruct (swap_apart _ _ _ _ Hap) as (Hu & Hc & Huc & Hul1 & Hcl1 & Hul2 & Hcl2 & Hl1 & Hl2 & H12).
  assert (load32 (mem s) (c + QN_prev) = u /\ load32 (mem s) (u + QN_prev) = lastp 0 l1 /\
    load32 (mem s) (c + QN_next) = hdn 0 l2) as (Scp & Sup & Scn).
  { rewrite dseg_app in Hseg. cbn in Hseg. tauto. }
  apply (wp_q_start s i p Hcur Hp). rewrite Hh, Ht.
  unfold swapAQ. rewrite wp_bind. apply wp_q_ldf; [lia|]. rewrite Scp.
  assert (u ≠ 0 /\ c ≠ 0) as [Hu0 Hc0] by lia.
  rewrite wp_bind. apply wp_q_cur; [done..|]. cbn [queue_tail]. rewrite tail_test by done.
  rewrite wp_bind. eapply wp_mono; [by apply wp_q_tail|]. cbn beta. intros _ ? ->.
  rewrite wp_bind. apply wp_q_cur; [done..|]. cbn [queue_head]. rewrite head_test by done.
  rewrite wp_bind. eapply wp_mono; [by apply wp_q_head|]. cbn beta. intros _ ? ->.
  set (m2 := if match l1 with [] => true | _ => false end then _ else _).
  assert (load32 m2 (u + QN_prev) = lastp 0 l1 /\ load32 m2 (c + QN_next) = hdn 0 l2) as (Sup2 & Scn2).
  { subst m2. destruct l1, l2; qload; done. }
  rewrite wp_bind. apply wp_q_ldf; [done|]. rewrite Sup2. rewrite wp_bind. apply wp_q_ldf; [done|]. rewrite Scn2.
  rewrite wp_bind. apply wp_q_stf; [done|]. rewrite wp_bind. apply wp_q_stf; [done|].
  rewrite wp_bind. eapply wp_mono; [by apply wp_q_join|]. cbn beta. intros _ ? ->.
  eapply wp_mono; [by apply wp_q_join|]. cbn beta. intros _ ? ->. f_equal.
  - unfold swap_mem. assert (match last l1 with Some x => x ≠ 0 | None => True end) as Hx.
    { destruct (last l1) as [x|] eqn:El; [|done]. apply last_Some_elem_of in El. by eapply all_apart_nz in El. }
    assert (match l2 with y :: _ => y ≠ 0 | [] => True end) as Hy by (destruct l2 as [|y l2]; [done|destruct Hl2 as (? & _); lia]).
    assert (forall A (m m' : A), (if lastp 0 l1 =? 0 then m else m') = match last l1 with Some _ => m' | None => m end) as E1.
    { intros A m m'. unfold lastp. destruct (last l1) as [x|]; [|done]. cbn. by rewrite (proj2 (Z.eqb_neq x 0)). }
    assert (forall A (m m' : A), (if hdn 0 l2 =? 0 then m else m') = match l2 with _ :: _ => m' | [] => m end) as E2.
    { intros A m m'. destruct l2 as [|y l2]; [done|]. cbn. by rewrite (proj2 (Z.eqb_neq y 0)). }
    rewrite E2, E1. subst m2. unfold lastp. destruct (last l1), l1, l2; done.
  - by destruct l1.
  - destruct l2 as [|y l2]; rewrite !lastp_app; [done|]. unfold lastp. rewrite !last_cons. by destruct (last l2).
Qed.

(** [aq] removes the last node of the queue and returns the index of the
    page it stands for; the rest of the queue stays in order, and nothing
    else of the kernel state changes. *)
Theorem aq_correct s i p ns x :
  curproc s = Some i -> procs s !! i = Some p ->
  queue (mem s) (queue_head p) (queue_tail p) (ns ++ [x]) ->
  wp aq (fun r s' => r = load32 (mem s) (x + QN_page_index) /\
    queue (mem s') (hdn 0 ns) (lastp 0 ns) ns /\
    (forall a, a ∈ ns ++ [x] -> load32 (mem s') (a + QN_page_index) = load32 (mem s) (a + QN_page_index)) /\
    s' = {| s with mem := mem s';
      procs := <[i := {| p with queue_head := hdn 0 ns; queue_tail := lastp 0 ns |}]> (procs s) |}) s.
Proof. apply wp_aq. Qed.

(** On an empty queue [aq] dereferences the null tail pointer: the test
    for an empty queue comes after the first access. *)
Theorem aq_empty s p :
  curp s = Some p -> queue_tail p = 0 -> aq s = UB.
Proof.
  intros Hp Ht. unfold aq.
  assert (cur s = Ok p s) as Hc.
  { unfold curp in Hp. unfold cur, myproc, gets, mbind, M_bind, get_proc.
    destruct (curproc s); cbn in Hp; [|done]. by rewrite Hp. }
  rewrite (bind_run _ _ _ _ _ Hc). by rewrite Ht.
Qed.

End Aq.

(** ** Witnesses: a queue of three nodes *)

Definition demo_nodes : list Z := [frame_addr 1010; frame_addr 1011; frame_addr 1012].
Definition demo_queue_mem : gmap Z Z :=
  store32 (store32 (store32 (store32 (store32 ∅
    (frame_addr 1010) (frame_addr 1011)) (frame_addr 1011) (frame_addr 1012))
    (frame_addr 1011 + 4) (frame_addr 1010)) (frame_addr 1012 + 4) (frame_addr 1011))
    (frame_addr 1012 + 8) 5.
Definition demo_queue_proc : proc :=
  {| proc_zero with pid := 3; queue_head := frame_addr 1010; queue_tail := frame_addr 1012 |}.
Definition demo_queue : kstate :=
  {| demo_state with mem := demo_queue_mem; procs := [demo_queue_proc]; curproc := Some 0%nat |}.

Lemma demo_queue_ok : queue (mem demo_queue) (frame_addr 1010) (frame_addr 1012) demo_nodes.
Proof.
  split; [reflexivity|reflexivity|vm_compute; repeat split|].
  unfold demo_nodes, all_apart. rewrite !Forall_cons, !Forall_nil. unfold apart, frame_addr, KERNBASE, PGSIZE, W32. lia.
Qed.

Lemma aq_correct_witness : wp aq (fun r _ => r = 5) demo_queue.
Proof.
  eapply wp_mono; [apply (aq_correct demo_queue 0 demo_queue_proc [frame_addr 1010; frame_addr 1011] (frame_addr 1012)
    eq_refl eq_refl demo_queue_ok)|].
  intros r s' [-> _]. vm_compute. reflexivity.
Defined.

Lemma aq_empty_witness :
  aq {| demo_queue with procs := [proc_zero] |} = UB.
Proof. apply (aq_empty _ proc_zero); reflexivity. Defined.

Lemma swapAQ_correct_witness :
  wp (swapAQ (frame_addr 1012)) (fun _ s' => queue (mem s') (frame_addr 1010) (frame_addr 1011)
    [frame_addr 1010; frame_addr 1012; frame_addr 1011]) demo_queue.
Proof.
  eapply wp_mono; [apply (swapAQ_correct demo_queue 0 demo_queue_proc [frame_addr 1010] (frame_addr 1011)
    (frame_addr 1012) [] eq_refl eq_refl demo_queue_ok)|].
  intros r s' [H _]. exact H.
Defined.
