(* ===== verification/Files.v ===== *)
(** The contents of files as lists of bytes, with the reads and writes at an
    offset that [readi], [writei] and [filewrite] perform on them. This is what
    the paging code uses of the file system and what File.v shows the
    file-system code to provide. *)

From S2P Require Import Prelude.
From stdpp Require Import base list.
From Stdlib Require Import ZArith Lia.
Open Scope Z_scope.

(** ** Reads and writes

    A file can be overwritten or extended at its end, up to the maximal
    size. *)

Definition BSIZE : Z := 512.
Definition MAXFILE : Z := 140.

(** [writei] on the contents of a file. *)
Definition write_at (c : list Z) (off : Z) (bs : list Z) : option (list Z) :=
  let n := Z.of_nat (length bs) in
  let size := Z.of_nat (length c) in
  if ((size <? off) || (u32 (off + n) <? off) || (MAXFILE * BSIZE <? off + n))%bool then None
  else Some (take (Z.to_nat off) c ++ bs ++ drop (Z.to_nat off + length bs) c).
(** [readi] on the contents of a file. *)
Definition read_at (c : list Z) (off n : Z) : option (list Z) :=
  let size := Z.of_nat (length c) in
  if ((size <? off) || (u32 (off + n) <? off))%bool then None
  else Some (take (Z.to_nat n) (drop (Z.to_nat off) c)).

(** [filewrite] writes in transactions of at most this many bytes. *)
Definition FILEWRITE_MAX : nat := 1536.
(** The loop of [filewrite]: a write that fails leaves the earlier pieces in
    place and makes the result -1. *)
Fixpoint filewrite_loop (c : list Z) (off : Z) (bs : list Z) (fuel : nat) : list Z * bool :=
  match bs, fuel with
  | [], _ => (c, true)
  | _, O => (c, false)
  | _, S fuel' =>
      let piece := take FILEWRITE_MAX bs in
      match write_at c off piece with
      | None => (c, false)
      | Some c' => filewrite_loop c' (off + Z.of_nat (length piece)) (drop FILEWRITE_MAX bs) fuel'
      end
  end.

(** ** Lemmas on file contents *)

Definition splice (c : list Z) (off : nat) (bs : list Z) : list Z :=
  take off c ++ bs ++ drop (off + length bs) c.

Lemma splice_nil c off : (off <= length c)%nat -> splice c off [] = c.
Proof. intros. unfold splice. cbn. rewrite Nat.add_0_r. apply take_drop. Qed.
Lemma length_splice c off bs :
  (off <= length c)%nat -> length (splice c off bs) = (Nat.max (length c) (off + length bs))%nat.
Proof. intros. unfold splice. rewrite !length_app, length_take, length_drop. lia. Qed.

Lemma lookup_splice c off bs k :
  (off <= length c)%nat -> splice c off bs !! k = if decide (off <= k < off + length bs)%nat then bs !! (k - off)%nat else c !! k.
Proof.
  intros Hl. unfold splice. case_decide as Hi.
  - rewrite lookup_app_r by (rewrite length_take; lia). rewrite length_take, Nat.min_l by lia. by rewrite lookup_app_l by lia.
  - destruct (decide (k < off)%nat).
    + rewrite lookup_app_l by (rewrite length_take; lia). by rewrite lookup_take_lt.
    + rewrite lookup_app_r by (rewrite length_take; lia). rewrite length_take, Nat.min_l by lia.
      rewrite lookup_app_r by lia. rewrite lookup_drop. f_equal. lia.
Qed.

Lemma take_splice c off b1 :
  (off <= length c)%nat -> take (off + length b1) (splice c off b1) = take off c ++ b1.
Proof.
  intros Hoff. unfold splice. rewrite app_assoc. rewrite take_app_length'; [done|].
  rewrite length_app, length_take. lia.
Qed.
Lemma drop_splice c off b1 k :
  (off <= length c)%nat -> drop (off + length b1 + k) (splice c off b1) = drop (off + length b1 + k) c.
Proof.
  intros Hoff. unfold splice. rewrite app_assoc.
  assert (length (take off c ++ b1) = (off + length b1)%nat) as El by (rewrite length_app, length_take; lia).
  rewrite <- El at 1. rewrite drop_app_add. rewrite drop_drop. done.
Qed.
(** Two adjacent writes are one write. *)
Lemma splice_splice c off b1 b2 :
  (off <= length c)%nat ->
  splice (splice c off b1) (off + length b1) b2 = splice c off (b1 ++ b2).
Proof.
  intros Hoff. unfold splice at 1. rewrite take_splice, drop_splice by done.
  unfold splice. rewrite length_app, <- !app_assoc, Nat.add_assoc. done.
Qed.

Lemma write_at_ok c off bs :
  0 <= off <= Z.of_nat (length c) -> off + Z.of_nat (length bs) <= MAXFILE * BSIZE ->
  write_at c off bs = Some (splice c (Z.to_nat off) bs).
Proof.
  intros H1 H2. unfold write_at. unfold MAXFILE, BSIZE in *.
  rewrite u32_small by (unfold W32; lia).
  destruct (Z.ltb_spec (Z.of_nat (length c)) off); [lia|].
  destruct (Z.ltb_spec (off + Z.of_nat (length bs)) off); [lia|].
  destruct (Z.ltb_spec (140 * 512) (off + Z.of_nat (length bs))); [lia|]. done.
Qed.

Lemma filewrite_loop_ok fuel : forall c off bs,
  0 <= off <= Z.of_nat (length c) -> off + Z.of_nat (length bs) <= MAXFILE * BSIZE ->
  (length bs <= fuel * FILEWRITE_MAX)%nat ->
  filewrite_loop c off bs fuel = (splice c (Z.to_nat off) bs, true).
Proof.
  induction fuel as [|fuel IH]; intros c off bs Hoff Hmax Hf.
  { destruct bs; [|cbn in Hf; lia]. cbn. rewrite splice_nil by lia. done. }
  cbn [filewrite_loop]. destruct bs as [|b bs]; [by rewrite splice_nil by lia|].
  set (bb := b :: bs) in *. assert (0 < FILEWRITE_MAX)%nat by (unfold FILEWRITE_MAX; lia).
  pose proof (length_take bb FILEWRITE_MAX) as El.
  rewrite write_at_ok by lia. rewrite IH.
  - rewrite Z2Nat.inj_add, Nat2Z.id by lia. rewrite splice_splice by lia. by rewrite take_drop.
  - rewrite length_splice by lia. lia.
  - rewrite length_drop. lia.
  - rewrite length_drop. lia.
Qed.

(** What was written is read back. *)
Lemma read_at_splice c off bs :
  0 <= off <= Z.of_nat (length c) -> off + Z.of_nat (length bs) <= MAXFILE * BSIZE ->
  read_at (splice c (Z.to_nat off) bs) off (Z.of_nat (length bs)) = Some bs.
Proof.
  intros H1 H2. unfold read_at, MAXFILE, BSIZE in *. rewrite u32_small by (unfold W32; lia).
  rewrite length_splice by lia.
  destruct (Z.ltb_spec (Z.of_nat (Nat.max (length c) (Z.to_nat off + length bs))) off); [lia|].
  destruct (Z.ltb_spec (off + Z.of_nat (length bs)) off); [lia|]. cbn. f_equal. rewrite Nat2Z.id.
  unfold splice. rewrite drop_app_length' by (rewrite length_take; lia). by rewrite take_app_length.
Qed.

Lemma read_at_le c off n :
  0 <= off <= Z.of_nat (length c) -> Z.of_nat (length c) <= MAXFILE * BSIZE -> 0 <= n <= 4096 ->
  read_at c off n = Some (take (Z.to_nat n) (drop (Z.to_nat off) c)).
Proof.
  intros Ho Hc Hn. unfold read_at, MAXFILE, BSIZE in *. rewrite u32_small by (unfold W32; lia).
  destruct (Z.ltb_spec (Z.of_nat (length c)) off); [lia|]. by destruct (Z.ltb_spec (off + n) off); [lia|].
Qed.
Lemma splice_next (c : list Z) o n :
  (o <= length c)%nat -> splice (take o c) o (take n (drop o c)) = take (o + n) c.
Proof.
  intros Ho. unfold splice. rewrite (drop_ge (take o c)) by (rewrite length_take; lia). rewrite app_nil_r.
  rewrite take_take, Nat.min_id. apply take_take_drop.
Qed.
