(* ===== verification/Swap.v ===== *)
(** Paging to disk (vm.c, the swap-file functions of fs.c): growing a process
    ([allocuvm] and its helpers), evicting a resident page to the process's
    swap file ([allocuvm_withswap]), bringing a page back
    ([handle_pagedout]) and the page-fault entry point ([pagefault]). *)

From S2P Require Import Prelude Mmu Memory Machine Kalloc PageTable Uvm Cow Replace Aq Files.
From stdpp Require Import base gmap list strings.
From Stdlib Require Import ZArith Lia.
Open Scope Z_scope.

Section Swap.
Context {KI : KernelImage}.

(** ** Access to user memory

    A kernel access to a user address goes through the directory in [cr3];
    with CR0_WP set a write needs a writable entry. The code below only
    touches pages it has just checked or made present, so that a fault in
    the middle of it is not modelled. *)
Definition xlate (write : bool) (va : Z) (s : kstate) : option Z :=
  let v := pte_val (mem s) (cr3 s / PGSIZE) va in
  if has v PTE_P && (negb write || has v PTE_W) && (PTE_ADDR v <? PHYSTOP)
  then Some (P2V (PTE_ADDR v) + va mod PGSIZE) else None.

Fixpoint read_user (va : Z) (n : nat) : M kstate (list Z) :=
  match n with
  | O => mret []
  | S n' =>
      a ← gets (xlate false va);
      match a with
      | None => ub
      | Some a => b ← gets (fun s => load8 (mem s) a); bs ← read_user (va + 1) n'; mret (b :: bs)
      end
  end.
Fixpoint write_user (va : Z) (bs : list Z) : M kstate unit :=
  match bs with
  | [] => mret tt
  | b :: bs' =>
      a ← gets (xlate true va);
      match a with
      | None => ub
      | Some a => set_mem (fun m => store8 m a b) ;; write_user (va + 1) bs'
      end
  end.

(** ** The swap file (fs.c) *)

Definition swap_contents : M kstate (list Z) :=
  p ← cur; c ← gets (fun s => swapfiles s !! swapFile p);
  match c with Some c => mret c | None => ub end.
Definition set_swap_contents (c : list Z) : M kstate unit :=
  p ← cur; modify (fun s => {| s with swapfiles := <[swapFile p := c]> (swapfiles s) |}).

(** From a user address; the result is [size] or -1. *)
Definition writeToSwapFile (buffer placeOnFile size : Z) : M kstate Z :=
  c ← swap_contents;
  bs ← read_user buffer (Z.to_nat size);
  let '(c', ok) := filewrite_loop c placeOnFile bs (S (length bs)) in
  set_swap_contents c' ;;
  mret (if (ok : bool) then size else -1).

(** To the kernel's page buffer; the result is the number of bytes or -1. *)
Definition readFromSwapFile (placeOnFile size : Z) : M kstate Z :=
  c ← swap_contents;
  match read_at c placeOnFile size with
  | None => mret (-1)
  | Some bs =>
      modify (fun s => {| s with buffer := bs ++ drop (length bs) (buffer s) |}) ;;
      mret (Z.of_nat (length bs))
  end.

(** ** Entries of the page tables of the current process *)

Definition cur_ram (i : Z) : M kstate page :=
  p ← cur;
  if i <? 0 then ub else match ramPages p !! Z.to_nat i with Some pg => mret pg | None => ub end.
Definition set_cur_ram (i : Z) (f : page -> page) : M kstate unit :=
  p ← cur;
  if (i <? 0) || (Z.of_nat (length (ramPages p)) <=? i) then ub
  else set_cur (fun p => {| p with ramPages := alter f (Z.to_nat i) (ramPages p) |}).
Definition cur_swapped (i : Z) : M kstate page :=
  p ← cur;
  if i <? 0 then ub else match swappedPages p !! Z.to_nat i with Some pg => mret pg | None => ub end.
Definition set_cur_swapped (i : Z) (f : page -> page) : M kstate unit :=
  p ← cur;
  if (i <? 0) || (Z.of_nat (length (swappedPages p)) <=? i) then ub
  else set_cur (fun p => {| p with swappedPages := alter f (Z.to_nat i) (swappedPages p) |}).

(** The first index of a table that satisfies a test, or -1. *)
Fixpoint index_loop (test : page -> bool) (l : list page) (i : Z) : Z :=
  match l with
  | [] => -1
  | pg :: l' => if test pg then i else index_loop test l' (i + 1)
  end.
Definition getSwappedPageIndex (va : Z) : M kstate Z :=
  p ← cur; mret (index_loop (fun pg => virt_addr pg =? va) (swappedPages p) 0).
Definition getNextFreeRamIndex : M kstate Z :=
  p ← cur; mret (index_loop (fun pg => isused pg =? 0) (ramPages p) 0).
(** It searches the table of swapped pages. *)
Definition getRamPageIndexByVirtAddr (va : Z) : M kstate Z :=
  p ← cur; mret (index_loop (fun pg => virt_addr pg =? va) (swappedPages p) 0).
Definition getNumRefsWarpper (idx : Z) : M kstate Z :=
  pg ← cur_ram idx;
  evicted_pte ← walkpgdir (page_pgdir pg) (virt_addr pg) false;
  v ← ld32 evicted_pte;
  getRefs (P2V (PTE_ADDR v)).

(** ** Policy data of a page that became resident *)

(** The new node goes to the head of the queue. *)
Definition enqueue_page (page_ramindex : Z) : M kstate unit :=
  node ← kalloc;
  stf node QN_page_index page_ramindex ;;
  p ← cur;
  if ((queue_head p =? 0) && (queue_tail p =? 0))%bool then
    set_cur (fun p => {| p with queue_head := node |}) ;;
    set_cur (fun p => {| p with queue_tail := node |}) ;;
    stf node QN_next 0 ;;
    stf node QN_prev 0
  else
    stf (queue_head p) QN_prev node ;;
    stf node QN_next (queue_head p) ;;
    set_cur (fun p => {| p with queue_head := node |}) ;;
    stf node QN_prev 0.
Definition update_selectionfiled_allocuvm (sel : selection_policy) (page_ramindex : Z) : M kstate unit :=
  match sel with
  | NFUA => set_cur_ram page_ramindex (fun pg => {| pg with nfua_counter := 0xFFFFFFFF |})
  | LAPA => set_cur_ram page_ramindex (fun pg => {| pg with lapa_counter := 0xFFFFFFFF |})
  | AQ => enqueue_page page_ramindex
  | _ => mret tt
  end.
(** The same code in the source. *)
Definition update_selectionfiled_pagefault (sel : selection_policy) (page_ramindex : Z) : M kstate unit :=
  match sel with
  | NFUA => set_cur_ram page_ramindex (fun pg => {| pg with nfua_counter := 0xFFFFFFFF |})
  | LAPA => set_cur_ram page_ramindex (fun pg => {| pg with lapa_counter := 0xFFFFFFFF |})
  | AQ => enqueue_page page_ramindex
  | _ => mret tt
  end.

(** ** Growing a process *)

Definition allocuvm_noswap (sel : selection_policy) (pgdir rounded_virtaddr : Z) : M kstate unit :=
  p ← cur;
  let i := num_ram p in
  set_cur_ram i (fun pg => {| pg with isused := 1 |}) ;;
  set_cur_ram i (fun pg => {| pg with page_pgdir := pgdir |}) ;;
  set_cur_ram i (fun pg => {| pg with swap_offset := -1 |}) ;;
  set_cur_ram i (fun pg => {| pg with virt_addr := rounded_virtaddr |}) ;;
  update_selectionfiled_allocuvm sel i ;;
  set_cur (fun p => {| p with num_ram := s32 (num_ram p + 1) |}).

(** Offsets of the fields of [struct fblock]. *)
Definition FB_off : Z := 0.
Definition FB_next : Z := 4.
Definition FB_prev : Z := 8.

(** Takes the first free block of the swap file. *)
Definition take_block : M kstate Z :=
  p ← cur;
  off ← ldf (free_head p) FB_off;
  next ← ldf (free_head p) FB_next;
  (if next =? 0 then
     set_cur (fun p => {| p with free_tail := 0 |}) ;;
     set_cur (fun p => {| p with free_head := 0 |})
   else set_cur (fun p => {| p with free_head := next |})) ;;
  mret (s32 off).

(** Marks an entry as paged out: [*pte &= 0xFFF; *pte |= PTE_PG; *pte &= ~PTE_P]. *)
Definition mark_paged_out (pte : Z) : M kstate unit :=
  update_pte pte (fun v => Z.land v 0xFFF) ;;
  update_pte pte (fun v => Z.lor v PTE_PG) ;;
  update_pte pte (fun v => clr v PTE_P).

Definition allocuvm_withswap (sel : selection_policy) (pgdir rounded_virtaddr : Z) : M kstate unit :=
  p ← cur;
  if Z.of_nat MAX_PSYC_PAGES <=? num_swap p then panic "page limit exceeded" else
  evicted_ind ← indexToEvict sel;
  evicted_page ← cur_ram evicted_ind;
  off ← take_block;
  r ← writeToSwapFile (virt_addr evicted_page) (u32 off) PGSIZE;
  if r <? 0 then panic "allocuvm: writeToSwapFile" else
  p ← cur;
  evicted_page ← cur_ram evicted_ind;
  set_cur_swapped (num_swap p) (fun pg => {| pg with isused := 1 |}) ;;
  set_cur_swapped (num_swap p) (fun pg => {| pg with virt_addr := virt_addr evicted_page |}) ;;
  set_cur_swapped (num_swap p) (fun pg => {| pg with page_pgdir := page_pgdir evicted_page |}) ;;
  set_cur_swapped (num_swap p) (fun pg => {| pg with swap_offset := off |}) ;;
  lcr3 (V2P (page_pgdir evicted_page)) ;;
  set_cur (fun p => {| p with num_swap := s32 (num_swap p + 1) |}) ;;
  evicted_pte ← walkpgdir (page_pgdir evicted_page) (virt_addr evicted_page) false;
  v ← ld32 evicted_pte;
  if negb (has v PTE_P) then panic "allocuvm: swap: ram page not present" else
  drop_page (P2V (PTE_ADDR v)) ;;
  mark_paged_out evicted_pte ;;
  set_cur_ram evicted_ind (fun pg => {| pg with isused := 1 |}) ;;
  set_cur_ram evicted_ind (fun pg => {| pg with page_pgdir := pgdir |}) ;;
  set_cur_ram evicted_ind (fun pg => {| pg with swap_offset := -1 |}) ;;
  set_cur_ram evicted_ind (fun pg => {| pg with virt_addr := rounded_virtaddr |}) ;;
  update_selectionfiled_allocuvm sel evicted_ind.

Definition allocuvm_paging (sel : selection_policy) (pgdir rounded_virtaddr : Z) : M kstate unit :=
  match sel with
  | NONE => allocuvm_noswap sel pgdir rounded_virtaddr
  | _ =>
      p ← cur;
      if num_ram p <? Z.of_nat MAX_PSYC_PAGES then allocuvm_noswap sel pgdir rounded_virtaddr
      else allocuvm_withswap sel pgdir rounded_virtaddr
  end.

Fixpoint allocuvm_loop (sel : selection_policy) (pgdir a oldsz newsz : Z) (fuel : nat) : M kstate Z :=
  if a <? newsz then
    match fuel with
    | O => diverge
    | S fuel' =>
        mem ← kalloc;
        if mem =? 0 then deallocuvm pgdir newsz oldsz ;; mret 0 else
        set_mem (fun m => memset m mem 0 PGSIZE) ;;
        r ← mappages pgdir a PGSIZE (V2P mem) (Z.lor PTE_W PTE_U);
        if r <? 0 then deallocuvm pgdir newsz oldsz ;; kfree mem ;; mret 0 else
        p ← cur;
        when (2 <? pid p) (allocuvm_paging sel pgdir a) ;;
        allocuvm_loop sel pgdir (u32 (a + PGSIZE)) oldsz newsz fuel'
    end
  else mret newsz.
Definition allocuvm (sel : selection_policy) (pgdir oldsz newsz : Z) : M kstate Z :=
  if KERNBASE <=? newsz then mret 0 else
  if newsz <? oldsz then mret oldsz else
  let a := PGROUNDUP oldsz in
  allocuvm_loop sel pgdir a oldsz newsz (Z.to_nat ((newsz - a) / PGSIZE + 1)).

(** ** Bringing a page back *)

Definition handle_pagedout (sel : selection_policy) (start_page pte : Z) : M kstate unit :=
  new_page ← kalloc;
  update_pte pte (fun v => Z.lor v (Z.lor (Z.lor PTE_P PTE_W) PTE_U)) ;;
  update_pte pte (fun v => clr v PTE_PG) ;;
  update_pte pte (fun v => Z.land v 0xFFF) ;;
  update_pte pte (fun v => Z.lor v (V2P new_page)) ;;
  index ← getSwappedPageIndex start_page;
  swap_page ← cur_swapped index;
  r ← readFromSwapFile (u32 (swap_offset swap_page)) PGSIZE;
  if r <? 0 then panic "allocuvm: readFromSwapFile1" else
  new_block ← kalloc;
  stf new_block FB_off (swap_offset swap_page) ;;
  stf new_block FB_next 0 ;;
  p ← cur;
  stf new_block FB_prev (free_tail p) ;;
  (if negb (free_tail p =? 0) then stf (free_tail p) FB_next new_block
   else set_cur (fun p => {| p with free_head := new_block |})) ;;
  set_cur (fun p => {| p with free_tail := new_block |}) ;;
  buf ← gets buffer;
  write_user start_page (take (Z.to_nat PGSIZE) buf) ;;
  set_cur_swapped index (fun _ => page_zero) ;;
  p ← cur;
  if num_ram p <? Z.of_nat MAX_PSYC_PAGES then
    new_indx ← getNextFreeRamIndex;
    set_cur_ram new_indx (fun pg => {| pg with virt_addr := start_page |}) ;;
    set_cur_ram new_indx (fun pg => {| pg with isused := 1 |}) ;;
    set_cur_ram new_indx (fun pg => {| pg with page_pgdir := pgdir p |}) ;;
    set_cur_ram new_indx (fun pg => {| pg with swap_offset := -1 |}) ;;
    update_selectionfiled_pagefault sel new_indx ;;
    set_cur (fun p => {| p with num_ram := s32 (num_ram p + 1) |}) ;;
    set_cur (fun p => {| p with num_swap := s32 (num_swap p - 1) |})
  else
    index_to_evicet ← indexToEvict sel;
    ram_page ← cur_ram index_to_evicet;
    off ← take_block;
    r ← writeToSwapFile (virt_addr ram_page) (u32 off) PGSIZE;
    if r <? 0 then panic "allocuvm: writeToSwapFile" else
    ram_page ← cur_ram index_to_evicet;
    set_cur_swapped index (fun pg => {| pg with virt_addr := virt_addr ram_page |}) ;;
    set_cur_swapped index (fun pg => {| pg with page_pgdir := page_pgdir ram_page |}) ;;
    set_cur_swapped index (fun pg => {| pg with isused := 1 |}) ;;
    set_cur_swapped index (fun pg => {| pg with swap_offset := off |}) ;;
    p ← cur;
    pte ← walkpgdir (pgdir p) (virt_addr ram_page) false;
    v ← ld32 pte;
    if negb (has v PTE_P) then panic "pagefault: ram page is not present" else
    drop_page (P2V (PTE_ADDR v)) ;;
    mark_paged_out pte ;;
    set_cur_ram index_to_evicet (fun pg => {| pg with virt_addr := start_page |}) ;;
    update_selectionfiled_pagefault sel index_to_evicet ;;
    p ← cur;
    lcr3 (V2P (pgdir p)).

(** ** The page-fault handler *)

(** The entry is read before the pointer to it is tested. *)
Definition pagefault (sel : selection_policy) : M kstate unit :=
  va ← gets cr2;
  set_cur (fun p => {| p with totalPgfltCount := u32 (totalPgfltCount p + 1) |}) ;;
  let start_page := PGROUNDDOWN va in
  p ← cur;
  pte ← walkpgdir (pgdir p) start_page false;
  v ← ld32 pte;
  if has v PTE_PG && negb (has v PTE_COW) then handle_pagedout sel start_page pte
  else if (KERNBASE <=? va) || (pte =? 0) then set_cur (fun p => {| p with killed := 1 |})
  else handle_cow_pagefault pte start_page.

(** ** Lemmas on user memory *)

Lemma xlate_page write s pd va f o :
  cr3 s = pd * PGSIZE -> page_aligned va -> 0 <= va < KERNBASE -> 0 <= o < PGSIZE ->
  0 <= f < MAXPAGES -> uframe (mem s) pd va = f -> has (pte_val (mem s) pd va) PTE_P = true ->
  (write = true -> has (pte_val (mem s) pd va) PTE_W = true) ->
  xlate write (va + o) s = Some (frame_addr f + o).
Proof.
  intros Hcr Ha Hva Ho Hf Huf HP HW. unfold xlate. rewrite Hcr, Z.div_mul by done.
  unfold page_aligned, PGSIZE, KERNBASE in *.
  assert (vpn (va + o) = vpn va) as Ev.
  { unfold vpn. rewrite !u32_small by (unfold W32; lia). zlia. }
  rewrite (pte_val_vpn _ _ (va + o) va) by done. rewrite HP.
  assert ((PTE_ADDR (pte_val (mem s) pd va) <? PHYSTOP) = true) as ->.
  { apply Z.ltb_lt. unfold uframe, PGSIZE in Huf. revert Hf. rewrite <- Huf. change MAXPAGES with 57344.
    pose proof (PTE_ADDR_aligned (pte_val (mem s) pd va)) as Hal. revert Hal.
    generalize (PTE_ADDR (pte_val (mem s) pd va)). unfold page_aligned, PHYSTOP. intros x Hal Hx. zlia. }
  assert ((negb write || has (pte_val (mem s) pd va) PTE_W)%bool = true) as ->.
  { destruct write; [rewrite HW by done; done|done]. }
  cbn. f_equal. rewrite P2V_PTE_ADDR by (unfold uframe in Huf; by rewrite Huf).
  unfold uframe in Huf. rewrite Huf. f_equal. zlia.
Qed.

Lemma wp_read_user s pd va f : forall n o Q,
  cr3 s = pd * PGSIZE -> page_aligned va -> 0 <= va < KERNBASE ->
  0 <= f < MAXPAGES -> uframe (mem s) pd va = f -> has (pte_val (mem s) pd va) PTE_P = true ->
  0 <= o -> o + Z.of_nat n <= PGSIZE ->
  Q (load_bytes (mem s) (frame_addr f + o) n) s -> wp (read_user (va + o) n) Q s.
Proof.
  induction n as [|n IH]; intros o Q Hcr Ha Hva Hf Huf HP Ho Hn HQ; cbn [read_user]; [done|].
  wp_steps. rewrite (xlate_page false s pd va f o) by (done || lia). wp_steps.
  rewrite <- Z.add_assoc. apply IH; try done; try lia. wp_steps. rewrite Z.add_assoc. exact HQ.
Qed.

(** Stores to a frame outside the directory keep the translation. *)
Lemma wp_write_user pd va f : forall bs s o Q,
  cr3 s = pd * PGSIZE -> page_aligned va -> 0 <= va < KERNBASE ->
  0 <= f < MAXPAGES -> uframe (mem s) pd va = f -> has (pte_val (mem s) pd va) PTE_P = true ->
  has (pte_val (mem s) pd va) PTE_W = true -> pt_wf (mem s) pd -> ~ owns (mem s) pd f ->
  0 <= o -> o + Z.of_nat (length bs) <= PGSIZE ->
  Q tt {| s with mem := store_bytes (mem s) (frame_addr f + o) bs |} -> wp (write_user (va + o) bs) Q s.
Proof.
  induction bs as [|b bs IH]; intros s o Q Hcr Ha Hva Hf Huf HP HW Hw Ho Hoo Hn HQ; cbn [write_user].
  { wp_steps. by destruct s. }
  wp_steps. cbn [length] in Hn. rewrite (xlate_page true s pd va f o) by (done || lia). rewrite wp_bind, wp_set_mem.
  rewrite <- Z.add_assoc.
  destruct (pt_frame (mem s) (store8 (mem s) (frame_addr f + o) b) pd Hw) as (Hw' & Ht & Hv).
  { intros g Hg x Hx. apply load8_store8_ne. assert (g ≠ f) by (intros ->; done).
    unfold in_frame, frame_addr, PGSIZE in *. lia. }
  apply IH; cbn [mem cr3]; try done; try lia.
  - unfold uframe. by rewrite Hv.
  - by rewrite Hv.
  - by rewrite Hv.
  - by rewrite (owns_frame (mem s)).
  - cbn [store_bytes] in HQ. by rewrite Z.add_assoc.
Qed.

(** ** Paging a page out *)

(** The entry of a page that was paged out. *)
Definition paged_pte (v : Z) : Z := clr (Z.lor (Z.land v 0xFFF) PTE_PG) PTE_P.

Lemma paged_pte_facts v :
  0 <= v < W32 ->
  0 <= Z.land v 0xFFF < W32 /\ 0 <= Z.lor (Z.land v 0xFFF) PTE_PG < W32 /\ 0 <= paged_pte v < W32 /\
  has (paged_pte v) PTE_P = false /\ has (paged_pte v) PTE_PG = true /\
  has (paged_pte v) PTE_W = has v PTE_W /\ has (paged_pte v) PTE_U = has v PTE_U /\
  has (paged_pte v) PTE_COW = has v PTE_COW.
Proof.
  intros Hv. unfold paged_pte. replace (Z.land v 0xFFF) with (PTE_FLAGS v) by (unfold PTE_FLAGS; by rewrite u32_small).
  assert (0 <= PTE_FLAGS v < 4096) as H0 by (rewrite PTE_FLAGS_eq; zlia).
  assert (0 <= Z.lor (PTE_FLAGS v) PTE_PG < W32) as H2 by (apply lor_u32; unfold PTE_PG, W32 in *; lia).
  pose proof (clr_bounds (Z.lor (PTE_FLAGS v) PTE_PG) PTE_P (proj1 H2)) as H3.
  split_and!; try (unfold W32 in *; lia); rewrite ?has_clr, ?has_lor, ?has_FLAGS by auto with pte;
    try done; cbn; by rewrite ?orb_false_r, ?orb_true_r, ?andb_true_r, ?andb_false_r.
Qed.

(** A page was paged out: its entry is no longer present, its frame has one
    reference less and is free if that was the last one, and nothing else
    changed in memory. *)
Record paged_out (pd va : Z) (s s' : kstate) (l l' : list Z) : Prop := {
  po_ok : as_ok s' pd l';
  po_user : user_ok s' pd;
  po_tbl : forall i, 0 <= i < 1024 -> tbl (mem s') pd i = tbl (mem s) pd i;
  po_view : forall va', pte_val (mem s') pd va' =
              if decide (vpn va = vpn va') then paged_pte (pte_val (mem s) pd va) else pte_val (mem s) pd va';
  po_list : l' = if decide (ref_of s (uframe (mem s) pd va) = 1) then uframe (mem s) pd va :: l else l;
  po_ref : ref_of s' (uframe (mem s) pd va) = ref_of s (uframe (mem s) pd va) - 1;
  po_run : forall g, g ≠ uframe (mem s) pd va -> run_at (km s') g = run_at (km s) g;
  po_mem : forall g, ~ owns (mem s) pd g -> 0 <= g < MAXPAGES ->
             (g ≠ uframe (mem s) pd va) \/ (ref_of s (uframe (mem s) pd va) ≠ 1) -> same_frame (mem s) (mem s') g
}.

Lemma dropped_as_ok pd s s1 f l l1 :
  as_ok s pd l -> ~ owns (mem s) pd f -> dropped s s1 f l l1 ->
  as_ok s1 pd l1 /\ (forall i, 0 <= i < 1024 -> tbl (mem s1) pd i = tbl (mem s) pd i) /\
  (forall va, pte_val (mem s1) pd va = pte_val (mem s) pd va).
Proof.
  intros Hok Hfo Hd. destruct (pt_frame (mem s) (mem s1) pd (ok_wf _ _ _ Hok)) as (Hw1 & Htbl1 & Hv1).
  { intros g Hg. apply (dr_mem _ _ _ _ _ Hd). left. intros ->. done. }
  split_and!; try done. split; [|apply Hd|done|].
  - pose proof (ok_unlocked _ _ _ Hok) as Hu. unfold kmem_unlocked in *.
    rewrite (dr_lock _ _ _ _ _ Hd), (dr_state _ _ _ _ _ Hd). exact Hu.
  - intros g. rewrite (owns_frame (mem s)) by done. rewrite (dr_list _ _ _ _ _ Hd). case_decide.
    + intros [->|Hg]%elem_of_cons; [done|]. by apply (ok_free _ _ _ Hok).
    + by apply (ok_free _ _ _ Hok).
Qed.

Lemma wp_mark_paged_out s pd l va t :
  as_ok s pd l -> tbl (mem s) pd (PDX va) = Some t ->
  wp (mark_paged_out (frame_addr t + 4 * PTX va))
     (fun _ s' => stored pd va (paged_pte (pte_val (mem s) pd va)) s s' l) s.
Proof.
  intros Hok Ht. set (v := pte_val (mem s) pd va).
  destruct (paged_pte_facts v (pte_val_range _ _ _)) as (B1 & B2 & B3 & _).
  unfold mark_paged_out. rewrite wp_bind.
  eapply wp_mono; [by apply (wp_update_pte s pd l va t)|]. fold v. intros [] s1 H1.
  assert (pte_val (mem s1) pd va = Z.land v 0xFFF) as E1 by (rewrite (st_view _ _ _ _ _ _ H1); by rewrite decide_True).
  rewrite wp_bind. eapply wp_mono.
  { apply (wp_update_pte s1 pd l va t); [apply H1|by rewrite (st_tbl _ _ _ _ _ _ H1) by apply PDX_range|by rewrite E1]. }
  rewrite E1. intros [] s2 H2. pose proof (stored_trans _ _ _ _ _ _ _ _ H1 H2) as H12. clear H1 H2 E1.
  assert (pte_val (mem s2) pd va = Z.lor (Z.land v 0xFFF) PTE_PG) as E2
    by (rewrite (st_view _ _ _ _ _ _ H12); by rewrite decide_True).
  eapply wp_mono.
  { apply (wp_update_pte s2 pd l va t); [apply H12|by rewrite (st_tbl _ _ _ _ _ _ H12) by apply PDX_range|by rewrite E2]. }
  rewrite E2. intros [] s3 H3. exact (stored_trans _ _ _ _ _ _ _ _ H12 H3).
Qed.

Lemma wp_page_out s pd l va t :
  as_ok s pd l -> user_ok s pd -> 0 <= va < KERNBASE -> tbl (mem s) pd (PDX va) = Some t ->
  present (mem s) pd va ->
  wp (drop_page (P2V (PTE_ADDR (pte_val (mem s) pd va))) ;; mark_paged_out (frame_addr t + 4 * PTX va))
     (fun _ s' => s' = {| s with mem := mem s'; km := km s' |} /\ exists l', paged_out pd va s s' l l') s.
Proof.
  intros Hok Hu Hva Ht Hp. destruct (uo_frame _ _ Hu va Hva Hp) as (Hf & Hfo & Hfr).
  rewrite P2V_PTE_ADDR by apply Hf. fold (uframe (mem s) pd va). rewrite wp_bind.
  apply (wp_drop_page _ _ l); [apply Hok|apply Hok|done|done|]. intros s1 l1 Hd.
  destruct (dropped_as_ok pd s s1 _ l l1 Hok Hfo Hd) as (Hok1 & Htbl1 & Hv1).
  eapply wp_mono; [apply (wp_mark_paged_out s1 pd l1 va t); [done|by rewrite Htbl1 by apply PDX_range]|].
  rewrite Hv1. intros [] s' Hst. pose proof (st_ext _ _ _ _ _ _ Hst) as Hx.
  split; [rewrite (px_state _ _ _ _ _ Hx); cbn [mem km]; by rewrite (dr_state _ _ _ _ _ Hd)|]. exists l1.
  assert (forall va', pte_val (mem s') pd va' =
    if decide (vpn va = vpn va') then paged_pte (pte_val (mem s) pd va) else pte_val (mem s) pd va') as Hview.
  { intros va'. rewrite (st_view _ _ _ _ _ _ Hst). case_decide; [done|]. apply Hv1. }
  assert (forall g, owns (mem s') pd g <-> owns (mem s) pd g) as Hown.
  { intros g. rewrite (stored_owns _ _ _ _ _ _ _ Hst). by apply owns_frame. }
  assert (forall g, run_at (km s') g = run_at (km s1) g) as Hrun by (intros; by rewrite (st_km _ _ _ _ _ _ Hst)).
  destruct (paged_pte_facts _ (pte_val_range (mem s) pd va)) as (_ & _ & _ & HnP & _).
  split; try done.
  - apply Hx.
  - split.
    + intros va' Hva'. unfold present, uframe. rewrite Hview. case_decide as E; [by rewrite HnP|]. intros Hp'.
      rewrite Hown. unfold ref_of. rewrite Hrun, (dr_other _ _ _ _ _ Hd); [by apply (uo_frame _ _ Hu)|].
      intros Heq. apply E. by apply (uo_inj _ _ Hu).
    + intros va1 va2 Hr1 Hr2. unfold present, uframe. rewrite !Hview. repeat case_decide; rewrite ?HnP; try done.
      by apply (uo_inj _ _ Hu).
  - intros i Hi. rewrite (st_tbl _ _ _ _ _ _ Hst), Htbl1; done.
  - apply Hd.
  - unfold ref_of at 1. rewrite Hrun. apply Hd.
  - intros g Hg. rewrite Hrun. by apply (dr_other _ _ _ _ _ Hd).
  - intros g Hg Hgr Hn. eapply same_frame_trans; [by apply (dr_mem _ _ _ _ _ Hd)|].
    apply (px_mem _ _ _ _ _ Hx); [by rewrite Hown|done].
Qed.

(** These relations only look at memory, the allocator and the locks. *)
Lemma as_ok_eq s0 s1 pd l : mem s1 = mem s0 -> km s1 = km s0 -> held s1 = held s0 -> as_ok s0 pd l -> as_ok s1 pd l.
Proof. intros Em Ek Eh [H1 H2 H3 H4]. split; unfold kmem_unlocked in *; by rewrite ?Em, ?Ek, ?Eh. Qed.
Lemma user_ok_eq s s1 pd : mem s1 = mem s -> km s1 = km s -> user_ok s pd -> user_ok s1 pd.
Proof. intros Em Ek [H1 H2]. split; unfold ref_of; by rewrite ?Em, ?Ek. Qed.
Lemma paged_out_eq pd va s s1 s' s1' l l' :
  mem s1 = mem s -> km s1 = km s -> mem s1' = mem s' -> km s1' = km s' -> held s1' = held s' ->
  paged_out pd va s s' l l' -> paged_out pd va s1 s1' l l'.
Proof.
  intros E1 E2 E3 E4 E5 [H1 H2 H3 H4 H5 H6 H7 H8]. unfold ref_of in *.
  split; unfold ref_of; rewrite ?E1, ?E2, ?E3, ?E4; try done.
  - by eapply (as_ok_eq s').
  - by eapply (user_ok_eq s').
Qed.

(** The policy data a page starts with. *)
Definition stamp (sel : selection_policy) (pg : page) : page :=
  match sel with
  | NFUA => {| pg with nfua_counter := 0xFFFFFFFF |}
  | LAPA => {| pg with lapa_counter := 0xFFFFFFFF |}
  | _ => pg
  end.
(** The record of a process after the page [pg] in slot [e] was written to
    the block at [off], with [next] the next free block, and its slot given
    to the page [va'] of [pgd']. *)
Definition swapped_proc (sel : selection_policy) (p : proc) (e : nat) (pg : page) (off next pgd' va' : Z) : proc :=
  {| p with
     free_head := next;
     free_tail := if next =? 0 then 0 else free_tail p;
     swappedPages := alter (fun q => {| q with isused := 1; virt_addr := virt_addr pg;
                                               page_pgdir := page_pgdir pg; swap_offset := off |})
                           (Z.to_nat (num_swap p)) (swappedPages p);
     num_swap := num_swap p + 1;
     ramPages := alter (fun q => stamp sel {| q with isused := 1; page_pgdir := pgd'; swap_offset := -1;
                                                     virt_addr := va' |}) e (ramPages p) |}.

(** ** Symbolic execution

    [ust m k q c w b] is [s] with memory [m], allocator [k], the current
    process's entry [q], control register [c], swap files [w] and page
    buffer [b]: the parts of the state that paging changes. *)
Section Exec.
Context (s : kstate) (i : nat).
Hypothesis Hcur : curproc s = Some i.
Hypothesis Hlt : (i < length (procs s))%nat.

Definition ust (m : gmap Z Z) (k : kmem) (q : proc) (c : Z) (w : gmap Z (list Z)) (b : list Z) : kstate :=
  {| s with mem := m; km := k; procs := <[i := q]> (procs s); cr3 := c; swapfiles := w; buffer := b |}.

Lemma ust_cur m k q c w b : curp (ust m k q c w b) = Some q.
Proof.
  unfold curp. change (curproc (ust m k q c w b)) with (curproc s). rewrite Hcur. cbn.
  by apply list_lookup_insert_eq.
Qed.
Lemma wp_u_cur m k q c w b Q : Q q (ust m k q c w b) -> wp cur Q (ust m k q c w b).
Proof. intros. apply (wp_cur q); [apply ust_cur|done]. Qed.
Lemma wp_u_set m k q c w b f Q : Q tt (ust m k (f q) c w b) -> wp (set_cur f) Q (ust m k q c w b).
Proof.
  intros HQ. apply (wp_set_cur i); [done|]. cbn.
  rewrite (list_alter_insert_lookup _ _ _ q) by (by apply list_lookup_insert_eq).
  rewrite list_insert_insert_eq. exact HQ.
Qed.
Lemma wp_u_ldf m k q c w b a o Q : a ≠ 0 -> Q (load32 m (a + o)) (ust m k q c w b) -> wp (ldf a o) Q (ust m k q c w b).
Proof. intros. by apply wp_ldf. Qed.
Lemma wp_u_stf m k q c w b a o v Q :
  a ≠ 0 -> Q tt (ust (store32 m (a + o) v) k q c w b) -> wp (stf a o v) Q (ust m k q c w b).
Proof. intros. by apply wp_stf. Qed.

Lemma wp_u_cur_ram m k q c w b e pg Q :
  0 <= e -> ramPages q !! Z.to_nat e = Some pg -> Q pg (ust m k q c w b) -> wp (cur_ram e) Q (ust m k q c w b).
Proof.
  intros He Hpg HQ. unfold cur_ram. rewrite wp_bind. apply wp_u_cur.
  destruct (Z.ltb_spec e 0); [lia|]. by rewrite Hpg.
Qed.
Lemma wp_u_cur_swapped m k q c w b e pg Q :
  0 <= e -> swappedPages q !! Z.to_nat e = Some pg -> Q pg (ust m k q c w b) -> wp (cur_swapped e) Q (ust m k q c w b).
Proof.
  intros He Hpg HQ. unfold cur_swapped. rewrite wp_bind. apply wp_u_cur.
  destruct (Z.ltb_spec e 0); [lia|]. by rewrite Hpg.
Qed.
(** Replacing one of the two tables of a process. *)
Definition with_ram (q : proc) (l : list page) : proc := {| q with ramPages := l |}.
Definition with_swapped (q : proc) (l : list page) : proc := {| q with swappedPages := l |}.
Lemma with_ram_twice q l l' : with_ram (with_ram q l) l' = with_ram q l'.
Proof. done. Qed.
Lemma with_swapped_twice q l l' : with_swapped (with_swapped q l) l' = with_swapped q l'.
Proof. done. Qed.
Lemma ramPages_with q l : ramPages (with_ram q l) = l.
Proof. done. Qed.
Lemma swappedPages_with q l : swappedPages (with_swapped q l) = l.
Proof. done. Qed.

Lemma wp_u_set_ram m k q c w b e f Q :
  0 <= e < Z.of_nat (length (ramPages q)) ->
  Q tt (ust m k (with_ram q (alter f (Z.to_nat e) (ramPages q))) c w b) ->
  wp (set_cur_ram e f) Q (ust m k q c w b).
Proof.
  intros He HQ. unfold set_cur_ram. rewrite wp_bind. apply wp_u_cur.
  destruct (Z.ltb_spec e 0); [lia|]. destruct (Z.leb_spec (Z.of_nat (length (ramPages q))) e); [lia|]. cbn.
  by apply wp_u_set.
Qed.
Lemma wp_u_set_swapped m k q c w b e f Q :
  0 <= e < Z.of_nat (length (swappedPages q)) ->
  Q tt (ust m k (with_swapped q (alter f (Z.to_nat e) (swappedPages q))) c w b) ->
  wp (set_cur_swapped e f) Q (ust m k q c w b).
Proof.
  intros He HQ. unfold set_cur_swapped. rewrite wp_bind. apply wp_u_cur.
  destruct (Z.ltb_spec e 0); [lia|]. destruct (Z.leb_spec (Z.of_nat (length (swappedPages q))) e); [lia|]. cbn.
  by apply wp_u_set.
Qed.

Lemma wp_u_counts m k q c w b Q :
  Q tt (ust m k {| q with num_ram := s32 (num_ram q + 1); num_swap := s32 (num_swap q - 1) |} c w b) ->
  wp (set_cur (fun p => {| p with num_ram := s32 (num_ram p + 1) |}) ;;
      set_cur (fun p => {| p with num_swap := s32 (num_swap p - 1) |})) Q (ust m k q c w b).
Proof. intros HQ. rewrite wp_bind. do 2 apply wp_u_set. exact HQ. Qed.

(** Writing a page of the process to the swap file. *)
Lemma wp_u_write m k q c w b pd va f off ct Q :
  c = pd * PGSIZE -> page_aligned va -> 0 <= va < KERNBASE -> 0 <= f < MAXPAGES ->
  uframe m pd va = f -> has (pte_val m pd va) PTE_P = true ->
  w !! swapFile q = Some ct -> 0 <= off <= Z.of_nat (length ct) -> off + PGSIZE <= MAXFILE * BSIZE ->
  Q PGSIZE (ust m k q c (<[swapFile q := splice ct (Z.to_nat off) (load_bytes m (frame_addr f) 4096)]> w) b) ->
  wp (writeToSwapFile va off PGSIZE) Q (ust m k q c w b).
Proof.
  intros Hc Ha Hva Hf Huf HP Hct Hoff Hmax HQ. unfold writeToSwapFile, swap_contents, set_swap_contents.
  rewrite wp_bind, wp_bind. apply wp_u_cur. rewrite wp_bind, wp_gets. cbn [swapfiles ust]. rewrite Hct, wp_ret.
  rewrite wp_bind. rewrite <- (Z.add_0_r va).
  apply (wp_read_user _ pd va f); cbn [mem cr3 ust]; try done.
  rewrite Z.add_0_r. change (Z.to_nat PGSIZE) with 4096%nat.
  rewrite filewrite_loop_ok; [|done|rewrite length_load_bytes; exact Hmax|rewrite length_load_bytes; unfold FILEWRITE_MAX; lia].
  rewrite wp_bind, wp_bind. apply wp_u_cur. rewrite wp_modify, wp_ret. exact HQ.
Qed.

(** Reading a block of the swap file to the buffer. *)
Lemma wp_u_read m k q c w b off ct bs Q :
  w !! swapFile q = Some ct -> read_at ct off PGSIZE = Some bs -> Z.of_nat (length bs) = PGSIZE ->
  length b = length bs ->
  Q PGSIZE (ust m k q c w bs) -> wp (readFromSwapFile off PGSIZE) Q (ust m k q c w b).
Proof.
  intros Hct Hr Hl Hb HQ. unfold readFromSwapFile, swap_contents.
  rewrite wp_bind, wp_bind. apply wp_u_cur. rewrite wp_bind, wp_gets. cbn [swapfiles ust]. rewrite Hct, wp_ret, Hr.
  rewrite wp_bind, wp_modify, wp_ret, Hl. cbn [buffer ust]. rewrite drop_ge, app_nil_r by lia. exact HQ.
Qed.

Lemma wp_u_take_block m k q c w b Q :
  free_head q ≠ 0 ->
  (let next := load32 m (free_head q + FB_next) in
   Q (s32 (load32 m (free_head q + FB_off)))
     (ust m k {| q with free_head := next; free_tail := if next =? 0 then 0 else free_tail q |} c w b)) ->
  wp take_block Q (ust m k q c w b).
Proof.
  cbv zeta. intros Hfh HQ. unfold take_block. rewrite wp_bind. apply wp_u_cur.
  rewrite wp_bind. apply wp_u_ldf; [done|]. rewrite wp_bind. apply wp_u_ldf; [done|]. rewrite wp_bind.
  destruct (Z.eqb_spec (load32 m (free_head q + FB_next)) 0) as [E|E].
  - rewrite wp_bind. apply wp_u_set. apply wp_u_set. rewrite wp_ret.
    rewrite E in HQ. exact HQ.
  - apply wp_u_set. by rewrite wp_ret.
Qed.

(** The slot of the table of resident pages is given to another page. *)
Lemma wp_u_reslot sel m k q c w b e pgd' va' Q :
  0 <= e < Z.of_nat (length (ramPages q)) -> sel ≠ AQ ->
  Q tt (ust m k (with_ram q (alter (fun pg => stamp sel {| pg with isused := 1; page_pgdir := pgd';
                     swap_offset := -1; virt_addr := va' |}) (Z.to_nat e) (ramPages q))) c w b) ->
  wp (set_cur_ram e (fun pg => {| pg with isused := 1 |}) ;;
      set_cur_ram e (fun pg => {| pg with page_pgdir := pgd' |}) ;;
      set_cur_ram e (fun pg => {| pg with swap_offset := -1 |}) ;;
      set_cur_ram e (fun pg => {| pg with virt_addr := va' |}) ;;
      update_selectionfiled_allocuvm sel e) Q (ust m k q c w b).
Proof.
  intros He Hsel HQ.
  do 4 (rewrite wp_bind; apply wp_u_set_ram; [by rewrite ?ramPages_with, ?length_alter|];
        rewrite ?with_ram_twice, ?ramPages_with, ?list_alter_alter_eq).
  destruct sel; try done; cbn [update_selectionfiled_allocuvm];
    try (apply wp_u_set_ram; [by rewrite ?ramPages_with, ?length_alter|];
         rewrite ?with_ram_twice, ?ramPages_with, ?list_alter_alter_eq); exact HQ.
Qed.

(** The entry in the table of swapped pages. *)
Lemma wp_u_record {A} m k q c w b n pg off (K : M kstate A) Q :
  0 <= n < Z.of_nat (length (swappedPages q)) ->
  wp K Q (ust m k (with_swapped q
       (alter (fun r => {| r with isused := 1; virt_addr := virt_addr pg; page_pgdir := page_pgdir pg;
                                  swap_offset := off |}) (Z.to_nat n) (swappedPages q))) c w b) ->
  wp (set_cur_swapped n (fun r => {| r with isused := 1 |}) ;;
      set_cur_swapped n (fun r => {| r with virt_addr := virt_addr pg |}) ;;
      set_cur_swapped n (fun r => {| r with page_pgdir := page_pgdir pg |}) ;;
      set_cur_swapped n (fun r => {| r with swap_offset := off |}) ;; K) Q (ust m k q c w b).
Proof.
  intros Hn HQ.
  do 4 (rewrite wp_bind; apply wp_u_set_swapped; [by rewrite ?swappedPages_with, ?length_alter|];
        rewrite ?with_swapped_twice, ?swappedPages_with, ?list_alter_alter_eq).
  exact HQ.
Qed.

(** Paging out, on the states of this section. *)
Lemma wp_u_page_out {A} q c w b pd l va t (K : M kstate A) Q :
  as_ok s pd l -> user_ok s pd -> 0 <= va < KERNBASE -> tbl (mem s) pd (PDX va) = Some t ->
  present (mem s) pd va ->
  (forall m' k' l', (forall q' c' w' b', paged_out pd va s (ust m' k' q' c' w' b') l l') ->
     wp K Q (ust m' k' q c w b)) ->
  wp (drop_page (P2V (PTE_ADDR (pte_val (mem s) pd va))) ;; mark_paged_out (frame_addr t + 4 * PTX va) ;; K) Q
     (ust (mem s) (km s) q c w b).
Proof.
  intros Hok Hu Hva Ht Hp HK.
  assert (as_ok (ust (mem s) (km s) q c w b) pd l) as Hok1 by (by apply (as_ok_eq s)).
  assert (user_ok (ust (mem s) (km s) q c w b) pd) as Hu1 by (by apply (user_ok_eq s)).
  pose proof (wp_page_out _ pd l va t Hok1 Hu1 Hva Ht Hp) as Hw.
  change (mem (ust (mem s) (km s) q c w b)) with (mem s) in Hw.
  rewrite wp_bind. rewrite wp_bind in Hw. eapply wp_mono; [exact Hw|]. intros [] s1 Hs1. cbn beta in Hs1.
  rewrite wp_bind. eapply wp_mono; [exact Hs1|]. intros [] s2 (E & l' & Hpo). cbn beta.
  rewrite E. apply (HK _ _ l'). intros q' c' w' b'. eapply paged_out_eq; [..|exact Hpo]; try done.
  by rewrite E.
Qed.

End Exec.

Lemma ust_refl s i p :
  procs s !! i = Some p -> s = ust s i (mem s) (km s) p (cr3 s) (swapfiles s) (buffer s).
Proof. intros Hp. destruct s. unfold ust. cbn in *. by rewrite list_insert_id. Qed.

Lemma wp_run {A} (m : M kstate A) s a s' Q : m s = Ok a s' -> wp m Q s <-> Q a s'.
Proof. intros E. unfold wp. by rewrite E. Qed.

(** A process that can page: it runs in the directory [pd], its tables have
    their full size, and its swap file has the contents [ct]. *)
Record pager (s : kstate) (i : nat) (p : proc) (pd : Z) (l : list Z) (ct : list Z) : Prop := {
  pg_cur : curproc s = Some i;
  pg_proc : procs s !! i = Some p;
  pg_as : as_ok s pd l;
  pg_user : user_ok s pd;
  pg_cr3 : cr3 s = pd * PGSIZE;
  pg_pgdir : pgdir p = frame_addr pd;
  pg_file : swapfiles s !! swapFile p = Some ct
}.
(** The page [va] is resident and the first block of the free list, at
    [off], fits the swap file. *)
Record evictable (s : kstate) (p : proc) (pd va off : Z) (ct : list Z) : Prop := {
  ev_aligned : page_aligned va;
  ev_user : 0 <= va < KERNBASE;
  ev_present : present (mem s) pd va;
  ev_head : free_head p ≠ 0;
  ev_off : load32 (mem s) (free_head p + FB_off) = off;
  ev_fits : 0 <= off <= Z.of_nat (length ct);
  ev_max : off + PGSIZE <= MAXFILE * BSIZE
}.
Definition page_bytes (s : kstate) (pd va : Z) : list Z :=
  load_bytes (mem s) (frame_addr (uframe (mem s) pd va)) 4096.

Lemma V2P_frame f : 0 <= f < MAXPAGES -> V2P (frame_addr f) = f * PGSIZE.
Proof. intros Hf. change MAXPAGES with 57344 in Hf. unfold V2P, frame_addr, PGSIZE, KERNBASE. rewrite u32_small; unfold W32; lia. Qed.

Lemma present_tbl m pd va : present m pd va -> exists t, tbl m pd (PDX va) = Some t.
Proof.
  unfold present, pte_val. destruct (tbl m pd (PDX va)) as [t|]; [by exists t|]. done.
Qed.

Lemma wp_allocuvm_withswap sel s i p pd l ct e pg off pgd' va' :
  pager s i p pd l ct -> sel ≠ AQ ->
  indexToEvict sel s = Ok e s -> 0 <= e -> ramPages p !! Z.to_nat e = Some pg -> page_pgdir pg = frame_addr pd ->
  evictable s p pd (virt_addr pg) off ct ->
  0 <= num_swap p < 16 -> length (swappedPages p) = 16%nat ->
  wp (allocuvm_withswap sel pgd' va') (fun _ s' =>
    (exists l', paged_out pd (virt_addr pg) s s' l l') /\
    s' = {| s with mem := mem s'; km := km s';
            procs := <[i := swapped_proc sel p (Z.to_nat e) pg off (load32 (mem s) (free_head p + FB_next)) pgd' va']>
                       (procs s);
            swapfiles := <[swapFile p := splice ct (Z.to_nat off) (page_bytes s pd (virt_addr pg))]> (swapfiles s) |}) s.
Proof.
  intros [Hc Hp Hok Hu Hcr Hpd Hct] Hsel Hev He Hpg Hpgd [Ha Hva Hpr Hfh Hoff Hfit Hmax] Hns Hsw.
  assert (i < length (procs s))%nat as Hlt by (by eapply lookup_lt_Some).
  destruct (uo_frame _ _ Hu _ Hva Hpr) as (Hf & Hfo & Hfr).
  destruct (present_tbl _ _ _ Hpr) as [t Ht].
  assert (0 <= off < 2147483648) as Hoffr by (unfold MAXFILE, BSIZE, PGSIZE in *; lia).
  unfold allocuvm_withswap. rewrite wp_bind. rewrite (wp_cur p) by (unfold curp; rewrite Hc; done).
  destruct (Z.leb_spec (Z.of_nat MAX_PSYC_PAGES) (num_swap p)) as [Hx|_]; [unfold MAX_PSYC_PAGES in Hx; lia|].
  rewrite wp_bind, (wp_run _ _ _ _ _ Hev). rewrite (ust_refl s i p Hp) at 1.
  rewrite wp_bind. apply (wp_u_cur_ram s i Hc Hlt _ _ _ _ _ _ _ pg); [done|done|].
  rewrite wp_bind. apply (wp_u_take_block s i Hc Hlt); [done|]. cbv zeta. rewrite Hoff, s32_small by lia.
  set (next := load32 (mem s) (free_head p + FB_next)).
  rewrite wp_bind. rewrite (u32_small off) by (unfold W32; lia).
  apply (wp_u_write s i Hc Hlt _ _ _ _ _ _ pd (virt_addr pg) (uframe (mem s) pd (virt_addr pg)) off ct);
    [done|done|done|apply Hf|done|done|done|done|done|].
  cbn [Z.ltb Z.compare PGSIZE]. rewrite wp_bind. apply (wp_u_cur s i Hc Hlt).
  rewrite wp_bind. apply (wp_u_cur_ram s i Hc Hlt _ _ _ _ _ _ _ pg); [done|done|]. cbn [num_swap].
  apply (wp_u_record s i Hc Hlt); [cbn [swappedPages]; rewrite Hsw; lia|].
  rewrite wp_bind. unfold lcr3. rewrite wp_modify. rewrite wp_bind.
  apply (wp_u_set s i Hc Hlt). cbn [num_swap with_swapped]. rewrite (s32_small (num_swap p + 1)) by lia.
  rewrite Hpgd, V2P_frame by apply Hok.
  rewrite wp_bind. apply wp_walkpgdir_false; [apply Hok| |cbn [mem ust]; by rewrite Ht].
  cbn [mem ust]. rewrite Ht. intros ? [= <-].
  assert (frame_addr t + 4 * PTX (virt_addr pg) ≠ 0) as Hnz.
  { pose proof (wf_tbl _ _ (ok_wf _ _ _ Hok) _ _ (PDX_range (virt_addr pg)) Ht) as [Ht0 _].
    pose proof (PTX_range (virt_addr pg)). unfold frame_addr, KERNBASE, PGSIZE. lia. }
  rewrite wp_bind, wp_ld32 by done. cbn [mem ust].
  assert (load32 (mem s) (frame_addr t + 4 * PTX (virt_addr pg)) = pte_val (mem s) pd (virt_addr pg)) as ->.
  { unfold pte_val. by rewrite Ht. }
  rewrite Hpr. cbn [negb].
  apply (wp_u_page_out s i _ _ _ _ pd l (virt_addr pg) t); [done..|]. intros m' k' l' Hpo.
  apply (wp_u_reslot s i Hc Hlt); [cbn [ramPages with_swapped]; apply lookup_lt_Some in Hpg; lia|done|].
  split; [exists l'; apply Hpo|]. unfold swapped_proc. rewrite Hpgd, <- Hcr. reflexivity.
Qed.

(** ** Paging a page in *)

(** The entry of a page that was brought back to the frame at [pa]. *)
Definition in_pte (v pa : Z) : Z :=
  Z.lor (Z.land (clr (Z.lor v (Z.lor (Z.lor PTE_P PTE_W) PTE_U)) PTE_PG) 0xFFF) pa.

Lemma in_pte_facts v pa :
  0 <= v < W32 -> page_aligned pa -> 0 <= pa < W32 ->
  let v1 := Z.lor v (Z.lor (Z.lor PTE_P PTE_W) PTE_U) in let v2 := clr v1 PTE_PG in
  0 <= v1 < W32 /\ 0 <= v2 < W32 /\ 0 <= Z.land v2 0xFFF < W32 /\ 0 <= in_pte v pa < W32 /\
  PTE_ADDR (in_pte v pa) = pa /\
  has (in_pte v pa) PTE_P = true /\ has (in_pte v pa) PTE_W = true /\ has (in_pte v pa) PTE_PG = false.
Proof.
  intros Hv Ha Hpa v1 v2.
  assert (0 <= v1 < W32) as H1 by (apply lor_u32; [done|change (Z.lor (Z.lor PTE_P PTE_W) PTE_U) with 7; unfold W32; lia]).
  pose proof (clr_bounds v1 PTE_PG (proj1 H1)) as H2. fold v2 in H2.
  assert (0 <= v2 < W32) as H3 by lia.
  assert (Z.land v2 0xFFF = PTE_FLAGS v2) as E by (unfold PTE_FLAGS; by rewrite u32_small).
  assert (0 <= PTE_FLAGS v2 < 4096) as H4 by (rewrite PTE_FLAGS_eq; zlia).
  unfold in_pte. fold v1. fold v2. rewrite E.
  assert (0 <= Z.lor (PTE_FLAGS v2) pa < W32) as H5 by (apply lor_u32; unfold W32 in *; lia).
  assert (forall f, is_flag f -> has (Z.lor (PTE_FLAGS v2) pa) f = has v2 f) as Hf.
  { intros f Hf. rewrite has_lor, has_FLAGS by done. rewrite (has_page pa) by done. apply orb_false_r. }
  split_and!; try lia; try (unfold W32; lia).
  - rewrite Z.lor_comm, lor_page by done. rewrite PTE_ADDR_eq, u32_small.
    + unfold page_aligned in Ha. zlia.
    + rewrite <- lor_page, Z.lor_comm by done. done.
  - rewrite Hf by auto with pte. unfold v2, v1. rewrite has_clr, !has_lor by auto with pte. cbn. by rewrite !orb_true_r.
  - rewrite Hf by auto with pte. unfold v2, v1. rewrite has_clr, !has_lor by auto with pte. cbn. by rewrite !orb_true_r.
  - rewrite Hf by auto with pte. unfold v2, v1. rewrite has_clr, !has_lor by auto with pte. cbn. by rewrite ?orb_false_r, ?andb_false_r.
Qed.

Lemma wp_kalloc_as s pd f l Q :
  as_ok s pd (f :: l) ->
  (forall k', kmem_ok k' l -> use_lock k' = use_lock (km s) -> refcount (run_at k' f) = 1 ->
     (forall g, g ≠ f -> run_at k' g = run_at (km s) g) -> Q (frame_addr f) {| s with km := k' |}) ->
  wp kalloc Q s.
Proof.
  intros Hok HQ. eapply wp_kalloc_cons; [apply Hok|apply Hok|]. apply HQ; [by apply kmem_ok_pop; [apply Hok|]|done| |].
  - unfold run_at; cbn. by rewrite lookup_insert_eq.
  - intros g Hg. unfold run_at; cbn. by rewrite lookup_insert_ne by done.
Qed.

Lemma as_ok_km s pd f l k' :
  as_ok s pd (f :: l) -> kmem_ok k' l -> use_lock k' = use_lock (km s) -> as_ok {| s with km := k' |} pd l.
Proof.
  intros [H1 H2 H3 H4] Hk El. split; try done.
  - unfold kmem_unlocked in *. cbn. by rewrite El.
  - intros g Hg. apply H4. apply elem_of_cons. by right.
Qed.

(** Writing the four intermediate values of the entry. *)
Lemma wp_remap {A} s pd l va t pa (K : M kstate A) Q :
  as_ok s pd l -> tbl (mem s) pd (PDX va) = Some t -> page_aligned pa -> 0 <= pa < W32 ->
  let pte := frame_addr t + 4 * PTX va in
  (forall s', stored pd va (in_pte (pte_val (mem s) pd va) pa) s s' l -> wp K Q s') ->
  wp (update_pte pte (fun v => Z.lor v (Z.lor (Z.lor PTE_P PTE_W) PTE_U)) ;;
      update_pte pte (fun v => clr v PTE_PG) ;;
      update_pte pte (fun v => Z.land v 0xFFF) ;;
      update_pte pte (fun v => Z.lor v pa) ;; K) Q s.
Proof.
  intros Hok Ht Ha Hpa pte. set (v := pte_val (mem s) pd va). intros HK.
  destruct (in_pte_facts v pa (pte_val_range _ _ _) Ha Hpa) as (B1 & B2 & B3 & B4 & _).
  assert (forall f s1 v1 Q, stored pd va v1 s s1 l -> 0 <= f v1 < W32 ->
    (forall s2, stored pd va (f v1) s s2 l -> Q tt s2) -> wp (update_pte pte f) Q s1) as Hstep.
  { intros f s1 v1 Q' H1 Hf HQ.
    assert (pte_val (mem s1) pd va = v1) as E1 by (rewrite (st_view _ _ _ _ _ _ H1); by rewrite decide_True).
    eapply wp_mono.
    { apply (wp_update_pte s1 pd l va t); [apply H1|by rewrite (st_tbl _ _ _ _ _ _ H1) by apply PDX_range|by rewrite E1]. }
    rewrite E1. intros [] s2 H2. apply HQ. by eapply stored_trans. }
  rewrite wp_bind. eapply wp_mono; [by apply (wp_update_pte s pd l va t)|]. fold v. intros [] s1 H1.
  rewrite wp_bind. eapply Hstep; [exact H1|done|]. intros s2 H2.
  rewrite wp_bind. eapply Hstep; [exact H2|done|]. intros s3 H3.
  rewrite wp_bind. eapply Hstep; [exact H3|done|]. intros s4 H4. by apply HK.
Qed.

(** A store outside the directory's frames. *)
Lemma pt_frame_other m m' pd (fs : list Z) :
  pt_wf m pd -> (forall f, f ∈ fs -> ~ owns m pd f) -> (forall g, g ∉ fs -> same_frame m m' g) ->
  pt_wf m' pd /\ (forall i, 0 <= i < 1024 -> tbl m' pd i = tbl m pd i) /\
  (forall va, pte_val m' pd va = pte_val m pd va).
Proof.
  intros Hw Hno Hs. apply pt_frame; [done|]. intros f Hf. apply Hs. intros Hin. by apply (Hno f).
Qed.

(** The block at the tail of the list of free blocks: not a frame of the
    process's address space. *)
Definition tail_frame (s : kstate) (p : proc) (pd : Z) (l fs : list Z) : Prop :=
  (free_tail p = 0 /\ fs = []) \/
  exists g, free_tail p = frame_addr g /\ 0 <= g < MAXPAGES /\ fs = [g] /\ ~ owns (mem s) pd g /\ (g ∉ l) /\
    forall va, 0 <= va < KERNBASE -> present (mem s) pd va -> uframe (mem s) pd va ≠ g.

(** The block just read is appended to the list of free blocks. *)
Lemma wp_u_append_block {A} s i (Hc : curproc s = Some i) (Hlt : (i < length (procs s))%nat)
    m k q c w b n off fs (K : M kstate A) Q :
  0 <= n -> (free_tail q = 0 /\ fs = []) \/ (exists g, free_tail q = frame_addr g /\ 0 <= g < MAXPAGES /\ fs = [g]) ->
  (forall m', (forall g, g ∉ n :: fs -> same_frame m m' g) ->
     wp K Q (ust s i m' k {| q with free_head := if free_tail q =? 0 then frame_addr n else free_head q;
                                    free_tail := frame_addr n |} c w b)) ->
  wp (stf (frame_addr n) FB_off off ;;
      stf (frame_addr n) FB_next 0 ;;
      p ← cur;
      stf (frame_addr n) FB_prev (free_tail p) ;;
      (if negb (free_tail p =? 0) then stf (free_tail p) FB_next (frame_addr n)
       else set_cur (fun p => {| p with free_head := frame_addr n |})) ;;
      set_cur (fun p => {| p with free_tail := frame_addr n |}) ;; K) Q (ust s i m k q c w b).
Proof.
  intros Hn Htail HK. pose proof (frame_addr_nz n Hn) as Hnz.
  rewrite wp_bind. apply wp_u_stf; [done|]. rewrite wp_bind. apply wp_u_stf; [done|].
  rewrite wp_bind. apply (wp_u_cur s i Hc Hlt). rewrite wp_bind. apply wp_u_stf; [done|].
  assert (forall g a b c, g ≠ n -> same_frame m (store32 (store32 (store32 m (frame_addr n + FB_off) a)
    (frame_addr n + FB_next) b) (frame_addr n + FB_prev) c) g) as Hsame.
  { intros g a b' c' Hg.
    do 2 (eapply same_frame_trans; [|apply same_frame_store32; [exact Hg|unfold FB_prev, FB_next; lia]]).
    apply same_frame_store32; [exact Hg|unfold FB_off; lia]. }
  rewrite wp_bind. destruct Htail as [[E ->]|(g & E & Hg & ->)]; rewrite E.
  - cbn [Z.eqb negb]. apply (wp_u_set s i Hc Hlt). rewrite wp_bind. apply (wp_u_set s i Hc Hlt).
    rewrite E in HK. apply HK. intros g Hg. rewrite not_elem_of_cons in Hg. destruct Hg as [Hg _].
    by apply Hsame.
  - rewrite E in HK. destruct (Z.eqb_spec (frame_addr g) 0) as [E0|_]; [by apply frame_addr_nz in E0; [|lia]|].
    cbn [negb]. apply wp_u_stf; [apply frame_addr_nz; lia|]. rewrite wp_bind. apply (wp_u_set s i Hc Hlt).
    apply HK. intros h Hh. rewrite !not_elem_of_cons in Hh. destruct Hh as (Hh & Hhg & _).
    eapply same_frame_trans; [|apply same_frame_store32; [done|unfold FB_next; lia]].
    by apply Hsame.
Qed.

(** A page was brought back to frame [f] with the bytes [bs]; the frames of
    [touched] are the only ones outside the directory that changed. *)
Record paged_in (pd va f : Z) (bs touched : list Z) (s s' : kstate) (l' : list Z) : Prop := {
  pi_ok : as_ok s' pd l';
  pi_user : user_ok s' pd;
  pi_tbl : forall i, 0 <= i < 1024 -> tbl (mem s') pd i = tbl (mem s) pd i;
  pi_view : forall va', pte_val (mem s') pd va' =
              if decide (vpn va = vpn va') then in_pte (pte_val (mem s) pd va) (f * PGSIZE) else pte_val (mem s) pd va';
  pi_bytes : page_bytes s' pd va = bs;
  pi_mem : forall g, ~ owns (mem s) pd g -> g ∉ touched -> 0 <= g < MAXPAGES -> same_frame (mem s) (mem s') g;
  pi_ref : ref_of s' f = 1;
  pi_run : forall g, g ∉ touched -> run_at (km s') g = run_at (km s) g
}.

Lemma load_store_bytes m a bs :
  Forall (fun b => 0 <= b < 256) bs -> load_bytes (store_bytes m a bs) a (length bs) = bs.
Proof.
  intros Hb. apply list_eq. intros j. destruct (decide (j < length bs)%nat) as [Hj|Hj].
  - rewrite lookup_load_bytes by done. destruct (lookup_lt_is_Some_2 bs j Hj) as [b Eb]. rewrite Eb. f_equal.
    rewrite load8_store_bytes, decide_True by lia. replace (Z.to_nat (a + Z.of_nat j - a)) with j by lia.
    rewrite Eb. cbn. rewrite Forall_lookup in Hb. apply Z.mod_small. by apply (Hb j).
  - rewrite !lookup_ge_None_2; [done|lia|rewrite length_load_bytes; lia].
Qed.

(** The frames that paging in touches are not part of the address space. *)
Lemma touched_frames s p pd f n l fs :
  as_ok s pd (f :: n :: l) -> user_ok s pd -> tail_frame s p pd (f :: n :: l) fs ->
  (forall g, g ∈ f :: n :: fs -> ~ owns (mem s) pd g) /\
  (forall va, 0 <= va < KERNBASE -> present (mem s) pd va -> uframe (mem s) pd va ∉ f :: n :: fs).
Proof.
  intros Hok Hu Htail. split.
  - intros g [->|[->|Hg]%elem_of_cons]%elem_of_cons.
    + apply (ok_free _ _ _ Hok), elem_of_cons. by left.
    + apply (ok_free _ _ _ Hok). rewrite !elem_of_cons. auto.
    + destruct Htail as [[_ ->]|(g' & _ & _ & -> & Ho & _)]; [by apply not_elem_of_nil in Hg|].
      apply list_elem_of_singleton in Hg as ->. done.
  - intros va Hva Hp. destruct (uo_frame _ _ Hu va Hva Hp) as (_ & _ & Hr).
    pose proof (in_free_ref s _ _ (ok_kmem _ _ _ Hok) (proj1 Hr)) as Hnf. rewrite !not_elem_of_cons in *.
    split_and!; try tauto. destruct Htail as [[_ ->]|(g' & _ & _ & -> & _ & _ & Hg)]; [apply not_elem_of_nil|].
    rewrite list_elem_of_singleton. by apply Hg.
Qed.

(** The state after the sequence of [handle_pagedout] that brings the page
    back: the entry written ([s2]), the block appended ([m4]) and the bytes
    stored. *)
Lemma paged_in_intro s i p pd f n l va bs fs k1 s2 k3 m4 p1 c w b :
  as_ok s pd (f :: n :: l) -> user_ok s pd -> 0 <= va < KERNBASE -> tail_frame s p pd (f :: n :: l) fs ->
  Forall (fun b => 0 <= b < 256) bs -> length bs = 4096%nat ->
  refcount (run_at k1 f) = 1 -> (forall g, g ≠ f -> run_at k1 g = run_at (km s) g) ->
  stored pd va (in_pte (pte_val (mem s) pd va) (f * PGSIZE)) {| s with km := k1 |} s2 (n :: l) ->
  kmem_ok k3 l -> use_lock k3 = use_lock (km s) -> (forall g, g ≠ n -> run_at k3 g = run_at k1 g) ->
  (forall g, g ∉ n :: fs -> same_frame (mem s2) m4 g) ->
  paged_in pd va f bs (f :: n :: fs) s (ust s i (store_bytes m4 (frame_addr f) bs) k3 p1 c w b) l.
Proof.
  intros Hok Hu Hva Htail Hbs Hlen Hr1 Hrun1 Hst Hk3 Hul3 Hrun3 Hm4.
  set (s' := ust _ _ _ _ _ _ _ _). pose proof (st_ext _ _ _ _ _ _ Hst) as Hx.
  pose proof (ko_nodup _ _ (ok_kmem _ _ _ Hok)) as Hnd. apply NoDup_cons in Hnd as [Hfn _].
  apply not_elem_of_cons in Hfn as [Hfn _].
  pose proof (ko_range _ _ (ok_kmem _ _ _ Hok)) as Hrg. apply Forall_cons in Hrg as [Hfu _].
  destruct (touched_frames s p pd f n l fs Hok Hu Htail) as [Hno Hpr].
  assert (f ∈ f :: n :: fs) as Hin by (apply elem_of_cons; by left).
  assert (forall g, g ∉ f :: n :: fs -> same_frame (mem s2) (mem s') g) as Hsame.
  { intros g Hg. rewrite not_elem_of_cons in Hg. destruct Hg as [Hgf Hg].
    eapply same_frame_trans; [by apply Hm4|]. intros x Hx'. cbn [mem s' ust].
    rewrite load8_store_bytes, decide_False; [done|]. rewrite Hlen. unfold in_frame, frame_addr, PGSIZE in *. lia. }
  assert (forall g, owns (mem s2) pd g <-> owns (mem s) pd g) as Hown2 by (intros g; apply (stored_owns _ _ _ _ _ _ _ Hst)).
  destruct (pt_frame_other (mem s2) (mem s') pd (f :: n :: fs)) as (Hw' & Ht' & Hv');
    [apply Hx|intros g Hg; rewrite Hown2; by apply Hno|done|].
  assert (forall g, owns (mem s') pd g <-> owns (mem s) pd g) as Hown.
  { intros g. rewrite <- Hown2. by apply owns_frame. }
  assert (forall va', pte_val (mem s') pd va' = if decide (vpn va = vpn va')
     then in_pte (pte_val (mem s) pd va) (f * PGSIZE) else pte_val (mem s) pd va') as Hview.
  { intros va'. rewrite Hv'. apply (st_view _ _ _ _ _ _ Hst). }
  destruct (in_pte_facts (pte_val (mem s) pd va) (f * PGSIZE)) as (_ & _ & _ & _ & Hadr & _);
    [apply pte_val_range|unfold page_aligned, PGSIZE; by apply Z.mod_mul|
     destruct Hfu as [Hf _]; revert Hf; change MAXPAGES with 57344; unfold PGSIZE, W32; lia|].
  assert (forall va', vpn va = vpn va' -> uframe (mem s') pd va' = f) as Huf.
  { intros va' E. unfold uframe. rewrite Hview, decide_True, Hadr by done. by rewrite Z.div_mul. }
  assert (forall g, g ∉ f :: n :: fs -> run_at k3 g = run_at (km s) g) as Hrun.
  { intros g Hg. rewrite !not_elem_of_cons in Hg. rewrite Hrun3, Hrun1; tauto. }
  assert (ref_of s' f = 1) as Hrf by (unfold ref_of; cbn [km s' ust]; by rewrite Hrun3).
  split; try done.
  - split; [|done|done|].
    + pose proof (ok_unlocked _ _ _ Hok) as H. unfold kmem_unlocked in *. cbn [km held s' ust]. by rewrite Hul3.
    + intros g Hg. rewrite Hown. apply (ok_free _ _ _ Hok). rewrite !elem_of_cons. auto.
  - apply (user_ok_moved s s' pd va f); try done.
    + by apply Hno.
    + intros va' Hva' Hp' E. apply (Hpr va' Hva' Hp'). by rewrite E.
    + intros va' E. by rewrite Hview, decide_False.
    + rewrite Hrf. lia.
    + intros va' E Hva' Hp'. unfold ref_of. cbn [km s' ust]. rewrite Hrun by (by apply Hpr). by apply (uo_frame _ _ Hu).
  - intros j Hj. rewrite Ht' by done. apply (st_tbl _ _ _ _ _ _ Hst j Hj).
  - unfold page_bytes. rewrite Huf by done. cbn [mem s' ust]. rewrite <- Hlen. by apply load_store_bytes.
  - intros g Hg Ht Hgr. eapply same_frame_trans; [|by apply Hsame].
    apply (px_mem _ _ _ _ _ Hx); [by rewrite Hown2|done].
Qed.

(** The page [va] is in the swap file, entry [idx] of the table of swapped
    pages, with the contents [bs]. *)
Record paged_out_at (s : kstate) (p : proc) (pd va t idx : Z) (ct bs : list Z) : Prop := {
  pa_aligned : page_aligned va;
  pa_user : 0 <= va < KERNBASE;
  pa_tbl : tbl (mem s) pd (PDX va) = Some t;
  pa_idx : index_loop (fun pg => virt_addr pg =? va) (swappedPages p) 0 = idx;
  pa_entry : exists sp, 0 <= idx /\ swappedPages p !! Z.to_nat idx = Some sp /\
               read_at ct (u32 (swap_offset sp)) PGSIZE = Some bs;
  pa_bytes : Forall (fun b => 0 <= b < 256) bs;
  pa_length : length bs = 4096%nat;
  pa_buffer : length (buffer s) = 4096%nat
}.
(** The process after its page was brought back; [n] holds the new free
    block. *)
Definition fetched_proc (p : proc) (idx n : Z) : proc :=
  {| p with free_head := if free_tail p =? 0 then frame_addr n else free_head p;
            free_tail := frame_addr n;
            swappedPages := alter (fun _ => page_zero) (Z.to_nat idx) (swappedPages p) |}.

Lemma wp_fetch {A} s i p pd f n l ct va t idx bs fs (K : Z -> M kstate A) Q :
  pager s i p pd (f :: n :: l) ct -> paged_out_at s p pd va t idx ct bs ->
  tail_frame s p pd (f :: n :: l) fs ->
  (forall m' k', (forall q c w b, paged_in pd va f bs (f :: n :: fs) s (ust s i m' k' q c w b) l) ->
     wp (K idx) Q (ust s i m' k' (fetched_proc p idx n) (cr3 s) (swapfiles s) bs)) ->
  let pte := frame_addr t + 4 * PTX va in
  wp (new_page ← kalloc;
      update_pte pte (fun v => Z.lor v (Z.lor (Z.lor PTE_P PTE_W) PTE_U)) ;;
      update_pte pte (fun v => clr v PTE_PG) ;;
      update_pte pte (fun v => Z.land v 0xFFF) ;;
      update_pte pte (fun v => Z.lor v (V2P new_page)) ;;
      index ← getSwappedPageIndex va;
      swap_page ← cur_swapped index;
      r ← readFromSwapFile (u32 (swap_offset swap_page)) PGSIZE;
      if r <? 0 then panic "allocuvm: readFromSwapFile1" else
      new_block ← kalloc;
      stf new_block FB_off (swap_offset swap_page) ;;
      stf new_block FB_next 0 ;;
      p ← cur;
      stf new_block FB_prev (free_tail p) ;;
      (if negb (free_tail p =? 0) then stf (free_tail p) FB_next new_block
       else set_cur (fun p => {| p with free_head := new_block |})) ;;
      set_cur (fun p => {| p with free_tail := new_block |}) ;;
      buf ← gets buffer;
      write_user va (take (Z.to_nat PGSIZE) buf) ;;
      set_cur_swapped index (fun _ => page_zero) ;;
      K index) Q s.
Proof.
  intros [Hc Hp Hok Hu Hcr Hpd Hct] [Ha Hva Ht Hidx (sp & Hidx0 & Hsp & Hrd) Hbs Hlen Hbuf] Htail HK pte.
  assert (i < length (procs s))%nat as Hlt by (by eapply lookup_lt_Some).
  pose proof (ko_range _ _ (ok_kmem _ _ _ Hok)) as Hrg. apply Forall_cons in Hrg as [Hfu Hrg].
  apply Forall_cons in Hrg as [Hnu _].
  rewrite wp_bind. eapply wp_kalloc_as; [exact Hok|]. intros k1 Hk1 Hul1 Hr1 Hrun1.
  pose proof (as_ok_km _ _ _ _ _ Hok Hk1 Hul1) as Hok1.
  rewrite V2P_frame by apply Hfu. eapply (wp_remap _ pd); [exact Hok1|exact Ht| | |].
  { unfold page_aligned, PGSIZE. by apply Z.mod_mul. }
  { destruct Hfu as [Hf _]; revert Hf; change MAXPAGES with 57344; unfold PGSIZE, W32; lia. }
  intros s2 Hst. pose proof (st_ext _ _ _ _ _ _ Hst) as Hx.
  assert (s2 = ust s i (mem s2) k1 p (cr3 s) (swapfiles s) (buffer s)) as E2.
  { rewrite (px_state _ _ _ _ _ Hx) at 1. rewrite (st_km _ _ _ _ _ _ Hst). cbn [km].
    unfold ust. by rewrite list_insert_id. }
  rewrite E2 at 1. unfold getSwappedPageIndex. rewrite wp_bind, wp_bind. apply (wp_u_cur s i Hc Hlt).
  rewrite wp_ret, Hidx. rewrite wp_bind. apply (wp_u_cur_swapped s i Hc Hlt _ _ _ _ _ _ _ sp); [done|done|].
  rewrite wp_bind. apply (wp_u_read s i Hc Hlt _ _ _ _ _ _ _ ct bs); [done|done|by rewrite Hlen|by rewrite Hlen|].
  cbn [Z.ltb Z.compare PGSIZE]. rewrite wp_bind.
  eapply (wp_kalloc_as _ pd n l).
  { eapply (as_ok_eq s2); [done|by rewrite (st_km _ _ _ _ _ _ Hst)|by rewrite E2|apply Hx]. }
  intros k3 Hk3 Hul3 Hr3 Hrun3. cbn [km ust] in Hul3, Hrun3.
  destruct (touched_frames s p pd f n l fs Hok Hu Htail) as [Hno _].
  eapply (wp_u_append_block s i Hc Hlt (mem s2) k3 p _ _ _ n _ fs); [apply Hnu| |].
  { destruct Htail as [?|(g & E & Hg & Hfs & _)]; [by left|right; by exists g]. }
  intros m4 Hm4. rewrite wp_bind, wp_gets. cbn [buffer ust].
  rewrite take_ge by (rewrite Hlen; done). rewrite wp_bind. rewrite <- (Z.add_0_r va) at 1.
  destruct (pt_frame_other (mem s2) m4 pd (n :: fs)) as (Hw4 & Ht4 & Hv4); [apply Hx| |done|].
  { intros g Hg. rewrite (stored_owns _ _ _ _ _ _ _ Hst). apply Hno. apply elem_of_cons. by right. }
  destruct (in_pte_facts (pte_val (mem s) pd va) (f * PGSIZE)) as (_ & _ & _ & _ & Hadr & HP & HW & _);
    [apply pte_val_range|unfold page_aligned, PGSIZE; by apply Z.mod_mul|
     destruct Hfu as [Hf _]; revert Hf; change MAXPAGES with 57344; unfold PGSIZE, W32; lia|].
  assert (pte_val m4 pd va = in_pte (pte_val (mem s) pd va) (f * PGSIZE)) as Ev.
  { rewrite Hv4, (st_view _ _ _ _ _ _ Hst). by rewrite decide_True. }
  apply (wp_write_user pd va f); cbn [mem cr3 ust]; try done; try apply Hfu.
  - unfold uframe. rewrite Ev, Hadr. by rewrite Z.div_mul.
  - by rewrite Ev.
  - by rewrite Ev.
  - rewrite (owns_frame (mem s2)) by done. rewrite (stored_owns _ _ _ _ _ _ _ Hst). apply Hno, elem_of_cons. by left.
  - rewrite Hlen. done.
  - rewrite Z.add_0_r. rewrite wp_bind. apply (wp_u_set_swapped s i Hc Hlt).
    { cbn [swappedPages]. apply lookup_lt_Some in Hsp. lia. }
    apply HK. intros q c w b. apply (paged_in_intro s i p pd f n l va bs fs k1 s2 k3 m4); try done. by rewrite Hul3, Hul1.
Qed.

(** The choice of the policies that only look at the table. *)
Definition victim (sel : selection_policy) (pages : list page) : Z :=
  match sel with
  | NFUA => nfua_index pages
  | LAPA => lapa_index pages
  | DUMMY => 3
  | _ => 11
  end.
Lemma indexToEvict_victim sel s p :
  sel ≠ SCFIFO -> sel ≠ AQ -> curp s = Some p -> indexToEvict sel s = Ok (victim sel (ramPages p)) s.
Proof.
  intros H1 H2 Hp. assert (forall B (k : proc -> M kstate B), (cur ≫= k) s = k p s) as E.
  { intros B k. unfold curp in Hp. unfold cur, myproc, get_proc, gets, mbind, M_bind.
    destruct (curproc s) as [j|]; [|done]. cbn in Hp. by rewrite Hp. }
  destruct sel; try done; cbn; unfold nfua, lapa; by rewrite E.
Qed.

(** The process after the page took the free slot [e]. *)
Definition resident_proc (sel : selection_policy) (p : proc) (e : nat) (va : Z) : proc :=
  {| p with
     ramPages := alter (fun q => stamp sel {| q with isused := 1; page_pgdir := pgdir p; swap_offset := -1;
                                                     virt_addr := va |}) e (ramPages p);
     num_ram := num_ram p + 1;
     num_swap := num_swap p - 1 |}.

Lemma wp_handle_pagedout_room sel s i p pd f n l ct va t idx bs fs e :
  pager s i p pd (f :: n :: l) ct -> paged_out_at s p pd va t idx ct bs ->
  tail_frame s p pd (f :: n :: l) fs -> sel ≠ AQ ->
  0 <= num_ram p < 16 -> 0 < num_swap p <= 16 ->
  index_loop (fun pg => isused pg =? 0) (ramPages p) 0 = e -> 0 <= e < Z.of_nat (length (ramPages p)) ->
  wp (handle_pagedout sel va (frame_addr t + 4 * PTX va)) (fun _ s' =>
    paged_in pd va f bs (f :: n :: fs) s s' l /\
    s' = {| s with mem := mem s'; km := km s'; buffer := bs;
            procs := <[i := resident_proc sel (fetched_proc p idx n) (Z.to_nat e) va]> (procs s) |}) s.
Proof.
  intros Hpg Hpa Htail Hsel Hnr Hns He Her. pose proof Hpg as [Hc Hp Hok Hu Hcr Hpd Hct].
  assert (i < length (procs s))%nat as Hlt by (by eapply lookup_lt_Some).
  unfold handle_pagedout. eapply (wp_fetch s i p pd f n l ct va t idx bs fs); [done..|].
  intros m' k' Hin. rewrite wp_bind. apply (wp_u_cur s i Hc Hlt). cbn [num_ram fetched_proc].
  destruct (Z.ltb_spec (num_ram p) (Z.of_nat MAX_PSYC_PAGES)) as [_|Hx]; [|unfold MAX_PSYC_PAGES in Hx; lia].
  unfold getNextFreeRamIndex. rewrite wp_bind, wp_bind. apply (wp_u_cur s i Hc Hlt). cbn [ramPages fetched_proc].
  rewrite wp_ret, He.
  do 4 (rewrite wp_bind; apply (wp_u_set_ram s i Hc Hlt);
        [by rewrite ?ramPages_with, ?length_alter|]; rewrite ?with_ram_twice, ?ramPages_with, ?list_alter_alter_eq).
  rewrite wp_bind.
  assert (forall m k q c w b Q, 0 <= e < Z.of_nat (length (ramPages q)) ->
    Q tt (ust s i m k (with_ram q (alter (stamp sel) (Z.to_nat e) (ramPages q))) c w b) ->
    wp (update_selectionfiled_pagefault sel e) Q (ust s i m k q c w b)) as Hsf.
  { intros m k q c w b Q Hq HQ. destruct sel; try done; cbn [update_selectionfiled_pagefault];
      try (by apply (wp_u_set_ram s i Hc Hlt));
      (rewrite wp_ret; replace (alter _ _ _) with (ramPages q) in HQ; [by destruct q|]; symmetry; apply list_alter_id; done). }
  apply Hsf; [by rewrite ramPages_with, length_alter|]. rewrite with_ram_twice, ramPages_with, list_alter_alter_eq.
  apply (wp_u_counts s i Hc Hlt). cbn [num_ram num_swap with_ram fetched_proc].
  rewrite (s32_small (num_ram p + 1)), (s32_small (num_swap p - 1)) by lia.
  split; [apply Hin|]. reflexivity.
Qed.

(** ** The page-fault handler *)

(** [pagefault] up to the test of the entry, on a page whose table exists. *)
Definition bumped (p : proc) : proc := {| p with totalPgfltCount := u32 (totalPgfltCount p + 1) |}.
Lemma wp_pagefault sel s i p pd t Q :
  curproc s = Some i -> procs s !! i = Some p -> pt_wf (mem s) pd -> pgdir p = frame_addr pd ->
  let va := PGROUNDDOWN (cr2 s) in let pte := frame_addr t + 4 * PTX va in
  tbl (mem s) pd (PDX va) = Some t ->
  wp (if has (pte_val (mem s) pd va) PTE_PG && negb (has (pte_val (mem s) pd va) PTE_COW)
      then handle_pagedout sel va pte
      else if (KERNBASE <=? cr2 s) || (pte =? 0) then set_cur (fun p => {| p with killed := 1 |})
      else handle_cow_pagefault pte va) Q {| s with procs := <[i := bumped p]> (procs s) |} ->
  wp (pagefault sel) Q s.
Proof.
  intros Hc Hp Hw Hpd va pte Ht HQ. unfold pagefault. rewrite wp_bind, wp_gets.
  rewrite wp_bind. apply (wp_set_cur i); [done|]. rewrite (list_alter_insert_lookup _ _ _ p) by done. fold (bumped p).
  assert (i < length (procs s))%nat as Hlt by (by eapply lookup_lt_Some).
  rewrite wp_bind. rewrite (wp_cur (bumped p)); cbn [curp curproc procs].
  2: { unfold curp. cbn. rewrite Hc. cbn. by apply list_lookup_insert_eq. }
  change (pgdir (bumped p)) with (pgdir p). rewrite Hpd, wp_bind. apply wp_walkpgdir_false; [done| |cbn [mem]; fold va; by rewrite Ht].
  fold va. cbn [mem]. rewrite Ht. intros ? [= <-].
  pose proof (wf_tbl _ _ Hw _ _ (PDX_range va) Ht) as [Hf _]. pose proof (PTX_range va).
  rewrite wp_bind, wp_ld32 by (unfold frame_addr, KERNBASE, PGSIZE; lia). cbn [mem].
  fold pte. assert (load32 (mem s) pte = pte_val (mem s) pd va) as -> by (unfold pte_val; by rewrite Ht).
  exact HQ.
Qed.



(** A fault at an address for which the directory has no page table
    dereferences the null pointer that [walkpgdir] returned: the test of the
    pointer comes after the first use. *)
Theorem pagefault_null sel s i p pd :
  curproc s = Some i -> procs s !! i = Some p -> pt_wf (mem s) pd -> pgdir p = frame_addr pd ->
  tbl (mem s) pd (PDX (cr2 s)) = None ->
  pagefault sel s = UB.
Proof.
  intros Hc Hp Hw Hpd Ht. set (s1 := {| s with procs := <[i := bumped p]> (procs s) |}).
  assert (i < length (procs s))%nat as Hlt by (by eapply lookup_lt_Some).
  assert (wp (walkpgdir (frame_addr pd) (PGROUNDDOWN (cr2 s)) false) (fun r s' => r = 0 /\ s' = s1) s1) as Hn.
  { apply wp_walkpgdir_false; rewrite ?PDX_PGROUNDDOWN; [done|cbn; congruence|done]. }
  apply wp_Ok in Hn as (? & ? & Hrun & -> & ->).
  assert (curp s1 = Some (bumped p)) as Hcp by (unfold curp; cbn; rewrite Hc; by apply list_lookup_insert_eq).
  assert (wp cur (fun r s' => r = bumped p /\ s' = s1) s1) as Hcur by (by apply (wp_cur (bumped p))).
  apply wp_Ok in Hcur as (? & ? & Hcur & -> & ->).
  assert (set_cur (fun p => {| p with totalPgfltCount := u32 (totalPgfltCount p + 1) |}) s = Ok tt s1) as Hset.
  { assert (wp (set_cur (fun p => {| p with totalPgfltCount := u32 (totalPgfltCount p + 1) |}))
      (fun _ s' => s' = s1) s) as Hs by (apply (wp_set_cur i); [done|]; by rewrite (list_alter_insert_lookup _ _ _ p)).
    apply wp_Ok in Hs as ([] & ? & Hs & ->). done. }
  unfold pagefault. rewrite (bind_run _ _ s (cr2 s) s) by done. rewrite (bind_run _ _ _ _ _ Hset).
  rewrite (bind_run _ _ _ _ _ Hcur). cbn [bumped pgdir]. rewrite Hpd. by rewrite (bind_run _ _ _ _ _ Hrun).
Qed.


(** Compiled without a policy, a process that maps a 17th page stores
    outside its table of resident pages: nothing bounds the slot. *)
Theorem allocuvm_paging_none_overflow s p pgd va :
  curp s = Some p -> num_ram p = 16 -> length (ramPages p) = 16%nat ->
  allocuvm_paging NONE pgd va s = UB.
Proof.
  intros Hcp Hn Hl. assert (wp cur (fun r s' => r = p /\ s' = s) s) as Hcur by (by apply (wp_cur p)).
  apply wp_Ok in Hcur as (? & ? & Hcur & -> & ->).
  cbn [allocuvm_paging]. unfold allocuvm_noswap. rewrite (bind_run _ _ _ _ _ Hcur). rewrite Hn.
  unfold mbind at 1, M_bind at 1. unfold set_cur_ram at 1. rewrite (bind_run _ _ _ _ _ Hcur). by rewrite Hl.
Qed.

End Swap.

(** ** Witnesses *)

(** Page 0 of the process is resident in frame 1005; the only free block of
    its swap file is at offset 0, and its table of resident pages is full. *)
Definition demo_pager : proc :=
  {| demo_proc with swapFile := 5; num_ram := 16; free_head := 0x80300100; free_tail := 0x80300100;
     ramPages := mk_page (frame_addr 1000) 1 0 (-1) 0 0 0 :: replicate 15 page_zero |}.
Definition demo_paging : kstate :=
  {| (demo_user 7 1) with procs := [demo_pager]; swapfiles := {[ 5 := [] ]}; cr3 := 1000 * PGSIZE |}.
Lemma demo_paging_ok : @pager xv6_image demo_paging 0 demo_pager 1000 (seqZ 2000 1200) [].
Proof.
  split; [reflexivity|reflexivity| | |reflexivity..].
  - apply (as_ok_eq (demo_user 7 1)); try reflexivity. apply demo_user_as_ok.
  - apply (user_ok_eq (demo_user 7 1)); try reflexivity. apply demo_user_ok; lia.
Qed.


(** Page 0 of the process is in its swap file at offset 0. *)
Definition demo_swapped : proc :=
  {| demo_proc with swapFile := 5; num_swap := 1;
     swappedPages := mk_page (frame_addr 1000) 1 0 0 0 0 0 :: replicate 15 page_zero |}.
Definition demo_absent : kstate :=
  {| (demo_user 0x206 1) with procs := [demo_swapped]; swapfiles := {[ 5 := replicate 4096 7 ]}; cr3 := 1000 * PGSIZE;
     buffer := replicate 4096 0; cr2 := 12 |}.


Lemma pagefault_null_witness :
  pagefault (KI := xv6_image) LAPA {| (demo_user 7 1) with cr2 := 0x400000 |} = UB.
Proof.
  apply (pagefault_null (KI := xv6_image) LAPA _ 0 demo_proc 1000); try reflexivity.
  apply demo_wf.
Defined.


Lemma allocuvm_paging_none_overflow_witness :
  allocuvm_paging (KI := xv6_image) NONE (frame_addr 1000) 4096 demo_paging = UB.
Proof. apply (allocuvm_paging_none_overflow (KI := xv6_image) demo_paging demo_pager); reflexivity. Defined.
