(* ===== verification/Spinlock.v ===== *)
(** Spin locks (spinlock.c, [mycpu] and [myproc] of proc.c): interrupt
    nesting, the lock operations on one processor, the refinement to the view
    the other files use (the list of the locks that the processor holds), and the
    interleaving of the instructions of [acquire] and [release] on several
    processors. *)

From S2P Require Import Prelude Mmu Memory Machine.
From stdpp Require Import base gmap list strings relations.
From Stdlib Require Import ZArith Lia.
Open Scope Z_scope.

(** ** State *)

(** The fields of [struct cpu] that lock code uses. *)
Record cpu_lk := mk_cpu_lk { apicid : Z; ncli : Z; intena : Z; cpu_proc : option nat }.

(** [struct spinlock]; [lk_cpu] is an index into [cpus]. *)
Record spinlock := mk_spinlock {
  locked : Z;
  lk_name : Z;
  lk_cpu : option nat;
  pcs : list Z
}.

(** The processors' EFLAGS registers, the table [cpus], the locks by address
    and the memory that holds the kernel stacks. *)
Record lkstate := mk_lkstate {
  eflags : list Z;
  cpus : list cpu_lk;
  locks : gmap Z spinlock;
  stacks : gmap Z Z
}.

Section Spinlock.
(** The identifier that the local interrupt controller of a processor reports
    (lapic.c reads it from the device). *)
Context (lapicid : nat -> Z).
(** The processor that executes the code. *)
Context (h : nat).

(** ** Operations *)

Definition readeflags : M lkstate Z := fun s =>
  match eflags s !! h with Some f => Ok f s | None => UB end.
Definition cli : M lkstate unit := modify (fun s => {| s with eflags := alter (fun f => clr f FL_IF) h (eflags s) |}).
Definition sti : M lkstate unit := modify (fun s => {| s with eflags := alter (fun f => Z.lor f FL_IF) h (eflags s) |}).

Fixpoint find_apicid (l : list cpu_lk) (id : Z) (i : nat) : option nat :=
  match l with
  | [] => None
  | c :: l' => if apicid c =? id then Some i else find_apicid l' id (S i)
  end.
(** The result is the index of the processor's entry. *)
Definition mycpu : M lkstate nat :=
  f ← readeflags;
  if has f FL_IF then panic "mycpu called with interrupts enabled\n" else
  cs ← gets cpus;
  match find_apicid cs (lapicid h) 0 with
  | Some i => mret i
  | None => panic "unknown apicid\n"
  end.
Definition cpuid : M lkstate Z := c ← mycpu; mret (Z.of_nat c).

Definition get_cpu (c : nat) : M lkstate cpu_lk := fun s =>
  match cpus s !! c with Some x => Ok x s | None => UB end.
Definition set_cpu (c : nat) (f : cpu_lk -> cpu_lk) : M lkstate unit :=
  modify (fun s => {| s with cpus := alter f c (cpus s) |}).

Definition pushcli : M lkstate unit :=
  f ← readeflags;
  cli ;;
  c ← mycpu;
  x ← get_cpu c;
  when (ncli x =? 0) (c ← mycpu; set_cpu c (fun x => {| x with intena := Z.land f FL_IF |})) ;;
  c ← mycpu;
  set_cpu c (fun x => {| x with ncli := s32 (ncli x + 1) |}).
Definition popcli : M lkstate unit :=
  f ← readeflags;
  if has f FL_IF then panic "popcli - interruptible" else
  c ← mycpu;
  set_cpu c (fun x => {| x with ncli := s32 (ncli x - 1) |}) ;;
  x ← get_cpu c;
  if ncli x <? 0 then panic "popcli" else
  c ← mycpu;
  x ← get_cpu c;
  if ncli x =? 0 then (c ← mycpu; x ← get_cpu c; when (negb (intena x =? 0)) sti) else mret tt.

Definition myproc : M lkstate (option nat) :=
  pushcli ;;
  c ← mycpu;
  x ← get_cpu c;
  popcli ;;
  mret (cpu_proc x).

Definition get_lock (lk : Z) : M lkstate spinlock := fun s =>
  match locks s !! lk with Some x => Ok x s | None => UB end.
Definition set_lock (lk : Z) (f : spinlock -> spinlock) : M lkstate unit :=
  modify (fun s => {| s with locks := alter f lk (locks s) |}).

Definition initlock (lk name : Z) : M lkstate unit :=
  set_lock lk (fun x => {| x with lk_name := name |}) ;;
  set_lock lk (fun x => {| x with locked := 0 |}) ;;
  set_lock lk (fun x => {| x with lk_cpu := None |}).

Definition holding (lk : Z) : M lkstate bool :=
  pushcli ;;
  x ← get_lock lk;
  r ← (if locked x =? 0 then mret false else c ← mycpu; mret (bool_decide (lk_cpu x = Some c)));
  popcli ;;
  mret r.

(** The frames of the call stack above [ebp], at most [n]. *)
Fixpoint getcallerpcs_loop (m : gmap Z Z) (ebp : Z) (n : nat) : list Z :=
  match n with
  | O => []
  | S n' =>
      if (ebp =? 0) || (ebp <? KERNBASE) || (ebp =? 0xffffffff) then replicate n 0
      else load32 m (u32 (ebp + 4)) :: getcallerpcs_loop m (load32 m ebp) n'
  end.
(** [v] is the address of the caller's first argument. *)
Definition getcallerpcs (v : Z) : M lkstate (list Z) :=
  gets (fun s => getcallerpcs_loop (stacks s) (u32 (v - 8)) 10).

(** [xchg]: the old value. *)
Definition xchg_locked (lk new : Z) : M lkstate Z :=
  x ← get_lock lk;
  set_lock lk (fun x => {| x with locked := new |}) ;;
  mret (locked x).

(** With interrupts off and the other processors still, a lock that is not
    free stays so: the loop does not end. [v] is the address of the argument. *)
Definition acquire (v lk : Z) : M lkstate unit :=
  pushcli ;;
  b ← holding lk;
  if (b : bool) then panic "acquire" else
  old ← xchg_locked lk 1;
  if negb (old =? 0) then diverge else
  c ← mycpu;
  set_lock lk (fun x => {| x with lk_cpu := Some c |}) ;;
  l ← getcallerpcs v;
  set_lock lk (fun x => {| x with pcs := l |}).

Definition release (lk : Z) : M lkstate unit :=
  b ← holding lk;
  if negb b then panic "release" else
  set_lock lk (fun x => {| x with pcs := <[0%nat := 0]> (pcs x) |}) ;;
  set_lock lk (fun x => {| x with lk_cpu := None |}) ;;
  set_lock lk (fun x => {| x with locked := 0 |}) ;;
  popcli.

(** ** Lemmas: one processor *)

(** The executing processor: its EFLAGS are [f] and its entry in [cpus] is
    number [c], with the contents [x]. *)
Record cpu_at (s : lkstate) (c : nat) (f : Z) (x : cpu_lk) : Prop := {
  ca_flags : eflags s !! h = Some f;
  ca_find : find_apicid (cpus s) (lapicid h) 0 = Some c;
  ca_cpu : cpus s !! c = Some x
}.

Lemma find_apicid_insert l id i c x y :
  l !! c = Some x -> apicid y = apicid x -> find_apicid (<[c := y]> l) id i = find_apicid l id i.
Proof.
  revert i c. induction l as [|z l IH]; intros i [|c] Hc Ha; cbn in *; try done.
  - injection Hc as ->. by rewrite Ha.
  - by rewrite IH.
Qed.

Lemma cpu_at_update s c f x f' x' :
  cpu_at s c f x -> apicid x' = apicid x ->
  cpu_at {| s with eflags := <[h := f']> (eflags s); cpus := <[c := x']> (cpus s) |} c f' x'.
Proof.
  intros [H1 H2 H3] Ha. split; cbn.
  - apply list_lookup_insert_eq. by eapply lookup_lt_Some.
  - by erewrite find_apicid_insert.
  - apply list_lookup_insert_eq. by eapply lookup_lt_Some.
Qed.
(** The locks play no part. *)
Lemma cpu_at_locks s c f x m : cpu_at s c f x -> cpu_at {| s with locks := m |} c f x.
Proof. intros [? ? ?]. by split. Qed.

Lemma wp_readeflags s c f x Q : cpu_at s c f x -> wp readeflags Q s <-> Q f s.
Proof. intros [H _ _]. unfold wp, readeflags. by rewrite H. Qed.
Lemma wp_mycpu s c f x Q : cpu_at s c f x -> has f FL_IF = false -> wp mycpu Q s <-> Q c s.
Proof.
  intros Hc Hf. unfold mycpu. rewrite wp_bind, wp_readeflags by done. rewrite Hf, wp_bind, wp_gets.
  by rewrite (ca_find _ _ _ _ Hc).
Qed.
Lemma wp_get_cpu s c f x Q : cpu_at s c f x -> wp (get_cpu c) Q s <-> Q x s.
Proof. intros [_ _ H]. unfold wp, get_cpu. by rewrite H. Qed.

Lemma has_clr_IF f : has (clr f FL_IF) FL_IF = false.
Proof.
  unfold has, clr. replace (Z.land (Z.ldiff f FL_IF) FL_IF) with 0; [done|]. symmetry.
  apply Z.bits_inj'. intros n _. rewrite Z.land_spec, Z.ldiff_spec, Z.bits_0.
  by destruct (Z.testbit f n), (Z.testbit FL_IF n).
Qed.

(** The entry after [pushcli]. *)
Definition pushed (f : Z) (x : cpu_lk) : cpu_lk :=
  {| x with ncli := ncli x + 1; intena := if ncli x =? 0 then Z.land f FL_IF else intena x |}.

Lemma s32_id x : -2147483648 <= x < 2147483648 -> s32 x = x.
Proof.
  intros Hx. unfold s32, u32, W32. destruct (Z.lt_ge_cases x 0).
  - replace (x mod 4294967296) with (x + 4294967296) by zlia. destruct (Z.ltb_spec (x + 4294967296) 2147483648); lia.
  - rewrite Z.mod_small by lia. destruct (Z.ltb_spec x 2147483648); lia.
Qed.

Lemma wp_pushcli s c f x Q :
  cpu_at s c f x -> 0 <= ncli x < 2147483647 ->
  Q tt {| s with eflags := <[h := clr f FL_IF]> (eflags s); cpus := <[c := pushed f x]> (cpus s) |} ->
  wp pushcli Q s.
Proof.
  intros Hc Hn HQ. unfold pushcli. rewrite wp_bind, wp_readeflags by done.
  rewrite wp_bind. unfold cli. rewrite wp_modify. rewrite (list_alter_insert_lookup _ _ _ f) by apply Hc.
  assert (forall x', apicid x' = apicid x ->
    cpu_at {| s with eflags := <[h := clr f FL_IF]> (eflags s); cpus := <[c := x']> (cpus s) |} c (clr f FL_IF) x') as Hup
    by (intros x' Ha; by eapply cpu_at_update).
  assert (cpu_at {| s with eflags := <[h := clr f FL_IF]> (eflags s) |} c (clr f FL_IF) x) as H1.
  { replace (cpus s) with (<[c := x]> (cpus s)) by (apply list_insert_id, Hc). apply (Hup x). done. }
  pose proof (has_clr_IF f) as Hoff.
  rewrite wp_bind, (wp_mycpu _ c _ x) by done. rewrite wp_bind, (wp_get_cpu _ c _ x) by done.
  rewrite wp_bind, wp_when. pose proof (ca_cpu _ _ _ _ Hc) as Hcx. unfold pushed in HQ.
  assert (forall s1 x1, cpu_at s1 c (clr f FL_IF) x1 -> ncli x1 = ncli x ->
    Q tt {| s1 with cpus := <[c := {| x1 with ncli := ncli x + 1 |}]> (cpus s1) |} ->
    wp (c0 ← mycpu; set_cpu c0 (fun x0 => {| x0 with ncli := s32 (ncli x0 + 1) |})) Q s1) as Hend.
  { intros s1 x1 Hc1 En HQ1. rewrite wp_bind, (wp_mycpu _ c _ x1) by done. unfold set_cpu. rewrite wp_modify.
    rewrite (list_alter_insert_lookup _ _ _ x1) by apply Hc1. rewrite En, s32_id by lia. exact HQ1. }
  destruct (Z.eqb_spec (ncli x) 0) as [E|E].
  - rewrite wp_bind, (wp_mycpu _ c _ x) by done. unfold set_cpu at 1. rewrite wp_modify. cbn [cpus].
    rewrite (list_alter_insert_lookup _ _ _ x) by done.
    eapply Hend; [by apply (Hup {| x with intena := Z.land f FL_IF |})|done|]. cbn. by rewrite list_insert_insert_eq.
  - eapply Hend; [exact H1|done|]. exact HQ.
Qed.

Lemma wp_popcli s c f x Q :
  cpu_at s c f x -> has f FL_IF = false -> 0 < ncli x < 2147483648 ->
  Q tt {| s with cpus := <[c := {| x with ncli := ncli x - 1 |}]> (cpus s);
                 eflags := if (ncli x =? 1) && negb (intena x =? 0) then <[h := Z.lor f FL_IF]> (eflags s) else eflags s |} ->
  wp popcli Q s.
Proof.
  intros Hc Hf Hn HQ. unfold popcli. rewrite wp_bind, wp_readeflags by done. rewrite Hf.
  rewrite wp_bind, (wp_mycpu _ c _ x) by done. rewrite wp_bind. unfold set_cpu. rewrite wp_modify.
  rewrite (list_alter_insert_lookup _ _ _ x) by apply Hc. rewrite s32_id by lia.
  set (x1 := {| x with ncli := ncli x - 1 |}). set (s1 := {| s with cpus := _ |}).
  assert (cpu_at s1 c f x1) as H1.
  { pose proof (cpu_at_update s c f x f x1 Hc eq_refl) as H. rewrite list_insert_id in H by apply Hc. exact H. }
  rewrite wp_bind, (wp_get_cpu _ c f x1) by done. cbn [ncli x1].
  destruct (Z.ltb_spec (ncli x - 1) 0); [lia|].
  rewrite wp_bind, (wp_mycpu _ c f x1) by done. rewrite wp_bind, (wp_get_cpu _ c f x1) by done. cbn [ncli x1].
  destruct (Z.eqb_spec (ncli x - 1) 0), (Z.eqb_spec (ncli x) 1); try lia; [|exact HQ].
  rewrite wp_bind, (wp_mycpu _ c f x1) by done. rewrite wp_bind, (wp_get_cpu _ c f x1) by done. rewrite wp_when.
  cbn [intena x1]. destruct (negb (intena x =? 0)); [|exact HQ].
  unfold sti. rewrite wp_modify. cbn [eflags s1]. rewrite (list_alter_insert_lookup _ _ _ f) by apply Hc. exact HQ.
Qed.

(** *** Nesting *)

(** Interrupts are off while the count is positive. *)
Definition quiet (f : Z) (x : cpu_lk) : Prop :=
  0 <= ncli x /\ (ncli x = 0 \/ has f FL_IF = false).
(** The entry after a matching pair: only the saved flag may differ, and it is
    only read after the next [pushcli] at count 0 has overwritten it. *)
Definition settled (f : Z) (x : cpu_lk) : cpu_lk :=
  {| x with intena := if ncli x =? 0 then Z.land f FL_IF else intena x |}.

Lemma IF_restored f : (if negb (Z.land f FL_IF =? 0) then Z.lor (clr f FL_IF) FL_IF else clr f FL_IF) = f.
Proof.
  change (negb (Z.land f FL_IF =? 0)) with (has f FL_IF). change FL_IF with (2 ^ 9). rewrite has_pow2 by lia. unfold clr.
  destruct (Z.testbit f 9) eqn:E; apply Z.bits_inj'; intros n Hn;
    rewrite ?Z.lor_spec, Z.ldiff_spec, Z.pow2_bits_eqb by lia; destruct (Z.eqb_spec 9 n) as [<-|];
    rewrite ?E, ?andb_true_r, ?orb_false_r; done.
Qed.
Lemma clr_off f : has f FL_IF = false -> clr f FL_IF = f.
Proof.
  intros Hf. pose proof (IF_restored f) as H. unfold has in Hf. by rewrite Hf in H.
Qed.

Lemma quiet_pushed f x : quiet f x -> quiet (clr f FL_IF) (pushed f x).
Proof. intros [Hn _]. split; [cbn; lia|right; apply has_clr_IF]. Qed.

(** A [popcli] undoes the last [pushcli]. *)
Lemma wp_popcli_pushed s c f x Q :
  cpu_at s c (clr f FL_IF) (pushed f x) -> quiet f x -> ncli x < 2147483000 ->
  Q tt {| s with eflags := <[h := f]> (eflags s); cpus := <[c := settled f x]> (cpus s) |} -> wp popcli Q s.
Proof.
  intros Hc [Hn Hq] Hb HQ. eapply wp_popcli; [exact Hc|apply has_clr_IF|cbn; lia|].
  cbn [pushed ncli intena apicid cpu_proc]. replace (ncli x + 1 - 1) with (ncli x) by lia. fold (settled f x).
  assert ((if (ncli x + 1 =? 1) && negb ((if ncli x =? 0 then Z.land f FL_IF else intena x) =? 0)
     then <[h := Z.lor (clr f FL_IF) FL_IF]> (eflags s) else eflags s) = <[h := f]> (eflags s)) as ->; [|exact HQ].
  assert (<[h := clr f FL_IF]> (eflags s) = eflags s) as E by apply list_insert_id, Hc.
  destruct (Z.eqb_spec (ncli x) 0) as [E0|E0].
  - rewrite E0. cbn [Z.add Z.eqb Pos.eqb andb]. rewrite <- (IF_restored f) at 3.
    destruct (negb (Z.land f FL_IF =? 0)); [done|]. by rewrite E.
  - destruct (Z.eqb_spec (ncli x + 1) 1); [lia|]. cbn [andb].
    destruct Hq as [|Hq]; [done|]. rewrite clr_off in E by done. by rewrite E.
Qed.

(** [n] executions of a statement. *)
Fixpoint times (n : nat) (m : M lkstate unit) : M lkstate unit :=
  match n with O => mret tt | S n' => m ;; times n' m end.

Lemma settled_pushed f x : quiet f x -> settled (clr f FL_IF) (pushed f x) = pushed f x.
Proof.
  intros [Hn _]. unfold settled, pushed. cbn [ncli intena apicid cpu_proc]. destruct (Z.eqb_spec (ncli x + 1) 0); [lia|done].
Qed.

Lemma wp_times_snoc n m Q s : wp (times (S n) m) Q s <-> wp (times n m) (fun _ s' => wp m Q s') s.
Proof.
  revert s. induction n as [|n IH]; intros s.
  - cbn [times]. unfold wp, mbind, M_bind, mret, M_ret. by destruct (m s) as [[] s'| | |].
  - change (times (S (S n)) m) with (m ;; times (S n) m). change (times (S n) m) with (m ;; times n m) at 2.
    rewrite !wp_bind. split; intros H; (eapply wp_mono; [exact H|]); intros [] s'; apply IH.
Qed.

Lemma wp_nested n : forall s c f x Q,
  cpu_at s c f x -> quiet f x -> ncli x + Z.of_nat n < 2147483000 ->
  Q tt {| s with cpus := <[c := match n with O => x | S _ => settled f x end]> (cpus s) |} ->
  wp (times n pushcli ;; times n popcli) Q s.
Proof.
  induction n as [|n IH]; intros s c f x Q Hc Hq Hb HQ.
  { cbn. wp_steps. rewrite list_insert_id in HQ by apply Hc. by destruct s. }
  change (times (S n) pushcli) with (pushcli ;; times n pushcli). rewrite wp_bind, wp_bind.
  eapply wp_pushcli; [exact Hc|destruct Hq; lia|]. set (s1 := {| s with eflags := _; cpus := _ |}).
  assert (cpu_at s1 c (clr f FL_IF) (pushed f x)) as H1 by (by eapply cpu_at_update).
  pose proof (quiet_pushed _ _ Hq) as Hq1.
  assert (wp (times n pushcli ;; times n popcli) (fun _ s' => wp popcli Q s') s1) as Hw.
  { eapply (IH s1 c (clr f FL_IF) (pushed f x)); [done|done|cbn [pushed ncli]; lia|].
    assert ((match n with O => pushed f x | S _ => settled (clr f FL_IF) (pushed f x) end) = pushed f x) as ->
      by (destruct n; [done|by apply settled_pushed]).
    rewrite list_insert_id by apply H1.
    eapply (wp_popcli_pushed _ c f x); [by destruct s1|done|lia|]. cbn [eflags cpus s1].
    rewrite !list_insert_insert_eq. rewrite (list_insert_id (eflags s)) by apply Hc. exact HQ. }
  rewrite wp_bind in Hw. eapply wp_mono; [exact Hw|]. intros [] s2 H2. by apply wp_times_snoc.
Qed.

(** *** The lock operations *)

Lemma wp_get_lock s lk k Q : locks s !! lk = Some k -> wp (get_lock lk) Q s <-> Q k s.
Proof. intros H. unfold wp, get_lock. by rewrite H. Qed.
Lemma wp_set_lock s lk k g Q :
  locks s !! lk = Some k -> Q tt {| s with locks := <[lk := g k]> (locks s) |} -> wp (set_lock lk g) Q s.
Proof.
  intros H HQ. unfold set_lock. rewrite wp_modify.
  replace (alter g lk (locks s)) with (<[lk := g k]> (locks s)); [exact HQ|].
  apply map_eq. intros j. destruct (decide (lk = j)) as [<-|].
  - by rewrite lookup_insert_eq, lookup_alter_eq, H.
  - by rewrite lookup_insert_ne, lookup_alter_ne by done.
Qed.

(** Whether processor entry [c] holds the lock. *)
Definition holds (c : nat) (k : spinlock) : bool :=
  negb (locked k =? 0) && bool_decide (lk_cpu k = Some c).

Lemma wp_holding s c f x lk k Q :
  cpu_at s c f x -> quiet f x -> ncli x < 2147483000 -> locks s !! lk = Some k ->
  Q (holds c k) {| s with cpus := <[c := settled f x]> (cpus s) |} -> wp (holding lk) Q s.
Proof.
  intros Hc Hq Hb Hk HQ. unfold holding. rewrite wp_bind. eapply wp_pushcli; [exact Hc|destruct Hq; lia|].
  set (s1 := {| s with eflags := _; cpus := _ |}).
  assert (cpu_at s1 c (clr f FL_IF) (pushed f x)) as H1 by (by eapply cpu_at_update).
  rewrite wp_bind, (wp_get_lock _ _ k) by done. rewrite wp_bind.
  assert (forall b, b = holds c k -> wp (popcli ;; mret b) Q s1) as Hend.
  { intros b ->. rewrite wp_bind. eapply (wp_popcli_pushed _ c f x); [done|done|done|]. rewrite wp_ret.
    cbn [eflags cpus s1]. rewrite !list_insert_insert_eq, (list_insert_id (eflags s)) by apply Hc. exact HQ. }
  unfold holds in Hend. destruct (Z.eqb_spec (locked k) 0) as [E|E].
  - rewrite wp_ret. by apply Hend.
  - rewrite wp_bind, (wp_mycpu _ c (clr f FL_IF) (pushed f x)); [|done|apply has_clr_IF]. rewrite wp_ret. by apply Hend.
Qed.

(** Acquiring a lock that is free, one that is held by this processor and
    one that another processor holds. *)
Lemma wp_acquire_lock s c f x v lk k Q :
  cpu_at s c f x -> quiet f x -> ncli x < 2147482000 -> locks s !! lk = Some k -> locked k = 0 ->
  (forall l, Q tt {| s with eflags := <[h := clr f FL_IF]> (eflags s); cpus := <[c := pushed f x]> (cpus s);
                            locks := <[lk := {| k with locked := 1; lk_cpu := Some c; pcs := l |}]> (locks s) |}) ->
  wp (acquire v lk) Q s.
Proof.
  intros Hc Hq Hb Hk Hl HQ. unfold acquire. rewrite wp_bind. eapply wp_pushcli; [exact Hc|destruct Hq; lia|].
  set (s1 := {| s with eflags := _; cpus := _ |}).
  assert (cpu_at s1 c (clr f FL_IF) (pushed f x)) as H1 by (by eapply cpu_at_update).
  rewrite wp_bind. eapply (wp_holding s1); [exact H1|by apply quiet_pushed|cbn; lia|exact Hk|].
  rewrite settled_pushed by done. rewrite (list_insert_id (cpus s1)) by apply H1.
  unfold holds. rewrite Hl. cbn [Z.eqb negb andb].
  unfold xchg_locked. rewrite wp_bind, wp_bind, (wp_get_lock _ _ k) by done. rewrite wp_bind.
  eapply wp_set_lock; [exact Hk|]. rewrite wp_ret, Hl. cbn [Z.eqb negb].
  rewrite wp_bind, (wp_mycpu _ c (clr f FL_IF) (pushed f x)); [|by apply (cpu_at_locks s1)|apply has_clr_IF].
  rewrite wp_bind. eapply wp_set_lock; [cbn; apply lookup_insert_eq|]. rewrite wp_bind. unfold getcallerpcs.
  rewrite wp_gets. eapply wp_set_lock; [cbn; apply lookup_insert_eq|].
  cbn [locks s1]. rewrite !insert_insert_eq. apply HQ.
Qed.

(** ** The processor's own view

    The files on memory and processes see the locks as the list of those that
    the executing processor holds ([held] of Machine.v). [view] relates the
    two; [addr] gives the addresses of the locks. *)
Context (addr : lockname -> Z).

Definition lock_view (c : nat) (hs : list lockname) (l : lockname) (k : spinlock) : Prop :=
  if decide (l ∈ hs) then locked k = 1 /\ lk_cpu k = Some c else locked k = 0.
Record view (s : lkstate) (hs : list lockname) : Prop := {
  v_cpu : exists c f x, cpu_at s c f x /\ quiet f x /\ ncli x = Z.of_nat (length hs) /\
            forall l, exists k, locks s !! addr l = Some k /\ lock_view c hs l k;
  v_nodup : NoDup hs
}.

Lemma held_bound (hs : list lockname) : NoDup hs -> (length hs <= 3)%nat.
Proof.
  intros Hn. change 3%nat with (length [L_kmem; L_ptable; L_ticks]). apply submseteq_length.
  apply NoDup_submseteq; [done|]. intros []; rewrite !elem_of_cons; auto.
Qed.

(** The lock table after a change of one lock. *)
Lemma locks_update `{!Inj (=) (=) addr} c hs hs' l k' (m : gmap Z spinlock) :
  (forall l, exists k, m !! addr l = Some k /\ lock_view c hs l k) ->
  lock_view c hs' l k' -> (forall l', l' ≠ l -> l' ∈ hs' <-> l' ∈ hs) ->
  forall l', exists k, <[addr l := k']> m !! addr l' = Some k /\ lock_view c hs' l' k.
Proof.
  intros Hv Hl Hhs l'. destruct (decide (l' = l)) as [->|Hne].
  - exists k'. by rewrite lookup_insert_eq.
  - destruct (Hv l') as (k & Hk & Hkv). exists k. rewrite lookup_insert_ne by (intros ?%(inj addr); congruence).
    split; [done|]. unfold lock_view in *. specialize (Hhs l' Hne).
    destruct (decide (l' ∈ hs)), (decide (l' ∈ hs')); tauto.
Qed.

Lemma view_acquire `{!Inj (=) (=) addr} v s hs l :
  view s hs -> l ∉ hs -> wp (acquire v (addr l)) (fun _ s' => view s' (l :: hs)) s.
Proof.
  intros [(c & f & x & Hc & Hq & Hn & Hv) Hnd] Hl. destruct (Hv l) as (k & Hk & Hkv).
  unfold lock_view in Hkv. rewrite decide_False in Hkv by done. pose proof (held_bound hs Hnd).
  eapply (wp_acquire_lock s c f x v (addr l) k); [done|done|lia|done|done|]. intros pc. split; [|by constructor].
  exists c, (clr f FL_IF), (pushed f x). split_and!.
  - pose proof (cpu_at_update s c f x (clr f FL_IF) (pushed f x) Hc eq_refl) as [? ? ?]. by split.
  - by apply quiet_pushed.
  - cbn [pushed ncli length]. lia.
  - cbn [locks]. apply (locks_update c hs); [done| |].
    + unfold lock_view. rewrite decide_True; [done|]. apply elem_of_cons. by left.
    + intros l' Hne. rewrite elem_of_cons. tauto.
Qed.

Lemma holds_view c hs l k : lock_view c hs l k -> holds c k = bool_decide (l ∈ hs).
Proof.
  unfold lock_view, holds. destruct (decide (l ∈ hs)).
  - intros [-> ->]. rewrite (bool_decide_eq_true_2 (l ∈ hs)) by done. cbn. by rewrite bool_decide_eq_true_2.
  - intros ->. cbn. by rewrite (bool_decide_eq_false_2 (l ∈ hs)).
Qed.

Lemma view_acquire_panic v s hs l : view s hs -> l ∈ hs -> acquire v (addr l) s = Panic "acquire".
Proof.
  intros [(c & f & x & Hc & Hq & Hn & Hv) Hnd] Hl. destruct (Hv l) as (k & Hk & Hkv). pose proof (held_bound hs Hnd).
  unfold acquire.
  assert (wp pushcli (fun _ s' => wp (holding (addr l)) (fun b _ => b = true) s') s) as Hw.
  { eapply wp_pushcli; [exact Hc|destruct Hq; lia|].
    eapply (wp_holding _ c (clr f FL_IF) (pushed f x)); [by eapply cpu_at_update|by apply quiet_pushed|cbn; lia|exact Hk|].
    rewrite (holds_view c hs l k) by done. by rewrite bool_decide_eq_true_2. }
  apply wp_Ok in Hw as ([] & s1 & Hr1 & Hw). apply wp_Ok in Hw as (b & s2 & Hr2 & ->).
  rewrite (bind_run _ _ _ _ _ Hr1). by rewrite (bind_run _ _ _ _ _ Hr2).
Qed.

Lemma view_holding s hs l : view s hs ->
  wp (holding (addr l)) (fun b s' => b = bool_decide (l ∈ hs) /\ view s' hs /\ eflags s' = eflags s) s.
Proof.
  intros [(c & f & x & Hc & Hq & Hn & Hv) Hnd]. destruct (Hv l) as (k & Hk & Hkv). pose proof (held_bound hs Hnd).
  eapply (wp_holding s c f x); [done|done|lia|exact Hk|]. split_and!; [by apply holds_view|split; [|done]|done].
  exists c, f, (settled f x). split_and!; [|done|done|done].
  pose proof (cpu_at_update s c f x f (settled f x) Hc eq_refl) as [H1 H2 H3].
  rewrite (list_insert_id (eflags s)) in H1 by apply Hc. by split.
Qed.

Lemma view_release `{!Inj (=) (=) addr} s hs l :
  view s hs -> l ∈ hs -> wp (release (addr l)) (fun _ s' => view s' (filter (.≠ l) hs)) s.
Proof.
  intros Hview Hl. unfold release. rewrite wp_bind. eapply wp_mono; [by apply (view_holding s hs l)|].
  intros b s1 (-> & [(c & f & x & Hc & Hq & Hn & Hv) Hnd] & _). rewrite bool_decide_eq_true_2 by done. cbn [negb].
  destruct (Hv l) as (k & Hk & Hkv). pose proof (held_bound hs Hnd).
  do 3 (rewrite wp_bind; eapply wp_set_lock; [cbn [locks]; rewrite ?lookup_insert_eq; done|]).
  cbn [locks]. rewrite !insert_insert_eq.
  assert (hs ≠ []) as Hne by (intros ->; by apply not_elem_of_nil in Hl).
  assert (0 < length hs)%nat by (destruct hs; [done|cbn; lia]).
  assert (has f FL_IF = false) as Hoff by (destruct Hq as [_ [Hq|Hq]]; [lia|done]).
  assert (length (filter (.≠ l) hs) = pred (length hs)) as Elen.
  { clear -Hnd Hl. induction Hnd as [|y hs Hy Hnd IH]; [by apply not_elem_of_nil in Hl|].
    rewrite filter_cons. case_decide as Hyl.
    - apply elem_of_cons in Hl as [->|Hl]; [done|]. cbn [length]. rewrite IH by done.
      destruct hs; [by apply not_elem_of_nil in Hl|done].
    - assert (y = l) as -> by (destruct (decide (y = l)); tauto). by rewrite filter_ne_notin. }
  eapply (wp_popcli _ c f x); [by destruct Hc; split|done|lia|].
  set (x' := {| x with ncli := _ |}). set (ef := if _ : bool then _ else _).
  split; [|by apply NoDup_filter].
  exists c, (if (ncli x =? 1) && negb (intena x =? 0) then Z.lor f FL_IF else f), x'. split_and!.
  - pose proof (cpu_at_update s1 c f x (if (ncli x =? 1) && negb (intena x =? 0) then Z.lor f FL_IF else f) x' Hc eq_refl)
      as [H1 H2 H3]. split; cbn [cpus eflags] in *; try done. subst ef. cbn [eflags].
    destruct (_ && _); [done|]. apply Hc.
  - split; [cbn; lia|]. destruct (Z.eqb_spec (ncli x) 1) as [E|E]; [left; cbn; lia|]. by right.
  - cbn [x' ncli]. lia.
  - cbn [locks]. apply (locks_update c hs); [done| |].
    + unfold lock_view. rewrite decide_False; [done|]. rewrite list_elem_of_filter. tauto.
    + intros l' Hl'. rewrite list_elem_of_filter. tauto.
Qed.

End Spinlock.

(** ** Several processors

    Any number of processors repeatedly acquire and release one lock. A step
    is one access of one processor to the lock's fields; the xchg instruction
    is a single step, as the processor guarantees. *)
Module Interleave.

(** Where a processor is. The [Cmp] points have read [locked] and not yet
    [cpu]. *)
Inductive point :=
| Idle
| AcqRead | AcqCmp (was : Z) | AcqSpin | AcqOwner | AcqPcs
| Critical
| RelRead | RelCmp (was : Z) | RelPcs | RelOwner | RelUnlock
| Panicked.

Record conf := mk_conf { w_locked : Z; w_cpu : option nat; at_ : nat -> point }.

Definition goto (h : nat) (p : point) (c : conf) : conf :=
  {| c with at_ := fun h' => if decide (h' = h) then p else at_ c h' |}.

(** The next instruction of processor [h]. *)
Definition exec (h : nat) (c : conf) : conf :=
  let mine (was : Z) := negb (was =? 0) && bool_decide (w_cpu c = Some h) in
  match at_ c h with
  | Idle => goto h AcqRead c
  | AcqRead => goto h (AcqCmp (w_locked c)) c
  | AcqCmp was => if mine was then goto h Panicked c else goto h AcqSpin c
  | AcqSpin =>
      if w_locked c =? 0 then goto h AcqOwner {| c with w_locked := 1 |} else {| c with w_locked := 1 |}
  | AcqOwner => goto h AcqPcs {| c with w_cpu := Some h |}
  | AcqPcs => goto h Critical c
  | Critical => goto h RelRead c
  | RelRead => goto h (RelCmp (w_locked c)) c
  | RelCmp was => if mine was then goto h RelPcs c else goto h Panicked c
  | RelPcs => goto h RelOwner c
  | RelOwner => goto h RelUnlock {| c with w_cpu := None |}
  | RelUnlock => goto h Idle {| c with w_locked := 0 |}
  | Panicked => c
  end.

Inductive step (c : conf) : conf -> Prop :=
| step_cpu h : step c (exec h c).
(** After [initlock], with no processor in the code. *)
Definition start : conf := mk_conf 0 None (fun _ => Idle).
Definition reachable (c : conf) : Prop := rtc step start c.

(** Between the successful xchg and the store that frees the lock. *)
Definition inside (p : point) : bool :=
  match p with
  | AcqOwner | AcqPcs | Critical | RelRead | RelCmp _ | RelPcs | RelOwner | RelUnlock => true
  | _ => false
  end.
(** While [cpu] names the processor. *)
Definition named (p : point) : bool :=
  match p with AcqPcs | Critical | RelRead | RelCmp _ | RelPcs | RelOwner => true | _ => false end.

Record inv (c : conf) : Prop := {
  in_locked : (exists h, inside (at_ c h) = true) <-> w_locked c = 1;
  in_values : w_locked c = 0 \/ w_locked c = 1;
  in_excl : forall h h', inside (at_ c h) = true -> inside (at_ c h') = true -> h = h';
  in_cpu : forall h, w_cpu c = Some h <-> named (at_ c h) = true;
  in_rel : forall h was, at_ c h = RelCmp was -> was = 1;
  in_ok : forall h, at_ c h ≠ Panicked
}.

Lemma inv_start : inv start.
Proof. split; cbn; try done; [split; [by intros [? ?]|done]|by left]. Qed.

Lemma named_inside p : named p = true -> inside p = true.
Proof. by destruct p. Qed.

(** A move of one processor that keeps it inside or outside. *)
Lemma inv_goto c h p :
  inv c -> inside p = inside (at_ c h) -> named p = named (at_ c h) ->
  (forall was, p = RelCmp was -> was = 1) -> p ≠ Panicked -> inv (goto h p c).
Proof.
  intros [I1 I2 I3 I4 I5 I6] Hi Hn Hr Hp.
  assert (forall h', inside (at_ (goto h p c) h') = inside (at_ c h')) as Ei.
  { intros h'. cbn. by case_decide; [subst|]. }
  assert (forall h', named (at_ (goto h p c) h') = named (at_ c h')) as En.
  { intros h'. cbn. by case_decide; [subst|]. }
  split; cbn [w_locked w_cpu goto].
  - rewrite <- I1. split; intros [h' H]; exists h'; by rewrite Ei in *.
  - done.
  - intros h1 h2. rewrite !Ei. apply I3.
  - intros h'. by rewrite En.
  - intros h' was. cbn. case_decide; [apply Hr|apply I5].
  - intros h'. cbn. by case_decide.
Qed.

(** Nobody else is inside. *)
Lemma inv_alone c h h' : inv c -> inside (at_ c h) = true -> h' ≠ h -> inside (at_ c h') = false.
Proof. intros I Eh Hne. destruct (inside (at_ c h')) eqn:Ein; [|done]. destruct Hne. by apply (in_excl _ I). Qed.
(** The xchg that takes the lock. *)
Lemma inv_xchg c h : inv c -> at_ c h = AcqSpin -> w_locked c = 0 -> inv (goto h AcqOwner {| c with w_locked := 1 |}).
Proof.
  intros [I1 I2 I3 I4 I5 I6] E El. assert (forall h', inside (at_ c h') = false) as Hout.
  { intros h'. destruct (inside (at_ c h')) eqn:Ein; [|done]. exfalso. assert (w_locked c = 1) by (apply I1; by exists h'). lia. }
  split; cbn.
  - split; [done|]. intros _. exists h. by rewrite decide_True.
  - by right.
  - intros h1 h2. repeat case_decide; subst; rewrite ?Hout; done.
  - intros h'. rewrite I4. case_decide; [subst; by rewrite E|done].
  - intros h' was. case_decide; [done|apply I5].
  - intros h'. by case_decide.
Qed.
(** Recording the owner. *)
Lemma inv_record c h : inv c -> at_ c h = AcqOwner -> inv (goto h AcqPcs {| c with w_cpu := Some h |}).
Proof.
  intros I E. pose proof (fun h' => inv_alone c h h' I ltac:(by rewrite E)) as Hout. destruct I as [I1 I2 I3 I4 I5 I6]. split; cbn.
  - split; [|intros H; exists h; by rewrite decide_True]. intros _. apply I1. exists h. by rewrite E.
  - done.
  - intros h1 h2. repeat case_decide; subst; rewrite ?Hout by done; done.
  - intros h'. case_decide as Eh; [by subst|]. split; [congruence|]. intros Hn%named_inside. by rewrite Hout in Hn.
  - intros h' was. case_decide; [done|apply I5].
  - intros h'. by case_decide.
Qed.
(** Clearing the owner. *)
Lemma inv_clear c h : inv c -> at_ c h = RelOwner -> inv (goto h RelUnlock {| c with w_cpu := None |}).
Proof.
  intros [I1 I2 I3 I4 I5 I6] E. split; cbn.
  - rewrite <- I1. split; intros [h' H]; exists h'; (case_decide; [subst; by rewrite E in *|done]).
  - done.
  - intros h1 h2. repeat case_decide; subst; try done; intros ? ?; apply I3; by rewrite ?E.
  - intros h'. split; [done|]. case_decide as Eh; [done|]. intros Hn%named_inside. destruct Eh. apply I3; [done|by rewrite E].
  - intros h' was. case_decide; [done|apply I5].
  - intros h'. by case_decide.
Qed.
(** Freeing the lock. *)
Lemma inv_unlock c h : inv c -> at_ c h = RelUnlock -> inv (goto h Idle {| c with w_locked := 0 |}).
Proof.
  intros I E. pose proof (fun h' => inv_alone c h h' I ltac:(by rewrite E)) as Hout. destruct I as [I1 I2 I3 I4 I5 I6]. split; cbn.
  - split; [|done]. intros [h' H]. case_decide; [done|]. by rewrite Hout in H.
  - by left.
  - intros h1 h2. repeat case_decide; subst; rewrite ?Hout by done; done.
  - intros h'. rewrite I4. case_decide as Eh; [subst; by rewrite E|done].
  - intros h' was. case_decide; [done|apply I5].
  - intros h'. by case_decide.
Qed.

Lemma inv_step c h : inv c -> inv (exec h c).
Proof.
  intros Hinv. pose proof Hinv as [I1 I2 I3 I4 I5 I6]. unfold exec. destruct (at_ c h) as [] eqn:E;
    try (apply inv_goto; rewrite ?E; done).
  - rewrite (bool_decide_eq_false_2 (w_cpu c = Some h)) by (rewrite I4, E; done).
    rewrite andb_false_r. apply inv_goto; rewrite ?E; done.
  - destruct (Z.eqb_spec (w_locked c) 0) as [El|El]; [by apply inv_xchg|].
    destruct I2 as [|I2]; [done|]. destruct c as [lkd cp pt]. cbn in *. by rewrite <- I2.
  - by apply inv_record.
  - apply inv_goto; rewrite ?E; try done. intros was [= <-]. apply I1. exists h. by rewrite E.
  - rewrite (I5 h was E). rewrite (bool_decide_eq_true_2 (w_cpu c = Some h)) by (rewrite I4, E; done).
    cbn. apply inv_goto; rewrite ?E; done.
  - by apply inv_clear.
  - by apply inv_unlock.
  - by destruct (I6 h).
Qed.

Lemma inv_reachable c : reachable c -> inv c.
Proof.
  intros H. unfold reachable in H. assert (inv start) as Hi by apply inv_start.
  induction H as [|? ? ? [h] _ IH]; [done|]. apply IH. by apply inv_step.
Qed.

End Interleave.

(** ** Correctness *)


(** On one processor the lock operations refine the view of the other
    files: [acquire] and [release] change the list of held locks as Machine.v
    says, and panic in the same cases. *)
Theorem spinlock_refines lapicid h (addr : lockname -> Z) (Hinj : Inj (=) (=) addr) v l s ks :
  view lapicid h addr s (held ks) ->
  match Machine.acquire l ks with
  | Ok _ ks' => wp (acquire lapicid h v (addr l)) (fun _ s' => view lapicid h addr s' (held ks')) s
  | Panic e => acquire lapicid h v (addr l) s = Panic e
  | _ => False
  end /\
  match Machine.release l ks with
  | Ok _ ks' => wp (release lapicid h (addr l)) (fun _ s' => view lapicid h addr s' (held ks')) s
  | Panic e => release lapicid h (addr l) s = Panic e
  | _ => False
  end.
Proof.
  intros Hv. unfold Machine.acquire, Machine.release. split; case_decide as Hl.
  - by eapply view_acquire_panic.
  - by apply view_acquire.
  - by apply view_release.
  - pose proof (view_holding lapicid h addr s (held ks) l Hv) as Hw.
    apply wp_Ok in Hw as (b & s1 & Hr & -> & _). unfold release. rewrite (bind_run _ _ _ _ _ Hr).
    by rewrite bool_decide_eq_false_2.
Qed.

(** [pushcli] and [popcli] nest: any number of one followed by as many of
    the other leaves the interrupt flag, the count and every lock as they were. *)
Theorem cli_nesting lapicid h n s c f x :
  cpu_at lapicid h s c f x -> quiet f x -> ncli x + Z.of_nat n < 2147483000 ->
  wp (times n (pushcli lapicid h) ;; times n (popcli lapicid h)) (fun _ s' =>
    eflags s' = eflags s /\ locks s' = locks s /\ exists x', cpu_at lapicid h s' c f x' /\ ncli x' = ncli x) s.
Proof.
  intros Hc Hq Hb. eapply wp_nested; [done..|]. cbn. split_and!; [done|done|].
  exists (match n with O => x | S _ => settled f x end). split; [|by destruct n].
  assert (apicid (match n with O => x | S _ => settled f x end) = apicid x) as Ea by (by destruct n).
  pose proof (cpu_at_update _ _ _ _ _ _ f _ Hc Ea) as [H1 H2 H3].
  rewrite (list_insert_id (eflags s)) in H1 by apply Hc. by split.
Qed.

(** ** Witnesses *)

Definition demo_lk : lkstate :=
  mk_lkstate [0x200; 0x200] [mk_cpu_lk 7 0 0 None; mk_cpu_lk 4 0 0 None]
    (<[0 := mk_spinlock 0 0 None []]> (<[1 := mk_spinlock 0 0 None []]> {[ 2 := mk_spinlock 0 0 None [] ]})) ∅.
Definition demo_addr (l : lockname) : Z := match l with L_kmem => 0 | L_ptable => 1 | L_ticks => 2 end.
#[export] Instance demo_addr_inj : Inj (=) (=) demo_addr.
Proof. by intros [] []. Qed.
Definition demo_lapicid (h : nat) : Z := match h with O => 7 | _ => 4 end.


Lemma spinlock_refines_witness :
  wp (acquire demo_lapicid 1 0x80400000 1) (fun _ s' => view demo_lapicid 1 demo_addr s' [L_ptable]) demo_lk.
Proof.
  assert (view demo_lapicid 1 demo_addr demo_lk []) as Hv.
  { split; [|constructor]. exists 1%nat, 0x200, (mk_cpu_lk 4 0 0 None). split_and!; try done.
    - split; [cbn; lia|by left].
    - intros []; eexists; (split; [reflexivity|]); unfold lock_view; by rewrite decide_False by apply not_elem_of_nil. }
  destruct (spinlock_refines demo_lapicid 1 demo_addr demo_addr_inj 0x80400000 L_ptable demo_lk
    (mk_kstate ∅ (mk_kmem 0 None ∅) [] [] None 0 None 0 0 0 0 [] ∅ ∅ cpu_zero) Hv) as [H _]. exact H.
Defined.

Lemma cli_nesting_witness :
  wp (times 5 (pushcli demo_lapicid 0) ;; times 5 (popcli demo_lapicid 0)) (fun _ s' => eflags s' = [0x200; 0x200]) demo_lk.
Proof.
  eapply wp_mono; [apply (cli_nesting demo_lapicid 0 5 demo_lk 0 0x200 (mk_cpu_lk 7 0 0 None))|].
  - split; reflexivity.
  - split; [discriminate|left; reflexivity].
  - reflexivity.
  - intros _ s' [H _]. exact H.
Defined.
