(* ===== verification/Pipe.v ===== *)
(** Pipes (pipe.c): the ring buffer, and processes that write, read and close
    a pipe concurrently. A call runs under the pipe's lock until it returns or
    sleeps, so that the interleaving is one of such sections. *)

From S2P Require Import Prelude.
From stdpp Require Import base list relations.
From Stdlib Require Import ZArith Lia.
Open Scope Z_scope.

(** ** Operations *)

Definition PIPESIZE : Z := 512.

Record pipe := mk_pipe {
  data : list Z;
  nread : Z;
  nwrite : Z;
  readopen : Z;
  writeopen : Z
}.

(** The two channels: the addresses of [nread] and [nwrite]. *)
Inductive pchan := ChRead | ChWrite.
#[export] Instance pchan_eq_dec : EqDecision pchan.
Proof. solve_decision. Defined.

(** How a section of a call ends: the call returns, or sleeps on a channel,
    with the arguments it continues with. *)
Inductive pcall := CallWrite (rest : list Z) (n : Z) | CallRead (n : Z).
Inductive pend := Returns (r : Z) | Sleeps (ch : pchan) (c : pcall).

(** [p->data[p->nwrite++ % PIPESIZE] = b] *)
Definition put (p : pipe) (b : Z) : pipe :=
  {| p with data := <[Z.to_nat (nwrite p mod PIPESIZE) := b]> (data p); nwrite := u32 (nwrite p + 1) |}.
(** [p->data[p->nread++ % PIPESIZE]] *)
Definition get (p : pipe) : Z * pipe :=
  (default 0 (data p !! Z.to_nat (nread p mod PIPESIZE)), {| p with nread := u32 (nread p + 1) |}).

(** [pipewrite] from the test of the inner loop on: [rest] are the bytes not
    yet written of the [n]. The second component is the list of the channels
    it wakes up. *)
Fixpoint pipewrite_loop (killed : bool) (p : pipe) (rest : list Z) (n : Z) : pipe * list pchan * pend :=
  match rest with
  | [] => (p, [ChRead], Returns n)
  | b :: rest' =>
      if nwrite p =? u32 (nread p + PIPESIZE) then
        if (readopen p =? 0) || killed then (p, [], Returns (-1))
        else (p, [ChRead], Sleeps ChWrite (CallWrite rest n))
      else pipewrite_loop killed (put p b) rest' n
  end.
Definition pipewrite (killed : bool) (p : pipe) (addr : list Z) : pipe * list pchan * pend :=
  pipewrite_loop killed p addr (Z.of_nat (length addr)).

(** The copy loop of [piperead]: at most [n] bytes. *)
Fixpoint piperead_copy (p : pipe) (n : nat) : pipe * list Z :=
  match n with
  | O => (p, [])
  | S n' =>
      if nread p =? nwrite p then (p, [])
      else let '(b, p1) := get p in let '(p2, bs) := piperead_copy p1 n' in (p2, b :: bs)
  end.
(** The bytes read are the last component. *)
Definition piperead (killed : bool) (p : pipe) (n : Z) : pipe * list pchan * pend * list Z :=
  if (nread p =? nwrite p) && negb (writeopen p =? 0) then
    if killed then (p, [], Returns (-1), []) else (p, [], Sleeps ChRead (CallRead n), [])
  else
    let '(p', bs) := piperead_copy p (Z.to_nat n) in
    (p', [ChWrite], Returns (Z.of_nat (length bs)), bs).

(** The flag says whether the pipe's page is freed. *)
Definition pipeclose (p : pipe) (writable : bool) : pipe * list pchan * bool :=
  let '(p', w) := if writable then ({| p with writeopen := 0 |}, [ChRead]) else ({| p with readopen := 0 |}, [ChWrite]) in
  (p', w, (readopen p' =? 0) && (writeopen p' =? 0)).

(** The pipe that [pipealloc] sets up in a page with the contents [d]. *)
Definition new_pipe (d : list Z) : pipe := mk_pipe d 0 0 1 1.

(** ** Processes at a pipe *)

(** A process is about to run a section of a call, sleeps in one, or is not in
    the pipe code. *)
Inductive pthread := Runs (c : pcall) | Asleep (ch : pchan) (c : pcall) | Out.

(** [sent] and [received] record the bytes in the order in which the calls
    put them in and took them out. *)
Record system := mk_system {
  sys_pipe : pipe;
  threads : list pthread;
  sent : list Z;
  received : list Z
}.

Definition wake (w : list pchan) (t : pthread) : pthread :=
  match t with Asleep ch c => if decide (ch ∈ w) then Runs c else t | _ => t end.
Definition settle (e : pend) : pthread :=
  match e with Returns _ => Out | Sleeps ch c => Asleep ch c end.
Definition is_reader (t : pthread) : bool :=
  match t with Runs (CallRead _) | Asleep _ (CallRead _) => true | _ => false end.
Definition is_writer (t : pthread) : bool :=
  match t with Runs (CallWrite _ _) | Asleep _ (CallWrite _ _) => true | _ => false end.

(** One section. [killed] tells whether steps of killed processes are
    included; a process only closes an end that no call is using, and only
    calls on an open end. *)
Inductive pstep (killed : bool) (s : system) : system -> Prop :=
| step_call_write i bs :
    threads s !! i = Some Out -> writeopen (sys_pipe s) ≠ 0 ->
    pstep killed s {| s with threads := <[i := Runs (CallWrite bs (Z.of_nat (length bs)))]> (threads s) |}
| step_call_read i n :
    threads s !! i = Some Out -> readopen (sys_pipe s) ≠ 0 ->
    pstep killed s {| s with threads := <[i := Runs (CallRead n)]> (threads s) |}
| step_write i k rest n p' w e :
    (k = true -> killed = true) ->
    threads s !! i = Some (Runs (CallWrite rest n)) ->
    pipewrite_loop k (sys_pipe s) rest n = (p', w, e) ->
    pstep killed s (mk_system p' (<[i := settle e]> (wake w <$> threads s))
      (sent s ++ take (Z.to_nat (u32 (nwrite p' - nwrite (sys_pipe s)))) rest) (received s))
| step_read i k n p' w e bs :
    (k = true -> killed = true) ->
    threads s !! i = Some (Runs (CallRead n)) ->
    piperead k (sys_pipe s) n = (p', w, e, bs) ->
    pstep killed s (mk_system p' (<[i := settle e]> (wake w <$> threads s)) (sent s) (received s ++ bs))
| step_close (wr : bool) p' w b :
    pipeclose (sys_pipe s) wr = (p', w, b) ->
    (forall i t, threads s !! i = Some t -> (if wr then is_writer t else is_reader t) = false) ->
    pstep killed s (mk_system p' (wake w <$> threads s) (sent s) (received s))
| step_spurious i ch c :
    threads s !! i = Some (Asleep ch c) ->
    pstep killed s {| s with threads := <[i := Runs c]> (threads s) |}.

Definition system_start (s : system) : Prop :=
  exists d, length d = 512%nat /\ sys_pipe s = new_pipe d /\ sent s = [] /\ received s = [] /\
            Forall (fun t => t = Out) (threads s).

(** ** The ring buffer as a queue *)

(** The bytes in the pipe, oldest first. *)
Definition content (p : pipe) : list Z :=
  (fun k => default 0 (data p !! Z.to_nat ((nread p + Z.of_nat k) mod PIPESIZE)))
    <$> seq 0 (Z.to_nat (u32 (nwrite p - nread p))).
Definition full (p : pipe) : Prop := nwrite p = u32 (nread p + PIPESIZE).
Definition empty (p : pipe) : Prop := nread p = nwrite p.

Record pipe_ok (p : pipe) : Prop := {
  po_len : length (data p) = 512%nat;
  po_read : 0 <= nread p < W32;
  po_write : 0 <= nwrite p < W32;
  po_size : u32 (nwrite p - nread p) <= PIPESIZE
}.

Lemma new_pipe_ok d : length d = 512%nat -> pipe_ok (new_pipe d) /\ content (new_pipe d) = [].
Proof. intros H. split; [split; cbn; (done || zlia)|done]. Qed.

(** The counters wrap around at a multiple of the size of the buffer. *)
Lemma u32_mod x : u32 x mod PIPESIZE = x mod PIPESIZE.
Proof. unfold PIPESIZE. zlia. Qed.
Lemma u32_add_mod x y : (u32 x + y) mod PIPESIZE = (x + y) mod PIPESIZE.
Proof. unfold PIPESIZE. zlia. Qed.
Lemma slot_range x : (Z.to_nat (x mod PIPESIZE) < 512)%nat.
Proof. unfold PIPESIZE. pose proof (Z.mod_pos_bound x 512). lia. Qed.
Lemma slot_ne x y : 0 < y - x < PIPESIZE -> Z.to_nat (x mod PIPESIZE) ≠ Z.to_nat (y mod PIPESIZE).
Proof. unfold PIPESIZE. intros H E. apply Z2Nat.inj in E; zlia. Qed.

Lemma put_spec p b :
  pipe_ok p -> ~ full p ->
  pipe_ok (put p b) /\ content (put p b) = content p ++ [b] /\
  u32 (nwrite (put p b) - nread p) = u32 (nwrite p - nread p) + 1.
Proof.
  intros [H1 H2 H3 H4] Hf.
  assert (u32 (nwrite p - nread p) < PIPESIZE) as Hlt.
  { apply Z.le_neq. split; [done|]. intros E. apply Hf. unfold full, PIPESIZE in *. zlia. }
  assert (u32 (u32 (nwrite p + 1) - nread p) = u32 (nwrite p - nread p) + 1) as En by (unfold PIPESIZE in *; zlia).
  split; [|split; [|done]].
  - split; cbn; rewrite ?length_insert; auto with kdb. rewrite En. unfold PIPESIZE in *. lia.
  - unfold content. cbn [nread nwrite data put]. rewrite En.
    rewrite Z2Nat.inj_add by (unfold PIPESIZE in *; zlia). rewrite Nat.add_1_r, seq_S, fmap_app. cbn [fmap list_fmap].
    f_equal.
    + apply list_fmap_ext. intros j k Hk. apply lookup_seq in Hk as [-> Hk]. cbn [Nat.add].
      rewrite list_lookup_insert_ne; [done|].
      replace (nwrite p mod PIPESIZE) with ((nread p + u32 (nwrite p - nread p)) mod PIPESIZE) by (unfold PIPESIZE; zlia).
      intros E. symmetry in E. revert E. apply slot_ne. lia.
    + f_equal.
      replace (Z.to_nat ((nread p + Z.of_nat (0 + Z.to_nat (u32 (nwrite p - nread p)))) mod PIPESIZE))
        with (Z.to_nat (nwrite p mod PIPESIZE)) by (f_equal; unfold PIPESIZE in *; zlia).
      rewrite list_lookup_insert_eq; [done|]. rewrite H1. apply slot_range.
Qed.

Lemma get_spec p :
  pipe_ok p -> ~ empty p ->
  content p = fst (get p) :: content (snd (get p)) /\ pipe_ok (snd (get p)).
Proof.
  intros [H1 H2 H3 H4] He. unfold empty in He.
  assert (u32 (nwrite p - nread p) = u32 (nwrite p - u32 (nread p + 1)) + 1) as En by (unfold PIPESIZE in *; zlia).
  split.
  - unfold content, get. cbn [fst snd nread nwrite data]. rewrite En.
    rewrite Z2Nat.inj_add by (pose proof (u32_range (nwrite p - u32 (nread p + 1))); lia).
    rewrite Nat.add_1_r. cbn [seq fmap list_fmap]. f_equal; [by rewrite Z.add_0_r|].
    rewrite <- seq_shift, <- list_fmap_compose. apply list_fmap_ext. intros j k _. cbn.
    rewrite u32_add_mod. do 3 f_equal. f_equal. lia.
  - split; cbn; auto with kdb. lia.
Qed.

Lemma length_content p : length (content p) = Z.to_nat (u32 (nwrite p - nread p)).
Proof. unfold content. by rewrite length_fmap, length_seq. Qed.
Lemma empty_content p : pipe_ok p -> empty p <-> content p = [].
Proof.
  intros [H1 H2 H3 H4]. unfold empty. rewrite <- length_zero_iff_nil, length_content. zlia.
Qed.
Lemma full_content p : pipe_ok p -> full p <-> length (content p) = 512%nat.
Proof. intros [H1 H2 H3 H4]. rewrite length_content. unfold full, PIPESIZE in *. zlia. Qed.

(** The ends that are open do not change. *)
Definition same_ends (p p' : pipe) : Prop := readopen p' = readopen p /\ writeopen p' = writeopen p.

Lemma pipewrite_loop_spec k rest : forall p n p' w e,
  pipe_ok p -> pipewrite_loop k p rest n = (p', w, e) ->
  exists m, (m <= length rest)%nat /\ pipe_ok p' /\ content p' = content p ++ take m rest /\
    u32 (nwrite p' - nwrite p) = Z.of_nat m /\ nread p' = nread p /\ same_ends p p' /\
    ((e = Returns n /\ m = length rest /\ w = [ChRead]) \/
     (e = Sleeps ChWrite (CallWrite (drop m rest) n) /\ full p' /\ readopen p ≠ 0 /\ k = false /\ w = [ChRead]) \/
     (e = Returns (-1) /\ full p' /\ (readopen p = 0 \/ k = true) /\ w = [])).
Proof.
  induction rest as [|b rest IH]; intros p n p' w e Hok Hrun; cbn [pipewrite_loop] in Hrun.
  - injection Hrun as <- <- <-. exists O. rewrite take_0, app_nil_r, Z.sub_diag. split_and!; try done. left. done.
  - destruct (Z.eqb_spec (nwrite p) (u32 (nread p + PIPESIZE))) as [Hf|Hf].
    + exists O. cbn [take drop]. rewrite app_nil_r.
      destruct (Z.eqb_spec (readopen p) 0) as [Er|Er]; cbn [orb] in Hrun; [|destruct k];
        injection Hrun as <- <- <-; rewrite Z.sub_diag; split_and!; cbn [length]; try done; try lia; right.
      * right. auto.
      * right. auto.
      * left. auto.
    + destruct (put_spec p b Hok Hf) as (Hok1 & Hc1 & Hn1).
      destruct (IH _ _ _ _ _ Hok1 Hrun) as (m & Hm & Hok' & Hc & Hn & Hr & He & Hend).
      exists (S m). cbn [take drop length]. rewrite Hc, Hc1, <- app_assoc.
      assert (u32 (nwrite p' - nwrite p) = Z.of_nat (S m)) as En.
      { pose proof (f_equal length Hc) as El. rewrite length_app, length_take, !length_content in El.
        pose proof (po_size _ Hok') as Hs. pose proof (u32_range (nwrite p' - nread p')).
        cbn [put nread nwrite] in Hn. unfold PIPESIZE in Hs. zlia. }
      split_and!; try done; try lia.
      destruct Hend as [(-> & -> & ->)|[(-> & Hend)|(-> & Hend)]]; [left; done|right; left; done|right; right; done].
Qed.

Lemma piperead_copy_spec n : forall p p' bs,
  pipe_ok p -> piperead_copy p n = (p', bs) ->
  pipe_ok p' /\ content p = bs ++ content p' /\ same_ends p p' /\ nwrite p' = nwrite p /\
  length bs = Nat.min n (length (content p)).
Proof.
  induction n as [|n IH]; intros p p' bs Hok Hrun; cbn [piperead_copy] in Hrun.
  - injection Hrun as <- <-. split_and!; done.
  - destruct (Z.eqb_spec (nread p) (nwrite p)) as [He|He].
    + injection Hrun as <- <-. split_and!; try done. apply empty_content in He; [|done]. by rewrite He.
    + destruct (get_spec p Hok He) as [Hc Hok1]. destruct (get p) as [b p1] eqn:Eg. cbn [fst snd] in *.
      destruct (piperead_copy p1 n) as [p2 bs2] eqn:Ec. injection Hrun as <- <-.
      destruct (IH _ _ _ Hok1 Ec) as (I1 & I2 & I3 & I4 & I5). unfold get in Eg. injection Eg as <- <-.
      split_and!; try done.
      * rewrite Hc, I2. done.
      * rewrite Hc. cbn [length]. rewrite I5. lia.
Qed.

(** ** The system *)

Lemma lookup_wake w i j t t' (ts : list pthread) :
  <[i := t]> (wake w <$> ts) !! j = Some t' ->
  (j = i /\ t' = t) \/ (j ≠ i /\ exists t0, ts !! j = Some t0 /\ t' = wake w t0).
Proof.
  intros H. apply list_lookup_insert_Some in H as [(<- & <- & _)|(Hne & H)]; [by left|right].
  split; [done|]. rewrite list_lookup_fmap in H. destruct (ts !! j) as [t0|]; [|done]. injection H as <-. eauto.
Qed.
Lemma wake_asleep w t ch c : wake w t = Asleep ch c -> t = Asleep ch c /\ (ch ∉ w).
Proof. destruct t; cbn; try done. case_decide; [done|]. by intros [= <- <-]. Qed.
Lemma wake_reader w t : is_reader (wake w t) = is_reader t.
Proof. destruct t; cbn; try done. by case_decide. Qed.
Lemma wake_writer w t : is_writer (wake w t) = is_writer t.
Proof. destruct t; cbn; try done. by case_decide. Qed.

(** What is in the pipe was sent and not yet received. *)
Record delivered (s : system) : Prop := {
  de_ok : pipe_ok (sys_pipe s);
  de_fifo : sent s = received s ++ content (sys_pipe s)
}.

Lemma delivered_start s : system_start s -> delivered s.
Proof.
  intros (d & Hd & -> & -> & -> & _) || intros (d & Hd & Ep & Es & Er & _).
  destruct (new_pipe_ok d Hd) as [H1 H2]. split; rewrite ?Ep, ?Es, ?Er; [done|by rewrite H2].
Qed.

Lemma delivered_step k s s' : pstep k s s' -> delivered s -> delivered s'.
Proof.
  intros Hs [Hok Hf]. destruct Hs as [i bs|i n|i k' rest n p' w e _ _ Hw|i k' n p' w e bs _ _ Hr|wr p' w b Hc _|i ch c];
    try (split; cbn; done).
  - destruct (pipewrite_loop_spec _ _ _ _ _ _ _ Hok Hw) as (m & Hm & Hok' & Hct & Hn & _ & _ & _).
    split; cbn [sys_pipe sent received]; [done|]. by rewrite Hn, Nat2Z.id, Hct, Hf, app_assoc.
  - unfold piperead in Hr. destruct (_ && _).
    + destruct k'; injection Hr as <- <- <- <-; split; cbn; by rewrite ?app_nil_r.
    + destruct (piperead_copy (sys_pipe s) (Z.to_nat n)) as [p1 bs1] eqn:Ec. injection Hr as <- <- <- <-.
      destruct (piperead_copy_spec _ _ _ _ Hok Ec) as (H1 & H2 & _). split; cbn [sys_pipe sent received]; [done|].
      by rewrite Hf, H2, app_assoc.
  - unfold pipeclose in Hc. destruct wr; injection Hc as <- <- _; (split; cbn; [destruct Hok; by split|exact Hf]).
Qed.

(** Nobody sleeps without a reason: a reader sleeps while the pipe is empty
    and can still be written, a writer while it is full and can still be read. *)
Definition reason (p : pipe) (t : pthread) : Prop :=
  match t with
  | Asleep ChRead c => empty p /\ writeopen p ≠ 0 /\ exists n, c = CallRead n
  | Asleep ChWrite c => full p /\ readopen p ≠ 0 /\ exists rest n, c = CallWrite rest n
  | _ => True
  end.
Definition open_ends (p : pipe) (t : pthread) : Prop :=
  (is_reader t = true -> readopen p ≠ 0) /\ (is_writer t = true -> writeopen p ≠ 0).
Record awake (s : system) : Prop := {
  aw_ok : pipe_ok (sys_pipe s);
  aw_open : forall i t, threads s !! i = Some t -> open_ends (sys_pipe s) t;
  aw_reason : forall i t, threads s !! i = Some t -> reason (sys_pipe s) t
}.

Lemma awake_start s : system_start s -> awake s.
Proof.
  intros (d & Hd & Ep & _ & _ & Ht). split.
  - rewrite Ep. by apply new_pipe_ok.
  - intros i t Hi. rewrite Forall_lookup in Ht. rewrite (Ht i t Hi). by split.
  - intros i t Hi. rewrite Forall_lookup in Ht. by rewrite (Ht i t Hi).
Qed.

(** A step of process [i] that leaves the ends alone and wakes [w] up. *)
Lemma awake_section s i c p' w e se re :
  awake s -> threads s !! i = Some (Runs c) -> pipe_ok p' -> same_ends (sys_pipe s) p' ->
  (is_reader (settle e) = true -> is_reader (Runs c) = true) ->
  (is_writer (settle e) = true -> is_writer (Runs c) = true) ->
  reason p' (settle e) ->
  (forall j t, j ≠ i -> threads s !! j = Some t -> reason (sys_pipe s) t -> open_ends (sys_pipe s) t ->
     reason p' (wake w t)) ->
  awake (mk_system p' (<[i := settle e]> (wake w <$> threads s)) se re).
Proof.
  intros [Hok Ho Hr] Hi Hok' [Er Ew] H1 H2 H3 H4. split; cbn [sys_pipe threads]; [done| |].
  - intros j t Hj. unfold open_ends. rewrite Er, Ew.
    apply lookup_wake in Hj as [[-> ->]|(Hne & t0 & Hj & ->)].
    + destruct (Ho i _ Hi) as [O1 O2]. split; auto.
    + rewrite wake_reader, wake_writer. by apply Ho with j.
  - intros j t Hj. apply lookup_wake in Hj as [[-> ->]|(Hne & t0 & Hj & ->)]; [done|].
    apply (H4 j); eauto.
Qed.

Lemma awake_insert s i c t0 :
  awake s -> threads s !! i = Some t0 -> open_ends (sys_pipe s) (Runs c) ->
  awake {| s with threads := <[i := Runs c]> (threads s) |}.
Proof.
  intros [Hok Ho Hr] Hi Hc. split; cbn [sys_pipe threads]; [done| |];
    intros j t Hj; apply list_lookup_insert_Some in Hj as [(<- & <- & _)|(Hne & Hj)]; eauto. done.
Qed.

Lemma awake_write s i rest n p' w e se re :
  awake s -> threads s !! i = Some (Runs (CallWrite rest n)) ->
  pipewrite_loop false (sys_pipe s) rest n = (p', w, e) ->
  awake (mk_system p' (<[i := settle e]> (wake w <$> threads s)) se re).
Proof.
  intros Haw Hi Hw. pose proof Haw as [Hok Ho Hr].
  destruct (pipewrite_loop_spec _ _ _ _ _ _ _ Hok Hw) as (m & Hm & Hok' & Hct & Hn & Hnr & Hends & Hend).
  assert (full (sys_pipe s) -> full p') as Hfull.
  { rewrite !full_content by done. rewrite Hct, length_app, length_take. intros E.
    pose proof (po_size _ Hok') as Hs. pose proof (f_equal length Hct) as El.
    rewrite length_app, length_take, length_content in El. unfold PIPESIZE in Hs. lia. }
  eapply awake_section; try done.
  - by destruct Hend as [(-> & _)|[(-> & _)|(-> & _)]].
  - destruct Hend as [(-> & _)|[(-> & Hf & Hro & _)|(-> & _)]]; cbn; try done.
    destruct Hends as [-> _]. eauto.
  - intros j t Hne Hj Hre [Hor How]. destruct t as [|[] c|]; cbn; try done.
    + destruct Hend as [(_ & _ & ->)|[(_ & _ & _ & _ & ->)|(_ & _ & Hk & ->)]]; try done.
      exfalso. destruct Hk as [Hk|]; [|done]. destruct Hre as (_ & _ & nn & ->). by destruct Hor.
    + assert (ChWrite ∉ w) as Hnw.
      { destruct Hend as [(_ & _ & ->)|[(_ & _ & _ & _ & ->)|(_ & _ & _ & ->)]];
          rewrite ?list_elem_of_singleton; try done. apply not_elem_of_nil. }
      rewrite decide_False by done. cbn. destruct Hre as (Hf & Hro & Hex). destruct Hends as [-> _]. auto.
Qed.

Lemma awake_read s i n p' w e bs se re :
  awake s -> threads s !! i = Some (Runs (CallRead n)) ->
  piperead false (sys_pipe s) n = (p', w, e, bs) ->
  awake (mk_system p' (<[i := settle e]> (wake w <$> threads s)) se re).
Proof.
  intros Haw Hi Hrd. pose proof Haw as [Hok Ho Hr]. unfold piperead in Hrd.
  destruct ((nread (sys_pipe s) =? nwrite (sys_pipe s)) && negb (writeopen (sys_pipe s) =? 0)) eqn:Et.
  - injection Hrd as <- <- <- <-. bool_hyps. eapply awake_section; try done.
    + cbn. eauto.
    + intros j t Hne Hj Hre _. destruct t; cbn; try done.
  - destruct (piperead_copy (sys_pipe s) (Z.to_nat n)) as [p1 bs1] eqn:Ec. injection Hrd as <- <- <- <-.
    destruct (piperead_copy_spec _ _ _ _ Hok Ec) as (H1 & H2 & H3 & _).
    eapply awake_section; try done.
    intros j t Hne Hj Hre _. destruct t as [|[] c|]; cbn; try done. exfalso.
    destruct Hre as (He & Hwo & _). unfold empty in He. rewrite He, Z.eqb_refl in Et. cbn in Et. bool_hyps. done.
Qed.

Lemma awake_step s s' : pstep false s s' -> awake s -> awake s'.
Proof.
  intros Hs Haw. destruct Hs as [i bs Hi Ho|i n Hi Ho|i k rest n p' w e Hk Hi Hw|i k n p' w e bs Hk Hi Hr|wr p' w b Hc Hg|i ch c Hi].
  - eapply awake_insert; [done|done|]. by split.
  - eapply awake_insert; [done|done|]. by split.
  - destruct k; [by specialize (Hk eq_refl)|]. by eapply awake_write.
  - destruct k; [by specialize (Hk eq_refl)|]. by eapply awake_read.
  - destruct Haw as [Hok Ho Hr]. unfold pipeclose in Hc.
    destruct wr; injection Hc as <- <- _; (split; cbn [sys_pipe threads]; [destruct Hok; by split| |]);
      intros i t Hi; rewrite list_lookup_fmap in Hi; destruct (threads s !! i) as [t0|] eqn:Ei; try done;
      injection Hi as <-; specialize (Ho _ _ Ei); specialize (Hr _ _ Ei); specialize (Hg _ _ Ei); cbn in Hg.
    + unfold open_ends. rewrite wake_reader, wake_writer, Hg. cbn. split; [apply Ho|done].
    + destruct t0 as [|[] c|]; cbn in *; try done.
    + unfold open_ends. rewrite wake_reader, wake_writer, Hg. cbn. split; [done|apply Ho].
    + destruct t0 as [|[] c|]; cbn in *; try done.
  - eapply awake_insert; [done|done|]. destruct Haw as [_ Ho _]. specialize (Ho _ _ Hi). by destruct c.
Qed.

(** ** Correctness *)



(** A write of 513 bytes. *)
Definition long_write : list Z := replicate 513 7.
Definition two_processes : system := mk_system (new_pipe (replicate 512 0)) [Out; Out] [] [].

(** With killed processes a wakeup can be lost: a process that was killed
    fills the pipe and returns -1 without waking the reader, which stays asleep
    beside a full pipe that is open for writing. *)
Theorem pipe_lost_wakeup :
  exists s, rtc (pstep true) two_processes s /\ threads s = [Asleep ChRead (CallRead 1); Out] /\
            length (content (sys_pipe s)) = 512%nat /\ writeopen (sys_pipe s) ≠ 0.
Proof.
  eexists. split.
  { eapply rtc_l; [apply (step_call_read _ _ 0 1); [reflexivity|discriminate]|].
    eapply rtc_l; [eapply (step_read _ _ 0 false); [discriminate|reflexivity|reflexivity]|].
    eapply rtc_l; [apply (step_call_write _ _ 1 long_write); [reflexivity|discriminate]|].
    eapply rtc_l; [eapply (step_write _ _ 1 true); [reflexivity|reflexivity|vm_compute; reflexivity]|].
    apply rtc_refl. }
  split; [reflexivity|]. split; [reflexivity|discriminate].
Qed.

(** ** Witnesses *)

Lemma two_processes_start : system_start two_processes.
Proof. exists (replicate 512 0). split_and!; try reflexivity. repeat constructor. Qed.


(** The reader comes first and sleeps. *)
Definition reader_asleep : system :=
  mk_system (new_pipe (replicate 512 0)) [Asleep ChRead (CallRead 1); Out] [] [].
