(* ===== verification/PTable.v ===== *)
(** The abstract process table: the life of processes as a state machine,
    with the invariants that the operations of proc.c maintain. Proc.v shows
    that the code implements the steps. *)

From S2P Require Import Prelude Mmu Machine.
From stdpp Require Import base list relations.
From Stdlib Require Import ZArith Lia.
Open Scope Z_scope.

(** ** The table *)

(** The fields of a process-table entry that decide about its life: the rest
    of the entry (memory, files, paging data) plays no part in scheduling. *)
Record core := mk_core {
  c_state : procstate;
  c_pid : Z;
  c_parent : option nat;
  c_chan : channel;
  c_killed : Z
}.
Record ptable := mk_ptable {
  pt_procs : list core;
  pt_cur : option nat;
  pt_nextpid : Z;
  pt_init : option nat
}.

Definition set_core (i : nat) (f : core -> core) (t : ptable) : ptable :=
  {| t with pt_procs := alter f i (pt_procs t) |}.

(** The channel on which a process waits for its children. *)
Definition chan_of (o : option nat) : channel := match o with Some k => ChProc k | None => NoChan end.

Definition wake_core (ch : channel) (c : core) : core :=
  if bool_decide (c_state c = SLEEPING) && bool_decide (c_chan c = ch) then {| c with c_state := RUNNABLE |} else c.
Definition wake (ch : channel) (t : ptable) : ptable :=
  {| t with pt_procs := wake_core ch <$> pt_procs t |}.

(** The children of [i] become children of init, which is woken up if one of
    them has already exited. *)
Definition adopt_one (i : nat) (t : ptable) (j : nat) : ptable :=
  match pt_procs t !! j with
  | Some c =>
      if bool_decide (c_parent c = Some i) then
        let t' := set_core j (fun c => {| c with c_parent := pt_init t |}) t in
        if bool_decide (c_state c = ZOMBIE) then wake (chan_of (pt_init t)) t' else t'
      else t
  | None => t
  end.
Definition adopt (i : nat) (t : ptable) : ptable := fold_left (adopt_one i) (indices NPROC) t.

Definition live (st : procstate) : bool :=
  match st with RUNNABLE | RUNNING | SLEEPING => true | _ => false end.

(** No child of [i] is a zombie. *)
Definition no_zombie_child (t : ptable) (i : nat) : Prop :=
  forall j c, pt_procs t !! j = Some c -> c_parent c = Some i -> c_state c ≠ ZOMBIE.

(** ** The steps *)

Inductive tstep (t : ptable) : ptable -> Prop :=
| t_alloc i c :
    pt_procs t !! i = Some c -> c_state c = UNUSED -> pt_nextpid t < 2147483647 ->
    tstep t {| t with pt_procs := <[i := {| c with c_state := EMBRYO; c_pid := pt_nextpid t |}]> (pt_procs t);
                      pt_nextpid := pt_nextpid t + 1 |}
| t_abandon i c :
    pt_procs t !! i = Some c -> c_state c = EMBRYO -> pt_init t ≠ Some i ->
    tstep t {| t with pt_procs := <[i := {| c with c_state := UNUSED |}]> (pt_procs t) |}
| t_first i c :
    pt_procs t !! i = Some c -> c_state c = EMBRYO -> pt_init t = None ->
    tstep t {| t with pt_init := Some i |}
| t_boot i c :
    pt_procs t !! i = Some c -> c_state c = EMBRYO -> pt_init t = Some i ->
    tstep t {| t with pt_procs := <[i := {| c with c_state := RUNNABLE |}]> (pt_procs t) |}
| t_birth i c me :
    pt_procs t !! i = Some c -> c_state c = EMBRYO -> pt_cur t = Some me ->
    tstep t {| t with pt_procs := <[i := {| c with c_state := RUNNABLE; c_parent := Some me |}]> (pt_procs t) |}
| t_wake ch :
    tstep t (wake ch t)
| t_kill i c :
    pt_procs t !! i = Some c ->
    tstep t {| t with pt_procs := <[i := {| c with c_killed := 1;
      c_state := if bool_decide (c_state c = SLEEPING) then RUNNABLE else c_state c |}]> (pt_procs t) |}
| t_run i c :
    pt_procs t !! i = Some c -> c_state c = RUNNABLE -> pt_cur t = None ->
    tstep t {| t with pt_procs := <[i := {| c with c_state := RUNNING |}]> (pt_procs t); pt_cur := Some i |}
| t_yield i c :
    pt_procs t !! i = Some c -> pt_cur t = Some i ->
    tstep t {| t with pt_procs := <[i := {| c with c_state := RUNNABLE |}]> (pt_procs t); pt_cur := None |}
| t_sleep i c ch :
    pt_procs t !! i = Some c -> pt_cur t = Some i -> (ch = ChProc i -> no_zombie_child t i) ->
    tstep t {| t with pt_procs := <[i := {| c with c_state := SLEEPING; c_chan := ch |}]> (pt_procs t); pt_cur := None |}
| t_resume i c :
    pt_procs t !! i = Some c -> pt_cur t = Some i ->
    tstep t {| t with pt_procs := <[i := {| c with c_chan := NoChan |}]> (pt_procs t) |}
| t_exit i c :
    pt_procs t !! i = Some c -> pt_cur t = Some i -> pt_init t ≠ Some i ->
    tstep t {| (set_core i (fun c => {| c with c_state := ZOMBIE |}) (adopt i (wake (chan_of (c_parent c)) t)))
               with pt_cur := None |}
| t_reap i c me :
    pt_procs t !! i = Some c -> pt_cur t = Some me -> c_parent c = Some me -> c_state c = ZOMBIE ->
    tstep t {| t with pt_procs := <[i := {| c with c_state := UNUSED; c_pid := 0; c_parent := None; c_killed := 0 |}]> (pt_procs t) |}.

(** The zeroed table of the kernel image, with [nextpid] initialised. *)
Definition boot_table : ptable := mk_ptable (replicate NPROC (mk_core UNUSED 0 None NoChan 0)) None 1 None.

(** ** The invariant *)

Record wf (t : ptable) : Prop := {
  w_len : length (pt_procs t) = NPROC;
  w_cur : forall i, pt_cur t = Some i -> exists c, pt_procs t !! i = Some c;
  w_run : forall i c, pt_procs t !! i = Some c -> c_state c = RUNNING <-> pt_cur t = Some i;
  w_pid : forall i c, pt_procs t !! i = Some c -> c_state c ≠ UNUSED -> 0 < c_pid c < pt_nextpid t;
  w_next : 0 < pt_nextpid t;
  w_uniq : forall i j c d, pt_procs t !! i = Some c -> pt_procs t !! j = Some d ->
             c_state c ≠ UNUSED -> c_state d ≠ UNUSED -> c_pid c = c_pid d -> i = j;
  w_parent : forall i c q, pt_procs t !! i = Some c -> c_parent c = Some q ->
               c_state c ≠ UNUSED /\ c_state c ≠ EMBRYO /\
               exists d, pt_procs t !! q = Some d /\ live (c_state d) = true;
  w_self : forall i c, pt_procs t !! i = Some c -> c_parent c ≠ Some i;
  w_orphan : forall i c, pt_procs t !! i = Some c -> c_state c ≠ UNUSED -> c_state c ≠ EMBRYO ->
               pt_init t ≠ Some i -> exists q, c_parent c = Some q;
  w_boot : (exists k d, pt_init t = Some k /\ pt_procs t !! k = Some d /\ live (c_state d) = true) \/
           (forall i c, pt_procs t !! i = Some c -> c_state c = UNUSED \/ c_state c = EMBRYO);
  w_init : forall k, pt_init t = Some k -> exists d, pt_procs t !! k = Some d /\
             (c_state d = EMBRYO \/ live (c_state d) = true) /\ c_parent d = None;
  w_wait : forall q d, pt_procs t !! q = Some d -> c_state d = SLEEPING -> c_chan d = ChProc q -> no_zombie_child t q
}.

(** ** One entry changes *)

(** The conditions under which entry [i] may become [c']. *)
Record change_ok (t : ptable) (i : nat) (c c' : core) (cur' : option nat) (n' : Z) : Prop := {
  ch_at : pt_procs t !! i = Some c;
  ch_run : c_state c' = RUNNING <-> cur' = Some i;
  ch_cur : forall j, j ≠ i -> cur' = Some j <-> pt_cur t = Some j;
  ch_next : pt_nextpid t <= n';
  ch_pid : c_state c' ≠ UNUSED -> 0 < c_pid c' < n';
  ch_uniq : forall j d, c_state c' ≠ UNUSED -> j ≠ i -> pt_procs t !! j = Some d -> c_state d ≠ UNUSED -> c_pid d ≠ c_pid c';
  ch_parent : forall q, c_parent c' = Some q -> c_state c' ≠ UNUSED /\ c_state c' ≠ EMBRYO /\
                exists d, pt_procs t !! q = Some d /\ live (c_state d) = true;
  ch_self : c_parent c' ≠ Some i;
  ch_live : live (c_state c) = true -> live (c_state c') = true;
  ch_orphan : c_state c' ≠ UNUSED -> c_state c' ≠ EMBRYO -> pt_init t ≠ Some i -> exists q, c_parent c' = Some q;
  ch_boot : (exists k d, pt_init t = Some k /\ pt_procs t !! k = Some d /\ live (c_state d) = true) \/
            (pt_init t = Some i /\ live (c_state c') = true) \/ c_state c' = UNUSED \/ c_state c' = EMBRYO;
  ch_init : pt_init t = Some i -> (c_state c' = EMBRYO \/ live (c_state c') = true) /\ c_parent c' = None;
  ch_wait : c_state c' = SLEEPING -> c_chan c' = ChProc i -> no_zombie_child t i;
  ch_zombie : c_state c' = ZOMBIE -> c_state c = ZOMBIE /\ c_parent c' = c_parent c
}.

Lemma lookup_change (l : list core) i c c' j d :
  l !! i = Some c -> <[i := c']> l !! j = Some d -> (j = i /\ d = c') \/ (j ≠ i /\ l !! j = Some d).
Proof.
  intros Hi H. apply list_lookup_insert_Some in H as [(<- & <- & _)|[Hne H]]; [by left|right; auto].
Qed.
Lemma live_change t i c c' cur' n' q d :
  change_ok t i c c' cur' n' -> pt_procs t !! q = Some d -> live (c_state d) = true ->
  exists d', <[i := c']> (pt_procs t) !! q = Some d' /\ live (c_state d') = true.
Proof.
  intros Hc Hq Hl. pose proof (ch_at _ _ _ _ _ _ Hc) as Hi. destruct (decide (q = i)) as [->|Hne].
  - exists c'. rewrite list_lookup_insert_eq by (by eapply lookup_lt_Some). split; [done|].
    apply (ch_live _ _ _ _ _ _ Hc). congruence.
  - exists d. by rewrite list_lookup_insert_ne.
Qed.

Lemma wf_change t i c c' cur' n' :
  wf t -> change_ok t i c c' cur' n' ->
  wf {| t with pt_procs := <[i := c']> (pt_procs t); pt_cur := cur'; pt_nextpid := n' |}.
Proof.
  intros [W1 W2 W3 W4 W5 W6 W7 WS W8 W9 W10 W11] Hc.
  pose proof Hc as [C1 C2 C3 C4 C5 C6 C7 CS C8 C9 C10 C11 C12 C13].
  split; cbn [pt_procs pt_cur pt_nextpid pt_init].
  - by rewrite length_insert.
  - intros j Hj. destruct (decide (j = i)) as [->|Hne].
    + exists c'. apply list_lookup_insert_eq. by eapply lookup_lt_Some.
    + rewrite list_lookup_insert_ne by done. apply W2. by apply C3.
  - intros j d Hj. destruct (lookup_change _ _ _ _ _ _ C1 Hj) as [[-> ->]|[Hne Hj']]; [done|].
    rewrite C3 by done. by apply W3.
  - intros j d Hj Hu. destruct (lookup_change _ _ _ _ _ _ C1 Hj) as [[-> ->]|[Hne Hj']]; [auto|].
    pose proof (W4 j d Hj' Hu). lia.
  - lia.
  - intros j k d e Hj Hk Hd He E.
    destruct (lookup_change _ _ _ _ _ _ C1 Hj) as [[-> ->]|[Hne Hj']], (lookup_change _ _ _ _ _ _ C1 Hk) as [[-> ->]|[Hne' Hk']]; try done.
    + by destruct (C6 k e Hd Hne' Hk' He).
    + by destruct (C6 j d He Hne Hj' Hd).
    + by apply (W6 j k d e).
  - intros j d q Hj Hp. destruct (lookup_change _ _ _ _ _ _ C1 Hj) as [[-> ->]|[Hne Hj']].
    + destruct (C7 q Hp) as (H1 & H2 & e & He & Hl). split_and!; try done. by eapply live_change.
    + destruct (W7 j d q Hj' Hp) as (H1 & H2 & e & He & Hl). split_and!; try done. by eapply live_change.
  - intros j d Hj. destruct (lookup_change _ _ _ _ _ _ C1 Hj) as [[-> ->]|[Hne Hj']]; [done|]. eauto.
  - intros j d Hj. destruct (lookup_change _ _ _ _ _ _ C1 Hj) as [[-> ->]|[Hne Hj']]; [auto|]. eauto.
  - destruct C10 as [(k & d & Hk & Hd & Hl)|[[Hk Hl]|Hs]].
    + left. destruct (live_change _ _ _ _ _ _ _ _ Hc Hd Hl) as (d' & Hd' & Hl'). eauto.
    + left. exists i, c'. split_and!; try done. apply list_lookup_insert_eq. by eapply lookup_lt_Some.
    + destruct W9 as [(k & d & Hk & Hd & Hl)|W9].
      * left. destruct (live_change _ _ _ _ _ _ _ _ Hc Hd Hl) as (d' & Hd' & Hl'). eauto.
      * right. intros j d Hj. destruct (lookup_change _ _ _ _ _ _ C1 Hj) as [[-> ->]|[Hne Hj']]; eauto.
  - intros k Hk. destruct (decide (k = i)) as [->|Hne].
    + exists c'. rewrite list_lookup_insert_eq by (by eapply lookup_lt_Some). split; [done|]. by apply C11.
    + rewrite list_lookup_insert_ne by done. by apply W10.
  - intros q d Hq Hs Hch j e Hj Hp Hz.
    assert (exists e0, pt_procs t !! j = Some e0 /\ c_parent e0 = Some q /\ c_state e0 = ZOMBIE) as (e0 & Hj0 & Hp0 & Hz0).
    { destruct (lookup_change _ _ _ _ _ _ C1 Hj) as [[-> ->]|[Hne Hj']]; [|eauto].
      destruct (C13 Hz) as [G1 G2]. exists c. rewrite <- G2. done. }
    destruct (lookup_change _ _ _ _ _ _ C1 Hq) as [[-> ->]|[Hne Hq']].
    + by apply (C12 Hs Hch j e0).
    + by apply (W11 q d Hq' Hs Hch j e0).
Qed.

(** Entries that only move between the live states. *)
Lemma change_live t i c c' cur' :
  wf t -> pt_procs t !! i = Some c -> live (c_state c) = true -> live (c_state c') = true ->
  c_pid c' = c_pid c -> c_parent c' = c_parent c ->
  (c_state c' = RUNNING <-> cur' = Some i) -> (forall j, j ≠ i -> cur' = Some j <-> pt_cur t = Some j) ->
  (c_state c' = SLEEPING -> c_chan c' = ChProc i -> no_zombie_child t i) ->
  change_ok t i c c' cur' (pt_nextpid t).
Proof.
  intros [W1 W2 W3 W4 W5 W6 W7 WS W8 W9 W10 W11] Hi Hl Hl' Ep Epar Hr Hcur Hw.
  assert (c_state c ≠ UNUSED /\ c_state c ≠ EMBRYO /\ c_state c ≠ ZOMBIE) as (U1 & U2 & U3) by (by destruct (c_state c)).
  assert (c_state c' ≠ UNUSED /\ c_state c' ≠ EMBRYO /\ c_state c' ≠ ZOMBIE) as (V1 & V2 & V3) by (by destruct (c_state c')).
  split; try done.
  - intros _. rewrite Ep. by apply (W4 i).
  - intros j d _ Hne Hj Hd. rewrite Ep. intros E. apply Hne. by apply (W6 j i d c).
  - intros q. rewrite Epar. intros Hq. destruct (W7 i c q Hi Hq) as (_ & _ & d & Hd & Hld). eauto.
  - rewrite Epar. by apply (WS i c).
  - intros _ _ Hne. rewrite Epar. by apply (W8 i c).
  - left. destruct W9 as [W9|W9]; [done|]. by destruct (W9 i c Hi).
  - intros Hk. rewrite Epar. destruct (W10 i Hk) as (d & Hd & _ & Hp). split; [by right|]. congruence.
Qed.

(** A process that runs lives, and then so does init. *)
Lemma wf_cur_live t i c : wf t -> pt_procs t !! i = Some c -> pt_cur t = Some i -> live (c_state c) = true.
Proof. intros Hw Hi Hc. apply (w_run _ Hw i c Hi) in Hc. by rewrite Hc. Qed.
Lemma wf_booted t i c : wf t -> pt_procs t !! i = Some c -> c_state c ≠ UNUSED -> c_state c ≠ EMBRYO ->
  exists k d, pt_init t = Some k /\ pt_procs t !! k = Some d /\ live (c_state d) = true.
Proof. intros Hw Hi H1 H2. destruct (w_boot _ Hw) as [|H]; [done|]. by destruct (H i c Hi). Qed.

(** *** Waking up *)

(** The entries of [t'] are those of [t], some of them woken up; each woken
    one slept on [ch]. *)
Definition woken (t t' : ptable) : Prop :=
  pt_cur t' = pt_cur t /\ pt_nextpid t' = pt_nextpid t /\ pt_init t' = pt_init t /\
  length (pt_procs t') = length (pt_procs t) /\
  forall i c', pt_procs t' !! i = Some c' -> exists c, pt_procs t !! i = Some c /\
    (c' = c \/ (c_state c = SLEEPING /\ c' = {| c with c_state := RUNNABLE |})).

Lemma woken_inv t t' i c : woken t t' -> pt_procs t !! i = Some c -> exists c', pt_procs t' !! i = Some c' /\
  (c' = c \/ (c_state c = SLEEPING /\ c' = {| c with c_state := RUNNABLE |})).
Proof.
  intros (_ & _ & _ & El & H) Hi. destruct (lookup_lt_is_Some_2 (pt_procs t') i) as [c' Hc'].
  { rewrite El. by eapply lookup_lt_Some. }
  exists c'. split; [done|]. destruct (H i c' Hc') as (c0 & Hc0 & Hd). rewrite Hi in Hc0. by injection Hc0 as <-.
Qed.

Lemma wf_woken t t' : wf t -> woken t t' -> wf t'.
Proof.
  intros [W1 W2 W3 W4 W5 W6 W7 WS W8 W9 W10 W11] Hw. pose proof Hw as (E1 & E2 & E3 & El & H).
  assert (forall i c', pt_procs t' !! i = Some c' -> exists c, pt_procs t !! i = Some c /\
    c_pid c' = c_pid c /\ c_parent c' = c_parent c /\ c_chan c' = c_chan c /\
    live (c_state c') = live (c_state c) /\ (c_state c' = SLEEPING -> c_state c = SLEEPING) /\
    (forall st, st ≠ SLEEPING -> st ≠ RUNNABLE -> c_state c' = st <-> c_state c = st)) as Hb.
  { intros i c' Hi. destruct (H i c' Hi) as (c & Hc & [->|[Hs ->]]); exists c; (split; [done|]); cbn; rewrite ?Hs; split_and!; done. }
  assert (forall i c', pt_procs t' !! i = Some c' -> c_state c' ≠ UNUSED -> exists c, pt_procs t !! i = Some c /\ c_state c ≠ UNUSED /\ c_pid c' = c_pid c) as Hp.
  { intros i c' Hi Hu. destruct (Hb i c' Hi) as (c & Hc & Ep & _ & _ & _ & _ & Hst). exists c. by rewrite <- (Hst UNUSED). }
  assert (forall k, (exists d, pt_procs t !! k = Some d /\ live (c_state d) = true) ->
    exists d, pt_procs t' !! k = Some d /\ live (c_state d) = true) as Hl.
  { intros k (d & Hd & Hl). destruct (woken_inv _ _ _ _ Hw Hd) as (d' & Hd' & [->|[_ ->]]); eauto. }
  split.
  - by rewrite El.
  - intros i. rewrite E1. intros (c & Hc)%W2. destruct (woken_inv _ _ _ _ Hw Hc) as (c' & Hc' & _). eauto.
  - intros i c' Hi. rewrite E1. destruct (Hb i c' Hi) as (c & Hc & _ & _ & _ & _ & _ & Hst).
    rewrite (Hst RUNNING) by done. by apply W3.
  - intros i c' Hi Hu. rewrite E2. destruct (Hp i c' Hi Hu) as (c & Hc & Hcu & ->). by apply (W4 i).
  - by rewrite E2.
  - intros i j c' d' Hi Hj Hc Hd E. destruct (Hp i c' Hi Hc) as (c & G1 & G2 & G3), (Hp j d' Hj Hd) as (d & F1 & F2 & F3).
    apply (W6 i j c d); congruence.
  - intros i c' q Hi. destruct (Hb i c' Hi) as (c & Hc & _ & -> & _ & _ & _ & Hst). intros Hq.
    destruct (W7 i c q Hc Hq) as (H1 & H2 & Hd). rewrite (Hst UNUSED), (Hst EMBRYO) by done. eauto.
  - intros i c' Hi. destruct (Hb i c' Hi) as (c & Hc & _ & -> & _). by apply (WS i c).
  - intros i c' Hi. destruct (Hb i c' Hi) as (c & Hc & _ & -> & _ & _ & _ & Hst).
    rewrite (Hst UNUSED), (Hst EMBRYO), E3 by done. by apply W8.
  - destruct W9 as [(k & d & Hk & Hd)|W9].
    + left. destruct (Hl k ltac:(eauto)) as (d' & Hd'). exists k, d'. rewrite E3. tauto.
    + right. intros i c' Hi. destruct (Hb i c' Hi) as (c & Hc & _ & _ & _ & _ & _ & Hst).
      rewrite (Hst UNUSED), (Hst EMBRYO) by done. eauto.
  - intros k. rewrite E3. intros Hk. destruct (W10 k Hk) as (d & Hd & Hs & Hpar).
    destruct (woken_inv _ _ _ _ Hw Hd) as (d' & Hd' & [->|[Hsl ->]]); [eauto|]. exists {| d with c_state := RUNNABLE |}. split_and!; auto.
  - intros q d' Hq Hs Hch j e' Hj Hpar Hz.
    destruct (Hb q d' Hq) as (d & Hd & _ & _ & Ech & _ & Hsl & _), (Hb j e' Hj) as (e & He & _ & Epar & _ & _ & _ & Hst).
    apply (W11 q d Hd (Hsl Hs)) with j e; [congruence|done|congruence|by apply (Hst ZOMBIE)].
Qed.

Lemma woken_wake ch t : woken t (wake ch t).
Proof.
  split_and!; cbn; try done; [by rewrite length_fmap|].
  intros i c'. rewrite list_lookup_fmap. destruct (pt_procs t !! i) as [c|]; [|done]. cbn. intros [= <-]. exists c.
  split; [done|]. unfold wake_core. destruct (bool_decide (c_state c = SLEEPING)) eqn:E; cbn; [|by left].
  apply bool_decide_eq_true in E. destruct (bool_decide (c_chan c = ch)); [by right|by left].
Qed.
(** Nobody sleeps on the channel any more. *)
Lemma wake_done ch t i c : pt_procs (wake ch t) !! i = Some c -> c_state c = SLEEPING -> c_chan c ≠ ch.
Proof.
  cbn. rewrite list_lookup_fmap. destruct (pt_procs t !! i) as [c0|]; [|done]. cbn. intros [= <-]. unfold wake_core.
  destruct (bool_decide (c_state c0 = SLEEPING)) eqn:E1; cbn.
  - destruct (bool_decide (c_chan c0 = ch)) eqn:E2; cbn; [done|]. by apply bool_decide_eq_false in E2.
  - intros Hs. by apply bool_decide_eq_false in E1.
Qed.

(** *** Handing children over *)

(** The result of [adopt_one] for the entries of [js]. *)
Record adopted (i : nat) (js : list nat) (t t' : ptable) : Prop := {
  ad_rest : pt_cur t' = pt_cur t /\ pt_nextpid t' = pt_nextpid t /\ pt_init t' = pt_init t /\
            length (pt_procs t') = length (pt_procs t);
  ad_core : forall j c', pt_procs t' !! j = Some c' -> exists c, pt_procs t !! j = Some c /\
    c_pid c' = c_pid c /\ c_chan c' = c_chan c /\
    (c_state c' = c_state c \/ (c_state c = SLEEPING /\ c_state c' = RUNNABLE)) /\
    c_parent c' = if decide (j ∈ js /\ c_parent c = Some i) then pt_init t else c_parent c;
  ad_wait : forall j c k d', j ∈ js -> pt_procs t !! j = Some c -> c_parent c = Some i -> c_state c = ZOMBIE ->
    pt_init t = Some k -> pt_procs t' !! k = Some d' -> c_state d' = SLEEPING -> c_chan d' ≠ ChProc k
}.

Lemma adopted_nil i t : adopted i [] t t.
Proof.
  split; [done| |].
  - intros j c Hj. exists c. rewrite decide_False by (intros [H _]; by apply not_elem_of_nil in H).
    split_and!; try done. by left.
  - intros j c k d' H. by apply not_elem_of_nil in H.
Qed.

Lemma adopted_fwd i js t t' j c : adopted i js t t' -> pt_procs t !! j = Some c -> exists c', pt_procs t' !! j = Some c'.
Proof.
  intros Ha Hj. apply lookup_lt_is_Some_2. destruct (ad_rest _ _ _ _ Ha) as (_ & _ & _ & ->). by eapply lookup_lt_Some.
Qed.

(** One more slot [j], in the table [t1] where those of [js] are done. *)
Section AdoptOne.
Context (i j : nat) (js : list nat) (t t1 : ptable).
Hypothesis Hj : j ∉ js.
Hypothesis Ha : adopted i js t t1.

Lemma adopted_in x : x ≠ j -> x ∈ js ++ [j] <-> x ∈ js.
Proof. intros Hx. rewrite elem_of_app, list_elem_of_singleton. tauto. Qed.

Lemma adopted_other x c' : x ≠ j -> pt_procs t1 !! x = Some c' -> exists c, pt_procs t !! x = Some c /\
  c_pid c' = c_pid c /\ c_chan c' = c_chan c /\
  (c_state c' = c_state c \/ (c_state c = SLEEPING /\ c_state c' = RUNNABLE)) /\
  c_parent c' = if decide (x ∈ js ++ [j] /\ c_parent c = Some i) then pt_init t else c_parent c.
Proof.
  intros Hx Hc'. destruct (ad_core _ _ _ _ Ha x c' Hc') as (c & Hc & H). exists c.
  by rewrite (decide_ext _ (x ∈ js /\ c_parent c = Some i)) by (by rewrite adopted_in).
Qed.

(** A slot that is not a child stays as it is. *)
Lemma adopted_skip : (forall c, pt_procs t1 !! j = Some c -> c_parent c ≠ Some i) -> adopted i (js ++ [j]) t t1.
Proof.
  intros Hn. pose proof Ha as [A1 A5 A6]. split; [done| |].
  - intros x c' Hx. destruct (decide (x = j)) as [->|Hne]; [|by apply adopted_other].
    destruct (A5 j c' Hx) as (c & Hc & E1 & E2 & E3 & E4). rewrite decide_False in E4 by tauto. exists c.
    rewrite decide_False by (intros [_ ?]; specialize (Hn c' Hx); congruence). by split_and!.
  - intros x c k d' Hx Hc Hp. assert (x ≠ j) as Hne.
    { intros ->. destruct (adopted_fwd _ _ _ _ _ _ Ha Hc) as [c' H]. destruct (A5 j c' H) as (c0 & Hc0 & _ & _ & _ & E4).
      rewrite decide_False in E4 by tauto. specialize (Hn c' H). congruence. }
    apply (A6 x c k d'); [by apply adopted_in|done|done].
Qed.

(** A child gets the first process as its parent. *)
Definition given : ptable := set_core j (fun c => {| c with c_parent := pt_init t |}) t1.
Context (cj : core).
Hypothesis Ej : pt_procs t1 !! j = Some cj.
Hypothesis Ep : c_parent cj = Some i.

Lemma given_core x c' : pt_procs given !! x = Some c' -> exists c, pt_procs t !! x = Some c /\
  c_pid c' = c_pid c /\ c_chan c' = c_chan c /\
  (c_state c' = c_state c \/ (c_state c = SLEEPING /\ c_state c' = RUNNABLE)) /\
  c_parent c' = if decide (x ∈ js ++ [j] /\ c_parent c = Some i) then pt_init t else c_parent c.
Proof.
  intros Hx. cbn in Hx. destruct (decide (x = j)) as [->|Hne].
  - rewrite list_lookup_alter_eq, Ej in Hx. injection Hx as <-. destruct (ad_core _ _ _ _ Ha j cj Ej) as (c0 & Hc0 & E1 & E2 & E3 & E4).
    rewrite decide_False in E4 by tauto. exists c0.
    rewrite decide_True; [by split_and!|]. rewrite elem_of_app, list_elem_of_singleton. split; [by right|congruence].
  - rewrite list_lookup_alter_ne in Hx by done. by apply adopted_other.
Qed.
Lemma given_length : length (pt_procs given) = length (pt_procs t1).
Proof. cbn. apply length_alter. Qed.

Lemma adopted_living : c_state cj ≠ ZOMBIE -> adopted i (js ++ [j]) t given.
Proof.
  intros Hnz. pose proof Ha as [A1 A5 A6]. split; [rewrite given_length; done|exact given_core|].
  intros x c k d' Hx Hc Hp Hz Hk Hd' Hs. destruct (decide (x = j)) as [->|Hne].
  - exfalso. destruct (A5 j cj Ej) as (c0 & Hc0 & _ & _ & E3 & _). assert (c = c0) as -> by congruence. destruct E3 as [E3|[E3 _]]; congruence.
  - cbn in Hd'. destruct (decide (k = j)) as [->|Hkj].
    + rewrite list_lookup_alter_eq, Ej in Hd'. injection Hd' as <-. cbn in *. apply (A6 x c j cj); try done. by apply adopted_in.
    + rewrite list_lookup_alter_ne in Hd' by done. apply (A6 x c k d'); try done. by apply adopted_in.
Qed.
Lemma adopted_zombie : adopted i (js ++ [j]) t (wake (chan_of (pt_init t)) given).
Proof.
  pose proof (ad_rest _ _ _ _ Ha) as (A1 & A2 & A3 & A4). split.
  - cbn. rewrite length_fmap, length_alter. done.
  - intros x c' Hx. destruct (woken_wake (chan_of (pt_init t)) given) as (_ & _ & _ & _ & Hw).
    destruct (Hw x c' Hx) as (c2 & Hc2 & Hd). destruct (given_core x c2 Hc2) as (c & Hc & F1 & F2 & F3 & F4).
    exists c. split; [done|]. destruct Hd as [->|[Hs ->]]; cbn; [done|]. split_and!; try done.
    destruct F3 as [F3|[F3 F3']]; [|congruence]. right. by rewrite <- F3.
  - intros x c k d' _ _ _ _ Hk Hd' Hs. rewrite Hk in Hd'. by apply (wake_done _ _ _ _ Hd' Hs).
Qed.
End AdoptOne.

Lemma adopted_one i js t t1 j :
  pt_init t ≠ Some i -> (j ∉ js) -> adopted i js t t1 -> adopted i (js ++ [j]) t (adopt_one i t1 j).
Proof.
  intros Hi Hj Ha. destruct (ad_rest _ _ _ _ Ha) as (_ & _ & A3 & _). unfold adopt_one.
  destruct (pt_procs t1 !! j) as [cj|] eqn:Ej; [|apply adopted_skip; [done|done|congruence]].
  destruct (bool_decide (c_parent cj = Some i)) eqn:Ep.
  - apply bool_decide_eq_true in Ep. rewrite A3. destruct (bool_decide (c_state cj = ZOMBIE)) eqn:Ez.
    + by apply (adopted_zombie i j js t t1 Hj Ha cj).
    + apply bool_decide_eq_false in Ez. by apply (adopted_living i j js t t1 Hj Ha cj).
  - apply bool_decide_eq_false in Ep. apply adopted_skip; [done|done|congruence].
Qed.

Lemma adopted_list i rest : forall js t t1,
  pt_init t ≠ Some i -> NoDup (js ++ rest) -> adopted i js t t1 ->
  adopted i (js ++ rest) t (fold_left (adopt_one i) rest t1).
Proof.
  induction rest as [|j rest IH]; intros js t t1 Hi Hnd Ha; [by rewrite app_nil_r|]. cbn.
  rewrite (cons_middle j js rest), app_assoc in *. apply IH; [done|done|].
  apply adopted_one; [done| |done]. apply NoDup_app in Hnd as (Hnd & _). apply NoDup_app in Hnd as (_ & Hd & _).
  intros Hin. by apply (Hd j Hin), list_elem_of_singleton.
Qed.
Lemma adopt_spec i t : pt_init t ≠ Some i -> adopted i (indices NPROC) t (adopt i t).
Proof. intros Hi. apply (adopted_list i (indices NPROC) [] t t); [done|apply NoDup_seq|apply adopted_nil]. Qed.

(** ** The steps preserve the invariant *)

Lemma wf_boot_table : wf boot_table.
Proof.
  assert (forall i c, pt_procs boot_table !! i = Some c -> c = mk_core UNUSED 0 None NoChan 0) as H.
  { intros i c Hc. cbn [boot_table pt_procs] in Hc. by apply lookup_replicate in Hc as [-> _]. }
  split; try done.
  - intros i c ->%H. done.
  - intros i c ->%H. done.
  - intros i j c d ->%H. done.
  - intros i c q ->%H. done.
  - intros i c ->%H. done.
  - intros i c ->%H. done.
  - right. intros i c ->%H. by left.
  - intros q d ->%H. done.
Qed.

(** The table after the process [i] exited; [t1] is the table after its
    parent was woken up, [k] is init. *)
Record exited (i k : nat) (t1 t' : ptable) : Prop := {
  ex_rest : pt_cur t' = None /\ pt_nextpid t' = pt_nextpid t1 /\ pt_init t' = Some k /\
            length (pt_procs t') = length (pt_procs t1);
  ex_core : forall j c', pt_procs t' !! j = Some c' -> exists c1, pt_procs t1 !! j = Some c1 /\
    c_pid c' = c_pid c1 /\ c_chan c' = c_chan c1 /\
    c_parent c' = (if decide (c_parent c1 = Some i) then Some k else c_parent c1) /\
    c_state c' = (if decide (j = i) then ZOMBIE else c_state c') /\
    (j ≠ i -> c_state c' = c_state c1 \/ (c_state c1 = SLEEPING /\ c_state c' = RUNNABLE));
  ex_wait : forall j c d', pt_procs t1 !! j = Some c -> c_parent c = Some i -> c_state c = ZOMBIE ->
    pt_procs t' !! k = Some d' -> c_state d' = SLEEPING -> c_chan d' ≠ ChProc k
}.

Lemma exited_intro t1 i k :
  wf t1 -> pt_init t1 = Some k -> k ≠ i ->
  exited i k t1 {| (set_core i (fun c => {| c with c_state := ZOMBIE |}) (adopt i t1)) with pt_cur := None |}.
Proof.
  intros Hwf Hk Hki. assert (pt_init t1 ≠ Some i) as Hinit by congruence.
  pose proof (adopt_spec i t1 Hinit) as [(A1 & A2 & A3 & A4) A5 A6]. set (t2 := adopt i t1) in *.
  split; cbn [pt_cur pt_nextpid pt_init pt_procs set_core].
  - split_and!; [done|done|congruence|by rewrite length_alter].
  - intros j c' Hj.
    assert (forall c2, pt_procs t2 !! j = Some c2 -> exists c1, pt_procs t1 !! j = Some c1 /\
      c_pid c2 = c_pid c1 /\ c_chan c2 = c_chan c1 /\
      (c_state c2 = c_state c1 \/ (c_state c1 = SLEEPING /\ c_state c2 = RUNNABLE)) /\
      c_parent c2 = (if decide (c_parent c1 = Some i) then Some k else c_parent c1)) as Hc2.
    { intros c2 H2. destruct (A5 j c2 H2) as (c1 & Hc1 & E1 & E2 & E3 & E4). exists c1. split_and!; try done.
      rewrite E4, Hk. assert (j ∈ indices NPROC) as Hin.
      { apply elem_of_seq. apply lookup_lt_Some in Hc1. rewrite (w_len _ Hwf) in Hc1. lia. }
      destruct (decide (c_parent c1 = Some i)); [by rewrite decide_True|by rewrite decide_False by tauto]. }
    destruct (decide (j = i)) as [->|Hne].
    + rewrite list_lookup_alter_eq in Hj. destruct (pt_procs t2 !! i) as [c2|] eqn:E2; [|done]. injection Hj as <-.
      destruct (Hc2 c2 eq_refl) as (c1 & Hc1 & G1 & G2 & _ & G4). exists c1. split_and!; done.
    + rewrite list_lookup_alter_ne in Hj by done. destruct (Hc2 c' Hj) as (c1 & Hc1 & G1 & G2 & G3 & G4).
      exists c1. split_and!; done.
  - intros j c d' Hj Hp Hz Hd'. rewrite list_lookup_alter_ne in Hd' by done.
    apply (A6 j c k d'); try done. apply elem_of_seq. apply lookup_lt_Some in Hj. rewrite (w_len _ Hwf) in Hj. lia.
Qed.

Section Exit.
Context (t1 t' : ptable) (i k : nat) (c dk : core).
Hypothesis Hwf : wf t1.
Hypothesis Hi : pt_procs t1 !! i = Some c.
Hypothesis Hcur : pt_cur t1 = Some i.
Hypothesis Hk : pt_init t1 = Some k.
Hypothesis Hki : k ≠ i.
Hypothesis Hdk : pt_procs t1 !! k = Some dk.
Hypothesis Hlk : live (c_state dk) = true.
Hypothesis Hex : exited i k t1 t'.
(** The parent does not wait for [i] any more. *)
Hypothesis Hparent : forall q d, c_parent c = Some q -> pt_procs t1 !! q = Some d -> c_state d = SLEEPING -> c_chan d ≠ ChProc q.

Lemma exit_running : c_state c = RUNNING.
Proof. by apply (w_run _ Hwf i c Hi). Qed.

Lemma exit_live q d : q ≠ i -> pt_procs t1 !! q = Some d -> live (c_state d) = true ->
  exists d', pt_procs t' !! q = Some d' /\ live (c_state d') = true.
Proof.
  intros Hne Hq Hl. destruct (lookup_lt_is_Some_2 (pt_procs t') q) as [d' Hd'].
  { destruct (ex_rest _ _ _ _ Hex) as (_ & _ & _ & ->). by eapply lookup_lt_Some. }
  exists d'. split; [done|]. destruct (ex_core _ _ _ _ Hex q d' Hd') as (d1 & Hd1 & _ & _ & _ & _ & Hs).
  assert (d1 = d) as -> by congruence. destruct (Hs Hne) as [->|[_ ->]]; done.
Qed.

(** The states that [i]'s exit does not affect. *)
Lemma exit_state j c' : pt_procs t' !! j = Some c' -> exists c1, pt_procs t1 !! j = Some c1 /\
  (forall st, st = UNUSED \/ st = EMBRYO -> c_state c' = st <-> c_state c1 = st).
Proof.
  intros Hj. destruct (ex_core _ _ _ _ Hex j c' Hj) as (c1 & Hc1 & _ & _ & _ & Ez & Hs). exists c1. split; [done|].
  intros st Hst. destruct (decide (j = i)) as [->|Hne].
  - assert (c1 = c) as -> by congruence. rewrite exit_running, Ez. destruct Hst as [-> | ->]; done.
  - destruct (Hs Hne) as [->|[-> ->]]; [done|]. destruct Hst as [-> | ->]; done.
Qed.

Lemma exit_wait : forall q d, pt_procs t' !! q = Some d -> c_state d = SLEEPING -> c_chan d = ChProc q -> no_zombie_child t' q.
Proof.
  intros q d Hq Hsl Hch j e Hj Hp Hz.
  destruct (ex_core _ _ _ _ Hex q d Hq) as (d1 & Hd1 & _ & Ec & _ & Ez & Hs).
  assert (q ≠ i) as Hqi by (intros ->; rewrite decide_True in Ez by done; congruence).
  assert (c_state d1 = SLEEPING) as Hs1 by (destruct (Hs Hqi) as [|[_ ?]]; congruence).
  destruct (ex_core _ _ _ _ Hex j e Hj) as (e1 & He1 & _ & _ & Ep & Eze & He). rewrite Ep in Hp.
  destruct (decide (j = i)) as [->|Hji].
  - assert (e1 = c) as -> by congruence. rewrite decide_False in Hp by apply (w_self _ Hwf i c Hi).
    apply (Hparent q d1 Hp Hd1 Hs1). congruence.
  - assert (c_state e1 = ZOMBIE) as Hz1 by (destruct (He Hji) as [|[_ ?]]; congruence).
    destruct (decide (c_parent e1 = Some i)) as [Epi|Epi].
    + injection Hp as <-. by apply (ex_wait _ _ _ _ Hex j e1 d).
    + apply (w_wait _ Hwf q d1 Hd1 Hs1) with j e1; congruence.
Qed.

Lemma wf_exited : wf t'.
Proof.
  pose proof Hwf as [W1 W2 W3 W4 W5 W6 W7 WS W8 W9 W10 W11].
  destruct (ex_rest _ _ _ _ Hex) as (R1 & R2 & R3 & R4). pose proof exit_running as Hrun. split.
  - by rewrite R4.
  - by rewrite R1.
  - intros j c' Hj. rewrite R1. split; [|done]. intros Hr. exfalso.
    destruct (ex_core _ _ _ _ Hex j c' Hj) as (c1 & Hc1 & _ & _ & _ & Ez & Hs).
    destruct (decide (j = i)) as [->|Hne]; [congruence|].
    assert (c_state c1 = RUNNING) as Hr1 by (destruct (Hs Hne) as [|[_ ?]]; congruence).
    apply (W3 j c1 Hc1) in Hr1. congruence.
  - intros j c' Hj Hu. destruct (ex_core _ _ _ _ Hex j c' Hj) as (c1 & Hc1 & -> & _).
    destruct (exit_state j c' Hj) as (c2 & Hc2 & Hst). assert (c2 = c1) as -> by congruence.
    rewrite R2. apply (W4 j); [done|]. by rewrite <- (Hst UNUSED) by auto.
  - by rewrite R2.
  - intros j1 j2 c1' c2' Hj1 Hj2 Hu1 Hu2.
    destruct (exit_state _ _ Hj1) as (c1 & Hc1 & S1), (exit_state _ _ Hj2) as (c2 & Hc2 & S2).
    destruct (ex_core _ _ _ _ Hex _ _ Hj1) as (d1 & Hd1 & -> & _), (ex_core _ _ _ _ Hex _ _ Hj2) as (d2 & Hd2 & -> & _).
    assert (d1 = c1) as -> by congruence. assert (d2 = c2) as -> by congruence.
    rewrite (S1 UNUSED) in Hu1 by auto. rewrite (S2 UNUSED) in Hu2 by auto. by apply (W6 j1 j2 c1 c2).
  - intros j c' q Hj. destruct (exit_state _ _ Hj) as (c1 & Hc1 & S1).
    destruct (ex_core _ _ _ _ Hex _ _ Hj) as (d1 & Hd1 & _ & _ & -> & _). assert (d1 = c1) as -> by congruence.
    rewrite (S1 UNUSED), (S1 EMBRYO) by auto. case_decide as Epi.
    + intros [= <-]. destruct (W7 j c1 i Hc1 Epi) as (U1 & U2 & _). split_and!; try done. by apply (exit_live k dk).
    + intros Hq. destruct (W7 j c1 q Hc1 Hq) as (U1 & U2 & d & Hd & Hl). split_and!; try done.
      apply (exit_live q d); [congruence|done|done].
  - intros j c' Hj. destruct (ex_core _ _ _ _ Hex _ _ Hj) as (d1 & Hd1 & _ & _ & -> & _). case_decide as Epi.
    + intros [= ->]. destruct (W10 j Hk) as (d & Hd & _ & Hp). congruence.
    + by apply (WS j d1).
  - intros j c' Hj U1 U2 Hne. destruct (exit_state _ _ Hj) as (c1 & Hc1 & S1).
    destruct (ex_core _ _ _ _ Hex _ _ Hj) as (d1 & Hd1 & _ & _ & -> & _). assert (d1 = c1) as -> by congruence.
    case_decide; [eauto|]. rewrite (S1 UNUSED) in U1 by auto. rewrite (S1 EMBRYO) in U2 by auto.
    apply (W8 j c1); congruence.
  - left. destruct (exit_live k dk Hki Hdk Hlk) as (d' & Hd' & Hl'). eauto.
  - intros k' Hk'. assert (k' = k) as -> by congruence. destruct (exit_live k dk Hki Hdk Hlk) as (d' & Hd' & Hl').
    exists d'. split_and!; try done; [by right|].
    destruct (ex_core _ _ _ _ Hex _ _ Hd') as (d1 & Hd1 & _ & _ & -> & _).
    destruct (W10 k Hk) as (d2 & Hd2 & _ & Hpn). assert (d2 = d1) as -> by congruence. by rewrite Hpn.
  - apply exit_wait.
Qed.

End Exit.

Lemma wf_exit t i c :
  wf t -> pt_procs t !! i = Some c -> pt_cur t = Some i -> pt_init t ≠ Some i ->
  wf {| (set_core i (fun c => {| c with c_state := ZOMBIE |}) (adopt i (wake (chan_of (c_parent c)) t)))
        with pt_cur := None |}.
Proof.
  intros Hwf Hi Hcur Hinit. set (t1 := wake (chan_of (c_parent c)) t).
  assert (wf t1) as Hwf1 by (by eapply wf_woken, woken_wake).
  assert (c_state c = RUNNING) as Hrun by (by apply (w_run _ Hwf i c Hi)).
  assert (pt_procs t1 !! i = Some c) as Hi1.
  { cbn. rewrite list_lookup_fmap, Hi. cbn. f_equal. unfold wake_core. by rewrite Hrun. }
  destruct (wf_booted t1 i c Hwf1 Hi1) as (k & dk & Hk & Hdk & Hlk); [by rewrite Hrun..|].
  assert (k ≠ i) as Hki by (change (pt_init t1) with (pt_init t) in Hk; congruence).
  eapply (wf_exited t1 _ i k c dk); try done; [by apply exited_intro|].
  intros q d Hq Hd Hs. rewrite <- (eq_refl : chan_of (Some q) = ChProc q), <- Hq. by apply (wake_done _ t q d).
Qed.

(** A slot is taken for a new process, or given back. *)
Lemma wf_alloc t i c :
  wf t -> pt_procs t !! i = Some c -> c_state c = UNUSED ->
  change_ok t i c {| c with c_state := EMBRYO; c_pid := pt_nextpid t |} (pt_cur t) (pt_nextpid t + 1).
Proof.
  intros Hwf Hi Hs. pose proof Hwf as [W1 W2 W3 W4 W5 W6 W7 WS W8 W9 W10 W11].
  assert (c_parent c = None) as Hp.
  { destruct (c_parent c) as [q|] eqn:E; [|done]. by destruct (W7 i c q Hi E). }
  split; cbn; try done; try lia.
  - split; [done|]. intros Hc. apply (W3 i c Hi) in Hc. congruence.
  - intros j d _ _ Hj Hd. pose proof (W4 j d Hj Hd). lia.
  - intros q E. congruence.
  - congruence.
  - by rewrite Hs.
  - by right; right; right.
  - intros Hk. split; [by left|]. destruct (W10 i Hk) as (d & Hd & [?|?] & ?); congruence || (destruct (c_state c); done).
Qed.

(** The current process and the next pid do not change. *)
Lemma wf_set t i c c' :
  wf t -> change_ok t i c c' (pt_cur t) (pt_nextpid t) -> wf {| t with pt_procs := <[i := c']> (pt_procs t) |}.
Proof. intros Hwf Hc. exact (wf_change t i c c' (pt_cur t) (pt_nextpid t) Hwf Hc). Qed.
(** The processor is given to [i] or taken from it. *)
Lemma wf_switch t i c c' cur' :
  wf t -> change_ok t i c c' cur' (pt_nextpid t) ->
  wf {| t with pt_procs := <[i := c']> (pt_procs t); pt_cur := cur' |}.
Proof. intros Hwf Hc. exact (wf_change t i c c' cur' (pt_nextpid t) Hwf Hc). Qed.

Section Steps.
Context (t : ptable) (i : nat) (c : core).
Hypothesis Hwf : wf t.
Hypothesis Hi : pt_procs t !! i = Some c.

Lemma idle_not_cur : c_state c ≠ RUNNING -> pt_cur t ≠ Some i.
Proof. intros Hs E. by apply (w_run _ Hwf i c Hi) in E. Qed.
Lemma embryo_no_parent : c_state c = EMBRYO -> c_parent c = None.
Proof. intros Hs. destruct (c_parent c) as [q|] eqn:E; [|done]. by destruct (w_parent _ Hwf i c q Hi E) as (_ & ? & _). Qed.
Lemma pid_unique j d : c_state c ≠ UNUSED -> j ≠ i -> pt_procs t !! j = Some d -> c_state d ≠ UNUSED -> c_pid d ≠ c_pid c.
Proof. intros Hs Hne Hj Hd E. apply Hne. by apply (w_uniq _ Hwf j i d c). Qed.

Lemma change_abandon : c_state c = EMBRYO -> pt_init t ≠ Some i ->
  change_ok t i c {| c with c_state := UNUSED |} (pt_cur t) (pt_nextpid t).
Proof.
  intros Hs Hk. pose proof (embryo_no_parent Hs) as Hp. pose proof (idle_not_cur ltac:(by rewrite Hs)).
  split; cbn; try done; try lia; try congruence; [by rewrite Hs|by right; right; left].
Qed.

Lemma change_boot : c_state c = EMBRYO -> pt_init t = Some i ->
  change_ok t i c {| c with c_state := RUNNABLE |} (pt_cur t) (pt_nextpid t).
Proof.
  intros Hs Hk. pose proof (embryo_no_parent Hs) as Hp. pose proof (idle_not_cur ltac:(by rewrite Hs)).
  split; cbn; try done; try lia; try congruence.
  - intros _. apply (w_pid _ Hwf i c Hi). by rewrite Hs.
  - intros j d _. apply pid_unique. by rewrite Hs.
  - by right; left.
  - intros _. split; [by right|done].
Qed.

Lemma change_birth me : c_state c = EMBRYO -> pt_cur t = Some me ->
  change_ok t i c {| c with c_state := RUNNABLE; c_parent := Some me |} (pt_cur t) (pt_nextpid t).
Proof.
  intros Hs Hc. destruct (w_cur _ Hwf me Hc) as (dm & Hm). pose proof (wf_cur_live _ _ _ Hwf Hm Hc) as Hlm.
  pose proof (idle_not_cur ltac:(by rewrite Hs)) as Hni.
  destruct (wf_booted t me dm Hwf Hm) as (k & dk & Hk & Hdk & Hlk); [by destruct (c_state dm)..|].
  assert (i ≠ k) as Hik by (intros ->; assert (dk = c) as -> by congruence; by rewrite Hs in Hlk).
  split; cbn; try done; try lia; try congruence.
  - intros _. apply (w_pid _ Hwf i c Hi). by rewrite Hs.
  - intros j d _. apply pid_unique. by rewrite Hs.
  - intros q [= <-]. split_and!; try done. eauto.
  - eauto.
  - left. eauto.
Qed.

Lemma change_kill :
  change_ok t i c {| c with c_killed := 1; c_state := if bool_decide (c_state c = SLEEPING) then RUNNABLE else c_state c |}
    (pt_cur t) (pt_nextpid t).
Proof.
  destruct (decide (c_state c = SLEEPING)) as [Hsl|Hsl].
  - rewrite bool_decide_eq_true_2 by done. apply change_live; cbn; try done; [by rewrite Hsl|].
    split; [done|]. intros E. by destruct (idle_not_cur ltac:(by rewrite Hsl) E).
  - rewrite bool_decide_eq_false_2 by done. split; cbn; try done; try lia.
    + by apply (w_run _ Hwf).
    + by apply (w_pid _ Hwf i).
    + intros j d. apply pid_unique.
    + intros q Hq. by apply (w_parent _ Hwf i c q).
    + by apply (w_self _ Hwf i c).
    + by apply (w_orphan _ Hwf i c).
    + destruct (w_boot _ Hwf) as [W9|W9]; [by left|]. right. right. by apply (W9 i c).
    + intros Hk. destruct (w_init _ Hwf i Hk) as (d & Hd & H1 & H2). assert (d = c) as -> by congruence. done.
Qed.

Lemma change_reap me : c_parent c = Some me -> c_state c = ZOMBIE ->
  change_ok t i c {| c with c_state := UNUSED; c_pid := 0; c_parent := None; c_killed := 0 |} (pt_cur t) (pt_nextpid t).
Proof.
  intros Hp Hs. pose proof (idle_not_cur ltac:(by rewrite Hs)). split; cbn; try done; try lia.
  - by rewrite Hs.
  - by right; right; left.
  - intros Hk. destruct (w_init _ Hwf i Hk) as (d & Hd & _ & Hpn). congruence.
Qed.

(** The current process changes to another live state. *)
Lemma change_cur c' cur' :
  pt_cur t = Some i -> live (c_state c') = true -> c_pid c' = c_pid c -> c_parent c' = c_parent c ->
  (c_state c' = RUNNING <-> cur' = Some i) -> (cur' = None \/ cur' = Some i) ->
  (c_state c' = SLEEPING -> c_chan c' = ChProc i -> no_zombie_child t i) ->
  change_ok t i c c' cur' (pt_nextpid t).
Proof.
  intros Hc Hl E1 E2 Hr Hcur Hw. apply change_live; try done; [by eapply wf_cur_live|].
  intros j Hne. rewrite Hc. destruct Hcur as [-> | ->]; split; congruence.
Qed.

Lemma wf_first : c_state c = EMBRYO -> pt_init t = None -> wf {| t with pt_init := Some i |}.
Proof.
  intros Hs Hk. pose proof Hwf as [W1 W2 W3 W4 W5 W6 W7 WS W8 W9 W10 W11]. split; try done.
  - intros j d Hj U1 U2 _. apply (W8 j d Hj U1 U2). by rewrite Hk.
  - destruct W9 as [(k & d & ? & _)|W9]; [congruence|by right].
  - intros k [= <-]. exists c. split_and!; [done|by left|]. by apply embryo_no_parent.
Qed.

End Steps.

Lemma wf_step t t' : tstep t t' -> wf t -> wf t'.
Proof.
  intros Hs Hwf.
  destruct Hs as [i c Hi Hs Hn|i c Hi Hs Hk|i c Hi Hs Hk|i c Hi Hs Hk|i c me Hi Hs Hc|ch|i c Hi|i c Hi Hs Hc|i c Hi Hc|i c ch Hi Hc Hz|i c Hi Hc|i c Hi Hc Hk|i c me Hi Hc Hp Hs].
  - by apply wf_change with c; [|apply wf_alloc].
  - by apply wf_set with c; [|apply change_abandon].
  - by apply wf_first with c.
  - by apply wf_set with c; [|apply change_boot].
  - by apply wf_set with c; [|apply change_birth].
  - by eapply wf_woken, woken_wake.
  - by apply wf_set with c; [|apply change_kill].
  - apply wf_switch with c; [done|]. apply change_live; cbn; try done; [by rewrite Hs|].
    intros j Hne. rewrite Hc. split; congruence.
  - apply wf_switch with c; [done|]. apply change_cur; cbn; auto; done.
  - apply wf_switch with c; [done|]. apply change_cur; cbn; auto; done.
  - apply wf_set with c; [done|]. apply change_cur; cbn; auto; try by apply (w_run _ Hwf).
    + by eapply wf_cur_live.
    + apply (w_run _ Hwf i c Hi) in Hc as E. congruence.
  - by apply wf_exit.
  - by apply wf_set with c; [|eapply change_reap].
Qed.

Lemma wf_steps t t' : rtc tstep t t' -> wf t -> wf t'.
Proof. induction 1 as [|? ? ? Hs _ IH]; [done|]. intros Hw. apply IH. by eapply wf_step. Qed.


(** ** Witnesses *)

