(* ===== verification/Proc.v ===== *)
(** Processes (proc.c): creation, exit and wait, sleep and wakeup, the
    scheduler, and the abstract process table that they implement.

    A kernel thread runs until it calls [swtch]; the operations that give up
    the processor are therefore modelled as the section before the switch and
    the section after it. *)

From S2P Require Import Prelude Mmu Memory Machine Kalloc PageTable Uvm Cow Replace Files Swap PTable.
From stdpp Require Import base gmap list strings relations.
From Stdlib Require Import ZArith Lia.
Open Scope Z_scope.

(** ** The abstract process table of a state *)

Definition core_of (p : proc) : core := mk_core (state p) (pid p) (parent p) (chan p) (killed p).
Definition table_of (s : kstate) : ptable :=
  mk_ptable (core_of <$> procs s) (curproc s) (nextpid s) (initproc s).

(** A computation that leaves the abstract process table alone when it
    returns. *)
Definition keeps {A} (m : M kstate A) : Prop :=
  forall s a s', m s = Ok a s' -> table_of s' = table_of s.

(** ** The file layer

    What process code needs of file.c, fs.c and log.c: operations that return
    without touching the abstract process table. *)
Class FileLayer := {
  createSwapFile : nat -> M kstate Z;
  removeSwapFile : nat -> M kstate Z;
  filedup : Z -> M kstate Z;
  fileclose : Z -> M kstate unit;
  idup : Z -> M kstate Z;
  iput : Z -> M kstate unit;
  begin_op : M kstate unit;
  end_op : M kstate unit;
  namei_root : M kstate Z;
  createSwapFile_keeps i : keeps (createSwapFile i);
  removeSwapFile_keeps i : keeps (removeSwapFile i);
  filedup_keeps f : keeps (filedup f);
  fileclose_keeps f : keeps (fileclose f);
  idup_keeps i : keeps (idup i);
  iput_keeps i : keeps (iput i);
  begin_op_keeps : keeps begin_op;
  end_op_keeps : keeps end_op;
  namei_root_keeps : keeps namei_root
}.

(** ** What keeps the abstract process table *)

Create HintDb keeps.

Lemma keeps_ret {A} (a : A) : keeps (mret a).
Proof. by intros s b s' [= _ <-]. Qed.
Lemma keeps_bind {A B} (m : M kstate A) (f : A -> M kstate B) : keeps m -> (forall a, keeps (f a)) -> keeps (m ≫= f).
Proof. intros Hm Hf s b s'' (a & s' & H1 & H2)%bind_Ok. by rewrite (Hf a s' b s''), (Hm s a s'). Qed.
Lemma keeps_when b m : keeps m -> keeps (when b m).
Proof. destruct b; [done|intros _; apply keeps_ret]. Qed.
Lemma keeps_panic {A} e : keeps (panic e : M kstate A).
Proof. done. Qed.
Lemma keeps_ub {A} : keeps (ub : M kstate A).
Proof. done. Qed.
Lemma keeps_diverge {A} : keeps (diverge : M kstate A).
Proof. done. Qed.
Lemma keeps_gets {A} (f : kstate -> A) : keeps (gets f).
Proof. by intros s a s' [= _ <-]. Qed.
Lemma keeps_modify f : (forall s, table_of (f s) = table_of s) -> keeps (modify f).
Proof. intros H s a s' [= _ <-]. apply H. Qed.
Lemma keeps_for_each {A} (l : list A) body : (forall x, keeps (body x)) -> keeps (for_each l body).
Proof. intros H. induction l as [|x l IH]; [apply keeps_ret|]. cbn. apply keeps_bind; auto. Qed.
Lemma keeps_set_proc i f : (forall p, core_of (f p) = core_of p) -> keeps (set_proc i f).
Proof.
  intros Hf. apply keeps_modify. intros s. unfold table_of. cbn. f_equal.
  apply list_eq. intros j. rewrite !list_lookup_fmap. destruct (decide (i = j)) as [<-|].
  - rewrite list_lookup_alter_eq. destruct (procs s !! i); cbn; [by rewrite Hf|done].
  - by rewrite list_lookup_alter_ne.
Qed.
Lemma keeps_get_proc i : keeps (get_proc i).
Proof. intros s a s'. unfold get_proc. by destruct (procs s !! i); intros [= _ <-]. Qed.
Lemma keeps_cur : keeps cur.
Proof. apply keeps_bind; [apply keeps_gets|]. intros []; [apply keeps_get_proc|apply keeps_ub]. Qed.
Lemma keeps_set_cur f : (forall p, core_of (f p) = core_of p) -> keeps (set_cur f).
Proof. intros Hf. apply keeps_bind; [apply keeps_gets|]. intros []; [by apply keeps_set_proc|apply keeps_ub]. Qed.
Lemma keeps_acquire l : keeps (acquire l).
Proof. intros s a s'. unfold acquire. case_decide; [done|]. by intros [= _ <-]. Qed.
Lemma keeps_release l : keeps (release l).
Proof. intros s a s'. unfold release. case_decide; [|done]. by intros [= _ <-]. Qed.
Lemma keeps_ld32 a : keeps (ld32 a).
Proof. intros s b s'. unfold ld32. destruct (a =? 0); [done|]. by intros [= _ <-]. Qed.
Lemma keeps_st32 a v : keeps (st32 a v).
Proof. intros s b s'. unfold st32. destruct (a =? 0); [done|]. by intros [= _ <-]. Qed.
Lemma keeps_ldf a o : keeps (ldf a o).
Proof. intros s b s'. unfold ldf. destruct (a =? 0); [done|]. by intros [= _ <-]. Qed.
Lemma keeps_stf a o v : keeps (stf a o v).
Proof. intros s b s'. unfold stf. destruct (a =? 0); [done|]. by intros [= _ <-]. Qed.

#[export] Hint Resolve keeps_ret keeps_panic keeps_ub keeps_diverge keeps_gets keeps_get_proc keeps_cur
  keeps_acquire keeps_release keeps_ld32 keeps_st32 keeps_ldf keeps_stf : keeps.
#[export] Hint Resolve createSwapFile_keeps removeSwapFile_keeps filedup_keeps fileclose_keeps idup_keeps
  iput_keeps begin_op_keeps end_op_keeps namei_root_keeps : keeps.

(** One step through the structure of a program. *)
Ltac keeps_step :=
  match goal with
  | |- forall _, _ => intros ?
  | |- keeps (let _ := _ in _) => cbv zeta
  | |- keeps (mbind _ _) => apply keeps_bind
  | |- keeps (when _ _) => apply keeps_when
  | |- keeps (for_each _ _) => apply keeps_for_each
  | |- keeps (if ?b then _ else _) => destruct b
  | |- keeps (match ?x with _ => _ end) => destruct x
  | |- keeps (modify _) => apply keeps_modify; intros; reflexivity
  | |- keeps (set_mem _) => apply keeps_modify; intros; reflexivity
  | |- keeps (set_proc _ _) => apply keeps_set_proc; intros; reflexivity
  | |- keeps (set_cur _) => apply keeps_set_cur; intros; reflexivity
  | |- keeps _ => solve [auto with keeps]
  end.
Ltac keeps_tac := repeat keeps_step.

Lemma keeps_kalloc : keeps kalloc.
Proof. unfold kalloc, lock_kmem, unlock_kmem, set_km. keeps_tac. Qed.
Lemma keeps_add_ref v d : keeps (add_ref v d).
Proof. unfold add_ref, lock_kmem, unlock_kmem, set_km. keeps_tac. Qed.
Lemma keeps_getRefs v : keeps (getRefs v).
Proof. unfold getRefs. keeps_tac. Qed.
#[export] Hint Resolve keeps_kalloc keeps_add_ref keeps_getRefs : keeps.
Lemma keeps_refDec v : keeps (refDec v).
Proof. unfold refDec. apply keeps_add_ref. Qed.
Lemma keeps_refInc v : keeps (refInc v).
Proof. unfold refInc. apply keeps_add_ref. Qed.
#[export] Hint Resolve keeps_refDec keeps_refInc : keeps.
Lemma keeps_walkpgdir pd va al : keeps (walkpgdir pd va al).
Proof. unfold walkpgdir. keeps_tac. Qed.
#[export] Hint Resolve keeps_walkpgdir : keeps.
Lemma keeps_mappages_loop fuel : forall pd a last pa perm, keeps (mappages_loop pd a last pa perm fuel).
Proof. induction fuel; intros; cbn [mappages_loop]; keeps_tac. Qed.
Lemma keeps_mappages pd va n pa perm : keeps (mappages pd va n pa perm).
Proof. apply keeps_mappages_loop. Qed.
Lemma keeps_update_pte a f : keeps (update_pte a f).
Proof. unfold update_pte. keeps_tac. Qed.
Lemma keeps_lcr3 a : keeps (lcr3 a).
Proof. unfold lcr3. keeps_tac. Qed.
#[export] Hint Resolve keeps_mappages keeps_update_pte keeps_lcr3 : keeps.

Section KeepsImage.
Context {KI : KernelImage}.

Lemma keeps_kfree v : keeps (kfree v).
Proof. unfold kfree, lock_kmem, unlock_kmem, set_km. keeps_tac. Qed.
#[local] Hint Resolve keeps_kfree : keeps.
Lemma keeps_drop_page v : keeps (drop_page v).
Proof. unfold drop_page. keeps_tac. Qed.
Lemma keeps_dealloc_scan pd a : keeps (dealloc_scan pd a).
Proof. unfold dealloc_scan. keeps_tac. Qed.
#[local] Hint Resolve keeps_drop_page keeps_dealloc_scan : keeps.
Lemma keeps_deallocuvm_loop fuel : forall pd a sz, keeps (deallocuvm_loop pd a sz fuel).
Proof. induction fuel; intros; cbn [deallocuvm_loop]; keeps_tac. Qed.
#[local] Hint Resolve keeps_deallocuvm_loop : keeps.
Lemma keeps_deallocuvm pd o n : keeps (deallocuvm pd o n).
Proof. unfold deallocuvm. keeps_tac. Qed.
#[local] Hint Resolve keeps_deallocuvm : keeps.
Lemma keeps_freevm pd : keeps (freevm pd).
Proof. unfold freevm. keeps_tac. Qed.
#[local] Hint Resolve keeps_freevm : keeps.
Lemma keeps_setupkvm_loop ks : forall pd, keeps (setupkvm_loop pd ks).
Proof. induction ks; intros; cbn [setupkvm_loop]; keeps_tac. Qed.
#[local] Hint Resolve keeps_setupkvm_loop : keeps.
Lemma keeps_setupkvm : keeps setupkvm.
Proof. unfold setupkvm. keeps_tac. Qed.
#[local] Hint Resolve keeps_setupkvm : keeps.
Lemma keeps_cowuvm_loop fuel : forall pd d i sz, keeps (cowuvm_loop pd d i sz fuel).
Proof. induction fuel; intros; cbn [cowuvm_loop]; keeps_tac. Qed.
#[local] Hint Resolve keeps_cowuvm_loop : keeps.
Lemma keeps_cowuvm pd sz : keeps (cowuvm pd sz).
Proof. unfold cowuvm. keeps_tac. Qed.
Lemma keeps_copyuvm_loop sel fuel : forall pd d i sz, keeps (copyuvm_loop sel pd d i sz fuel).
Proof. induction fuel; intros; cbn [copyuvm_loop]; keeps_tac. Qed.
#[local] Hint Resolve keeps_copyuvm_loop : keeps.
Lemma keeps_copyuvm sel pd sz : keeps (copyuvm sel pd sz).
Proof. unfold copyuvm. keeps_tac. Qed.
Lemma keeps_switchkvm : keeps switchkvm.
Proof. unfold switchkvm. keeps_tac. Qed.
Lemma keeps_switchuvm p : keeps (switchuvm p).
Proof. unfold switchuvm, set_gdt, set_mycpu. keeps_tac. Qed.

End KeepsImage.
#[export] Hint Resolve keeps_kfree keeps_freevm keeps_cowuvm keeps_copyuvm keeps_switchkvm keeps_switchuvm : keeps.

Section Proc.
Context {KI : KernelImage} {FL : FileLayer}.

(** ** Creating processes *)

(** The first entry that satisfies a test. *)
Fixpoint find_proc (test : proc -> bool) (l : list proc) (i : nat) : option nat :=
  match l with
  | [] => None
  | p :: l' => if test p then Some i else find_proc test l' (S i)
  end.
Definition is_state (st : procstate) (p : proc) : bool := bool_decide (state p = st).

(** [allocproc] under the lock of the table. *)
Definition allocproc_slot : M kstate (option nat) :=
  acquire L_ptable ;;
  r ← gets (fun s => find_proc (is_state UNUSED) (procs s) 0);
  match r with
  | None => release L_ptable ;; mret None
  | Some i =>
      set_proc i (fun p => {| p with state := EMBRYO |}) ;;
      n ← gets nextpid;
      set_proc i (fun p => {| p with pid := n |}) ;;
      modify (fun s => {| s with nextpid := s32 (n + 1) |}) ;;
      release L_ptable ;;
      mret (Some i)
  end.

Definition TF_SIZE : Z := 76.
Definition CTX_SIZE : Z := 20.
Definition CTX_eip : Z := 16.

(** The list of free blocks of the swap file: [n] more blocks after [prev],
    from number [i] on. *)
Fixpoint fblock_loop (i : Z) (n : nat) (prev : Z) : M kstate Z :=
  match n with
  | O => mret prev
  | S n' =>
      curr ← kalloc;
      stf curr FB_off (i * PGSIZE) ;;
      stf curr FB_prev prev ;;
      pr ← ldf curr FB_prev;
      stf pr FB_next curr ;;
      fblock_loop (i + 1) n' curr
  end.
Definition init_paging (i : nat) : M kstate unit :=
  r ← createSwapFile i;
  if negb (r =? 0) then panic "allocproc: createSwapFile" else
  set_proc i (fun p => {| p with ramPages := replicate MAX_PSYC_PAGES page_zero |}) ;;
  set_proc i (fun p => {| p with swappedPages := replicate MAX_PSYC_PAGES page_zero |}) ;;
  set_proc i (fun p => {| p with num_ram := 0; num_swap := 0; totalPgfltCount := 0; totalPgoutCount := 0 |}) ;;
  p ← get_proc i;
  when (selection p =? selection_code SCFIFO) (set_proc i (fun p => {| p with clockHand := 0 |})) ;;
  when (selection p =? selection_code AQ) (set_proc i (fun p => {| p with queue_head := 0; queue_tail := 0 |})) ;;
  when (2 <? pid p) (
    head ← kalloc;
    set_proc i (fun p => {| p with free_head := head |}) ;;
    stf head FB_prev 0 ;;
    stf head FB_off 0 ;;
    prev ← fblock_loop 1 (MAX_PSYC_PAGES - 1) head;
    set_proc i (fun p => {| p with free_tail := prev |}) ;;
    stf prev FB_next 0).

Definition allocproc (sel : selection_policy) : M kstate (option nat) :=
  r ← allocproc_slot;
  match r with
  | None => mret None
  | Some i =>
      k ← kalloc;
      set_proc i (fun p => {| p with kstack := k |}) ;;
      if k =? 0 then set_proc i (fun p => {| p with state := UNUSED |}) ;; mret None else
      let sp := k + KSTACKSIZE - TF_SIZE in
      set_proc i (fun p => {| p with tf := sp |}) ;;
      let sp := sp - 4 in
      st32 sp trapret_addr ;;
      let sp := sp - CTX_SIZE in
      set_proc i (fun p => {| p with context := sp |}) ;;
      set_mem (fun m => memset m sp 0 CTX_SIZE) ;;
      stf sp CTX_eip forkret_addr ;;
      when (negb (bool_decide (sel = NONE))) (p ← get_proc i; when (2 <? pid p) (init_paging i)) ;;
      mret (Some i)
  end.

(** [safestrcpy] on the [name] arrays of two entries, [k] being the bytes that
    may still be copied before the terminator. *)
Fixpoint copy_name (k : nat) (dst src : list Z) : list Z :=
  match k, dst, src with
  | O, _ :: dst', _ => 0 :: dst'
  | S k', _ :: dst', c :: src' =>
      if c =? 0 then 0 :: match dst' with _ :: dst'' => 0 :: dst'' | [] => [] end
      else c :: copy_name k' dst' src'
  | _, _, _ => dst
  end.

(** Offsets of the trap frame. *)
Definition TF_eax : Z := 28.
Definition TF_es : Z := 40.
Definition TF_ds : Z := 44.
Definition TF_eip : Z := 56.
Definition TF_cs : Z := 60.
Definition TF_eflags : Z := 64.
Definition TF_esp : Z := 68.
Definition TF_ss : Z := 72.

(** [initcode] and [initsize] describe the program in the kernel image. *)
Definition userinit (sel : selection_policy) (initcode initsize : Z) (initname : list Z) : M kstate unit :=
  r ← allocproc sel;
  modify (fun s => {| s with initproc := r |}) ;;
  match r with
  | None => ub
  | Some i =>
      pgd ← setupkvm;
      set_proc i (fun p => {| p with pgdir := pgd |}) ;;
      if pgd =? 0 then panic "userinit: out of memory?" else
      inituvm pgd initcode initsize ;;
      set_proc i (fun p => {| p with sz := PGSIZE |}) ;;
      p ← get_proc i;
      set_mem (fun m => memset m (tf p) 0 TF_SIZE) ;;
      stf (tf p) TF_cs (Z.lor (Z.shiftl SEG_UCODE 3) DPL_USER) ;;
      stf (tf p) TF_ds (Z.lor (Z.shiftl SEG_UDATA 3) DPL_USER) ;;
      ds ← ldf (tf p) TF_ds;
      stf (tf p) TF_es ds ;;
      stf (tf p) TF_ss ds ;;
      stf (tf p) TF_eflags FL_IF ;;
      stf (tf p) TF_esp PGSIZE ;;
      stf (tf p) TF_eip 0 ;;
      set_proc i (fun p => {| p with name := copy_name 15 (name p) initname |}) ;;
      c ← namei_root;
      set_proc i (fun p => {| p with cwd := c |}) ;;
      acquire L_ptable ;;
      set_proc i (fun p => {| p with state := RUNNABLE |}) ;;
      release L_ptable
  end.

Definition growproc (sel : selection_policy) (n : Z) : M kstate Z :=
  p ← cur;
  i ← myproc;
  r ← (if 0 <? n then allocuvm sel (pgdir p) (sz p) (u32 (sz p + n))
       else if n <? 0 then deallocuvm (pgdir p) (sz p) (u32 (sz p + n))
       else mret (sz p));
  if (negb (n =? 0)) && (r =? 0) then mret (-1) else
  set_cur (fun p => {| p with sz := r |}) ;;
  switchuvm i ;;
  mret 0.

(** *** fork *)

(** The copy of the paging tables; offsets of resident pages and the aging
    counters are not copied. *)
Definition fork_ram (npgdir : Z) (q c : page) : page :=
  {| q with isused := 1; virt_addr := virt_addr c; page_pgdir := npgdir; ref_bit := ref_bit c |}.
Definition fork_swapped (npgdir : Z) (q c : page) : page :=
  {| q with isused := 1; virt_addr := virt_addr c; page_pgdir := npgdir; swap_offset := swap_offset c; ref_bit := ref_bit c |}.

(** The swap file of process [i], through [readFromSwapFile] and
    [writeToSwapFile] with a buffer on the kernel stack. *)
Definition file_of (i : nat) : M kstate (list Z) :=
  p ← get_proc i; c ← gets (fun s => swapfiles s !! swapFile p);
  match c with Some c => mret c | None => ub end.
Fixpoint copy_swap_loop (i np : nat) (offset : Z) (fuel : nat) : M kstate unit :=
  match fuel with
  | O => diverge
  | S fuel' =>
      c ← file_of i;
      match read_at c offset (PGSIZE / 2) with
      | None => panic "fork: error copying parent's swap file"
      | Some [] => mret tt
      | Some bs =>
          d ← file_of np;
          let '(d', ok) := filewrite_loop d offset bs (S (length bs)) in
          q ← get_proc np;
          modify (fun s => {| s with swapfiles := <[swapFile q := d']> (swapfiles s) |}) ;;
          if negb ok then panic "fork: error copying parent's swap file" else
          copy_swap_loop i np (offset + Z.of_nat (length bs)) fuel'
      end
  end.

(** The rest of the queue after the first node. *)
Fixpoint copyAQ_loop (np : nat) (old_curr np_curr np_prev : Z) (fuel : nat) : M kstate Z :=
  if old_curr =? 0 then mret np_curr else
  match fuel with
  | O => diverge
  | S fuel' =>
      n ← kalloc;
      ix ← ldf old_curr QN_page_index;
      stf n QN_page_index ix ;;
      stf n QN_prev np_prev ;;
      stf np_prev QN_next n ;;
      nx ← ldf old_curr QN_next;
      copyAQ_loop np nx n n fuel'
  end.
Definition copyAQ (np : nat) (fuel : nat) : M kstate unit :=
  p ← cur;
  let old_curr := queue_head p in
  set_proc np (fun p => {| p with queue_head := 0 |}) ;;
  set_proc np (fun p => {| p with queue_tail := 0 |}) ;;
  np_curr ← (if old_curr =? 0 then mret 0 else
    n ← kalloc;
    ix ← ldf old_curr QN_page_index;
    stf n QN_page_index ix ;;
    set_proc np (fun p => {| p with queue_head := n |}) ;;
    stf n QN_prev 0 ;;
    nx ← ldf old_curr QN_next;
    copyAQ_loop np nx n n fuel);
  q ← get_proc np;
  when (negb (queue_head q =? 0))
    (stf np_curr QN_next 0 ;; set_proc np (fun p => {| p with queue_tail := np_curr |})).

Fixpoint dup_files (np : nat) (fs : list Z) (i : nat) : M kstate unit :=
  match fs with
  | [] => mret tt
  | f :: fs' =>
      when (negb (f =? 0)) (g ← filedup f; set_proc np (fun p => {| p with ofile := <[i := g]> (ofile p) |})) ;;
      dup_files np fs' (S i)
  end.

(** What a parent with paging data passes on. *)
Definition fork_paging (sel : selection_policy) (i np : nat) (fuel : nat) : M kstate unit :=
  p ← get_proc i;
  set_proc np (fun q => {| q with totalPgfltCount := 0; totalPgoutCount := 0;
                                  num_ram := num_ram p; num_swap := num_swap p |}) ;;
  set_proc np (fun q => {| q with ramPages := zip_with (fork_ram (pgdir q)) (ramPages q) (ramPages p) |}) ;;
  when (negb (bool_decide (sel = NONE)))
    (set_proc np (fun q => {| q with swappedPages := zip_with (fork_swapped (pgdir q)) (swappedPages q) (swappedPages p) |})) ;;
  copy_swap_loop i np 0 fuel ;;
  when (bool_decide (sel = AQ)) (copyAQ np fuel).

Definition fork (sel : selection_policy) (fuel : nat) : M kstate Z :=
  me ← myproc;
  p ← cur;
  r ← allocproc sel;
  match me, r with
  | _, None => mret (-1)
  | None, _ => ub
  | Some i, Some np =>
      pgd ← (if pid p <=? 2 then copyuvm sel (pgdir p) (sz p) else cowuvm (pgdir p) (sz p));
      set_proc np (fun q => {| q with pgdir := pgd |}) ;;
      if pgd =? 0 then
        q ← get_proc np;
        kfree (kstack q) ;;
        set_proc np (fun q => {| q with kstack := 0 |}) ;;
        set_proc np (fun q => {| q with state := UNUSED |}) ;;
        mret (-1)
      else
        set_proc np (fun q => {| q with sz := sz p |}) ;;
        set_proc np (fun q => {| q with parent := Some i |}) ;;
        q ← get_proc np;
        set_mem (fun m => memmove m (tf q) (tf p) TF_SIZE) ;;
        when (2 <? pid p) (fork_paging sel i np fuel) ;;
        stf (tf q) TF_eax 0 ;;
        dup_files np (ofile p) 0 ;;
        d ← idup (cwd p);
        set_proc np (fun q => {| q with cwd := d |}) ;;
        set_proc np (fun q => {| q with name := copy_name 15 (name q) (name p) |}) ;;
        q ← get_proc np;
        acquire L_ptable ;;
        set_proc np (fun q => {| q with state := RUNNABLE |}) ;;
        release L_ptable ;;
        mret (pid q)
  end.

(** ** Sleeping and waking up *)

Definition wake1 (ch : channel) (p : proc) : proc :=
  if is_state SLEEPING p && bool_decide (chan p = ch) then {| p with state := RUNNABLE |} else p.
Definition wakeup1 (ch : channel) : M kstate unit :=
  modify (fun s => {| s with procs := wake1 ch <$> procs s |}).
Definition wakeup (ch : channel) : M kstate unit :=
  acquire L_ptable ;;
  wakeup1 ch ;;
  release L_ptable.

(** Up to the switch to the scheduler, which continues after its own [swtch]
    with the kernel page table and no current process. The number of [pushcli]s
    is the number of locks held (Spinlock.v), and with one lock held interrupts are off. *)
Definition sched : M kstate unit :=
  me ← myproc;
  h ← gets held;
  if negb (bool_decide (L_ptable ∈ h)) then panic "sched ptable.lock" else
  if negb (bool_decide (length h = 1%nat)) then panic "sched locks" else
  p ← cur;
  if is_state RUNNING p then panic "sched running" else
  switchkvm ;;
  modify (fun s => {| s with curproc := None |}).

(** [yield], [sleep] before the switch. *)
Definition yield_enter : M kstate unit :=
  acquire L_ptable ;;
  set_cur (fun p => {| p with state := RUNNABLE |}) ;;
  sched.
Definition sleep_enter (ch : channel) (lk : lockname) : M kstate unit :=
  me ← myproc;
  match me with
  | None => panic "sleep"
  | Some i =>
      when (negb (bool_decide (lk = L_ptable))) (acquire L_ptable ;; release lk) ;;
      set_proc i (fun p => {| p with chan := ch |}) ;;
      set_proc i (fun p => {| p with state := SLEEPING |}) ;;
      sched
  end.
(** ... and after it. *)
Definition yield_leave : M kstate unit := release L_ptable.
Definition sleep_leave (lk : lockname) : M kstate unit :=
  set_cur (fun p => {| p with chan := NoChan |}) ;;
  when (negb (bool_decide (lk = L_ptable))) (release L_ptable ;; acquire lk).

Definition kill (pid' : Z) : M kstate Z :=
  acquire L_ptable ;;
  r ← gets (fun s => find_proc (fun p => pid p =? pid') (procs s) 0);
  match r with
  | Some i =>
      set_proc i (fun p => {| p with killed := 1 |}) ;;
      p ← get_proc i;
      when (is_state SLEEPING p) (set_proc i (fun p => {| p with state := RUNNABLE |})) ;;
      release L_ptable ;;
      mret 0
  | None => release L_ptable ;; mret (-1)
  end.

(** ** Exit and wait *)

(** The children are passed on one by one, in the order of the table. *)
Definition reparent (i : nat) : M kstate unit :=
  for_each (indices NPROC) (fun j =>
    p ← get_proc j;
    when (bool_decide (parent p = Some i)) (
      init ← gets initproc;
      set_proc j (fun p => {| p with parent := init |}) ;;
      p ← get_proc j;
      when (is_state ZOMBIE p) (match init with Some k => wakeup1 (ChProc k) | None => wakeup1 NoChan end))).

Fixpoint close_files (i : nat) (fs : list Z) (fd : nat) : M kstate unit :=
  match fs with
  | [] => mret tt
  | f :: fs' =>
      when (negb (f =? 0)) (fileclose f ;; set_proc i (fun p => {| p with ofile := <[fd := 0]> (ofile p) |})) ;;
      close_files i fs' (S fd)
  end.
(** [exit] before the lock of the table is taken ... *)
Definition exit_files (sel : selection_policy) : M kstate unit :=
  me ← myproc;
  init ← gets initproc;
  if bool_decide (me = init) then panic "init exiting" else
  p ← cur;
  match me with
  | None => ub
  | Some i =>
      close_files i (ofile p) 0 ;;
      begin_op ;;
      iput (cwd p) ;;
      end_op ;;
      set_proc i (fun p => {| p with cwd := 0 |}) ;;
      when (negb (bool_decide (sel = NONE)) && (2 <? pid p)) (
        r ← removeSwapFile i;
        if negb (r =? 0) then panic "exit: error deleting swap file" else mret tt)
  end.
(** ... and from there to the switch that never returns. *)
Definition exit_locked : M kstate unit :=
  me ← myproc;
  match me with
  | None => ub
  | Some i =>
      acquire L_ptable ;;
      p ← get_proc i;
      match parent p with Some k => wakeup1 (ChProc k) | None => wakeup1 NoChan end ;;
      reparent i ;;
      set_proc i (fun p => {| p with state := ZOMBIE |}) ;;
      sched
  end.
Definition exit (sel : selection_policy) : M kstate unit :=
  exit_files sel ;;
  exit_locked.

(** How a round of [wait] ends. *)
Inductive wait_end := WaitReturns (r : Z) | WaitSleeps.

(** The entry of a reaped process. *)
Definition reap (sel : selection_policy) (i : nat) : M kstate Z :=
  p ← get_proc i;
  kfree (kstack p) ;;
  set_proc i (fun p => {| p with kstack := 0 |}) ;;
  freevm (pgdir p) ;;
  set_proc i (fun p => {| p with pid := 0; parent := None; name := <[0%nat := 0]> (name p); killed := 0;
     clockHand := 0; free_head := 0; free_tail := 0; queue_head := 0; queue_tail := 0;
     numswappages := 0; nummemorypages := 0 |}) ;;
  when (negb (bool_decide (sel = NONE)))
    (set_proc i (fun p => {| p with ramPages := replicate MAX_PSYC_PAGES page_zero;
                                    swappedPages := replicate MAX_PSYC_PAGES page_zero |})) ;;
  set_proc i (fun p => {| p with state := UNUSED |}) ;;
  mret (pid p).
(** One round of [wait], with the lock held: the table is scanned for a zombie
    child; without one the process goes to sleep or returns -1. *)
Definition wait_round (sel : selection_policy) : M kstate wait_end :=
  me ← myproc;
  r ← gets (fun s => find_proc (fun p => bool_decide (parent p = me) && is_state ZOMBIE p) (procs s) 0);
  match r with
  | Some i =>
      pid' ← reap sel i;
      release L_ptable ;;
      mret (WaitReturns pid')
  | None =>
      havekids ← gets (fun s => existsb (fun p => bool_decide (parent p = me)) (procs s));
      p ← cur;
      if negb havekids || negb (killed p =? 0) then release L_ptable ;; mret (WaitReturns (-1))
      else
        match me with Some k => sleep_enter (ChProc k) L_ptable ;; mret WaitSleeps | None => ub end
  end.
Definition wait (sel : selection_policy) : M kstate wait_end :=
  acquire L_ptable ;;
  wait_round sel.

(** ** The scheduler *)

(** The loop over the table from entry [j] on: the next entry to run. *)
Fixpoint next_runnable (l : list proc) (j : nat) : option nat :=
  match l with
  | [] => None
  | p :: l' => if is_state RUNNABLE p then Some j else next_runnable l' (S j)
  end.
Definition scheduler_next (j : nat) : M kstate (option nat) :=
  gets (fun s => next_runnable (drop j (procs s)) j).
(** The switch to a process. *)
Definition scheduler_run (i : nat) : M kstate unit :=
  modify (fun s => {| s with curproc := Some i |}) ;;
  switchuvm (Some i) ;;
  set_proc i (fun p => {| p with state := RUNNING |}).

(** A new process starts here, with the lock that the scheduler took. *)
Definition forkret (first : bool) (iinit initlog : M kstate unit) : M kstate unit :=
  release L_ptable ;;
  when first (iinit ;; initlog).

Definition getNumberOfFreePages : M kstate Z := getNumOfFreePages.
Definition getNumRefs (arrindx : Z) : M kstate Z := getNumRefsWarpper arrindx.

(** ** The code implements the steps of PTable.v *)

Lemma table_lookup s i p : procs s !! i = Some p -> pt_procs (table_of s) !! i = Some (core_of p).
Proof. intros H. cbn. by rewrite list_lookup_fmap, H. Qed.
Lemma set_core_insert i g t c : pt_procs t !! i = Some c -> set_core i g t = {| t with pt_procs := <[i := g c]> (pt_procs t) |}.
Proof. intros H. unfold set_core. by rewrite (list_alter_insert_lookup _ _ _ c). Qed.

Lemma run_set_proc i f g s a s' :
  (forall p, core_of (f p) = g (core_of p)) -> set_proc i f s = Ok a s' -> table_of s' = set_core i g (table_of s).
Proof.
  intros Hf [= _ <-]. unfold table_of, set_core. cbn. f_equal.
  apply list_eq. intros j. destruct (decide (i = j)) as [<-|].
  - rewrite list_lookup_fmap, !list_lookup_alter_eq, list_lookup_fmap. destruct (procs s !! i); cbn; [by rewrite Hf|done].
  - by rewrite list_lookup_fmap, !list_lookup_alter_ne, list_lookup_fmap by done.
Qed.
Lemma run_get_proc i s p s' : get_proc i s = Ok p s' -> s' = s /\ procs s !! i = Some p.
Proof. unfold get_proc. destruct (procs s !! i); [|done]. by intros [= <- <-]. Qed.
Lemma run_cur s p s' : cur s = Ok p s' -> s' = s /\ exists i, curproc s = Some i /\ procs s !! i = Some p.
Proof.
  unfold cur. intros (me & s1 & [= <- <-] & H)%bind_Ok. unfold myproc in *. destruct (curproc s) as [i|]; [|done].
  apply run_get_proc in H as [-> H]. eauto.
Qed.
Lemma run_set_cur f g s a s' i :
  (forall p, core_of (f p) = g (core_of p)) -> curproc s = Some i -> set_cur f s = Ok a s' ->
  table_of s' = set_core i g (table_of s).
Proof.
  unfold set_cur. intros Hf Hc (me & s1 & [= <- <-] & H)%bind_Ok. rewrite Hc in H. by eapply run_set_proc.
Qed.
Lemma run_wakeup1 ch s a s' : wakeup1 ch s = Ok a s' -> table_of s' = wake ch (table_of s).
Proof.
  intros [= _ <-]. unfold table_of, wake. cbn. f_equal. rewrite <- !list_fmap_compose. apply list_fmap_ext.
  intros i p _. cbn. unfold wake1, wake_core, is_state. cbn. by case_match.
Qed.
Lemma run_keeps {A} (m : M kstate A) s a s' : keeps m -> m s = Ok a s' -> table_of s' = table_of s.
Proof. intros H. apply H. Qed.

(** Decomposes the execution of a sequence. *)
Ltac run_step H :=
  let a := fresh "r" in let s := fresh "st" in let H1 := fresh "R" in
  apply bind_Ok in H as (a & s & H1 & H).

(** [sched] only takes the processor away. *)
Lemma run_sched s a s' : sched s = Ok a s' ->
  table_of s' = {| (table_of s) with pt_cur := None |} /\
  exists i p, curproc s = Some i /\ procs s !! i = Some p /\ state p ≠ RUNNING.
Proof.
  unfold sched. intros H. run_step H. injection R as <- <-. run_step H. injection R as <- <-.
  destruct (negb _); [done|]. destruct (negb _); [done|]. run_step H.
  apply run_cur in R as [-> (i & Hc & Hp)]. destruct (is_state RUNNING r) eqn:Er; [done|].
  run_step H. apply (run_keeps _ _ _ _ keeps_switchkvm) in R as Ek. injection H as _ <-. split.
  - unfold table_of in *. cbn. injection Ek as E1 E2 E3 E4. congruence.
  - exists i, r. split_and!; try done. unfold is_state in Er. by apply bool_decide_eq_false in Er.
Qed.

Lemma run_adopt_one i j s a s' :
  (p ← get_proc j;
   when (bool_decide (parent p = Some i)) (
      init ← gets initproc;
      set_proc j (fun p => {| p with parent := init |}) ;;
      p ← get_proc j;
      when (is_state ZOMBIE p) (match init with Some k => wakeup1 (ChProc k) | None => wakeup1 NoChan end))) s = Ok a s' ->
  table_of s' = adopt_one i (table_of s) j.
Proof.
  intros (p & s1 & R1 & H)%bind_Ok. apply run_get_proc in R1 as [-> Hp]. unfold adopt_one. rewrite (table_lookup _ _ _ Hp).
  cbn [c_parent core_of]. destruct (bool_decide (parent p = Some i)); [|by injection H as _ <-].
  cbn [when] in H. apply bind_Ok in H as (k & s2 & [= <- <-] & H). apply bind_Ok in H as (u & s2 & R2 & H).
  apply (run_set_proc _ _ (fun c => {| c with c_parent := initproc s |})) in R2 as E; [|done].
  cbv zeta. change (pt_init (table_of s)) with (initproc s). rewrite <- E.
  apply bind_Ok in H as (p1 & s3 & R3 & H). apply run_get_proc in R3 as [-> Hp1].
  assert (bool_decide (c_state (core_of p) = ZOMBIE) = is_state ZOMBIE p1) as ->.
  { unfold is_state. cbn. injection R2 as _ <-. cbn in Hp1. rewrite list_lookup_alter_eq, Hp in Hp1. cbn in Hp1.
    by injection Hp1 as <-. }
  destruct (is_state ZOMBIE p1); [|by injection H as _ <-]. cbn [when] in H.
  destruct (initproc s); by apply run_wakeup1 in H.
Qed.
Lemma run_for_each {X} (body : X -> M kstate unit) (g : ptable -> X -> ptable) l : forall s a s',
  (forall x s a s', body x s = Ok a s' -> table_of s' = g (table_of s) x) ->
  for_each l body s = Ok a s' -> table_of s' = fold_left g l (table_of s).
Proof.
  induction l as [|x l IH]; intros s a s' Hb H; [by injection H as _ <-|]. cbn in H. run_step H. cbn.
  rewrite <- (Hb x s r st R). by eapply IH.
Qed.
Lemma run_reparent i s a s' : reparent i s = Ok a s' -> table_of s' = adopt i (table_of s).
Proof. intros H. eapply (run_for_each _ (adopt_one i)); [|exact H]. intros j s1 a1 s1'. apply run_adopt_one. Qed.

(** Rewrites with a step that keeps the table. *)
Ltac run_keep H :=
  match type of H with ?m _ = Ok _ _ =>
    let K := fresh in assert (keeps m) as K by keeps_tac; apply K in H; clear K
  end.

Lemma cur_of_table s s' : table_of s' = table_of s -> curproc s' = curproc s.
Proof. intros E. exact (f_equal pt_cur E). Qed.

Lemma refine_wakeup ch s a s' : wakeup ch s = Ok a s' -> table_of s' = wake ch (table_of s).
Proof.
  intros (u1 & s1 & R1 & H)%bind_Ok. apply bind_Ok in H as (u2 & s2 & R2 & H).
  run_keep R1. run_keep H. apply run_wakeup1 in R2. congruence.
Qed.

Lemma refine_yield s a s' : yield_enter s = Ok a s' -> tstep (table_of s) (table_of s').
Proof.
  intros (u1 & s1 & R1 & H)%bind_Ok. apply bind_Ok in H as (u2 & s2 & R2 & H). run_keep R1. pose proof (cur_of_table _ _ R1) as Ec.
  apply run_sched in H as [-> (i & p & Hc & Hp & _)].
  assert (curproc s1 = Some i /\ exists q, procs s1 !! i = Some q) as [Hc1 [q Hq]].
  { unfold set_cur in R2. apply bind_Ok in R2 as (me & s3 & [= <- <-] & R2). destruct (curproc s1) as [j|] eqn:E; [|done].
    injection R2 as _ <-. cbn in *. assert (j = i) as -> by congruence. split; [done|].
    destruct (procs s1 !! i) eqn:Eq; [eauto|]. by rewrite list_lookup_alter_eq, Eq in Hp. }
  apply (run_set_cur _ (fun c => {| c with c_state := RUNNABLE |}) _ _ _ i) in R2; [|done|done].
  rewrite R2. rewrite (set_core_insert _ _ _ (core_of q)) by (by apply table_lookup). rewrite R1.
  apply (t_yield (table_of s) i (core_of q)); [rewrite <- R1; by apply table_lookup|]. cbn. congruence.
Qed.

(** The part of [sleep] after the locks are exchanged. *)
Lemma run_fall_asleep ch i s a s' :
  curproc s = Some i ->
  (set_proc i (fun p => {| p with chan := ch |}) ;; set_proc i (fun p => {| p with state := SLEEPING |}) ;; sched) s = Ok a s' ->
  (ch = ChProc i -> no_zombie_child (table_of s) i) -> tstep (table_of s) (table_of s').
Proof.
  intros Hc (u1 & s1 & R1 & H)%bind_Ok Hz. apply bind_Ok in H as (u2 & s2 & R2 & H).
  apply run_sched in H as [-> (j & p & Hj & Hp & _)].
  assert (j = i /\ exists q, procs s !! i = Some q) as [-> [q Hq]].
  { injection R1 as _ <-. injection R2 as _ <-. cbn in *. assert (j = i) as -> by congruence. split; [done|].
    destruct (procs s !! i) eqn:Eq; [eauto|]. by rewrite list_lookup_alter_eq, list_lookup_alter_eq, Eq in Hp. }
  apply (run_set_proc _ _ (fun c => {| c with c_chan := ch |})) in R1; [|done].
  apply (run_set_proc _ _ (fun c => {| c with c_state := SLEEPING |})) in R2; [|done].
  rewrite R2, R1. unfold set_core at 1. cbn [pt_procs set_core]. rewrite list_alter_alter_eq.
  rewrite (list_alter_insert_lookup _ _ _ (core_of q)) by (by apply table_lookup).
  apply (t_sleep (table_of s) i (core_of q) ch); [by apply table_lookup|done|done].
Qed.
Lemma refine_sleep ch lk s a s' :
  sleep_enter ch lk s = Ok a s' -> (forall i, curproc s = Some i -> ch = ChProc i -> no_zombie_child (table_of s) i) ->
  tstep (table_of s) (table_of s').
Proof.
  unfold sleep_enter. intros (me & s1 & [= <- <-] & H)%bind_Ok Hz. destruct (curproc s) as [i|] eqn:Ec; [|done].
  apply bind_Ok in H as (u & s1 & R1 & H).
  pose proof R1 as E. run_keep E.
  rewrite <- E. eapply run_fall_asleep; [by rewrite (cur_of_table _ _ E)|exact H|]. rewrite E. auto.
Qed.

Lemma cur_entry s i : wf (table_of s) -> curproc s = Some i -> exists p, procs s !! i = Some p.
Proof.
  intros Hw Hc. destruct (w_cur _ Hw i Hc) as (c & Hl). cbn in Hl. rewrite list_lookup_fmap in Hl.
  destruct (procs s !! i); [eauto|done].
Qed.

Lemma refine_sleep_leave lk s a s' :
  wf (table_of s) -> sleep_leave lk s = Ok a s' -> tstep (table_of s) (table_of s').
Proof.
  unfold sleep_leave. intros Hw (u & s1 & R1 & H)%bind_Ok. run_keep H. rewrite H.
  unfold set_cur in R1. apply bind_Ok in R1 as (me & s2 & [= <- <-] & R1).
  destruct (curproc s) as [i|] eqn:Ec; [|done]. destruct (cur_entry s i Hw Ec) as [p Hp].
  apply (run_set_proc _ _ (fun c => {| c with c_chan := NoChan |})) in R1; [|done].
  rewrite R1, (set_core_insert _ _ _ (core_of p)) by (by apply table_lookup).
  apply (t_resume (table_of s) i (core_of p)); [by apply table_lookup|done].
Qed.

Lemma find_proc_Some test l : forall i k, find_proc test l i = Some k ->
  (i <= k)%nat /\ exists p, l !! (k - i)%nat = Some p /\ test p = true /\
  forall j q, (i <= j < k)%nat -> l !! (j - i)%nat = Some q -> test q = false.
Proof.
  induction l as [|p l IH]; intros i k H; [done|]. cbn in H. destruct (test p) eqn:E.
  - injection H as <-. rewrite Nat.sub_diag. split; [done|]. exists p. split_and!; try done. intros; lia.
  - destruct (IH (S i) k H) as (Hle & q & Hq & Ht & Hlt). split; [lia|]. exists q.
    replace (k - i)%nat with (S (k - S i)) by lia. split_and!; try done.
    intros j q' Hj Hq'. destruct (decide (j = i)) as [->|Hne].
    + rewrite Nat.sub_diag in Hq'. by injection Hq' as <-.
    + apply (Hlt j q'); [lia|]. by replace (j - i)%nat with (S (j - S i)) in Hq' by lia.
Qed.
Lemma find_proc_None test l : forall i, find_proc test l i = None -> forall p, p ∈ l -> test p = false.
Proof.
  induction l as [|q l IH]; intros i H p Hp; [by apply not_elem_of_nil in Hp|]. cbn in H.
  destruct (test q) eqn:E; [done|]. apply elem_of_cons in Hp as [->|Hp]; [done|]. by eapply IH.
Qed.

Lemma refine_kill n s r s' : kill n s = Ok r s' -> rtc tstep (table_of s) (table_of s').
Proof.
  unfold kill. intros (u & s1 & R1 & H)%bind_Ok. run_keep R1. apply bind_Ok in H as (o & s2 & [= <- <-] & H).
  destruct (find_proc _ (procs s1) 0) as [i|] eqn:Ef.
  - apply find_proc_Some in Ef as (_ & p & Hp & _). rewrite Nat.sub_0_r in Hp.
    apply bind_Ok in H as (u2 & s2 & R2 & H). apply bind_Ok in H as (p2 & s3 & R3 & H).
    apply bind_Ok in H as (u4 & s4 & R4 & H). apply bind_Ok in H as (u5 & s5 & R5 & H). injection H as _ <-. run_keep R5.
    apply run_get_proc in R3 as [-> Hp2]. pose proof R2 as E2.
    apply (run_set_proc _ _ (fun c => {| c with c_killed := 1 |})) in R2; [|done].
    assert (p2 = {| p with killed := 1 |}) as ->.
    { injection E2 as _ <-. cbn in Hp2. rewrite list_lookup_alter_eq, Hp in Hp2. by injection Hp2 as <-. }
    apply rtc_once. rewrite R5, <- R1.
    assert (table_of s4 = {| (table_of s1) with pt_procs := <[i := {| (core_of p) with c_killed := 1;
      c_state := if bool_decide (c_state (core_of p) = SLEEPING) then RUNNABLE else c_state (core_of p) |}]> (pt_procs (table_of s1)) |}) as ->.
    { unfold is_state in R4. cbn [state core_of c_state] in *. rewrite (set_core_insert _ _ _ (core_of p)) in R2 by (by apply table_lookup).
      destruct (bool_decide (state p = SLEEPING)); cbn [when] in R4.
      - apply (run_set_proc _ _ (fun c => {| c with c_state := RUNNABLE |})) in R4; [|done]. rewrite R4, R2. unfold set_core. cbn [pt_procs].
        rewrite (list_alter_insert_lookup _ _ _ {| (core_of p) with c_killed := 1 |}), list_insert_insert_eq; [done|].
        apply list_lookup_insert_eq. eapply lookup_lt_Some. by apply table_lookup.
      - injection R4 as _ <-. by rewrite R2. }
    apply (t_kill (table_of s1) i (core_of p)). by apply table_lookup.
  - apply bind_Ok in H as (u2 & s2 & R2 & H). injection H as _ <-. run_keep R2. rewrite R2, R1. apply rtc_refl.
Qed.

Lemma refine_exit s a s' :
  wf (table_of s) -> initproc s ≠ curproc s -> exit_locked s = Ok a s' -> tstep (table_of s) (table_of s').
Proof.
  unfold exit_locked. intros Hw Hinit (me & s1 & [= <- <-] & H)%bind_Ok. destruct (curproc s) as [i|] eqn:Ec; [|done].
  destruct (cur_entry s i Hw Ec) as [p0 Hp0].
  apply bind_Ok in H as (u1 & s1 & R1 & H). run_keep R1. apply bind_Ok in H as (p & s2 & R2 & H).
  apply run_get_proc in R2 as [-> Hp]. apply bind_Ok in H as (u3 & s3 & R3 & H). apply bind_Ok in H as (u4 & s4 & R4 & H).
  apply bind_Ok in H as (u5 & s5 & R5 & H).
  assert (table_of s3 = wake (chan_of (c_parent (core_of p))) (table_of s1)) as E3.
  { cbn. destruct (parent p); by apply run_wakeup1 in R3. }
  apply run_reparent in R4. apply (run_set_proc _ _ (fun c => {| c with c_state := ZOMBIE |})) in R5; [|done].
  apply run_sched in H as [-> _]. rewrite R5, R4, E3, R1.
  apply (t_exit (table_of s) i (core_of p)); [|done|done]. rewrite <- R1. by apply table_lookup.
Qed.

Lemma refine_run i s a s' p :
  procs s !! i = Some p -> state p = RUNNABLE -> curproc s = None -> scheduler_run i s = Ok a s' ->
  tstep (table_of s) (table_of s').
Proof.
  unfold scheduler_run. intros Hp Hs Hc (u1 & s1 & [= _ <-] & H)%bind_Ok. apply bind_Ok in H as (u2 & s2 & R2 & H).
  run_keep R2. apply (run_set_proc _ _ (fun c => {| c with c_state := RUNNING |})) in H; [|done].
  rewrite H, R2. rewrite (set_core_insert _ _ _ (core_of p)) by (by apply table_lookup).
  apply (t_run (table_of s) i (core_of p)); [by apply table_lookup|done|done].
Qed.

Lemma run_reap sel i s r s' p :
  procs s !! i = Some p -> reap sel i s = Ok r s' ->
  r = pid p /\ table_of s' = {| (table_of s) with pt_procs :=
     <[i := {| (core_of p) with c_state := UNUSED; c_pid := 0; c_parent := None; c_killed := 0 |}]> (pt_procs (table_of s)) |}.
Proof.
  unfold reap. intros Hp (p1 & s1 & R1 & H)%bind_Ok. apply run_get_proc in R1 as [-> Hp1].
  assert (p1 = p) as -> by congruence.
  apply bind_Ok in H as (u2 & s2 & R2 & H). run_keep R2.
  apply bind_Ok in H as (u3 & s3 & R3 & H). run_keep R3.
  apply bind_Ok in H as (u4 & s4 & R4 & H). run_keep R4.
  apply bind_Ok in H as (u5 & s5 & R5 & H).
  apply (run_set_proc _ _ (fun c => {| c with c_pid := 0; c_parent := None; c_killed := 0 |})) in R5; [|done].
  apply bind_Ok in H as (u6 & s6 & R6 & H). run_keep R6.
  apply bind_Ok in H as (u7 & s7 & R7 & H). apply (run_set_proc _ _ (fun c => {| c with c_state := UNUSED |})) in R7; [|done].
  injection H as <- <-. split; [done|]. rewrite R7, R6, R5, R4, R3, R2. unfold set_core at 1. cbn [pt_procs set_core].
  rewrite list_alter_alter_eq, (list_alter_insert_lookup _ _ _ (core_of p)) by (by apply table_lookup). done.
Qed.

Lemma refine_wait sel me s r s' :
  curproc s = Some me -> wait sel s = Ok r s' -> rtc tstep (table_of s) (table_of s').
Proof.
  unfold wait. intros Hme (u1 & s1 & R1 & H)%bind_Ok. run_keep R1. pose proof (cur_of_table _ _ R1) as Ec. rewrite <- R1.
  rewrite Hme in Ec. clear s R1 Hme u1.
  unfold wait_round in H. apply bind_Ok in H as (o & s2 & [= <- <-] & H). rewrite Ec in H.
  apply bind_Ok in H as (f & s2 & [= <- <-] & H).
  destruct (find_proc _ (procs s1) 0) as [i|] eqn:Ef.
  - apply find_proc_Some in Ef as (_ & p & Hp & Ht & _). rewrite Nat.sub_0_r in Hp.
    apply andb_true_iff in Ht as [Hpar Hz]. apply bool_decide_eq_true in Hpar. unfold is_state in Hz. apply bool_decide_eq_true in Hz.
    apply bind_Ok in H as (n & s2 & R2 & H). apply bind_Ok in H as (u3 & s3 & R3 & H). run_keep R3. injection H as _ <-.
    destruct (run_reap _ _ _ _ _ _ Hp R2) as [_ E2]. rewrite R3, E2. apply rtc_once.
    apply (t_reap (table_of s1) i (core_of p) me); [by apply table_lookup|done|done|done].
  - apply bind_Ok in H as (hk & s2 & [= <- <-] & H). apply bind_Ok in H as (p & s2 & R2 & H).
    apply run_cur in R2 as [-> _]. destruct (negb _ || negb _).
    + apply bind_Ok in H as (u3 & s3 & R3 & H). run_keep R3. injection H as _ <-. rewrite R3. apply rtc_refl.
    + apply bind_Ok in H as (u3 & s3 & R3 & H). injection H as _ <-. apply rtc_once. eapply refine_sleep; [exact R3|].
      intros j Hj _ k c Hk Hp Hz. assert (j = me) as -> by congruence.
      cbn in Hk. rewrite list_lookup_fmap in Hk. destruct (procs s1 !! k) as [q|] eqn:Eq; [|done]. injection Hk as <-.
      pose proof (find_proc_None _ _ _ Ef q ltac:(by eapply list_elem_of_lookup_2)) as Hf. cbn beta in Hf.
      cbn in Hp, Hz. rewrite Hp in Hf. unfold is_state in Hf. rewrite Hz in Hf.
      rewrite !bool_decide_eq_true_2 in Hf by done. done.
Qed.

(** *** Creation *)

Lemma run_allocproc_slot s r s' :
  allocproc_slot s = Ok r s' -> 0 <= nextpid s < 2147483647 ->
  match r with
  | None => table_of s' = table_of s
  | Some i => exists p, procs s !! i = Some p /\ state p = UNUSED /\
      (exists p', procs s' !! i = Some p' /\ state p' = EMBRYO /\ pid p' = nextpid s /\ core_of p' = {| (core_of p) with c_state := EMBRYO; c_pid := nextpid s |}) /\
      table_of s' = {| (table_of s) with pt_procs := <[i := {| (core_of p) with c_state := EMBRYO; c_pid := nextpid s |}]> (pt_procs (table_of s));
                                         pt_nextpid := nextpid s + 1 |}
  end.
Proof.
  unfold allocproc_slot. intros (u1 & s1 & R1 & H)%bind_Ok Hn. pose proof R1 as K1. run_keep K1.
  assert (procs s1 = procs s /\ nextpid s1 = nextpid s) as [Ep En].
  { unfold acquire in R1. destruct (decide _); [done|]. by injection R1 as _ <-. }
  apply bind_Ok in H as (o & s2 & [= <- <-] & H). rewrite Ep in H.
  destruct (find_proc _ (procs s) 0) as [i|] eqn:Ef.
  - apply find_proc_Some in Ef as (_ & p & Hp & Ht & _). rewrite Nat.sub_0_r in Hp. unfold is_state in Ht. apply bool_decide_eq_true in Ht.
    apply bind_Ok in H as (u2 & s2 & R2 & H). apply bind_Ok in H as (n & s3 & R3 & H). injection R3 as <- <-.
    apply bind_Ok in H as (u4 & s4 & R4 & H). apply bind_Ok in H as (u5 & s5 & R5 & H). apply bind_Ok in H as (u6 & s6 & R6 & H).
    injection H as <- <-. injection R2 as _ <-. injection R4 as _ <-. injection R5 as _ <-. cbn [nextpid procs] in *.
    rewrite En in R6. rewrite (s32_small (nextpid s + 1)) in R6 by lia.
    pose proof R6 as K6. run_keep K6.
    assert (procs s6 !! i = Some {| p with state := EMBRYO; pid := nextpid s |}) as Hp6.
    { unfold release in R6. destruct (decide _); [|done]. injection R6 as _ <-. cbn [procs].
      rewrite list_lookup_alter_eq, list_lookup_alter_eq, Ep, Hp. done. }
    exists p. split_and!; try done; [by eexists|].
    rewrite K6. unfold table_of. cbn. rewrite Ep. f_equal; [|exact (f_equal pt_cur K1)|exact (f_equal pt_init K1)].
    rewrite list_alter_alter_eq, (list_alter_insert_lookup _ _ _ p) by done. by rewrite list_fmap_insert.
  - apply bind_Ok in H as (u2 & s2 & R2 & H). injection H as <- <-. run_keep R2. congruence.
Qed.

Lemma keeps_fblock_loop n : forall i prev, keeps (fblock_loop i n prev).
Proof. induction n; intros; cbn [fblock_loop]; keeps_tac. Qed.
Lemma keeps_init_paging i : keeps (init_paging i).
Proof. pose proof keeps_fblock_loop. unfold init_paging. keeps_tac. Qed.
Lemma keeps_copy_swap_loop i np fuel : forall off, keeps (copy_swap_loop i np off fuel).
Proof. induction fuel; intros; cbn [copy_swap_loop]; unfold file_of; keeps_tac. Qed.
Lemma keeps_copyAQ_loop np fuel : forall o c p, keeps (copyAQ_loop np o c p fuel).
Proof. induction fuel; intros; cbn [copyAQ_loop]; keeps_tac. Qed.
Lemma keeps_copyAQ np fuel : keeps (copyAQ np fuel).
Proof. pose proof keeps_copyAQ_loop. unfold copyAQ. keeps_tac. Qed.
Lemma keeps_dup_files np fs : forall i, keeps (dup_files np fs i).
Proof. induction fs; intros; cbn [dup_files]; keeps_tac. Qed.
Lemma keeps_fork_paging sel i np fuel : keeps (fork_paging sel i np fuel).
Proof. pose proof keeps_copy_swap_loop. pose proof keeps_copyAQ. unfold fork_paging. keeps_tac. Qed.
#[local] Hint Resolve keeps_init_paging keeps_dup_files keeps_fork_paging : keeps.

(** A new slot, or one that was given back for lack of memory. *)
Lemma run_allocproc sel s r s' :
  allocproc sel s = Ok r s' -> wf (table_of s) -> 0 <= nextpid s < 2147483647 ->
  match r with
  | None => rtc tstep (table_of s) (table_of s')
  | Some i => tstep (table_of s) (table_of s') /\
      curproc s' = curproc s /\ initproc s' = initproc s /\
      exists c, pt_procs (table_of s') !! i = Some c /\ c_state c = EMBRYO /\ c_pid c = nextpid s
  end.
Proof.
  unfold allocproc. intros (o & s1 & R1 & H)%bind_Ok Hw Hn. pose proof (run_allocproc_slot _ _ _ R1 Hn) as Hslot.
  destruct o as [i|]; [|injection H as <- <-; rewrite Hslot; apply rtc_refl].
  destruct Hslot as (p & Hp & Hs & _ & E1).
  assert (tstep (table_of s) (table_of s1)) as Hstep.
  { rewrite E1. apply (t_alloc (table_of s) i (core_of p)); [by apply table_lookup|done|]. cbn. lia. }
  assert (pt_procs (table_of s1) !! i = Some {| (core_of p) with c_state := EMBRYO; c_pid := nextpid s |}) as Hc1.
  { rewrite E1. cbn [pt_procs]. apply list_lookup_insert_eq. eapply lookup_lt_Some. by apply table_lookup. }
  apply bind_Ok in H as (k & s2 & R2 & H). run_keep R2. apply bind_Ok in H as (u3 & s3 & R3 & H). run_keep R3.
  destruct (k =? 0).
  - apply bind_Ok in H as (u4 & s4 & R4 & H). injection H as <- <-.
    apply (run_set_proc _ _ (fun c => {| c with c_state := UNUSED |})) in R4; [|done].
    eapply rtc_l; [exact Hstep|]. apply rtc_once. rewrite R4, R3, R2, (set_core_insert _ _ _ _ Hc1).
    apply (t_abandon (table_of s1) i _ Hc1); [done|]. rewrite E1. cbn [pt_init table_of]. intros Hk.
    destruct (w_init _ Hw i Hk) as (d & Hd & Hst & _). rewrite (table_lookup _ _ _ Hp) in Hd. injection Hd as <-. cbn in Hst.
    rewrite Hs in Hst. by destruct Hst.
  - apply bind_Ok in H as (u4 & s4 & R4 & H). run_keep R4. apply bind_Ok in H as (u5 & s5 & R5 & H). run_keep R5.
    apply bind_Ok in H as (u6 & s6 & R6 & H). run_keep R6. apply bind_Ok in H as (u7 & s7 & R7 & H). run_keep R7.
    apply bind_Ok in H as (u8 & s8 & R8 & H). run_keep R8. apply bind_Ok in H as (u9 & s9 & R9 & H). run_keep R9.
    injection H as <- <-. assert (table_of s9 = table_of s1) as E9 by congruence. rewrite E9. split_and!; [done| | |eauto].
    + rewrite (f_equal pt_cur E9 : curproc s9 = _), E1. done.
    + rewrite (f_equal pt_init E9 : initproc s9 = _), E1. done.
Qed.

Lemma embryo_not_init t me i c :
  wf t -> pt_cur t = Some me -> pt_procs t !! i = Some c -> c_state c = EMBRYO -> pt_init t ≠ Some i.
Proof.
  intros Hw Hc Hi Hs Hk. destruct (w_cur _ Hw me Hc) as (d & Hd). pose proof (wf_cur_live _ _ _ Hw Hd Hc) as Hl.
  destruct (wf_booted t me d Hw Hd) as (k & dk & Hk' & Hdk & Hlk); [by destruct (c_state d)..|].
  assert (k = i) as -> by congruence. assert (dk = c) as -> by congruence. by rewrite Hs in Hlk.
Qed.

Lemma refine_fork sel fuel s r s' :
  fork sel fuel s = Ok r s' -> wf (table_of s) -> 0 <= nextpid s < 2147483647 ->
  rtc tstep (table_of s) (table_of s') /\ (r = -1 \/ r = nextpid s).
Proof.
  unfold fork. intros H Hw Hn. apply bind_Ok in H as (me & s0 & [= <- <-] & H). apply bind_Ok in H as (p & s0 & R0 & H).
  apply run_cur in R0 as [-> (i & Hc & Hp)]. rewrite Hc in H.
  apply bind_Ok in H as (o & s1 & R1 & H). pose proof (run_allocproc _ _ _ _ R1 Hw Hn) as Ha.
  destruct o as [np|]; [|injection H as <- <-; split; [exact Ha|by left]].
  destruct Ha as (Hstep & Ec1 & _ & c & Hcn & Hst & Hpid). rewrite Hc in Ec1.
  pose proof (wf_step _ _ Hstep Hw) as Hw1.
  apply bind_Ok in H as (pgd & s2 & R2 & H). run_keep R2. apply bind_Ok in H as (u3 & s3 & R3 & H). run_keep R3.
  destruct (pgd =? 0).
  - apply bind_Ok in H as (q & s4 & R4 & H). run_keep R4. apply bind_Ok in H as (u5 & s5 & R5 & H). run_keep R5.
    apply bind_Ok in H as (u6 & s6 & R6 & H). run_keep R6. apply bind_Ok in H as (u7 & s7 & R7 & H). injection H as <- <-.
    apply (run_set_proc _ _ (fun c => {| c with c_state := UNUSED |})) in R7; [|done].
    split; [|by left]. eapply rtc_l; [exact Hstep|]. apply rtc_once.
    rewrite R7, R6, R5, R4, R3, R2, (set_core_insert _ _ _ _ Hcn).
    apply (t_abandon _ np c); [done|done|]. by eapply embryo_not_init.
  - apply bind_Ok in H as (u4 & s4 & R4 & H). run_keep R4. apply bind_Ok in H as (u5 & s5 & R5 & H).
    apply (run_set_proc _ _ (fun c => {| c with c_parent := Some i |})) in R5; [|done].
    apply bind_Ok in H as (q & s6 & R6 & H). run_keep R6. apply bind_Ok in H as (u7 & s7 & R7 & H). run_keep R7.
    apply bind_Ok in H as (u8 & s8 & R8 & H). run_keep R8. apply bind_Ok in H as (u9 & s9 & R9 & H). run_keep R9.
    apply bind_Ok in H as (u10 & s10 & R10 & H). run_keep R10. apply bind_Ok in H as (d & s11 & R11 & H). run_keep R11.
    apply bind_Ok in H as (u12 & s12 & R12 & H). run_keep R12. apply bind_Ok in H as (u13 & s13 & R13 & H). run_keep R13.
    apply bind_Ok in H as (q2 & s14 & R14 & H). apply run_get_proc in R14 as [-> Hq2].
    apply bind_Ok in H as (u15 & s15 & R15 & H). run_keep R15. apply bind_Ok in H as (u16 & s16 & R16 & H).
    apply (run_set_proc _ _ (fun c => {| c with c_state := RUNNABLE |})) in R16; [|done].
    apply bind_Ok in H as (u17 & s17 & R17 & H). run_keep R17. injection H as <- <-.
    assert (table_of s13 = set_core np (fun c => {| c with c_parent := Some i |}) (table_of s1)) as E13.
    { rewrite R13, R12, R11, R10, R9, R8, R7, R6, R5, R4, R3, R2. done. }
    split.
    + eapply rtc_l; [exact Hstep|]. apply rtc_once. rewrite R17, R16, R15, E13.
      unfold set_core at 1. cbn [pt_procs set_core]. rewrite list_alter_alter_eq, (list_alter_insert_lookup _ _ _ c) by done.
      by apply (t_birth (table_of s1) np c i).
    + right. apply table_lookup in Hq2. rewrite E13 in Hq2. cbn in Hq2. rewrite list_lookup_alter_eq in Hq2.
      change (core_of <$> procs s1) with (pt_procs (table_of s1)) in Hq2. rewrite Hcn in Hq2. cbn in Hq2.
      injection Hq2 as _ E _ _ _. congruence.
Qed.

Lemma keeps_inituvm pd a n : keeps (inituvm pd a n).
Proof. unfold inituvm. keeps_tac. Qed.

Lemma refine_userinit sel code n nm s a s' :
  userinit sel code n nm s = Ok a s' -> wf (table_of s) -> 0 <= nextpid s < 2147483647 -> initproc s = None ->
  rtc tstep (table_of s) (table_of s').
Proof.
  unfold userinit. intros H Hw Hn Hi. apply bind_Ok in H as (o & s1 & R1 & H).
  pose proof (run_allocproc _ _ _ _ R1 Hw Hn) as Ha. apply bind_Ok in H as (u & s2 & [= _ <-] & H).
  destruct o as [i|]; [|done]. destruct Ha as (Hstep & Ec1 & Ei1 & c & Hcn & Hst & Hpid).
  set (s2 := {| s1 with initproc := Some i |}) in *.
  apply bind_Ok in H as (pgd & s3 & R3 & H). apply keeps_setupkvm in R3.
  apply bind_Ok in H as (u4 & s4 & R4 & H). run_keep R4. destruct (pgd =? 0); [done|].
  apply bind_Ok in H as (u5 & s5 & R5 & H). apply keeps_inituvm in R5.
  apply bind_Ok in H as (u6 & s6 & R6 & H). run_keep R6. apply bind_Ok in H as (p & s7 & R7 & H). run_keep R7.
  apply bind_Ok in H as (u8 & s8 & R8 & H). run_keep R8. apply bind_Ok in H as (u9 & s9 & R9 & H). run_keep R9.
  apply bind_Ok in H as (u10 & s10 & R10 & H). run_keep R10. apply bind_Ok in H as (ds & s11 & R11 & H). run_keep R11.
  apply bind_Ok in H as (u12 & s12 & R12 & H). run_keep R12. apply bind_Ok in H as (u13 & s13 & R13 & H). run_keep R13.
  apply bind_Ok in H as (u14 & s14 & R14 & H). run_keep R14. apply bind_Ok in H as (u15 & s15 & R15 & H). run_keep R15.
  apply bind_Ok in H as (u16 & s16 & R16 & H). run_keep R16. apply bind_Ok in H as (u17 & s17 & R17 & H). run_keep R17.
  apply bind_Ok in H as (cw & s18 & R18 & H). run_keep R18. apply bind_Ok in H as (u19 & s19 & R19 & H). run_keep R19.
  apply bind_Ok in H as (u20 & s20 & R20 & H). run_keep R20. apply bind_Ok in H as (u21 & s21 & R21 & H).
  apply (run_set_proc _ _ (fun c => {| c with c_state := RUNNABLE |})) in R21; [|done]. run_keep H.
  assert (table_of s20 = table_of s2) as E20 by congruence.
  eapply rtc_l; [exact Hstep|]. eapply rtc_l; [apply (t_first (table_of s1) i c); [done|done|by cbn; rewrite Ei1]|].
  change {| (table_of s1) with pt_init := Some i |} with (table_of s2).
  apply rtc_once. rewrite H, R21, E20. rewrite (set_core_insert _ _ _ c) by done. by apply (t_boot (table_of s2) i c).
Qed.

(** *** All operations *)

(** What a kernel thread or the scheduler does to the table. *)
Inductive kop :=
| OpUserinit (sel : selection_policy) (code n : Z) (nm : list Z)
| OpFork (sel : selection_policy) (fuel : nat)
| OpExit
| OpWait (sel : selection_policy)
| OpYield
| OpSleep (ch : channel) (lk : lockname)
| OpResume (lk : lockname)
| OpWakeup (ch : channel)
| OpKill (n : Z)
| OpRun (i : nat).
Definition run_op (o : kop) : M kstate unit :=
  match o with
  | OpUserinit sel code n nm => userinit sel code n nm
  | OpFork sel fuel => fork sel fuel ;; mret tt
  | OpExit => exit_locked
  | OpWait sel => wait sel ;; mret tt
  | OpYield => yield_enter
  | OpSleep ch lk => sleep_enter ch lk
  | OpResume lk => sleep_leave lk
  | OpWakeup ch => wakeup ch
  | OpKill n => kill n ;; mret tt
  | OpRun i => scheduler_run i
  end.
(** When each is executed: [exit] has checked that the process is not init,
    [wait] is the only code that sleeps on a process's own entry, and the
    scheduler runs processes it found runnable. *)
Definition op_pre (o : kop) (s : kstate) : Prop :=
  match o with
  | OpUserinit _ _ _ _ => 0 <= nextpid s < 2147483647 /\ initproc s = None
  | OpFork _ _ => 0 <= nextpid s < 2147483647
  | OpExit => initproc s ≠ curproc s
  | OpWait _ => exists me, curproc s = Some me
  | OpSleep ch _ => forall i, curproc s = Some i -> ch ≠ ChProc i
  | OpRun i => curproc s = None /\ exists p, procs s !! i = Some p /\ state p = RUNNABLE
  | _ => True
  end.

Lemma refine_op o s a s' :
  wf (table_of s) -> op_pre o s -> run_op o s = Ok a s' -> rtc tstep (table_of s) (table_of s').
Proof.
  intros Hw Hpre H. destruct o; cbn [run_op op_pre] in *.
  - destruct Hpre. by eapply refine_userinit.
  - apply bind_Ok in H as (r & s1 & R & [= _ <-]). by destruct (refine_fork _ _ _ _ _ R Hw Hpre).
  - apply rtc_once. by eapply refine_exit.
  - apply bind_Ok in H as (r & s1 & R & [= _ <-]). destruct Hpre as [me Hme]. by eapply refine_wait.
  - apply rtc_once. by eapply refine_yield.
  - apply rtc_once. eapply refine_sleep; [exact H|]. intros i Hi E. by destruct (Hpre i Hi).
  - apply rtc_once. by eapply refine_sleep_leave.
  - apply refine_wakeup in H as ->. apply rtc_once. constructor.
  - apply bind_Ok in H as (r & s1 & R & [= _ <-]). by eapply refine_kill.
  - destruct Hpre as (Hc & p & Hp & Hs). apply rtc_once. by eapply refine_run.
Qed.


(** ** The scheduler is fair *)

(** The entry the scheduler runs next when it is at position [j]: the loop
    goes on to the end of the table and starts again. *)
Definition sched_pick (l : list proc) (j : nat) : option nat :=
  match next_runnable (drop j l) j with
  | Some k => Some k
  | None => next_runnable l 0
  end.
(** The entries it runs, one for each of the given contents of the table. *)
Fixpoint sched_picks (tables : list (list proc)) (j : nat) : list nat :=
  match tables with
  | [] => []
  | l :: rest => match sched_pick l j with Some k => k :: sched_picks rest (S k) | None => [] end
  end.

Lemma next_runnable_le l : forall i j p, l !! i = Some p -> state p = RUNNABLE ->
  exists k, next_runnable l j = Some k /\ (j <= k <= j + i)%nat.
Proof.
  induction l as [|q l IH]; intros i j p Hi Hs; [done|]. cbn. unfold is_state.
  destruct i as [|i]; cbn in Hi.
  - injection Hi as ->. rewrite bool_decide_eq_true_2 by done. exists j. split; [done|lia].
  - case_bool_decide; [exists j; split; [done|lia]|].
    destruct (IH i (S j) p Hi Hs) as (k & Hk & Hle). exists k. split; [done|lia].
Qed.
Lemma next_runnable_lt l : forall j k, next_runnable l j = Some k -> (j <= k < j + length l)%nat.
Proof.
  induction l as [|q l IH]; intros j k H; [done|]. cbn in *. case_match; [injection H as <-; lia|].
  specialize (IH (S j) k H). lia.
Qed.

(** How far the position [j] is from entry [i], going around. *)
Definition sched_dist (j i : nat) : nat := if decide (j <= i)%nat then (i - j)%nat else (NPROC - j + i)%nat.

Lemma sched_pick_closer l j i p :
  length l = NPROC -> (j <= NPROC)%nat -> l !! i = Some p -> state p = RUNNABLE ->
  exists k, sched_pick l j = Some k /\ (k < NPROC)%nat /\ (k = i \/ (sched_dist (S k) i < sched_dist j i)%nat).
Proof.
  intros Hl Hj Hi Hs. assert (i < NPROC)%nat by (rewrite <- Hl; by eapply lookup_lt_Some).
  unfold sched_pick, sched_dist. destruct (decide (j <= i)%nat) as [Hji|Hji].
  - destruct (next_runnable_le (drop j l) (i - j) j p) as (k & Hk & Hle); [|done|].
    { rewrite lookup_drop. by replace (j + (i - j))%nat with i by lia. }
    rewrite Hk. exists k. split_and!; [done|lia|]. destruct (decide (k = i)); [by left|right].
    rewrite decide_True by lia. lia.
  - destruct (next_runnable (drop j l) j) as [k|] eqn:Ek.
    + apply next_runnable_lt in Ek. rewrite length_drop in Ek. exists k. split_and!; [done|lia|]. right.
      rewrite decide_False by lia. lia.
    + destruct (next_runnable_le l i 0 p Hi Hs) as (k & Hk & Hle). rewrite Hk. exists k. split_and!; [done|lia|].
      destruct (decide (k = i)); [by left|right]. rewrite decide_True by lia. lia.
Qed.

(** C34. A process that stays runnable is run after at most NPROC - 1 others,
    wherever the scheduler is and whatever happens to the other processes in
    the meantime. *)
Theorem scheduler_fair tables : forall j i,
  (j <= NPROC)%nat -> (sched_dist j i < length tables)%nat ->
  Forall (fun l => length l = NPROC /\ exists p, l !! i = Some p /\ state p = RUNNABLE) tables ->
  i ∈ sched_picks tables j /\ (sched_dist j i < NPROC)%nat.
Proof.
  intros j i Hj Hd Hall. split.
  - revert j Hj Hd. induction Hall as [|l rest (Hl & p & Hi & Hs) Hall IH]; intros j Hj Hd; [cbn in Hd; lia|].
    destruct (sched_pick_closer l j i p Hl Hj Hi Hs) as (k & Hk & Hlt & Hc). cbn. rewrite Hk.
    destruct Hc as [->|Hc]; [apply elem_of_cons; by left|]. apply elem_of_cons. right. apply IH; [lia|].
    cbn in Hd. lia.
  - destruct Hall as [|l rest (Hl & p & Hi & Hs) Hall]; [cbn in Hd; lia|].
    assert (i < NPROC)%nat by (rewrite <- Hl; by eapply lookup_lt_Some). unfold sched_dist. case_decide; lia.
Qed.

(** ** fork copies the swap file *)

Lemma wp_file_of i p c Q s :
  procs s !! i = Some p -> swapfiles s !! swapFile p = Some c -> Q c s -> wp (file_of i) Q s.
Proof.
  intros Hp Hc HQ. unfold file_of. rewrite wp_bind. apply (wp_get_proc _ _ _ _ Hp). rewrite wp_bind. cbn. by rewrite Hc.
Qed.
Lemma wp_copy_swap_loop i np pi pn c fuel : forall s o Q,
  procs s !! i = Some pi -> procs s !! np = Some pn -> swapFile pi ≠ swapFile pn ->
  swapfiles s !! swapFile pi = Some c -> swapfiles s !! swapFile pn = Some (take o c) ->
  Z.of_nat (length c) <= MAXFILE * BSIZE -> (o <= length c)%nat -> (length c - o < fuel)%nat ->
  Q tt {| s with swapfiles := <[swapFile pn := c]> (swapfiles s) |} ->
  wp (copy_swap_loop i np (Z.of_nat o) fuel) Q s.
Proof.
  induction fuel as [|fuel IH]; intros s o Q Hi Hn Hne Hci Hcn Hm Ho Hf HQ; [lia|]. cbn [copy_swap_loop].
  rewrite wp_bind. apply (wp_file_of _ pi c); [done..|].
  rewrite read_at_le; [|lia|done|done]. rewrite Nat2Z.id.
  destruct (take (Z.to_nat (PGSIZE / 2)) (drop o c)) as [|b bs] eqn:Eb.
  { assert (o = length c) as ->.
    { apply (f_equal length) in Eb. rewrite length_take, length_drop in Eb.
      change (Z.to_nat (PGSIZE / 2)) with 2048%nat in Eb. cbn [length] in Eb. lia. }
    rewrite take_ge in Hcn by lia. rewrite (insert_id (swapfiles s)) in HQ by done. wp_steps. by destruct s. }
  set (n := Z.to_nat (PGSIZE / 2)) in *. assert (n <= 2048)%nat by done.
  assert (length (b :: bs) = Nat.min n (length c - o)) as El by (by rewrite <- Eb, length_take, length_drop).
  assert (0 < length (b :: bs))%nat by (cbn; lia).
  rewrite wp_bind. apply (wp_file_of _ pn (take o c)); [done..|]. set (bb := b :: bs) in *.
  rewrite filewrite_loop_ok; [|rewrite length_take; lia|lia|unfold FILEWRITE_MAX; lia].
  rewrite Nat2Z.id, <- Eb, splice_next, Eb by done. rewrite wp_bind. apply (wp_get_proc _ _ _ _ Hn). wp_steps.
  rewrite <- Nat2Z.inj_add. apply IH; [done|done|done|by cbn [swapfiles]; rewrite lookup_insert_ne| |done|lia|lia|].
  2:{ cbn [swapfiles]. by rewrite insert_insert_eq. }
  cbn [swapfiles]. rewrite lookup_insert_eq, El. f_equal. destruct (decide (n <= length c - o)%nat).
  - by rewrite Nat.min_l by lia.
  - rewrite Nat.min_r by lia. rewrite !take_ge by lia. done.
Qed.

(** [fork] gives the child a copy of the parent's swap file: the loop that
    copies it half a page at a time ends, with the whole file copied and
    nothing else changed, whatever its length. *)
Theorem fork_copies_swap_file i np pi pn c s :
  procs s !! i = Some pi -> procs s !! np = Some pn -> swapFile pi ≠ swapFile pn ->
  swapfiles s !! swapFile pi = Some c -> swapfiles s !! swapFile pn = Some [] ->
  Z.of_nat (length c) <= MAXFILE * BSIZE ->
  wp (copy_swap_loop i np 0 (S (length c)))
    (fun _ s' => s' = {| s with swapfiles := <[swapFile pn := c]> (swapfiles s) |}) s.
Proof. intros. apply (wp_copy_swap_loop i np pi pn c (S (length c)) s 0); [done..|lia|lia|done]. Qed.

(** ** Marks on unused entries *)

Lemma find_proc_alter test f l : (forall p, test (f p) = test p) ->
  forall i k, find_proc test (alter f i l) k = find_proc test l k.
Proof.
  intros Hf. induction l as [|p l IH]; intros [|i] k; cbn; [done|done|by rewrite Hf|]. change (list_alter f i l) with (alter f i l). by rewrite IH.
Qed.
Lemma wp_allocproc_slot s i p Q :
  L_ptable ∉ held s -> find_proc (is_state UNUSED) (procs s) 0 = Some i -> procs s !! i = Some p ->
  Q (Some i) {| s with procs := <[i := {| p with state := EMBRYO; pid := nextpid s |}]> (procs s);
                       nextpid := s32 (nextpid s + 1) |} ->
  wp allocproc_slot Q s.
Proof.
  intros Hl Hf Hp HQ. unfold allocproc_slot. rewrite wp_bind. apply wp_acquire; [done|].
  destruct s as [m k h ps c np ini t c2 c3 kp bu sw ino cp]. cbn in Hl, Hf, Hp, HQ |- *.
  rewrite wp_bind, wp_gets. cbn [procs]. rewrite Hf. rewrite wp_bind, wp_set_proc. cbn.
  rewrite (list_alter_insert_lookup _ _ _ p Hp). rewrite wp_bind, wp_gets, wp_bind, wp_set_proc. cbn.
  rewrite (list_alter_insert_lookup _ _ _ _ (list_lookup_insert_eq _ _ _ (lookup_lt_Some _ _ _ Hp))), list_insert_insert_eq.
  rewrite wp_bind, wp_modify, wp_bind. cbn. apply wp_release; [apply elem_of_cons; by left|]. cbn [held].
  rewrite release_acquired by done. exact HQ.
Qed.

(** Finding: [kill] compares only the process id, and an unused entry has
    id 0, so that [kill(0)] succeeds and marks the entry that [allocproc] takes
    next; neither [allocproc] nor [fork] clears the mark. *)
Theorem kill_zero_marks_next s i p :
  L_ptable ∉ held s -> procs s !! i = Some p ->
  find_proc (fun p => pid p =? 0) (procs s) 0 = Some i -> find_proc (is_state UNUSED) (procs s) 0 = Some i ->
  wp (r ← kill 0; o ← allocproc_slot; mret (r, o))
    (fun x s' => x = (0, Some i) /\ exists q, procs s' !! i = Some q /\
                 state q = EMBRYO /\ pid q = nextpid s /\ killed q = 1) s.
Proof.
  intros Hl Hp Hf Hu. assert (state p = UNUSED) as Es.
  { apply find_proc_Some in Hu as (_ & p' & Hp' & Hs & _). rewrite Nat.sub_0_r, Hp in Hp'. injection Hp' as <-.
    unfold is_state in Hs. by apply bool_decide_eq_true in Hs. }
  unfold kill. rewrite !wp_bind. apply wp_acquire; [done|].
  destruct s as [m k h ps c np ini t c2 c3 kp bu sw ino cp]. cbn in Hl, Hp, Hf, Hu |- *.
  rewrite wp_bind, wp_gets. cbn [procs]. rewrite Hf. rewrite wp_bind, wp_set_proc, wp_bind. cbn.
  assert (alter (fun p => {| p with killed := 1 |}) i ps !! i = Some {| p with killed := 1 |}) as Hp1
    by (by rewrite list_lookup_alter_eq, Hp).
  eapply wp_get_proc; [exact Hp1|]. unfold is_state at 1. cbn [state]. rewrite Es, bool_decide_eq_false_2 by done.
  rewrite wp_bind. cbn [when]. rewrite wp_ret, wp_bind. apply wp_release; [cbn; apply elem_of_cons; by left|].
  rewrite wp_ret, wp_bind. cbn [held]. rewrite release_acquired by done.
  eapply wp_allocproc_slot; [done| |exact Hp1|].
  - cbn [procs]. rewrite find_proc_alter; [done|]. by intros [].
  - rewrite wp_ret. split; [done|]. eexists. cbn [procs nextpid]. split.
    + apply list_lookup_insert_eq. by eapply lookup_lt_Some.
    + done.
Qed.

(** ** The stack of a new process *)

(** Reduces the fields of a state that has been taken apart. *)
Ltac kst := cbn [mem km held procs curproc nextpid initproc ticks cr2 cr3 kpgdir buffer swapfiles inodes mycpu].
(** Assigns to fields of an entry, which gets a new name. *)
Lemma wp_set_insert m k h ps c np ini t c2 c3 kp bu sw ino cp i q f Q :
  (i < length ps)%nat ->
  (forall q', q' = f q -> Q tt (mk_kstate m k h (<[i := q']> ps) c np ini t c2 c3 kp bu sw ino cp)) ->
  wp (set_proc i f) Q (mk_kstate m k h (<[i := q]> ps) c np ini t c2 c3 kp bu sw ino cp).
Proof.
  intros Hi HQ. rewrite wp_set_proc. cbn.
  rewrite (list_alter_insert_lookup _ _ _ q (list_lookup_insert_eq _ _ _ Hi)), list_insert_insert_eq. by apply HQ.
Qed.
Lemma load32_memset_ne m d c n b : 0 <= n -> d + n <= b \/ b + 4 <= d -> load32 (memset m d c n) b = load32 m b.
Proof. intros Hn Hb. apply load32_ext. intros x Hx. rewrite load8_memset by done. by rewrite decide_False by lia. Qed.

(** A new process has its own kernel stack of one page, at its top the
    trap frame, below it the return address into [trapret] and the context
    that makes [swtch] return into [forkret]; its entry is an embryo with the
    next process id. *)
Theorem allocproc_stack s i p f l :
  L_ptable ∉ held s -> find_proc (is_state UNUSED) (procs s) 0 = Some i -> procs s !! i = Some p ->
  kmem_unlocked s -> kmem_ok (km s) (f :: l) ->
  wp (allocproc NONE) (fun r s' => r = Some i /\ exists q, procs s' !! i = Some q /\
    state q = EMBRYO /\ pid q = nextpid s /\
    kstack q = frame_addr f /\
    tf q + TF_SIZE = kstack q + KSTACKSIZE /\
    load32 (mem s') (tf q - 4) = u32 trapret_addr /\
    context q + CTX_SIZE = tf q - 4 /\
    load32 (mem s') (context q + CTX_eip) = u32 forkret_addr /\
    held s' = held s) s.
Proof.
  intros Hl Hu Hp Hk Hok. unfold allocproc. rewrite wp_bind. apply (wp_allocproc_slot s i p); [done..|].
  rewrite wp_bind. eapply wp_kalloc_cons; [exact Hk|exact Hok|].
  assert (0 <= f < MAXPAGES) as Hf by (pose proof (ko_range _ _ Hok) as Hr; by apply Forall_cons in Hr as [[Hr _] _]).
  assert (frame_addr f ≠ 0 /\ 0 < frame_addr f - 4096) as [Hz Hpos] by (unfold frame_addr, KERNBASE, PGSIZE; lia).
  apply lookup_lt_Some in Hp. destruct s as [m k h ps c np ini t c2 c3 kp bu sw ino cp]. cbn in Hp |- *.
  match goal with |- context [<[i := ?q]> ps] => remember q as q0 eqn:E0 end.
  rewrite wp_bind. apply wp_set_insert; [done|]. intros q1 E1. destruct (Z.eqb_spec (frame_addr f) 0) as [|_]; [done|].
  rewrite wp_bind. apply wp_set_insert; [done|]. intros q2 E2.
  rewrite wp_bind, wp_st32 by (unfold KSTACKSIZE, TF_SIZE; lia). kst.
  rewrite wp_bind. apply wp_set_insert; [done|]. intros q3 E3. rewrite wp_bind, wp_set_mem. kst.
  rewrite wp_bind, wp_stf by (unfold KSTACKSIZE, TF_SIZE, CTX_SIZE; lia). kst.
  rewrite bool_decide_eq_true_2 by done. cbn [negb when]. rewrite wp_bind, wp_ret, wp_ret. split; [done|].
  kst. exists q3. split; [by apply list_lookup_insert_eq|].
  assert (state q3 = EMBRYO /\ pid q3 = np /\ kstack q3 = frame_addr f /\ tf q3 = frame_addr f + KSTACKSIZE - TF_SIZE /\
          context q3 = frame_addr f + KSTACKSIZE - TF_SIZE - 4 - CTX_SIZE) as (-> & -> & -> & -> & ->)
    by (rewrite E3; cbn; rewrite E2; cbn; rewrite E1; cbn; rewrite E0; done).
  unfold KSTACKSIZE, TF_SIZE, CTX_SIZE, CTX_eip. split_and!; [done|done|done|lia| |lia| |done].
  - rewrite load32_store32_ne by lia. rewrite load32_memset_ne by lia. apply load32_store32_eq.
  - apply load32_store32_eq.
Qed.

End Proc.

(** ** Witnesses *)

(** A file layer without files. *)
Definition no_files : FileLayer.
Proof.
  refine {| createSwapFile _ := mret 0; removeSwapFile _ := mret 0; filedup f := mret f; fileclose _ := mret tt;
            idup i := mret i; iput _ := mret tt; begin_op := mret tt; end_op := mret tt; namei_root := mret 1 |};
  intros; apply keeps_ret.
Defined.

(** A running init, and nothing else. *)
Definition demo_init : proc := {| proc_zero with state := RUNNING; pid := 1; kstack := 0x80300000; pgdir := 0x80301000 |}.
Definition demo_sched : kstate :=
  mk_kstate ∅ (mk_kmem 0 None ∅) [] (demo_init :: replicate 63 proc_zero) (Some 0%nat) 2 (Some 0%nat) 0 0 0 0x80302000
    [] ∅ ∅ cpu_zero.
Lemma demo_sched_wf : wf (table_of demo_sched).
Proof.
  eapply wf_steps, wf_boot_table.
  eapply rtc_l; [eapply (t_alloc _ 0); reflexivity|]. eapply rtc_l; [eapply (t_first _ 0); reflexivity|].
  eapply rtc_l; [eapply (t_boot _ 0); reflexivity|]. eapply rtc_l; [eapply (t_run _ 0); reflexivity|]. apply rtc_refl.
Qed.


Definition demo_ready : list proc := replicate 63 proc_zero ++ [ {| proc_zero with state := RUNNABLE |} ].
Lemma scheduler_fair_witness : 63%nat ∈ sched_picks (replicate 64 demo_ready) 0.
Proof.
  apply scheduler_fair; [vm_compute; lia|vm_compute; lia|]. apply Forall_replicate. split; [reflexivity|].
  eexists. split; reflexivity.
Defined.

Definition demo_forking : kstate :=
  {| demo_sched with procs := [ {| proc_zero with swapFile := 5 |}; {| proc_zero with swapFile := 6 |} ];
                     swapfiles := {[ 5 := replicate 3000 7; 6 := [] ]} |}.
Lemma fork_copies_swap_file_witness :
  wp (copy_swap_loop 0 1 0 3001) (fun _ s' => swapfiles s' !! 6 = Some (replicate 3000 7)) demo_forking.
Proof.
  eapply wp_mono; [eapply (fork_copies_swap_file 0 1 _ _ (replicate 3000 7) demo_forking); try reflexivity|].
  - discriminate.
  - rewrite length_replicate. unfold MAXFILE, BSIZE. lia.
  - intros _ s' ->. reflexivity.
Defined.

Lemma kill_zero_marks_next_witness :
  wp (r ← kill 0; o ← allocproc_slot; mret (r, o))
    (fun x s' => x = (0, Some 1%nat) /\ exists q, procs s' !! 1%nat = Some q /\
                 state q = EMBRYO /\ pid q = 2 /\ killed q = 1) demo_sched.
Proof. eapply kill_zero_marks_next; [apply not_elem_of_nil|reflexivity..]. Defined.

(** One free page. *)
Definition demo_one_free : kstate := {| demo_sched with km := mk_kmem 0 (Some 1000) {[ 1000 := mk_run None 0 ]} |}.
Lemma allocproc_stack_witness :
  wp (allocproc (KI := xv6_image) (FL := no_files) NONE) (fun r s' => r = Some 1%nat /\ exists q, procs s' !! 1%nat = Some q /\
    load32 (mem s') (context q + CTX_eip) = u32 (@forkret_addr xv6_image)) demo_one_free.
Proof.
  eapply wp_mono; [eapply (allocproc_stack (KI := xv6_image) (FL := no_files) demo_one_free 1 proc_zero 1000 [])|].
  - apply not_elem_of_nil.
  - reflexivity.
  - reflexivity.
  - by left.
  - split; [split; reflexivity|apply NoDup_singleton| |].
    + apply Forall_singleton, user_frame_xv6. lia.
    + by apply Forall_singleton.
  - intros r s' (-> & q & Hq & H). split; [done|]. exists q. split; [done|]. tauto.
Defined.
