(* ===== verification/Syscall.v ===== *)
(** System calls: the arguments on the user stack (syscall.c), the calls of
    sysproc.c and the dispatch by number. *)

From S2P Require Import Prelude Mmu Memory Machine Kalloc PageTable Uvm Cow Replace Aq Files Swap PTable Proc.
From stdpp Require Import base gmap list strings.
From Stdlib Require Import ZArith Lia.
Open Scope Z_scope.

(** How a call ends: it returns, the process sleeps in it, or the process is
    gone. *)
Inductive call_end := Returns (r : Z) | Blocks | Exits.

(** The calls of sysfile.c; Sysfile.v models what they do to files. *)
Class FileCalls := {
  sys_pipe : M kstate call_end;
  sys_read : M kstate call_end;
  sys_exec : M kstate call_end;
  sys_fstat : M kstate call_end;
  sys_chdir : M kstate call_end;
  sys_dup : M kstate call_end;
  sys_open : M kstate call_end;
  sys_write : M kstate call_end;
  sys_mknod : M kstate call_end;
  sys_unlink : M kstate call_end;
  sys_link : M kstate call_end;
  sys_mkdir : M kstate call_end;
  sys_close : M kstate call_end
}.

Section Syscall.
Context {KI : KernelImage} {FL : FileLayer} {FC : FileCalls}.

(** ** Arguments (syscall.c) *)

(** [-1] is [None]. *)
Definition fetchint (addr : Z) : M kstate (option Z) :=
  p ← cur;
  if (sz p <=? addr) || (sz p <? u32 (addr + 4)) then mret None else
  bs ← read_user addr 4;
  mret (Some (s32 (nth 0 bs 0 + 256 * nth 1 bs 0 + 65536 * nth 2 bs 0 + 16777216 * nth 3 bs 0))).

(** The search for the zero from [s] on. *)
Fixpoint fetchstr_loop (addr s ep : Z) (fuel : nat) : M kstate (option Z) :=
  if negb (s <? ep) then mret None else
  match fuel with
  | O => diverge
  | S fuel' =>
      bs ← read_user s 1;
      if nth 0 bs 0 =? 0 then mret (Some (s - addr)) else fetchstr_loop addr (s + 1) ep fuel'
  end.
(** The length; the string is at [addr]. *)
Definition fetchstr (addr : Z) : M kstate (option Z) :=
  p ← cur;
  if sz p <=? addr then mret None else
  fetchstr_loop addr addr (sz p) (Z.to_nat (sz p - addr)).

Definition argint (n : Z) : M kstate (option Z) :=
  p ← cur;
  esp ← ldf (tf p) TF_esp;
  fetchint (u32 (esp + 4 + 4 * n)).
Definition argptr (n size : Z) : M kstate (option Z) :=
  p ← cur;
  i ← argint n;
  match i with
  | None => mret None
  | Some i =>
      if (size <? 0) || (sz p <=? u32 i) || (sz p <? u32 (u32 i + size)) then mret None
      else mret (Some (u32 i))
  end.
(** The address and the length. *)
Definition argstr (n : Z) : M kstate (option (Z * Z)) :=
  addr ← argint n;
  match addr with
  | None => mret None
  | Some addr => r ← fetchstr (u32 addr); mret (match r with Some len => Some (u32 addr, len) | None => None end)
  end.

(** ** The calls of sysproc.c *)

Context (sel : selection_policy) (fuel : nat).

Definition sys_fork : M kstate call_end := r ← fork sel fuel; mret (Returns r).
Definition sys_exit : M kstate call_end := exit sel ;; mret Exits.
Definition sys_wait : M kstate call_end :=
  e ← wait sel; mret (match e with WaitReturns r => Returns r | WaitSleeps => Blocks end).
Definition sys_kill : M kstate call_end :=
  pid' ← argint 0;
  match pid' with
  | None => mret (Returns (-1))
  | Some pid' => r ← kill pid'; mret (Returns r)
  end.
Definition sys_getpid : M kstate call_end := p ← cur; mret (Returns (pid p)).
Definition sys_sbrk : M kstate call_end :=
  n ← argint 0;
  match n with
  | None => mret (Returns (-1))
  | Some n =>
      p ← cur;
      let addr := s32 (sz p) in
      r ← growproc sel n;
      mret (Returns (if r <? 0 then -1 else addr))
  end.
(** The loop of [sys_sleep] with the lock held; the difference of the unsigned
    ticks is compared with [n] as an unsigned number. *)
Definition sleep_round (ticks0 n : Z) : M kstate call_end :=
  t ← gets ticks;
  if u32 (t - ticks0) <? u32 n then
    p ← cur;
    if negb (killed p =? 0) then release L_ticks ;; mret (Returns (-1))
    else sleep_enter ChTicks L_ticks ;; mret Blocks
  else release L_ticks ;; mret (Returns 0).
Definition sys_sleep : M kstate call_end :=
  n ← argint 0;
  match n with
  | None => mret (Returns (-1))
  | Some n =>
      acquire L_ticks ;;
      ticks0 ← gets ticks;
      sleep_round ticks0 n
  end.
(** ... after a wakeup. *)
Definition sys_sleep_resume (ticks0 n : Z) : M kstate call_end := sleep_leave L_ticks ;; sleep_round ticks0 n.
Definition sys_uptime : M kstate call_end :=
  acquire L_ticks ;;
  xticks ← gets ticks;
  release L_ticks ;;
  mret (Returns (s32 xticks)).
Definition sys_getNumberOfFreePages : M kstate call_end := r ← getNumberOfFreePages; mret (Returns r).
Definition sys_getNumRefs : M kstate call_end :=
  i ← argint 0;
  match i with
  | None => mret (Returns (-1))
  | Some i => r ← getNumRefs i; mret (Returns r)
  end.

(** ** Dispatch *)

Definition NSYSCALLS : Z := 25.
Definition syscalls (num : Z) : option (M kstate call_end) :=
  nth (Z.to_nat num)
    [None; Some sys_fork; Some sys_exit; Some sys_wait; Some sys_pipe; Some sys_read; Some sys_kill; Some sys_exec;
     Some sys_fstat; Some sys_chdir; Some sys_dup; Some sys_getpid; Some sys_sbrk; Some sys_sleep; Some sys_uptime;
     Some sys_open; Some sys_write; Some sys_mknod; Some sys_unlink; Some sys_link; Some sys_mkdir; Some sys_close;
     None; Some sys_getNumberOfFreePages; Some sys_getNumRefs] None.
(** The message about an unknown number is not modelled. *)
Definition syscall : M kstate call_end :=
  p ← cur;
  eax ← ldf (tf p) TF_eax;
  let num := s32 eax in
  match (if (0 <? num) && (num <? NSYSCALLS) then syscalls num else None) with
  | Some call =>
      e ← call;
      match e with
      | Returns r => stf (tf p) TF_eax (u32 r) ;; mret e
      | _ => mret e
      end
  | None => stf (tf p) TF_eax (u32 (-1)) ;; mret (Returns (-1))
  end.

(** ** What the arguments are *)

(** The bytes of the user memory below [n], which is resident. *)
Definition resident (s : kstate) (n : Z) (b : Z -> Z) : Prop :=
  forall a, 0 <= a < n -> exists pa, xlate false a s = Some pa /\ load8 (mem s) pa = b a.
Definition word_of (b : Z -> Z) (a : Z) : Z := b a + 256 * b (a + 1) + 65536 * b (a + 2) + 16777216 * b (a + 3).

Lemma read_resident s n b k : forall a, resident s n b -> 0 <= a -> a + Z.of_nat k <= n -> read_user a k s = Ok (b <$> seqZ a (Z.of_nat k)) s.
Proof.
  induction k as [|k IH]; intros a Hr Ha Hk; [done|]. cbn [read_user]. destruct (Hr a) as (pa & Hx & Hb); [lia|].
  rewrite (bind_run _ _ s (Some pa) s) by (unfold gets; by rewrite Hx). rewrite (bind_run _ _ s (b a) s) by (unfold gets; by rewrite Hb).
  rewrite (bind_run _ _ _ _ _ (IH (a + 1) Hr ltac:(lia) ltac:(lia))). rewrite (seqZ_cons a (Z.of_nat (S k))) by lia. rewrite fmap_cons.
  by replace (Z.pred (Z.of_nat (S k))) with (Z.of_nat k) by lia.
Qed.
Lemma byte_range s n b a : resident s n b -> 0 <= a < n -> 0 <= b a < 256.
Proof. intros Hr Ha. destruct (Hr a Ha) as (pa & _ & <-). unfold load8. apply u8_range. Qed.

Section Fetch.
Context (s : kstate) (p : proc) (b : Z -> Z) (Hp : curp s = Some p) (Hsz : 0 <= sz p <= KERNBASE) (Hr : resident s (sz p) b).

Lemma wp_fetchint addr (Q : option Z -> kstate -> Prop) :
  0 <= addr < W32 -> Q (if addr + 4 <=? sz p then Some (s32 (word_of b addr)) else None) s -> wp (fetchint addr) Q s.
Proof.
  intros Ha HQ. unfold fetchint. rewrite wp_bind, (wp_cur p) by done. unfold KERNBASE, W32 in *.
  destruct (Z.leb_spec (sz p) addr); cbn [orb]; [wp_steps; by destruct (Z.leb_spec (addr + 4) (sz p)); [lia|]|]. rewrite u32_small by (unfold W32; lia).
  destruct (Z.ltb_spec (sz p) (addr + 4)); [wp_steps; by destruct (Z.leb_spec (addr + 4) (sz p)); [lia|]|]. destruct (Z.leb_spec (addr + 4) (sz p)); [|lia].
  rewrite wp_bind, (wp_eq _ _ _ _ s) by (apply (read_resident s (sz p) b 4); [done|lia|lia]). wp_steps. unfold word_of in HQ.
  assert (seqZ addr (Z.of_nat 4) = [addr; addr + 1; addr + 2; addr + 3]) as -> by (rewrite (seqZ_cons addr (Z.of_nat 4)), (seqZ_cons _ (Z.pred (Z.of_nat 4))), (seqZ_cons _ (Z.pred (Z.pred (Z.of_nat 4)))), (seqZ_cons _ (Z.pred (Z.pred (Z.pred (Z.of_nat 4))))), seqZ_nil by lia; repeat f_equal; lia). exact HQ.
Qed.
Lemma wp_fetchstr_loop addr ep : ep = sz p -> forall fuel' a (Q : option Z -> kstate -> Prop),
  0 <= addr <= a -> a <= ep -> (Z.to_nat (ep - a) <= fuel')%nat -> (forall i, addr <= i < a -> b i ≠ 0) ->
  (forall len, 0 <= len -> addr + len < ep -> b (addr + len) = 0 -> (forall i, 0 <= i < len -> b (addr + i) ≠ 0) -> Q (Some len) s) ->
  ((forall i, addr <= i < ep -> b i ≠ 0) -> Q None s) ->
  wp (fetchstr_loop addr a ep fuel') Q s.
Proof.
  intros Hep. induction fuel' as [|fuel' IH]; intros a Q Ha Hle Hf Hnz HS HN; cbn [fetchstr_loop]; (destruct (Z.ltb_spec a ep); cbn [negb]; [|wp_steps; apply HN; intros i Hi; apply Hnz; lia]); [lia|].
  rewrite wp_bind, (wp_eq _ _ _ _ s) by (apply (read_resident s (sz p) b 1); [done|lia|lia]). rewrite seqZ_cons by done. cbn [fmap list_fmap nth].
  destruct (Z.eqb_spec (b a) 0) as [E|E].
  - wp_steps. apply (HS (a - addr)); [lia|lia|by replace (addr + (a - addr)) with a by lia|]. intros i Hi. apply Hnz. lia.
  - apply IH; [lia|lia|lia| |done|done]. intros i Hi. destruct (Z.eq_dec i a) as [->|]; [done|]. apply Hnz. lia.
Qed.
Lemma wp_fetchstr addr (Q : option Z -> kstate -> Prop) :
  0 <= addr ->
  (forall len, 0 <= len -> addr + len < sz p -> b (addr + len) = 0 -> (forall i, 0 <= i < len -> b (addr + i) ≠ 0) -> Q (Some len) s) ->
  ((forall i, addr <= i < sz p -> b i ≠ 0) -> Q None s) -> wp (fetchstr addr) Q s.
Proof.
  intros Ha HS HN. unfold fetchstr. rewrite wp_bind, (wp_cur p) by done. destruct (Z.leb_spec (sz p) addr); [wp_steps; apply HN; lia|].
  apply wp_fetchstr_loop; [done|lia|lia|lia|lia|done|done].
Qed.
Context (Htf : tf p ≠ 0).
(** The place of the argument on the stack, and the argument. *)
Definition arg_slot (n : Z) : Z := u32 (load32 (mem s) (tf p + TF_esp) + 4 + 4 * n).
Definition arg_word (n : Z) : Z := word_of b (arg_slot n).

Lemma wp_argint n (Q : option Z -> kstate -> Prop) :
  Q (if arg_slot n + 4 <=? sz p then Some (s32 (arg_word n)) else None) s -> wp (argint n) Q s.
Proof.
  intros HQ. unfold argint. rewrite wp_bind, (wp_cur p) by done. rewrite wp_bind, wp_ldf by done. apply wp_fetchint; [apply u32_range|done].
Qed.
Lemma word_range a : 0 <= a -> a + 4 <= sz p -> u32 (s32 (word_of b a)) = word_of b a.
Proof.
  intros Ha Hk. pose proof (byte_range s (sz p) b a Hr ltac:(lia)). pose proof (byte_range s (sz p) b (a + 1) Hr ltac:(lia)).
  pose proof (byte_range s (sz p) b (a + 2) Hr ltac:(lia)). pose proof (byte_range s (sz p) b (a + 3) Hr ltac:(lia)).
  assert (0 <= word_of b a < W32) as Hw by (unfold word_of, W32; lia). unfold s32. rewrite (u32_small (word_of b a)) by done.
  destruct (_ <? _); [by apply u32_small|]. unfold u32, W32 in *. rewrite <- (Z.mod_add (word_of b a - 4294967296) 1) by lia. rewrite Z.mod_small; lia.
Qed.
Lemma arg_range n : arg_slot n + 4 <= sz p -> u32 (s32 (arg_word n)) = arg_word n /\ 0 <= arg_word n < W32.
Proof.
  intros Hin. assert (u32 (s32 (arg_word n)) = arg_word n) as E by (apply word_range; [apply u32_range|done]). split; [done|]. rewrite <- E. apply u32_range.
Qed.
(** C24. A pointer argument is given to the kernel only if the block of [size]
    bytes lies in the memory of the process; a string argument only if it
    ends there with a zero: no sum wraps around, and an argument slot outside
    the memory is an error. *)
Theorem arguments_checked n size :
  -2147483648 <= size < 2147483648 ->
  wp (argptr n size) (fun r s' => s' = s /\
    match r with
    | Some ptr => arg_slot n + 4 <= sz p /\ ptr = arg_word n /\ 0 <= ptr < sz p /\ 0 <= size /\ ptr + size <= sz p
    | None => ~ (arg_slot n + 4 <= sz p /\ arg_word n < sz p /\ 0 <= size /\ arg_word n + size <= sz p)
    end) s /\
  wp (argstr n) (fun r s' => s' = s /\
    match r with
    | Some (ptr, len) => arg_slot n + 4 <= sz p /\ ptr = arg_word n /\ 0 <= ptr /\ 0 <= len /\ ptr + len < sz p /\
        b (ptr + len) = 0 /\ forall i, 0 <= i < len -> b (ptr + i) ≠ 0
    | None => ~ (arg_slot n + 4 <= sz p /\ exists len, 0 <= len /\ arg_word n + len < sz p /\ b (arg_word n + len) = 0)
    end) s.
Proof.
  intros Hs. pose proof (u32_range (load32 (mem s) (tf p + TF_esp) + 4 + 4 * n)) as Hslot. fold (arg_slot n) in Hslot. unfold KERNBASE, W32 in *. split.
  - unfold argptr. rewrite wp_bind, (wp_cur p) by done. rewrite wp_bind. apply wp_argint. destruct (Z.leb_spec (arg_slot n + 4) (sz p)) as [Hin|]; [|wp_steps; split; [done|lia]].
    destruct (arg_range n Hin) as [-> Hw]. unfold W32 in Hw.
    destruct (Z.ltb_spec size 0); cbn [orb]; [wp_steps; split; [done|lia]|]. destruct (Z.leb_spec (sz p) (arg_word n)); cbn [orb]; [wp_steps; split; [done|lia]|].
    rewrite u32_small by (unfold W32; lia). destruct (Z.ltb_spec (sz p) (arg_word n + size)); cbn [orb]; wp_steps; (split; [done|lia]).
  - unfold argstr. rewrite wp_bind. apply wp_argint. destruct (Z.leb_spec (arg_slot n + 4) (sz p)) as [Hin|]; [|wp_steps; split; [done|lia]].
    destruct (arg_range n Hin) as [-> Hw].
    rewrite wp_bind. apply wp_fetchstr; [lia| |].
    + intros len H1 H2 H3 H4. wp_steps. split; [done|]. split_and!; try done; lia.
    + intros Hno. wp_steps. split; [done|]. intros (_ & len & H1 & H2 & H3). apply (Hno (arg_word n + len)); [lia|done].
Qed.
End Fetch.

(** A number that is no system call changes only the register of the result. *)
Theorem syscall_unknown s p :
  curp s = Some p -> tf p ≠ 0 ->
  let num := s32 (load32 (mem s) (tf p + TF_eax)) in
  (num <= 0 \/ num = 22 \/ NSYSCALLS <= num) ->
  wp syscall (fun e s' => e = Returns (-1) /\ s' = {| s with mem := store32 (mem s) (tf p + TF_eax) (u32 (-1)) |}) s.
Proof.
  intros Hp Ht num Hn. unfold syscall. rewrite wp_bind, (wp_cur p) by done. rewrite wp_bind, wp_ldf by done. fold num.
  assert ((if (0 <? num) && (num <? NSYSCALLS) then syscalls num else None) = None) as ->.
  { destruct (Z.ltb_spec 0 num); [|done]. destruct (Z.ltb_spec num NSYSCALLS); [|done]. destruct Hn as [|[->|]]; [lia|reflexivity|lia]. }
  rewrite wp_bind, wp_stf by done. wp_steps. done.
Qed.
(** The result of a call goes to the register of the caller. *)
Lemma syscall_result s p call :
  curp s = Some p -> tf p ≠ 0 ->
  let num := s32 (load32 (mem s) (tf p + TF_eax)) in
  0 < num < NSYSCALLS -> syscalls num = Some call ->
  forall r s1, call s = Ok (Returns r) s1 -> syscall s = Ok (Returns r) {| s1 with mem := store32 (mem s1) (tf p + TF_eax) (u32 r) |}.
Proof.
  intros Hp Ht num Hn Hc r s1 E. enough (wp syscall (fun e s' => e = Returns r /\ s' = {| s1 with mem := store32 (mem s1) (tf p + TF_eax) (u32 r) |}) s) as H.
  { apply wp_Ok in H as (? & ? & -> & -> & ->). done. }
  unfold syscall. rewrite wp_bind, (wp_cur p) by done. rewrite wp_bind, wp_ldf by done. fold num.
  destruct (Z.ltb_spec 0 num); [|lia]. destruct (Z.ltb_spec num NSYSCALLS); [|lia]. cbn [andb]. rewrite Hc, wp_bind, (wp_eq _ _ _ _ _ E). rewrite wp_bind, wp_stf by done. wp_steps. done.
Qed.
End Syscall.

(** ** Witnesses *)

(** A process of one page, whose registers are 0. *)
Definition demo_caller : proc := {| demo_proc with sz := 4096 |}.
Definition demo_call : kstate := {| (demo_user 7 1) with procs := [demo_caller]; cr3 := 1000 * PGSIZE |}.
Lemma demo_resident : resident demo_call 4096 (fun a => load8 (demo_dir 7) (frame_addr 1005 + a)).
Proof.
  intros a Ha. exists (frame_addr 1005 + a). split; [|done]. rewrite <- (Z.add_0_l a) at 1.
  apply (xlate_page false demo_call 1000 0 1005 a); try reflexivity; unfold PGSIZE, KERNBASE in *; try lia; try done.
Qed.
Lemma arguments_checked_witness : wp (argptr 0 10) (fun r s' => s' = demo_call /\ r = Some 0) demo_call.
Proof.
  assert (0 <= sz demo_caller <= KERNBASE) as Hsz by (cbn; unfold KERNBASE; lia). assert (tf demo_caller ≠ 0) as Ht by done. assert (-2147483648 <= 10 < 2147483648) as H10 by lia.
  destruct (arguments_checked demo_call demo_caller (fun a => load8 (demo_dir 7) (frame_addr 1005 + a)) eq_refl Hsz demo_resident Ht 0 10 H10) as [Hptr _].
  assert (arg_slot demo_call demo_caller 0 = 4) as Es by (vm_compute; reflexivity).
  assert (arg_word demo_call demo_caller (fun a => load8 (demo_dir 7) (frame_addr 1005 + a)) 0 = 0) as Ew by (vm_compute; reflexivity).
  rewrite Es, Ew in Hptr. change (sz demo_caller) with 4096 in Hptr. eapply wp_mono; [exact Hptr|].
  intros [r|] s' [-> H]; (split; [done|]); [by destruct H as (_ & -> & _)|lia].
Defined.
Definition no_calls : FileCalls := ltac:(split; exact (mret (Returns (-1)))).
Lemma syscall_unknown_witness :
  wp (syscall (KI := xv6_image) (FL := no_files) (FC := no_calls) LAPA 0) (fun e s' => e = Returns (-1) /\ procs s' = [demo_caller]) demo_call.
Proof.
  eapply wp_mono; [apply (syscall_unknown (KI := xv6_image) (FL := no_files) (FC := no_calls) LAPA 0 demo_call demo_caller); [reflexivity|done|left; vm_compute; discriminate]|].
  intros e s' [-> ->]. done.
Defined.
