(* ===== verification/Trap.v ===== *)
(** Traps and interrupts (trap.c): the interrupt descriptor table and the
    handler that all of them reach. *)

From S2P Require Import Prelude Mmu Memory Machine Kalloc PageTable Uvm Cow Replace Aq Files Swap PTable Proc Syscall.
From stdpp Require Import base gmap list strings.
From Stdlib Require Import ZArith Lia.
Open Scope Z_scope.

Definition T_PGFLT : Z := 14.
Definition T_IRQ0 : Z := 32.
Definition T_SYSCALL : Z := 64.
Definition IRQ_TIMER : Z := 0.
Definition IRQ_KBD : Z := 1.
Definition IRQ_COM1 : Z := 4.
Definition IRQ_IDE : Z := 14.
Definition IRQ_SPURIOUS : Z := 31.

(** ** The interrupt descriptor table *)

Definition tvinit (vectors : Z -> Z) : list gatedesc :=
  let idt := (fun i => SETGATE false (Z.shiftl SEG_KCODE 3) (vectors (Z.of_nat i)) 0) <$> seq 0 256 in
  <[64%nat := SETGATE true (Z.shiftl SEG_KCODE 3) (vectors T_SYSCALL) DPL_USER]> idt.

(** Every vector has a gate to its entry point in the kernel's code segment;
    user code can only call the gate of system calls, which alone leaves
    interrupts enabled. *)
Theorem tvinit_gates vectors i :
  (i < 256)%nat ->
  exists g, tvinit vectors !! i = Some g /\ gate_offset g = u32 (vectors (Z.of_nat i)) /\ gate_cs g = 8 /\ gate_p g = 1 /\
    (gate_dpl g = DPL_USER <-> Z.of_nat i = T_SYSCALL) /\ (gate_type g = STS_TG32 <-> Z.of_nat i = T_SYSCALL).
Proof.
  intros Hi. unfold tvinit. destruct (decide (i = 64%nat)) as [->|Hne].
  - rewrite list_lookup_insert_eq by (by rewrite length_fmap, length_seq). eexists. split; [done|]. rewrite gate_offset_SETGATE. done.
  - rewrite list_lookup_insert_ne by done. rewrite list_lookup_fmap, lookup_seq_lt by done. eexists. split; [done|]. rewrite gate_offset_SETGATE. cbn [Nat.add].
    split_and!; [done|done|done|split; [discriminate|intros E; unfold T_SYSCALL in E; lia]|split; [discriminate|intros E; unfold T_SYSCALL in E; lia]].
Qed.
Lemma tvinit_gates_witness : exists g, tvinit (fun i => 0x80106000 + 12 * i) !! 64%nat = Some g /\ gate_offset g = 0x80106300.
Proof. destruct (tvinit_gates (fun i => 0x80106000 + 12 * i) 64) as (g & E & Ho & _); [lia|]. exists g. split; [exact E|]. etransitivity; [exact Ho|]. reflexivity. Defined.

(** ** The handler *)

(** What the process does next: it returns from the trap, calls [exit], gave
    up the processor, or sleeps in a system call. *)
Inductive trap_end := TReturn | TExit | TYield | TBlocked.

(** The drivers' interrupt handlers. *)
Class Drivers := {
  ideintr : M kstate unit;
  kbdintr : M kstate unit;
  uartintr : M kstate unit
}.

Definition TF_trapno : Z := 48.

Section Trap.
Context {KI : KernelImage} {FL : FileLayer} {FC : FileCalls} {DR : Drivers}.
Context (sel : selection_policy) (fuel : nat) (cpuid : Z).

(** The low half of the word at [cs]; [cs & 3] is the privilege level. *)
Definition cpl (frame : Z) : M kstate Z := w ← ldf frame TF_cs; mret (Z.land w 3).
Definition is_killed (p : proc) : bool := negb (killed p =? 0).

(** [myproc() && myproc()->killed && (tf->cs&3) == DPL_USER] *)
Definition killed_in_user (frame : Z) : M kstate bool :=
  me ← myproc;
  match me with
  | None => mret false
  | Some i => p ← get_proc i; if is_killed p then c ← cpl frame; mret (c =? DPL_USER) else mret false
  end.

Definition trap_syscall (frame : Z) : M kstate trap_end :=
  p ← cur;
  if is_killed p then mret TExit else
  set_cur (fun p => {| p with tf := frame |}) ;;
  e ← syscall sel fuel;
  match e with
  | Exits => mret TExit
  | Blocks => mret TBlocked
  | Returns _ => p ← cur; mret (if is_killed p then TExit else TReturn)
  end.

(** The switch on the number; [true] is an immediate [exit]. Messages and the
    acknowledgement to the interrupt controller are not modelled. *)
Definition trap_switch (frame trapno : Z) : M kstate bool :=
  if trapno =? T_PGFLT then
    p ← cur;
    if 2 <? pid p then pagefault sel ;; p ← cur; mret (is_killed p) else mret false
  else if trapno =? T_IRQ0 + IRQ_TIMER then
    when (cpuid =? 0) (
      acquire L_ticks ;;
      modify (fun s => {| s with ticks := u32 (ticks s + 1) |}) ;;
      wakeup ChTicks ;;
      release L_ticks) ;;
    mret false
  else if trapno =? T_IRQ0 + IRQ_IDE then ideintr ;; mret false
  else if trapno =? T_IRQ0 + IRQ_IDE + 1 then mret false
  else if trapno =? T_IRQ0 + IRQ_KBD then kbdintr ;; mret false
  else if trapno =? T_IRQ0 + IRQ_COM1 then uartintr ;; mret false
  else if (trapno =? T_IRQ0 + 7) || (trapno =? T_IRQ0 + IRQ_SPURIOUS) then mret false
  else
    me ← myproc;
    c ← cpl frame;
    match me with
    | None => panic "trap"
    | Some i => if c =? 0 then panic "trap" else set_proc i (fun p => {| p with killed := 1 |}) ;; mret false
    end.

(** The aging of the pages of a process at a clock tick. *)
Definition tick_paging (i : nat) : M kstate unit :=
  match sel with
  | NFUA => updateNfua i
  | LAPA => updateLapa i
  | AQ => updateAQ i fuel
  | _ => mret tt
  end.
Definition trap (frame : Z) : M kstate trap_end :=
  trapno ← ldf frame TF_trapno;
  if trapno =? T_SYSCALL then trap_syscall frame else
  gone ← trap_switch frame trapno;
  if (gone : bool) then mret TExit else
  k ← killed_in_user frame;
  if (k : bool) then mret TExit else
  me ← myproc;
  match me with
  | None => mret TReturn
  | Some i =>
      p ← get_proc i;
      if is_state RUNNING p && (trapno =? T_IRQ0 + IRQ_TIMER) then
        when (2 <? pid p) (tick_paging i) ;;
        yield_enter ;;
        mret TYield
      else k ← killed_in_user frame; mret (if (k : bool) then TExit else TReturn)
  end.
(** ... after the switch back from [yield]. *)
Definition trap_resume (frame : Z) : M kstate trap_end :=
  yield_leave ;;
  k ← killed_in_user frame;
  mret (if (k : bool) then TExit else TReturn).

(** ** Faults *)

(** C39. While a process is in a system call, its field [tf] points to the frame of
    that call, whose error code is 0; a fault of the kernel has another frame.
    So when the kernel writes to a page of the process that is shared
    copy-on-write, such as the buffer of [read] after [fork], the handler
    does not see a write fault: the page is not copied, and the process ends
    in the middle of the call, with all the locks that the call holds. *)
Theorem kernel_write_to_cow_page s i p pd t frame :
  curproc s = Some i -> procs s !! i = Some p -> 2 < pid p -> pt_wf (mem s) pd -> pgdir p = frame_addr pd -> cr2 s < KERNBASE ->
  let va := PGROUNDDOWN (cr2 s) in
  tbl (mem s) pd (PDX va) = Some t -> has (pte_val (mem s) pd va) PTE_COW = true ->
  tf p ≠ 0 -> has (load32 (mem s) (tf p + TF_err)) FEC_WR = false ->
  frame ≠ 0 -> load32 (mem s) (frame + TF_trapno) = T_PGFLT ->
  wp (trap frame) (fun e s' => e = TExit /\ mem s' = mem s /\ held s' = held s /\
    exists p', procs s' = <[i := p']> (procs s) /\ killed p' = 1) s.
Proof.
  intros Hc Hp Hpid Hw Hpd Hva va Ht Hcow Htf Herr Hfr Hno. unfold trap. rewrite wp_bind, wp_ldf by done. rewrite Hno. cbn [Z.eqb].
  change (T_PGFLT =? T_SYSCALL) with false. unfold trap_switch. rewrite Z.eqb_refl. rewrite wp_bind.
  assert (curp s = Some p) as Hcp by (unfold curp; rewrite Hc; done). assert (i < length (procs s))%nat as Hlt by (by eapply lookup_lt_Some).
  rewrite wp_bind, (wp_cur p) by done. destruct (Z.ltb_spec 2 (pid p)); [|lia]. rewrite wp_bind. apply (wp_pagefault sel s i p pd t); [done..|]. fold va.
  rewrite Hcow, andb_false_r. destruct (Z.leb_spec KERNBASE (cr2 s)); [lia|]. cbn [orb].
  pose proof (wf_tbl _ _ Hw _ _ (PDX_range va) Ht) as [Hf _]. pose proof (PTX_range va).
  destruct (Z.eqb_spec (frame_addr t + 4 * PTX va) 0); [unfold frame_addr, KERNBASE, PGSIZE in *; lia|].
  set (s1 := {| s with procs := <[i := bumped p]> (procs s) |}).
  assert (curp s1 = Some (bumped p)) as Hcp1 by (unfold curp; cbn [curproc procs s1]; rewrite Hc; cbn; by apply list_lookup_insert_eq).
  unfold handle_cow_pagefault. rewrite wp_bind, (wp_cur (bumped p)) by done. rewrite wp_bind, wp_ldf by done. change (mem s1) with (mem s). change (tf (bumped p)) with (tf p). rewrite Herr.
  rewrite (wp_set_cur i) by done. cbn [procs s1]. rewrite (list_alter_insert_lookup _ _ _ (bumped p)) by (by apply list_lookup_insert_eq). rewrite list_insert_insert_eq.
  rewrite wp_bind. set (p' := {| (bumped p) with killed := 1 |}). rewrite (wp_cur p') by (unfold curp; cbn [curproc procs s1]; rewrite Hc; cbn; by apply list_lookup_insert_eq).
  wp_steps. change (is_killed p') with true. cbn beta iota. wp_steps. split_and!; try done. by exists p'.
Qed.
(** A page fault of init or of the first shell is ignored: the trap returns to
    the instruction, which faults again. *)
Theorem early_fault_ignored s i p frame :
  curproc s = Some i -> procs s !! i = Some p -> pid p <= 2 -> killed p = 0 -> frame ≠ 0 -> load32 (mem s) (frame + TF_trapno) = T_PGFLT ->
  trap frame s = Ok TReturn s.
Proof.
  intros Hc Hp Hpid Hk Hfr Hno. enough (wp (trap frame) (fun e s' => e = TReturn /\ s' = s) s) as H by (apply wp_Ok in H as (? & ? & -> & -> & ->); done).
  unfold trap. rewrite wp_bind, wp_ldf by done. rewrite Hno. change (T_PGFLT =? T_SYSCALL) with false. unfold trap_switch. rewrite Z.eqb_refl.
  assert (curp s = Some p) as Hcp by (unfold curp; rewrite Hc; done). rewrite wp_bind, wp_bind, (wp_cur p) by done. destruct (Z.ltb_spec 2 (pid p)); [lia|]. wp_steps.
  assert (killed_in_user frame s = Ok false s) as Hku.
  { unfold killed_in_user, myproc. rewrite (bind_run _ _ s (Some i) s) by (unfold gets; by rewrite Hc). rewrite (bind_run _ _ s p s) by (unfold get_proc; by rewrite Hp). unfold is_killed. by rewrite Hk. }
  rewrite (wp_eq _ _ _ _ _ Hku). cbn beta iota. wp_steps. unfold myproc. wp_steps. rewrite Hc. rewrite wp_bind, (wp_get_proc i p) by done. change (T_PGFLT =? T_IRQ0 + IRQ_TIMER) with false. rewrite andb_false_r.
  rewrite wp_bind, (wp_eq _ _ _ _ _ Hku). wp_steps. done.
Qed.

(** The traps with a handler of their own. *)
Definition handled (n : Z) : Prop :=
  n ∈ [T_PGFLT; T_SYSCALL; T_IRQ0 + IRQ_TIMER; T_IRQ0 + IRQ_IDE; T_IRQ0 + IRQ_IDE + 1; T_IRQ0 + IRQ_KBD; T_IRQ0 + IRQ_COM1; T_IRQ0 + 7; T_IRQ0 + IRQ_SPURIOUS].
(** Any other trap from user code ends the process and changes nothing else;
    from kernel code it stops the machine. *)
Theorem exception_kills s i p frame :
  curproc s = Some i -> procs s !! i = Some p -> frame ≠ 0 -> ~ handled (load32 (mem s) (frame + TF_trapno)) ->
  let level := Z.land (load32 (mem s) (frame + TF_cs)) 3 in
  (level = DPL_USER -> wp (trap frame) (fun e s' => e = TExit /\ s' = {| s with procs := <[i := {| p with killed := 1 |}]> (procs s) |}) s) /\
  (level = 0 -> trap frame s = Panic "trap").
Proof.
  intros Hc Hp Hfr Hno level. set (n := load32 (mem s) (frame + TF_trapno)) in *. unfold handled in Hno. rewrite !not_elem_of_cons in Hno.
  destruct Hno as (N1 & N2 & N3 & N4 & N5 & N6 & N7 & N8 & N9 & _). assert (i < length (procs s))%nat as Hlt by (by eapply lookup_lt_Some).
  assert (ldf frame TF_trapno s = Ok n s) as Hld by (unfold ldf; by destruct (Z.eqb_spec frame 0)).
  assert (forall s', mem s' = mem s -> cpl frame s' = Ok level s') as Hcpl.
  { intros s' Em. unfold cpl, ldf. destruct (Z.eqb_spec frame 0); [done|]. unfold mbind, M_bind, gets, mret, M_ret. by rewrite Em. }
  assert (trap_switch frame n = (me ← myproc; c ← cpl frame; match me with None => panic "trap" | Some i => if c =? 0 then panic "trap" else set_proc i (fun p => {| p with killed := 1 |}) ;; mret false end)) as Hsw.
  { unfold trap_switch. by rewrite !(proj2 (Z.eqb_neq _ _)) by done. }
  assert (myproc s = Ok (Some i) s) as Hme by (unfold myproc, gets; by rewrite Hc). unfold trap. split.
  - intros E. rewrite wp_bind, (wp_eq _ _ _ _ _ Hld). rewrite (proj2 (Z.eqb_neq _ _) N2), Hsw. rewrite !wp_bind, (wp_eq _ _ _ _ _ Hme). rewrite wp_bind, (wp_eq _ _ _ _ _ (Hcpl s eq_refl)). rewrite E.
    change (DPL_USER =? 0) with false. cbn beta iota. rewrite wp_bind, wp_set_proc. wp_steps. rewrite (list_alter_insert_lookup _ _ _ p) by done.
    set (s' := {| s with procs := <[i := {| p with killed := 1 |}]> (procs s) |}). assert (killed_in_user frame s' = Ok true s') as Hku.
    { unfold killed_in_user. rewrite (bind_run _ _ s' (Some i) s') by exact (f_equal (fun x => Ok x s') Hc).
      rewrite (bind_run _ _ s' {| p with killed := 1 |} s') by (unfold get_proc; cbn [procs s']; by rewrite list_lookup_insert_eq). change (is_killed _) with true. cbn beta iota.
      rewrite (bind_run _ _ _ _ _ (Hcpl s' eq_refl)). by rewrite E. }
    rewrite (wp_eq _ _ _ _ _ Hku). by wp_steps.
  - intros E. rewrite (bind_run _ _ _ _ _ Hld). rewrite (proj2 (Z.eqb_neq _ _) N2), Hsw.
    assert ((me ← myproc; c ← cpl frame; match me with None => panic "trap" | Some i => if c =? 0 then panic "trap" else set_proc i (fun p => {| p with killed := 1 |}) ;; mret false end) s = Panic "trap") as Hpan.
    { rewrite (bind_run _ _ _ _ _ Hme), (bind_run _ _ _ _ _ (Hcpl s eq_refl)). by rewrite E. }
    unfold mbind at 1, M_bind at 1. by rewrite Hpan.
Qed.
End Trap.

(** ** Witnesses *)

Definition no_drivers : Drivers := ltac:(split; exact (mret tt)).
(** A frame at 0x80200000 with the number and the code segment of a trap. *)
Definition demo_trap (fl trapno cs : Z) : kstate :=
  {| (demo_user fl 2) with mem := store32 (store32 (demo_dir fl) (0x80200000 + TF_trapno) trapno) (0x80200000 + TF_cs) cs; cr2 := 12 |}.
Lemma demo_trap_tbl fl n cs i : 0 <= i < 1024 -> tbl (mem (demo_trap fl n cs)) 1000 i = tbl (demo_dir fl) 1000 i.
Proof.
  intros Hi. unfold tbl. cbn [mem demo_trap]. unfold frame_addr, KERNBASE, PGSIZE, TF_trapno, TF_cs. by rewrite !load32_store32_ne by lia.
Qed.
Lemma demo_trap_wf fl n cs : pt_wf (mem (demo_trap fl n cs)) 1000.
Proof.
  destruct (demo_wf fl) as [H1 H2 H3]. split; [done| |].
  - intros i f Hi. rewrite demo_trap_tbl by done. by apply H2.
  - intros i j f Hi Hj. rewrite !demo_trap_tbl by done. by apply H3.
Qed.
Lemma kernel_write_to_cow_page_witness :
  wp (trap (KI := xv6_image) (FL := no_files) (FC := no_calls) (DR := no_drivers) LAPA 0 0 0x80200000) (fun e s' => e = TExit /\ mem s' = mem (demo_trap 0x405 14 8))
     (demo_trap 0x405 14 8).
Proof.
  eapply wp_mono; [apply (kernel_write_to_cow_page (KI := xv6_image) (FL := no_files) (FC := no_calls) (DR := no_drivers) LAPA 0 0 (demo_trap 0x405 14 8) 0 demo_proc 1000 1001);
    try reflexivity; try discriminate; apply demo_trap_wf|].
  intros e s' (-> & -> & _). done.
Defined.
Lemma early_fault_ignored_witness :
  let s := {| (demo_trap 5 14 27) with procs := [{| demo_proc with pid := 1 |}] |} in
  trap (KI := xv6_image) (FL := no_files) (FC := no_calls) (DR := no_drivers) LAPA 0 0 0x80200000 s = Ok TReturn s.
Proof.
  intros s. apply (early_fault_ignored (KI := xv6_image) (FL := no_files) (FC := no_calls) (DR := no_drivers) LAPA 0 0 s 0 {| demo_proc with pid := 1 |}); try reflexivity; try discriminate.
Defined.
Lemma exception_kills_witness :
  wp (trap (KI := xv6_image) (FL := no_files) (FC := no_calls) (DR := no_drivers) LAPA 0 0 0x80200000) (fun e _ => e = TExit) (demo_trap 7 0 27).
Proof.
  eapply wp_mono; [apply (exception_kills (KI := xv6_image) (FL := no_files) (FC := no_calls) (DR := no_drivers) LAPA 0 0 (demo_trap 7 0 27) 0 demo_proc 0x80200000); try reflexivity; try discriminate|].
  - apply (bool_decide_eq_false_1 _). reflexivity.
  - intros e s' [-> _]. done.
Defined.
