(* ===== verification/Exec.v ===== *)
(** Replacing the image of a process (exec.c): the backup and the renewal of
    the paging tables, reading the ELF file, building the new address space
    and its stack, and the error path. The theorems give the layout of the
    stack that [main] finds, first against an interface of copying to user
    memory and then for [copyout] itself, what the error path restores and
    what it loses, and what [loaduvm] does with a page that was evicted. *)

From S2P Require Import Prelude Mmu Memory Machine Kalloc PageTable Uvm Cow Replace Swap Proc Syscall.
From stdpp Require Import base gmap list strings.
From Stdlib Require Import ZArith Lia.
Open Scope Z_scope.

(** ** The arguments on the stack *)

(** Copying to the user memory under construction; [false] is -1. *)
Class UserCopy (S : Type) := ucopy : Z -> list Z -> M S bool.

Definition MAXARG : Z := 32.
Definition word_bytes (v : Z) : list Z := [v mod 256; (v / 256) mod 256; (v / 65536) mod 256; (v / 16777216) mod 256].

Section Stack.
Context {S : Type} `{UserCopy S}.

(** The loop over the arguments: the addresses of the strings and the final
    stack pointer, or [None] for [goto bad]. *)
Fixpoint push_args (argv : list (list Z)) (argc sp : Z) : M S (option (list Z * Z)) :=
  match argv with
  | [] => mret (Some ([], sp))
  | a :: argv' =>
      if MAXARG <=? argc then mret None else
      let sp := clr (u32 (sp - (Z.of_nat (length a) + 1))) 3 in
      ok ← ucopy sp (a ++ [0]);
      if negb ok then mret None else
      r ← push_args argv' (argc + 1) sp;
      mret (match r with Some (ptrs, sp') => Some (sp :: ptrs, sp') | None => None end)
  end.
(** The final stack pointer. *)
Definition push_stack (argv : list (list Z)) (sp : Z) : M S (option Z) :=
  r ← push_args argv 0 sp;
  match r with
  | None => mret None
  | Some (ptrs, sp) =>
      let argc := Z.of_nat (length ptrs) in
      let ustack := [0xffffffff; argc; u32 (sp - (argc + 1) * 4)] ++ ptrs ++ [0] in
      let sp := u32 (sp - (3 + argc + 1) * 4) in
      ok ← ucopy sp (concat (word_bytes <$> ustack));
      mret (if negb ok then None else Some sp)
  end.
End Stack.

(** ** ELF files (elf.h) *)

Definition ELF_MAGIC : Z := 0x464C457F.
Definition ELF_PROG_LOAD : Z := 1.
Definition ELFHDR_SIZE : Z := 52.
Definition PROGHDR_SIZE : Z := 32.
Definition le16 (bs : list Z) (o : nat) : Z := nth o bs 0 + 256 * nth (o + 1) bs 0.
Definition le32 (bs : list Z) (o : nat) : Z := le16 bs o + 65536 * le16 bs (o + 2).
(** The fields that [exec] uses. *)
Record elfhdr := mk_elfhdr { magic : Z; entry : Z; phoff : Z; phnum : Z }.
Definition elfhdr_of (bs : list Z) : elfhdr := mk_elfhdr (le32 bs 0) (le32 bs 24) (le32 bs 28) (le16 bs 44).
Record proghdr := mk_proghdr { ph_type : Z; ph_off : Z; ph_vaddr : Z; ph_filesz : Z; ph_memsz : Z }.
Definition proghdr_of (bs : list Z) : proghdr := mk_proghdr (le32 bs 0) (le32 bs 4) (le32 bs 8) (le32 bs 16) (le32 bs 20).

(** ** Operations *)

(** What [exec] needs of the file system besides [readi]; 0 is no inode. *)
Class ExecFiles := {
  namei : list Z -> M kstate Z;
  ilock : Z -> M kstate unit;
  iunlockput : Z -> M kstate unit
}.

(** The static variables of exec.c; one execution of [exec] reads back what it
    stored. *)
Record saved := mk_saved {
  ramPagesBackup : list page;
  swappedPagesBackup : list page;
  num_ram_backup : Z;
  num_swap_backup : Z;
  free_head_backup : Z;
  free_tail_backup : Z;
  swapfile_backup : Z;
  queue_head_backup : Z;
  queue_tail_backup : Z;
  clockhand_backup : Z
}.
Definition backup (p : proc) : saved :=
  mk_saved (ramPages p) (swappedPages p) (num_ram p) (num_swap p) (free_head p) (free_tail p) (swapFile p) (queue_head p) (queue_tail p) (clockHand p).
Definition restore (b : saved) (p : proc) : proc :=
  {| p with ramPages := ramPagesBackup b; swappedPages := swappedPagesBackup b; free_head := free_head_backup b; free_tail := free_tail_backup b;
            num_ram := num_ram_backup b; num_swap := num_swap_backup b; swapFile := swapfile_backup b; clockHand := clockhand_backup b;
            queue_head := queue_head_backup b; queue_tail := queue_tail_backup b |}.

Section Exec.
Context {KI : KernelImage} {FL : FileLayer} {EF : ExecFiles}.
Context (sel : selection_policy).

Definition clean_arrays (i : nat) : M kstate unit :=
  set_proc i (fun p => {| p with swappedPages := replicate MAX_PSYC_PAGES page_zero |}) ;;
  set_proc i (fun p => {| p with ramPages := replicate MAX_PSYC_PAGES page_zero |}) ;;
  set_proc i (fun p => {| p with num_ram := 0 |}) ;;
  set_proc i (fun p => {| p with num_swap := 0 |}).
Definition alloc_fresh_fblocklst (i : nat) : M kstate unit :=
  head ← kalloc;
  set_proc i (fun p => {| p with free_head := head |}) ;;
  stf head FB_prev 0 ;;
  stf head FB_off (0 * PGSIZE) ;;
  prev ← fblock_loop 1 (MAX_PSYC_PAGES - 1) head;
  set_proc i (fun p => {| p with free_tail := prev |}) ;;
  stf prev FB_next 0.
Definition clean_by_selection (i : nat) : M kstate unit :=
  p ← get_proc i;
  when (selection p =? selection_code AQ) (
    set_proc i (fun p => {| p with queue_head := 0 |}) ;;
    set_proc i (fun p => {| p with queue_tail := 0 |})) ;;
  when (selection p =? selection_code SCFIFO) (set_proc i (fun p => {| p with clockHand := 0 |})).
Definition allocate_fresh (i : nat) : M kstate unit :=
  r ← createSwapFile i;
  if negb (r =? 0) then panic "exec: create swapfile for exec proc failed" else
  clean_arrays i ;;
  alloc_fresh_fblocklst i ;;
  clean_by_selection i.

(** [readi] to a variable of the kernel stack: the bytes, if all of them could
    be read. *)
Definition read_struct (ip off n : Z) : M kstate (option (list Z)) := fun s =>
  match inodes s !! ip with
  | None => UB
  | Some c =>
      let size := Z.of_nat (length c) in
      if (size <? off) || (u32 (off + n) <? off) || (size <? off + n) then Ok None s
      else Ok (Some (take (Z.to_nat n) (drop (Z.to_nat off) c))) s
  end.
(** [copyout] of bytes that are given as a value. *)
Fixpoint copyout_bytes_loop (pgdir va : Z) (bs : list Z) (fuel : nat) : M kstate bool :=
  match bs with
  | [] => mret true
  | _ =>
      match fuel with
      | O => diverge
      | S fuel' =>
          let va0 := PGROUNDDOWN va in
          pa0 ← uva2ka pgdir va0;
          if pa0 =? 0 then mret false else
          let n := Z.to_nat (Z.min (u32 (PGSIZE - (va - va0))) (Z.of_nat (length bs))) in
          set_mem (fun m => store_bytes m (u32 (pa0 + (va - va0))) (take n bs)) ;;
          copyout_bytes_loop pgdir (u32 (va0 + PGSIZE)) (drop n bs) fuel'
      end
  end.
Definition copyout_bytes (pgdir va : Z) (bs : list Z) : M kstate bool :=
  copyout_bytes_loop pgdir va bs (Z.to_nat (Z.of_nat (length bs) / PGSIZE + 2)).

(** The loop over the program headers from number [i] at [off]: the size of
    the image, [None] for [goto bad]. *)
Fixpoint load_segments (ip pgdir : Z) (off sz : Z) (n : nat) : M kstate (option Z) :=
  match n with
  | O => mret (Some sz)
  | S n' =>
      bs ← read_struct ip (u32 off) PROGHDR_SIZE;
      match bs with
      | None => mret None
      | Some bs =>
          let ph := proghdr_of bs in
          if negb (ph_type ph =? ELF_PROG_LOAD) then load_segments ip pgdir (off + PROGHDR_SIZE) sz n' else
          if ph_memsz ph <? ph_filesz ph then mret None else
          if u32 (ph_vaddr ph + ph_memsz ph) <? ph_vaddr ph then mret None else
          sz ← allocuvm sel pgdir sz (u32 (ph_vaddr ph + ph_memsz ph));
          if sz =? 0 then mret None else
          if negb (ph_vaddr ph mod PGSIZE =? 0) then mret None else
          r ← loaduvm pgdir (ph_vaddr ph) ip (ph_off ph) (ph_filesz ph);
          if r <? 0 then mret None else
          load_segments ip pgdir (off + PROGHDR_SIZE) sz n'
      end
  end.
(** The name of the program is what follows the last slash of the path. *)
Fixpoint last_element (path last : list Z) : list Z :=
  match path with
  | [] => last
  | c :: path' => last_element path' (if c =? 47 then path' else last)
  end.
Definition retarget (pgdir : Z) (pg : page) : page := if negb (isused pg =? 0) then {| pg with page_pgdir := pgdir |} else pg.

(** What is built before the commit: the directory, whether the inode is still
    locked, and, unless something failed, the size, the stack pointer and the
    entry point. *)
Definition build_image (ip : Z) (argv : list (list Z)) : M kstate (Z * bool * option (Z * Z * Z)) :=
  bs ← read_struct ip 0 ELFHDR_SIZE;
  match bs with
  | None => mret (0, true, None)
  | Some bs =>
      let elf := elfhdr_of bs in
      if negb (magic elf =? ELF_MAGIC) then mret (0, true, None) else
      pgdir ← setupkvm;
      if pgdir =? 0 then mret (0, true, None) else
      sz ← load_segments ip pgdir (phoff elf) 0 (Z.to_nat (phnum elf));
      match sz with
      | None => mret (pgdir, true, None)
      | Some sz =>
          iunlockput ip ;;
          end_op ;;
          let sz := PGROUNDUP sz in
          sz ← allocuvm sel pgdir sz (u32 (sz + 2 * PGSIZE));
          if sz =? 0 then mret (pgdir, false, None) else
          clearpteu pgdir (u32 (sz - 2 * PGSIZE)) ;;
          sp ← @push_stack kstate (copyout_bytes pgdir) argv sz;
          mret (pgdir, false, match sp with Some sp => Some (sz, sp, entry elf) | None => None end)
      end
  end.
Definition exec (path : list Z) (argv : list (list Z)) : M kstate Z :=
  me ← myproc;
  match me with
  | None => ub
  | Some i =>
      p ← get_proc i;
      let saved := backup p in
      when (2 <? pid p) (allocate_fresh i) ;;
      begin_op ;;
      ip ← namei path;
      if ip =? 0 then end_op ;; mret (-1) else
      ilock ip ;;
      r ← build_image ip argv;
      match r with
      | (pgdir', _, Some (sz', sp, entry)) =>
          set_proc i (fun p => {| p with name := copy_name 15 (name p) (last_element path path ++ [0]) |}) ;;
          set_proc i (fun p => {| p with ramPages := retarget pgdir' <$> ramPages p |}) ;;
          when (negb (bool_decide (sel = NONE))) (set_proc i (fun p => {| p with swappedPages := retarget pgdir' <$> swappedPages p |})) ;;
          p ← get_proc i;
          let oldpgdir := pgdir p in
          set_proc i (fun p => {| p with pgdir := pgdir' |}) ;;
          set_proc i (fun p => {| p with sz := sz' |}) ;;
          stf (tf p) TF_eip entry ;;
          stf (tf p) TF_esp sp ;;
          switchuvm (Some i) ;;
          freevm oldpgdir ;;
          mret 0
      | (pgdir', locked, None) =>
          when (negb (pgdir' =? 0)) (freevm pgdir') ;;
          when (negb (bool_decide (sel = NONE))) (when (2 <? pid p) (set_proc i (restore saved))) ;;
          when locked (iunlockput ip ;; end_op) ;;
          mret (-1)
      end
  end.

(** The pointers and strings at [uargv], from number [i] on, of which [n] may
    still come; the strings are read when their addresses are checked. *)
Fixpoint fetch_argv (uargv i : Z) (n : nat) : M kstate (option (list (list Z))) :=
  match n with
  | O => mret None
  | S n' =>
      uarg ← fetchint (u32 (uargv + 4 * i));
      match uarg with
      | None => mret None
      | Some uarg =>
          if uarg =? 0 then mret (Some []) else
          len ← fetchstr (u32 uarg);
          match len with
          | None => mret None
          | Some len =>
              a ← read_user (u32 uarg) (Z.to_nat len);
              rest ← fetch_argv uargv (i + 1) n';
              mret (match rest with Some l => Some (a :: l) | None => None end)
          end
      end
  end.
Definition sys_exec : M kstate call_end :=
  path ← argstr 0;
  match path with
  | None => mret (Returns (-1))
  | Some (path, len) =>
      uargv ← argint 1;
      match uargv with
      | None => mret (Returns (-1))
      | Some uargv =>
          argv ← fetch_argv (u32 uargv) 0 (Z.to_nat MAXARG);
          match argv with
          | None => mret (Returns (-1))
          | Some argv => name ← read_user path (Z.to_nat len); r ← exec name argv; mret (Returns r)
          end
      end
  end.
End Exec.

(** ** The layout of the stack *)

(** Copying succeeds in the window from [wlo] to [whi] and changes nothing
    else there; [uview] are the bytes that the program will see. *)
Class UserWindow (S : Type) `{UserCopy S} := {
  wlo : Z;
  whi : Z;
  uview : S -> Z -> Z;
  uinv : S -> Prop;
  window_range : 0 <= wlo <= whi /\ whi < W32 /\ whi mod 4 = 0;
  ucopy_window va bs s :
    uinv s -> wlo <= va -> va + Z.of_nat (length bs) <= whi ->
    wp (ucopy va bs) (fun r s' => r = true /\ uinv s' /\ forall a, wlo <= a < whi ->
      uview s' a = if decide (va <= a < va + Z.of_nat (length bs)) then u8 (default 0 (bs !! Z.to_nat (a - va))) else uview s a) s
}.

(** Strings and words in memory. *)
Definition string_in (v : Z -> Z) (p : Z) (a : list Z) : Prop :=
  (forall j c, a !! j = Some c -> v (p + Z.of_nat j) = c) /\ v (p + Z.of_nat (length a)) = 0.
Definition is_string (a : list Z) : Prop := Forall (fun c => 0 < c < 256) a.

(** The stack pointer below the strings. *)
Definition sp_step (sp : Z) (a : list Z) : Z := (sp - (Z.of_nat (length a) + 1)) / 4 * 4.
Definition sp_after (argv : list (list Z)) (sp : Z) : Z := foldl sp_step sp argv.
Definition final_sp (argv : list (list Z)) (sp : Z) : Z := sp_after argv sp - 4 * (Z.of_nat (length argv) + 4).

Lemma sp_step_le sp a : sp_step sp a + Z.of_nat (length a) + 1 <= sp.
Proof. unfold sp_step. Z.to_euclidean_division_equations. lia. Qed.
Lemma sp_step_mod sp a : sp_step sp a mod 4 = 0.
Proof. apply Z.mod_mul. lia. Qed.
Lemma sp_after_le argv : forall sp, sp_after argv sp <= sp.
Proof. induction argv as [|a argv IH]; intros sp; cbn; [lia|]. pose proof (IH (sp_step sp a)). pose proof (sp_step_le sp a). unfold sp_after in *. lia. Qed.
Lemma sp_after_mod argv : forall sp, sp mod 4 = 0 -> sp_after argv sp mod 4 = 0.
Proof. induction argv as [|a argv IH]; intros sp H; cbn; [done|]. apply IH, sp_step_mod. Qed.
Lemma sp_step_eq sp a : 0 <= sp_step sp a -> sp < W32 -> clr (u32 (sp - (Z.of_nat (length a) + 1))) 3 = sp_step sp a.
Proof.
  intros H0 H1. rewrite u32_small by (unfold sp_step, W32 in *; Z.to_euclidean_division_equations; lia).
  change 3 with (Z.ones 2). rewrite clr_ones by lia. unfold sp_step. Z.to_euclidean_division_equations. lia.
Qed.

Lemma string_in_ext v v' p a : (forall x, p <= x <= p + Z.of_nat (length a) -> v' x = v x) -> string_in v p a -> string_in v' p a.
Proof.
  intros E [H1 H2]. split; [intros j c Hj; pose proof (lookup_lt_Some _ _ _ Hj)|]; rewrite E by lia; auto.
Qed.
Lemma word_bytes_lookup l : forall k w j, l !! k = Some w -> (j < 4)%nat ->
  concat (word_bytes <$> l) !! (4 * k + j)%nat = word_bytes w !! j.
Proof.
  induction l as [|x l IH]; intros k w j Hk Hj; [done|]. rewrite fmap_cons. cbn [concat]. destruct k as [|k].
  - injection Hk as ->. rewrite lookup_app_l by (cbn; lia). done.
  - rewrite lookup_app_r by (cbn; lia). replace (4 * S k + j - length (word_bytes x))%nat with (4 * k + j)%nat by (cbn; lia). by apply IH.
Qed.
Lemma word_bytes_length l : length (concat (word_bytes <$> l)) = (4 * length l)%nat.
Proof. induction l as [|x l IH]; [done|]. rewrite fmap_cons. cbn [concat]. rewrite length_app, IH. cbn. lia. Qed.

Section Layout.
Context {S : Type} `{UserWindow S}.

Lemma wp_push_args argv : forall argc sp s Q,
  uinv s -> Forall is_string argv -> argc + Z.of_nat (length argv) <= MAXARG -> wlo <= sp_after argv sp -> sp <= whi ->
  (forall s' ptrs, uinv s' -> length ptrs = length argv -> Forall (fun q => 0 <= q < W32) ptrs ->
     (forall a, wlo <= a < whi -> sp <= a -> uview s' a = uview s a) ->
     (forall k a q, argv !! k = Some a -> ptrs !! k = Some q -> sp_after argv sp <= q /\ q + Z.of_nat (length a) < sp /\ string_in (uview s') q a) ->
     Q (Some (ptrs, sp_after argv sp)) s') ->
  wp (push_args argv argc sp) Q s.
Proof.
  pose proof window_range as (W1 & W2 & _).
  induction argv as [|a argv IH]; intros argc sp s Q Hs Ha Hn Hlo Hhi HQ.
  { cbn. by apply HQ. }
  apply list.Forall_cons in Ha as [Ha1 Ha]. cbn [length] in Hn. cbn [push_args]. destruct (Z.leb_spec MAXARG argc); [lia|]. cbn zeta.
  cbn [sp_after foldl] in Hlo. fold (sp_after argv (sp_step sp a)) in Hlo. pose proof (sp_after_le argv (sp_step sp a)). pose proof (sp_step_le sp a) as Hst.
  rewrite sp_step_eq by lia. set (sp1 := sp_step sp a) in *. rewrite wp_bind.
  eapply wp_mono; [apply ucopy_window; [done|lia|rewrite length_app; cbn; lia]|]. intros r s1 (-> & Hs1 & V1). cbn [negb]. rewrite wp_bind.
  apply IH; [done|done|lia|done|lia|]. intros s2 ptrs Hs2 Hl Hf V2 Hp. wp_steps. apply HQ; [done|by cbn; rewrite Hl|constructor; [lia|done]| |].
  - intros x Hx Hsp. rewrite V2, V1 by lia. rewrite length_app. cbn. by rewrite decide_False by lia.
  - intros [|k] a' q; cbn.
    + intros [= <-] [= <-]. split_and!; [done|lia|]. split; [intros j c Hj; pose proof (lookup_lt_Some _ _ _ Hj)|]; rewrite V2, V1 by lia; rewrite length_app; cbn [length]; rewrite decide_True by lia.
      * replace (Z.to_nat (sp1 + Z.of_nat j - sp1)) with j by lia. rewrite lookup_app_l by lia. rewrite Hj. cbn.
        unfold is_string in Ha1. rewrite list.Forall_forall in Ha1. specialize (Ha1 c (list_elem_of_lookup_2 _ _ _ Hj)). unfold u8. by rewrite Z.mod_small by lia.
      * replace (Z.to_nat (sp1 + Z.of_nat (length a) - sp1)) with (length a) by lia. rewrite lookup_app_r by lia. by rewrite Nat.sub_diag.
    + intros Hk Hq. destruct (Hp k a' q Hk Hq) as (? & ? & ?). split_and!; [done|lia|done].
Qed.

(** The words that were copied can be read back. *)
Lemma word_copied (v v' : Z -> Z) sp ws k w :
  (forall a, sp <= a < sp + 4 * Z.of_nat (length ws) -> v' a = u8 (default 0 (concat (word_bytes <$> ws) !! Z.to_nat (a - sp)))) ->
  ws !! k = Some w -> 0 <= w < W32 -> word_of v' (sp + 4 * Z.of_nat k) = w.
Proof.
  intros V Hk Hw. pose proof (lookup_lt_Some _ _ _ Hk).
  assert (forall j, (j < 4)%nat -> v' (sp + 4 * Z.of_nat k + Z.of_nat j) = u8 (default 0 (word_bytes w !! j))) as B.
  { intros j Hj. rewrite V by lia. replace (Z.to_nat _) with (4 * k + j)%nat by lia. by rewrite (word_bytes_lookup ws k w j). }
  pose proof (B 0%nat) as B0. change (Z.of_nat 0) with 0 in B0. rewrite Z.add_0_r in B0.
  unfold word_of. rewrite B0, (B 1%nat : _ -> v' (_ + 1) = _), (B 2%nat : _ -> v' (_ + 2) = _), (B 3%nat : _ -> v' (_ + 3) = _) by lia. cbn. unfold u8, W32 in *. Z.to_euclidean_division_equations. lia.
Qed.

(** The stack as [main] finds it: a return address, [argc], [argv], and the
    array of pointers to the strings, which lie above it, with a null pointer
    at its end. *)
Definition stack_holds (v : Z -> Z) (sp top : Z) (argv : list (list Z)) : Prop :=
  let argc := Z.of_nat (length argv) in
  word_of v sp = 0xffffffff /\ word_of v (sp + 4) = argc /\ word_of v (sp + 8) = sp + 12 /\
  (forall k a, argv !! k = Some a -> let q := word_of v (sp + 12 + 4 * Z.of_nat k) in sp < q /\ q + Z.of_nat (length a) < top /\ string_in v q a) /\
  word_of v (sp + 12 + 4 * argc) = 0.

Lemma wp_push_stack argv s :
  uinv s -> Forall is_string argv -> Z.of_nat (length argv) <= MAXARG -> wlo <= final_sp argv whi ->
  wp (push_stack argv whi) (fun r s' => uinv s' /\ r = Some (final_sp argv whi) /\ stack_holds (uview s') (final_sp argv whi) whi argv) s.
Proof.
  pose proof window_range as (W1 & W2 & _). intros Hs Ha Hn Hlo. unfold push_stack. rewrite wp_bind. set (sp1 := sp_after argv whi).
  assert (final_sp argv whi = sp1 - 4 * (Z.of_nat (length argv) + 4)) as Efin by done.
  apply wp_push_args; [done|done|lia|fold sp1; lia|lia|]. intros s1 ptrs Hs1 Hl Hf _ Hp. fold sp1 in Hp |- *. cbn beta iota zeta. rewrite Hl.
  pose proof (sp_after_le argv whi) as Hle. fold sp1 in Hle. rewrite (u32_small (sp1 - (3 + _ + 1) * 4)) by lia.
  replace (sp1 - (3 + Z.of_nat (length argv) + 1) * 4) with (final_sp argv whi) by lia. rewrite u32_small by lia.
  set (ws := [0xffffffff; Z.of_nat (length argv); sp1 - (Z.of_nat (length argv) + 1) * 4] ++ ptrs ++ [0]).
  assert (length ws = (length argv + 4)%nat) as Hws by (unfold ws; rewrite !length_app, Hl; cbn; lia).
  rewrite wp_bind. eapply wp_mono; [apply ucopy_window; [done|lia|rewrite word_bytes_length, Hws; lia]|]. intros r s2 (-> & Hs2 & V2). wp_steps. cbn [negb].
  rewrite word_bytes_length, Hws in V2. set (sp := final_sp argv whi) in *.
  assert (forall k w, ws !! k = Some w -> 0 <= w < W32 -> word_of (uview s2) (sp + 4 * Z.of_nat k) = w) as Hword.
  { intros k w Hk Hw. apply (word_copied (uview s2) _ _ ws); [|done|done]. intros a Hr. rewrite Hws in Hr. rewrite V2 by lia. by rewrite decide_True by lia. }
  split_and!; [done|done|]. unfold stack_holds. unfold MAXARG in Hn.
  pose proof (Hword 0%nat _ eq_refl) as H1. pose proof (Hword 1%nat _ eq_refl) as H2. pose proof (Hword 2%nat _ eq_refl) as H3. change (4 * Z.of_nat 0) with 0 in H1. rewrite Z.add_0_r in H1.
  change (4 * Z.of_nat 1) with 4 in H2. change (4 * Z.of_nat 2) with 8 in H3. unfold W32 in *.
  split_and!; [apply H1; lia|apply H2; lia|rewrite H3 by lia; lia| |].
  - intros k a Hk. destruct (lookup_lt_is_Some_2 ptrs k) as [q Hq]; [rewrite Hl; by eapply lookup_lt_Some|]. destruct (Hp k a q Hk Hq) as (P1 & P2 & P3).
    rewrite list.Forall_forall in Hf. pose proof (Hf q (list_elem_of_lookup_2 _ _ _ Hq)).
    replace (sp + 12 + 4 * Z.of_nat k) with (sp + 4 * Z.of_nat (3 + k)) by lia. rewrite (Hword (3 + k)%nat q); [|by apply (lookup_app_l_Some ptrs)|done].
    cbn zeta. split_and!; [lia|done|]. eapply string_in_ext; [|exact P3]. intros x Hx. rewrite V2 by lia. by rewrite decide_False by lia.
  - replace (sp + 12 + 4 * Z.of_nat (length argv)) with (sp + 4 * Z.of_nat (3 + length argv)) by lia. apply Hword; [|lia].
    change ((ptrs ++ [0]) !! length argv = Some 0). rewrite lookup_app_r by lia. by rewrite Hl, Nat.sub_diag.
Qed.
End Layout.

(** ** Copying to the new address space *)

(** The page at [va] of the directory [pd] is user memory in frame [f]. *)
Definition user_page (pd va f : Z) (s : kstate) : Prop :=
  pt_wf (mem s) pd /\ tbl (mem s) pd (PDX va) ≠ None /\ has (pte_val (mem s) pd va) PTE_P = true /\ has (pte_val (mem s) pd va) PTE_U = true /\
  uframe (mem s) pd va = f /\ 0 <= f < MAXPAGES /\ ~ owns (mem s) pd f.


Lemma user_page_store pd va f s a bs :
  user_page pd va f s -> frame_addr f <= a -> a + Z.of_nat (length bs) <= frame_addr f + PGSIZE ->
  user_page pd va f {| s with mem := store_bytes (mem s) a bs |}.
Proof.
  intros (H1 & H2 & H3 & H4 & H5 & H6 & H7) Ha Hb.
  destruct (pt_frame (mem s) (store_bytes (mem s) a bs) pd H1) as (Hw & Ht & Hv).
  { intros g Hg x Hx. rewrite load8_store_bytes. assert (g ≠ f) by (intros ->; done).
    rewrite decide_False; [done|]. unfold in_frame, frame_addr, PGSIZE in *. lia. }
  unfold user_page. cbn [mem]. rewrite Ht by apply PDX_range. unfold uframe. rewrite !Hv, (owns_frame (mem s)) by done. done.
Qed.
Lemma copyout_page pd va f s off bs :
  user_page pd va f s -> page_aligned va -> 0 <= va < KERNBASE -> 0 <= off -> off + Z.of_nat (length bs) <= PGSIZE ->
  wp (copyout_bytes (frame_addr pd) (va + off) bs) (fun r s' => r = true /\ s' = {| s with mem := store_bytes (mem s) (frame_addr f + off) bs |}) s.
Proof.
  intros Hu Ha Hva Ho Hb. unfold copyout_bytes. destruct (Z.to_nat _) as [|fuel] eqn:Ef; [pose proof (Z.div_pos (Z.of_nat (length bs)) PGSIZE); unfold PGSIZE in *; lia|].
  destruct bs as [|b bs]; [cbn; split; [done|by destruct s]|]. set (l := b :: bs) in *. assert (0 < Z.of_nat (length l)) by (cbn; lia).
  change (copyout_bytes_loop (frame_addr pd) (va + off) l (S fuel)) with
   (let va0 := PGROUNDDOWN (va + off) in pa0 ← uva2ka (frame_addr pd) va0; if pa0 =? 0 then mret false else
    let n := Z.to_nat (Z.min (u32 (PGSIZE - (va + off - va0))) (Z.of_nat (length l))) in
    set_mem (fun m => store_bytes m (u32 (pa0 + (va + off - va0))) (take n l)) ;; copyout_bytes_loop (frame_addr pd) (u32 (va0 + PGSIZE)) (drop n l) fuel).
  destruct Hu as (H1 & H2 & H3 & H4 & H5 & H6 & H7). destruct (tbl (mem s) pd (PDX va)) as [t|] eqn:Ht; [|done].
  assert (PGROUNDDOWN (va + off) = va) as ->. { unfold page_aligned, PGSIZE, KERNBASE in *. rewrite PGROUNDDOWN_eq, u32_small by (unfold W32; lia). zlia. }
  cbn zeta. rewrite wp_bind. eapply wp_mono; [by apply (wp_uva2ka s pd va t)|]. intros r s' [-> ->]. cbn zeta. rewrite H3, H4. cbn [andb].
  assert (P2V (PTE_ADDR (pte_val (mem s) pd va)) = frame_addr f) as ->. { rewrite P2V_PTE_ADDR by (unfold uframe in H5; rewrite H5; lia). unfold uframe in H5. by rewrite H5. }
  destruct (Z.eqb_spec (frame_addr f) 0); [unfold frame_addr, KERNBASE, PGSIZE in *; lia|]. replace (va + off - va) with off by lia.
  rewrite (u32_small (PGSIZE - off)) by (unfold PGSIZE, W32 in *; lia). rewrite Z.min_r, Nat2Z.id by lia. rewrite firstn_all, drop_all. rewrite wp_bind, wp_set_mem.
  rewrite (u32_small (frame_addr f + off)) by (change MAXPAGES with 57344 in H6; unfold frame_addr, KERNBASE, PGSIZE, W32 in *; lia).
  destruct fuel; cbn [copyout_bytes_loop]; by wp_steps.
Qed.
(** The stack page as a window. *)
Definition stack_window (pd va f : Z) (Ha : page_aligned va) (Hva : 0 <= va < KERNBASE) : @UserWindow kstate (copyout_bytes (frame_addr pd)).
Proof.
  refine (@Build_UserWindow kstate (copyout_bytes (frame_addr pd)) va (va + PGSIZE) (fun s a => load8 (mem s) (frame_addr f + (a - va))) (user_page pd va f) _ _).
  - unfold page_aligned, PGSIZE, KERNBASE, W32 in *. Z.to_euclidean_division_equations. lia.
  - intros a bs s Hu Hlo Hhi. unfold ucopy. replace a with (va + (a - va)) by lia.
    eapply wp_mono; [apply copyout_page; [exact Hu|done|done|lia|lia]|]. intros r s' [-> ->]. split; [done|]. split; [apply user_page_store; [done|lia|lia]|].
    intros x Hx. cbn [mem]. rewrite load8_store_bytes. replace (va + (a - va)) with a by lia.
    destruct (decide (a <= x < _)); [rewrite decide_True by lia; do 3 f_equal; lia|by rewrite decide_False by lia].
Defined.

(** C20. The arguments of a program are copied to the stack page of the new image
    so that [main] finds them, whenever they fit in that page. *)
Theorem exec_stack_layout pd va f argv s :
  user_page pd va f s -> page_aligned va -> 0 <= va < KERNBASE ->
  Forall is_string argv -> Z.of_nat (length argv) <= MAXARG -> va <= final_sp argv (va + PGSIZE) ->
  wp (@push_stack kstate (copyout_bytes (frame_addr pd)) argv (va + PGSIZE)) (fun r s' =>
    let sp := final_sp argv (va + PGSIZE) in
    r = Some sp /\ sp mod 4 = 0 /\ user_page pd va f s' /\ stack_holds (fun a => load8 (mem s') (frame_addr f + (a - va))) sp (va + PGSIZE) argv) s.
Proof.
  intros Hu Ha Hva Hargs Hn Hfit. eapply wp_mono; [apply (@wp_push_stack kstate _ (stack_window pd va f Ha Hva)); done|].
  intros r s' (Hu' & -> & Hst). split_and!; [done| |done|done]. unfold final_sp. rewrite <- Zminus_mod_idemp_r, (Z.mul_comm 4), Z.mod_mul, Z.sub_0_r by lia.
  apply sp_after_mod. clear -Ha. unfold page_aligned, PGSIZE in *. Z.to_euclidean_division_equations. lia.
Qed.

(** A string that reaches into the guard page below the stack is refused. *)
Lemma guard_refuses pd va s t off b bs :
  pt_wf (mem s) pd -> page_aligned va -> 0 <= va < KERNBASE -> 0 <= off < PGSIZE -> tbl (mem s) pd (PDX va) = Some t -> has (pte_val (mem s) pd va) PTE_U = false ->
  wp (copyout_bytes (frame_addr pd) (va + off) (b :: bs)) (fun r s' => r = false /\ s' = s) s.
Proof.
  intros Hw Ha Hva Ho Ht HU. unfold copyout_bytes. destruct (Z.to_nat _) as [|fuel] eqn:Ef; [pose proof (Z.div_pos (Z.of_nat (length (b :: bs))) PGSIZE); unfold PGSIZE in *; lia|].
  cbn [copyout_bytes_loop]. assert (PGROUNDDOWN (va + off) = va) as ->. { unfold page_aligned, PGSIZE, KERNBASE in *. rewrite PGROUNDDOWN_eq, u32_small by (unfold W32; lia). zlia. }
  rewrite wp_bind. eapply wp_mono; [by apply (wp_uva2ka s pd va t)|]. intros r s' [-> ->]. cbn zeta. rewrite HU, andb_false_r. change (0 =? 0) with true. cbn beta iota. by wp_steps.
Qed.

(** ** The arguments of the system call *)

Section Args.
Context (s : kstate) (p : proc) (b : Z -> Z) (Hp : curp s = Some p) (Hsz : 0 <= sz p <= KERNBASE) (Hr : resident s (sz p) b).

(** The array of pointers at [u] and the strings lie in the memory of the
    process. *)
Definition argv_in (u : Z) (argv : list (list Z)) : Prop :=
  (forall k a, argv !! k = Some a -> let q := word_of b (u + 4 * Z.of_nat k) in 0 < q /\ q + Z.of_nat (length a) < sz p /\ string_in b q a) /\
  word_of b (u + 4 * Z.of_nat (length argv)) = 0 /\ 0 <= u /\ u + 4 * (Z.of_nat (length argv) + 1) <= sz p.

Lemma argv_in_tail u a argv : argv_in u (a :: argv) -> argv_in (u + 4) argv.
Proof.
  intros (H1 & H2 & H3 & H4). cbn [length] in *. split_and!; [|rewrite <- H2; f_equal; lia|lia|lia].
  intros k a' Hk. specialize (H1 (S k) a' Hk). by replace (u + 4 + 4 * Z.of_nat k) with (u + 4 * Z.of_nat (S k)) by lia.
Qed.
Lemma wp_read_string q a (Q : list Z -> kstate -> Prop) : 0 <= q -> q + Z.of_nat (length a) < sz p -> string_in b q a -> Q a s -> wp (read_user q (length a)) Q s.
Proof.
  intros Hq Hl [Hs _] HQ. rewrite (wp_eq _ _ _ _ s) by (apply (read_resident s (sz p) b); [done|lia|lia]). replace (b <$> seqZ q (Z.of_nat (length a))) with a; [done|].
  apply list_eq. intros j. rewrite list_lookup_fmap. destruct (a !! j) as [c|] eqn:Hj.
  - rewrite lookup_seqZ_lt by (apply lookup_lt_Some in Hj; lia). cbn. by rewrite (Hs j c).
  - apply lookup_ge_None in Hj. by rewrite lookup_seqZ_ge by lia.
Qed.
Lemma wp_fetch_argv argv : forall u i n (Q : option (list (list Z)) -> kstate -> Prop),
  Forall is_string argv -> argv_in (u + 4 * i) argv -> 0 <= u + 4 * i -> (length argv < n)%nat -> Q (Some argv) s -> wp (fetch_argv u i n) Q s.
Proof.
  induction argv as [|a argv IH]; intros u i [|n] Q Hstr Hin Hu Hn HQ; cbn [length] in Hn; try lia; cbn [fetch_argv].
  all: pose proof Hin as (H1 & H2 & H3 & H4); cbn [length] in *; rewrite u32_small by (unfold KERNBASE, W32 in *; lia); rewrite wp_bind.
  all: apply (wp_fetchint s p b); [done..|unfold KERNBASE, W32 in *; lia|]; rewrite (proj2 (Z.leb_le (u + 4 * i + 4) (sz p))) by lia.
  { rewrite Z.add_0_r in H2. by rewrite H2. }
  apply list.Forall_cons in Hstr as [Ha Hstr]. specialize (H1 0%nat a eq_refl) as Hq. cbn zeta in Hq. rewrite Z.add_0_r in Hq. pose proof (word_range s p b Hr (u + 4 * i) ltac:(lia) ltac:(lia)) as Hw.
  set (q := word_of b (u + 4 * i)) in *. destruct Hq as (Q1 & Q2 & Q3). destruct (Z.eqb_spec (s32 q) 0) as [E|E]; [rewrite E in Hw; change (u32 0) with 0 in Hw; lia|].
  rewrite wp_bind, Hw. apply (wp_fetchstr s p b); [done..|lia| |].
  - intros len L1 L2 L3 L4. assert (len = Z.of_nat (length a)) as ->.
    { destruct (Z.lt_trichotomy len (Z.of_nat (length a))) as [Hlt|[?|Hgt]]; [exfalso|done|exfalso].
      - destruct (lookup_lt_is_Some_2 a (Z.to_nat len) ltac:(lia)) as [c Hc]. pose proof (proj1 Q3 _ _ Hc) as Hb. rewrite Z2Nat.id in Hb by lia.
        unfold is_string in Ha. rewrite list.Forall_forall in Ha. specialize (Ha c (list_elem_of_lookup_2 _ _ _ Hc)). lia.
      - apply (L4 (Z.of_nat (length a))); [lia|]. exact (proj2 Q3). }
    rewrite Nat2Z.id, wp_bind. apply wp_read_string; [lia|done|done|]. rewrite wp_bind. apply IH; [done| |lia|lia|by wp_steps].
    replace (u + 4 * (i + 1)) with (u + 4 * i + 4) by lia. by eapply argv_in_tail.
  - intros Hno. exfalso. apply (Hno (q + Z.of_nat (length a))); [lia|]. exact (proj2 Q3).
Qed.
End Args.

(** The stack that [exec] builds is read back by [exec]: a program that passes
    its [argv] on passes the same strings. *)
Theorem exec_arguments_roundtrip s p b sp argv :
  curp s = Some p -> 0 <= sz p <= KERNBASE -> resident s (sz p) b -> Forall is_string argv -> Z.of_nat (length argv) < MAXARG ->
  0 <= sp -> sp + 16 + 4 * Z.of_nat (length argv) <= sz p -> stack_holds b sp (sz p) argv ->
  wp (fetch_argv (word_of b (sp + 8)) 0 (Z.to_nat MAXARG)) (fun r s' => r = Some argv /\ s' = s) s.
Proof.
  intros Hp Hsz Hr Hs Hn Hsp Hfit (_ & _ & H3 & H4 & H5). rewrite H3. apply (wp_fetch_argv s p b Hp Hsz Hr argv); [done| |lia|unfold MAXARG in *; lia|done].
  rewrite Z.mul_0_r, Z.add_0_r. split_and!; [|done|lia|lia]. intros k a Hk. destruct (H4 k a Hk) as (? & ? & ?). cbn zeta. split_and!; [lia|done|done].
Qed.

(** ** The error path *)

Section Errors.
Context {KI : KernelImage} {FL : FileLayer} {EF : ExecFiles}.

(** Only memory and the allocator change, and [n] pages are taken. *)
Definition took (n : nat) (l : list Z) (s s' : kstate) : Prop :=
  s' = {| s with mem := mem s'; km := km s' |} /\ kmem_unlocked s' /\ kmem_ok (km s') (drop n l).

Lemma wp_take Q s l :
  kmem_unlocked s -> kmem_ok (km s) l -> (1 <= length l)%nat ->
  (forall r s', 0 < r < W32 -> took 1 l s s' -> Q r s') -> wp kalloc Q s.
Proof.
  intros Hu Hk Hl HQ. destruct l as [|f l]; [cbn in Hl; lia|]. eapply wp_kalloc_cons; [done|done|]. apply HQ.
  - pose proof (ko_range _ _ Hk) as Hr. apply list.Forall_cons in Hr as [[Hr _] _]. change MAXPAGES with 57344 in Hr. unfold frame_addr, KERNBASE, PGSIZE, W32. lia.
  - split; [done|]. split; [done|]. by apply kmem_ok_pop.
Qed.
Lemma took_mem n l s s' m : took n l s s' -> took n l s {| s' with mem := m |}.
Proof. intros (E & Hu & Hk). split; [|done]. cbn [mem km]. by rewrite E. Qed.
Lemma took_trans n k l s s1 s2 : took n l s s1 -> took k (drop n l) s1 s2 -> took (n + k) l s s2.
Proof. intros (E1 & _ & _) (E2 & Hu & Hk). split; [rewrite E2, E1; done|]. split; [done|]. by rewrite drop_drop in Hk. Qed.

Lemma wp_fblock_loop n : forall i prev s l Q,
  kmem_unlocked s -> kmem_ok (km s) l -> (n <= length l)%nat -> 0 < prev < W32 ->
  (forall last s', 0 < last < W32 -> took n l s s' -> Q last s') -> wp (fblock_loop i n prev) Q s.
Proof.
  induction n as [|n IH]; intros i prev s l Q Hu Hk Hl Hp HQ; cbn [fblock_loop].
  { wp_steps. apply HQ; [done|]. split; [by destruct s|done]. }
  rewrite wp_bind. eapply wp_take; [done|done|lia|]. intros r s1 Hr T1. rewrite wp_bind, wp_stf by lia. rewrite wp_bind, wp_stf by lia. rewrite wp_bind, wp_ldf by lia.
  cbn [mem]. rewrite load32_store32_eq, u32_small by lia. rewrite wp_bind, wp_stf by lia.
  match goal with |- wp _ _ ?x => assert (took 1 l s x) as T2 by exact (took_mem 1 l s s1 _ T1) end. pose proof T2 as T3. destruct T2 as (E2 & Hu2 & Hk2).
  eapply (IH _ _ _ (drop 1 l)); [done|done|rewrite length_drop; lia|done|]. intros last s' Hlast T'. apply HQ; [done|].
  exact (took_trans 1 n _ _ _ _ T3 T').
Qed.

(** From [s0] to [s] only memory, the allocator and the entry [i], which is
    [p] now, may have changed. *)
Definition moved (i : nat) (s0 s : kstate) (p : proc) : Prop :=
  s = {| s0 with mem := mem s; km := km s; procs := procs s |} /\ procs s = <[i := p]> (procs s0) /\ (i < length (procs s0))%nat.

Lemma moved_lookup i s0 s p : moved i s0 s p -> procs s !! i = Some p.
Proof. intros (_ & -> & Hi). by apply list_lookup_insert_eq. Qed.
Lemma moved_start i s p : procs s !! i = Some p -> moved i s s p.
Proof. intros H. split; [by destruct s|]. split; [by rewrite list_insert_id|by eapply lookup_lt_Some]. Qed.
Lemma moved_took i s0 s s' p n l : moved i s0 s p -> took n l s s' -> moved i s0 s' p.
Proof. intros (E & Ep & Hi) (E' & _). split; [rewrite E', E; done|]. split; [by rewrite E'|done]. Qed.
Lemma moved_mem i s0 s p m : moved i s0 s p -> moved i s0 {| s with mem := m |} p.
Proof. intros (E & Ep & Hi). split; [rewrite E; done|done]. Qed.
Lemma wp_upd i f s0 s p Q :
  moved i s0 s p -> (forall s', moved i s0 s' (f p) -> km s' = km s -> held s' = held s -> Q tt s') -> wp (set_proc i f) Q s.
Proof.
  intros Hm HQ. rewrite wp_set_proc. pose proof (moved_lookup _ _ _ _ Hm) as Hp. destruct Hm as (E & Ep & Hi). apply HQ; [|done|done].
  split; [rewrite E; done|]. split; [|done]. cbn [procs]. rewrite (list_alter_insert_lookup _ _ _ p), Ep by done. by rewrite list_insert_insert_eq.
Qed.

Definition cleaned (p : proc) : proc :=
  {| p with swappedPages := replicate MAX_PSYC_PAGES page_zero; ramPages := replicate MAX_PSYC_PAGES page_zero; num_ram := 0; num_swap := 0 |}.
Lemma set_proc_fuse i f g h s : (forall p, g (f p) = h p) -> (set_proc i f ;; set_proc i g) s = set_proc i h s.
Proof.
  intros E. unfold set_proc, modify, mbind, M_bind. cbn [procs]. rewrite list_alter_alter_eq. do 2 f_equal. apply list_alter_ext; [intros; apply E|done].
Qed.
Lemma wp_set_proc_fuse i f g h (m : M kstate unit) Q s : (forall p, g (f p) = h p) -> wp (set_proc i h ;; m) Q s -> wp (set_proc i f ;; set_proc i g ;; m) Q s.
Proof.
  intros E. rewrite !wp_bind, !wp_set_proc, wp_bind, wp_set_proc. cbn [procs]. rewrite list_alter_alter_eq. by rewrite (list_alter_ext (g ∘ f) h _ (procs s)) by (intros; done || apply E).
Qed.
Lemma wp_clean_arrays i Q s : wp (set_proc i cleaned) Q s -> wp (clean_arrays i) Q s.
Proof.
  intros H. unfold clean_arrays. 
  apply (wp_set_proc_fuse i _ _ (fun p => {| p with swappedPages := replicate MAX_PSYC_PAGES page_zero; ramPages := replicate MAX_PSYC_PAGES page_zero |})); [reflexivity|].
  apply (wp_set_proc_fuse i _ _ (fun p => {| p with swappedPages := replicate MAX_PSYC_PAGES page_zero; ramPages := replicate MAX_PSYC_PAGES page_zero; num_ram := 0 |})); [reflexivity|].
  unfold wp in *. by rewrite (set_proc_fuse _ _ _ cleaned) by reflexivity.
Qed.
Lemma wp_alloc_fresh_fblocklst i s0 p s l Q :
  kmem_unlocked s -> kmem_ok (km s) l -> (16 <= length l)%nat -> moved i s0 s p ->
  (forall h t s', moved i s0 s' {| p with free_head := h; free_tail := t |} -> kmem_ok (km s') (drop 16 l) -> Q tt s') ->
  wp (alloc_fresh_fblocklst i) Q s.
Proof.
  intros Hu Hk Hl Hm HQ. unfold alloc_fresh_fblocklst. rewrite wp_bind. eapply wp_take; [done|done|lia|]. intros h s1 Hh T1.
  rewrite wp_bind. eapply wp_upd; [eapply moved_took; [exact Hm|exact T1]|]. intros s2 M2 Ek2 Eh2. destruct T1 as (E1 & Hu1 & Hk1).
  rewrite wp_bind, wp_stf by lia. rewrite wp_bind, wp_stf by lia. rewrite wp_bind.
  eapply (wp_fblock_loop _ _ _ _ (drop 1 l)); [unfold kmem_unlocked; cbn [km held]; by rewrite Ek2, Eh2|cbn [km]; by rewrite Ek2|rewrite length_drop; cbn; lia|done|].
  intros t s3 Ht T3. rewrite wp_bind. eapply wp_upd; [eapply moved_took; [|exact T3]; apply moved_mem, moved_mem, M2|]. intros s4 M4 Ek4 _. rewrite wp_stf by lia.
  apply (HQ h t); [apply moved_mem, M4|]. cbn [km]. rewrite Ek4. destruct T3 as (_ & _ & Hk3). by rewrite drop_drop in Hk3.
Qed.

(** The process [p'] is [p] with empty paging tables and the swap file [f]. *)
Definition emptied (p p' : proc) (f : Z) : Prop :=
  restore (backup p) p' = p /\ ramPages p' = replicate MAX_PSYC_PAGES page_zero /\ swappedPages p' = replicate MAX_PSYC_PAGES page_zero /\
  num_ram p' = 0 /\ num_swap p' = 0 /\ swapFile p' = f.

(** The calls of the file system leave the state of this model as it is, apart
    from [createSwapFile], which sets the pointer to the swap file. *)
Record quiet_files (i : nat) (p : proc) (f : Z) (s : kstate) : Prop := {
  qf_create : createSwapFile i s = Ok 0 {| s with procs := <[i := {| p with swapFile := f |}]> (procs s) |};
  qf_begin x : begin_op x = Ok tt x;
  qf_end x : end_op x = Ok tt x;
  qf_lock ip x : ilock ip x = Ok tt x;
  qf_put ip x : iunlockput ip x = Ok tt x
}.


Lemma emptied_clock p p' f : emptied p p' f -> emptied p {| p' with clockHand := 0 |} f.
Proof. intros (E & H). split; [etransitivity; [|exact E]; by destruct p'|by destruct p']. Qed.
Lemma emptied_queue p p' f : emptied p p' f -> emptied p {| {| p' with queue_head := 0 |} with queue_tail := 0 |} f.
Proof. intros (E & H). split; [etransitivity; [|exact E]; by destruct p'|by destruct p']. Qed.
Lemma wp_allocate_fresh i p f s l Q :
  kmem_unlocked s -> kmem_ok (km s) l -> (16 <= length l)%nat -> procs s !! i = Some p -> quiet_files i p f s ->
  (forall p' s', emptied p p' f -> moved i s s' p' -> kmem_ok (km s') (drop 16 l) -> Q tt s') ->
  wp (allocate_fresh i) Q s.
Proof.
  intros Hu Hk Hl Hp Hq HQ. unfold allocate_fresh. rewrite wp_bind, (wp_eq _ _ _ _ _ (qf_create _ _ _ _ Hq)). set (p1 := {| p with swapFile := f |}).
  match goal with |- wp _ _ ?x => assert (moved i s x p1 /\ km x = km s /\ held x = held s) as (M1 & K1 & H1) end.
  { split; [|done]. split; [done|]. split; [done|]. by eapply lookup_lt_Some. }
  revert M1 K1 H1. match goal with |- context [wp _ _ ?x] => generalize x end. intros s1 M1 K1 H1.
  change (negb (0 =? 0)) with false. cbn beta iota. rewrite wp_bind. apply wp_clean_arrays.
  eapply wp_upd; [exact M1|]. intros s5 M5 K5 H5. set (p5 := cleaned p1) in *.
  rewrite wp_bind. eapply (wp_alloc_fresh_fblocklst i s p5 s5 l); [unfold kmem_unlocked; by rewrite K5, K1, H5, H1|by rewrite K5, K1|done|exact M5|].
  intros h t s6 M6 Hk6. unfold clean_by_selection. rewrite wp_bind, wp_get_proc by (by eapply moved_lookup). set (p6 := {| p5 with free_head := h; free_tail := t |}) in *.
  assert (emptied p p6 f) as He by (subst p6 p5 p1; clear; destruct p; split_and!; reflexivity). clearbody p6. rewrite wp_bind.
  assert (forall s7 p7, emptied p p7 f -> moved i s s7 p7 -> km s7 = km s6 -> wp (when (selection p6 =? selection_code SCFIFO) (set_proc i (fun p => {| p with clockHand := 0 |}))) Q s7) as Hlast.
  { intros s7 p7 He7 M7 K7. rewrite wp_when. destruct (_ =? _).
    - eapply wp_upd; [exact M7|]. intros s8 M8 K8 _. eapply HQ; [by apply emptied_clock|exact M8|by rewrite K8, K7].
    - eapply HQ; [exact He7|exact M7|by rewrite K7]. }
  rewrite wp_when. destruct (selection p6 =? selection_code AQ); [|exact (Hlast s6 p6 He M6 eq_refl)]. rewrite wp_bind. eapply wp_upd; [exact M6|]. intros s7 M7 K7 _. eapply wp_upd; [exact M7|]. intros s8 M8 K8 _.
  refine (Hlast s8 _ _ M8 _); [by apply emptied_queue|by rewrite K8, K7].
Qed.

Section Fails.
Context (sel : selection_policy) (i : nat) (p : proc) (f : Z) (s : kstate) (l : list Z).
Context (Hcur : curproc s = Some i) (Hp : procs s !! i = Some p) (Hpid : 2 < pid p).
Context (Hunl : kmem_unlocked s) (Hkm : kmem_ok (km s) l) (Hfree : (16 <= length l)%nat) (Hq : quiet_files i p f s).

(** Up to the search for the file. *)
Lemma wp_exec_start path argv Q :
  (forall p' s1, emptied p p' f -> moved i s s1 p' -> kmem_ok (km s1) (drop 16 l) ->
     wp (ip ← namei path; if ip =? 0 then end_op ;; mret (-1) else
         ilock ip ;; r ← build_image sel ip argv;
         match r with
         | (_, _, Some _) => diverge
         | (pgdir', locked, None) =>
             when (negb (pgdir' =? 0)) (freevm pgdir') ;;
             when (negb (bool_decide (sel = NONE))) (when (2 <? pid p) (set_proc i (restore (backup p)))) ;;
             when locked (iunlockput ip ;; end_op) ;;
             mret (-1)
         end) Q s1) ->
  wp (exec sel path argv) Q s.
Proof.
  intros H. unfold exec, myproc. rewrite wp_bind, wp_gets, Hcur, wp_bind, (wp_get_proc i p) by done. cbn zeta. rewrite wp_bind, wp_when.
  destruct (Z.ltb_spec 2 (pid p)); [|lia]. eapply (wp_allocate_fresh i p f s l); [done..|]. intros p' s1 He M1 K1. rewrite wp_bind, (wp_eq _ _ _ _ _ (qf_begin _ _ _ _ Hq s1)).
  specialize (H p' s1 He M1 K1). rewrite wp_bind in H |- *. eapply wp_mono; [exact H|]. intros ip s2. cbn beta. destruct (ip =? 0); [exact id|]. rewrite !wp_bind. intros H2. eapply wp_mono; [exact H2|].
  intros [] s3. cbn beta. rewrite !wp_bind. intros H3. eapply wp_mono; [exact H3|]. intros [[pg lk] [[[z sp] e]|]] s4 H4; [by exfalso|exact H4].
Qed.

(** When the file does not exist, [exec] returns -1 to a program whose paging
    tables have been emptied: it keeps its memory and its page table, but all
    its pages are forgotten, those in the old swap file for ever. *)
Theorem exec_not_found path argv :
  (forall x, namei path x = Ok 0 x) ->
  wp (exec sel path argv) (fun r s' => r = -1 /\ exists p', procs s' = <[i := p']> (procs s) /\ pgdir p' = pgdir p /\ sz p' = sz p /\ emptied p p' f) s.
Proof.
  intros Hn. apply wp_exec_start. intros p' s1 He M1 _. rewrite wp_bind, (wp_eq _ _ _ _ _ (Hn s1)). change (0 =? 0) with true. cbn beta iota.
  rewrite wp_bind, (wp_eq _ _ _ _ _ (qf_end _ _ _ _ Hq s1)). wp_steps. split; [done|]. exists p'. destruct M1 as (_ & Ep & _). split; [done|].
  assert (pgdir p' = pgdir p /\ sz p' = sz p) as [-> ->]; [|done]. destruct He as (E & _). rewrite <- E. by destruct p'.
Qed.

(** When the file is no program, [exec] returns -1 and the process is as
    before, but the sixteen pages of the new list of free blocks are lost. *)
Theorem exec_not_elf path argv ip c :
  (forall x, namei path x = Ok ip x) -> ip ≠ 0 -> inodes s !! ip = Some c ->
  Z.of_nat (length c) < ELFHDR_SIZE \/ magic (elfhdr_of c) ≠ ELF_MAGIC -> sel ≠ NONE ->
  wp (exec sel path argv) (fun r s' => r = -1 /\ procs s' = procs s /\ kmem_ok (km s') (drop 16 l)) s.
Proof.
  intros Hn Hip Hc Hbad Hsel. apply wp_exec_start. intros p' s1 He M1 K1. rewrite wp_bind, (wp_eq _ _ _ _ _ (Hn s1)). rewrite (proj2 (Z.eqb_neq ip 0) Hip).
  rewrite wp_bind, (wp_eq _ _ _ _ _ (qf_lock _ _ _ _ Hq ip s1)).
  assert (build_image sel ip argv s1 = Ok (0, true, None) s1) as Hb.
  { unfold build_image. assert (inodes s1 !! ip = Some c) as Hc1 by (destruct M1 as (-> & _); done).
    destruct (Z.ltb_spec (Z.of_nat (length c)) ELFHDR_SIZE) as [Hlt|Hge].
    - rewrite (bind_run _ _ s1 None s1); [done|]. unfold read_struct. rewrite Hc1. cbn zeta. rewrite (proj2 (Z.ltb_lt _ (0 + ELFHDR_SIZE))) by lia. by rewrite orb_true_r.
    - destruct Hbad as [?|Hm]; [lia|]. unfold ELFHDR_SIZE in *. rewrite (bind_run _ _ s1 (Some (take 52 c)) s1).
      + assert (magic (elfhdr_of (take 52 c)) = magic (elfhdr_of c)) as ->. { unfold elfhdr_of. cbn [magic]. unfold le32, le16. rewrite !nth_lookup, !lookup_take_lt by lia. done. }
        rewrite (proj2 (Z.eqb_neq _ _) Hm). done.
      + unfold read_struct. rewrite Hc1. cbn zeta. rewrite !(proj2 (Z.ltb_ge _ _)) by (unfold u32; rewrite ?Z.mod_small; unfold W32; lia). done. }
  rewrite wp_bind, (wp_eq _ _ _ _ _ Hb). cbn beta iota. change (negb (0 =? 0)) with false. rewrite bool_decide_eq_false_2 by done. cbn [when negb]. rewrite wp_bind. wp_steps.
  destruct (Z.ltb_spec 2 (pid p)); [|lia]. eapply wp_upd; [exact M1|]. intros s2 M2 K2 _. wp_steps. rewrite (wp_eq _ _ _ _ _ (qf_put _ _ _ _ Hq ip s2)). 
  rewrite (wp_eq _ _ _ _ _ (qf_end _ _ _ _ Hq s2)). destruct He as (E & _). destruct M2 as (_ & Ep & _). rewrite E in Ep. rewrite list_insert_id in Ep by done.
  split_and!; [done|done|by rewrite K2].
Qed.
End Fails.
End Errors.

(** ** Loading a segment *)

(** An evicted entry has no frame. *)
Lemma paged_pte_addr v : PTE_ADDR (paged_pte v) = 0.
Proof.
  assert (0 <= Z.lor (Z.land v 0xFFF) PTE_PG < 2 ^ 12) as Hl.
  { change 0xFFF with (Z.ones 12). rewrite Z.land_ones by lia. apply lor_lt_pow2; [lia|apply Z.mod_pos_bound; lia|done]. }
  pose proof (clr_bounds _ PTE_P (proj1 Hl)) as Hc. unfold paged_pte. rewrite PTE_ADDR_eq, u32_small by (unfold W32; lia). change 4096 with (2 ^ 12). rewrite Z.mod_small by lia. lia.
Qed.

(** [loaduvm] does not look at the flags of an entry: if [allocuvm] evicted the
    page of the new image, as it does from the seventeenth page on, the
    segment is written to physical address 0 and [loaduvm] reports success. *)
Theorem loaduvm_evicted_page s pd va t v ip c off n :
  pt_wf (mem s) pd -> page_aligned va -> 0 <= va < KERNBASE -> tbl (mem s) pd (PDX va) = Some t -> pte_val (mem s) pd va = paged_pte v ->
  inodes s !! ip = Some c -> 0 <= off -> 0 < n <= PGSIZE -> off + n <= Z.of_nat (length c) < W32 ->
  loaduvm (frame_addr pd) va ip off n s = Ok 0 {| s with mem := store_bytes (mem s) KERNBASE (take (Z.to_nat n) (drop (Z.to_nat off) c)) |}.
Proof.
  intros Hw Ha Hva Ht Hv Hc Hoff Hn Hlen. enough (wp (loaduvm (frame_addr pd) va ip off n) (fun r s' => r = 0 /\ s' = {| s with mem := store_bytes (mem s) KERNBASE (take (Z.to_nat n) (drop (Z.to_nat off) c)) |}) s) as H
    by (apply wp_Ok in H as (? & ? & -> & -> & ->); done).
  unfold loaduvm. replace (va mod PGSIZE) with 0 by (symmetry; exact Ha). cbn [negb Z.eqb]. destruct (Z.to_nat _) as [|fuel] eqn:Ef; [unfold PGSIZE in *; Z.to_euclidean_division_equations; lia|].
  cbn [loaduvm_loop]. rewrite (proj2 (Z.ltb_lt 0 n)) by lia. rewrite wp_bind, Z.add_0_r, u32_small by (unfold KERNBASE, W32 in *; lia).
  apply wp_walkpgdir_false; [done| |congruence]. intros t' Ht'. assert (t' = t) as -> by congruence. pose proof (wf_tbl _ _ Hw _ _ (PDX_range va) Ht) as [Hf _]. pose proof (PTX_range va).
  destruct (Z.eqb_spec (frame_addr t + 4 * PTX va) 0) as [E|E]; [unfold frame_addr, KERNBASE, PGSIZE in *; lia|]. rewrite wp_bind, wp_ld32 by done.
  assert (load32 (mem s) (frame_addr t + 4 * PTX va) = paged_pte v) as ->. { rewrite <- Hv. unfold pte_val. by rewrite Ht. }
  rewrite paged_pte_addr, Z.sub_0_r. replace (u32 (off + 0)) with off by (rewrite Z.add_0_r; symmetry; apply u32_small; lia). cbn zeta.
  assert ((if n <? PGSIZE then n else PGSIZE) = n) as -> by (destruct (Z.ltb_spec n PGSIZE); lia). change (P2V 0) with KERNBASE.
  rewrite wp_bind. unfold wp at 1, readi. rewrite Hc. cbn zeta. rewrite (proj2 (Z.ltb_ge _ off)) by lia. rewrite u32_small by lia. rewrite (proj2 (Z.ltb_ge (off + n) off)) by lia. cbn [orb].
  rewrite (proj2 (Z.ltb_ge _ (off + n))) by lia. rewrite Z.eqb_refl. cbn [negb]. rewrite Z.add_0_l. change (u32 PGSIZE) with PGSIZE.
  destruct fuel; cbn [loaduvm_loop]; rewrite (proj2 (Z.ltb_ge PGSIZE n)) by lia; by wp_steps.
Qed.

(** ** Witnesses *)

Definition ls_argv : list (list Z) := [[108; 115]; [45; 97]].
Lemma exec_stack_layout_witness :
  wp (@push_stack kstate (copyout_bytes (frame_addr 1000)) ls_argv 4096) (fun r s' => r = Some 4064) (demo_user 7 1).
Proof.
  eapply wp_mono; [apply (exec_stack_layout 1000 0 1005 ls_argv (demo_user 7 1))|].
  - split_and!; [apply demo_wf|discriminate|reflexivity|reflexivity|reflexivity|discriminate|reflexivity|]. intros [H|H]%demo_owns; discriminate.
  - reflexivity.
  - done.
  - repeat constructor.
  - discriminate.
  - discriminate.
  - intros r s' (-> & _). reflexivity.
Defined.

(** A process whose stack holds the arguments of ls. *)
Definition ls_mem : gmap Z Z :=
  store_bytes (demo_dir 7) (frame_addr 1005 + 4064) (concat (word_bytes <$> [0xffffffff; 2; 4076; 4092; 4088; 0]) ++ [45; 97; 0; 0; 108; 115; 0]).
Definition ls_call : kstate := {| demo_call with mem := ls_mem |}.
Lemma ls_resident : resident ls_call 4096 (fun a => load8 ls_mem (frame_addr 1005 + a)).
Proof.
  intros a Ha. exists (frame_addr 1005 + a). split; [|done]. rewrite <- (Z.add_0_l a) at 1.
  apply (xlate_page false ls_call 1000 0 1005 a); try reflexivity; unfold PGSIZE, KERNBASE in *; try lia; try done.
Qed.
Lemma exec_arguments_roundtrip_witness : wp (fetch_argv 4076 0 32) (fun r s' => r = Some ls_argv /\ s' = ls_call) ls_call.
Proof.
  apply (exec_arguments_roundtrip ls_call demo_caller (fun a => load8 ls_mem (frame_addr 1005 + a)) 4064 ls_argv eq_refl).
  - cbn. unfold KERNBASE. lia.
  - exact ls_resident.
  - repeat constructor.
  - reflexivity.
  - lia.
  - discriminate.
  - split_and!; try reflexivity. intros [|[|k]] a [= <-]; (split_and!; [reflexivity|reflexivity|]); (split; [|reflexivity]); intros [|[|j]] c [= <-]; reflexivity.
Defined.

Definition no_file : ExecFiles := {| namei _ := mret 0; ilock _ := mret tt; iunlockput _ := mret tt |}.
Definition some_file : ExecFiles := {| namei _ := mret 9; ilock _ := mret tt; iunlockput _ := mret tt |}.
Lemma exec_not_found_witness :
  wp (exec (KI := xv6_image) (FL := no_files) (EF := no_file) LAPA [47; 120] ls_argv) (fun r s' => r = -1 /\ exists p', procs s' = [p'] /\ ramPages p' = replicate MAX_PSYC_PAGES page_zero) (demo_user 7 1).
Proof.
  eapply wp_mono; [apply (exec_not_found (KI := xv6_image) (FL := no_files) (EF := no_file) LAPA 0 demo_proc 0 (demo_user 7 1) (seqZ 2000 1200))|].
  - reflexivity.
  - reflexivity.
  - reflexivity.
  - right. apply not_elem_of_nil.
  - apply demo_runs_ok.
  - rewrite length_seqZ. lia.
  - split; reflexivity.
  - reflexivity.
  - intros r s' (-> & p' & Ep & _ & _ & _ & Er & _). split; [done|]. by exists p'.
Defined.
Lemma exec_not_elf_witness :
  wp (exec (KI := xv6_image) (FL := no_files) (EF := some_file) LAPA [47; 120] ls_argv) (fun r s' => r = -1 /\ procs s' = [demo_proc]) {| (demo_user 7 1) with inodes := {[9 := [35; 33]]} |}.
Proof.
  eapply wp_mono; [apply (exec_not_elf (KI := xv6_image) (FL := no_files) (EF := some_file) LAPA 0 demo_proc 0 {| (demo_user 7 1) with inodes := {[9 := [35; 33]]} |} (seqZ 2000 1200)) with (ip := 9) (c := [35; 33])|].
  - reflexivity.
  - reflexivity.
  - reflexivity.
  - right. apply not_elem_of_nil.
  - apply demo_runs_ok.
  - rewrite length_seqZ. lia.
  - split; reflexivity.
  - reflexivity.
  - discriminate.
  - reflexivity.
  - by left.
  - discriminate.
  - intros r s' (-> & Ep & _). by split.
Defined.
Lemma loaduvm_evicted_page_witness :
  loaduvm (frame_addr 1000) 0 9 0 2 {| (demo_user (0x204 - 1005 * 4096) 1) with inodes := {[9 := [127; 69]]} |} =
  Ok 0 {| {| (demo_user (0x204 - 1005 * 4096) 1) with inodes := {[9 := [127; 69]]} |} with mem := store_bytes (demo_dir (0x204 - 1005 * 4096)) KERNBASE [127; 69] |}.
Proof.
  apply (loaduvm_evicted_page {| (demo_user (0x204 - 1005 * 4096) 1) with inodes := {[9 := [127; 69]]} |} 1000 0 1001 5 9 [127; 69]); [apply demo_wf|reflexivity|done|reflexivity|reflexivity|reflexivity|done|done|done].
Defined.
