(* ===== verification/Block.v ===== *)
(** Disk blocks as the kernel sees them through the buffer cache: the
    contents of the disk, the contents that [bread] presents, the blocks whose
    buffers the executing process holds, and those that are pinned because they
    are dirty.

    This is the specification of bio.c: Bio.v shows that the linked list of
    buffers with its flags implements these operations. Log.v and Fs.v are
    written on top of it. A buffer is named by the number of its block, since
    a block has at most one buffer. *)

From S2P Require Import Prelude Files.
From stdpp Require Import base gmap list strings.
From Stdlib Require Import ZArith Lia.
Open Scope Z_scope.

(** ** Fields of structures in a block *)

Definition byte_at (bs : list Z) (o : Z) : Z := default 0 (bs !! Z.to_nat o).
Definition get16 (bs : list Z) (o : Z) : Z := byte_at bs o + 256 * byte_at bs (o + 1).
Definition get32 (bs : list Z) (o : Z) : Z :=
  byte_at bs o + 256 * byte_at bs (o + 1) + 65536 * byte_at bs (o + 2) + 16777216 * byte_at bs (o + 3).
Definition bytes16 (v : Z) : list Z := [u8 v; u8 (v / 256)].
Definition bytes32 (v : Z) : list Z := [u8 v; u8 (v / 256); u8 (v / 65536); u8 (v / 16777216)].
(** Stores bytes at an offset inside the block. *)
Definition put (bs : list Z) (o : Z) (new : list Z) : list Z := splice bs (Z.to_nat o) new.
Definition put16 (bs : list Z) (o v : Z) : list Z := put bs o (bytes16 v).
Definition put32 (bs : list Z) (o v : Z) : list Z := put bs o (bytes32 v).

Definition is_bytes (bs : list Z) : Prop := Forall (fun b => 0 <= b < 256) bs.
Definition is_block (bs : list Z) : Prop := length bs = Z.to_nat BSIZE /\ is_bytes bs.

Lemma length_put bs o new :
  0 <= o -> (Z.to_nat o + length new <= length bs)%nat -> length (put bs o new) = length bs.
Proof. intros Ho Hl. unfold put. rewrite length_splice by lia. lia. Qed.
Lemma lookup_put bs o new i :
  0 <= o -> (Z.to_nat o + length new <= length bs)%nat ->
  put bs o new !! i = if decide (Z.to_nat o <= i < Z.to_nat o + length new)%nat then new !! (i - Z.to_nat o)%nat else bs !! i.
Proof. intros Ho Hl. apply lookup_splice. lia. Qed.
Lemma byte_at_put bs o new x :
  0 <= o -> 0 <= x -> (Z.to_nat o + length new <= length bs)%nat ->
  byte_at (put bs o new) x = if decide (o <= x < o + Z.of_nat (length new)) then byte_at new (x - o) else byte_at bs x.
Proof.
  intros Ho Hx Hl. unfold byte_at. rewrite lookup_put by done. repeat case_decide; try lia.
  do 2 f_equal. lia.
Qed.
Lemma get32_bytes32 v : get32 (bytes32 v) 0 = u32 v.
Proof.
  change (get32 (bytes32 v) 0) with (u8 v + 256 * u8 (v / 256) + 65536 * u8 (v / 65536) + 16777216 * u8 (v / 16777216)). zlia.
Qed.
Lemma get16_bytes16 v : get16 (bytes16 v) 0 = u16 v.
Proof. change (get16 (bytes16 v) 0) with (u8 v + 256 * u8 (v / 256)). zlia. Qed.

Lemma get32_put bs o new x :
  0 <= o -> 0 <= x -> (Z.to_nat o + length new <= length bs)%nat -> o <= x -> x + 4 <= o + Z.of_nat (length new) ->
  get32 (put bs o new) x = get32 new (x - o).
Proof.
  intros. unfold get32. rewrite !byte_at_put by lia. rewrite !decide_True by lia. repeat f_equal; lia.
Qed.
Lemma get32_put_ne bs o new x :
  0 <= o -> 0 <= x -> (Z.to_nat o + length new <= length bs)%nat -> x + 4 <= o \/ o + Z.of_nat (length new) <= x ->
  get32 (put bs o new) x = get32 bs x.
Proof. intros. unfold get32. rewrite !byte_at_put by lia. by rewrite !decide_False by lia. Qed.
Lemma get16_put bs o new x :
  0 <= o -> 0 <= x -> (Z.to_nat o + length new <= length bs)%nat -> o <= x -> x + 2 <= o + Z.of_nat (length new) ->
  get16 (put bs o new) x = get16 new (x - o).
Proof.
  intros. unfold get16. rewrite !byte_at_put by lia. rewrite !decide_True by lia. repeat f_equal; lia.
Qed.
Lemma get16_put_ne bs o new x :
  0 <= o -> 0 <= x -> (Z.to_nat o + length new <= length bs)%nat -> x + 2 <= o \/ o + Z.of_nat (length new) <= x ->
  get16 (put bs o new) x = get16 bs x.
Proof. intros. unfold get16. rewrite !byte_at_put by lia. by rewrite !decide_False by lia. Qed.
Lemma get32_put32 bs o v :
  0 <= o -> (Z.to_nat o + 4 <= length bs)%nat -> get32 (put32 bs o v) o = u32 v.
Proof. intros. unfold put32. rewrite get32_put by (cbn; lia). rewrite Z.sub_diag. apply get32_bytes32. Qed.
Lemma get32_put32_ne bs o v x :
  0 <= o -> 0 <= x -> (Z.to_nat o + 4 <= length bs)%nat -> x + 4 <= o \/ o + 4 <= x -> get32 (put32 bs o v) x = get32 bs x.
Proof. intros. unfold put32. by apply get32_put_ne. Qed.
Lemma length_put32 bs o v : 0 <= o -> (Z.to_nat o + 4 <= length bs)%nat -> length (put32 bs o v) = length bs.
Proof. intros. by apply length_put. Qed.
Lemma length_put16 bs o v : 0 <= o -> (Z.to_nat o + 2 <= length bs)%nat -> length (put16 bs o v) = length bs.
Proof. intros. by apply length_put. Qed.

Lemma is_bytes_splice bs o new : is_bytes bs -> is_bytes new -> is_bytes (splice bs o new).
Proof.
  intros H1 H2. unfold splice, is_bytes. apply Forall_app. split; [by apply Forall_take|].
  apply Forall_app. split; [done|]. by apply Forall_drop.
Qed.
Lemma is_bytes32 v : is_bytes (bytes32 v).
Proof. repeat constructor; apply u8_range. Qed.
Lemma is_bytes16 v : is_bytes (bytes16 v).
Proof. repeat constructor; apply u8_range. Qed.
Lemma is_block_put bs o new :
  is_block bs -> is_bytes new -> 0 <= o -> (Z.to_nat o + length new <= Z.to_nat BSIZE)%nat -> is_block (put bs o new).
Proof.
  intros [Hl Hb] Hn Ho Hs. split; [rewrite length_put; lia|]. by apply is_bytes_splice.
Qed.
Lemma byte_at_range bs o : is_bytes bs -> 0 <= byte_at bs o < 256.
Proof.
  intros H. unfold byte_at. destruct (bs !! Z.to_nat o) as [b|] eqn:E; cbn; [|lia].
  by apply (Forall_lookup_1 _ _ _ _ H E).
Qed.
Lemma get32_range bs o : is_bytes bs -> 0 <= get32 bs o < W32.
Proof.
  intros H. unfold get32, W32. pose proof (byte_at_range bs o H). pose proof (byte_at_range bs (o + 1) H).
  pose proof (byte_at_range bs (o + 2) H). pose proof (byte_at_range bs (o + 3) H). lia.
Qed.

(** ** The block store *)

Definition NBUF : nat := 30.

Record store := mk_store {
  (** what is on the disk *)
  disk : gmap Z (list Z);
  (** what [bread] presents *)
  vw : gmap Z (list Z);
  (** the blocks with a dirty buffer, which is not recycled *)
  pinned : gset Z;
  (** the blocks whose buffers the process has locked *)
  bheld : list Z;
  (** the writes to the disk, in order; a crash cuts this sequence off *)
  written : list (Z * list Z)
}.

(** A buffer is needed for a block that has none: those of pinned and of held
    blocks are in use. *)
Definition room (s : store) (b : Z) : Prop :=
  b ∈ pinned s \/ (size (pinned s ∪ list_to_set (bheld s)) < NBUF)%nat.
#[export] Instance room_dec s b : Decision (room s b).
Proof. unfold room. apply _. Defined.

Definition bread (b : Z) : M store Z := fun s =>
  if decide (b ∈ bheld s) then Diverge
  else if decide (room s b) then
    match disk s !! b with
    | None => Panic "iderw: block out of range"
    | Some _ => Ok b {| s with bheld := b :: bheld s |}
    end
  else Panic "bget: no buffers".
(** [b->data] of a buffer the process holds. *)
Definition bdata (b : Z) : M store (list Z) := fun s =>
  if decide (b ∈ bheld s) then match vw s !! b with Some d => Ok d s | None => UB end else UB.
Definition set_bdata (b : Z) (d : list Z) : M store unit := fun s =>
  if decide (b ∈ bheld s) then Ok tt {| s with vw := <[b := d]> (vw s) |} else UB.
Definition bwrite (b : Z) : M store unit := fun s =>
  if decide (b ∈ bheld s) then
    match vw s !! b with
    | Some d => Ok tt {| s with disk := <[b := d]> (disk s); pinned := pinned s ∖ {[ b ]}; written := written s ++ [(b, d)] |}
    | None => UB
    end
  else Panic "bwrite".
(** [b->flags |= B_DIRTY] *)
Definition bpin (b : Z) : M store unit := modify (fun s => {| s with pinned := {[ b ]} ∪ pinned s |}).
(** A modified buffer that is neither written nor pinned may be lost. *)
Definition brelse (b : Z) : M store unit := fun s =>
  if decide (b ∈ bheld s) then
    if decide (b ∈ pinned s \/ vw s !! b = disk s !! b) then Ok tt {| s with bheld := filter (.≠ b) (bheld s) |} else UB
  else Panic "brelse".

Lemma room_pinned s b : b ∈ pinned s -> room s b.
Proof. by left. Qed.
Lemma room_free s b : (size (pinned s) + length (bheld s) < NBUF)%nat -> room s b.
Proof.
  intros H. right. pose proof (size_union_alt (pinned s) (list_to_set (bheld s))) as E.
  pose proof (subseteq_size (list_to_set (bheld s) ∖ pinned s) (list_to_set (bheld s) : gset Z) ltac:(set_solver)) as H1.
  assert (size (list_to_set (bheld s) : gset Z) <= length (bheld s))%nat; [|lia].
  clear. induction (bheld s) as [|x l IH]; [done|]. cbn [list_to_set length].
  pose proof (size_union_alt ({[x]} : gset Z) (list_to_set l)) as E. rewrite size_singleton in E.
  pose proof (subseteq_size (list_to_set l ∖ {[x]}) (list_to_set l : gset Z) ltac:(set_solver)). 
  change (size ({[x]} ∪ list_to_set l : gset Z) <= S (length l))%nat. lia.
Qed.

Lemma release_last (b : Z) : filter (.≠ b) [b] = [].
Proof. by rewrite filter_cons_False by tauto. Qed.
Lemma release_top (a b : Z) : a ≠ b -> filter (.≠ b) [b; a] = [a].
Proof. intros. by rewrite filter_cons_False, filter_cons_True by tauto. Qed.
Lemma release_below (a b : Z) : a ≠ b -> filter (.≠ a) [b; a] = [b].
Proof. intros. rewrite filter_cons_True by congruence. by rewrite filter_cons_False by tauto. Qed.

(** ** Well-formed stores *)

Record store_ok (s : store) : Prop := {
  so_dom : forall b, is_Some (vw s !! b) <-> is_Some (disk s !! b);
  so_blocks : forall b d, vw s !! b = Some d -> is_block d;
  so_disk : forall b d, disk s !! b = Some d -> is_block d;
  so_clean : forall b, b ∉ pinned s -> b ∉ bheld s -> vw s !! b = disk s !! b;
  so_held : NoDup (bheld s)
}.

(** The disk after a sequence of writes. *)
Fixpoint apply_writes (d : gmap Z (list Z)) (ws : list (Z * list Z)) : gmap Z (list Z) :=
  match ws with
  | [] => d
  | (b, x) :: ws' => apply_writes (<[b := x]> d) ws'
  end.
Lemma apply_writes_app d ws ws' : apply_writes d (ws ++ ws') = apply_writes (apply_writes d ws) ws'.
Proof. revert d. induction ws as [|[b x] ws IH]; intros d; [done|]. apply IH. Qed.
Lemma apply_writes_other d ws b : b ∉ ws.*1 -> apply_writes d ws !! b = d !! b.
Proof.
  revert d. induction ws as [|[c x] ws IH]; intros d Hb; [done|]. cbn in *. apply not_elem_of_cons in Hb as [Hne Hb].
  rewrite IH by done. by rewrite lookup_insert_ne.
Qed.
(** The block's last write decides. *)
Lemma apply_writes_in d ws b x :
  (b, x) ∈ ws -> NoDup ws.*1 -> apply_writes d ws !! b = Some x.
Proof.
  revert d. induction ws as [|[c y] ws IH]; intros d Hin Hnd; [by apply elem_of_nil in Hin|]. cbn in *.
  apply NoDup_cons in Hnd as [Hni Hnd]. apply elem_of_cons in Hin as [[= -> ->]|Hin]; [|by apply IH].
  rewrite apply_writes_other by done. apply lookup_insert_eq.
Qed.

(** ** Rules *)

(** Reduces the fields of a store that has been taken apart. *)
Ltac stc := cbn [disk vw pinned bheld written].


Lemma wp_bread b Q s :
  b ∉ bheld s -> room s b -> is_Some (disk s !! b) ->
  wp (bread b) Q s <-> Q b {| s with bheld := b :: bheld s |}.
Proof. intros H1 H2 [d H3]. unfold wp, bread. by rewrite decide_False, decide_True, H3. Qed.
Lemma wp_bdata b d Q s : b ∈ bheld s -> vw s !! b = Some d -> wp (bdata b) Q s <-> Q d s.
Proof. intros H1 H2. unfold wp, bdata. by rewrite decide_True, H2. Qed.
Lemma wp_set_bdata b d Q s : b ∈ bheld s -> wp (set_bdata b d) Q s <-> Q tt {| s with vw := <[b := d]> (vw s) |}.
Proof. intros H1. unfold wp, set_bdata. by rewrite decide_True. Qed.
Lemma wp_bwrite b d Q s :
  b ∈ bheld s -> vw s !! b = Some d ->
  wp (bwrite b) Q s <->
  Q tt {| s with disk := <[b := d]> (disk s); pinned := pinned s ∖ {[ b ]}; written := written s ++ [(b, d)] |}.
Proof. intros H1 H2. unfold wp, bwrite. by rewrite decide_True, H2. Qed.
Lemma wp_brelse b Q s :
  b ∈ bheld s -> b ∈ pinned s \/ vw s !! b = disk s !! b ->
  wp (brelse b) Q s <-> Q tt {| s with bheld := filter (.≠ b) (bheld s) |}.
Proof. intros H1 H2. unfold wp, brelse. by rewrite decide_True, decide_True. Qed.

(** ** The operations keep the store well formed *)

Lemma store_ok_bread b s : store_ok s -> b ∉ bheld s -> store_ok {| s with bheld := b :: bheld s |}.
Proof.
  intros [H1 H2 H3 H4 H5] Hb. split; stc; try done.
  - intros c Hc Hh. apply H4; [done|]. by apply not_elem_of_cons in Hh as [_ ?].
  - by apply NoDup_cons.
Qed.
Lemma store_ok_set b d s :
  store_ok s -> b ∈ bheld s -> is_Some (disk s !! b) -> is_block d -> store_ok {| s with vw := <[b := d]> (vw s) |}.
Proof.
  intros [H1 H2 H3 H4 H5] Hb Hk Hd. split; stc; try done.
  - intros c. destruct (decide (b = c)) as [<-|]; [rewrite lookup_insert_eq; split; eauto|by rewrite lookup_insert_ne].
  - intros c x. destruct (decide (b = c)) as [<-|]; [rewrite lookup_insert_eq; by intros [= <-]|]. rewrite lookup_insert_ne by done. apply H2.
  - intros c Hc Hh. rewrite lookup_insert_ne by congruence. by apply H4.
Qed.
Lemma store_ok_pin b s : store_ok s -> store_ok {| s with pinned := {[ b ]} ∪ pinned s |}.
Proof.
  intros [H1 H2 H3 H4 H5]. split; stc; try done. intros c Hc Hh. apply H4; [|done].
  intros Hp. apply Hc, elem_of_union. by right.
Qed.
Lemma store_ok_write b d s :
  store_ok s -> vw s !! b = Some d -> b ∈ bheld s ->
  store_ok {| s with disk := <[b := d]> (disk s); pinned := pinned s ∖ {[ b ]}; written := written s ++ [(b, d)] |}.
Proof.
  intros [H1 H2 H3 H4 H5] Hd Hb. split; stc; try done.
  - intros c. destruct (decide (b = c)) as [<-|]; [rewrite lookup_insert_eq, Hd; split; eauto|by rewrite lookup_insert_ne].
  - intros c x. destruct (decide (b = c)) as [<-|]; [rewrite lookup_insert_eq; intros [= <-]; by eapply H2|].
    rewrite lookup_insert_ne by done. apply H3.
  - intros c Hc Hh. rewrite lookup_insert_ne by congruence. apply H4; [|done]. intros Hp. apply Hc, elem_of_difference.
    split; [done|]. intros ->%elem_of_singleton. done.
Qed.
Lemma store_ok_relse b s :
  store_ok s -> b ∈ pinned s \/ vw s !! b = disk s !! b -> store_ok {| s with bheld := filter (.≠ b) (bheld s) |}.
Proof.
  intros [H1 H2 H3 H4 H5] Hb. split; stc; try done.
  - intros c Hc Hh. destruct (decide (c = b)) as [->|Hne]; [naive_solver|]. apply H4; [done|].
    intros Hi. apply Hh, list_elem_of_filter. done.
  - by apply NoDup_filter.
Qed.
