(* ===== verification/Log.v ===== *)
(** The log (log.c): transactions of several blocks that are atomic with
    respect to crashes, shared by concurrent system calls.

    The first part translates the code on top of the block store of Block.v.
    The second part shows that a commit is atomic: whatever write to the disk
    is the last before a crash, and however often recovery itself crashes, a
    recovery that completes leaves all or nothing of the transaction. The third
    part is the interleaving of system calls between [begin_op] and [end_op]. *)

From S2P Require Import Prelude Files Block.
From stdpp Require Import base gmap list strings relations.
From Stdlib Require Import ZArith Lia.
Open Scope Z_scope.

(** ** The code *)

Definition MAXOPBLOCKS : Z := 10.
Definition LOGSIZE : Z := MAXOPBLOCKS * 3.

(** [struct log] with its [struct logheader]. *)
Record log := mk_log {
  start : Z;
  log_size : Z;
  outstanding : Z;
  committing : Z;
  lh_n : Z;
  lh_block : list Z
}.
Definition log_zero : log := mk_log 0 0 0 0 0 (replicate (Z.to_nat LOGSIZE) 0).

Record lstate := mk_lstate { st : store; lg : log }.
(** The operations of the buffer cache in this state. *)
Definition on_store {A} (m : M store A) : M lstate A := zoom st (fun t s => {| s with st := t |}) m.
Definition set_log (f : log -> log) : M lstate unit := modify (fun s => {| s with lg := f (lg s) |}).

(** [struct superblock] *)
Record superblock := mk_sb {
  sb_size : Z;
  sb_nblocks : Z;
  sb_ninodes : Z;
  sb_nlog : Z;
  sb_logstart : Z;
  sb_inodestart : Z;
  sb_bmapstart : Z
}.
Definition decode_sb (d : list Z) : superblock :=
  mk_sb (get32 d 0) (get32 d 4) (get32 d 8) (get32 d 12) (get32 d 16) (get32 d 20) (get32 d 24).
Definition readsb : M store superblock :=
  bp ← bread 1;
  d ← bdata bp;
  brelse bp ;;
  mret (decode_sb d).

(** [log.lh.block[i]], outside of the array undefined. *)
Definition lh_at (i : Z) : M lstate Z := fun s =>
  match lh_block (lg s) !! Z.to_nat i with
  | Some b => if i <? 0 then UB else Ok b s
  | None => UB
  end.
Definition set_lh (i v : Z) : M lstate unit := fun s =>
  if (0 <=? i) && (i <? LOGSIZE) then Ok tt {| s with lg := {| (lg s) with lh_block := <[Z.to_nat i := v]> (lh_block (lg s)) |} |}
  else UB.

Definition install_one (tail : Z) : M lstate unit :=
  l ← gets lg;
  lbuf ← on_store (bread (start l + tail + 1));
  b ← lh_at tail;
  dbuf ← on_store (bread b);
  d ← on_store (bdata lbuf);
  on_store (set_bdata dbuf d) ;;
  on_store (bwrite dbuf) ;;
  on_store (brelse lbuf) ;;
  on_store (brelse dbuf).
Definition install_trans : M lstate unit :=
  n ← gets (fun s => lh_n (lg s));
  for_each (seqZ 0 n) install_one.

Definition read_head : M lstate unit :=
  l ← gets lg;
  buf ← on_store (bread (start l));
  d ← on_store (bdata buf);
  let n := s32 (get32 d 0) in
  set_log (fun l => {| l with lh_n := n |}) ;;
  for_each (seqZ 0 n) (fun i => set_lh i (s32 (get32 d (4 + 4 * i)))) ;;
  on_store (brelse buf).

(** The header block with the numbers of [bs] from position [i] on. *)
Fixpoint put_blocks (d : list Z) (i : Z) (bs : list Z) : list Z :=
  match bs with
  | [] => d
  | b :: bs' => put_blocks (put32 d (4 + 4 * i) b) (i + 1) bs'
  end.
Definition write_head : M lstate unit :=
  l ← gets lg;
  buf ← on_store (bread (start l));
  d ← on_store (bdata buf);
  (if (Z.of_nat (length (lh_block l)) <? lh_n l) then ub else mret tt) ;;
  on_store (set_bdata buf (put_blocks (put32 d 0 (lh_n l)) 0 (take (Z.to_nat (lh_n l)) (lh_block l)))) ;;
  on_store (bwrite buf) ;;
  on_store (brelse buf).

Definition recover_from_log : M lstate unit :=
  read_head ;;
  install_trans ;;
  set_log (fun l => {| l with lh_n := 0 |}) ;;
  write_head.

Definition initlog : M lstate unit :=
  if BSIZE <=? 4 + 4 * LOGSIZE then panic "initlog: too big logheader" else
  sb ← on_store readsb;
  set_log (fun l => {| l with start := s32 (sb_logstart sb); log_size := s32 (sb_nlog sb) |}) ;;
  recover_from_log.

Definition write_log_one (tail : Z) : M lstate unit :=
  l ← gets lg;
  to ← on_store (bread (start l + tail + 1));
  b ← lh_at tail;
  from ← on_store (bread b);
  d ← on_store (bdata from);
  on_store (set_bdata to d) ;;
  on_store (bwrite to) ;;
  on_store (brelse from) ;;
  on_store (brelse to).
Definition write_log : M lstate unit :=
  n ← gets (fun s => lh_n (lg s));
  for_each (seqZ 0 n) write_log_one.

Definition commit : M lstate unit :=
  n ← gets (fun s => lh_n (lg s));
  when (0 <? n) (
    write_log ;;
    write_head ;;
    install_trans ;;
    set_log (fun l => {| l with lh_n := 0 |}) ;;
    write_head).

(** One turn of the loop of [begin_op]: [false] when it sleeps. *)
Definition begin_op_try : M lstate bool :=
  l ← gets lg;
  if negb (committing l =? 0) then mret false
  else if LOGSIZE <? lh_n l + (outstanding l + 1) * MAXOPBLOCKS then mret false
  else set_log (fun l => {| l with outstanding := outstanding l + 1 |}) ;; mret true.

(** A process with nobody to wake it up waits for ever. *)
Definition begin_op : M lstate unit :=
  begin_op_try ≫= fun ok : bool => if ok then mret tt else diverge.

(** [end_op] up to the first release of the lock, which returns [do_commit] ... *)
Definition end_op_enter : M lstate bool :=
  set_log (fun l => {| l with outstanding := outstanding l - 1 |}) ;;
  l ← gets lg;
  if negb (committing l =? 0) then panic "log.committing"
  else if outstanding l =? 0 then set_log (fun l => {| l with committing := 1 |}) ;; mret true
  else mret false.
(** ... and after the commit. *)
Definition end_op_leave : M lstate unit := set_log (fun l => {| l with committing := 0 |}).
Definition end_op : M lstate unit :=
  do_commit ← end_op_enter;
  when do_commit (commit ;; end_op_leave).

(** Position of a block among the first [n] entries, or [n]. *)
Fixpoint find_block (b : Z) (bs : list Z) (i : Z) : Z :=
  match bs with
  | [] => i
  | c :: bs' => if c =? b then i else find_block b bs' (i + 1)
  end.
Definition log_write (b : Z) : M lstate unit :=
  l ← gets lg;
  if (LOGSIZE <=? lh_n l) || (log_size l - 1 <=? lh_n l) then panic "too big a transaction"
  else if outstanding l <? 1 then panic "log_write outside of trans"
  else
    let i := find_block b (take (Z.to_nat (lh_n l)) (lh_block l)) 0 in
    set_lh i b ;;
    when (i =? lh_n l) (set_log (fun l => {| l with lh_n := lh_n l + 1 |})) ;;
    on_store (bpin b).

(** ** Copying one block *)

Lemma wp_on_store {A} (m : M store A) Q s t l :
  s = mk_lstate t l -> wp m (fun a t' => Q a (mk_lstate t' l)) t -> wp (on_store m) Q s.
Proof. intros ->. unfold on_store. by rewrite wp_zoom. Qed.
Lemma wp_lh_at i b Q s : 0 <= i -> lh_block (lg s) !! Z.to_nat i = Some b -> wp (lh_at i) Q s <-> Q b s.
Proof. intros Hi Hb. unfold wp, lh_at. rewrite Hb. by destruct (Z.ltb_spec i 0); [lia|]. Qed.

(** One operation of the buffer cache on a state that has been taken apart. *)
Ltac on_st := rewrite wp_bind; eapply wp_on_store; [reflexivity|].

Lemma wp_write_log_one tail b d dk v pin w l (Q : unit -> lstate -> Prop) :
  let to := start l + tail + 1 in
  0 <= tail -> lh_block l !! Z.to_nat tail = Some b -> v !! b = Some d -> is_Some (dk !! b) -> is_Some (dk !! to) ->
  b ∈ pin -> to ∉ pin -> (size pin < NBUF)%nat ->
  Q tt (mk_lstate (mk_store (<[to := d]> dk) (<[to := d]> v) pin [] (w ++ [(to, d)])) l) ->
  wp (write_log_one tail) Q (mk_lstate (mk_store dk v pin [] w) l).
Proof.
  intros to Ht Hl Hv Hb Hto Hpin Hnp Hsz HQ. assert (to ≠ b) as Hne by congruence. unfold write_log_one.
  wp_step. wp_step. cbn [lg]. fold to.
  on_st. apply wp_bread; [apply not_elem_of_nil|apply room_free; cbn; lia|done|]. stc.
  rewrite wp_bind. apply (wp_lh_at _ b); [done..|].
  on_st. apply wp_bread; [cbn; set_solver|by apply room_pinned|done|]. stc.
  on_st. apply (wp_bdata _ d); [cbn; set_solver|done|].
  on_st. apply wp_set_bdata; [cbn; set_solver|]. stc.
  on_st. apply (wp_bwrite _ d); [cbn; set_solver|apply lookup_insert_eq|]. stc.
  on_st. apply wp_brelse; [cbn; set_solver|left; cbn; set_solver|]. stc. rewrite release_top by done.
  eapply wp_on_store; [reflexivity|]. apply wp_brelse; [cbn; set_solver|right; cbn; by rewrite !lookup_insert_eq|].
  stc. rewrite release_last. by rewrite difference_disjoint_L by set_solver.
Qed.

Lemma wp_install_one tail b d dk v pin w l (Q : unit -> lstate -> Prop) :
  let from := start l + tail + 1 in
  0 <= tail -> lh_block l !! Z.to_nat tail = Some b -> v !! from = Some d -> v !! from = dk !! from -> is_Some (dk !! b) ->
  from ∉ pin -> from ≠ b -> b ∈ pin \/ pin = ∅ -> (size pin < NBUF)%nat ->
  Q tt (mk_lstate (mk_store (<[b := d]> dk) (<[b := d]> v) (pin ∖ {[ b ]}) [] (w ++ [(b, d)])) l) ->
  wp (install_one tail) Q (mk_lstate (mk_store dk v pin [] w) l).
Proof.
  intros from Ht Hl Hv Hc Hb Hnp Hne Hpin Hsz HQ. unfold install_one.
  wp_step. wp_step. cbn [lg]. fold from.
  on_st. apply wp_bread; [apply not_elem_of_nil|apply room_free; cbn; lia|stc; by rewrite <- Hc, Hv|]. stc.
  rewrite wp_bind. apply (wp_lh_at _ b); [done..|].
  on_st. apply wp_bread; [cbn; set_solver| |done|].
  { destruct Hpin as [Hpin| ->]; [by apply room_pinned|]. apply room_free. stc. rewrite size_empty. cbn. unfold NBUF. lia. }
  stc. on_st. apply (wp_bdata _ d); [cbn; set_solver|done|].
  on_st. apply wp_set_bdata; [cbn; set_solver|]. stc.
  on_st. apply (wp_bwrite _ d); [cbn; set_solver|apply lookup_insert_eq|]. stc.
  on_st. apply wp_brelse; [cbn; set_solver|right; stc; by rewrite !lookup_insert_ne|]. stc. rewrite release_below by done.
  eapply wp_on_store; [reflexivity|]. apply wp_brelse; [cbn; set_solver|right; stc; by rewrite !lookup_insert_eq|].
  stc. by rewrite release_last.
Qed.

(** ** The header block *)

Definition header_n (d : list Z) : Z := s32 (get32 d 0).
Definition header_block (d : list Z) (i : Z) : Z := s32 (get32 d (4 + 4 * i)).

Lemma put_blocks_spec bs : forall d i,
  0 <= i -> is_block d -> i + Z.of_nat (length bs) <= LOGSIZE ->
  is_block (put_blocks d i bs) /\ get32 (put_blocks d i bs) 0 = get32 d 0 /\
  (forall j, 0 <= j < i -> get32 (put_blocks d i bs) (4 + 4 * j) = get32 d (4 + 4 * j)) /\
  (forall k b, bs !! k = Some b -> get32 (put_blocks d i bs) (4 + 4 * (i + Z.of_nat k)) = u32 b).
Proof.
  induction bs as [|b bs IH]; intros d i Hi Hd Hle; cbn [put_blocks]; [done|].
  cbn [length] in Hle. unfold LOGSIZE, MAXOPBLOCKS in *. destruct Hd as [Hl Hb]. change (Z.to_nat BSIZE) with 512%nat in Hl.
  assert (is_block (put32 d (4 + 4 * i) b)) as Hd1.
  { apply is_block_put; [done|apply is_bytes32|lia|]. change (Z.to_nat BSIZE) with 512%nat. cbn. lia. }
  destruct (IH (put32 d (4 + 4 * i) b) (i + 1)) as (H1 & H2 & H3 & H4); [lia|done|lia|]. split_and!.
  - done.
  - rewrite H2. apply get32_put32_ne; lia.
  - intros j Hj. rewrite H3 by lia. apply get32_put32_ne; lia.
  - intros [|k] c Hk; cbn in Hk.
    + injection Hk as ->. rewrite Z.add_0_r. rewrite H3 by lia. apply get32_put32; lia.
    + specialize (H4 k c Hk). by replace (i + Z.of_nat (S k)) with (i + 1 + Z.of_nat k) by lia.
Qed.

(** ** Whole loops *)

(** The writes of [write_log] from address [a] on, and of [install_trans]. *)
Fixpoint log_writes (a : Z) (vs : list (list Z)) : list (Z * list Z) :=
  match vs with
  | [] => []
  | d :: vs' => (a, d) :: log_writes (a + 1) vs'
  end.

Lemma seqZ_next k n : seqZ k (Z.of_nat (S n)) = k :: seqZ (k + 1) (Z.of_nat n).
Proof. rewrite seqZ_cons by lia. f_equal. f_equal; lia. Qed.

Lemma wp_write_log_loop l pin Q : forall bs vs k dk v w,
  0 <= k -> (forall i b, bs !! i = Some b -> lh_block l !! (Z.to_nat k + i)%nat = Some b) ->
  Forall2 (fun b d => b ∈ pin /\ is_Some (dk !! b) /\ v !! b = Some d) bs vs ->
  (forall i, k <= i < k + Z.of_nat (length bs) -> start l + i + 1 ∉ pin /\ is_Some (dk !! (start l + i + 1))) ->
  (size pin < NBUF)%nat ->
  let W := log_writes (start l + k + 1) vs in
  Q tt (mk_lstate (mk_store (apply_writes dk W) (apply_writes v W) pin [] (w ++ W)) l) ->
  wp (for_each (seqZ k (Z.of_nat (length bs))) write_log_one) Q (mk_lstate (mk_store dk v pin [] w) l).
Proof.
  induction bs as [|b bs IH]; intros vs k dk v w Hk Hl Hv Ha Hs W HQ.
  { apply Forall2_nil_inv_l in Hv as ->. cbn in *. by rewrite app_nil_r in HQ. }
  apply Forall2_cons_inv_l in Hv as (d & vs' & (Hbp & Hbd & Hd) & Hv & ->).
  cbn [length] in *. rewrite seqZ_next. cbn [for_each]. wp_step.
  destruct (Ha k) as [Hk1 Hk2]; [lia|]. pose proof (Hl O b eq_refl) as Hlb. rewrite Nat.add_0_r in Hlb.
  apply (wp_write_log_one k b d); try done. apply (IH vs').
  - lia.
  - intros i c Hi. specialize (Hl (S i) c Hi). by replace (Z.to_nat (k + 1) + i)%nat with (Z.to_nat k + S i)%nat by lia.
  - eapply Forall2_impl; [exact Hv|]. intros c e (H1 & H2 & H3). rewrite !lookup_insert_ne by set_solver. done.
  - intros i Hi. destruct (Ha i) as [H1 H2]; [lia|]. split; [done|]. rewrite lookup_insert_ne by lia. done.
  - done.
  - cbn [log_writes apply_writes] in W. subst W. rewrite <- app_assoc. cbn [app].
    by replace (start l + (k + 1) + 1) with (start l + k + 1 + 1) by lia.
Qed.

(** The log as mkfs lays it out: the header and [LOGSIZE] - 1 blocks. *)
Definition in_log (lstart b : Z) : Prop := lstart <= b < lstart + LOGSIZE.

Lemma wp_install_loop l Q : forall bs vs k dk v pin w,
  0 <= k -> k + Z.of_nat (length bs) < LOGSIZE ->
  (forall i b, bs !! i = Some b -> lh_block l !! (Z.to_nat k + i)%nat = Some b) ->
  Forall (fun b => ~ in_log (start l) b /\ is_Some (dk !! b)) bs -> length bs = length vs ->
  (forall i d, vs !! i = Some d -> v !! (start l + k + 1 + Z.of_nat i) = Some d /\ dk !! (start l + k + 1 + Z.of_nat i) = Some d) ->
  (forall b, b ∈ pin -> ~ in_log (start l) b) -> NoDup bs -> (Forall (.∈ pin) bs \/ pin = ∅) -> (size pin < NBUF)%nat ->
  let W := zip bs vs in
  Q tt (mk_lstate (mk_store (apply_writes dk W) (apply_writes v W) (pin ∖ list_to_set bs) [] (w ++ W)) l) ->
  wp (for_each (seqZ k (Z.of_nat (length bs))) install_one) Q (mk_lstate (mk_store dk v pin [] w) l).
Proof.
  induction bs as [|b bs IH]; intros vs k dk v pin w Hk Hkl Hl Hb Hlen Hv Hp Hnd Hpin Hs W HQ.
  { subst W. cbn in *. by rewrite app_nil_r, difference_empty_L in HQ. }
  destruct vs as [|d vs]; [done|]. cbn [length] in *. apply Forall_cons in Hb as [[Hb1 Hb2] Hb]. apply NoDup_cons in Hnd as [Hni Hnd].
  rewrite seqZ_next. cbn [for_each]. wp_step.
  pose proof (Hl O b eq_refl) as Hlb. rewrite Nat.add_0_r in Hlb. destruct (Hv O d eq_refl) as [Hv1 Hv2].
  change (Z.of_nat 0) with 0 in *. rewrite Z.add_0_r in Hv1, Hv2.
  apply (wp_install_one k b d); try done.
  { congruence. }
  { intros H%Hp. unfold in_log in H. lia. }
  { unfold in_log in Hb1. lia. }
  { destruct Hpin as [Hpin|?]; [left; by apply Forall_cons in Hpin as [? _]|by right]. }
  apply (IH vs); try done; try lia.
  - intros i c Hi. specialize (Hl (S i) c Hi). by replace (Z.to_nat (k + 1) + i)%nat with (Z.to_nat k + S i)%nat by lia.
  - eapply Forall_impl; [exact Hb|]. intros c [Hc1 Hc2]. split; [done|].
    destruct (decide (b = c)) as [<-|]; [rewrite lookup_insert_eq; eauto|by rewrite lookup_insert_ne].
  - intros i e Hi. specialize (Hv (S i) e Hi).
    replace (start l + (k + 1) + 1 + Z.of_nat i) with (start l + k + 1 + Z.of_nat (S i)) by lia.
    rewrite !lookup_insert_ne; [done|..]; apply lookup_lt_Some in Hi; unfold in_log in Hb1; lia.
  - intros c Hc. apply Hp. set_solver.
  - destruct Hpin as [Hpin| ->]; [left|right; set_solver]. apply Forall_cons in Hpin as [_ Hpin].
    rewrite Forall_forall in Hpin |- *. intros c Hc. specialize (Hpin c Hc). set_solver.
  - pose proof (subseteq_size (pin ∖ {[b]}) pin ltac:(set_solver)). lia.
  - subst W. cbn [zip zip_with apply_writes list_to_set] in HQ |- *. rewrite <- app_assoc. cbn [app].
    by rewrite difference_difference_l_L.
Qed.

Lemma wp_set_lh i x t l Q :
  0 <= i < LOGSIZE -> Q tt (mk_lstate t {| l with lh_block := <[Z.to_nat i := x]> (lh_block l) |}) ->
  wp (set_lh i x) Q (mk_lstate t l).
Proof.
  intros Hi HQ. unfold wp, set_lh. destruct (Z.leb_spec 0 i); [|lia]. by destruct (Z.ltb_spec i LOGSIZE); [|lia].
Qed.

(** The loop of [read_head]. *)
Lemma wp_read_blocks t Q (f : Z -> Z) : forall n k l,
  0 <= k -> k + Z.of_nat n <= LOGSIZE -> Z.of_nat (length (lh_block l)) = LOGSIZE ->
  (forall lb, length lb = length (lh_block l) -> (forall j, (j < Z.to_nat k)%nat -> lb !! j = lh_block l !! j) ->
     (forall i, k <= i < k + Z.of_nat n -> lb !! Z.to_nat i = Some (f i)) ->
     Q tt (mk_lstate t {| l with lh_block := lb |})) ->
  wp (for_each (seqZ k (Z.of_nat n)) (fun i => set_lh i (f i))) Q (mk_lstate t l).
Proof.
  induction n as [|n IH]; intros k l Hk Hle Hlen HQ.
  { cbn. specialize (HQ (lh_block l)). destruct l. apply HQ; [done|done|]. intros i Hi. lia. }
  rewrite seqZ_next. cbn [for_each]. wp_step. apply wp_set_lh; [lia|]. apply IH; [lia|lia|cbn; by rewrite length_insert|].
  cbn [lh_block]. rewrite length_insert. intros lb Hl Hlo Hhi. destruct l as [l1 l2 l3 l4 l5 l6]. cbn in *. apply HQ; [done|..].
  - intros j Hj. rewrite Hlo by lia. by rewrite list_lookup_insert_ne by lia.
  - intros i Hi. destruct (decide (i = k)) as [->|]; [|apply Hhi; lia]. rewrite Hlo by lia.
    apply list_lookup_insert_eq. lia.
Qed.

Lemma wp_read_head d dk v w l Q :
  v !! start l = Some d -> v !! start l = dk !! start l -> 0 <= header_n d <= LOGSIZE ->
  Z.of_nat (length (lh_block l)) = LOGSIZE ->
  (forall lb, length lb = length (lh_block l) -> (forall i, 0 <= i < header_n d -> lb !! Z.to_nat i = Some (header_block d i)) ->
     Q tt (mk_lstate (mk_store dk v ∅ [] w) {| l with lh_n := header_n d; lh_block := lb |})) ->
  wp read_head Q (mk_lstate (mk_store dk v ∅ [] w) l).
Proof.
  intros Hd Hc Hn Hlen HQ. unfold read_head. wp_step. wp_step. cbn [lg].
  on_st. apply wp_bread; [apply not_elem_of_nil|apply room_free; stc; rewrite size_empty; cbn; unfold NBUF; lia|stc; by rewrite <- Hc, Hd|].
  stc. on_st. apply (wp_bdata _ d); [cbn; set_solver|done|]. fold (header_n d). wp_step. unfold set_log. wp_step. cbn.
  wp_step. replace (header_n d) with (Z.of_nat (Z.to_nat (header_n d))) at 1 by lia.
  apply (wp_read_blocks _ _ (header_block d)); [lia|lia|done|]. intros lb Hl _ Hi. cbn [lh_block] in *.
  eapply wp_on_store; [reflexivity|]. apply wp_brelse; [cbn; set_solver|by right|]. stc. rewrite release_last. apply HQ; [done|].
  intros i Hi'. apply Hi. lia.
Qed.

(** What [write_head] puts into the header block. *)
Definition new_head (d : list Z) (bs : list Z) : list Z := put_blocks (put32 d 0 (Z.of_nat (length bs))) 0 bs.

Lemma wp_write_head d dk v pin w l bs Q :
  v !! start l = Some d -> is_Some (dk !! start l) -> start l ∉ pin -> (size pin < NBUF)%nat ->
  lh_n l = Z.of_nat (length bs) -> take (length bs) (lh_block l) = bs ->
  let h := new_head d bs in
  Q tt (mk_lstate (mk_store (<[start l := h]> dk) (<[start l := h]> v) pin [] (w ++ [(start l, h)])) l) ->
  wp write_head Q (mk_lstate (mk_store dk v pin [] w) l).
Proof.
  intros Hd Hk Hp Hs Hn Hb h HQ. assert (length bs <= length (lh_block l))%nat by (rewrite <- Hb at 1; rewrite length_take; lia).
  unfold write_head. wp_step. wp_step. cbn [lg].
  on_st. apply wp_bread; [apply not_elem_of_nil|apply room_free; stc; cbn; lia|done|].
  stc. on_st. apply (wp_bdata _ d); [cbn; set_solver|done|]. rewrite Hn, Nat2Z.id, Hb.
  destruct (Z.ltb_spec (Z.of_nat (length (lh_block l))) (Z.of_nat (length bs))); [lia|]. wp_step. wp_step. fold h.
  on_st. apply wp_set_bdata; [cbn; set_solver|]. stc.
  on_st. apply (wp_bwrite _ h); [cbn; set_solver|apply lookup_insert_eq|]. stc.
  eapply wp_on_store; [reflexivity|]. apply wp_brelse; [cbn; set_solver|right; stc; by rewrite !lookup_insert_eq|].
  stc. rewrite release_last. by rewrite difference_disjoint_L by set_solver.
Qed.

Lemma new_head_spec d bs :
  is_block d -> Z.of_nat (length bs) <= LOGSIZE -> Forall (fun b => 0 <= b < 2147483648) bs ->
  is_block (new_head d bs) /\ header_n (new_head d bs) = Z.of_nat (length bs) /\
  (forall i b, bs !! i = Some b -> header_block (new_head d bs) (Z.of_nat i) = b).
Proof.
  intros Hd Hn Hb. assert (length d = 512%nat) as Hl by apply Hd. unfold LOGSIZE, MAXOPBLOCKS in *.
  assert (is_block (put32 d 0 (Z.of_nat (length bs)))) as Hd1.
  { apply is_block_put; [done|apply is_bytes32|lia|]. change (Z.to_nat BSIZE) with 512%nat. cbn. lia. }
  destruct (put_blocks_spec bs (put32 d 0 (Z.of_nat (length bs))) 0) as (H1 & H2 & _ & H4); [lia|done|unfold LOGSIZE, MAXOPBLOCKS; lia|].
  fold (new_head d bs) in H1, H2, H4. split_and!; [done|..].
  - unfold header_n. rewrite H2, get32_put32 by lia. rewrite u32_small by (unfold W32; lia). apply s32_small. lia.
  - intros i b Hi. unfold header_block. specialize (H4 i b Hi). rewrite Z.add_0_l in H4. rewrite H4.
    pose proof (Forall_lookup_1 _ _ _ _ Hb Hi) as Hr. cbn in Hr. rewrite u32_small by (unfold W32; lia). by apply s32_small.
Qed.

(** ** Recovery *)

(** The state in which recovery starts on a disk. *)
Definition boot (l0 : log) (d : gmap Z (list Z)) : lstate := mk_lstate (mk_store d d ∅ [] []) l0.

(** A disk whose log holds a committed transaction: the blocks [bs] are to get
    the contents [vs]. An empty log is a committed transaction of no blocks. *)
Record committed (lstart : Z) (d : gmap Z (list Z)) (bs : list Z) (vs : list (list Z)) : Prop := {
  cm_head : exists h, d !! lstart = Some h /\ is_block h /\ header_n h = Z.of_nat (length bs) /\
              forall i b, bs !! i = Some b -> header_block h (Z.of_nat i) = b;
  cm_log : forall i x, vs !! i = Some x -> d !! (lstart + 1 + Z.of_nat i) = Some x;
  cm_len : length bs = length vs;
  cm_max : Z.of_nat (length bs) < LOGSIZE;
  cm_nodup : NoDup bs;
  cm_home : Forall (fun b => ~ in_log lstart b /\ is_Some (d !! b)) bs
}.

(** Equal outside of the log. *)
Definition same_data (lstart : Z) (d e : gmap Z (list Z)) : Prop := forall b, ~ in_log lstart b -> d !! b = e !! b.
#[export] Instance same_data_equiv lstart : Equivalence (same_data lstart).
Proof.
  split; [done|intros d e H b Hb; by rewrite H|intros d e f H1 H2 b Hb; by rewrite H1, H2].
Qed.
Lemma same_data_insert lstart d e b x : same_data lstart d e -> same_data lstart (<[b := x]> d) (<[b := x]> e).
Proof. intros H c Hc. destruct (decide (b = c)) as [<-|]; [by rewrite !lookup_insert_eq|rewrite !lookup_insert_ne by done; auto]. Qed.
Lemma same_data_log lstart d b x : in_log lstart b -> same_data lstart (<[b := x]> d) d.
Proof. intros Hb c Hc. rewrite lookup_insert_ne; [done|congruence]. Qed.
#[export] Instance apply_writes_proper lstart : Proper (same_data lstart ==> (=) ==> same_data lstart) apply_writes.
Proof.
  intros d e H ws _ <-. revert d e H. induction ws as [|[b x] ws IH]; intros d e H; [done|]. cbn. by apply IH, same_data_insert.
Qed.

Lemma zip_fst_in {A B} (bs : list A) (vs : list B) b : b ∈ (zip bs vs).*1 -> b ∈ bs.
Proof.
  revert vs. induction bs as [|c bs IH]; intros [|v vs]; cbn; try (intros []%elem_of_nil).
  rewrite !elem_of_cons. naive_solver.
Qed.

Lemma take_fst_in {B} (ws : list (Z * B)) k b : b ∈ (take k ws).*1 -> b ∈ ws.*1.
Proof. rewrite fmap_take. intros (i & Hin & _)%elem_of_take. by eapply list_elem_of_lookup_2. Qed.

Lemma committed_install lstart d bs vs k :
  committed lstart d bs vs -> committed lstart (apply_writes d (take k (zip bs vs))) bs vs.
Proof.
  intros [(h & Hh & H1 & H2 & H3) Hl Hlen Hm Hn Hb].
  assert (forall b, in_log lstart b -> apply_writes d (take k (zip bs vs)) !! b = d !! b) as Hlog.
  { intros b Hb'. apply apply_writes_other. intros Hin%take_fst_in%zip_fst_in. rewrite Forall_forall in Hb. by destruct (Hb b Hin). }
  split; try done.
  - exists h. split; [|done]. rewrite Hlog; [done|]. unfold in_log, LOGSIZE, MAXOPBLOCKS. lia.
  - intros i x Hi. rewrite Hlog; [by apply Hl|]. apply lookup_lt_Some in Hi. unfold in_log. lia.
  - eapply Forall_impl; [exact Hb|]. intros b [Hb1 Hb2]. split; [done|]. clear -Hb2.
    revert d Hb2. induction (take k (zip bs vs)) as [|[c x] ws IH]; intros d Hb2; [done|]. cbn. apply IH.
    destruct (decide (c = b)) as [<-|]; [rewrite lookup_insert_eq; eauto|by rewrite lookup_insert_ne].
Qed.

Definition log_array_ok (l : log) : Prop := Z.of_nat (length (lh_block l)) = LOGSIZE.

(** Recovery copies the transaction to its place and clears the log. *)
Lemma wp_recover l0 d bs vs :
  log_array_ok l0 -> committed (start l0) d bs vs ->
  wp recover_from_log (fun _ s' => exists h, is_block h /\ header_n h = 0 /\
    written (st s') = zip bs vs ++ [(start l0, h)] /\ disk (st s') = apply_writes d (written (st s')) /\
    vw (st s') = disk (st s') /\ pinned (st s') = ∅ /\ bheld (st s') = [] /\
    start (lg s') = start l0 /\ log_array_ok (lg s') /\ lh_n (lg s') = 0 /\ log_size (lg s') = log_size l0 /\
    outstanding (lg s') = outstanding l0 /\ committing (lg s') = committing l0) (boot l0 d).
Proof.
  intros Hl Hcm. pose proof Hcm as [(h & Hh & H1 & H2 & H3) Hlog Hlen Hm Hn Hb]. unfold recover_from_log, boot. wp_step.
  apply (wp_read_head h); [done|done|lia|done|]. intros lb Hlb Hlbi. wp_step. unfold install_trans. wp_step. wp_step. cbn [lg lh_n].
  rewrite H2. eapply (wp_install_loop _ _ bs vs 0 d d ∅); cbn [lh_block start]; try done.
  - intros i b Hi. change (Z.to_nat 0 + i)%nat with i. specialize (Hlbi (Z.of_nat i)). rewrite Nat2Z.id in Hlbi. rewrite Hlbi.
    + f_equal. by apply H3.
    + apply lookup_lt_Some in Hi. lia.
  - intros i x Hi. split; (replace (start l0 + 0 + 1 + Z.of_nat i) with (start l0 + 1 + Z.of_nat i) by lia; by apply Hlog).
  - by right.
  - rewrite size_empty. unfold NBUF. lia.
  - assert (apply_writes d (zip bs vs) !! start l0 = Some h) as Hst.
    { rewrite apply_writes_other; [done|]. intros Hin%zip_fst_in. rewrite Forall_forall in Hb. destruct (Hb _ Hin) as [[] _].
      unfold in_log, LOGSIZE, MAXOPBLOCKS. lia. }
    wp_step. unfold set_log. wp_step. cbn [st lg lh_block start]. rewrite (difference_disjoint_L ∅) by set_solver.
    apply (wp_write_head h _ _ _ _ _ []); cbn [start lh_n lh_block];
      [done|by rewrite Hst|set_solver|rewrite size_empty; unfold NBUF; lia|done|done|].
    destruct (new_head_spec h []) as (N1 & N2 & _); [done|unfold LOGSIZE, MAXOPBLOCKS; cbn; lia|constructor|].
    exists (new_head h []). cbn. unfold log_array_ok. cbn. rewrite Hlb, apply_writes_app. done.
Qed.

(** Booting from a disk: recoveries that are cut off after some of their
    writes, and one that completes. *)
Inductive recovery (l0 : log) : gmap Z (list Z) -> gmap Z (list Z) -> Prop :=
| rec_complete d s' : recover_from_log (boot l0 d) = Ok tt s' -> recovery l0 d (disk (st s'))
| rec_crash d s' k e :
    recover_from_log (boot l0 d) = Ok tt s' ->
    recovery l0 (apply_writes d (take k (written (st s')))) e -> recovery l0 d e.

Lemma committed_nil lstart d h :
  d !! lstart = Some h -> is_block h -> header_n h = 0 -> committed lstart d [] [].
Proof.
  intros H1 H2 H3. split; try done.
  - exists h. split_and!; try done.
  - constructor.
Qed.
Lemma apply_writes_twice lstart d ws k :
  NoDup ws.*1 -> same_data lstart (apply_writes (apply_writes d (take k ws)) ws) (apply_writes d ws).
Proof.
  intros Hnd b Hb. destruct (decide (b ∈ ws.*1)) as [Hin|Hin].
  - apply list_elem_of_fmap in Hin as ([c x] & -> & Hin). by rewrite !(apply_writes_in _ ws _ x) by done.
  - rewrite !(apply_writes_other _ ws) by done. apply apply_writes_other. intros H%take_fst_in. by apply Hin.
Qed.
Lemma committed_writes_nodup lstart d bs vs : committed lstart d bs vs -> NoDup (zip bs vs).*1.
Proof. intros H. rewrite fst_zip by (rewrite (cm_len _ _ _ _ H); lia). apply H. Qed.

(** However often recovery is interrupted, it installs the transaction. *)
Lemma recovery_committed l0 d e : recovery l0 d e -> forall bs vs,
  log_array_ok l0 -> committed (start l0) d bs vs -> same_data (start l0) e (apply_writes d (zip bs vs)).
Proof.
  induction 1 as [d s' Hr|d s' k e Hr _ IH]; intros bs vs Hl Hc;
    pose proof (wp_recover l0 d bs vs Hl Hc) as Hw; unfold wp in Hw; rewrite Hr in Hw;
    destruct Hw as (h & Hh & Hn & Hws & Hd & _).
  - rewrite Hd, Hws, apply_writes_app. cbn. apply same_data_log. unfold in_log, LOGSIZE, MAXOPBLOCKS. lia.
  - rewrite Hws in IH. destruct (decide (k <= length (zip bs vs))%nat) as [Hk|Hk].
    + rewrite take_app_le in IH by done. rewrite (IH bs vs Hl) by (by apply committed_install).
      apply apply_writes_twice. by eapply committed_writes_nodup.
    + rewrite take_app_ge, apply_writes_app in IH by lia.
      destruct (k - length (zip bs vs))%nat as [|j] eqn:Ek; [lia|]. cbn [take firstn apply_writes] in IH. rewrite take_nil in IH.
      rewrite (IH [] [] Hl).
      * cbn. apply same_data_log. unfold in_log, LOGSIZE, MAXOPBLOCKS. lia.
      * eapply committed_nil; [apply lookup_insert_eq|done|done].
Qed.

(** ** Commit *)

(** A transaction that waits for its commit. *)
Record pending (s : lstate) (bs : list Z) (vs : list (list Z)) : Prop := {
  pd_store : store_ok (st s);
  pd_free : bheld (st s) = [];
  pd_n : lh_n (lg s) = Z.of_nat (length bs);
  pd_blocks : take (length bs) (lh_block (lg s)) = bs;
  pd_array : log_array_ok (lg s);
  pd_pinned : pinned (st s) = list_to_set bs;
  pd_nodup : NoDup bs;
  pd_vs : Forall2 (fun b d => vw (st s) !! b = Some d) bs vs;
  pd_home : Forall (fun b => ~ in_log (start (lg s)) b /\ 0 <= b < 2147483648) bs;
  pd_log : forall b, in_log (start (lg s)) b -> is_Some (disk (st s) !! b);
  pd_max : (length bs < NBUF)%nat;
  pd_head : exists h, disk (st s) !! start (lg s) = Some h /\ header_n h = 0
}.

(** The writes of a commit: the log, the header, the home locations, the
    cleared header. *)
Definition commit_writes (lstart : Z) (h1 h2 : list Z) (bs : list Z) (vs : list (list Z)) : list (Z * list Z) :=
  log_writes (lstart + 1) vs ++ [(lstart, h1)] ++ zip bs vs ++ [(lstart, h2)].

Lemma log_writes_in a vs b x : (b, x) ∈ log_writes a vs <-> exists i, vs !! i = Some x /\ b = a + Z.of_nat i.
Proof.
  revert a. induction vs as [|v vs IH]; intros a; cbn.
  - split; [intros []%elem_of_nil|intros (i & Hi & _)]. done.
  - rewrite elem_of_cons, IH. split.
    + intros [[= -> ->]|(i & Hi & ->)]; [exists O; split; [done|lia]|exists (S i); split; [done|lia]].
    + intros ([|i] & Hi & ->); [left; injection Hi as ->; f_equal; lia|right; exists i; split; [done|lia]].
Qed.
Lemma log_writes_fst a vs : (log_writes a vs).*1 = seqZ a (Z.of_nat (length vs)).
Proof.
  revert a. induction vs as [|v vs IH]; intros a; [done|]. cbn [log_writes length]. rewrite seqZ_next. cbn. by rewrite IH.
Qed.
Lemma log_writes_in_log lstart vs b :
  Z.of_nat (length vs) < LOGSIZE -> b ∈ (log_writes (lstart + 1) vs).*1 -> in_log lstart b /\ b ≠ lstart.
Proof. intros Hl. rewrite log_writes_fst, elem_of_seqZ. unfold in_log. lia. Qed.
Lemma same_data_writes lstart d ws : (forall b, b ∈ ws.*1 -> in_log lstart b) -> same_data lstart (apply_writes d ws) d.
Proof. intros H b Hb. apply apply_writes_other. intros Hin. by apply Hb, H. Qed.

Lemma pending_facts s bs vs :
  pending s bs vs ->
  length bs = length vs /\ Z.of_nat (length bs) < LOGSIZE /\ in_log (start (lg s)) (start (lg s)) /\
  (forall b, in_log (start (lg s)) b -> b ∉ (list_to_set bs : gset Z)) /\ (size (list_to_set bs : gset Z) < NBUF)%nat /\
  (forall i b, bs !! i = Some b -> lh_block (lg s) !! i = Some b) /\
  Forall2 (fun b d => b ∈ (list_to_set bs : gset Z) /\ is_Some (disk (st s) !! b) /\ vw (st s) !! b = Some d) bs vs /\
  (forall b, in_log (start (lg s)) b -> vw (st s) !! b = disk (st s) !! b) /\
  Forall (fun b => ~ in_log (start (lg s)) b /\ is_Some (disk (st s) !! b)) bs.
Proof.
  intros [Hst Hfr Hn Hbl Har Hpin Hnd Hvs Hh Hlg Hmax _].
  assert (forall b, in_log (start (lg s)) b -> b ∉ bs) as Hnp.
  { intros b Hb Hin. rewrite Forall_forall in Hh. by destruct (Hh b Hin). }
  split_and!.
  - by eapply Forall2_length.
  - unfold LOGSIZE, MAXOPBLOCKS, NBUF in *; lia.
  - unfold in_log, LOGSIZE, MAXOPBLOCKS; lia.
  - intros b Hb Hin%elem_of_list_to_set. by eapply Hnp.
  - by rewrite size_list_to_set.
  - intros i b Hi. rewrite <- Hbl in Hi. by apply lookup_take_Some in Hi as [Hi _].
  - apply Forall2_same_length_lookup_2; [by eapply Forall2_length|]. intros i b d Hi Hd.
    pose proof (Forall2_lookup_lr _ _ _ i b d Hvs Hi Hd) as Hv. cbn in Hv. split_and!; [|apply (so_dom _ Hst); eauto|done].
    apply elem_of_list_to_set. by eapply list_elem_of_lookup_2.
  - intros b Hb. apply (so_clean _ Hst); [rewrite Hpin, elem_of_list_to_set; auto|rewrite Hfr; apply not_elem_of_nil].
  - apply Forall_lookup_2. intros i b Hi. split; [by apply (Forall_lookup_1 _ _ _ _ Hh Hi)|]. apply (so_dom _ Hst).
    destruct (Forall2_lookup_l _ _ _ _ _ Hvs Hi) as (d & _ & Hd). eauto.
Qed.

Lemma wp_commit s bs vs :
  pending s bs vs -> bs ≠ [] ->
  wp commit (fun _ s' => exists h1 h2,
    is_block h1 /\ header_n h1 = Z.of_nat (length bs) /\ (forall i b, bs !! i = Some b -> header_block h1 (Z.of_nat i) = b) /\
    is_block h2 /\ header_n h2 = 0 /\
    let W := commit_writes (start (lg s)) h1 h2 bs vs in
    s' = mk_lstate (mk_store (apply_writes (disk (st s)) W) (apply_writes (vw (st s)) W) ∅ [] (written (st s) ++ W))
           {| (lg s) with lh_n := 0 |}) s.
Proof.
  intros Hp Hne. destruct (pending_facts s bs vs Hp) as (Hlen & HL & Hself & Hnp & Hsz & Hat & Hv & Hclean & Hhome).
  destruct Hp as [Hst Hfr Hn Hbl Har Hpin Hnd Hvs Hh Hlg Hmax (h & Hhd & Hh0)].
  destruct s as [[dk v pin hl w] l]. cbn [st lg disk vw pinned bheld written] in *. subst pin hl.
  destruct (new_head_spec h bs) as (N1 & N2 & N3); [by apply (so_disk _ Hst) in Hhd|lia|by eapply Forall_impl; [exact Hh|naive_solver]|].
  destruct (new_head_spec (new_head h bs) []) as (M1 & M2 & _); [done|cbn; lia|constructor|].
  unfold commit. wp_step. wp_step. cbn [lg]. rewrite wp_when, Hn.
  destruct (Z.ltb_spec 0 (Z.of_nat (length bs))) as [_|Hz]; [|destruct bs; [done|cbn in Hz; lia]].
  wp_step. unfold write_log. wp_step. wp_step. cbn [lg]. rewrite Hn.
  apply (wp_write_log_loop l _ _ bs vs 0); [lia|done|done| |done|].
  { intros i Hi. split; [apply Hnp|apply Hlg]; unfold in_log; lia. }
  rewrite Z.add_0_r. set (W1 := log_writes (start l + 1) vs).
  assert (start l ∉ W1.*1) as Hs1 by (intros Hin%log_writes_in_log; [naive_solver|lia]).
  wp_step. apply (wp_write_head h _ _ _ _ _ bs); try done.
  { rewrite apply_writes_other by done. by rewrite Hclean. }
  { rewrite apply_writes_other by done. eauto. }
  { by apply Hnp. }
  wp_step. unfold install_trans. wp_step. wp_step. cbn [lg]. rewrite Hn.
  set (h1 := new_head h bs). set (dk1 := <[start l := h1]> (apply_writes dk W1)). set (v1 := <[start l := h1]> (apply_writes v W1)).
  assert (start l ∉ (zip bs vs).*1) as Hs3 by (intros Hin%zip_fst_in; by apply (Hnp _ Hself), elem_of_list_to_set).
  assert (NoDup W1.*1) as HndW by (subst W1; rewrite log_writes_fst; apply NoDup_seqZ).
  apply (wp_install_loop l _ bs vs 0); try done.
  { eapply Forall_impl; [exact Hhome|]. intros b [Hb1 Hb2]. split; [done|]. subst dk1. rewrite lookup_insert_ne by congruence.
    rewrite apply_writes_other; [done|]. intros Hin%log_writes_in_log; [naive_solver|lia]. }
  { intros i x Hi. replace (start l + 0 + 1 + Z.of_nat i) with (start l + 1 + Z.of_nat i) by lia.
    subst dk1 v1. rewrite !lookup_insert_ne by lia. rewrite !(apply_writes_in _ W1 _ x); [done|..]; try done; apply log_writes_in; eauto. }
  { intros b Hb Hin. by apply (Hnp b Hin). }
  { left. apply Forall_forall. intros b Hb. by apply elem_of_list_to_set. }
  wp_step. unfold set_log. wp_step. cbn [st lg]. rewrite difference_diag_L.
  apply (wp_write_head h1 _ _ _ _ _ []); cbn [start lh_n lh_block]; try done.
  { rewrite apply_writes_other by done. apply lookup_insert_eq. }
  { rewrite apply_writes_other by done. subst dk1. rewrite lookup_insert_eq. eauto. }
  { rewrite size_empty. unfold NBUF. lia. }
  exists h1, (new_head h1 []). split_and!; try done. unfold commit_writes. fold W1.
  rewrite !apply_writes_app. cbn [apply_writes]. rewrite <- !app_assoc. done.
Qed.

(** The disk after a prefix of the writes of a commit holds either an empty
    log over the old data, or the whole transaction in the log, or an empty
    log over the new data. *)
Lemma commit_prefix s bs vs h1 h2 k :
  pending s bs vs ->
  is_block h1 -> header_n h1 = Z.of_nat (length bs) -> (forall i b, bs !! i = Some b -> header_block h1 (Z.of_nat i) = b) ->
  is_block h2 -> header_n h2 = 0 ->
  let lstart := start (lg s) in
  let d := disk (st s) in
  let dk := apply_writes d (take k (commit_writes lstart h1 h2 bs vs)) in
  let new := apply_writes d (zip bs vs) in
  (committed lstart dk [] [] /\ same_data lstart dk d) \/
  (committed lstart dk bs vs /\ same_data lstart (apply_writes dk (zip bs vs)) new) \/
  (committed lstart dk [] [] /\ same_data lstart dk new).
Proof.
  intros Hp B1 N1 N2 B2 M2 lstart d dk new.
  destruct (pending_facts s bs vs Hp) as (Hlen & HL & Hself & Hnp & _ & _ & _ & _ & Hhome).
  destruct Hp as [Hst _ _ _ _ _ Hnd _ _ _ _ (h & Hhd & Hh0)]. fold lstart d in Hself, Hnp, Hhd, Hhome.
  pose proof (so_disk _ Hst _ _ Hhd) as Bh.
  set (W1 := log_writes (lstart + 1) vs) in *.
  assert (forall b, b ∈ W1.*1 -> in_log lstart b /\ b ≠ lstart) as HW1 by (intros b Hb; apply log_writes_in_log in Hb; [done|lia]).
  assert (same_data lstart (apply_writes d W1) d) as Hsd by (apply same_data_writes; intros b Hb%HW1; tauto).
  assert (committed lstart (<[lstart := h1]> (apply_writes d W1)) bs vs) as Hcm.
  { split; try done.
    - exists h1. rewrite lookup_insert_eq. done.
    - intros i x Hi. rewrite lookup_insert_ne by lia. apply apply_writes_in; [apply log_writes_in; eauto|].
      subst W1. rewrite log_writes_fst. apply NoDup_seqZ.
    - eapply Forall_impl; [exact Hhome|]. intros b [Hb1 Hb2]. split; [done|]. rewrite lookup_insert_ne by congruence.
      rewrite apply_writes_other; [done|]. intros Hin%HW1. tauto. }
  unfold commit_writes in dk. fold W1 in dk. destruct (decide (k <= length W1)%nat) as [Hk|Hk].
  { left. subst dk. rewrite take_app_le by done. split.
    - eapply (committed_nil _ _ h); [|done|done]. rewrite apply_writes_other; [done|].
      by intros [_ ?]%take_fst_in%HW1.
    - apply same_data_writes. intros b Hin%take_fst_in%HW1. tauto. }
  right. subst dk. rewrite take_app_ge by lia. destruct (k - length W1)%nat as [|j] eqn:Ej; [lia|]. clear Ej Hk.
  cbn [app take]. rewrite apply_writes_app. cbn [apply_writes]. destruct (decide (j <= length (zip bs vs))%nat) as [Hj|Hj].
  - left. rewrite take_app_le by done. split; [by apply committed_install|].
    rewrite (apply_writes_twice lstart) by (by eapply committed_writes_nodup). subst new. rewrite (same_data_log lstart) by done. by rewrite Hsd.
  - right. rewrite take_app_ge by lia. destruct (j - length (zip bs vs))%nat as [|i] eqn:Ei; [lia|]. cbn [take].
    rewrite take_nil, apply_writes_app. cbn [apply_writes]. split; [eapply committed_nil; [apply lookup_insert_eq|done|done]|].
    rewrite (same_data_log lstart) by done. subst new. rewrite (same_data_log lstart) by done. by rewrite Hsd.
Qed.

(** The log at boot, after [initlog] has read the superblock. *)
Definition boot_log (lstart size : Z) : log := {| log_zero with start := lstart; log_size := size |}.

Lemma boot_log_ok lstart size : log_array_ok (boot_log lstart size).
Proof. done. Qed.
Lemma recovery_exists l0 d bs vs : log_array_ok l0 -> committed (start l0) d bs vs -> exists e, recovery l0 d e.
Proof.
  intros Hl Hc. pose proof (wp_recover l0 d bs vs Hl Hc) as Hw. apply wp_Ok in Hw as ([] & s' & Hr & _).
  exists (disk (st s')). by apply rec_complete.
Qed.
(** The new data is what the cache presents. *)
Lemma pending_new s bs vs b :
  pending s bs vs -> ~ in_log (start (lg s)) b -> apply_writes (disk (st s)) (zip bs vs) !! b = vw (st s) !! b.
Proof.
  intros Hp Hb. destruct (pending_facts s bs vs Hp) as (Hlen & _ & _ & _ & _ & _ & Hv & _).
  destruct Hp as [Hst Hfr _ _ _ Hpin Hnd Hvs _ _ _ _]. destruct (decide (b ∈ bs)) as [Hin|Hin].
  - apply list_elem_of_lookup in Hin as [i Hi]. destruct (Forall2_lookup_l _ _ _ _ _ Hvs Hi) as (d & Hd & Hvd). rewrite Hvd.
    apply apply_writes_in; [|rewrite fst_zip by lia; done]. apply list_elem_of_lookup. exists i. by apply lookup_zip_with_Some; eauto.
  - rewrite apply_writes_other by (by intros ?%zip_fst_in). symmetry. apply (so_clean _ Hst).
    + by rewrite Hpin, elem_of_list_to_set.
    + rewrite Hfr. apply not_elem_of_nil.
Qed.
Lemma commit_writes_data s bs vs h1 h2 :
  pending s bs vs ->
  same_data (start (lg s)) (apply_writes (disk (st s)) (commit_writes (start (lg s)) h1 h2 bs vs)) (apply_writes (disk (st s)) (zip bs vs)).
Proof.
  intros Hp. destruct (pending_facts s bs vs Hp) as (Hlen & HL & Hself & _). unfold commit_writes. rewrite !apply_writes_app. cbn [apply_writes].
  rewrite (same_data_log (start (lg s))) by done. rewrite (same_data_log (start (lg s))) by done.
  rewrite (same_data_writes (start (lg s)) _ (log_writes _ _)); [done|]. intros b Hb%log_writes_in_log; [tauto|lia].
Qed.

(** C3. A commit is atomic. It completes with the data of the whole transaction
    on the disk; and if the machine stops after any number of its writes to the
    disk, then booting again, however often recovery itself is interrupted,
    leaves either all of the transaction or nothing of it on the disk, and a
    recovery that is not interrupted completes. *)
Theorem commit_crash_atomic s bs vs :
  pending s bs vs ->
  wp commit (fun _ s' => exists ws, written (st s') = written (st s) ++ ws /\
    let lstart := start (lg s) in
    (forall b, ~ in_log lstart b -> disk (st s') !! b = vw (st s) !! b) /\
    pinned (st s') = ∅ /\ lh_n (lg s') = 0 /\
    forall k size,
      let d := apply_writes (disk (st s)) (take k ws) in
      (exists e, recovery (boot_log lstart size) d e) /\
      forall e, recovery (boot_log lstart size) d e ->
        same_data lstart e (disk (st s)) \/ same_data lstart e (disk (st s'))) s.
Proof.
  intros Hp. destruct (decide (bs = [])) as [->|Hne].
  - assert (vs = []) as -> by (pose proof (pd_vs _ _ _ Hp) as H; by apply Forall2_nil_inv_l in H).
    pose proof (fun b => pending_new s [] [] b Hp) as Hnew. destruct Hp as [Hst Hfr Hn _ _ Hpin _ _ _ _ _ (h & Hh & H0)].
    unfold commit. wp_step. wp_step. rewrite Hn. cbn. exists []. rewrite app_nil_r. split; [done|]. split; [intros b Hb; by apply Hnew|].
    split; [done|]. split; [done|]. intros k size. rewrite take_nil. cbn [apply_writes].
    assert (committed (start (lg s)) (disk (st s)) [] []) as Hc by (eapply committed_nil; [done|by apply (so_disk _ Hst) in Hh|done]).
    split; [by eapply recovery_exists|]. intros e He. left. by rewrite (recovery_committed _ _ _ He [] []).
  - eapply wp_mono; [by apply (wp_commit s bs vs Hp)|]. intros _ s' (h1 & h2 & B1 & N1 & N2 & B2 & M2 & ->).
    cbn [st lg disk written pinned lh_n]. eexists. split; [done|]. pose proof (commit_writes_data s bs vs h1 h2 Hp) as Hsd.
    split; [intros b Hb; rewrite (Hsd b Hb); by apply pending_new|]. split; [done|]. split; [done|]. intros k size.
    destruct (commit_prefix s bs vs h1 h2 k Hp B1 N1 N2 B2 M2) as [[Hc Hd]|[[Hc Hd]|[Hc Hd]]];
      (split; [by eapply recovery_exists|]); intros e He; pose proof (recovery_committed _ _ _ He _ _ (boot_log_ok _ _) Hc) as Hr;
      cbn [start boot_log zip zip_with apply_writes] in Hr; [left|right|right]; rewrite Hr, Hd; [done| |]; by symmetry.
Qed.

(** ** Operations that share a transaction *)

(** How file-system code changes a block. *)
Definition update (b : Z) (d : list Z) : M lstate unit :=
  bp ← on_store (bread b);
  on_store (set_bdata bp d) ;;
  log_write bp ;;
  on_store (brelse bp).

Lemma find_block_in b bs k : b ∈ bs -> exists i, bs !! i = Some b /\ find_block b bs k = k + Z.of_nat i.
Proof.
  revert k. induction bs as [|c bs IH]; intros k Hin; [by apply elem_of_nil in Hin|]. cbn.
  destruct (Z.eqb_spec c b) as [->|Hne]; [exists O; split; [done|lia]|].
  apply elem_of_cons in Hin as [->|Hin]; [done|]. destruct (IH (k + 1) Hin) as (i & Hi & ->). exists (S i). split; [done|lia].
Qed.
Lemma find_block_notin b bs k : b ∉ bs -> find_block b bs k = k + Z.of_nat (length bs).
Proof.
  revert k. induction bs as [|c bs IH]; intros k Hin; cbn; [lia|]. apply not_elem_of_cons in Hin as [Hne Hin].
  destruct (Z.eqb_spec c b); [congruence|]. rewrite IH by done. lia.
Qed.

(** [log_write] adds the block to the transaction, once. *)
Definition logged (b : Z) (bs : list Z) : list Z := if decide (b ∈ bs) then bs else bs ++ [b].
Lemma wp_log_write b bs dk v pin hl w l Q :
  lh_n l = Z.of_nat (length bs) -> take (length bs) (lh_block l) = bs -> log_array_ok l ->
  lh_n l < LOGSIZE -> lh_n l < log_size l - 1 -> 1 <= outstanding l ->
  (forall lb, take (length (logged b bs)) lb = logged b bs -> length lb = length (lh_block l) ->
     Q tt (mk_lstate (mk_store dk v ({[ b ]} ∪ pin) hl w) {| l with lh_n := Z.of_nat (length (logged b bs)); lh_block := lb |})) ->
  wp (log_write b) Q (mk_lstate (mk_store dk v pin hl w) l).
Proof.
  intros Hn Hb Ha H1 H2 H3 HQ. unfold log_array_ok in Ha. unfold log_write. wp_step. wp_step. cbn [lg].
  destruct (Z.leb_spec LOGSIZE (lh_n l)); [lia|]. destruct (Z.leb_spec (log_size l - 1) (lh_n l)); [lia|]. cbn [orb].
  destruct (Z.ltb_spec (outstanding l) 1); [lia|]. rewrite Hn, Nat2Z.id, Hb. unfold logged in HQ.
  destruct (decide (b ∈ bs)) as [Hin|Hin].
  - destruct (find_block_in b bs 0 Hin) as (i & Hi & ->). pose proof (lookup_lt_Some _ _ _ Hi) as Hlt.
    rewrite Z.add_0_l. wp_step. apply wp_set_lh; [lia|]. rewrite Nat2Z.id.
    destruct (Z.eqb_spec (Z.of_nat i) (Z.of_nat (length bs))); [lia|]. wp_step. wp_step.
    assert (lh_block l !! i = Some b) as Hlb by (rewrite <- Hb in Hi; by apply lookup_take_Some in Hi as [? _]).
    rewrite list_insert_id by done. unfold on_store, bpin. rewrite wp_zoom, wp_modify. cbn.
    specialize (HQ (lh_block l) Hb eq_refl). rewrite <- Hn in HQ. by destruct l.
  - rewrite find_block_notin by done. rewrite Z.add_0_l. wp_step. apply wp_set_lh; [lia|]. rewrite Nat2Z.id.
    rewrite Z.eqb_refl. wp_step. wp_step. unfold set_log. wp_step. unfold on_store, bpin. rewrite wp_zoom, wp_modify. cbn.
    rewrite length_app in HQ. cbn [length] in HQ. rewrite Hn. replace (Z.of_nat (length bs) + 1) with (Z.of_nat (length bs + 1)) by lia.
    destruct l as [l1 l2 l3 l4 l5 l6]. cbn in *. apply HQ; [|by rewrite length_insert].
    rewrite Nat.add_1_r. erewrite take_S_r by (apply list_lookup_insert_eq; lia). by rewrite take_insert_ge, Hb by lia.
Qed.

Lemma Forall2_exists {A B} (P : A -> B -> Prop) l : Forall (fun x => exists y, P x y) l -> exists k, Forall2 P l k.
Proof.
  induction 1 as [|x l (y & Hy) _ (k & IH)]; [by exists []|]. exists (y :: k). by constructor.
Qed.
Lemma NoDup_logged b bs : NoDup bs -> NoDup (logged b bs).
Proof.
  unfold logged. intros H. case_decide; [done|]. apply NoDup_app. split_and!; [done| |apply NoDup_singleton].
  intros x Hx ->%list_elem_of_singleton. done.
Qed.
Lemma elem_of_logged b bs x : x ∈ logged b bs <-> x = b \/ x ∈ bs.
Proof.
  unfold logged. case_decide as Hd; [set_solver|]. rewrite elem_of_app, list_elem_of_singleton. tauto.
Qed.
Lemma length_logged b bs : (length bs <= length (logged b bs) <= S (length bs))%nat.
Proof. unfold logged. case_decide; [lia|]. rewrite length_app. cbn. lia. Qed.

Lemma wp_update s bs vs b d :
  pending s bs vs -> is_block d -> ~ in_log (start (lg s)) b -> 0 <= b < 2147483648 -> is_Some (disk (st s) !! b) ->
  lh_n (lg s) < LOGSIZE -> lh_n (lg s) < log_size (lg s) - 1 -> log_size (lg s) <= Z.of_nat NBUF -> 1 <= outstanding (lg s) ->
  wp (update b d) (fun _ s' =>
    (exists vs', pending s' (logged b bs) vs') /\
    disk (st s') = disk (st s) /\ vw (st s') = <[b := d]> (vw (st s)) /\ written (st s') = written (st s) /\
    start (lg s') = start (lg s) /\ log_size (lg s') = log_size (lg s) /\
    outstanding (lg s') = outstanding (lg s) /\ committing (lg s') = committing (lg s)) s.
Proof.
  intros Hp Hd Hb Hr Hk H1 H2 H3 H4. destruct Hp as [Hst Hfr Hn Hbl Har Hpin Hnd Hvs Hh Hlg Hmax Hhd].
  destruct s as [[dk v pin hl w] l]. cbn [st lg disk vw pinned bheld written] in *. subst pin hl.
  unfold update. on_st. apply wp_bread; [apply not_elem_of_nil| |done|]; stc.
  { apply room_free. stc. rewrite size_list_to_set by done. cbn. lia. }
  on_st. apply wp_set_bdata; [cbn; set_solver|]. stc. wp_step.
  apply (wp_log_write b bs); try done. intros lb Hlb Hll.
  eapply wp_on_store; [reflexivity|]. apply wp_brelse; [cbn; set_solver|left; cbn; set_solver|]. stc. rewrite release_last.
  split; [|done]. pose proof (length_logged b bs) as Hlen.
  assert (forall x, is_Some (v !! x) -> is_Some (<[b := d]> v !! x)) as Hsome.
  { intros x Hx. destruct (decide (b = x)) as [<-|]; [rewrite lookup_insert_eq; eauto|by rewrite lookup_insert_ne]. }
  destruct (Forall2_exists (fun c x => <[b := d]> v !! c = Some x) (logged b bs)) as [vs' Hvs'].
  { apply Forall_forall. intros c [->|Hc]%elem_of_logged; [rewrite lookup_insert_eq; eauto|]. apply Hsome.
    apply list_elem_of_lookup in Hc as [i Hi]. destruct (Forall2_lookup_l _ _ _ _ _ Hvs Hi) as (x & _ & Hx). eauto. }
  exists vs'. split; cbn [st lg disk vw pinned bheld written lh_n lh_block start]; try done.
  - split; stc.
    + intros c. rewrite <- (so_dom _ Hst). stc. split; [|apply Hsome]. destruct (decide (b = c)) as [<-|]; [|by rewrite lookup_insert_ne].
      intros _. by apply (so_dom _ Hst).
    + intros c x. destruct (decide (b = c)) as [<-|]; [rewrite lookup_insert_eq; by intros [= <-]|].
      rewrite lookup_insert_ne by done. apply (so_blocks _ Hst).
    + apply (so_disk _ Hst).
    + intros c Hc _. rewrite lookup_insert_ne by set_solver. apply (so_clean _ Hst); stc; set_solver.
    + constructor.
  - unfold log_array_ok in *. cbn. by rewrite Hll.
  - apply set_eq. intros x. rewrite elem_of_list_to_set, elem_of_logged, elem_of_union, elem_of_singleton, elem_of_list_to_set. tauto.
  - by apply NoDup_logged.
  - apply Forall_forall. rewrite Forall_forall in Hh. intros c [->|Hc]%elem_of_logged; [done|by apply Hh].
  - lia.
Qed.

(** The log and, for each operation between [begin_op] and [end_op], the set of
    blocks it has changed. *)
Record sys := mk_sys { ls : lstate; active : gmap nat (gset Z) }.

(** Steps of concurrent system calls: each runs under the lock of the log, or
    with the buffers it works on locked, or is the commit. *)
Inductive lstep : sys -> sys -> Prop :=
| l_begin p s s' a :
    a !! p = None -> begin_op_try s = Ok true s' -> lstep (mk_sys s a) (mk_sys s' (<[p := ∅]> a))
| l_write p u b d s s' a :
    a !! p = Some u -> is_block d -> ~ in_log (start (lg s)) b -> 0 <= b < 2147483648 -> is_Some (disk (st s) !! b) ->
    Z.of_nat (size ({[ b ]} ∪ u)) <= MAXOPBLOCKS ->
    update b d s = Ok tt s' -> lstep (mk_sys s a) (mk_sys s' (<[p := {[ b ]} ∪ u]> a))
| l_end p u c s s' a :
    a !! p = Some u -> end_op_enter s = Ok c s' -> lstep (mk_sys s a) (mk_sys s' (delete p a))
| l_commit s s' a :
    committing (lg s) = 1 -> (commit ;; end_op_leave) s = Ok tt s' -> lstep (mk_sys s a) (mk_sys s' a).

(** The blocks that active operations may still add. *)
Definition reserve (a : gmap nat (gset Z)) : Z :=
  map_fold (fun _ u n => (MAXOPBLOCKS - Z.of_nat (size u)) + n) 0 a.
Lemma reserve_insert p u a : a !! p = None -> reserve (<[p := u]> a) = (MAXOPBLOCKS - Z.of_nat (size u)) + reserve a.
Proof. intros H. unfold reserve. rewrite map_fold_insert_L; [done|intros; lia|done]. Qed.
Lemma reserve_split p u a : a !! p = Some u -> reserve a = (MAXOPBLOCKS - Z.of_nat (size u)) + reserve (delete p a).
Proof. intros H. rewrite <- (insert_delete_id a p u H) at 1. apply reserve_insert, lookup_delete_eq. Qed.
Lemma reserve_set p u w a : a !! p = Some u -> reserve (<[p := w]> a) = reserve a + Z.of_nat (size u) - Z.of_nat (size w).
Proof.
  intros H. rewrite (reserve_split p u a H), <- insert_delete_eq. rewrite reserve_insert by apply lookup_delete_eq. lia.
Qed.
Lemma reserve_bounds a :
  map_Forall (fun _ u => Z.of_nat (size u) <= MAXOPBLOCKS) a -> 0 <= reserve a <= Z.of_nat (size a) * MAXOPBLOCKS.
Proof.
  induction a as [|p u a Hp IH] using map_ind; intros H; [done|].
  apply map_Forall_insert in H as [Hu H]; [|done]. specialize (IH H). rewrite reserve_insert by done.
  rewrite map_size_insert_None by done. lia.
Qed.

(** The invariant of the log. *)
Record log_inv (x : sys) : Prop := {
  li_pending : exists bs vs, pending (ls x) bs vs /\ map_Forall (fun _ u => u ⊆ list_to_set bs) (active x);
  li_out : outstanding (lg (ls x)) = Z.of_nat (size (active x));
  li_used : map_Forall (fun _ u => Z.of_nat (size u) <= MAXOPBLOCKS) (active x);
  li_space : lh_n (lg (ls x)) + reserve (active x) <= LOGSIZE;
  li_commit : committing (lg (ls x)) = 0 \/ (committing (lg (ls x)) = 1 /\ active x = ∅);
  li_size : log_size (lg (ls x)) <= Z.of_nat NBUF
}.

Lemma apply_writes_hit d e ws b : b ∈ ws.*1 -> apply_writes d ws !! b = apply_writes e ws !! b.
Proof.
  revert d e. induction ws as [|[c x] ws IH]; intros d e Hb; [by apply elem_of_nil in Hb|]. cbn in *.
  destruct (decide (b ∈ ws.*1)) as [Hin|Hin]; [by apply IH|]. rewrite !apply_writes_other by done.
  apply elem_of_cons in Hb as [->|Hb]; [by rewrite !lookup_insert_eq|done].
Qed.
Lemma apply_writes_lookup d ws b x :
  apply_writes d ws !! b = Some x -> d !! b = Some x \/ (b, x) ∈ ws.
Proof.
  revert d. induction ws as [|[c y] ws IH]; intros d H; [by left|]. cbn in H. apply IH in H as [H|H].
  - destruct (decide (c = b)) as [<-|]; [rewrite lookup_insert_eq in H; injection H as ->; right; by constructor|].
    rewrite lookup_insert_ne in H by done. by left.
  - right. by constructor.
Qed.
Lemma apply_writes_some d ws b : is_Some (d !! b) -> is_Some (apply_writes d ws !! b).
Proof.
  revert d. induction ws as [|[c x] ws IH]; intros d H; [done|]. cbn. apply IH.
  destruct (decide (c = b)) as [<-|]; [rewrite lookup_insert_eq; eauto|by rewrite lookup_insert_ne].
Qed.
Lemma commit_writes_in lstart h1 h2 bs vs b x :
  (b, x) ∈ commit_writes lstart h1 h2 bs vs -> x = h1 \/ x = h2 \/ x ∈ vs.
Proof.
  unfold commit_writes. rewrite !elem_of_app, !list_elem_of_singleton.
  intros [(i & Hi & _)%log_writes_in|[[= -> ->]|[Hin|[= -> ->]]]]; [|auto|..|auto].
  - right; right. by eapply list_elem_of_lookup_2.
  - right; right. by apply elem_of_zip_r in Hin.
Qed.

(** After a commit the transaction is empty again. *)
Lemma pending_committed s bs vs h1 h2 :
  pending s bs vs -> is_block h1 -> is_block h2 -> header_n h2 = 0 ->
  let W := commit_writes (start (lg s)) h1 h2 bs vs in
  pending (mk_lstate (mk_store (apply_writes (disk (st s)) W) (apply_writes (vw (st s)) W) ∅ [] (written (st s) ++ W))
           {| (lg s) with lh_n := 0 |}) [] [].
Proof.
  intros Hp B1 B2 N2 W. destruct (pending_facts s bs vs Hp) as (Hlen & _ & Hself & _).
  destruct Hp as [Hst Hfr _ _ Har Hpin _ Hvs _ Hlg _ (h & Hh & _)].
  assert (forall b x, (b, x) ∈ W -> is_block x) as HW.
  { intros b x [->|[->|Hx]]%commit_writes_in; [done..|]. apply list_elem_of_lookup in Hx as [i Hi].
    destruct (Forall2_lookup_r _ _ _ _ _ Hvs Hi) as (c & _ & Hc). by apply (so_blocks _ Hst) in Hc. }
  assert (forall b, b ∈ W.*1 \/ (b ∉ W.*1 /\ b ∉ bs)) as Hcase.
  { intros b. destruct (decide (b ∈ W.*1)) as [|Hn]; [by left|right]. split; [done|]. intros Hb. apply Hn. subst W.
    unfold commit_writes. rewrite !fmap_app, !elem_of_app. right; right; left. by rewrite fst_zip by lia. }
  assert (forall b, apply_writes (vw (st s)) W !! b = apply_writes (disk (st s)) W !! b) as Heq.
  { intros b. destruct (Hcase b) as [Hb|[Hb Hnb]]; [by apply apply_writes_hit|]. rewrite !apply_writes_other by done.
    apply (so_clean _ Hst); [by rewrite Hpin, elem_of_list_to_set|rewrite Hfr; apply not_elem_of_nil]. }
  split; cbn [st lg disk vw pinned bheld written lh_n lh_block start length take]; try done.
  - split; stc; try done.
    + intros b. by rewrite Heq.
    + intros b x [Hx|Hx]%apply_writes_lookup; [by apply (so_blocks _ Hst) in Hx|by eapply HW].
    + intros b x [Hx|Hx]%apply_writes_lookup; [by apply (so_disk _ Hst) in Hx|by eapply HW].
    + apply NoDup_nil_2.
  - apply NoDup_nil_2.
  - intros b Hb. by apply apply_writes_some, Hlg.
  - unfold NBUF. lia.
  - exists h2. split; [|done]. subst W. unfold commit_writes. rewrite !apply_writes_app. cbn [apply_writes]. apply lookup_insert_eq.
Qed.

(** Only the counters change. *)
Lemma pending_counters s o c bs vs :
  pending s bs vs -> pending {| s with lg := {| (lg s) with outstanding := o; committing := c |} |} bs vs.
Proof. intros [? ? ? ? ? ? ? ? ? ? ? ?]. by split. Qed.

Lemma update_Ok b d s s' : update b d s = Ok tt s' -> lh_n (lg s) < LOGSIZE /\ lh_n (lg s) < log_size (lg s) - 1.
Proof.
  unfold update. intros (x1 & s1 & R1 & H)%bind_Ok. apply bind_Ok in H as (x2 & s2 & R2 & H). apply bind_Ok in H as (x3 & s3 & R3 & _).
  assert (lg s2 = lg s) as El.
  { assert (forall A (m : M store A) t r t', on_store m t = Ok r t' -> lg t' = lg t) as Hk.
    { intros A m t r t'. unfold on_store, zoom. destruct (m (st t)); [|done..]. by intros [= _ <-]. }
    by rewrite (Hk _ _ _ _ _ R2), (Hk _ _ _ _ _ R1). }
  unfold log_write in R3. apply bind_Ok in R3 as (l & s4 & [= <- <-] & R3). rewrite El in R3.
  destruct (Z.leb_spec LOGSIZE (lh_n (lg s))); [done|]. by destruct (Z.leb_spec (log_size (lg s) - 1) (lh_n (lg s))).
Qed.

Lemma log_inv_begin x p s' :
  log_inv x -> active x !! p = None -> begin_op_try (ls x) = Ok true s' -> log_inv (mk_sys s' (<[p := ∅]> (active x))).
Proof.
  destruct x as [s a]. cbn. intros [(bs & vs & Hp & Hu) Ho Hus Hsp Hc Hsz] Hpa H. cbn in *.
  unfold begin_op_try in H. apply bind_Ok in H as (l & s1 & [= <- <-] & H).
  destruct (Z.eqb_spec (committing (lg s)) 0) as [Hc0|]; [|done].
  destruct (Z.ltb_spec LOGSIZE (lh_n (lg s) + (outstanding (lg s) + 1) * MAXOPBLOCKS)) as [|Hle]; [done|].
  injection H as <-. pose proof (reserve_bounds a Hus) as Hr. split; cbn.
  - exists bs, vs. split.
    + pose proof (pending_counters s (outstanding (lg s) + 1) (committing (lg s)) bs vs Hp) as Hp'. exact Hp'.
    + apply map_Forall_insert_2; [set_solver|done].
  - rewrite map_size_insert_None by done. lia.
  - apply map_Forall_insert_2; [rewrite size_empty; unfold MAXOPBLOCKS; lia|done].
  - rewrite reserve_insert by done. rewrite size_empty. rewrite Ho in Hle. lia.
  - by left.
  - done.
Qed.

Lemma log_inv_end x p u c s' :
  log_inv x -> active x !! p = Some u -> end_op_enter (ls x) = Ok c s' -> log_inv (mk_sys s' (delete p (active x))).
Proof.
  destruct x as [s a]. cbn. intros [(bs & vs & Hp & Hu) Ho Hus Hsp Hc Hsz] Hpa H. cbn in *.
  assert (size a = S (size (delete p a))) as Hsa.
  { rewrite map_size_delete, Hpa. destruct (size a) eqn:E; [|cbn; lia]. apply map_size_empty_inv in E. by subst. }
  pose proof (reserve_split p u a Hpa) as Hr. pose proof (map_Forall_lookup_1 _ _ _ _ Hus Hpa) as Hup. cbn in Hup.
  assert (committing (lg s) = 0) as Hc0 by (destruct Hc as [|[_ ->]]; [done|by rewrite lookup_empty in Hpa]).
  unfold end_op_enter in H. apply bind_Ok in H as (v & s1 & [= _ <-] & H). apply bind_Ok in H as (l & s1 & [= <- <-] & H).
  cbn [lg committing outstanding] in H. rewrite Hc0 in H. cbn [negb Z.eqb] in H.
  assert (exists k, lg s' = {| (lg s) with outstanding := outstanding (lg s) - 1; committing := k |} /\ st s' = st s /\
            (k = 0 \/ k = 1 /\ outstanding (lg s) - 1 = 0)) as (k & El & Es & Hk).
  { destruct (Z.eqb_spec (outstanding (lg s) - 1) 0) as [E|E]; cbn in H; injection H as _ <-; [exists 1|exists 0]; cbn.
    all: auto. }
  split; cbn.
  - exists bs, vs. split; [|by apply map_Forall_delete].
    pose proof (pending_counters s (outstanding (lg s) - 1) k bs vs Hp) as Hp'. rewrite <- El in Hp'. destruct s', s. cbn in *. by subst.
  - rewrite El. cbn. lia.
  - by apply map_Forall_delete.
  - rewrite El. cbn. lia.
  - rewrite El. cbn. destruct Hk as [->|[-> Hz]]; [by left|right]. split; [done|]. apply map_size_empty_inv. lia.
  - by rewrite El.
Qed.

Lemma log_inv_write x p u b d s' :
  log_inv x -> active x !! p = Some u -> is_block d -> ~ in_log (start (lg (ls x))) b -> 0 <= b < 2147483648 ->
  is_Some (disk (st (ls x)) !! b) -> Z.of_nat (size ({[ b ]} ∪ u)) <= MAXOPBLOCKS ->
  update b d (ls x) = Ok tt s' -> log_inv (mk_sys s' (<[p := {[ b ]} ∪ u]> (active x))).
Proof.
  destruct x as [s a]. cbn. intros [(bs & vs & Hp & Hu) Ho Hus Hsp Hc Hsz] Hpa Hd Hb Hr Hk Hsu H. cbn in *.
  destruct (update_Ok _ _ _ _ H) as [H1 H2]. assert (1 <= outstanding (lg s)) as H3.
  { rewrite Ho. destruct (size a) eqn:E; [|lia]. apply map_size_empty_inv in E. subst. by rewrite lookup_empty in Hpa. }
  pose proof (wp_update s bs vs b d Hp Hd Hb Hr Hk H1 H2 Hsz H3) as Hw. unfold wp in Hw. rewrite H in Hw.
  destruct Hw as ((vs' & Hp') & _ & _ & _ & Es & El & Eo & Ec).
  pose proof (map_Forall_lookup_1 _ _ _ _ Hu Hpa) as Hub. cbn in Hub.
  pose proof (pd_n _ _ _ Hp) as Hn. pose proof (pd_n _ _ _ Hp') as Hn'.
  split; cbn; rewrite ?El, ?Eo, ?Ec; try done.
  - exists (logged b bs), vs'. split; [done|]. assert (forall w : gset Z, w ⊆ list_to_set bs -> w ⊆ list_to_set (logged b bs)) as Hsub.
    { intros w Hw x Hx%Hw%elem_of_list_to_set. apply elem_of_list_to_set, elem_of_logged. by right. }
    apply map_Forall_insert_2; [|by eapply map_Forall_impl; [exact Hu|cbn; auto]].
    apply union_subseteq. split; [|by apply Hsub]. apply singleton_subseteq_l, elem_of_list_to_set, elem_of_logged. by left.
  - rewrite map_size_insert_Some by (by rewrite Hpa). done.
  - by apply map_Forall_insert_2.
  - rewrite (reserve_set p u) by done. rewrite Hn'. unfold logged. destruct (decide (b ∈ bs)) as [Hin|Hin].
    + pose proof (subseteq_size u ({[b]} ∪ u) ltac:(set_solver)). lia.
    + rewrite size_union by set_solver. rewrite size_singleton, length_app. cbn. lia.
  - destruct Hc as [|[? ->]]; [by left|by rewrite lookup_empty in Hpa].
Qed.

Lemma log_inv_step x y : lstep x y -> log_inv x -> log_inv y.
Proof.
  intros H Hi. destruct H as [p s s' a Hp H|p u b d s s' a Hp Hd Hb Hr Hk Hs H|p u c s s' a Hp H|s s' a Hc H].
  - by apply (log_inv_begin (mk_sys s a)).
  - by apply (log_inv_write (mk_sys s a) p u b d).
  - by apply (log_inv_end (mk_sys s a) p u c).
  - destruct Hi as [(bs & vs & Hp & Hu) Ho Hus Hsp Hc' Hsz]. cbn in *. destruct Hc' as [?|[_ ->]]; [lia|].
    apply bind_Ok in H as (r & s1 & R1 & [= <-]).
    assert (exists bs' vs', pending s1 bs' vs' /\ log_size (lg s1) = log_size (lg s) /\ lh_n (lg s1) = 0 /\ outstanding (lg s1) = outstanding (lg s))
      as (bs' & vs' & Hp1 & E1 & E2 & E3).
    { destruct (decide (bs = [])) as [->|Hne].
      - exists [], vs. pose proof (pd_n _ _ _ Hp) as Hn. unfold commit in R1. apply bind_Ok in R1 as (n & s2 & [= <- <-] & R1).
        rewrite Hn in R1. injection R1 as _ <-. done.
      - pose proof (wp_commit s bs vs Hp Hne) as Hw. unfold wp in Hw. rewrite R1 in Hw.
        destruct Hw as (h1 & h2 & B1 & _ & _ & B2 & M2 & ->). exists [], []. split; [by apply pending_committed|done]. }
    split; cbn; rewrite ?E1, ?E2, ?E3; try done.
    + exists bs', vs'. split; [|apply map_Forall_empty]. pose proof (pending_counters s1 (outstanding (lg s1)) 0 _ _ Hp1) as Hq.
      by rewrite E1, E2, E3 in Hq.
    + by left.
Qed.

(** A file system without a transaction: initially, and after a commit. *)
Definition quiet (x : sys) : Prop :=
  pending (ls x) [] [] /\ active x = ∅ /\ outstanding (lg (ls x)) = 0 /\ committing (lg (ls x)) = 0 /\
  log_size (lg (ls x)) <= Z.of_nat NBUF.
Lemma log_inv_quiet x : quiet x -> log_inv x.
Proof.
  destruct x as [s a]. unfold quiet. cbn [ls active]. intros (Hp & -> & Ho & Hc & Hs). split; cbn [ls active]; try done.
  - exists [], []. split; [done|apply map_Forall_empty].
  - pose proof (pd_n _ _ _ Hp) as ->. unfold reserve. rewrite map_fold_empty. done.
  - by left.
Qed.


(** A disk of 200 zeroed blocks, and the system that has booted from it with
    the log at block 2. *)
Definition zero_block : list Z := replicate 512 0.
Definition demo_disk : gmap Z (list Z) := list_to_map ((fun b => (b, zero_block)) <$> seqZ 0 200).
Definition demo_boot : lstate := boot (boot_log 2 LOGSIZE) demo_disk.

(** Finding: the reservation of [begin_op] counts LOGSIZE blocks, but a log of
    LOGSIZE blocks on the disk, as mkfs makes it, has room for one block less:
    three operations that [begin_op] admits, changing ten, ten and nine blocks,
    fill it, and the tenth block of the third makes [log_write] panic. *)
Theorem log_reservation_overflow :
  wp (begin_op ;; begin_op ;; begin_op ;; for_each (seqZ 100 29) (fun b => update b zero_block))
    (fun _ s => outstanding (lg s) = 3 /\ lh_n (lg s) = 29 /\ update 129 zero_block s = Panic "too big a transaction") demo_boot.
Proof. vm_compute. done. Qed.

(** ** Witnesses *)

Lemma demo_disk_lookup b : 0 <= b < 200 -> demo_disk !! b = Some zero_block.
Proof.
  intros Hb. apply elem_of_list_to_map_1; [|apply list_elem_of_fmap; exists b; split; [done|apply elem_of_seqZ; lia]].
  rewrite <- list_fmap_compose. cbn. rewrite list_fmap_id. apply NoDup_seqZ.
Qed.
Lemma demo_disk_Some b d : demo_disk !! b = Some d -> d = zero_block.
Proof. intros H%elem_of_list_to_map_2. apply list_elem_of_fmap in H as (c & [= -> ->] & _). done. Qed.
Lemma zero_block_ok : is_block zero_block.
Proof. split; [reflexivity|]. apply Forall_replicate. lia. Qed.
Lemma demo_store_ok : store_ok (st demo_boot).
Proof.
  split; stc.
  - intros b. reflexivity.
  - intros b d ->%demo_disk_Some. apply zero_block_ok.
  - intros b d ->%demo_disk_Some. apply zero_block_ok.
  - reflexivity.
  - apply NoDup_nil_2.
Qed.
Lemma demo_pending : pending demo_boot [] [].
Proof.
  split.
  - apply demo_store_ok.
  - reflexivity.
  - reflexivity.
  - reflexivity.
  - reflexivity.
  - reflexivity.
  - apply NoDup_nil_2.
  - apply Forall2_nil_2.
  - apply Forall_nil_2.
  - intros b Hb. change (start (lg demo_boot)) with 2 in Hb. unfold in_log, LOGSIZE, MAXOPBLOCKS in Hb. exists zero_block. apply demo_disk_lookup. lia.
  - unfold NBUF. cbn. lia.
  - exists zero_block. split; [apply demo_disk_lookup; cbn; lia|reflexivity].
Qed.
Definition demo_open : lstate := {| demo_boot with lg := {| (lg demo_boot) with outstanding := 1 |} |}.
Lemma demo_open_pending : pending demo_open [] [].
Proof. apply (pending_counters demo_boot 1 0 [] [] demo_pending). Qed.

Lemma commit_crash_atomic_witness :
  exists s bs vs, bs = [100] /\ pending s bs vs /\ wp commit (fun _ s' => disk (st s') !! 100 = vw (st s) !! 100) s.
Proof.
  destruct (proj1 (wp_Ok _ _ _) (wp_update demo_open [] [] 100 zero_block demo_open_pending zero_block_ok
    ltac:(change (start (lg demo_open)) with 2; unfold in_log, LOGSIZE, MAXOPBLOCKS; lia) ltac:(lia)
    ltac:(exists zero_block; apply demo_disk_lookup; lia) ltac:(reflexivity) ltac:(reflexivity) ltac:(discriminate) ltac:(discriminate)))
    as (r & s & _ & (vs & Hp) & _ & _ & _ & Es & _).
  exists s, [100], vs. split; [reflexivity|]. split; [exact Hp|].
  eapply wp_mono; [apply (commit_crash_atomic s [100] vs Hp)|]. intros _ s' (ws & _ & H & _). apply H. rewrite Es.
  change (start (lg demo_open)) with 2. unfold in_log, LOGSIZE, MAXOPBLOCKS. lia.
Defined.

