(* ===== verification/Bio.v ===== *)
(** The buffer cache (bio.c), sleep locks (sleeplock.c) and the disk in memory
    (memide.c).

    The buffers are an array whose last entry is the head of the doubly linked
    list, as in [bcache]; the list orders them by the time of their release.
    The code is that of one process: a sleep lock that is taken makes it wait.
    The theorem at the end is that the cache implements the block store of
    Block.v. *)

From S2P Require Import Prelude Files Block.
From stdpp Require Import base gmap list strings.
From Stdlib Require Import ZArith Lia.
Open Scope Z_scope.

(** ** State *)

(** [struct sleeplock] *)
Record sleeplock := mk_sleeplock { locked : Z; lk_pid : Z }.

(** [struct buf]; pointers are indices into the array. *)
Record buf := mk_buf {
  flags : Z;
  dev : Z;
  blockno : Z;
  lock : sleeplock;
  refcnt : Z;
  prev : nat;
  next : nat;
  data : list Z
}.
Definition buf_zero : buf := mk_buf 0 0 0 (mk_sleeplock 0 0) 0 0 0 (replicate (Z.to_nat BSIZE) 0).
Definition B_VALID : Z := 2.
Definition B_DIRTY : Z := 4.

(** [&bcache.head] *)
Definition HEAD : nat := NBUF.

Record bstate := mk_bstate {
  (** [bcache.buf] followed by [bcache.head] *)
  bufs : list buf;
  bdisk : gmap Z (list Z);
  bwritten : list (Z * list Z);
  (** [myproc()->pid] *)
  mypid : Z
}.

Definition get_buf (i : nat) : M bstate buf := fun s =>
  match bufs s !! i with Some b => Ok b s | None => UB end.
Definition set_buf (i : nat) (f : buf -> buf) : M bstate unit :=
  modify (fun s => {| s with bufs := alter f i (bufs s) |}).
Definition set_next (i n : nat) : M bstate unit := set_buf i (fun b => {| b with next := n |}).
Definition set_prev (i n : nat) : M bstate unit := set_buf i (fun b => {| b with prev := n |}).

(** ** Sleep locks *)

Definition initsleeplock (i : nat) : M bstate unit := set_buf i (fun b => {| b with lock := mk_sleeplock 0 0 |}).
(** With nobody else to release it, a taken lock is waited for for ever. *)
Definition acquiresleep (i : nat) : M bstate unit :=
  b ← get_buf i;
  if negb (locked (lock b) =? 0) then diverge else
  p ← gets mypid;
  set_buf i (fun b => {| b with lock := mk_sleeplock 1 p |}).
Definition releasesleep (i : nat) : M bstate unit := set_buf i (fun b => {| b with lock := mk_sleeplock 0 0 |}).
Definition holdingsleep (i : nat) : M bstate bool :=
  b ← get_buf i;
  p ← gets mypid;
  mret (negb (locked (lock b) =? 0) && (lk_pid (lock b) =? p)).

(** ** The disk *)

(** [iderw]: what the buffer cache needs of the driver. *)
Definition synced (i : nat) (b : buf) (s : bstate) : bstate :=
  if has (flags b) B_DIRTY then
    {| s with bdisk := <[blockno b := data b]> (bdisk s); bwritten := bwritten s ++ [(blockno b, data b)];
              bufs := alter (fun b => {| b with flags := Z.lor (clr (flags b) B_DIRTY) B_VALID |}) i (bufs s) |}
  else
    {| s with bufs := alter (fun b' => {| b' with data := default [] (bdisk s !! blockno b); flags := Z.lor (flags b') B_VALID |}) i (bufs s) |}.
Definition holds (s : bstate) (b : buf) : bool := negb (locked (lock b) =? 0) && (lk_pid (lock b) =? mypid s).
Class Device := {
  iderw : nat -> M bstate unit;
  iderw_sync i b s :
    bufs s !! i = Some b -> holds s b = true -> Z.land (flags b) (Z.lor B_VALID B_DIRTY) ≠ B_VALID -> dev b = 1 ->
    is_Some (bdisk s !! blockno b) -> iderw i s = Ok tt (synced i b s)
}.

(** The driver of memide.c, with a disk of the blocks in [bdisk]. *)
Definition memide_iderw (i : nat) : M bstate unit :=
  h ← holdingsleep i;
  if negb h then panic "iderw: buf not locked" else
  b ← get_buf i;
  if Z.land (flags b) (Z.lor B_VALID B_DIRTY) =? B_VALID then panic "iderw: nothing to do" else
  if negb (dev b =? 1) then panic "iderw: request not for disk 1" else
  p ← gets (fun s => bdisk s !! blockno b);
  match p with
  | None => panic "iderw: block out of range"
  | Some p =>
      (if has (flags b) B_DIRTY then
         set_buf i (fun b => {| b with flags := clr (flags b) B_DIRTY |}) ;;
         modify (fun s => {| s with bdisk := <[blockno b := data b]> (bdisk s); bwritten := bwritten s ++ [(blockno b, data b)] |})
       else set_buf i (fun b => {| b with data := p |})) ;;
      set_buf i (fun b => {| b with flags := Z.lor (flags b) B_VALID |})
  end.

(** ** The cache *)

Section Bio.
Context {D : Device}.

(** [binit]: each buffer is put at the front. *)
Definition binit_one (i : nat) : M bstate unit :=
  h ← get_buf HEAD;
  set_next i (next h) ;;
  set_prev i HEAD ;;
  initsleeplock i ;;
  h ← get_buf HEAD;
  set_prev (next h) i ;;
  set_next HEAD i.
Definition binit : M bstate unit :=
  set_prev HEAD HEAD ;;
  set_next HEAD HEAD ;;
  for_each (indices NBUF) binit_one.

(** The first loop of [bget], from buffer [i] on. *)
Fixpoint bget_cached (dv bn : Z) (i : nat) (fuel : nat) : M bstate (option nat) :=
  if decide (i = HEAD) then mret None else
  match fuel with
  | O => diverge
  | S fuel' =>
      b ← get_buf i;
      if (dev b =? dv) && (blockno b =? bn) then mret (Some i) else bget_cached dv bn (next b) fuel'
  end.
(** The second loop. *)
Fixpoint bget_free (i : nat) (fuel : nat) : M bstate (option nat) :=
  if decide (i = HEAD) then mret None else
  match fuel with
  | O => diverge
  | S fuel' =>
      b ← get_buf i;
      if (refcnt b =? 0) && negb (has (flags b) B_DIRTY) then mret (Some i) else bget_free (prev b) fuel'
  end.
Definition bget (dv bn : Z) : M bstate nat :=
  h ← get_buf HEAD;
  r ← bget_cached dv bn (next h) NBUF;
  match r with
  | Some i =>
      set_buf i (fun b => {| b with refcnt := refcnt b + 1 |}) ;;
      acquiresleep i ;;
      mret i
  | None =>
      h ← get_buf HEAD;
      r ← bget_free (prev h) NBUF;
      match r with
      | Some i =>
          set_buf i (fun b => {| b with dev := dv; blockno := bn; flags := 0; refcnt := 1 |}) ;;
          acquiresleep i ;;
          mret i
      | None => panic "bget: no buffers"
      end
  end.

Definition bread (dv bn : Z) : M bstate nat :=
  i ← bget dv bn;
  b ← get_buf i;
  when (negb (has (flags b) B_VALID)) (iderw i) ;;
  mret i.

Definition bwrite (i : nat) : M bstate unit :=
  h ← holdingsleep i;
  if negb h then panic "bwrite" else
  set_buf i (fun b => {| b with flags := Z.lor (flags b) B_DIRTY |}) ;;
  iderw i.

Definition brelse (i : nat) : M bstate unit :=
  h ← holdingsleep i;
  if negb h then panic "brelse" else
  releasesleep i ;;
  set_buf i (fun b => {| b with refcnt := refcnt b - 1 |}) ;;
  b ← get_buf i;
  when (refcnt b =? 0) (
    set_prev (next b) (prev b) ;;
    b ← get_buf i;
    set_next (prev b) (next b) ;;
    h ← get_buf HEAD;
    set_next i (next h) ;;
    set_prev i HEAD ;;
    h ← get_buf HEAD;
    set_prev (next h) i ;;
    set_next HEAD i).

(** [b->data] and [b->flags |= B_DIRTY] of a buffer the process holds. *)
Definition buf_data (i : nat) : M bstate (list Z) := b ← get_buf i; mret (data b).
Definition set_buf_data (i : nat) (d : list Z) : M bstate unit := set_buf i (fun b => {| b with data := d |}).
Definition buf_pin (i : nat) : M bstate unit := set_buf i (fun b => {| b with flags := Z.lor (flags b) B_DIRTY |}).

End Bio.

(** ** Linked lists *)

Section Ring.
#[local] Opaque HEAD.
Implicit Types nx pv : nat -> nat.

(** Neighbours in the list point at each other. *)
Fixpoint chain nx pv (l : list nat) : Prop :=
  match l with
  | x :: ((y :: _) as t) => nx x = y /\ pv y = x /\ chain nx pv t
  | _ => True
  end.
(** The buffers in the order of the list, from the head back to it. *)
Definition ring nx pv (order : list nat) : Prop :=
  chain nx pv (HEAD :: order ++ [HEAD]) /\ NoDup (HEAD :: order).

Definition upd (f : nat -> nat) (x v : nat) : nat -> nat := fun y => if decide (y = x) then v else f y.

Lemma chain_app nx pv l x r : chain nx pv (l ++ x :: r) <-> chain nx pv (l ++ [x]) /\ chain nx pv (x :: r).
Proof.
  induction l as [|y l IH]; cbn [app]; [cbn; tauto|]. destruct l as [|z l]; cbn [app] in *.
  - cbn. tauto.
  - change (nx y = z /\ pv z = y /\ chain nx pv (z :: l ++ x :: r) <->
            (nx y = z /\ pv z = y /\ chain nx pv (z :: l ++ [x])) /\ chain nx pv (x :: r)). tauto.
Qed.
Lemma chain_ext nx pv nx' pv' x l z :
  (forall y, y ∈ x :: l -> nx' y = nx y) -> (forall y, y ∈ l ++ [z] -> pv' y = pv y) ->
  chain nx pv (x :: l ++ [z]) -> chain nx' pv' (x :: l ++ [z]).
Proof.
  revert x. induction l as [|y l IH]; intros x Hn Hp Hc; cbn [app] in *.
  - cbn in *. rewrite Hn, Hp by set_solver. done.
  - destruct Hc as (H1 & H2 & H3). split_and!.
    + rewrite Hn by set_solver. done.
    + rewrite Hp by set_solver. done.
    + apply IH; [set_solver|set_solver|done].
Qed.
Lemma upd_eq f x v : upd f x v x = v.
Proof. unfold upd. by rewrite decide_True. Qed.
Lemma upd_ne f x v y : y ≠ x -> upd f x v y = f y.
Proof. intros. unfold upd. by rewrite decide_False. Qed.

(** [b->next->prev = b->prev; b->prev->next = b->next] *)
Lemma ring_unlink nx pv l1 i l2 :
  ring nx pv (l1 ++ i :: l2) ->
  ring (upd nx (pv i) (nx i)) (upd pv (nx i) (pv i)) (l1 ++ l2) /\ nx i ≠ i /\ pv i ≠ i /\ i ∉ HEAD :: l1 ++ l2.
Proof.
  intros [Hc Hnd]. assert (NoDup (HEAD :: l1 ++ l2) /\ i ∉ HEAD :: l1 ++ l2) as [Hnd' Hi].
  { rewrite app_comm_cons in Hnd. apply NoDup_app in Hnd as (N1 & N2 & N3). apply NoDup_cons in N3 as [N3 N4].
    rewrite app_comm_cons. split; [apply NoDup_app; split_and!; [done| |done]; intros x Hx Hx2; apply (N2 x Hx); by right|].
    intros [Hx|Hx]%elem_of_app; [apply (N2 i Hx); by left|done]. }
  destruct (exists_last (l := HEAD :: l1)) as (A & p & EA); [done|].
  assert (exists n B, l2 ++ [HEAD] = n :: B) as (n & B & EB) by (destruct l2; cbn; eauto).
  assert (HEAD :: (l1 ++ i :: l2) ++ [HEAD] = A ++ p :: i :: n :: B) as E.
  { rewrite <- app_assoc. cbn [app]. rewrite EB, app_comm_cons, EA, <- app_assoc. done. }
  rewrite E in Hc. apply chain_app in Hc as [Hc1 (E1 & E2 & E3 & E4 & Hc2)]. cbn in E1, E3.
  assert (pv i = p) as -> by done. assert (nx i = n) as -> by done.
  assert (p ∈ HEAD :: l1) as Hp by (rewrite EA; set_solver). assert (n ∈ l2 ++ [HEAD]) as Hn by (rewrite EB; set_solver).
  assert (n ≠ i /\ p ≠ i) as [Hni Hpi].
  { rewrite not_elem_of_cons, not_elem_of_app in Hi. split; intros ->.
    - apply elem_of_app in Hn as [Hn|Hn%list_elem_of_singleton]; naive_solver.
    - apply elem_of_cons in Hp. naive_solver. }
  split_and!; try done.
  split; [|done]. replace (HEAD :: (l1 ++ l2) ++ [HEAD]) with (A ++ p :: n :: B).
  2:{ rewrite <- app_assoc, EB, app_comm_cons, EA, <- app_assoc. done. }
  rewrite app_comm_cons in Hnd'. apply NoDup_app in Hnd' as (N1 & N2 & N3). rewrite EA in N1. apply NoDup_app in N1 as (N4 & N5 & _).
  apply NoDup_cons in Hnd as [N0 _]. apply chain_app. split.
  - destruct A as [|x A]; [done|]. injection EA as <- EA. apply (chain_ext nx pv); [| |done].
    + intros y Hy. apply upd_ne. intros ->. apply (N5 p Hy). by left.
    + intros y Hy. apply upd_ne. intros ->. rewrite <- EA in Hy. apply elem_of_app in Hn as [Hn|Hn%list_elem_of_singleton].
      * by apply (N2 n); [apply elem_of_cons; right|].
      * rewrite Hn in Hy. apply N0, elem_of_app. left. exact Hy.
  - split_and!; [by rewrite upd_eq|by rewrite upd_eq|]. destruct l2 as [|y l2]; cbn in EB; injection EB as <- <-; [done|].
    apply NoDup_cons in N3 as [N3 _]. apply (chain_ext nx pv); [| |done].
    + intros z Hz. apply upd_ne. intros ->. by apply (N2 p).
    + intros z Hz. apply upd_ne. intros ->. apply elem_of_app in Hz as [Hz|Hz%list_elem_of_singleton]; [done|].
      apply N0, elem_of_app. right. apply elem_of_cons. right. rewrite Hz. apply elem_of_cons. by left.
Qed.

(** [b->next = head.next; b->prev = &head; head.next->prev = b; head.next = b] *)
Lemma ring_push nx pv l i :
  ring nx pv l -> i ∉ HEAD :: l ->
  ring (upd (upd nx i (nx HEAD)) HEAD i) (upd (upd pv i HEAD) (nx HEAD) i) (i :: l).
Proof.
  intros [Hc Hnd] Hi. apply NoDup_cons in Hnd as [N1 N2]. apply not_elem_of_cons in Hi as [HiH Hil]. split.
  2:{ apply NoDup_cons. split; [rewrite not_elem_of_cons; done|]. by apply NoDup_cons. }
  assert (exists n B, l ++ [HEAD] = n :: B) as (n & B & EB) by (destruct l; cbn; eauto).
  cbn [app]. rewrite EB in Hc |- *. destruct Hc as (E1 & E2 & Hc). rewrite E1.
  assert (n ≠ i) as Hni.
  { intros ->. assert (i ∈ l ++ [HEAD]) as H by (rewrite EB; by left). by apply elem_of_app in H as [H|H%list_elem_of_singleton]. }
  split; [|split; [|split; [|split]]].
  - by rewrite upd_eq.
  - rewrite upd_ne by done. by rewrite upd_eq.
  - rewrite upd_ne by done. by rewrite upd_eq.
  - by rewrite upd_eq.
  - destruct l as [|y l]; cbn in EB; injection EB as <- <-; [done|]. apply NoDup_cons in N2 as [N2 N3].
    apply not_elem_of_cons in Hil as [Hy Hl], N1 as [HHy HHl]. apply (chain_ext nx pv); [| |done].
    + intros z Hz. apply elem_of_cons in Hz. rewrite !upd_ne by naive_solver. done.
    + intros z Hz. apply elem_of_app in Hz as [Hz|Hz%list_elem_of_singleton]; rewrite !upd_ne; naive_solver.
Qed.
End Ring.

(** ** What the cache represents *)

Definition nxt (bs : list buf) (i : nat) : nat := match bs !! i with Some b => next b | None => O end.
Definition prv (bs : list buf) (i : nat) : nat := match bs !! i with Some b => prev b | None => O end.

(** A buffer is unused, or it caches a block: it then holds what the store
    presents for the block, its flags say whether the block is pinned, and its
    lock and its count whether the process holds it. *)
Inductive buf_ok (mypid : Z) (s : store) (b : buf) : Prop :=
| bk_new : dev b = 0 -> flags b = 0 -> refcnt b = 0 -> lock b = mk_sleeplock 0 0 -> buf_ok mypid s b
| bk_cached :
    dev b = 1 -> vw s !! blockno b = Some (data b) ->
    flags b = (if decide (blockno b ∈ pinned s) then 6 else 2) ->
    refcnt b = (if decide (blockno b ∈ bheld s) then 1 else 0) ->
    lock b = (if decide (blockno b ∈ bheld s) then mk_sleeplock 1 mypid else mk_sleeplock 0 0) ->
    buf_ok mypid s b.

Record refines (c : bstate) (s : store) (order : list nat) : Prop := {
  rf_len : length (bufs c) = S NBUF;
  rf_ring : ring (nxt (bufs c)) (prv (bufs c)) order;
  rf_perm : order ≡ₚ seq 0 NBUF;
  rf_disk : bdisk c = disk s;
  rf_written : bwritten c = written s;
  rf_store : store_ok s;
  rf_buf : forall i b, (i < NBUF)%nat -> bufs c !! i = Some b -> buf_ok (mypid c) s b;
  rf_uniq : forall i j b b', (i < NBUF)%nat -> (j < NBUF)%nat -> bufs c !! i = Some b -> bufs c !! j = Some b' ->
              dev b = 1 -> dev b' = 1 -> blockno b = blockno b' -> i = j;
  rf_used : forall n, n ∈ pinned s \/ n ∈ bheld s ->
              exists i b, (i < NBUF)%nat /\ bufs c !! i = Some b /\ dev b = 1 /\ blockno b = n
}.

(** Buffer [i] is the one for block [n]. *)
Definition names (c : bstate) (i : nat) (n : Z) : Prop :=
  (i < NBUF)%nat /\ exists b, bufs c !! i = Some b /\ dev b = 1 /\ blockno b = n.

Lemma chain_proper nx pv nx' pv' l :
  (forall x, x ∈ l -> nx' x = nx x) -> (forall x, x ∈ l -> pv' x = pv x) -> chain nx pv l -> chain nx' pv' l.
Proof.
  induction l as [|x [|y l] IH]; [done|done|]. intros Hn Hp (H1 & H2 & H3). split; [|split].
  - rewrite Hn; [done|by left].
  - rewrite Hp; [done|right; by left].
  - apply IH; [| |done]; intros z Hz; [apply Hn|apply Hp]; by right.
Qed.
Lemma ring_proper nx pv nx' pv' l :
  (forall x, x ∈ HEAD :: l -> nx' x = nx x) -> (forall x, x ∈ HEAD :: l -> pv' x = pv x) -> ring nx pv l -> ring nx' pv' l.
Proof.
  intros Hn Hp [Hc Hnd]. split; [|done]. assert (forall x, x ∈ HEAD :: l ++ [HEAD] -> x ∈ HEAD :: l) as Hin.
  { intros x. rewrite !elem_of_cons, elem_of_app, list_elem_of_singleton. tauto. }
  apply (chain_proper nx pv); [| |done]; intros x Hx; [apply Hn|apply Hp]; auto.
Qed.

Lemma nxt_alter f i bs x : (forall b, next (f b) = next b) -> nxt (alter f i bs) x = nxt bs x.
Proof.
  intros Hf. unfold nxt. destruct (decide (i = x)) as [<-|]; [|by rewrite list_lookup_alter_ne].
  rewrite list_lookup_alter_eq. destruct (bs !! i); [|done]. cbn. apply Hf.
Qed.
Lemma prv_alter f i bs x : (forall b, prev (f b) = prev b) -> prv (alter f i bs) x = prv bs x.
Proof.
  intros Hf. unfold prv. destruct (decide (i = x)) as [<-|]; [|by rewrite list_lookup_alter_ne].
  rewrite list_lookup_alter_eq. destruct (bs !! i); [|done]. cbn. apply Hf.
Qed.

Lemma buf_ok_other pid s s' b :
  buf_ok pid s b ->
  (dev b = 1 -> vw s' !! blockno b = vw s !! blockno b /\ (blockno b ∈ pinned s' <-> blockno b ∈ pinned s) /\
                (blockno b ∈ bheld s' <-> blockno b ∈ bheld s)) ->
  buf_ok pid s' b.
Proof.
  intros [N1 N2 N3 N4|Hd Hv Hf Hr Hl] H; [by apply bk_new|]. destruct (H Hd) as (E1 & E2 & E3). apply bk_cached; try done.
  - congruence.
  - rewrite Hf. destruct (decide (blockno b ∈ pinned s)), (decide (blockno b ∈ pinned s')); tauto.
  - rewrite Hr. destruct (decide (blockno b ∈ bheld s)), (decide (blockno b ∈ bheld s')); tauto.
  - rewrite Hl. destruct (decide (blockno b ∈ bheld s)), (decide (blockno b ∈ bheld s')); tauto.
Qed.

Lemma buf_ok_strip_fields pid s b b0 :
  flags b = flags b0 -> dev b = dev b0 -> blockno b = blockno b0 -> lock b = lock b0 -> refcnt b = refcnt b0 -> data b = data b0 ->
  buf_ok pid s b0 -> buf_ok pid s b.
Proof.
  intros E1 E2 E3 E4 E5 E6 [N1 N2 N3 N4|N1 N2 N3 N4 N5]; [apply bk_new|apply bk_cached]; rewrite ?E1, ?E2, ?E3, ?E4, ?E5, ?E6; done.
Qed.

(** Changing one buffer together with the block that it caches afterwards. *)
Lemma refines_buf c s order i b f s' :
  refines c s order -> (i < NBUF)%nat -> bufs c !! i = Some b ->
  (forall x, next (f x) = next x) -> (forall x, prev (f x) = prev x) -> store_ok s' ->
  buf_ok (mypid c) s' (f b) -> dev (f b) = 1 ->
  (forall n, n ≠ blockno (f b) -> vw s' !! n = vw s !! n /\ (n ∈ pinned s' <-> n ∈ pinned s) /\ (n ∈ bheld s' <-> n ∈ bheld s)) ->
  (dev b = 1 /\ blockno b = blockno (f b)) \/
  ((dev b = 1 -> blockno b ∉ pinned s /\ blockno b ∉ bheld s) /\
   forall j x, (j < NBUF)%nat -> bufs c !! j = Some x -> dev x = 1 -> blockno x ≠ blockno (f b)) ->
  refines (mk_bstate (alter f i (bufs c)) (disk s') (written s') (mypid c)) s' order.
Proof.
  intros [R1 R2 R3 R4 R5 R6 R7 R8 R9] Hi Hb Hn Hp Hs Hok Hd Hframe Hcase.
  assert (forall j x, (j < NBUF)%nat -> j ≠ i -> bufs c !! j = Some x -> dev x = 1 -> blockno x ≠ blockno (f b)) as Hne.
  { intros j x Hj Hji Hx Hdx. destruct Hcase as [[Hdb E]|[_ H]]; [|by apply (H j)]. rewrite <- E. intros E'. by apply Hji, (R8 j i x b). }
  assert (forall j x, alter f i (bufs c) !! j = Some x -> (j = i /\ x = f b) \/ (j ≠ i /\ bufs c !! j = Some x)) as Hat.
  { intros j x. destruct (decide (i = j)) as [<-|]; [|rewrite list_lookup_alter_ne by done; auto].
    rewrite list_lookup_alter_eq, Hb. intros [= <-]. auto. }
  split; cbn [bufs bdisk bwritten mypid]; try done.
  - by rewrite length_alter.
  - eapply ring_proper; [| |exact R2]; intros x _; [by apply nxt_alter|by apply prv_alter].
  - intros j x Hj [[-> ->]|[Hji Hx]]%Hat; [done|]. apply (buf_ok_other _ s); [by eapply R7|]. intros Hdx. apply Hframe. by apply (Hne j).
  - intros j k x y Hj Hk [[-> ->]|[Hji Hx]]%Hat [[-> ->]|[Hki Hy]]%Hat Hdx Hdy E; [done|..].
    + by destruct (Hne k y Hk Hki Hy Hdy).
    + by destruct (Hne j x Hj Hji Hx Hdx).
    + by apply (R8 j k x y).
  - intros n Hu. destruct (decide (n = blockno (f b))) as [->|Hnb].
    { exists i, (f b). rewrite list_lookup_alter_eq, Hb. done. }
    assert (n ∈ pinned s \/ n ∈ bheld s) as Hu' by (destruct (Hframe n Hnb) as (_ & ? & ?); tauto).
    destruct (R9 n Hu') as (j & x & Hj & Hx & Hdx & En). exists j, x. split_and!; try done.
    rewrite list_lookup_alter_ne; [done|]. intros <-. rewrite Hb in Hx. injection Hx as <-.
    destruct Hcase as [[_ E]|[Hf _]]; [congruence|]. specialize (Hf Hdx). rewrite En in Hf. tauto.
Qed.

(** *** Searching the list *)

Lemma ring_bufs c s order i : refines c s order -> i ∈ order -> (i < NBUF)%nat /\ i ≠ HEAD /\ exists b, bufs c !! i = Some b.
Proof.
  intros R Hi. rewrite (rf_perm _ _ _ R), elem_of_seq in Hi. split_and!; [lia|unfold HEAD; lia|].
  apply lookup_lt_is_Some_2. rewrite (rf_len _ _ _ R). lia.
Qed.

(** The first buffer that satisfies a test, in the order of a list. *)
Fixpoint first_buf (test : buf -> bool) (bs : list buf) (l : list nat) : option nat :=
  match l with
  | [] => None
  | i :: l' => match bs !! i with Some b => if test b then Some i else first_buf test bs l' | None => None end
  end.
Lemma first_buf_Some test bs l i :
  first_buf test bs l = Some i -> i ∈ l /\ exists b, bs !! i = Some b /\ test b = true.
Proof.
  induction l as [|j l IH]; [done|]. cbn. destruct (bs !! j) as [b|] eqn:E; [|done]. destruct (test b) eqn:Et.
  - intros [= <-]. split; [by left|eauto].
  - intros [? ?]%IH. split; [by right|done].
Qed.
Lemma first_buf_None test bs l :
  first_buf test bs l = None -> (forall i, i ∈ l -> exists b, bs !! i = Some b) ->
  forall i b, i ∈ l -> bs !! i = Some b -> test b = false.
Proof.
  induction l as [|j l IH]; intros Hf Hex i b Hi Hb; [by apply elem_of_nil in Hi|]. cbn in Hf.
  destruct (Hex j) as [x Hx]; [by left|]. rewrite Hx in Hf. destruct (test x) eqn:Et; [done|].
  apply elem_of_cons in Hi as [->|Hi]; [congruence|]. eapply IH; eauto. intros k Hk. apply Hex. by right.
Qed.

Definition is_cached (dv bn : Z) (b : buf) : bool := (dev b =? dv) && (blockno b =? bn).
Definition is_free (b : buf) : bool := (refcnt b =? 0) && negb (has (flags b) B_DIRTY).

Lemma run_bget_cached dv bn c l : forall x fuel,
  chain (nxt (bufs c)) (prv (bufs c)) (x :: l ++ [HEAD]) -> (forall i, i ∈ l -> i ≠ HEAD /\ exists b, bufs c !! i = Some b) ->
  (length l <= fuel)%nat ->
  bget_cached dv bn (nxt (bufs c) x) fuel c = Ok (first_buf (is_cached dv bn) (bufs c) l) c.
Proof.
  induction l as [|i l IH]; intros x fuel Hc Hex Hf.
  - destruct Hc as (-> & _). destruct fuel; cbn [bget_cached]; by rewrite decide_True.
  - destruct Hc as (-> & _ & Hc). destruct (Hex i) as [Hi [b Hb]]; [by left|]. destruct fuel as [|fuel]; [cbn in Hf; lia|].
    cbn [bget_cached first_buf]. rewrite decide_False by done. rewrite (bind_run _ _ _ b c) by (unfold get_buf; by rewrite Hb). rewrite Hb.
    fold (is_cached dv bn b). destruct (is_cached dv bn b); [done|]. specialize (IH i fuel Hc). unfold nxt at 1 in IH. rewrite Hb in IH.
    apply IH; [|cbn in Hf; lia]. intros j Hj. apply Hex. by right.
Qed.

Lemma chain_snoc nx pv l x y : chain nx pv (l ++ [x; y]) <-> chain nx pv (l ++ [x]) /\ nx x = y /\ pv y = x.
Proof. rewrite chain_app. cbn. tauto. Qed.

Lemma run_bget_free c l : forall y fuel,
  chain (nxt (bufs c)) (prv (bufs c)) (HEAD :: l ++ [y]) -> (forall i, i ∈ l -> i ≠ HEAD /\ exists b, bufs c !! i = Some b) ->
  (length l <= fuel)%nat ->
  bget_free (prv (bufs c) y) fuel c = Ok (first_buf is_free (bufs c) (reverse l)) c.
Proof.
  induction l as [|i l IH] using rev_ind; intros y fuel Hc Hex Hf.
  - destruct Hc as (_ & -> & _). destruct fuel; cbn [bget_free]; by rewrite decide_True.
  - rewrite <- app_assoc, app_comm_cons in Hc. cbn [app] in Hc. apply (chain_snoc _ _ (HEAD :: l)) in Hc as (Hc & _ & ->).
    destruct (Hex i) as [Hi [b Hb]]; [apply elem_of_app; right; by left|]. rewrite length_app in Hf.
    destruct fuel as [|fuel]; [cbn in Hf; lia|]. rewrite reverse_snoc. cbn [bget_free first_buf]. rewrite decide_False by done.
    rewrite (bind_run _ _ _ b c) by (unfold get_buf; by rewrite Hb). rewrite Hb.
    fold (is_free b). destruct (is_free b); [done|]. specialize (IH i fuel Hc). unfold prv at 1 in IH. rewrite Hb in IH.
    apply IH; [|cbn in Hf; lia]. intros j Hj. apply Hex, elem_of_app. by left.
Qed.

(** *** A free buffer exists while there is room *)

Lemma cached_block c s order i b :
  refines c s order -> (i < NBUF)%nat -> bufs c !! i = Some b -> is_free b = false ->
  dev b = 1 /\ (blockno b ∈ pinned s \/ blockno b ∈ bheld s).
Proof.
  intros R Hi Hb Hf. destruct (rf_buf _ _ _ R i b Hi Hb) as [Hd Hfl Hr Hl|Hd Hv Hfl Hr Hl]; unfold is_free in Hf; rewrite Hr, Hfl in Hf; [done|].
  split; [done|]. destruct (decide (blockno b ∈ bheld s)); [by right|]. destruct (decide (blockno b ∈ pinned s)); [by left|]. done.
Qed.
Lemma free_exists c s order :
  refines c s order -> (size (pinned s ∪ list_to_set (bheld s)) < NBUF)%nat ->
  exists i, first_buf is_free (bufs c) (reverse order) = Some i.
Proof.
  intros R Hsz. destruct (first_buf is_free (bufs c) (reverse order)) as [i|] eqn:E; [eauto|exfalso].
  assert (forall i b, (i < NBUF)%nat -> bufs c !! i = Some b -> is_free b = false) as Hall.
  { intros i b Hi Hb. apply (fun H => first_buf_None _ _ _ E H i b); [|rewrite elem_of_reverse, (rf_perm _ _ _ R), elem_of_seq; lia|done].
    intros j Hj. rewrite elem_of_reverse in Hj. by destruct (ring_bufs _ _ _ _ R Hj) as (_ & _ & ?). }
  set (f := fun i => match bufs c !! i with Some b => blockno b | None => 0 end).
  assert (forall i, (i < NBUF)%nat -> exists b, bufs c !! i = Some b /\ f i = blockno b /\ dev b = 1 /\ f i ∈ pinned s ∪ list_to_set (bheld s)) as Hf.
  { intros i Hi. destruct (lookup_lt_is_Some_2 (bufs c) i) as [b Hb]; [rewrite (rf_len _ _ _ R); lia|]. exists b. split; [done|].
    destruct (cached_block c s order i b R Hi Hb (Hall i b Hi Hb)) as [Hd Hu]. subst f. cbn. rewrite Hb. split_and!; [done|done|].
    rewrite elem_of_union, elem_of_list_to_set. tauto. }
  assert (NoDup (f <$> seq 0 NBUF)) as Hnd.
  { apply NoDup_fmap_2_strong; [|apply NoDup_seq]. intros i j Hi%elem_of_seq Hj%elem_of_seq Eij.
    destruct (Hf i) as (b & Hb & Eb & Hdb & _); [lia|]. destruct (Hf j) as (b' & Hb' & Eb' & Hdb' & _); [lia|].
    apply (rf_uniq _ _ _ R i j b b'); try done; [lia|lia|congruence]. }
  pose proof (subseteq_size (list_to_set (f <$> seq 0 NBUF)) (pinned s ∪ list_to_set (bheld s))) as Hle.
  rewrite size_list_to_set, length_fmap, length_seq in Hle by done. enough (NBUF <= size (pinned s ∪ list_to_set (bheld s)))%nat by lia.
  apply Hle. intros x Hx%elem_of_list_to_set. apply list_elem_of_fmap in Hx as (i & -> & Hi%elem_of_seq).
  destruct (Hf i) as (_ & _ & _ & _ & ?); [lia|done].
Qed.

(** *** The operations *)

Lemma wp_get_buf i b Q c : bufs c !! i = Some b -> wp (get_buf i) Q c <-> Q b c.
Proof. unfold wp, get_buf. by intros ->. Qed.
Lemma wp_set_buf i f Q bs dk w p :
  wp (set_buf i f) Q (mk_bstate bs dk w p) <-> Q tt (mk_bstate (alter f i bs) dk w p).
Proof. done. Qed.
Lemma wp_holdingsleep i b Q c : bufs c !! i = Some b -> holds c b = true -> wp (holdingsleep i) Q c <-> Q true c.
Proof.
  intros Hb Hh. unfold holdingsleep. rewrite wp_bind, (wp_get_buf i b) by done. rewrite wp_bind, wp_gets, wp_ret.
  unfold holds in Hh. by rewrite Hh.
Qed.
Lemma wp_acquiresleep i b Q bs dk w p :
  bs !! i = Some b -> lock b = mk_sleeplock 0 0 ->
  Q tt (mk_bstate (alter (fun b => {| b with lock := mk_sleeplock 1 p |}) i bs) dk w p) ->
  wp (acquiresleep i) Q (mk_bstate bs dk w p).
Proof.
  intros Hb Hl HQ. unfold acquiresleep. rewrite wp_bind, (wp_get_buf i b) by done. rewrite Hl. cbn [locked negb Z.eqb].
  rewrite wp_bind, wp_gets. by rewrite wp_set_buf.
Qed.

Section Ops.
Context {D : Device}.

Lemma order_bufs c s order i : refines c s order -> (i < NBUF)%nat -> i ∈ order.
Proof. intros R Hi. rewrite (rf_perm _ _ _ R), elem_of_seq. lia. Qed.

(** The search of [bget] for the block. *)
Lemma wp_bget_search c s order n (Q : option nat -> bstate -> Prop) h :
  refines c s order -> bufs c !! HEAD = Some h ->
  (forall i b, (i < NBUF)%nat -> bufs c !! i = Some b -> dev b = 1 -> blockno b = n -> Q (Some i) c) ->
  ((forall i b, (i < NBUF)%nat -> bufs c !! i = Some b -> dev b = 1 -> blockno b ≠ n) -> Q None c) ->
  wp (bget_cached 1 n (next h) NBUF) Q c.
Proof.
  intros R Hh HS HN. pose proof (rf_ring _ _ _ R) as [Hc _].
  assert (nxt (bufs c) HEAD = next h) as <- by (unfold nxt; by rewrite Hh).
  assert (forall j, j ∈ order -> exists b, bufs c !! j = Some b) as Hex by (intros j Hj; by destruct (ring_bufs _ _ _ _ R Hj) as (_ & _ & ?)).
  rewrite (wp_eq _ _ _ _ _ (run_bget_cached 1 n c order HEAD NBUF Hc
    ltac:(intros j Hj; by destruct (ring_bufs _ _ _ _ R Hj) as (_ & ? & ?)) ltac:(by rewrite (Permutation_length (rf_perm _ _ _ R)), length_seq))).
  destruct (first_buf (is_cached 1 n) (bufs c) order) as [i|] eqn:E.
  - apply first_buf_Some in E as (Hi & b & Hb & Ht). unfold is_cached in Ht. bool_hyps.
    destruct (ring_bufs _ _ _ _ R Hi) as (Hlt & _ & _). by apply (HS i b).
  - apply HN. intros i b Hi Hb Hd En. pose proof (first_buf_None _ _ _ E Hex i b (order_bufs _ _ _ _ R Hi) Hb) as Ht.
    unfold is_cached in Ht. rewrite Hd, En, !Z.eqb_refl in Ht. done.
Qed.

Lemma head_buf c s order : refines c s order -> exists h, bufs c !! HEAD = Some h.
Proof. intros R. apply lookup_lt_is_Some_2. rewrite (rf_len _ _ _ R). unfold HEAD. lia. Qed.

Lemma refines_eta c s order : refines c s order -> c = mk_bstate (bufs c) (disk s) (written s) (mypid c).
Proof. intros R. rewrite <- (rf_disk _ _ _ R), <- (rf_written _ _ _ R). by destruct c. Qed.

(** [bread] of a block whose buffer is cached. *)
Lemma sim_bread_cached c s order n i b :
  refines c s order -> (i < NBUF)%nat -> bufs c !! i = Some b -> dev b = 1 -> blockno b = n -> n ∉ bheld s ->
  wp (set_buf i (fun b => {| b with refcnt := refcnt b + 1 |}) ;; acquiresleep i ;; mret i)
    (fun j c' => j = i /\ refines c' {| s with bheld := n :: bheld s |} order /\ names c' i n /\
       exists b', bufs c' !! i = Some b' /\ has (flags b') B_VALID = true) c.
Proof.
  intros R Hi Hb Hd Hn Hh. rewrite (refines_eta _ _ _ R). rewrite wp_bind, wp_set_buf, wp_bind.
  destruct (rf_buf _ _ _ R i b Hi Hb) as [Hd0 _ _ _|_ Hv Hf Hr Hl]; [congruence|]. rewrite Hn in *. rewrite decide_False in Hr by done.
  rewrite decide_False in Hl by done.
  eapply wp_acquiresleep; [by rewrite list_lookup_alter_eq, Hb|done|]. rewrite wp_ret, list_alter_alter_eq. unfold compose.
  split; [done|]. set (s' := {| s with bheld := n :: bheld s |}).
  assert (forall m, m ≠ n -> (m ∈ bheld s' <-> m ∈ bheld s)) as Hheld by (intros m Hm; subst s'; cbn; rewrite elem_of_cons; tauto).
  split; [|split].
  - apply (refines_buf c s order i b _ s'); try done.
    + by apply store_ok_bread; [apply R|].
    + apply bk_cached; cbn; rewrite ?Hn; try done; rewrite decide_True by (by left); [lia|done].
    + cbn. rewrite Hn. intros m Hm. split_and!; [done|done|by apply Hheld].
    + left. done.
  - split; [done|]. eexists. cbn [bufs]. rewrite list_lookup_alter_eq, Hb. done.
  - eexists. cbn [bufs]. rewrite list_lookup_alter_eq, Hb. split; [done|]. cbn. rewrite Hf. by case_decide.
Qed.

(** [bread] of a block that is not cached recycles a buffer and reads it. *)
Lemma sim_bread_free c s order n i b :
  refines c s order -> (i < NBUF)%nat -> bufs c !! i = Some b -> is_free b = true ->
  (forall j x, (j < NBUF)%nat -> bufs c !! j = Some x -> dev x = 1 -> blockno x ≠ n) ->
  is_Some (disk s !! n) -> n ∉ bheld s ->
  wp (set_buf i (fun b => {| b with dev := 1; blockno := n; flags := 0; refcnt := 1 |}) ;; acquiresleep i ;;
      b ← get_buf i; when (negb (has (flags b) B_VALID)) (iderw i) ;; mret i)
    (fun j c' => j = i /\ refines c' {| s with bheld := n :: bheld s |} order /\ names c' i n) c.
Proof.
  intros R Hi Hb Hfr Hnc [d Hd] Hh. set (s' := {| s with bheld := n :: bheld s |}). rewrite (refines_eta _ _ _ R). rewrite wp_bind, wp_set_buf, wp_bind.
  unfold is_free in Hfr. bool_hyps.
  assert (n ∉ pinned s) as Hnp.
  { intros Hp. destruct (rf_used _ _ _ R n (or_introl Hp)) as (j & x & Hj & Hx & Hdx & En). by destruct (Hnc j x Hj Hx Hdx). }
  pose proof (so_clean _ (rf_store _ _ _ R) n Hnp Hh) as Hclean.
  assert (lock b = mk_sleeplock 0 0 /\ (dev b = 1 -> blockno b ∉ pinned s /\ blockno b ∉ bheld s)) as [Hl Hold].
  { destruct (rf_buf _ _ _ R i b Hi Hb) as [Hd0 _ _ Hl|_ Hv Hf Hr Hl]; [split; [done|congruence]|].
    destruct (decide (blockno b ∈ bheld s)); [lia|]. destruct (decide (blockno b ∈ pinned s)); [|done].
    exfalso. rewrite Hf in *. done. }
  eapply wp_acquiresleep; [by rewrite list_lookup_alter_eq, Hb|done|]. rewrite list_alter_alter_eq. unfold compose.
  rewrite wp_bind. eapply wp_get_buf; [cbn [bufs]; rewrite list_lookup_alter_eq, Hb; reflexivity|].
  cbn [flags]. change (has 0 B_VALID) with false. cbn [negb when]. rewrite wp_bind. eapply wp_eq.
  { eapply iderw_sync; cbn [bufs bdisk mypid].
    - rewrite list_lookup_alter_eq, Hb. reflexivity.
    - unfold holds. cbn. by rewrite Z.eqb_refl.
    - done.
    - done.
    - cbn. rewrite Hd. eauto. }
  unfold synced. cbn [flags has bufs bdisk bwritten mypid blockno]. change (has 0 B_DIRTY) with false. cbn iota. rewrite list_alter_alter_eq. unfold compose.
  rewrite wp_ret. split; [done|]. split.
  - apply (refines_buf c s order i b _ s'); try done.
    + by apply store_ok_bread; [apply R|].
    + apply bk_cached; cbn; try done.
      * by rewrite Hclean, Hd.
      * by rewrite decide_False by done.
      * by rewrite decide_True by (by left).
      * by rewrite decide_True by (by left).
    + cbn. intros m Hm. split_and!; [done|done|]. rewrite elem_of_cons. tauto.
    + right. split; [done|]. intros j x Hj Hx Hdx. by apply (Hnc j).
  - split; [done|]. eexists. cbn [bufs]. rewrite list_lookup_alter_eq, Hb. done.
Qed.

Lemma sim_bread c s order n s' :
  refines c s order -> Block.bread n s = Ok n s' ->
  wp (bread 1 n) (fun i c' => names c' i n /\ refines c' s' order) c.
Proof.
  intros R H. unfold Block.bread in H. destruct (decide (n ∈ bheld s)) as [|Hh]; [done|].
  destruct (decide (room s n)) as [Hroom|]; [|done]. destruct (disk s !! n) as [d|] eqn:Ed; [|done]. injection H as <-.
  destruct (head_buf c s order R) as [h Hhd]. unfold bread, bget. rewrite !wp_bind, (wp_get_buf HEAD h) by done. rewrite wp_bind.
  apply (wp_bget_search c s order n _ h R Hhd).
  - intros i b Hi Hb Hd Hn. eapply wp_mono; [by apply (sim_bread_cached c s order n i b)|].
    intros j c' (-> & R' & Hnm & b' & Hb' & Hv). rewrite wp_bind, (wp_get_buf i b') by done. rewrite Hv. done.
  - intros Hnc. rewrite wp_bind, (wp_get_buf HEAD h) by done. rewrite wp_bind.
    destruct (free_exists c s order R) as [i Ei].
    { destruct Hroom as [Hp|]; [|done]. destruct (rf_used _ _ _ R n (or_introl Hp)) as (j & x & Hj & Hx & Hdx & En).
      by destruct (Hnc j x Hj Hx Hdx). }
    assert (prv (bufs c) HEAD = prev h) as <- by (unfold prv; by rewrite Hhd). pose proof (rf_ring _ _ _ R) as [Hc _].
    rewrite (wp_eq _ _ _ _ _ (run_bget_free c order HEAD NBUF Hc
      ltac:(intros j Hj; by destruct (ring_bufs _ _ _ _ R Hj) as (_ & ? & ?)) ltac:(by rewrite (Permutation_length (rf_perm _ _ _ R)), length_seq))).
    rewrite Ei. apply first_buf_Some in Ei as (Hi & b & Hb & Hf). rewrite elem_of_reverse in Hi.
    destruct (ring_bufs _ _ _ _ R Hi) as (Hlt & _ & _).
    pose proof (sim_bread_free c s order n i b R Hlt Hb Hf Hnc ltac:(eauto) Hh) as Hw. rewrite !wp_bind in Hw |- *.
    eapply wp_mono; [exact Hw|]. intros u1 c1 H1. rewrite !wp_bind in H1 |- *. eapply wp_mono; [exact H1|].
    intros u2 c2 H2. rewrite wp_ret. eapply wp_mono; [exact H2|]. intros j c3 (-> & ? & ?). done.
Qed.

(** A buffer that the process holds. *)
Lemma held_buf c s order i n :
  refines c s order -> names c i n -> n ∈ bheld s ->
  (i < NBUF)%nat /\ exists b, bufs c !! i = Some b /\ dev b = 1 /\ blockno b = n /\ vw s !! n = Some (data b) /\
    flags b = (if decide (n ∈ pinned s) then 6 else 2) /\ refcnt b = 1 /\ lock b = mk_sleeplock 1 (mypid c) /\ holds c b = true.
Proof.
  intros R (Hi & b & Hb & Hd & Hn) Hh. split; [done|]. exists b.
  destruct (rf_buf _ _ _ R i b Hi Hb) as [Hd0 _ _ _|_ Hv Hf Hr Hl]; [congruence|]. rewrite Hn in *.
  rewrite decide_True in Hr by done. rewrite decide_True in Hl by done. split_and!; try done. unfold holds. rewrite Hl. cbn. apply Z.eqb_refl.
Qed.

Lemma sim_bdata c s order i n d s' :
  refines c s order -> names c i n -> Block.bdata n s = Ok d s' -> buf_data i c = Ok d c /\ s' = s.
Proof.
  intros R Hnm H. unfold Block.bdata in H. destruct (decide (n ∈ bheld s)) as [Hh|]; [|done].
  destruct (held_buf _ _ _ _ _ R Hnm Hh) as (Hi & b & Hb & _ & _ & Hv & _). rewrite Hv in H. injection H as <- <-.
  unfold buf_data. rewrite (bind_run _ _ _ b c) by (unfold get_buf; by rewrite Hb). done.
Qed.

(** Changing a buffer that the process holds, and its block. *)
Lemma sim_held c s order i n f s' b :
  refines c s order -> (i < NBUF)%nat -> bufs c !! i = Some b -> dev b = 1 -> blockno b = n ->
  (forall x, next (f x) = next x) -> (forall x, prev (f x) = prev x) -> dev (f b) = 1 -> blockno (f b) = n ->
  store_ok s' -> buf_ok (mypid c) s' (f b) ->
  (forall m, m ≠ n -> vw s' !! m = vw s !! m /\ (m ∈ pinned s' <-> m ∈ pinned s) /\ (m ∈ bheld s' <-> m ∈ bheld s)) ->
  refines (mk_bstate (alter f i (bufs c)) (disk s') (written s') (mypid c)) s' order /\
  names (mk_bstate (alter f i (bufs c)) (disk s') (written s') (mypid c)) i n.
Proof.
  intros R Hi Hb Hd Hn Hnx Hpv Hdf Hnf Hs Hok Hfr. split.
  - apply (refines_buf c s order i b f s'); try done; [by rewrite Hnf|]. left. by rewrite Hn, Hnf.
  - split; [done|]. eexists. cbn [bufs]. rewrite list_lookup_alter_eq, Hb. done.
Qed.

Lemma sim_set_bdata c s order i n d s' :
  refines c s order -> names c i n -> is_block d -> Block.set_bdata n d s = Ok tt s' ->
  wp (set_buf_data i d) (fun _ c' => refines c' s' order /\ names c' i n) c.
Proof.
  intros R Hnm Hd H. unfold Block.set_bdata in H. destruct (decide (n ∈ bheld s)) as [Hh|]; [|done]. injection H as <-.
  destruct (held_buf _ _ _ _ _ R Hnm Hh) as (Hi & b & Hb & Hdv & Hn & Hv & Hf & Hr & Hl & _).
  rewrite (refines_eta _ _ _ R). unfold set_buf_data. rewrite wp_set_buf.
  apply (sim_held c s order i n _ {| s with vw := <[n := d]> (vw s) |} b); try done.
  - apply store_ok_set; [apply R|done| |done]. apply (so_dom _ (rf_store _ _ _ R)). rewrite Hv. eauto.
  - apply bk_cached; cbn; rewrite ?Hn; try done; [by rewrite lookup_insert_eq|by rewrite decide_True..].
  - intros m Hm. cbn. by rewrite lookup_insert_ne.
Qed.

Lemma sim_pin c s order i n s' :
  refines c s order -> names c i n -> n ∈ bheld s -> Block.bpin n s = Ok tt s' ->
  wp (buf_pin i) (fun _ c' => refines c' s' order /\ names c' i n) c.
Proof.
  intros R Hnm Hh [= <-]. destruct (held_buf _ _ _ _ _ R Hnm Hh) as (Hi & b & Hb & Hdv & Hn & Hv & Hf & Hr & Hl & _).
  rewrite (refines_eta _ _ _ R). unfold buf_pin. rewrite wp_set_buf.
  apply (sim_held c s order i n _ {| s with pinned := {[n]} ∪ pinned s |} b); try done.
  - apply store_ok_pin, R.
  - apply bk_cached; cbn; rewrite ?Hn; try done; [|by rewrite decide_True..]. rewrite decide_True by (apply elem_of_union; left; by apply elem_of_singleton).
    rewrite Hf. by case_decide.
  - intros m Hm. cbn. split_and!; [done| |done]. rewrite elem_of_union, elem_of_singleton. tauto.
Qed.

Lemma sim_bwrite c s order i n s' :
  refines c s order -> names c i n -> Block.bwrite n s = Ok tt s' ->
  wp (bwrite i) (fun _ c' => refines c' s' order /\ names c' i n) c.
Proof.
  intros R Hnm H. unfold Block.bwrite in H. destruct (decide (n ∈ bheld s)) as [Hh|]; [|done].
  destruct (held_buf _ _ _ _ _ R Hnm Hh) as (Hi & b & Hb & Hdv & Hn & Hv & Hf & Hr & Hl & Hho). rewrite Hv in H. injection H as <-.
  unfold bwrite. rewrite wp_bind, (wp_holdingsleep i b) by done. cbn [negb]. rewrite (refines_eta _ _ _ R). rewrite wp_bind, wp_set_buf.
  assert (Z.lor (flags b) B_DIRTY = 6) as Ef by (rewrite Hf; by case_decide).
  eapply wp_eq.
  { eapply iderw_sync; cbn [bufs bdisk mypid].
    - rewrite list_lookup_alter_eq, Hb. reflexivity.
    - exact Hho.
    - cbn [flags]. rewrite Ef. done.
    - done.
    - cbn [blockno]. rewrite Hn. apply (so_dom _ (rf_store _ _ _ R)). rewrite Hv. eauto. }
  unfold synced. cbn [flags bufs bdisk bwritten mypid blockno data]. rewrite Ef. change (has 6 B_DIRTY) with true. cbn iota.
  rewrite list_alter_alter_eq, Hn. unfold compose.
  match goal with |- refines (mk_bstate (alter ?f i _) _ _ _) ?t _ /\ _ => pose proof (sim_held c s order i n f t b) as Hsim end.
  apply Hsim; clear Hsim; try done.
  - by apply store_ok_write; [apply R|..].
  - apply bk_cached; cbn; rewrite ?Hn; try done; [|by rewrite decide_True..].
    rewrite decide_False by (rewrite elem_of_difference, elem_of_singleton; tauto). by rewrite Ef.
  - intros m Hm. cbn. split_and!; [done| |done]. rewrite elem_of_difference, elem_of_singleton. tauto.
Qed.

(** *** Moving a buffer to the front *)

(** All of a buffer but its links. *)
Definition strip (b : buf) : buf := {| b with prev := O; next := O |}.
(** The array [bs] differs from [bs0] in the links only, which are [nx] and [pv]. *)
Record linked (bs0 : list buf) (nx pv : nat -> nat) (bs : list buf) : Prop := {
  lk_strip : strip <$> bs = strip <$> bs0;
  lk_nxt : forall x, (x <= HEAD)%nat -> nxt bs x = nx x;
  lk_prv : forall x, (x <= HEAD)%nat -> prv bs x = pv x
}.
Lemma buf_ok_strip pid s b b0 : strip b = strip b0 -> buf_ok pid s b0 -> buf_ok pid s b.
Proof.
  intros E. apply buf_ok_strip_fields; [by apply (f_equal flags) in E|by apply (f_equal dev) in E|by apply (f_equal blockno) in E|
    by apply (f_equal lock) in E|by apply (f_equal refcnt) in E|by apply (f_equal data) in E].
Qed.
Lemma linked_refl bs : linked bs (nxt bs) (prv bs) bs.
Proof. by split. Qed.
Lemma linked_length bs0 nx pv bs : linked bs0 nx pv bs -> length bs = length bs0.
Proof. intros [H _ _]. apply (f_equal length) in H. by rewrite !length_fmap in H. Qed.

Lemma strip_alter f i (bs : list buf) : (forall b, strip (f b) = strip b) -> strip <$> alter f i bs = strip <$> bs.
Proof.
  intros Hf. apply list_eq. intros j. rewrite !list_lookup_fmap. destruct (decide (i = j)) as [<-|]; [|by rewrite list_lookup_alter_ne].
  rewrite list_lookup_alter_eq. destruct (bs !! i); cbn; [by rewrite Hf|done].
Qed.
Lemma nxt_set i n bs x : (i < length bs)%nat -> nxt (alter (fun b => {| b with next := n |}) i bs) x = upd (nxt bs) i n x.
Proof.
  intros Hi. unfold upd. case_decide as E; [subst x|].
  - unfold nxt. rewrite list_lookup_alter_eq. destruct (lookup_lt_is_Some_2 bs i Hi) as [b ->]. done.
  - unfold nxt. by rewrite list_lookup_alter_ne.
Qed.
Lemma prv_set i n bs x : (i < length bs)%nat -> prv (alter (fun b => {| b with prev := n |}) i bs) x = upd (prv bs) i n x.
Proof.
  intros Hi. unfold upd. case_decide as E; [subst x|].
  - unfold prv. rewrite list_lookup_alter_eq. destruct (lookup_lt_is_Some_2 bs i Hi) as [b ->]. done.
  - unfold prv. by rewrite list_lookup_alter_ne.
Qed.

Section Links.
Context (bs0 : list buf) (dk : gmap Z (list Z)) (w : list (Z * list Z)) (p : Z).
Context (Hlen : length bs0 = S HEAD).
Implicit Types nx pv : nat -> nat.

Lemma wp_links_get nx pv bs i (Q : buf -> bstate -> Prop) :
  linked bs0 nx pv bs -> (i <= HEAD)%nat ->
  (forall b, next b = nx i -> prev b = pv i -> Q b (mk_bstate bs dk w p)) -> wp (get_buf i) Q (mk_bstate bs dk w p).
Proof.
  intros Hl Hi HQ. destruct (lookup_lt_is_Some_2 bs i) as [b Hb]; [rewrite (linked_length _ _ _ _ Hl), Hlen; lia|].
  apply (wp_get_buf i b); [done|]. apply HQ.
  - rewrite <- (lk_nxt _ _ _ _ Hl i Hi). unfold nxt. by rewrite Hb.
  - rewrite <- (lk_prv _ _ _ _ Hl i Hi). unfold prv. by rewrite Hb.
Qed.
Lemma wp_links_next nx pv bs i n (Q : unit -> bstate -> Prop) :
  linked bs0 nx pv bs -> (i <= HEAD)%nat ->
  (forall bs', linked bs0 (upd nx i n) pv bs' -> Q tt (mk_bstate bs' dk w p)) -> wp (set_next i n) Q (mk_bstate bs dk w p).
Proof.
  intros Hl Hi HQ. unfold set_next. rewrite wp_set_buf. apply HQ. pose proof (linked_length _ _ _ _ Hl) as El. destruct Hl as [H1 H2 H3]. split.
  - rewrite strip_alter; done.
  - intros x Hx. rewrite nxt_set by lia. unfold upd. case_decide; [done|auto].
  - intros x Hx. rewrite prv_alter by done. auto.
Qed.
Lemma wp_links_prev nx pv bs i n (Q : unit -> bstate -> Prop) :
  linked bs0 nx pv bs -> (i <= HEAD)%nat ->
  (forall bs', linked bs0 nx (upd pv i n) bs' -> Q tt (mk_bstate bs' dk w p)) -> wp (set_prev i n) Q (mk_bstate bs dk w p).
Proof.
  intros Hl Hi HQ. unfold set_prev. rewrite wp_set_buf. apply HQ. pose proof (linked_length _ _ _ _ Hl) as El. destruct Hl as [H1 H2 H3]. split.
  - rewrite strip_alter; done.
  - intros x Hx. rewrite nxt_alter by done. auto.
  - intros x Hx. rewrite prv_set by lia. unfold upd. case_decide; [done|auto].
Qed.
End Links.

Lemma ring_range nx pv order x :
  ring nx pv order -> x ∈ HEAD :: order -> nx x ∈ HEAD :: order /\ pv x ∈ HEAD :: order.
Proof.
  intros [Hc _] Hx. split.
  - apply list_elem_of_split in Hx as (A & B & E). assert (exists y B', B ++ [HEAD] = y :: B') as (y & B' & EB) by (destruct B; cbn; eauto).
    rewrite app_comm_cons, E, <- app_assoc in Hc. cbn [app] in Hc. rewrite EB in Hc. apply chain_app in Hc as [_ (-> & _)].
    assert (y ∈ HEAD :: order ++ [HEAD]) as Hy by (rewrite app_comm_cons, E, <- app_assoc; cbn [app]; rewrite EB; apply elem_of_app; right; right; by left).
    rewrite elem_of_cons, elem_of_app, list_elem_of_singleton in Hy. rewrite elem_of_cons. tauto.
  - assert (x ∈ order ++ [HEAD]) as Hx'.
    { rewrite elem_of_cons in Hx. rewrite elem_of_app, list_elem_of_singleton. tauto. }
    apply list_elem_of_split in Hx' as (A & B & E). destruct (exists_last (l := HEAD :: A)) as (A' & y & EA); [done|].
    rewrite E, app_comm_cons, EA, <- app_assoc in Hc. cbn [app] in Hc. apply chain_app in Hc as [_ (_ & -> & _)].
    assert (y ∈ HEAD :: order ++ [HEAD]) as Hy by (rewrite E, app_comm_cons, EA, <- app_assoc; apply elem_of_app; right; by left).
    rewrite elem_of_cons, elem_of_app, list_elem_of_singleton in Hy. rewrite elem_of_cons. tauto.
Qed.
Lemma order_le c s order order' nx pv x :
  refines c s order -> ring nx pv order' -> (forall y, y ∈ order' -> y ∈ order) -> x ∈ HEAD :: order' ->
  (nx x <= HEAD)%nat /\ (pv x <= HEAD)%nat.
Proof.
  intros R Hr Hsub Hx. destruct (ring_range _ _ _ _ Hr Hx) as [Hn Hp].
  assert (forall y, y ∈ HEAD :: order' -> (y <= HEAD)%nat) as Hle; [|by split; apply Hle].
  intros y [->|Hy%Hsub]%elem_of_cons; [done|]. destruct (ring_bufs _ _ _ _ R Hy) as (? & _). unfold HEAD. lia.
Qed.

(** The links do not matter to what the buffers represent. *)
Lemma refines_links c s order bs nx pv order' :
  refines c s order -> linked (bufs c) nx pv bs -> ring nx pv order' -> order' ≡ₚ order ->
  refines (mk_bstate bs (disk s) (written s) (mypid c)) s order'.
Proof.
  intros [R1 R2 R3 R4 R5 R6 R7 R8 R9] Hl Hr Hp. pose proof (linked_length _ _ _ _ Hl) as El. destruct Hl as [L1 L2 L3].
  assert (forall i b, bs !! i = Some b -> exists b0, bufs c !! i = Some b0 /\ strip b = strip b0) as Hfw.
  { intros i b Hb. apply (f_equal (.!! i)) in L1. rewrite !list_lookup_fmap, Hb in L1. cbn in L1.
    destruct (bufs c !! i) as [b0|]; [|done]. exists b0. split; [done|]. cbn in L1. congruence. }
  assert (forall i b0, bufs c !! i = Some b0 -> exists b, bs !! i = Some b /\ strip b = strip b0) as Hbw.
  { intros i b0 Hb. apply (f_equal (.!! i)) in L1. rewrite !list_lookup_fmap, Hb in L1. cbn in L1.
    destruct (bs !! i) as [b|]; [|done]. exists b. split; [done|]. cbn in L1. congruence. }
  assert (forall b b0, strip b = strip b0 -> dev b = dev b0 /\ blockno b = blockno b0) as Hst.
  { intros b b0 E. split; [by apply (f_equal dev) in E|by apply (f_equal blockno) in E]. }
  split; cbn [bufs bdisk bwritten mypid]; try done.
  - lia.
  - assert (forall x, x ∈ HEAD :: order' -> (x <= HEAD)%nat) as Hle.
    { intros x [->|Hx]%elem_of_cons; [done|]. rewrite Hp, R3, elem_of_seq in Hx. unfold HEAD. lia. }
    eapply ring_proper; [| |exact Hr]; intros x Hx; [apply L2|apply L3]; auto.
  - by rewrite Hp.
  - intros i b Hi Hb. destruct (Hfw i b Hb) as (b0 & Hb0 & E). eapply buf_ok_strip; [exact E|]. by eapply R7.
  - intros i j b b' Hi Hj Hb Hb' Hd Hd' En. destruct (Hfw i b Hb) as (x & Hx & [E1 E2]%Hst), (Hfw j b' Hb') as (y & Hy & [E3 E4]%Hst).
    apply (R8 i j x y); congruence.
  - intros n Hn. destruct (R9 n Hn) as (i & x & Hi & Hx & Hd & En). destruct (Hbw i x Hx) as (b & Hb & [E1 E2]%Hst).
    exists i, b. split_and!; [done|done|congruence|congruence].
Qed.

Lemma order_split c s order i : refines c s order -> (i < NBUF)%nat -> exists l1 l2, order = l1 ++ i :: l2.
Proof. intros R Hi. apply list_elem_of_split. by eapply order_bufs. Qed.

(** The end of [brelse]. *)
Lemma sim_to_front c s order i n :
  refines c s order -> names c i n ->
  wp (b ← get_buf i;
      set_prev (next b) (prev b) ;;
      b ← get_buf i;
      set_next (prev b) (next b) ;;
      h ← get_buf HEAD;
      set_next i (next h) ;;
      set_prev i HEAD ;;
      h ← get_buf HEAD;
      set_prev (next h) i ;;
      set_next HEAD i)
    (fun _ c' => exists l1 l2, order = l1 ++ i :: l2 /\ refines c' s (i :: l1 ++ l2)) c.
Proof.
  intros R Hnm. destruct Hnm as [Hi _]. destruct (order_split c s order i R Hi) as (l1 & l2 & ->).
  pose proof (rf_len _ _ _ R) as Hlen. change (S NBUF) with (S HEAD) in Hlen.
  destruct (ring_unlink _ _ _ _ _ (rf_ring _ _ _ R)) as (Hu & Hni & Hpi & Hin).
  pose proof (ring_push _ _ _ i Hu Hin) as Hpush.
  destruct (order_le c s (l1 ++ i :: l2) (l1 ++ i :: l2) _ _ i R (rf_ring _ _ _ R)) as [Bn Bp]; [done|set_solver|].
  destruct (order_le c s (l1 ++ i :: l2) (l1 ++ l2) _ _ HEAD R Hu) as [Bh _]; [set_solver|by left|].
  assert (i <= HEAD)%nat as Bi by (unfold HEAD; lia). assert (HEAD ≠ i) as HiH by (unfold HEAD; lia).
  set (nx := nxt (bufs c)) in *. set (pv := prv (bufs c)) in *. rewrite (refines_eta _ _ _ R).
  pose proof (linked_refl (bufs c)) as Hl. fold nx pv in Hl.
  rewrite wp_bind. eapply (wp_links_get _ _ _ _ Hlen); [exact Hl|done|]. intros b -> ->.
  rewrite wp_bind. eapply (wp_links_prev _ _ _ _ Hlen); [exact Hl|done|]. clear Hl. intros bs1 Hl.
  rewrite wp_bind. eapply (wp_links_get _ _ _ _ Hlen); [exact Hl|done|]. intros b1 -> ->. rewrite (upd_ne pv) by done.
  rewrite wp_bind. eapply (wp_links_next _ _ _ _ Hlen); [exact Hl|done|]. clear Hl. intros bs2 Hl.
  rewrite wp_bind. eapply (wp_links_get _ _ _ _ Hlen); [exact Hl|done|]. intros h -> _.
  rewrite wp_bind. eapply (wp_links_next _ _ _ _ Hlen); [exact Hl|done|]. clear Hl. intros bs3 Hl.
  rewrite wp_bind. eapply (wp_links_prev _ _ _ _ Hlen); [exact Hl|done|]. clear Hl. intros bs4 Hl.
  rewrite wp_bind. eapply (wp_links_get _ _ _ _ Hlen); [exact Hl|done|]. intros h2 -> _. rewrite (upd_ne _ i) by done.
  rewrite wp_bind. eapply (wp_links_prev _ _ _ _ Hlen); [exact Hl|done|]. clear Hl. intros bs5 Hl.
  eapply (wp_links_next _ _ _ _ Hlen); [exact Hl|done|]. clear Hl. intros bs6 Hl.
  exists l1, l2. split; [done|]. eapply refines_links; [exact R|exact Hl|exact Hpush|]. by rewrite Permutation_middle.
Qed.

Lemma sim_brelse c s order i n s' :
  refines c s order -> names c i n -> Block.brelse n s = Ok tt s' ->
  wp (brelse i) (fun _ c' => exists l1 l2, order = l1 ++ i :: l2 /\ refines c' s' (i :: l1 ++ l2)) c.
Proof.
  intros R Hnm H. unfold Block.brelse in H. destruct (decide (n ∈ bheld s)) as [Hh|]; [|done].
  destruct (decide (n ∈ pinned s \/ vw s !! n = disk s !! n)) as [Hcl|]; [|done]. injection H as <-.
  destruct (held_buf _ _ _ _ _ R Hnm Hh) as (Hi & b & Hb & Hdv & Hn & Hv & Hf & Hr & Hl & Hho).
  unfold brelse. rewrite wp_bind, (wp_holdingsleep i b) by done. cbn [negb]. rewrite (refines_eta _ _ _ R).
  rewrite wp_bind. unfold releasesleep. rewrite wp_set_buf, wp_bind, wp_set_buf, list_alter_alter_eq. unfold compose.
  set (s' := {| s with bheld := filter (.≠ n) (bheld s) |}).
  assert (n ∉ bheld s') as Hnh by (subst s'; cbn; rewrite list_elem_of_filter; tauto).
  match goal with |- context [alter ?f i (bufs c)] => destruct (sim_held c s order i n f s' b) as [R' Hnm'] end; try done.
  { apply store_ok_relse; [apply R|done]. }
  { apply bk_cached; cbn; rewrite ?Hn; try done; rewrite decide_False by done; [lia|done]. }
  { intros m Hm. subst s'. cbn. split_and!; [done|done|]. rewrite list_elem_of_filter. tauto. }
  pose proof (sim_to_front _ _ _ _ _ R' Hnm') as Hw. cbn [mypid] in *. change (disk s') with (disk s) in *. change (written s') with (written s) in *.
  rewrite wp_bind in Hw |- *.
  match type of Hw with wp _ _ ?c1 => assert (exists x, bufs c1 !! i = Some x /\ refcnt x = 0) as (x & Hx & Hrx) end.
  { eexists. cbn [bufs]. rewrite list_lookup_alter_eq, Hb. split; [reflexivity|]. cbn. lia. }
  rewrite (wp_get_buf i x) in Hw by exact Hx. rewrite (wp_get_buf i x) by exact Hx. rewrite Hrx. exact Hw.
Qed.

(** C10. The buffer cache implements the block store. Whenever an operation of the
    store returns, the operation of bio.c on the buffer of the block returns
    too and corresponds to it: [bread] finds the cached buffer or recycles one
    without losing data that is not on the disk, and presents the contents of
    the block; changing, pinning and writing a held buffer have the effect of
    the store; [brelse] moves the buffer to the front of the list. *)
Theorem bio_refines c s order :
  refines c s order ->
  (forall n s', Block.bread n s = Ok n s' -> wp (bread 1 n) (fun i c' => names c' i n /\ refines c' s' order) c) /\
  (forall i n, names c i n ->
     (forall d s', Block.bdata n s = Ok d s' -> buf_data i c = Ok d c /\ s' = s) /\
     (forall d s', is_block d -> Block.set_bdata n d s = Ok tt s' ->
        wp (set_buf_data i d) (fun _ c' => refines c' s' order /\ names c' i n) c) /\
     (forall s', n ∈ bheld s -> Block.bpin n s = Ok tt s' -> wp (buf_pin i) (fun _ c' => refines c' s' order /\ names c' i n) c) /\
     (forall s', Block.bwrite n s = Ok tt s' -> wp (bwrite i) (fun _ c' => refines c' s' order /\ names c' i n) c) /\
     (forall s', Block.brelse n s = Ok tt s' ->
        wp (brelse i) (fun _ c' => exists l1 l2, order = l1 ++ i :: l2 /\ refines c' s' (i :: l1 ++ l2)) c)).
Proof.
  intros R. split; [by intros; apply (sim_bread c s)|]. intros i n Hnm. split_and!; intros.
  - by eapply sim_bdata.
  - by eapply sim_set_bdata.
  - by eapply sim_pin.
  - by eapply sim_bwrite.
  - by eapply sim_brelse.
Qed.

End Ops.

(** ** The disk in memory is a device *)

#[export] Instance memide : Device.
Proof.
  refine {| iderw := memide_iderw |}. intros i b s Hb Hh Hf Hd [p Hp]. unfold memide_iderw.
  assert (holdingsleep i s = Ok true s) as Ehold.
  { unfold holdingsleep. rewrite (bind_run _ _ _ b s) by (unfold get_buf; by rewrite Hb).
    rewrite (bind_run _ _ _ (mypid s) s) by done. unfold holds in Hh. by rewrite Hh. }
  rewrite (bind_run _ _ _ true s) by done. cbn [negb]. rewrite (bind_run _ _ _ b s) by (unfold get_buf; by rewrite Hb).
  destruct (Z.eqb_spec (Z.land (flags b) (Z.lor B_VALID B_DIRTY)) B_VALID); [done|]. rewrite Hd. cbn [negb Z.eqb Pos.eqb].
  rewrite (bind_run _ _ _ (Some p) s) by (unfold gets; by rewrite Hp). unfold synced.
  destruct (has (flags b) B_DIRTY); destruct s as [bs dk w pid]; cbv beta iota delta [mbind M_bind set_buf modify];
    cbn [bufs bdisk bwritten mypid] in *.
  - by rewrite list_alter_alter_eq.
  - rewrite list_alter_alter_eq, Hp. done.
Defined.

(** ** Initialisation *)

Definition boot_bufs : list buf := replicate (S NBUF) buf_zero.
Definition boot_store (d : gmap Z (list Z)) : store := mk_store d d ∅ [] [].

Lemma boot_store_ok d : (forall b x, d !! b = Some x -> is_block x) -> store_ok (boot_store d).
Proof. intros Hd. split; stc; try done. apply NoDup_nil_2. Qed.

Section Init.
Context (dk : gmap Z (list Z)) (p : Z).

Lemma boot_len : length boot_bufs = S HEAD.
Proof. done. Qed.
Lemma wp_links_init nx pv bs i (Q : unit -> bstate -> Prop) :
  linked boot_bufs nx pv bs -> Q tt (mk_bstate bs dk [] p) -> wp (initsleeplock i) Q (mk_bstate bs dk [] p).
Proof.
  intros Hl HQ. unfold initsleeplock. rewrite wp_set_buf. replace (alter _ i bs) with bs; [done|].
  apply list_eq. intros j. destruct (decide (i = j)) as [<-|]; [|by rewrite list_lookup_alter_ne]. rewrite list_lookup_alter_eq.
  destruct (bs !! i) as [b|] eqn:Hb; [|done]. cbn. f_equal.
  pose proof (lk_strip _ _ _ _ Hl) as E. apply (f_equal (.!! i)) in E. rewrite !list_lookup_fmap, Hb in E. cbn [fmap option_fmap option_map] in E.
  destruct (boot_bufs !! i) as [b0|] eqn:Hb0; [|done]. cbn in E. apply lookup_replicate in Hb0 as [-> _].
  assert (strip b = strip buf_zero) as E' by congruence. apply (f_equal lock) in E'. cbn in E'. destruct b. cbn in *. by subst.
Qed.

Lemma wp_binit_one nx pv bs i order (Q : unit -> bstate -> Prop) :
  linked boot_bufs nx pv bs -> ring nx pv order -> (i < NBUF)%nat -> i ∉ order -> (forall x, x ∈ order -> (x < NBUF)%nat) ->
  (forall nx' pv' bs', linked boot_bufs nx' pv' bs' -> ring nx' pv' (i :: order) -> Q tt (mk_bstate bs' dk [] p)) ->
  wp (binit_one i) Q (mk_bstate bs dk [] p).
Proof.
  intros Hl Hr Hi Hni Ho HQ. assert (i <= HEAD)%nat as Bi by (unfold HEAD; lia). assert (HEAD ≠ i) as HiH by (unfold HEAD; lia).
  assert (nx HEAD <= HEAD)%nat as Bh.
  { destruct (ring_range _ _ _ HEAD Hr) as [Hn _]; [by left|]. apply elem_of_cons in Hn as [->|Hn]; [done|]. apply Ho in Hn. unfold HEAD in *. lia. }
  pose proof (ring_push nx pv order i Hr) as Hpush. unfold binit_one.
  rewrite wp_bind. eapply (wp_links_get _ _ _ _ boot_len); [exact Hl|done|]. intros h -> _.
  rewrite wp_bind. eapply (wp_links_next _ _ _ _ boot_len); [exact Hl|done|]. clear Hl. intros bs1 Hl.
  rewrite wp_bind. eapply (wp_links_prev _ _ _ _ boot_len); [exact Hl|done|]. clear Hl. intros bs2 Hl.
  rewrite wp_bind. eapply wp_links_init; [exact Hl|].
  rewrite wp_bind. eapply (wp_links_get _ _ _ _ boot_len); [exact Hl|done|]. intros h2 -> _. rewrite (upd_ne _ i) by done.
  rewrite wp_bind. eapply (wp_links_prev _ _ _ _ boot_len); [exact Hl|done|]. clear Hl. intros bs3 Hl.
  eapply (wp_links_next _ _ _ _ boot_len); [exact Hl|done|]. clear Hl. intros bs4 Hl.
  eapply HQ; [exact Hl|]. apply Hpush. by apply not_elem_of_cons.
Qed.

Lemma wp_binit_loop Q : forall n k nx pv bs order,
  (k + n = NBUF)%nat -> linked boot_bufs nx pv bs -> ring nx pv order -> order = reverse (seq 0 k) ->
  (forall nx' pv' bs', linked boot_bufs nx' pv' bs' -> ring nx' pv' (reverse (seq 0 NBUF)) -> Q tt (mk_bstate bs' dk [] p)) ->
  wp (for_each (seq k n) binit_one) Q (mk_bstate bs dk [] p).
Proof.
  induction n as [|n IH]; intros k nx pv bs order Hk Hl Hr -> HQ.
  - rewrite Nat.add_0_r in Hk. subst k. cbn. by eapply HQ.
  - cbn [seq for_each]. rewrite wp_bind. eapply wp_binit_one; [exact Hl|exact Hr|lia| | |].
    + rewrite elem_of_reverse, elem_of_seq. lia.
    + intros x. rewrite elem_of_reverse, elem_of_seq. lia.
    + intros nx' pv' bs' Hl' Hr'. eapply IH; [lia|exact Hl'|exact Hr'| |done]. rewrite seq_S, reverse_snoc. done.
Qed.

(** [binit] makes an empty cache, whose list has the last buffer first. *)
Lemma binit_refines :
  (forall b x, dk !! b = Some x -> is_block x) ->
  wp binit (fun _ c' => refines c' (boot_store dk) (reverse (seq 0 NBUF)) /\ mypid c' = p) (mk_bstate boot_bufs dk [] p).
Proof.
  intros Hd. unfold binit. pose proof (linked_refl boot_bufs) as Hl.
  rewrite wp_bind. eapply (wp_links_prev _ _ _ _ boot_len); [exact Hl|done|]. clear Hl. intros bs1 Hl.
  rewrite wp_bind. eapply (wp_links_next _ _ _ _ boot_len); [exact Hl|done|]. clear Hl. intros bs2 Hl.
  eapply (wp_binit_loop _ NBUF 0); [done|exact Hl| |done|].
  { split; [|apply NoDup_singleton]. cbn. rewrite !upd_eq. done. }
  clear Hl bs1 bs2. intros nx pv bs Hl Hr. split; [|done].
  assert (forall i b, bs !! i = Some b -> strip b = strip buf_zero) as Hz.
  { intros i b Hb. pose proof (lk_strip _ _ _ _ Hl) as E. apply (f_equal (.!! i)) in E. rewrite !list_lookup_fmap, Hb in E.
    destruct (boot_bufs !! i) as [b0|] eqn:Hb0; [|done]. apply lookup_replicate in Hb0 as [-> _]. cbn in E. congruence. }
  split; cbn [bufs bdisk bwritten mypid]; try done.
  - apply (linked_length _ _ _ _ Hl).
  - eapply ring_proper; [| |exact Hr]; intros x Hx; [apply (lk_nxt _ _ _ _ Hl)|apply (lk_prv _ _ _ _ Hl)];
      apply elem_of_cons in Hx as [->|Hx]; try done; rewrite elem_of_reverse, elem_of_seq in Hx; unfold HEAD; lia.
  - apply reverse_Permutation.
  - by apply boot_store_ok.
  - intros i b _ Hb. eapply buf_ok_strip; [by eapply Hz|]. by apply bk_new.
  - intros i j b b' _ _ Hb _ Hd1. apply Hz in Hb. apply (f_equal dev) in Hb. cbn in Hb. congruence.
  - intros n [Hn|Hn]; [by apply not_elem_of_empty in Hn|by apply elem_of_nil in Hn].
Qed.
End Init.

(** ** Witnesses *)

(** After [binit], reading a block of a disk that has it. *)
Lemma bio_refines_witness :
  exists c s order, refines c s order /\ wp (bread 1 7) (fun i c' => names c' i 7) c.
Proof.
  destruct (proj1 (wp_Ok _ _ _) (binit_refines {[ 7 := replicate 512 0 ]} 3
    ltac:(intros b x [<- <-]%lookup_singleton_Some; split; [reflexivity|apply Forall_replicate; lia]))) as (r & c & _ & R & _).
  exists c, (boot_store {[ 7 := replicate 512 0 ]}), (reverse (seq 0 NBUF)). split; [exact R|].
  eapply wp_mono; [eapply (bio_refines c _ _ R); reflexivity|]. intros i c' H. apply H.
Defined.
