(* ===== verification/Ide.v ===== *)
(** The disk driver (ide.c): the queue of requests, threaded through the
    buffers, and the controller, which is programmed through its ports. The
    driver implements the interface that the buffer cache is verified against,
    as the disk in memory of memide.c does; several requests are served in the
    order of their arrival. *)

From S2P Require Import Prelude Mmu Files Block Bio.
From stdpp Require Import base gmap list strings.
From Stdlib Require Import ZArith Lia.
Open Scope Z_scope.

Definition SECTOR_SIZE : Z := 512.
Definition IDE_BSY : Z := 0x80.
Definition IDE_DRDY : Z := 0x40.
Definition IDE_DF : Z := 0x20.
Definition IDE_ERR : Z := 0x01.
Definition IDE_CMD_READ : Z := 0x20.
Definition IDE_CMD_WRITE : Z := 0x30.
Definition IDE_CMD_RDMUL : Z := 0xc4.
Definition IDE_CMD_WRMUL : Z := 0xc5.

(** ** State

    The buffers and the contents of disk 1 are those of the buffer cache. The
    controller: the bytes written to its ports, for how many polls it will
    still be busy, whether it reports an error, and the command it executes
    (write or read, disk, sector). *)
Record ide := mk_ide {
  cache : bstate;
  disk0 : gmap Z (list Z);
  qnext : gmap nat nat;
  idequeue : option nat;
  havedisk1 : bool;
  idelock : bool;
  woken : list nat;
  regs : gmap Z Z;
  busy : nat;
  failing : bool;
  command : option (bool * Z * Z)
}.

Definition acquire_ide : M ide unit := fun s => if idelock s then Panic "acquire" else Ok tt {| s with idelock := true |}.
Definition release_ide : M ide unit := fun s => if idelock s then Ok tt {| s with idelock := false |} else Panic "release".
(** Operations of the buffer cache. *)
Definition in_cache {A} (m : M bstate A) : M ide A := zoom cache (fun c s => {| s with cache := c |}) m.

(** ** The controller *)

Definition reg (s : ide) (p : Z) : Z := default 0 (regs s !! p).
Definition inb_status : M ide Z := fun s =>
  match busy s with
  | S n => Ok IDE_BSY {| s with busy := n |}
  | O => Ok (if failing s then Z.lor IDE_DRDY IDE_ERR else IDE_DRDY) s
  end.
(** The disk and the sector that the registers select. *)
Definition selected (s : ide) : Z * Z :=
  (Z.land (Z.shiftr (reg s 0x1f6) 4) 1, reg s 0x1f3 + 256 * reg s 0x1f4 + 65536 * reg s 0x1f5 + 16777216 * Z.land (reg s 0x1f6) 0x0f).
Definition outb (p v : Z) : M ide unit := fun s =>
  let s' := {| s with regs := <[p := u8 v]> (regs s) |} in
  if p =? 0x1f7 then
    let '(d, sec) := selected s in
    Ok tt {| s' with command := Some ((v =? IDE_CMD_WRITE) || (v =? IDE_CMD_WRMUL), d, sec) |}
  else Ok tt s'.
Definition outsl (b : list Z) : M ide unit := fun s =>
  match command s with
  | Some (true, d, sec) =>
      if d =? 1 then
        let c := cache s in
        Ok tt {| s with cache := {| c with bdisk := <[sec := b]> (bdisk c); bwritten := bwritten c ++ [(sec, b)] |} |}
      else Ok tt {| s with disk0 := <[sec := b]> (disk0 s) |}
  | _ => UB
  end.
Definition insl : M ide (list Z) := fun s =>
  match command s with
  | Some (false, d, sec) => Ok (default [] ((if d =? 1 then bdisk (cache s) else disk0 s) !! sec)) s
  | _ => UB
  end.

(** ** The driver *)

Fixpoint idewait_loop (fuel : nat) : M ide Z :=
  r ← inb_status;
  if negb (Z.land r (Z.lor IDE_BSY IDE_DRDY) =? IDE_DRDY) then
    match fuel with O => diverge | S fuel' => idewait_loop fuel' end
  else mret r.
Definition idewait (checkerr : bool) : M ide Z :=
  n ← gets busy;
  r ← idewait_loop n;
  mret (if checkerr && negb (Z.land r (Z.lor IDE_DF IDE_ERR) =? 0) then -1 else 0).

Definition idestart (b : option nat) : M ide unit :=
  match b with
  | None => panic "idestart"
  | Some i =>
      b ← in_cache (get_buf i);
      if FSSIZE <=? blockno b then panic "incorrect blockno" else
      let sector_per_block := BSIZE / SECTOR_SIZE in
      let sector := blockno b * sector_per_block in
      let read_cmd := if sector_per_block =? 1 then IDE_CMD_READ else IDE_CMD_RDMUL in
      let write_cmd := if sector_per_block =? 1 then IDE_CMD_WRITE else IDE_CMD_WRMUL in
      if 7 <? sector_per_block then panic "idestart" else
      idewait false ;;
      outb 0x3f6 0 ;;
      outb 0x1f2 sector_per_block ;;
      outb 0x1f3 (Z.land sector 0xff) ;;
      outb 0x1f4 (Z.land (Z.shiftr sector 8) 0xff) ;;
      outb 0x1f5 (Z.land (Z.shiftr sector 16) 0xff) ;;
      outb 0x1f6 (Z.lor (Z.lor 0xe0 (Z.shiftl (Z.land (dev b) 1) 4)) (Z.land (Z.shiftr sector 24) 0x0f)) ;;
      if has (flags b) B_DIRTY then outb 0x1f7 write_cmd ;; outsl (data b)
      else outb 0x1f7 read_cmd
  end.
Definition wakeup_buf (i : nat) : M ide unit := modify (fun s => {| s with woken := woken s ++ [i] |}).

(** The data of a read, and the flags. *)
Definition complete (i : nat) : M ide unit :=
  b ← in_cache (get_buf i);
  (if negb (has (flags b) B_DIRTY) then
     r ← idewait true;
     when (0 <=? r) (d ← insl; in_cache (Bio.set_buf i (fun b => {| b with data := d |})))
   else mret tt) ;;
  in_cache (Bio.set_buf i (fun b => {| b with flags := Z.lor (flags b) B_VALID |})) ;;
  in_cache (Bio.set_buf i (fun b => {| b with flags := clr (flags b) B_DIRTY |})).
Definition ideintr : M ide unit :=
  acquire_ide ;;
  q ← gets idequeue;
  match q with
  | None => release_ide
  | Some i =>
      modify (fun s => {| s with idequeue := qnext s !! i |}) ;;
      complete i ;;
      wakeup_buf i ;;
      q ← gets idequeue;
      match q with Some _ => idestart q | None => mret tt end ;;
      release_ide
  end.

(** The end of the queue that begins with [i]: where [b] is appended. *)
Fixpoint queue_end (i : nat) (fuel : nat) : M ide nat :=
  n ← gets (fun s => qnext s !! i);
  match n with
  | None => mret i
  | Some j => match fuel with O => diverge | S fuel' => queue_end j fuel' end
  end.
(** The wait for the request: [true] when it has finished, [false] when the
    process sleeps. *)
Definition await (i : nat) : M ide bool :=
  b ← in_cache (get_buf i);
  release_ide ;;
  mret (Z.land (flags b) (Z.lor B_VALID B_DIRTY) =? B_VALID).
Definition iderw_enter (i : nat) : M ide bool :=
  h ← in_cache (holdingsleep i);
  if negb h then panic "iderw: buf not locked" else
  b ← in_cache (get_buf i);
  if Z.land (flags b) (Z.lor B_VALID B_DIRTY) =? B_VALID then panic "iderw: nothing to do" else
  hd ← gets havedisk1;
  if negb (dev b =? 0) && negb hd then panic "iderw: ide disk 1 not present" else
  acquire_ide ;;
  modify (fun s => {| s with qnext := delete i (qnext s) |}) ;;
  q ← gets idequeue;
  match q with
  | None => modify (fun s => {| s with idequeue := Some i |})
  | Some j => n ← gets (fun s => length (bufs (cache s))); k ← queue_end j n; modify (fun s => {| s with qnext := <[k := i]> (qnext s) |})
  end ;;
  q ← gets idequeue;
  when (bool_decide (q = Some i)) (idestart (Some i)) ;;
  await i.
(** ... after a wakeup. *)
Definition iderw_resume (i : nat) : M ide bool := acquire_ide ;; await i.
(** [ideinit]: disk 1 is there if the status of the controller is not 0 within
    a thousand reads. *)
Fixpoint probe (n : nat) : M ide unit :=
  match n with
  | O => mret tt
  | S n' => r ← inb_status; if negb (r =? 0) then modify (fun s => {| s with havedisk1 := true |}) else probe n'
  end.
Definition ideinit : M ide unit :=
  idewait false ;;
  outb 0x1f6 (Z.lor 0xe0 (Z.shiftl 1 4)) ;;
  probe 1000 ;;
  outb 0x1f6 (Z.lor 0xe0 (Z.shiftl 0 4)).

(** ** The queue *)

Fixpoint linked (q : gmap nat nat) (L : list nat) : Prop :=
  match L with
  | [] => True
  | i :: L' => q !! i = head L' /\ linked q L'
  end.
(** The effect of starting a request: a write transfers its data at once. *)
Definition started (b : buf) (c : bstate) : bstate :=
  if has (flags b) B_DIRTY then {| c with bdisk := <[blockno b := data b]> (bdisk c); bwritten := bwritten c ++ [(blockno b, data b)] |} else c.
Definition sync (i : nat) (c : bstate) : bstate := match bufs c !! i with Some b => synced i b c | None => c end.
Definition request (c : bstate) (i : nat) : Prop :=
  exists b, bufs c !! i = Some b /\ dev b = 1 /\ 0 <= blockno b < FSSIZE /\ Z.land (flags b) (Z.lor B_VALID B_DIRTY) ≠ B_VALID.

(** The driver with the requests [L], of which the first one is being executed
    on the cache and disk [c]. *)
Record serves (s : ide) (c : bstate) (L : list nat) : Prop := {
  sv_queue : idequeue s = head L;
  sv_linked : linked (qnext s) L;
  sv_nodup : NoDup L;
  sv_req : Forall (request c) L;
  sv_active : match L with
    | [] => cache s = c
    | i :: _ => exists b, bufs c !! i = Some b /\ cache s = started b c /\ command s = Some (has (flags b) B_DIRTY, 1, blockno b)
    end;
  sv_idle : idelock s = false /\ failing s = false /\ havedisk1 s = true
}.

Lemma wp_in_cache {A} (m : M bstate A) Q s : wp (in_cache m) Q s <-> wp m (fun a c => Q a {| s with cache := c |}) (cache s).
Proof. apply wp_zoom. Qed.
Lemma wp_cached_buf i b Q s : bufs (cache s) !! i = Some b -> wp (in_cache (get_buf i)) Q s <-> Q b s.
Proof. intros H. rewrite wp_in_cache. unfold wp, get_buf. rewrite H. by destruct s. Qed.
Lemma idewait_eq c s : idewait c s = Ok (if c && failing s then -1 else 0) {| s with busy := 0%nat |}.
Proof.
  unfold idewait. unfold mbind at 1, M_bind at 1, gets at 1.
  assert (forall n s, busy s = n -> idewait_loop n s = Ok (if failing s then Z.lor IDE_DRDY IDE_ERR else IDE_DRDY) {| s with busy := 0%nat |}) as H.
  { clear. induction n as [|n IH]; intros s Hn; cbn [idewait_loop]; unfold mbind, M_bind, inb_status; rewrite Hn.
    - replace {| s with busy := 0%nat |} with s by (rewrite <- Hn; by destruct s). by destruct (failing s).
    - cbn. rewrite IH by done. done. }
  unfold mbind, M_bind. rewrite H by done. by destruct (failing s), c.
Qed.
Lemma sector_bytes x : 0 <= x < FSSIZE ->
  u8 (Z.land x 0xff) + 256 * u8 (Z.land (Z.shiftr x 8) 0xff) + 65536 * u8 (Z.land (Z.shiftr x 16) 0xff) = x /\ Z.land (Z.shiftr x 24) 0x0f = 0.
Proof.
  unfold FSSIZE. intros Hx. change 0xff with (Z.ones 8). change 0x0f with (Z.ones 4). rewrite !Z.shiftr_div_pow2, !Z.land_ones by lia. unfold u8.
  change (2 ^ 8) with 256. change (2 ^ 4) with 16. change (2 ^ 16) with 65536. change (2 ^ 24) with 16777216. Z.to_euclidean_division_equations. lia.
Qed.
Lemma wp_outb p v Q s R : p ≠ 0x1f7 -> wp (outb p v) Q {| s with regs := R |} <-> Q tt {| s with regs := <[p := u8 v]> R |}.
Proof. intros H. unfold wp, outb. by rewrite (proj2 (Z.eqb_neq _ _) H). Qed.
Lemma wp_command v Q s d sec :
  selected s = (d, sec) -> wp (outb 0x1f7 v) Q s <-> Q tt {| s with regs := <[0x1f7 := u8 v]> (regs s); command := Some ((v =? IDE_CMD_WRITE) || (v =? IDE_CMD_WRMUL), d, sec) |}.
Proof. intros H. unfold wp, outb. rewrite Z.eqb_refl, H. done. Qed.

Lemma wp_idestart i b Q s :
  bufs (cache s) !! i = Some b -> dev b = 1 -> 0 <= blockno b < FSSIZE ->
  (forall R, Q tt {| s with regs := R; busy := 0%nat; command := Some (has (flags b) B_DIRTY, 1, blockno b); cache := started b (cache s) |}) ->
  wp (idestart (Some i)) Q s.
Proof.
  intros Hb Hd Hn HQ. unfold idestart. rewrite wp_bind, (wp_cached_buf i b) by done. rewrite (proj2 (Z.leb_gt _ _)) by lia.
  change (BSIZE / SECTOR_SIZE) with 1. rewrite Z.mul_1_r. change (1 =? 1) with true. change (7 <? 1) with false. cbn beta iota zeta. rewrite wp_bind, (wp_eq _ _ _ _ _ (idewait_eq _ _)). cbn beta.
  set (s0 := {| s with busy := 0%nat |}). rewrite Hd. destruct (sector_bytes (blockno b) Hn) as [H1 H2]. rewrite H2.
  assert (forall R, Q tt {| s0 with regs := R; command := Some (has (flags b) B_DIRTY, 1, blockno b); cache := started b (cache s0) |}) as HQ0 by exact HQ. clear HQ. clearbody s0.
  match goal with |- wp ?m ?P _ => enough (forall R0, wp m P {| s0 with regs := R0 |}) as Hall by (specialize (Hall (regs s0)); by destruct s0) end. intros R0.
  rewrite wp_bind, wp_outb by done. rewrite wp_bind, wp_outb by done. rewrite wp_bind, wp_outb by done. rewrite wp_bind, wp_outb by done. rewrite wp_bind, wp_outb by done. rewrite wp_bind, wp_outb by done.
  match goal with |- context [ {| s0 with regs := ?x |} ] => set (R := x) end. set (s1 := {| s0 with regs := R |}).
  assert (selected s1 = (1, blockno b)) as Hsel.
  { unfold selected, reg, s1, R. cbn [regs]. rewrite (lookup_insert_eq _ 0x1f6), (lookup_insert_ne _ 0x1f6 0x1f5), (lookup_insert_eq _ 0x1f5) by done.
    rewrite (lookup_insert_ne _ 0x1f6 0x1f4), (lookup_insert_ne _ 0x1f5 0x1f4), (lookup_insert_eq _ 0x1f4) by done.
    rewrite (lookup_insert_ne _ 0x1f6 0x1f3), (lookup_insert_ne _ 0x1f5 0x1f3), (lookup_insert_ne _ 0x1f4 0x1f3), (lookup_insert_eq _ 0x1f3) by done. cbn [default from_option id].
    f_equal. replace (Z.land (u8 (Z.lor (Z.lor 224 (Z.shiftl (Z.land 1 1) 4)) 0)) 15) with 0 by done. lia. }
  destruct (has (flags b) B_DIRTY) eqn:Ed; unfold started in HQ0; rewrite Ed in HQ0.
  - rewrite wp_bind, (wp_command _ _ _ _ _ Hsel). apply HQ0.
  - rewrite (wp_command _ _ _ _ _ Hsel). apply HQ0.
Qed.

Ltac ide_cbn := cbn [cache disk0 qnext idequeue havedisk1 idelock woken regs busy failing command bufs bdisk bwritten mypid].
Lemma wp_cached_set i f Q s : wp (in_cache (Bio.set_buf i f)) Q s <-> Q tt {| s with cache := {| (cache s) with bufs := alter f i (bufs (cache s)) |} |}.
Proof. done. Qed.
Lemma wp_acquire_ide Q s : idelock s = false -> Q tt {| s with idelock := true |} -> wp acquire_ide Q s.
Proof. intros H HQ. unfold wp, acquire_ide. by rewrite H. Qed.
Lemma wp_release_ide Q s : idelock s = true -> Q tt {| s with idelock := false |} -> wp release_ide Q s.
Proof. intros H HQ. unfold wp, release_ide. by rewrite H. Qed.

(** The bits of the two flags are different. *)
Lemma finished_flags f : clr (Z.lor f B_VALID) B_DIRTY = Z.lor (clr f B_DIRTY) B_VALID.
Proof.
  apply Z.bits_inj'. intros n Hn. unfold clr. rewrite Z.ldiff_spec, !Z.lor_spec, Z.ldiff_spec.
  assert (Z.testbit B_VALID n && Z.testbit B_DIRTY n = false) as E by (rewrite <- Z.land_spec; change (Z.land B_VALID B_DIRTY) with 0; apply Z.bits_0).
  destruct (Z.testbit f n), (Z.testbit B_VALID n), (Z.testbit B_DIRTY n); done.
Qed.
Lemma clean_flags f : has f B_DIRTY = false -> clr f B_DIRTY = f.
Proof.
  unfold has. rewrite negb_false_iff, Z.eqb_eq. intros H. unfold clr. apply Z.bits_inj'. intros n Hn. rewrite Z.ldiff_spec.
  assert (Z.testbit f n && Z.testbit B_DIRTY n = false) as E by (rewrite <- Z.land_spec, H; apply Z.bits_0). by destruct (Z.testbit f n), (Z.testbit B_DIRTY n).
Qed.

Lemma flags_done f : Z.land (Z.lor (clr f B_DIRTY) B_VALID) (Z.lor B_VALID B_DIRTY) = B_VALID.
Proof.
  apply Z.bits_inj'. intros n Hn. unfold clr. rewrite Z.land_spec, !Z.lor_spec, Z.ldiff_spec.
  assert (Z.testbit B_VALID n && Z.testbit B_DIRTY n = false) as E by (rewrite <- Z.land_spec; change (Z.land B_VALID B_DIRTY) with 0; apply Z.bits_0).
  by destruct (Z.testbit f n), (Z.testbit B_VALID n), (Z.testbit B_DIRTY n).
Qed.
Lemma alter_twice {A} (f g h : A -> A) i (l : list A) x : l !! i = Some x -> g (f x) = h x -> alter g i (alter f i l) = alter h i l.
Proof. intros Hx E. rewrite list_alter_alter_eq. apply list_alter_ext; [|done]. intros y Hy. cbn. congruence. Qed.
Lemma wp_complete i b c Q s :
  bufs c !! i = Some b -> cache s = started b c -> command s = Some (has (flags b) B_DIRTY, 1, blockno b) -> failing s = false ->
  (forall n, Q tt {| s with busy := n; cache := synced i b c |}) -> wp (complete i) Q s.
Proof.
  intros Hb Hc Hcmd Hf HQ. unfold complete. assert (bufs (cache s) = bufs c) as Eb by (rewrite Hc; unfold started; by destruct (has _ _)).
  rewrite wp_bind, (wp_cached_buf i b) by (by rewrite Eb). rewrite wp_bind. unfold started in Hc. unfold synced in HQ. destruct (has (flags b) B_DIRTY) eqn:Ed; cbn [negb].
  - wp_steps. rewrite wp_cached_set, wp_cached_set. ide_cbn. rewrite Hc. ide_cbn.
    rewrite (alter_twice _ _ (fun b => {| b with flags := Z.lor (clr (flags b) B_DIRTY) B_VALID |}) i (bufs c) b) by (done || (cbn [flags]; by rewrite finished_flags)). apply (HQ (busy s)).
  - rewrite wp_bind, (wp_eq _ _ _ _ _ (idewait_eq _ _)). rewrite Hf. cbn [andb]. change (0 <=? 0) with true. cbn [when]. rewrite wp_bind. unfold insl at 1, wp at 1. ide_cbn. rewrite Hcmd, Z.eqb_refl. cbn beta iota.
    rewrite wp_cached_set. wp_steps. rewrite wp_cached_set, wp_cached_set. ide_cbn. rewrite Hc. ide_cbn.
    rewrite (alter_twice _ _ (fun b' => {| b' with data := default [] (bdisk c !! blockno b); flags := Z.lor (flags b') B_VALID |}) i (bufs c) b) by done.
    rewrite (alter_twice _ _ (fun b' => {| b' with data := default [] (bdisk c !! blockno b); flags := Z.lor (flags b') B_VALID |}) i (bufs c) b);
      [rewrite Hf, Hcmd in HQ; apply (HQ 0%nat)|done|]. cbn [flags data dev blockno lock refcnt prev next]. rewrite finished_flags, clean_flags by done. done.
Qed.

Lemma sync_buf i b c j : bufs c !! i = Some b -> j ≠ i -> bufs (synced i b c) !! j = bufs c !! j.
Proof. intros Hb Hj. unfold synced. destruct (has _ _); cbn [bufs]; by rewrite list_lookup_alter_ne. Qed.
Lemma started_bufs b c : bufs (started b c) = bufs c.
Proof. unfold started. by destruct (has _ _). Qed.
Lemma linked_ext q q' L : (forall i, i ∈ L -> q' !! i = q !! i) -> linked q L -> linked q' L.
Proof.
  induction L as [|i L IH]; intros E; cbn; [done|]. intros [H1 H2]. split; [rewrite E; [done|left]|]. apply IH; [|done]. intros j Hj. apply E. by right.
Qed.
Lemma linked_snoc q L k i : linked q (L ++ [k]) -> NoDup (L ++ [k]) -> i ∉ L ++ [k] -> q !! i = None -> linked (<[k := i]> q) ((L ++ [k]) ++ [i]).
Proof.
  induction L as [|j L IH]; cbn; intros HL HN Hi Hq.
  - rewrite lookup_insert_eq. split_and!; [done| |done]. rewrite lookup_insert_ne; [done|]. set_solver.
  - destruct HL as [H1 H2]. apply NoDup_cons in HN as [HN1 HN2]. split; [|apply IH; [done|done|set_solver|done]].
    rewrite lookup_insert_ne by set_solver. rewrite H1. by destruct L.
Qed.
Lemma wp_queue_end L k : forall j n s Q, linked (qnext s) (j :: L) -> last (j :: L) = Some k -> (length L <= n)%nat -> Q k s -> wp (queue_end j n) Q s.
Proof.
  induction L as [|j' L IH]; intros j n s Q [H1 H2] Hk Hn HQ.
  - injection Hk as ->. destruct n; cbn [queue_end]; wp_steps; rewrite H1; cbn [head]; by wp_steps.
  - cbn [length] in Hn. destruct n as [|n]; [lia|]. cbn [queue_end]. wp_steps. rewrite H1. cbn [head]. apply IH; [done|by rewrite last_cons_cons in Hk|lia|done].
Qed.
Lemma requests_bound c L : NoDup L -> Forall (request c) L -> (length L <= length (bufs c))%nat.
Proof.
  intros HN HR. etransitivity; [apply (submseteq_length L (seq 0 (length (bufs c))))|by rewrite length_seq]. apply NoDup_submseteq; [done|]. intros i Hi. rewrite list.Forall_forall in HR.
  destruct (HR i Hi) as (b & Hb & _). apply lookup_lt_Some in Hb. apply elem_of_seq. lia.
Qed.

(** An interrupt ends the first request and starts the next one. *)
Lemma wp_ideintr s c i L : serves s c (i :: L) -> wp ideintr (fun _ s' => serves s' (sync i c) L /\ woken s' = woken s ++ [i]) s.
Proof.
  intros [H1 H2 H3 H4 (b & Hb & Hc & Hcmd) (H6 & H7 & H8)]. cbn [head] in H1. destruct H2 as [H2 H2']. apply NoDup_cons in H3 as [H3 H3']. apply list.Forall_cons in H4 as [_ H4].
  unfold ideintr. rewrite wp_bind. apply wp_acquire_ide; [done|]. wp_steps. ide_cbn. rewrite H1. wp_steps. ide_cbn. rewrite H2.
  apply (wp_complete i b c); [done|done|done|done|]. intros n. ide_cbn. unfold wakeup_buf. wp_steps. ide_cbn.
  assert (sync i c = synced i b c) as Es by (unfold sync; by rewrite Hb).
  assert (Forall (request (synced i b c)) L) as H4'.
  { rewrite list.Forall_forall in H4 |- *. intros j Hj. destruct (H4 j Hj) as (bj & Hbj & Hr). exists bj. split; [|done]. rewrite sync_buf by (done || set_solver). done. }
  destruct L as [|j L]; cbn [head].
  - wp_steps. apply wp_release_ide; [done|]. ide_cbn. split; [|done]. rewrite Es. by split.
  - apply list.Forall_cons in H4' as [(bj & Hbj & Hd & Hn & Hp) H4']. apply (wp_idestart j bj); [exact Hbj|done|done|]. intros R. ide_cbn. apply wp_release_ide; [done|]. ide_cbn. split; [|done]. rewrite Es.
    split; [done|done|done| |by exists bj|done]. constructor; [by exists bj|done].
Qed.
(** A new request is appended, and started if it is the only one. *)
Lemma wp_iderw_enter s c L i :
  serves s c L -> i ∉ L -> request c i -> (exists b, bufs c !! i = Some b /\ holds c b = true) ->
  wp (iderw_enter i) (fun r s' => r = false /\ serves s' c (L ++ [i]) /\ woken s' = woken s) s.
Proof.
  intros [H1 H2 H3 H4 H5 (H6 & H7 & H8)] Hi (b & Hb & Hd & Hn & Hp) (b' & Hb' & Hh). assert (b' = b) as -> by congruence.
  assert (bufs (cache s) = bufs c /\ mypid (cache s) = mypid c) as [Eb Em].
  { destruct L as [|j L]; [by rewrite H5|]. destruct H5 as (bj & _ & -> & _). unfold started. by destruct (has _ _). }
  assert (in_cache (holdingsleep i) s = Ok true s) as Hhold.
  { unfold in_cache, zoom, holdingsleep, get_buf, mbind, M_bind. rewrite Eb, Hb. unfold gets, mret, M_ret. rewrite Em. unfold holds in Hh. rewrite Hh. by destruct s. }
  unfold iderw_enter. rewrite wp_bind, (wp_eq _ _ _ _ _ Hhold). cbn [negb]. rewrite wp_bind, (wp_cached_buf i b) by (by rewrite Eb). rewrite (proj2 (Z.eqb_neq _ _) Hp).
  wp_steps. rewrite H8, Hd. change (negb (1 =? 0) && negb true) with false. cbn beta iota. rewrite wp_bind. apply wp_acquire_ide; [done|]. wp_steps. ide_cbn. rewrite H1.
  assert (linked (delete i (qnext s)) L) as H2'. { eapply linked_ext; [|exact H2]. intros j Hj. apply lookup_delete_ne. intros ->. done. }
  assert (request c i) as Hreq by (by exists b).
  assert ((Z.land (flags b) (Z.lor B_VALID B_DIRTY) =? B_VALID) = false) as Hpb by (by apply Z.eqb_neq).
  destruct L as [|j L]; cbn [head].
  - wp_steps. ide_cbn. rewrite bool_decide_eq_true_2 by done. cbn [when]. apply (wp_idestart i b); [ide_cbn; by rewrite Eb|done|done|]. intros R. ide_cbn. unfold await.
    rewrite wp_bind, (wp_cached_buf i b) by (ide_cbn; rewrite started_bufs; by rewrite Eb). rewrite wp_bind. apply wp_release_ide; [done|]. wp_steps. split_and!; [done| |done].
    rewrite H5. split; ide_cbn; [done|split; [apply lookup_delete_eq|done]|apply NoDup_singleton|by constructor|by exists b|done].
  - destruct (last (j :: L)) as [k|] eqn:Ek; [|by apply last_None in Ek]. wp_steps. ide_cbn. pose proof (requests_bound c (j :: L) H3 H4) as Hlen. cbn [length] in Hlen.
    apply (wp_queue_end L k); [exact H2'|done|rewrite Eb; lia|]. wp_steps. ide_cbn. rewrite bool_decide_eq_false_2 by (intros [= ->]; set_solver). cbn [when]. unfold await.
    rewrite wp_bind, (wp_cached_buf i b) by (ide_cbn; by rewrite Eb). rewrite wp_bind. apply wp_release_ide; [done|]. wp_steps. split_and!; [done| |done].
    apply last_Some in Ek as [L0 Ek]. split; ide_cbn; [done| | |apply list.Forall_app; split; [done|by constructor]|by cbn [app]|done].
    + rewrite Ek in *. apply linked_snoc; [done|done|done|apply lookup_delete_eq].
    + apply NoDup_app. split_and!; [done| |apply NoDup_singleton]. intros x Hx ->%list_elem_of_singleton. done.
Qed.

(** ** Requests and interrupts in any order *)

Inductive disk_event := Request (i : nat) | Interrupt.
Definition run_event (ev : disk_event) : M ide unit :=
  match ev with Request i => iderw_enter i ;; mret tt | Interrupt => ideintr end.
(** The abstract disk: a queue of requests, each done as a whole when it is the
    first one. *)
Definition queue_step (x : bstate * list nat) (ev : disk_event) : bstate * list nat :=
  match ev, x with
  | Request i, (c, L) => (c, L ++ [i])
  | Interrupt, (c, i :: L) => (sync i c, L)
  | Interrupt, (c, []) => (c, [])
  end.
(** A process asks for a buffer that it has locked and that nobody waits for. *)
Definition may_happen (x : bstate * list nat) (ev : disk_event) : Prop :=
  match ev with
  | Request i => i ∉ x.2 /\ request x.1 i /\ exists b, bufs x.1 !! i = Some b /\ holds x.1 b = true
  | Interrupt => True
  end.
Fixpoint all_may_happen (x : bstate * list nat) (evs : list disk_event) : Prop :=
  match evs with [] => True | ev :: evs' => may_happen x ev /\ all_may_happen (queue_step x ev) evs' end.

Lemma ideintr_idle s c : serves s c [] -> ideintr s = Ok tt s.
Proof.
  intros [H1 _ _ _ _ (H6 & _)]. cbn in H1. unfold ideintr, acquire_ide, mbind, M_bind, gets, release_ide. rewrite H6. ide_cbn. rewrite H1. ide_cbn. rewrite <- H6, <- H1. by destruct s.
Qed.
Lemma wp_run_event s c L ev :
  serves s c L -> may_happen (c, L) ev -> wp (run_event ev) (fun _ s' => serves s' (queue_step (c, L) ev).1 (queue_step (c, L) ev).2) s.
Proof.
  intros Hs Hev. destruct ev as [i|]; cbn [run_event queue_step].
  - destruct Hev as (Hi & Hr & Hh). rewrite wp_bind. eapply wp_mono; [by apply wp_iderw_enter|]. intros r s' (_ & Hs' & _). by wp_steps.
  - destruct L as [|i L]; [by rewrite (wp_eq _ _ _ _ _ (ideintr_idle _ _ Hs))|]. eapply wp_mono; [by apply wp_ideintr|]. by intros _ s' [Hs' _].
Qed.
(** A process that is woken goes on when its request has been served. *)
Lemma wp_iderw_resume s c L i b :
  serves s c L -> bufs c !! i = Some b ->
  wp (iderw_resume i) (fun r s' => s' = s /\ r = (Z.land (flags b) (Z.lor B_VALID B_DIRTY) =? B_VALID)) s.
Proof.
  intros [_ _ _ _ H5 (H6 & _)] Hb. unfold iderw_resume. rewrite wp_bind. apply wp_acquire_ide; [done|]. unfold await.
  assert (bufs (cache s) = bufs c) as Eb. { destruct L as [|j L]; [by rewrite H5|]. destruct H5 as (bj & _ & -> & _). apply started_bufs. }
  rewrite wp_bind, (wp_cached_buf i b) by (ide_cbn; by rewrite Eb). rewrite wp_bind. apply wp_release_ide; [done|]. wp_steps. ide_cbn. split; [rewrite <- H6; by destruct s|done].
Qed.

(** C17. The driver implements the queue: requests and interrupts may come in any
    order; requests are served in the order of their arrival, each of them as
    a whole, reads see all earlier writes, and a process that waits for a
    request goes on exactly when the request has been served. *)
Theorem ide_refines s c L evs :
  serves s c L -> all_may_happen (c, L) evs ->
  wp (for_each evs run_event) (fun _ s' => let '(c', L') := foldl queue_step (c, L) evs in
    serves s' c' L' /\
    forall i b, bufs c' !! i = Some b -> wp (iderw_resume i) (fun r s'' => s'' = s' /\ r = (Z.land (flags b) (Z.lor B_VALID B_DIRTY) =? B_VALID) /\ (i ∈ L' -> r = false)) s') s.
Proof.
  revert s c L. induction evs as [|ev evs IH]; intros s c L Hs Hall; cbn [for_each foldl].
  - wp_steps. split; [done|]. intros i b Hb. eapply wp_mono; [by apply (wp_iderw_resume s c L i b)|]. intros r s' [-> ->]. split_and!; [done|done|]. intros Hi. apply Z.eqb_neq.
    destruct Hs as [_ _ _ H4 _ _]. rewrite list.Forall_forall in H4. destruct (H4 i Hi) as (b' & Hb' & _ & _ & Hp). by assert (b' = b) as -> by congruence.
  - destruct Hall as [H1 H2]. rewrite wp_bind. eapply wp_mono; [by apply wp_run_event|]. intros [] s1 Hs1. destruct (queue_step (c, L) ev) as [c1 L1]. by apply IH.
Qed.
(** All requests are served after as many interrupts as there are requests. *)
Lemma queue_drains c L : foldl queue_step (c, L) (replicate (length L) Interrupt) = (foldl (fun c i => sync i c) c L, []).
Proof. revert c. induction L as [|i L IH]; intros c; [done|]. cbn. apply IH. Qed.

(** ** The driver and the disk in memory *)

(** An idle controller. *)
Definition idle (c : bstate) : ide := mk_ide c ∅ ∅ None true false [] ∅ 0 false None.
(** One process asks for a buffer, sleeps, and the interrupt comes. *)
Definition ide_iderw (i : nat) : M bstate unit := fun c =>
  match (r ← iderw_enter i; if (r : bool) then mret tt else ideintr ;; r ← iderw_resume i; if (r : bool) then mret tt else diverge) (idle c) with
  | Ok a s => Ok a (cache s)
  | Panic e => Panic e
  | UB => UB
  | Diverge => Diverge
  end.
Lemma serves_idle c : serves (idle c) c [].
Proof. split; try done; constructor. Qed.

(** C33. To the buffer cache the interrupt-driven driver and the disk in memory are
    the same. *)
Theorem ide_equals_memide i b c :
  bufs c !! i = Some b -> holds c b = true -> Z.land (flags b) (Z.lor B_VALID B_DIRTY) ≠ B_VALID -> dev b = 1 -> 0 <= blockno b < FSSIZE -> is_Some (bdisk c !! blockno b) ->
  ide_iderw i c = memide_iderw i c.
Proof.
  intros Hb Hh Hp Hd Hn Hbl. assert (memide_iderw i c = Ok tt (synced i b c)) as -> by (by apply (iderw_sync (Device := memide))).
  assert (wp (r ← iderw_enter i; if (r : bool) then mret tt else ideintr ;; r ← iderw_resume i; if (r : bool) then mret tt else diverge) (fun _ s => cache s = synced i b c) (idle c)) as H.
  { rewrite wp_bind. eapply wp_mono; [apply (wp_iderw_enter (idle c) c [] i); [apply serves_idle|apply not_elem_of_nil|by exists b|by exists b]|].
    intros r s1 (-> & Hs1 & _). rewrite wp_bind. eapply wp_mono; [apply (wp_ideintr s1 c i []); exact Hs1|]. intros [] s2 [Hs2 _]. unfold sync in Hs2. rewrite Hb in Hs2.
    assert (exists b', bufs (synced i b c) !! i = Some b' /\ Z.land (flags b') (Z.lor B_VALID B_DIRTY) = B_VALID) as (b' & Hb' & Hv).
    { unfold synced. destruct (has (flags b) B_DIRTY) eqn:Ed; cbn [bufs]; rewrite list_lookup_alter_eq, Hb; eexists; (split; [reflexivity|]); cbn [flags].
      - apply flags_done.
      - rewrite <- (clean_flags (flags b) Ed) at 1. apply flags_done. }
    rewrite wp_bind. eapply wp_mono; [by apply (wp_iderw_resume s2 (synced i b c) [] i b')|]. intros r s3 [-> ->]. rewrite Hv, Z.eqb_refl. wp_steps. by destruct Hs2 as [_ _ _ _ -> _]. }
  apply wp_Ok in H as ([] & s & E & Hc). unfold ide_iderw. by rewrite E, Hc.
Qed.

(** When the controller reports an error for a read, the buffer keeps its old
    contents and is marked valid all the same. *)
Theorem ide_error_marks_valid s i b :
  idequeue s = Some i -> qnext s !! i = None -> idelock s = false -> failing s = true -> bufs (cache s) !! i = Some b -> has (flags b) B_DIRTY = false ->
  wp ideintr (fun _ s' => exists b', bufs (cache s') !! i = Some b' /\ data b' = data b /\ Z.land (flags b') (Z.lor B_VALID B_DIRTY) = B_VALID) s.
Proof.
  intros H1 H2 H3 H4 Hb Hd. unfold ideintr. rewrite wp_bind. apply wp_acquire_ide; [done|]. wp_steps. ide_cbn. rewrite H1. wp_steps. ide_cbn. rewrite H2. unfold complete.
  rewrite wp_bind, (wp_cached_buf i b) by done. rewrite Hd. cbn [negb]. rewrite wp_bind, wp_bind, (wp_eq _ _ _ _ _ (idewait_eq _ _)). ide_cbn. rewrite H4. cbn [andb].
  change (0 <=? -1) with false. cbn [when]. wp_steps. rewrite wp_cached_set, wp_cached_set. unfold wakeup_buf. wp_steps. ide_cbn. apply wp_release_ide; [done|]. ide_cbn.
  rewrite !list_lookup_alter_eq, Hb. eexists. split; [reflexivity|]. cbn [data flags]. split; [done|]. rewrite finished_flags. apply flags_done.
Qed.

(** ** Witnesses *)

(** Two locked buffers for block 7: the first is to be written, the second to
    be read. *)
Definition two_requests : bstate :=
  mk_bstate [mk_buf 4 1 7 (mk_sleeplock 1 3) 1 0 0 [1; 2]; mk_buf 0 1 7 (mk_sleeplock 1 3) 1 0 0 []] {[7 := []]} [] 3.
Lemma ide_refines_witness :
  wp (for_each [Request 0; Request 1; Interrupt; Interrupt] run_event)
     (fun _ s' => exists c, serves s' c [] /\ (data <$> bufs c) = [[1; 2]; [1; 2]]) (idle two_requests).
Proof.
  eapply wp_mono; [apply (ide_refines (idle two_requests) two_requests [] [Request 0; Request 1; Interrupt; Interrupt]); [apply serves_idle|]|].
  - cbn [all_may_happen may_happen queue_step fst snd app]. split_and!; try done.
    + apply not_elem_of_nil.
    + eexists. split_and!; [reflexivity|reflexivity|discriminate|reflexivity|discriminate].
    + eexists. split; reflexivity.
    + rewrite list_elem_of_singleton. discriminate.
    + eexists. split_and!; [reflexivity|reflexivity|discriminate|reflexivity|discriminate].
    + eexists. split; reflexivity.
  - intros [] s' [H _]. eexists. split; [exact H|reflexivity].
Defined.
Lemma ide_equals_memide_witness : ide_iderw 1 two_requests = memide_iderw 1 two_requests.
Proof. eapply ide_equals_memide; [reflexivity|reflexivity|discriminate|reflexivity|split; [discriminate|reflexivity]|by eexists]. Defined.
Lemma ide_error_marks_valid_witness :
  wp ideintr (fun _ s' => exists b', bufs (cache s') !! 1%nat = Some b' /\ data b' = []) {| (idle two_requests) with idequeue := Some 1%nat; failing := true |}.
Proof.
  eapply wp_mono; [eapply ide_error_marks_valid; reflexivity|]. intros [] s' (b' & H1 & H2 & _). by exists b'.
Defined.
