(* ===== verification/Fs.v ===== *)
(** The file system (fs.c): block allocation, inodes, file contents,
    directories and path names, on top of the log (Log.v).

    The code is that of one process. The spin lock [icache.lock] protects the
    inode cache against other CPUs and has no effect here; the sleep lock of an
    inode that is taken makes the process wait for ever. A buffer is named by
    its block number and an inode pointer is an index into the cache. *)

From S2P Require Import Prelude Files Block Log.
From stdpp Require Import base gmap list strings.
From Stdlib Require Import ZArith Lia.
Open Scope Z_scope.

(** ** On-disk format (fs.h) *)

Definition ROOTINO : Z := 1.
Definition ROOTDEV : Z := 1.
Definition NDIRECT : nat := 12.
Definition NINDIRECT : Z := BSIZE / 4.
Definition IPB : Z := BSIZE / 64.
Definition BPB : Z := BSIZE * 8.
Definition DIRSIZ : nat := 14.
Definition IBLOCK (i : Z) (sb : superblock) : Z := i / IPB + sb_inodestart sb.
Definition BBLOCK (b : Z) (sb : superblock) : Z := b / BPB + sb_bmapstart sb.

Definition T_DIR : Z := 1.
Definition T_FILE : Z := 2.
Definition T_DEV : Z := 3.
Definition NDEV : Z := 10.
Definition NINODE : nat := 50.

(** Offset of inode [i] in its block, and of the fields of [struct dinode]. *)
Definition dip (i : Z) : Z := (i mod IPB) * 64.
Definition DI_type : Z := 0.
Definition DI_major : Z := 2.
Definition DI_minor : Z := 4.
Definition DI_nlink : Z := 6.
Definition DI_size : Z := 8.
Definition DI_addrs : Z := 12.

(** ** State *)

(** [struct inode]; [ilk] is the sleep lock. *)
Record inode := mk_inode {
  idev : Z;
  inum : Z;
  iref : Z;
  ilk : bool;
  valid : Z;
  itype : Z;
  major : Z;
  minor : Z;
  nlink : Z;
  size : Z;
  addrs : list Z
}.
Definition inode_zero : inode := mk_inode 0 0 0 false 0 0 0 0 0 0 (replicate (S NDIRECT) 0).

Record fstate := mk_fstate {
  fl : lstate;
  (** the global [sb] *)
  fsb : superblock;
  icache : list inode;
  (** [myproc()->cwd] *)
  fcwd : nat
}.
Definition on_log {A} (m : M lstate A) : M fstate A := zoom fl (fun t s => {| s with fl := t |}) m.
Definition on_blk {A} (m : M store A) : M fstate A := on_log (on_store m).
Definition get_inode (ip : nat) : M fstate inode := fun s =>
  match icache s !! ip with Some i => Ok i s | None => UB end.
Definition set_inode (ip : nat) (f : inode -> inode) : M fstate unit :=
  modify (fun s => {| s with icache := alter f ip (icache s) |}).

(** The devices: [devsw[major].read] and [.write], absent or a function. *)
Class DevSwitch := {
  dev_read : Z -> option (nat -> Z -> M fstate (option (list Z)));
  dev_write : Z -> option (nat -> list Z -> M fstate Z)
}.

(** ** Blocks *)

Definition bzero (b : Z) : M fstate unit :=
  bp ← on_blk (bread b);
  on_blk (set_bdata bp (replicate (Z.to_nat BSIZE) 0)) ;;
  on_log (log_write bp) ;;
  on_blk (brelse bp).

(** Bit [bi] of a block of the bitmap. *)
Definition bm_mask (bi : Z) : Z := Z.shiftl 1 (bi mod 8).
Definition bm_test (d : list Z) (bi : Z) : bool := negb (Z.land (byte_at d (bi / 8)) (bm_mask bi) =? 0).
Definition bm_set (d : list Z) (bi : Z) : list Z := put d (bi / 8) [Z.lor (byte_at d (bi / 8)) (bm_mask bi)].
Definition bm_clear (d : list Z) (bi : Z) : list Z := put d (bi / 8) [clr (byte_at d (bi / 8)) (bm_mask bi)].

(** The inner loop of [balloc]: the first free bit among [bis]. *)
Fixpoint find_free (d : list Z) (bis : list Z) : option Z :=
  match bis with
  | [] => None
  | bi :: bis' => if bm_test d bi then find_free d bis' else Some bi
  end.
(** The outer loop, from [b] on. *)
Fixpoint balloc_loop (b : Z) (fuel : nat) : M fstate Z :=
  sb ← gets fsb;
  if negb (b <? sb_size sb) then panic "balloc: out of blocks" else
  match fuel with
  | O => diverge
  | S fuel' =>
      bp ← on_blk (bread (BBLOCK b sb));
      d ← on_blk (bdata bp);
      match find_free d (seqZ 0 (Z.min BPB (sb_size sb - b))) with
      | Some bi =>
          on_blk (set_bdata bp (bm_set d bi)) ;;
          on_log (log_write bp) ;;
          on_blk (brelse bp) ;;
          bzero (b + bi) ;;
          mret (b + bi)
      | None =>
          on_blk (brelse bp) ;;
          balloc_loop (b + BPB) fuel'
      end
  end.
Definition balloc : M fstate Z :=
  sb ← gets fsb;
  balloc_loop 0 (S (Z.to_nat (sb_size sb / BPB))).

Definition bfree (b : Z) : M fstate unit :=
  sb ← gets fsb;
  bp ← on_blk (bread (BBLOCK b sb));
  d ← on_blk (bdata bp);
  let bi := b mod BPB in
  if negb (bm_test d bi) then panic "freeing free block" else
  on_blk (set_bdata bp (bm_clear d bi)) ;;
  on_log (log_write bp) ;;
  on_blk (brelse bp).

(** ** Inodes *)

Definition iinit : M fstate unit :=
  for_each (indices NINODE) (fun i => set_inode i (fun ip => {| ip with ilk := false |})) ;;
  sb ← on_blk readsb;
  modify (fun s => {| s with fsb := sb |}).

(** The search of [iget]: a referenced entry for the inode, and the first
    entry without references before it. *)
Fixpoint iget_find (dv n : Z) (l : list inode) (i : nat) (empty : option nat) : option nat * option nat :=
  match l with
  | [] => (None, empty)
  | ip :: l' =>
      if (0 <? iref ip) && (idev ip =? dv) && (inum ip =? n) then (Some i, empty)
      else iget_find dv n l' (S i) (match empty with None => if iref ip =? 0 then Some i else None | _ => empty end)
  end.
Definition iget (dv n : Z) : M fstate nat :=
  r ← gets (fun s => iget_find dv n (icache s) 0 None);
  match r with
  | (Some i, _) => set_inode i (fun ip => {| ip with iref := s32 (iref ip + 1) |}) ;; mret i
  | (None, Some i) => set_inode i (fun ip => {| ip with idev := dv; inum := n; iref := 1; valid := 0 |}) ;; mret i
  | (None, None) => panic "iget: no inodes"
  end.

Definition idup (ip : nat) : M fstate nat :=
  set_inode ip (fun i => {| i with iref := s32 (iref i + 1) |}) ;;
  mret ip.

(** The loop of [ialloc] over the inode numbers. *)
Fixpoint ialloc_loop (dv ty : Z) (ns : list Z) : M fstate nat :=
  match ns with
  | [] => panic "ialloc: no inodes"
  | n :: ns' =>
      sb ← gets fsb;
      bp ← on_blk (bread (IBLOCK n sb));
      d ← on_blk (bdata bp);
      if get16 d (dip n + DI_type) =? 0 then
        on_blk (set_bdata bp (put16 (put d (dip n) (replicate 64 0)) (dip n + DI_type) ty)) ;;
        on_log (log_write bp) ;;
        on_blk (brelse bp) ;;
        iget dv n
      else
        on_blk (brelse bp) ;;
        ialloc_loop dv ty ns'
  end.
Definition ialloc (dv ty : Z) : M fstate nat :=
  sb ← gets fsb;
  ialloc_loop dv ty (seqZ 1 (sb_ninodes sb - 1)).

(** [struct dinode] from the in-memory inode, and back. *)
Definition encode_inode (i : inode) : list Z :=
  bytes16 (itype i) ++ bytes16 (major i) ++ bytes16 (minor i) ++ bytes16 (nlink i) ++ bytes32 (size i) ++
  (addrs i ≫= bytes32).
Definition decode_inode (d : list Z) (o : Z) (i : inode) : inode :=
  {| i with itype := s16 (get16 d (o + DI_type)); major := s16 (get16 d (o + DI_major)); minor := s16 (get16 d (o + DI_minor));
            nlink := s16 (get16 d (o + DI_nlink)); size := get32 d (o + DI_size);
            addrs := (fun k => get32 d (o + DI_addrs + 4 * k)) <$> seqZ 0 13 |}.

Definition iupdate (ip : nat) : M fstate unit :=
  i ← get_inode ip;
  sb ← gets fsb;
  bp ← on_blk (bread (IBLOCK (inum i) sb));
  d ← on_blk (bdata bp);
  on_blk (set_bdata bp (put d (dip (inum i)) (encode_inode i))) ;;
  on_log (log_write bp) ;;
  on_blk (brelse bp).

Definition ilock (p : option nat) : M fstate unit :=
  match p with
  | None => panic "ilock"
  | Some ip =>
      i ← get_inode ip;
      if iref i <? 1 then panic "ilock" else
      if ilk i then diverge else
      set_inode ip (fun i => {| i with ilk := true |}) ;;
      if valid i =? 0 then
        sb ← gets fsb;
        bp ← on_blk (bread (IBLOCK (inum i) sb));
        d ← on_blk (bdata bp);
        set_inode ip (decode_inode d (dip (inum i))) ;;
        on_blk (brelse bp) ;;
        set_inode ip (fun i => {| i with valid := 1 |}) ;;
        i ← get_inode ip;
        if itype i =? 0 then panic "ilock: no type" else mret tt
      else mret tt
  end.
Definition iunlock (p : option nat) : M fstate unit :=
  match p with
  | None => panic "iunlock"
  | Some ip =>
      i ← get_inode ip;
      if negb (ilk i) || (iref i <? 1) then panic "iunlock" else
      set_inode ip (fun i => {| i with ilk := false |})
  end.

(** [bmap]: the disk block of block [bn] of the file, allocated if there is
    none. *)
Definition set_addr (ip : nat) (k : nat) (a : Z) : M fstate unit :=
  set_inode ip (fun i => {| i with addrs := <[k := a]> (addrs i) |}).
Definition bmap_direct (ip : nat) (k : nat) : M fstate Z :=
  i ← get_inode ip;
  let addr := nth k (addrs i) 0 in
  if addr =? 0 then a ← balloc; set_addr ip k a ;; mret a else mret addr.
Definition bmap (ip : nat) (bn : Z) : M fstate Z :=
  if bn <? Z.of_nat NDIRECT then bmap_direct ip (Z.to_nat bn) else
  let bn := bn - Z.of_nat NDIRECT in
  if bn <? NINDIRECT then
    addr ← bmap_direct ip NDIRECT;
    bp ← on_blk (bread addr);
    a ← on_blk (bdata bp);
    if get32 a (4 * bn) =? 0 then
      addr ← balloc;
      on_blk (set_bdata bp (put32 a (4 * bn) addr)) ;;
      on_log (log_write bp) ;;
      on_blk (brelse bp) ;;
      mret addr
    else
      on_blk (brelse bp) ;;
      mret (get32 a (4 * bn))
  else panic "bmap: out of range".

Definition itrunc_direct (ip : nat) (k : nat) : M fstate unit :=
  i ← get_inode ip;
  let a := nth k (addrs i) 0 in
  when (negb (a =? 0)) (bfree a ;; set_addr ip k 0).
Definition itrunc (ip : nat) : M fstate unit :=
  for_each (indices NDIRECT) (itrunc_direct ip) ;;
  i ← get_inode ip;
  let ind := nth NDIRECT (addrs i) 0 in
  when (negb (ind =? 0)) (
    bp ← on_blk (bread ind);
    a ← on_blk (bdata bp);
    for_each (seqZ 0 NINDIRECT) (fun j => when (negb (get32 a (4 * j) =? 0)) (bfree (get32 a (4 * j)))) ;;
    on_blk (brelse bp) ;;
    bfree ind ;;
    set_addr ip NDIRECT 0) ;;
  set_inode ip (fun i => {| i with size := 0 |}) ;;
  iupdate ip.

Definition iput (ip : nat) : M fstate unit :=
  i ← get_inode ip;
  if ilk i then diverge else
  set_inode ip (fun i => {| i with ilk := true |}) ;;
  when (negb (valid i =? 0) && (nlink i =? 0)) (
    when (iref i =? 1) (
      itrunc ip ;;
      set_inode ip (fun i => {| i with itype := 0 |}) ;;
      iupdate ip ;;
      set_inode ip (fun i => {| i with valid := 0 |}))) ;;
  set_inode ip (fun i => {| i with ilk := false |}) ;;
  set_inode ip (fun i => {| i with iref := s32 (iref i - 1) |}).
Definition iunlockput (ip : nat) : M fstate unit :=
  iunlock (Some ip) ;;
  iput ip.

(** [struct stat] *)
Record stat := mk_stat { st_type : Z; st_dev : Z; st_ino : Z; st_nlink : Z; st_size : Z }.
Definition stati (ip : nat) : M fstate stat :=
  i ← get_inode ip;
  mret (mk_stat (itype i) (idev i) (inum i) (nlink i) (size i)).

Section Content.
Context {DS : DevSwitch}.

(** ** File contents *)

(** The loops of [readi] and [writei], with [n] bytes to go. *)
Fixpoint readi_loop (ip : nat) (off n : Z) (fuel : nat) : M fstate (list Z) :=
  if n <=? 0 then mret [] else
  match fuel with
  | O => diverge
  | S fuel' =>
      a ← bmap ip (off / BSIZE);
      bp ← on_blk (bread a);
      let m := Z.min n (BSIZE - off mod BSIZE) in
      d ← on_blk (bdata bp);
      on_blk (brelse bp) ;;
      rest ← readi_loop ip (off + m) (n - m) fuel';
      mret (take (Z.to_nat m) (drop (Z.to_nat (off mod BSIZE)) d) ++ rest)
  end.
(** The bytes read, or [None] for -1. *)
Definition readi (ip : nat) (off n : Z) : M fstate (option (list Z)) :=
  i ← get_inode ip;
  if itype i =? T_DEV then
    if (major i <? 0) || (NDEV <=? major i) then mret None else
    match dev_read (major i) with Some f => f ip n | None => mret None end
  else if (size i <? off) || (u32 (off + n) <? off) then mret None
  else
    let n := if size i <? off + n then size i - off else n in
    bs ← readi_loop ip off n (Z.to_nat n);
    mret (Some bs).

Fixpoint writei_loop (ip : nat) (src : list Z) (off : Z) (fuel : nat) : M fstate Z :=
  match src with
  | [] => mret off
  | _ =>
      match fuel with
      | O => diverge
      | S fuel' =>
          a ← bmap ip (off / BSIZE);
          bp ← on_blk (bread a);
          let m := Z.min (Z.of_nat (length src)) (BSIZE - off mod BSIZE) in
          d ← on_blk (bdata bp);
          on_blk (set_bdata bp (put d (off mod BSIZE) (take (Z.to_nat m) src))) ;;
          on_log (log_write bp) ;;
          on_blk (brelse bp) ;;
          writei_loop ip (drop (Z.to_nat m) src) (off + m) fuel'
      end
  end.
(** The number of bytes written, or -1. *)
Definition writei (ip : nat) (src : list Z) (off : Z) : M fstate Z :=
  i ← get_inode ip;
  let n := Z.of_nat (length src) in
  if itype i =? T_DEV then
    if (major i <? 0) || (NDEV <=? major i) then mret (-1) else
    match dev_write (major i) with Some f => f ip src | None => mret (-1) end
  else if (size i <? off) || (u32 (off + n) <? off) then mret (-1)
  else if MAXFILE * BSIZE <? off + n then mret (-1)
  else
    off' ← writei_loop ip src off (length src);
    i ← get_inode ip;
    when ((0 <? n) && (size i <? off')) (set_inode ip (fun i => {| i with size := off' |}) ;; iupdate ip) ;;
    mret n.

(** ** Directories *)

(** [strncmp(s, t, n) == 0] on arrays of characters: equal up to the first
    zero or for [n] characters. *)
Fixpoint eq_name (n : nat) (s t : list Z) : bool :=
  match n with
  | O => true
  | S n' =>
      let a := default 0 (head s) in
      let b := default 0 (head t) in
      if a =? b then if a =? 0 then true else eq_name n' (tail s) (tail t) else false
  end.
Definition namecmp (s t : list Z) : bool := eq_name DIRSIZ s t.
(** [strncpy(s, t, n)]: the string, padded with zeros. *)
Fixpoint copy_padded (n : nat) (t : list Z) : list Z :=
  match n with
  | O => []
  | S n' =>
      let c := default 0 (head t) in
      if c =? 0 then replicate (S n') 0 else c :: copy_padded n' (tail t)
  end.

(** [struct dirent]: the inode number and the name. *)
Definition DE_SIZE : Z := 16.
Definition de_inum (de : list Z) : Z := get16 de 0.
Definition de_name (de : list Z) : list Z := drop 2 de.
Definition encode_dirent (n : Z) (name : list Z) : list Z := bytes16 n ++ copy_padded DIRSIZ name.

(** The loop of [dirlookup]: the inode number and the offset of the entry. *)
Fixpoint dirlookup_loop (dp : nat) (name : list Z) (off sz : Z) (fuel : nat) : M fstate (option (Z * Z)) :=
  if sz <=? off then mret None else
  match fuel with
  | O => diverge
  | S fuel' =>
      r ← readi dp off DE_SIZE;
      match r with
      | Some de =>
          if negb (Z.of_nat (length de) =? DE_SIZE) then panic "dirlookup read" else
          if (de_inum de =? 0) then dirlookup_loop dp name (off + DE_SIZE) sz fuel'
          else if namecmp name (de_name de) then mret (Some (de_inum de, off))
          else dirlookup_loop dp name (off + DE_SIZE) sz fuel'
      | None => panic "dirlookup read"
      end
  end.
(** The inode and the value for [*poff]. *)
Definition dirlookup (dp : nat) (name : list Z) : M fstate (option (nat * Z)) :=
  d ← get_inode dp;
  if negb (itype d =? T_DIR) then panic "dirlookup not DIR" else
  r ← dirlookup_loop dp name 0 (size d) (S (Z.to_nat (size d / DE_SIZE)));
  match r with
  | Some (n, off) => ip ← iget (idev d) n; mret (Some (ip, off))
  | None => mret None
  end.

(** The search of [dirlink] for an empty entry: its offset, or the end. *)
Fixpoint dirlink_loop (dp : nat) (off sz : Z) (fuel : nat) : M fstate Z :=
  if sz <=? off then mret off else
  match fuel with
  | O => diverge
  | S fuel' =>
      r ← readi dp off DE_SIZE;
      match r with
      | Some de =>
          if negb (Z.of_nat (length de) =? DE_SIZE) then panic "dirlink read" else
          if de_inum de =? 0 then mret off else dirlink_loop dp (off + DE_SIZE) sz fuel'
      | None => panic "dirlink read"
      end
  end.
Definition dirlink (dp : nat) (name : list Z) (n : Z) : M fstate Z :=
  r ← dirlookup dp name;
  match r with
  | Some (ip, _) => iput ip ;; mret (-1)
  | None =>
      d ← get_inode dp;
      off ← dirlink_loop dp 0 (size d) (S (Z.to_nat (size d / DE_SIZE)));
      w ← writei dp (encode_dirent n name) off;
      if negb (w =? DE_SIZE) then panic "dirlink" else mret 0
  end.

(** ** Path names *)

Definition SLASH : Z := 47.
(** Characters of a string are up to its terminating zero; here the end of
    the list is the terminator. *)
Fixpoint skip_slashes (path : list Z) : list Z :=
  match path with
  | c :: path' => if c =? SLASH then skip_slashes path' else path
  | [] => []
  end.
Fixpoint take_elem (path : list Z) : list Z * list Z :=
  match path with
  | c :: path' => if c =? SLASH then ([], path) else let '(e, rest) := take_elem path' in (c :: e, rest)
  | [] => ([], [])
  end.
(** [skipelem]: the rest of the path and the new contents of [name], which has
    DIRSIZ characters. *)
Definition skipelem (path name : list Z) : option (list Z * list Z) :=
  match skip_slashes path with
  | [] => None
  | p =>
      let '(s, rest) := take_elem p in
      let name' := if (DIRSIZ <=? length s)%nat then take DIRSIZ s else s ++ [0] ++ drop (S (length s)) name in
      Some (skip_slashes rest, name')
  end.

(** The loop of [namex]. *)
Fixpoint namex_loop (ip : nat) (path name : list Z) (parent : bool) (fuel : nat) : M fstate (option nat * list Z) :=
  match skipelem path name with
  | None => if parent then iput ip ;; mret (None, name) else mret (Some ip, name)
  | Some (path', name') =>
      match fuel with
      | O => diverge
      | S fuel' =>
          ilock (Some ip) ;;
          i ← get_inode ip;
          if negb (itype i =? T_DIR) then iunlockput ip ;; mret (None, name')
          else if parent && bool_decide (path' = []) then iunlock (Some ip) ;; mret (Some ip, name')
          else
            next ← dirlookup ip name';
            match next with
            | None => iunlockput ip ;; mret (None, name')
            | Some (nx, _) => iunlockput ip ;; namex_loop nx path' name' parent fuel'
            end
      end
  end.
Definition namex (path name : list Z) (parent : bool) : M fstate (option nat * list Z) :=
  ip ← (match path with
        | c :: _ => if c =? SLASH then iget ROOTDEV ROOTINO else cwd ← gets fcwd; idup cwd
        | [] => cwd ← gets fcwd; idup cwd
        end);
  namex_loop ip path name parent (S (length path)).
Definition namei (path : list Z) : M fstate (option nat) :=
  r ← namex path (replicate DIRSIZ 0) false;
  mret (fst r).
Definition nameiparent (path : list Z) : M fstate (option nat * list Z) := namex path (replicate DIRSIZ 0) true.

End Content.

(** ** Names of swap files *)

(** The digits that [itoa] writes, least significant first. *)
Fixpoint digits (i : Z) (fuel : nat) : list Z :=
  match fuel with
  | O => []
  | S fuel' => (48 + i mod 10) :: (if i / 10 =? 0 then [] else digits (i / 10) fuel')
  end.
(** [itoa] without its terminator; [i *= -1] overflows for the least integer. *)
Definition itoa (i : Z) : list Z :=
  let j := if i <? 0 then s32 (- i) else i in
  (if i <? 0 then [45] else []) ++ rev (digits j 10).
Definition DIGITS : nat := 14.
(** "/.swap" *)
Definition SWAP_PREFIX : list Z := [47; 46; 115; 119; 97; 112].
Definition swap_path (pid : Z) : list Z := SWAP_PREFIX ++ itoa pid.
