(* ===== verification/FsTx.v ===== *)
(** Reasoning about file-system code inside a transaction: rules for the use of
    buffers and the log, and the block allocator. *)

From S2P Require Import Prelude Files Block Log Fs.
From stdpp Require Import base gmap list strings.
From Stdlib Require Import ZArith Lia.
Open Scope Z_scope.

(** ** Transactions *)

(** The contents of the blocks. *)
Definition V (s : fstate) : gmap Z (list Z) := vw (st (fl s)).

(** Blocks outside the log, which can be logged. *)
Definition home (sb : superblock) (b : Z) : Prop := ~ in_log (sb_logstart sb) b /\ 0 <= b < 2147483648.

(** The process holds the buffers of the blocks [h] and may log [k] more
    blocks, which takes a transaction; the bound leaves buffers for two more
    blocks. *)
Record tx (s : fstate) (h : list Z) (k : nat) : Prop := {
  tx_store : store_ok (st (fl s));
  tx_held : bheld (st (fl s)) = h;
  tx_log : exists bs, lh_n (lg (fl s)) = Z.of_nat (length bs) /\ take (length bs) (lh_block (lg (fl s))) = bs /\
             log_array_ok (lg (fl s)) /\ pinned (st (fl s)) = list_to_set bs /\ NoDup bs /\
             Z.of_nat (length bs + k) <= log_size (lg (fl s)) - 1 /\ (length bs + k + 2 < NBUF)%nat;
  tx_out : (0 < k)%nat -> 1 <= outstanding (lg (fl s));
  tx_home : forall b, b ∈ pinned (st (fl s)) -> home (fsb s) b /\ is_Some (vw (st (fl s)) !! b)
}.

(** What the use of buffers and of the log leaves alone. *)
Record frame (s s' : fstate) : Prop := {
  fr_sb : fsb s' = fsb s;
  fr_icache : icache s' = icache s;
  fr_cwd : fcwd s' = fcwd s;
  fr_pinned : pinned (st (fl s)) ⊆ pinned (st (fl s'));
  fr_disk : disk (st (fl s')) = disk (st (fl s))
}.
#[export] Instance frame_preorder : PreOrder frame.
Proof. split; [done|]. intros s1 s2 s3 [H1 H2 H3 H4 H5] [G1 G2 G3 G4 G5]. split; [congruence..|by etrans|congruence]. Qed.

(** The buffer of the block may be released. *)
Definition clean (s : fstate) (b : Z) : Prop :=
  b ∈ pinned (st (fl s)) \/ vw (st (fl s)) !! b = disk (st (fl s)) !! b.

Lemma clean_frame s s' b : frame s s' -> V s' !! b = V s !! b -> clean s b -> clean s' b.
Proof.
  intros F E [H|H]; [left; by apply (fr_pinned _ _ F)|right]. unfold V in E. by rewrite E, (fr_disk _ _ F).
Qed.
Lemma tx_block s h k b d : tx s h k -> V s !! b = Some d -> is_block d.
Proof. intros T. apply (so_blocks _ (tx_store _ _ _ T)). Qed.
Lemma tx_weaken s h k j : tx s h k -> (j <= k)%nat -> tx s h j.
Proof.
  intros [H1 H2 (bs & L1 & L2 & L3 & L4 & L5 & L6 & L7) H4 H5] Hj. split; [done|done| |intros ?; apply H4; lia|done]. exists bs. split_and!; try done; lia.
Qed.

Lemma wp_on_blk {A} (m : M store A) (Q : A -> fstate -> Prop) s :
  wp m (fun a t => Q a {| s with fl := {| (fl s) with st := t |} |}) (st (fl s)) -> wp (on_blk m) Q s.
Proof. unfold on_blk, on_log, on_store. by rewrite !wp_zoom. Qed.

Lemma wp_tx_bread s h k b (Q : Z -> fstate -> Prop) :
  tx s h k -> b ∉ h -> (length h < 3)%nat -> is_Some (V s !! b) ->
  (forall s', tx s' (b :: h) k -> V s' = V s -> frame s s' -> clean s' b -> Q b s') -> wp (on_blk (bread b)) Q s.
Proof.
  intros T Hb Hh Hv HQ. destruct T as [H1 H2 (bs & L1 & L2 & L3 & L4 & L5 & L6 & L7) H4 H5]. apply wp_on_blk.
  apply wp_bread.
  - by rewrite H2.
  - apply room_free. rewrite H2, L4, size_list_to_set by done. lia.
  - by apply (so_dom _ H1).
  - apply HQ; try done.
    + split; cbn; [|by rewrite H2|by exists bs|done|done]. apply store_ok_bread; [done|by rewrite H2].
    + unfold clean. cbn. destruct (decide (b ∈ pinned (st (fl s)))) as [|Hp]; [by left|right]. apply (so_clean _ H1 _ Hp). by rewrite H2.
Qed.
(** Reading a block while no other buffer is held leaves no trace. *)
Definition with_held (s : fstate) (h : list Z) : fstate := {| s with fl := {| (fl s) with st := {| (st (fl s)) with bheld := h |} |} |}.
Lemma wp_tx_look s k b d (Q : Z -> fstate -> Prop) :
  tx s [] k -> V s !! b = Some d -> Q b (with_held s [b]) -> wp (on_blk (bread b)) Q s.
Proof.
  intros [H1 H2 (bs & L1 & L2 & L3 & L4 & L5 & L6 & L7) H4 H5] Hv HQ. apply wp_on_blk. apply wp_bread.
  - rewrite H2. apply not_elem_of_nil.
  - apply room_free. rewrite H2, L4, size_list_to_set by done. cbn. lia.
  - apply (so_dom _ H1). by eexists.
  - by rewrite H2.
Qed.
Lemma wp_held_data s b d (Q : list Z -> fstate -> Prop) :
  V s !! b = Some d -> Q d (with_held s [b]) -> wp (on_blk (bdata b)) Q (with_held s [b]).
Proof. intros Hv HQ. apply wp_on_blk. apply (wp_bdata b d); [cbn; by left|done|done]. Qed.
Lemma wp_held_release s k b (Q : unit -> fstate -> Prop) : tx s [] k -> Q tt s -> wp (on_blk (brelse b)) Q (with_held s [b]).
Proof.
  intros [H1 H2 H3 H4 H5] HQ. apply wp_on_blk. apply wp_brelse; [cbn; by left| |].
  - cbn. destruct (decide (b ∈ pinned (st (fl s)))) as [|Hp]; [by left|right]. apply (so_clean _ H1 _ Hp). rewrite H2. apply not_elem_of_nil.
  - cbn. rewrite decide_False by tauto. cbn. rewrite <- H2. by destruct s as [[[]]].
Qed.
Lemma wp_tx_bdata s h k b d (Q : list Z -> fstate -> Prop) :
  tx s h k -> b ∈ h -> V s !! b = Some d -> Q d s -> wp (on_blk (bdata b)) Q s.
Proof.
  intros T Hb Hv HQ. apply wp_on_blk. apply (wp_bdata b d); [by rewrite (tx_held _ _ _ T)|done|]. by destruct s as [[]].
Qed.
Lemma wp_tx_set s h k b d (Q : unit -> fstate -> Prop) :
  tx s h k -> b ∈ h -> is_Some (V s !! b) -> is_block d ->
  (forall s', tx s' h k -> V s' = <[b := d]> (V s) -> frame s s' -> pinned (st (fl s')) = pinned (st (fl s)) -> Q tt s') -> wp (on_blk (set_bdata b d)) Q s.
Proof.
  intros [H1 H2 H3 H4 H5] Hb Hv Hd HQ. apply wp_on_blk. apply wp_set_bdata; [by rewrite H2|]. apply HQ; [|done..]. split; cbn; try done.
  - apply store_ok_set; [done|by rewrite H2|by apply (so_dom _ H1)|done].
  - intros x Hx. destruct (H5 x Hx) as [Hx1 Hx2]. split; [done|]. destruct (decide (b = x)) as [<-|]; [rewrite lookup_insert_eq; by eexists|by rewrite lookup_insert_ne].
Qed.
(** Logging a block that is in the log already takes no more room. *)
Lemma wp_tx_log_room s h k b (Q : unit -> fstate -> Prop) :
  tx s h (S k) -> home (fsb s) b -> is_Some (V s !! b) ->
  (forall s', tx s' h (if decide (b ∈ pinned (st (fl s))) then S k else k) -> V s' = V s -> frame s s' -> b ∈ pinned (st (fl s')) -> Q tt s') ->
  wp (on_log (log_write b)) Q s.
Proof.
  intros [H1 H2 (bs & L1 & L2 & L3 & L4 & L5 & L6 & L7) H4 H5] Hh Hv HQ. destruct s as [[[dk v pin hl w] l] sb ic cw]. cbn in *.
  unfold on_log. rewrite wp_zoom. cbn [fl]. assert (Z.of_nat NBUF = LOGSIZE) as EN by done.
  apply (wp_log_write b bs); try done; [lia|lia|apply H4; lia|]. intros lb Hlb Hll. pose proof (length_logged b bs) as Hlen. apply HQ; try done.
  - assert (length (logged b bs) + (if decide (b ∈ pin) then S k else k) <= length bs + S k)%nat as Hroom.
    { case_decide as Hp; [|lia]. unfold logged. rewrite decide_True; [lia|]. rewrite L4 in Hp. by apply elem_of_list_to_set in Hp. }
    split; cbn; [|done| |intros _; apply H4; lia|].
    + apply (store_ok_pin b (mk_store dk v pin hl w) H1).
    + exists (logged b bs). split_and!; try done.
      * unfold log_array_ok in *. cbn. lia.
      * apply set_eq. intros x. rewrite L4, elem_of_list_to_set, elem_of_logged, elem_of_union, elem_of_singleton, elem_of_list_to_set. tauto.
      * by apply NoDup_logged.
      * lia.
      * lia.
    + intros x [->%elem_of_singleton|Hx]%elem_of_union; [done|by apply H5].
  - split; try done. cbn. by apply union_subseteq_r.
  - cbn. apply elem_of_union. left. by apply elem_of_singleton.
Qed.
Lemma wp_tx_log s h k b (Q : unit -> fstate -> Prop) :
  tx s h (S k) -> home (fsb s) b -> is_Some (V s !! b) ->
  (forall s', tx s' h k -> V s' = V s -> frame s s' -> b ∈ pinned (st (fl s')) -> Q tt s') -> wp (on_log (log_write b)) Q s.
Proof.
  intros T Hh Hv HQ. eapply wp_tx_log_room; [exact T|done|done|]. intros s' T' E' F' P'. apply HQ; try done. eapply tx_weaken; [exact T'|]. case_decide; lia.
Qed.
Lemma wp_tx_brelse s h k b (Q : unit -> fstate -> Prop) :
  tx s (b :: h) k -> clean s b ->
  (forall s', tx s' h k -> V s' = V s -> frame s s' -> Q tt s') -> wp (on_blk (brelse b)) Q s.
Proof.
  intros [H1 H2 H3 H4 H5] Hc HQ. apply wp_on_blk. pose proof (so_held _ H1) as Hnd. rewrite H2 in Hnd. apply NoDup_cons in Hnd as [Hni _].
  assert (filter (.≠ b) (b :: h) = h) as Ef.
  { rewrite filter_cons_False by tauto. clear -Hni. induction h as [|x h IH]; [done|]. apply not_elem_of_cons in Hni as [Hx Hni].
    rewrite filter_cons_True by congruence. by rewrite IH. }
  apply wp_brelse; [rewrite H2; by left|done|]. rewrite H2, Ef. apply HQ; try done. split; cbn; try done.
  rewrite <- Ef, <- H2. by apply store_ok_relse.
Qed.

(** Changing a held block, logging and releasing it. *)
Lemma wp_tx_update_room {A} s h k b d (m : M fstate A) (Q : A -> fstate -> Prop) :
  tx s (b :: h) (S k) -> is_Some (V s !! b) -> is_block d -> home (fsb s) b ->
  (forall s', tx s' h (if decide (b ∈ pinned (st (fl s))) then S k else k) -> V s' = <[b := d]> (V s) -> frame s s' ->
     b ∈ pinned (st (fl s')) -> wp m Q s') ->
  wp (on_blk (set_bdata b d) ;; on_log (log_write b) ;; on_blk (brelse b) ;; m) Q s.
Proof.
  intros T Hv Hd Hh HQ. rewrite wp_bind. eapply wp_tx_set; [exact T|by left|done|done|]. intros s1 T1 E1 F1 P1.
  rewrite wp_bind. eapply wp_tx_log_room; [exact T1|by rewrite (fr_sb _ _ F1)|rewrite E1, lookup_insert_eq; by eexists|]. intros s2 T2 E2 F2 P2. rewrite P1 in T2.
  rewrite wp_bind. eapply wp_tx_brelse; [exact T2|by left|]. intros s3 T3 E3 F3.
  apply HQ; [done|by rewrite E3, E2, E1|etrans; [exact F1|by etrans]|]. by apply (fr_pinned _ _ F3).
Qed.
Lemma wp_tx_update {A} s h k b d (m : M fstate A) (Q : A -> fstate -> Prop) :
  tx s (b :: h) (S k) -> is_Some (V s !! b) -> is_block d -> home (fsb s) b ->
  (forall s', tx s' h k -> V s' = <[b := d]> (V s) -> frame s s' -> wp m Q s') ->
  wp (on_blk (set_bdata b d) ;; on_log (log_write b) ;; on_blk (brelse b) ;; m) Q s.
Proof.
  intros T Hv Hd Hh HQ. eapply wp_tx_update_room; [exact T|done|done|done|]. intros s' T' E' F' _. apply HQ; try done.
  eapply tx_weaken; [exact T'|]. case_decide; lia.
Qed.
Lemma wp_tx_update_last_room s h k b d (Q : unit -> fstate -> Prop) :
  tx s (b :: h) (S k) -> is_Some (V s !! b) -> is_block d -> home (fsb s) b ->
  (forall s', tx s' h (if decide (b ∈ pinned (st (fl s))) then S k else k) -> V s' = <[b := d]> (V s) -> frame s s' ->
     b ∈ pinned (st (fl s')) -> Q tt s') ->
  wp (on_blk (set_bdata b d) ;; on_log (log_write b) ;; on_blk (brelse b)) Q s.
Proof.
  intros T Hv Hd Hh HQ. pose proof (wp_tx_update_room s h k b d (mret tt) Q T Hv Hd Hh HQ) as H. revert H. rewrite !wp_bind.
  intros H. eapply wp_mono; [exact H|]. intros [] s1 H1. cbn beta in *. rewrite !wp_bind in *. eapply wp_mono; [exact H1|].
  intros [] s2 H2. cbn beta in *. rewrite !wp_bind in H2. eapply wp_mono; [exact H2|]. by intros [] s3 H3.
Qed.
Lemma wp_tx_update_last s h k b d (Q : unit -> fstate -> Prop) :
  tx s (b :: h) (S k) -> is_Some (V s !! b) -> is_block d -> home (fsb s) b ->
  (forall s', tx s' h k -> V s' = <[b := d]> (V s) -> frame s s' -> Q tt s') ->
  wp (on_blk (set_bdata b d) ;; on_log (log_write b) ;; on_blk (brelse b)) Q s.
Proof.
  intros T Hv Hd Hh HQ. eapply wp_tx_update_last_room; [exact T|done|done|done|]. intros s' T' E' F' _. apply HQ; try done.
  eapply tx_weaken; [exact T'|]. case_decide; lia.
Qed.

Definition zeros : list Z := replicate (Z.to_nat BSIZE) 0.
Lemma zeros_block : is_block zeros.
Proof. split; [done|]. apply Forall_replicate. lia. Qed.

Lemma wp_bzero s h k b (Q : unit -> fstate -> Prop) :
  tx s h (S k) -> b ∉ h -> (length h < 3)%nat -> is_Some (V s !! b) -> home (fsb s) b ->
  (forall s', tx s' h k -> V s' = <[b := zeros]> (V s) -> frame s s' -> Q tt s') -> wp (bzero b) Q s.
Proof.
  intros T Hb Hh Hv Hhm HQ. unfold bzero. rewrite wp_bind. eapply wp_tx_bread; [exact T|done|done|done|]. intros s1 T1 E1 F1 _.
  apply wp_tx_update_last with (h := h) (k := k); [done|by rewrite E1|apply zeros_block|by rewrite (fr_sb _ _ F1)|]. intros s2 T2 E2 F2.
  apply HQ; [done|by rewrite E2, E1|by etrans].
Qed.
