(* ===== verification/FsAlloc.v ===== *)
(** The block allocator of fs.c: [balloc] and [bfree] on the bitmap. *)

From S2P Require Import Prelude Files Block Log Fs FsTx.
From stdpp Require Import base gmap list strings.
From Stdlib Require Import ZArith Lia.
Open Scope Z_scope.

(** ** Bits of a bitmap block *)

Lemma bm_mask_pow bi : bm_mask bi = 2 ^ (bi mod 8).
Proof. unfold bm_mask. rewrite Z.shiftl_mul_pow2, Z.mul_1_l; [done|]. zlia. Qed.
Lemma bm_test_bit d bi : bm_test d bi = Z.testbit (byte_at d (bi / 8)) (bi mod 8).
Proof. unfold bm_test. rewrite bm_mask_pow. apply has_pow2. zlia. Qed.

Lemma byte_bits x : 0 <= x -> (forall n, 8 <= n -> Z.testbit x n = false) -> x < 256.
Proof.
  intros H0 Hb. destruct (decide (x = 0)) as [->|Hx]; [lia|]. change 256 with (2 ^ 8). apply Z.log2_lt_pow2; [lia|].
  destruct (Z.lt_ge_cases (Z.log2 x) 8) as [|Hl]; [done|]. pose proof (Z.bit_log2 x). rewrite (Hb _ Hl) in H. by assert (false = true) by (apply H; lia).
Qed.
Lemma byte_at_bit d o n : is_bytes d -> 8 <= n -> Z.testbit (byte_at d o) n = false.
Proof. intros Hd Hn. pose proof (byte_at_range d o Hd). apply (testbit_small _ 8); lia. Qed.

Lemma bm_set_byte d bi : is_bytes d -> is_bytes [Z.lor (byte_at d (bi / 8)) (bm_mask bi)].
Proof.
  intros Hd. constructor; [|constructor]. pose proof (byte_at_range d (bi / 8) Hd) as Hr. rewrite bm_mask_pow.
  assert (0 <= Z.lor (byte_at d (bi / 8)) (2 ^ (bi mod 8))) as H0.
  { apply Z.lor_nonneg. split; [lia|]. apply Z.pow_nonneg. lia. }
  split; [done|]. apply byte_bits; [done|]. intros n Hn. rewrite Z.lor_spec, byte_at_bit by done.
  rewrite Z.pow2_bits_false; [done|]. zlia.
Qed.
Lemma bm_clear_byte d bi : is_bytes d -> is_bytes [clr (byte_at d (bi / 8)) (bm_mask bi)].
Proof.
  intros Hd. constructor; [|constructor]. pose proof (byte_at_range d (bi / 8) Hd) as Hr. unfold clr.
  assert (0 <= Z.ldiff (byte_at d (bi / 8)) (bm_mask bi)) as H0 by (apply Z.ldiff_nonneg; lia).
  split; [done|]. apply byte_bits; [done|]. intros n Hn. by rewrite Z.ldiff_spec, byte_at_bit.
Qed.
Lemma is_block_bm_set d bi : is_block d -> 0 <= bi < BPB -> is_block (bm_set d bi).
Proof. intros Hd Hb. apply is_block_put; [done|by apply bm_set_byte, Hd|zlia|]. cbn. unfold BPB, BSIZE in *. zlia. Qed.
Lemma is_block_bm_clear d bi : is_block d -> 0 <= bi < BPB -> is_block (bm_clear d bi).
Proof. intros Hd Hb. apply is_block_put; [done|by apply bm_clear_byte, Hd|zlia|]. cbn. unfold BPB, BSIZE in *. zlia. Qed.

Lemma bm_test_put d bi bj x :
  is_block d -> 0 <= bi < BPB -> 0 <= bj < BPB ->
  bm_test (put d (bi / 8) [x]) bj = if decide (bj / 8 = bi / 8) then Z.testbit x (bj mod 8) else bm_test d bj.
Proof.
  intros [Hl _] Hi Hj. rewrite !bm_test_bit. change (Z.to_nat BSIZE) with 512%nat in Hl. unfold BPB, BSIZE in *.
  rewrite byte_at_put by (cbn [length]; rewrite ?Hl; zlia). cbn [length]. repeat case_decide; try lia; [|done].
  replace (bj / 8 - bi / 8) with 0 by lia. done.
Qed.
Lemma bm_test_set d bi bj :
  is_block d -> 0 <= bi < BPB -> 0 <= bj < BPB -> bm_test (bm_set d bi) bj = bm_test d bj || bool_decide (bj = bi).
Proof.
  intros Hd Hi Hj. unfold bm_set. rewrite bm_test_put by done. case_decide as E.
  - rewrite bm_test_bit, E, bm_mask_pow, Z.lor_spec, Z.pow2_bits_eqb by zlia. f_equal. case_bool_decide as E2.
    + rewrite E2. apply Z.eqb_refl.
    + apply Z.eqb_neq. zlia.
  - rewrite bool_decide_false by congruence. by rewrite orb_false_r.
Qed.
Lemma bm_test_clear d bi bj :
  is_block d -> 0 <= bi < BPB -> 0 <= bj < BPB -> bm_test (bm_clear d bi) bj = bm_test d bj && bool_decide (bj ≠ bi).
Proof.
  intros Hd Hi Hj. unfold bm_clear, clr. rewrite bm_test_put by done. case_decide as E.
  - rewrite bm_test_bit, E, bm_mask_pow, Z.ldiff_spec, Z.pow2_bits_eqb by zlia. f_equal. case_bool_decide as E2.
    + apply negb_true_iff, Z.eqb_neq. zlia.
    + apply negb_false_iff, Z.eqb_eq. destruct (decide (bj = bi)) as [->|]; [done|tauto].
  - rewrite bool_decide_true by congruence. by rewrite andb_true_r.
Qed.

Lemma find_free_Some d n : forall m bi,
  find_free d (seqZ m n) = Some bi -> m <= bi < m + n /\ bm_test d bi = false /\ (forall x, m <= x < bi -> bm_test d x = true).
Proof.
  destruct (Z.lt_ge_cases 0 n) as [Hn|Hn]; [|intros m bi; by rewrite seqZ_nil].
  rewrite <- (Z2Nat.id n) by lia. clear Hn. induction (Z.to_nat n) as [|k IH]; intros m bi; [done|].
  rewrite seqZ_cons by lia. cbn [find_free]. destruct (bm_test d m) eqn:E.
  - replace (Z.pred (Z.of_nat (S k))) with (Z.of_nat k) by lia. intros (H1 & H2 & H3)%IH. split_and!; [lia|lia|done|].
    intros x Hx. destruct (decide (x = m)) as [->|]; [done|]. apply H3. lia.
  - intros [= <-]. split_and!; [lia|lia|done|]. lia.
Qed.
Lemma find_free_None d l bi : find_free d l = None -> bi ∈ l -> bm_test d bi = true.
Proof.
  induction l as [|x l IH]; cbn; intros H; [by intros ?%elem_of_nil|]. destruct (bm_test d x) eqn:E; [|done].
  intros [->|Hi]%elem_of_cons; [done|by apply IH].
Qed.

(** ** The layout of the disk *)

(** Block [b] is marked in the bitmap. *)
Definition in_use (v : gmap Z (list Z)) (sb : superblock) (b : Z) : bool :=
  bm_test (default [] (v !! BBLOCK b sb)) (b mod BPB).
(** The blocks after the superblock, the log, the inodes and the bitmap. *)
Definition data_block (sb : superblock) (b : Z) : Prop := sb_size sb - sb_nblocks sb <= b < sb_size sb.

(** The disk has all blocks up to [sb.size]; the inodes and the bitmap lie in
    the blocks before the data, which are marked as used. *)
Record layout (v : gmap Z (list Z)) (sb : superblock) : Prop := {
  ly_size : 0 < sb_size sb < 2147483648;
  ly_nblocks : 0 <= sb_nblocks sb < sb_size sb;
  ly_exist : forall b, 0 <= b < sb_size sb -> is_Some (v !! b);
  ly_block : forall b d, v !! b = Some d -> is_block d;
  ly_bmap : forall b, 0 <= b < sb_size sb -> 0 < BBLOCK b sb < sb_size sb - sb_nblocks sb;
  ly_inodes : forall n, 0 <= n < sb_ninodes sb -> 0 < IBLOCK n sb < sb_size sb - sb_nblocks sb;
  ly_sep : forall b n, 0 <= b < sb_size sb -> 0 <= n < sb_ninodes sb -> BBLOCK b sb ≠ IBLOCK n sb;
  ly_meta : forall b, 0 <= b < sb_size sb - sb_nblocks sb -> in_use v sb b = true;
  ly_log : forall b, in_log (sb_logstart sb) b -> 0 <= b < sb_size sb - sb_nblocks sb /\
             (forall x, 0 <= x < sb_size sb -> BBLOCK x sb ≠ b) /\ (forall n, 0 <= n < sb_ninodes sb -> IBLOCK n sb ≠ b)
}.

Lemma layout_free v sb b : layout v sb -> 0 <= b < sb_size sb -> in_use v sb b = false -> data_block sb b.
Proof.
  intros L Hb Hf. unfold data_block. destruct (Z.lt_ge_cases b (sb_size sb - sb_nblocks sb)); [|lia].
  rewrite (ly_meta _ _ L) in Hf by lia. done.
Qed.
Lemma bmap_not_data v sb b a : layout v sb -> 0 <= b < sb_size sb -> data_block sb a -> BBLOCK b sb ≠ a.
Proof. intros L Hb Ha E. pose proof (ly_bmap _ _ L b Hb). unfold data_block in Ha. lia. Qed.
Lemma inode_not_data v sb n a : layout v sb -> 0 <= n < sb_ninodes sb -> data_block sb a -> IBLOCK n sb ≠ a.
Proof. intros L Hb Ha E. pose proof (ly_inodes _ _ L n Hb). unfold data_block in Ha. lia. Qed.

(** The blocks that the file system changes are outside the log. *)
Lemma home_data v sb b : layout v sb -> data_block sb b -> home sb b.
Proof.
  intros L Hb. pose proof (ly_nblocks _ _ L). pose proof (ly_size _ _ L). unfold data_block in Hb. split; [|lia].
  intros Hl%(ly_log _ _ L). lia.
Qed.
Lemma home_bmap v sb b : layout v sb -> 0 <= b < sb_size sb -> home sb (BBLOCK b sb).
Proof.
  intros L Hb. pose proof (ly_bmap _ _ L b Hb). pose proof (ly_nblocks _ _ L). pose proof (ly_size _ _ L). split; [|lia].
  intros (_ & H2 & _)%(ly_log _ _ L). by apply (H2 b).
Qed.
Lemma home_inode v sb n : layout v sb -> 0 <= n < sb_ninodes sb -> home sb (IBLOCK n sb).
Proof.
  intros L Hn. pose proof (ly_inodes _ _ L n Hn). pose proof (ly_nblocks _ _ L). pose proof (ly_size _ _ L). split; [|lia].
  intros (_ & _ & H3)%(ly_log _ _ L). by apply (H3 n).
Qed.

(** Writing a block that is not part of the bitmap. *)
Lemma in_use_insert v sb a d b :
  BBLOCK b sb ≠ a -> in_use (<[a := d]> v) sb b = in_use v sb b.
Proof. intros H. unfold in_use. by rewrite lookup_insert_ne. Qed.
Lemma layout_insert v sb a d :
  layout v sb -> is_block d -> (forall b, 0 <= b < sb_size sb -> BBLOCK b sb ≠ a) -> layout (<[a := d]> v) sb.
Proof.
  intros L Hd Ha. pose proof (ly_nblocks _ _ L). destruct L as [L1 L2 L3 L4 L5 L6 L7 L8 L9]. split; try done.
  - intros b Hb. destruct (decide (a = b)) as [->|]; [rewrite lookup_insert_eq; eauto|rewrite lookup_insert_ne by done; eauto].
  - intros b x. destruct (decide (a = b)) as [->|]; [rewrite lookup_insert_eq; by intros [= <-]|rewrite lookup_insert_ne by done; eauto].
  - intros b Hb. rewrite in_use_insert; [by apply L8|]. apply Ha. lia.
Qed.

(** ** Changes of the bitmap *)

Definition mark (v : gmap Z (list Z)) (sb : superblock) (b : Z) : gmap Z (list Z) :=
  <[BBLOCK b sb := bm_set (default [] (v !! BBLOCK b sb)) (b mod BPB)]> v.
Definition unmark (v : gmap Z (list Z)) (sb : superblock) (b : Z) : gmap Z (list Z) :=
  <[BBLOCK b sb := bm_clear (default [] (v !! BBLOCK b sb)) (b mod BPB)]> v.

Lemma bit_range b : 0 <= b mod BPB < BPB.
Proof. by apply Z.mod_pos_bound. Qed.
Lemma bit_block_inj b b' sb : BBLOCK b sb = BBLOCK b' sb -> b mod BPB = b' mod BPB -> b = b'.
Proof. unfold BBLOCK, BPB, BSIZE. zlia. Qed.
Lemma layout_bitmap v sb b : layout v sb -> 0 <= b < sb_size sb -> exists d, v !! BBLOCK b sb = Some d /\ is_block d.
Proof.
  intros L Hb. pose proof (ly_bmap _ _ L b Hb). pose proof (ly_nblocks _ _ L). destruct (ly_exist _ _ L (BBLOCK b sb)) as [d Hd]; [lia|].
  exists d. split; [done|]. by apply (ly_block _ _ L _ _ Hd).
Qed.

Lemma in_use_mark v sb b b' :
  layout v sb -> 0 <= b < sb_size sb -> in_use (mark v sb b) sb b' = in_use v sb b' || bool_decide (b' = b).
Proof.
  intros L Hb. destruct (layout_bitmap _ _ _ L Hb) as (d & Hd & Bd). unfold in_use, mark. rewrite Hd. cbn [default].
  destruct (decide (BBLOCK b sb = BBLOCK b' sb)) as [E|E].
  - rewrite <- E, lookup_insert_eq, Hd. cbn. rewrite bm_test_set by (done || apply bit_range). f_equal. apply bool_decide_ext.
    split; [intros ?; by eapply bit_block_inj|congruence].
  - rewrite lookup_insert_ne by done. rewrite bool_decide_false by congruence. by rewrite orb_false_r.
Qed.
Lemma in_use_unmark v sb b b' :
  layout v sb -> 0 <= b < sb_size sb -> in_use (unmark v sb b) sb b' = in_use v sb b' && bool_decide (b' ≠ b).
Proof.
  intros L Hb. destruct (layout_bitmap _ _ _ L Hb) as (d & Hd & Bd). unfold in_use, unmark. rewrite Hd. cbn [default].
  destruct (decide (BBLOCK b sb = BBLOCK b' sb)) as [E|E].
  - rewrite <- E, lookup_insert_eq, Hd. cbn. rewrite bm_test_clear by (done || apply bit_range). f_equal. apply bool_decide_ext.
    split; [congruence|]. intros Hne E2. apply Hne. by eapply bit_block_inj.
  - rewrite lookup_insert_ne by done. rewrite bool_decide_true by congruence. by rewrite andb_true_r.
Qed.

(** A block of the bitmap changes, without freeing blocks before the data. *)
Lemma layout_bits v sb b d :
  layout v sb -> 0 <= b < sb_size sb -> is_block d ->
  (forall x, 0 <= x < sb_size sb - sb_nblocks sb -> in_use (<[BBLOCK b sb := d]> v) sb x = true) ->
  layout (<[BBLOCK b sb := d]> v) sb.
Proof.
  intros [L1 L2 L3 L4 L5 L6 L7 L8 L9] Hb Hd Hm. split; try done.
  - intros x Hx. destruct (decide (BBLOCK b sb = x)) as [<-|]; [rewrite lookup_insert_eq; eauto|rewrite lookup_insert_ne by done; eauto].
  - intros y x. destruct (decide (BBLOCK b sb = y)) as [<-|]; [rewrite lookup_insert_eq; by intros [= <-]|rewrite lookup_insert_ne by done; eauto].
Qed.
Lemma layout_mark v sb b : layout v sb -> 0 <= b < sb_size sb -> layout (mark v sb b) sb.
Proof.
  intros L Hb. destruct (layout_bitmap _ _ _ L Hb) as (d & Hd & Bd). apply layout_bits; [done|done| |].
  - rewrite Hd. apply is_block_bm_set; [done|apply bit_range].
  - intros x Hx. pose proof (in_use_mark _ _ _ x L Hb) as E. unfold mark in E. rewrite E, (ly_meta _ _ L) by done. done.
Qed.
Lemma layout_unmark v sb b : layout v sb -> data_block sb b -> layout (unmark v sb b) sb.
Proof.
  intros L Hb. pose proof (ly_nblocks _ _ L). unfold data_block in Hb. assert (0 <= b < sb_size sb) as Hb' by lia.
  destruct (layout_bitmap _ _ _ L Hb') as (d & Hd & Bd). apply layout_bits; [done|done| |].
  - rewrite Hd. apply is_block_bm_clear; [done|apply bit_range].
  - intros x Hx. pose proof (in_use_unmark _ _ _ x L Hb') as E. unfold unmark in E. rewrite E, (ly_meta _ _ L) by done.
    rewrite bool_decide_true by lia. done.
Qed.

(** The disk after [balloc] returned [r]. *)
Definition alloced (v : gmap Z (list Z)) (sb : superblock) (r : Z) : gmap Z (list Z) := <[r := zeros]> (mark v sb r).

Lemma in_use_alloced v sb r b :
  layout v sb -> data_block sb r -> 0 <= b < sb_size sb ->
  in_use (alloced v sb r) sb b = in_use v sb b || bool_decide (b = r).
Proof.
  intros L Hr Hb. unfold alloced. rewrite in_use_insert by (by eapply bmap_not_data). apply in_use_mark; [done|].
  pose proof (ly_nblocks _ _ L). unfold data_block in Hr. lia.
Qed.
Lemma layout_alloced v sb r : layout v sb -> data_block sb r -> layout (alloced v sb r) sb.
Proof.
  intros L Hr. pose proof (ly_nblocks _ _ L). unfold data_block in Hr. apply layout_insert; [|apply zeros_block|].
  - apply layout_mark; [done|lia].
  - intros b Hb. by eapply bmap_not_data.
Qed.
Lemma alloced_other v sb r b : b ≠ r -> BBLOCK r sb ≠ b -> alloced v sb r !! b = v !! b.
Proof. intros H1 H2. unfold alloced, mark. by rewrite !lookup_insert_ne. Qed.

Lemma alloced_zero v sb r : alloced v sb r !! r = Some zeros.
Proof. apply lookup_insert_eq. Qed.

(** ** [balloc] and [bfree] *)

Lemma wp_balloc_loop fuel : forall s h k b (Q : Z -> fstate -> Prop),
  tx s h (S (S k)) -> (length h < 3)%nat -> layout (V s) (fsb s) -> (forall x, x ∈ h -> data_block (fsb s) x /\ in_use (V s) (fsb s) x = true) ->
  (exists f, b <= f < sb_size (fsb s) /\ in_use (V s) (fsb s) f = false) ->
  0 <= b -> b mod BPB = 0 -> (Z.to_nat ((sb_size (fsb s) - b) / BPB) < fuel)%nat ->
  (forall x, 0 <= x < b -> in_use (V s) (fsb s) x = true) ->
  (forall r s', 0 <= r < sb_size (fsb s) -> in_use (V s) (fsb s) r = false -> (forall x, 0 <= x < r -> in_use (V s) (fsb s) x = true) ->
     tx s' h k -> V s' = alloced (V s) (fsb s) r -> frame s s' -> Q r s') ->
  wp (balloc_loop b fuel) Q s.
Proof.
  induction fuel as [|fuel IH]; intros s h k b Q T Hh L Hhd (f & Hf & Ff) Hb Hbm Hfuel Hall HQ; [lia|].
  cbn [balloc_loop]. wp_steps. set (sb := fsb s) in *. destruct (Z.ltb_spec b (sb_size sb)) as [Hlt|]; [|lia]. cbn [negb].
  destruct (layout_bitmap _ _ b L ltac:(lia)) as (d & Hd & Bd).
  assert (forall bi, 0 <= bi < Z.min BPB (sb_size sb - b) -> in_use (V s) sb (b + bi) = bm_test d bi /\ BBLOCK (b + bi) sb = BBLOCK b sb /\ (b + bi) mod BPB = bi) as Hin.
  { intros bi Hbi. assert (BBLOCK (b + bi) sb = BBLOCK b sb) as EB by (unfold BBLOCK, BPB, BSIZE in *; zlia).
    assert ((b + bi) mod BPB = bi) as Em by (unfold BPB, BSIZE in *; zlia). unfold in_use. by rewrite EB, Hd, Em. }
  rewrite wp_bind. eapply wp_tx_bread; [exact T| |done|by rewrite Hd|].
  { intros Hx. apply Hhd in Hx as [Hx _]. by apply (bmap_not_data _ _ b _ L ltac:(lia) Hx). }
  intros s1 T1 E1 F1 C1. rewrite wp_bind. eapply wp_tx_bdata; [exact T1|by left|by rewrite E1|].
  destruct (find_free d _) as [bi|] eqn:Efind.
  - apply find_free_Some in Efind as (Hbi & Fb & First). rewrite Z.add_0_l in Hbi. destruct (Hin bi Hbi) as (I1 & I2 & I3).
    rewrite Fb in I1. assert (data_block sb (b + bi)) as Hdat by (eapply layout_free; [done|lia|done]).
    apply wp_tx_update with (h := h) (k := S k); [done|rewrite E1, Hd; by eexists|apply is_block_bm_set; [done|lia]|rewrite (fr_sb _ _ F1); eapply home_bmap; [done|lia]|]. intros s2 T2 E2 F2.
    assert (V s2 = mark (V s) sb (b + bi)) as E2'. { rewrite E2, E1. unfold mark. by rewrite I2, I3, Hd. }
    rewrite wp_bind. apply (wp_bzero _ h k); [done| |done| | |].
    { intros Hx. apply Hhd in Hx as [_ Hx]. congruence. }
    { rewrite E2'. apply (ly_exist _ sb); [apply layout_mark; [done|lia]|lia]. }
    { rewrite (fr_sb _ _ F2), (fr_sb _ _ F1). by eapply home_data. }
    intros s3 T3 E3 F3. apply HQ; [lia|done| |done|by rewrite E3, E2'|etrans; [exact F1|by etrans]].
    intros x Hx. destruct (Z.lt_ge_cases x b) as [Hxb|Hxb]; [apply Hall; lia|]. replace x with (b + (x - b)) by lia.
    destruct (Hin (x - b)) as (-> & _); [lia|]. apply First. lia.
  - rewrite wp_bind. eapply wp_tx_brelse; [exact T1|exact C1|]. intros s2 T2 E2 F2.
    assert (V s2 = V s) as EV by congruence. pose proof (fr_sb _ _ F1) as S1. pose proof (fr_sb _ _ F2) as S2.
    assert (fsb s2 = fsb s) as ES by congruence. fold sb in ES.
    assert (forall x, 0 <= x < Z.min (b + BPB) (sb_size sb) -> in_use (V s) sb x = true) as Hall'.
    { intros x Hx. destruct (Z.lt_ge_cases x b) as [Hxb|Hxb]; [apply Hall; lia|]. replace x with (b + (x - b)) by lia.
      destruct (Hin (x - b)) as (-> & _); [lia|]. eapply find_free_None; [exact Efind|]. apply elem_of_seqZ. lia. }
    assert (b + BPB <= f) as Hf'.
    { destruct (Z.lt_ge_cases f (b + BPB)); [|lia]. rewrite Hall' in Ff by lia. done. }
    apply (IH s2 h k); rewrite ?EV, ?ES; try done.
    + exists f. split; [lia|done].
    + unfold BPB, BSIZE in *. lia.
    + rewrite <- Hbm. unfold BPB, BSIZE. zlia.
    + unfold BPB, BSIZE in *. zlia.
    + intros x Hx. apply Hall'. lia.
    + intros r s' R1 R2 R3 R4 R5 R6. apply HQ; try done. etrans; [exact F1|by etrans].
Qed.
Lemma wp_balloc s h k (Q : Z -> fstate -> Prop) :
  tx s h (S (S k)) -> (length h < 3)%nat -> layout (V s) (fsb s) -> (forall x, x ∈ h -> data_block (fsb s) x /\ in_use (V s) (fsb s) x = true) ->
  (exists f, 0 <= f < sb_size (fsb s) /\ in_use (V s) (fsb s) f = false) ->
  (forall r s', 0 <= r < sb_size (fsb s) -> in_use (V s) (fsb s) r = false -> (forall x, 0 <= x < r -> in_use (V s) (fsb s) x = true) ->
     tx s' h k -> V s' = alloced (V s) (fsb s) r -> frame s s' -> Q r s') ->
  wp balloc Q s.
Proof.
  intros T Hh L Hhd Hf HQ. unfold balloc. wp_steps. apply (wp_balloc_loop _ s h k); try done.
  - rewrite Z.sub_0_r. lia.
  - lia.
Qed.
Lemma wp_bfree s h k b (Q : unit -> fstate -> Prop) :
  tx s h (S k) -> (length h < 3)%nat -> layout (V s) (fsb s) -> (forall x, x ∈ h -> data_block (fsb s) x) ->
  0 <= b < sb_size (fsb s) -> in_use (V s) (fsb s) b = true ->
  (forall s', tx s' h k -> V s' = unmark (V s) (fsb s) b -> frame s s' -> Q tt s') ->
  wp (bfree b) Q s.
Proof.
  intros T Hh L Hhd Hb Hu HQ. unfold bfree. wp_steps. destruct (layout_bitmap _ _ _ L Hb) as (d & Hd & Bd).
  eapply wp_tx_bread; [exact T| |done|by rewrite Hd|].
  { intros Hx. apply Hhd in Hx. by apply (bmap_not_data _ _ _ _ L Hb Hx). }
  intros s1 T1 E1 F1 C1. wp_steps. eapply wp_tx_bdata; [exact T1|by left|by rewrite E1|].
  pose proof Hu as Hu'. unfold in_use in Hu'. rewrite Hd in Hu'. cbn in Hu'. rewrite Hu'. cbn [negb].
  apply wp_tx_update_last with (h := h) (k := k); [done|rewrite E1, Hd; by eexists|apply is_block_bm_clear; [done|apply bit_range]|rewrite (fr_sb _ _ F1); by eapply home_bmap|].
  intros s2 T2 E2 F2. apply HQ; [done| |by etrans]. rewrite E2, E1. unfold unmark. by rewrite Hd.
Qed.

(** ** Counting free blocks *)

Definition nfree (v : gmap Z (list Z)) (sb : superblock) : nat :=
  length (filter (fun b => in_use v sb b = false) (seqZ 0 (sb_size sb))).

Lemma nfree_pos v sb : (0 < nfree v sb)%nat -> exists f, 0 <= f < sb_size sb /\ in_use v sb f = false.
Proof.
  unfold nfree. intros H. destruct (filter _ _) as [|f l] eqn:E; [cbn in H; lia|].
  assert (f ∈ filter (fun b => in_use v sb b = false) (seqZ 0 (sb_size sb))) as Hf by (rewrite E; by left).
  apply list_elem_of_filter in Hf as [Hf Hs]. apply elem_of_seqZ in Hs. exists f. split; [lia|done].
Qed.
Lemma elem_of_free v sb b :
  b ∈ filter (fun b => in_use v sb b = false) (seqZ 0 (sb_size sb)) <-> 0 <= b < sb_size sb /\ in_use v sb b = false.
Proof. rewrite list_elem_of_filter, elem_of_seqZ, Z.add_0_l. tauto. Qed.
Lemma nfree_ext v v' sb :
  (forall b, 0 <= b < sb_size sb -> in_use v' sb b = in_use v sb b) -> nfree v' sb = nfree v sb.
Proof.
  intros H. apply Permutation_length, NoDup_Permutation; [apply NoDup_filter, NoDup_seqZ..|].
  intros b. rewrite !elem_of_free. split; intros [Hb Hf]; (split; [done|]); [rewrite <- H|rewrite H]; done.
Qed.
Lemma nfree_alloced v sb r :
  layout v sb -> data_block sb r -> in_use v sb r = false -> nfree v sb = S (nfree (alloced v sb r) sb).
Proof.
  intros L Hr Hf. unfold nfree. change (S (length ?l)) with (length (r :: l)). apply Permutation_length.
  pose proof (ly_nblocks _ _ L). assert (0 <= r < sb_size sb) as Hr' by (unfold data_block in Hr; lia).
  apply NoDup_Permutation; [apply NoDup_filter, NoDup_seqZ|apply NoDup_cons; split; [|apply NoDup_filter, NoDup_seqZ]|].
  - rewrite elem_of_free. intros [_ E]. rewrite in_use_alloced, bool_decide_true, orb_true_r in E by done. done.
  - intros b. rewrite elem_of_cons, !elem_of_free. split.
    + intros [Hb Hu]. destruct (decide (b = r)) as [->|Hne]; [by left|right]. split; [done|].
      by rewrite in_use_alloced, Hu, bool_decide_false.
    + intros [->|[Hb Hu]]; [done|]. split; [done|]. rewrite in_use_alloced in Hu by done. by apply orb_false_iff in Hu as [Hu _].
Qed.
Lemma nfree_insert v sb a d : layout v sb -> (forall b, 0 <= b < sb_size sb -> BBLOCK b sb ≠ a) -> nfree (<[a := d]> v) sb = nfree v sb.
Proof. intros L Ha. apply nfree_ext. intros b Hb. apply in_use_insert. by apply Ha. Qed.

(** [balloc] returns the first free block, zeroed and marked in the bitmap,
    and changes no other bit and no other block outside the bitmap; [bfree] of
    it restores the bitmap. *)
Theorem balloc_correct s k :
  tx s [] (3 + k) -> layout (V s) (fsb s) -> (0 < nfree (V s) (fsb s))%nat ->
  wp balloc (fun r s' => data_block (fsb s) r /\ in_use (V s) (fsb s) r = false /\ (forall b, 0 <= b < r -> in_use (V s) (fsb s) b = true) /\
    V s' !! r = Some zeros /\ layout (V s') (fsb s) /\
    (forall b, 0 <= b < sb_size (fsb s) -> in_use (V s') (fsb s) b = in_use (V s) (fsb s) b || bool_decide (b = r)) /\
    (forall b, b ≠ r -> (forall x, 0 <= x < sb_size (fsb s) -> BBLOCK x (fsb s) ≠ b) -> V s' !! b = V s !! b) /\
    wp (bfree r) (fun _ s'' => forall b, 0 <= b < sb_size (fsb s) -> in_use (V s'') (fsb s) b = in_use (V s) (fsb s) b) s') s.
Proof.
  intros T L Hf. eapply (wp_balloc s [] (S k)); try done; [cbn; lia|by intros x ?%elem_of_nil|by apply nfree_pos|].
  intros r s' Hr Fr First T' E' F'. assert (data_block (fsb s) r) as D by (by eapply layout_free). pose proof (layout_alloced _ _ _ L D) as L'.
  pose proof (fr_sb _ _ F') as ES. rewrite E'. split_and!; try done.
  - apply alloced_zero.
  - intros b Hb. by apply in_use_alloced.
  - intros b Hb Hx. apply alloced_other; [done|by apply Hx].
  - apply (wp_bfree s' [] k); rewrite ?E', ?ES; try done; [cbn; lia|by intros x ?%elem_of_nil| |].
    + rewrite in_use_alloced by done. rewrite bool_decide_true by done. apply orb_true_r.
    + intros s2 T2 E2 _ b Hb. rewrite E2, in_use_unmark by done. rewrite in_use_alloced by done. destruct (decide (b = r)) as [->|Hne].
      * rewrite (bool_decide_false (r ≠ r)) by tauto. by rewrite andb_false_r.
      * rewrite bool_decide_false by done. rewrite bool_decide_true by done. by rewrite orb_false_r, andb_true_r.
Qed.
