(* ===== verification/FsFile.v ===== *)
(** The contents of files: [bmap], [readi] and [writei] of fs.c implement
    reads and writes of a list of bytes. *)

From stdpp Require Import base gmap list strings.
From Stdlib Require Import ZArith Lia.
From S2P Require Import Prelude Files Block Log Fs FsTx FsAlloc.
Open Scope Z_scope.

(** ** The blocks of a file *)

(** The address of the block [j] of a file, 0 if there is none; the indirect
    block counts as the last one. *)
Definition SLOT_IND : Z := 140.
Definition ind (i : inode) : Z := nth NDIRECT (addrs i) 0.
Definition slot (v : gmap Z (list Z)) (i : inode) (j : Z) : Z :=
  if j <? 12 then nth (Z.to_nat j) (addrs i) 0
  else if j =? SLOT_IND then ind i
  else if ind i =? 0 then 0 else get32 (default [] (v !! ind i)) (4 * (j - 12)).
Definition is_slot (j : Z) : Prop := 0 <= j <= SLOT_IND.
Definition owns (v : gmap Z (list Z)) (i : inode) (b : Z) : Prop := b ≠ 0 /\ exists j, is_slot j /\ slot v i j = b.

(** The blocks of a file are data blocks in use, each at one place of the
    file. *)
Record file_inv (v : gmap Z (list Z)) (sb : superblock) (i : inode) : Prop := {
  fi_len : length (addrs i) = 13%nat;
  fi_blk : forall j, is_slot j -> slot v i j ≠ 0 -> data_block sb (slot v i j) /\ in_use v sb (slot v i j) = true;
  fi_inj : forall j j', is_slot j -> is_slot j' -> slot v i j = slot v i j' -> slot v i j ≠ 0 -> j = j'
}.

(** What allocating blocks for a file, and writing to them, may do. *)
Record grows (v v' : gmap Z (list Z)) (sb : superblock) (i i' : inode) : Prop := {
  gr_layout : layout v' sb;
  gr_inv : file_inv v' sb i';
  gr_meta : i' = {| i with addrs := addrs i' |};
  gr_use : forall b, 0 <= b < sb_size sb -> in_use v sb b = true -> in_use v' sb b = true;
  gr_keep : forall j, is_slot j -> slot v i j ≠ 0 -> slot v' i' j = slot v i j;
  gr_new : forall j, is_slot j -> slot v i j = 0 -> slot v' i' j ≠ 0 -> in_use v sb (slot v' i' j) = false;
  gr_frame : forall b, 0 <= b < sb_size sb -> in_use v sb b = true -> ~ owns v i b ->
               (forall x, 0 <= x < sb_size sb -> BBLOCK x sb ≠ b) -> v' !! b = v !! b
}.

Lemma data_block_range v sb b : layout v sb -> data_block sb b -> 0 < b < sb_size sb.
Proof. intros L Hb. pose proof (ly_nblocks _ _ L). unfold data_block in Hb. lia. Qed.

Lemma same_meta (i1 i2 i3 : inode) :
  i3 = {| i2 with addrs := addrs i3 |} -> i2 = {| i1 with addrs := addrs i2 |} -> i3 = {| i1 with addrs := addrs i3 |}.
Proof. intros H G. rewrite H at 1. rewrite G at 1 2 3 4 5 6 7 8 9 10. done. Qed.
Lemma grows_refl v sb i : layout v sb -> file_inv v sb i -> grows v v sb i i.
Proof. intros L F. split; try done; [by destruct i]. Qed.
Lemma grows_trans v1 v2 v3 sb i1 i2 i3 :
  grows v1 v2 sb i1 i2 -> grows v2 v3 sb i2 i3 -> grows v1 v3 sb i1 i3.
Proof.
  intros G H. split; try apply H.
  - pose proof (gr_meta _ _ _ _ _ H). pose proof (gr_meta _ _ _ _ _ G). by eapply same_meta.
  - intros b Hb Hu. eapply gr_use; [exact H|done|]. by eapply gr_use.
  - intros j Hj Hs. rewrite (gr_keep _ _ _ _ _ H), (gr_keep _ _ _ _ _ G); try done. by rewrite (gr_keep _ _ _ _ _ G).
  - intros j Hj Hs Hn. destruct (decide (slot v2 i2 j = 0)) as [E|E].
    + apply (gr_new _ _ _ _ _ H) in E; [|done..]. destruct (in_use v1 sb (slot v3 i3 j)) eqn:U; [|done].
      apply (gr_use _ _ _ _ _ G) in U; [congruence|]. pose proof (fi_blk _ _ _ (gr_inv _ _ _ _ _ H) j Hj Hn) as [Hd _].
      pose proof (data_block_range _ _ _ (gr_layout _ _ _ _ _ H) Hd). lia.
    + rewrite (gr_keep _ _ _ _ _ H) by done. by apply (gr_new _ _ _ _ _ G).
  - intros b Hb Hu Ho Hx. rewrite (gr_frame _ _ _ _ _ H), (gr_frame _ _ _ _ _ G); try done; [by eapply gr_use|].
    intros (Hb0 & j & Hj & Es). destruct (decide (slot v1 i1 j = 0)) as [E|E].
    + destruct (decide (slot v2 i2 j = 0)) as [E2|E2].
      * congruence.
      * apply (gr_new _ _ _ _ _ G) in E; [|done..]. congruence.
    + apply Ho. split; [done|]. exists j. split; [done|]. by rewrite <- (gr_keep _ _ _ _ _ G).
Qed.

(** ** How the blocks change *)

Lemma slot_ext v v' i j : (ind i ≠ 0 -> v' !! ind i = v !! ind i) -> slot v' i j = slot v i j.
Proof. intros H. unfold slot. repeat case_if; try done. bool_hyps. by rewrite H. Qed.
Lemma nth_insert (l : list Z) k a m : (k < length l)%nat -> nth m (<[k := a]> l) 0 = if decide (m = k) then a else nth m l 0.
Proof.
  intros Hk. rewrite !nth_lookup. case_decide as E; [subst; by rewrite list_lookup_insert_eq|by rewrite list_lookup_insert_ne].
Qed.
Definition with_addr (i : inode) (k : nat) (a : Z) : inode := {| i with addrs := <[k := a]> (addrs i) |}.
Lemma slot_set_direct v i k a j :
  length (addrs i) = 13%nat -> (k < 12)%nat -> is_slot j ->
  slot v (with_addr i k a) j = if decide (j = Z.of_nat k) then a else slot v i j.
Proof.
  intros Hl Hk Hj. unfold is_slot, SLOT_IND in *. assert (ind (with_addr i k a) = ind i) as Ei.
  { unfold ind, with_addr, NDIRECT. cbn [addrs]. rewrite nth_insert by lia. by rewrite decide_False by lia. }
  unfold slot at 1. rewrite Ei. unfold with_addr. cbn [addrs]. rewrite nth_insert by lia.
  destruct (Z.ltb_spec j 12).
  - unfold slot. destruct (Z.ltb_spec j 12); [|lia]. repeat case_decide; try lia; done.
  - rewrite decide_False by lia. unfold slot. by destruct (Z.ltb_spec j 12); [lia|].
Qed.
Lemma get32_zeros o : get32 zeros o = 0.
Proof.
  assert (forall x, byte_at zeros x = 0) as E; [|unfold get32; by rewrite !E].
  intros x. unfold byte_at, zeros. destruct (_ !! _) eqn:E; [|done]. by apply lookup_replicate in E as [-> _].
Qed.
Lemma slot_set_ind v i a j :
  length (addrs i) = 13%nat -> ind i = 0 -> a ≠ 0 -> v !! a = Some zeros -> is_slot j ->
  slot v (with_addr i NDIRECT a) j = if decide (j = SLOT_IND) then a else slot v i j.
Proof.
  intros Hl Hi Ha Hz Hj. assert (ind (with_addr i NDIRECT a) = a) as Ei.
  { unfold ind, with_addr, NDIRECT. cbn [addrs]. rewrite nth_insert by lia. by rewrite decide_True by lia. }
  unfold slot. rewrite Ei, Hi, Hz. unfold with_addr, is_slot, SLOT_IND, NDIRECT in *. cbn [addrs from_option id]. rewrite nth_insert by lia.
  destruct (Z.ltb_spec j 12).
  - by rewrite !decide_False by lia.
  - case_decide; [subst j; done|]. destruct (Z.eqb_spec j 140); [lia|]. destruct (Z.eqb_spec a 0); [done|]. by rewrite get32_zeros.
Qed.
Lemma slot_set_entry v i d j0 a j :
  ind i ≠ 0 -> v !! ind i = Some d -> is_block d -> 0 <= a < W32 -> 12 <= j0 < SLOT_IND -> is_slot j ->
  slot (<[ind i := put32 d (4 * (j0 - 12)) a]> v) i j = if decide (j = j0) then a else slot v i j.
Proof.
  intros Hi Hd [Hl _] Ha Hj0 Hj. change (Z.to_nat BSIZE) with 512%nat in Hl. unfold slot. rewrite lookup_insert_eq, Hd.
  unfold is_slot, SLOT_IND in *. cbn [from_option id]. destruct (Z.ltb_spec j 12); [by rewrite decide_False by lia|].
  destruct (Z.eqb_spec j 140); [by rewrite decide_False by lia|]. destruct (Z.eqb_spec (ind i) 0); [done|]. case_decide.
  - subst j0. rewrite get32_put32 by lia. by apply u32_small.
  - by rewrite get32_put32_ne by lia.
Qed.

(** One more block. *)
Lemma grows_slot v v' sb i i' j0 a :
  layout v sb -> file_inv v sb i -> layout v' sb -> data_block sb a -> in_use v sb a = false ->
  (forall b, 0 <= b < sb_size sb -> in_use v' sb b = in_use v sb b || bool_decide (b = a)) ->
  length (addrs i') = 13%nat -> i' = {| i with addrs := addrs i' |} -> is_slot j0 -> slot v i j0 = 0 ->
  (forall j, is_slot j -> slot v' i' j = if decide (j = j0) then a else slot v i j) ->
  (forall b, 0 <= b < sb_size sb -> in_use v sb b = true -> ~ owns v i b ->
     (forall x, 0 <= x < sb_size sb -> BBLOCK x sb ≠ b) -> v' !! b = v !! b) ->
  grows v v' sb i i'.
Proof.
  intros L F L' Ha Hf Hu Hl Hm Hj0 Hz Hs Hfr. pose proof (data_block_range _ _ _ L Ha) as Har.
  assert (forall j, is_slot j -> slot v i j ≠ 0 -> slot v i j ≠ a) as Hne.
  { intros j Hj Hn E. destruct (fi_blk _ _ _ F j Hj Hn) as [_ U]. congruence. }
  split; try done.
  - split; [done| |].
    + intros j Hj. rewrite Hs by done. case_decide.
      * intros _. split; [done|]. rewrite Hu, bool_decide_true, orb_true_r by (done || lia). done.
      * intros Hn. destruct (fi_blk _ _ _ F j Hj Hn) as [D U]. split; [done|]. pose proof (data_block_range _ _ _ L D). by rewrite Hu, U by lia.
    + intros j j' Hj Hj'. rewrite !Hs by done. repeat case_decide; subst; try done.
      * intros E Hn. exfalso. apply (Hne j'); congruence.
      * intros E Hn. exfalso. apply (Hne j); congruence.
      * by apply (fi_inj _ _ _ F).
  - intros b Hb U. by rewrite Hu, U.
  - intros j Hj Hn. rewrite Hs by done. case_decide; [congruence|done].
  - intros j Hj E. rewrite Hs by done. case_decide; [done|congruence].
Qed.

(** ** [bmap] *)

Lemma wp_get_inode s ip i (Q : inode -> fstate -> Prop) : icache s !! ip = Some i -> Q i s -> wp (get_inode ip) Q s.
Proof. intros H HQ. unfold wp, get_inode. by rewrite H. Qed.

(** The slot of an address of the inode. *)
Definition aslot (k : nat) : Z := if (k <? 12)%nat then Z.of_nat k else SLOT_IND.
Lemma slot_aslot v i k : (k <= 12)%nat -> slot v i (aslot k) = nth k (addrs i) 0.
Proof.
  intros Hk. unfold slot, aslot, SLOT_IND. destruct (Nat.ltb_spec k 12).
  - destruct (Z.ltb_spec (Z.of_nat k) 12); [|lia]. by rewrite Nat2Z.id.
  - replace k with 12%nat by lia. done.
Qed.
Lemma is_slot_aslot k : (k <= 12)%nat -> is_slot (aslot k).
Proof. unfold is_slot, aslot, SLOT_IND. destruct (Nat.ltb_spec k 12); lia. Qed.
Lemma slot_with_addr v i k a j :
  length (addrs i) = 13%nat -> (k <= 12)%nat -> nth k (addrs i) 0 = 0 -> a ≠ 0 -> v !! a = Some zeros -> is_slot j ->
  slot v (with_addr i k a) j = if decide (j = aslot k) then a else slot v i j.
Proof.
  intros Hl Hk Hn Ha Hz Hj. unfold aslot. destruct (Nat.ltb_spec k 12).
  - by apply slot_set_direct.
  - replace k with NDIRECT in * by (unfold NDIRECT; lia). by apply slot_set_ind.
Qed.

(** The state after block [j] of the file was looked up, with at most [c]
    blocks allocated. *)
Record mapped (s s' : fstate) (ip : nat) (i i' : inode) (j a : Z) (c : nat) : Prop := {
  mp_ic : icache s' = <[ip := i']> (icache s);
  mp_sb : fsb s' = fsb s;
  mp_cwd : fcwd s' = fcwd s;
  mp_grows : grows (V s) (V s') (fsb s) i i';
  mp_slot : slot (V s') i' j = a;
  mp_nz : a ≠ 0;
  mp_others : forall j', 0 <= j' < SLOT_IND -> j' ≠ j -> slot (V s') i' j' = slot (V s) i j';
  mp_data : forall b, data_block (fsb s) b -> in_use (V s) (fsb s) b = true -> b ≠ ind i -> V s' !! b = V s !! b;
  mp_zero : slot (V s) i j = 0 -> V s' !! a = Some zeros;
  mp_same : slot (V s) i j ≠ 0 -> V s' = V s /\ i' = i;
  mp_free : (nfree (V s) (fsb s) <= c + nfree (V s') (fsb s))%nat
}.

Lemma mapped_refl s s' ip i j c :
  icache s !! ip = Some i -> layout (V s) (fsb s) -> file_inv (V s) (fsb s) i -> slot (V s) i j ≠ 0 ->
  V s' = V s -> frame s s' -> mapped s s' ip i i j (slot (V s) i j) c.
Proof.
  intros Hi L F Hn EV [F1 F2 F3]. split; rewrite ?EV; try done.
  - by rewrite list_insert_id.
  - by apply grows_refl.
  - lia.
Qed.

(** The frame of [balloc]: blocks in use outside the bitmap stay. *)
Lemma alloced_frame v sb r b :
  layout v sb -> 0 <= r < sb_size sb -> in_use v sb r = false -> in_use v sb b = true ->
  (forall x, 0 <= x < sb_size sb -> BBLOCK x sb ≠ b) -> alloced v sb r !! b = v !! b.
Proof. intros L Hr Hf Hu Hb. apply alloced_other; [congruence|by apply Hb]. Qed.

(** A new block for an address of the inode. *)
Lemma mapped_addr s s' ip i k r :
  layout (V s) (fsb s) -> file_inv (V s) (fsb s) i -> (k <= 12)%nat -> nth k (addrs i) 0 = 0 ->
  0 <= r < sb_size (fsb s) -> in_use (V s) (fsb s) r = false ->
  icache s' = <[ip := with_addr i k r]> (icache s) -> fsb s' = fsb s -> fcwd s' = fcwd s -> V s' = alloced (V s) (fsb s) r ->
  mapped s s' ip i (with_addr i k r) (aslot k) r 1.
Proof.
  intros L F Hk Hz Hr Hfr H1 H2 H3 EV. set (sb := fsb s) in *.
  assert (data_block sb r) as Hd by (by eapply layout_free). pose proof (data_block_range _ _ _ L Hd) as Hr0.
  assert (forall j, is_slot j -> slot (V s') (with_addr i k r) j = if decide (j = aslot k) then r else slot (V s) i j) as Hs.
  { intros j Hj. rewrite slot_with_addr; try done; [|apply F|lia|by rewrite EV, alloced_zero].
    case_decide; [done|]. apply slot_ext. intros Hin. rewrite EV. apply alloced_frame; try done.
    - by apply (fi_blk _ _ _ F SLOT_IND).
    - intros x Hx. eapply bmap_not_data; [done|done|]. by apply (fi_blk _ _ _ F SLOT_IND). }
  split; try done.
  - rewrite EV in *. fold sb. eapply grows_slot with (j0 := aslot k) (a := r); try done.
    + by apply layout_alloced.
    + intros b Hb. by apply in_use_alloced.
    + unfold with_addr. cbn. rewrite length_insert. apply F.
    + by apply is_slot_aslot.
    + by rewrite slot_aslot.
    + intros b Hb Hu _ Hx. by apply alloced_frame.
  - rewrite Hs by (by apply is_slot_aslot). by rewrite decide_True.
  - lia.
  - intros j' Hj' Hne. rewrite Hs by (unfold is_slot; lia). by rewrite decide_False.
  - intros b Hb Hu _. rewrite EV. apply alloced_frame; try done. intros x Hx. by eapply bmap_not_data.
  - intros _. rewrite EV. apply alloced_zero.
  - by rewrite slot_aslot.
  - rewrite EV. fold sb. rewrite (nfree_alloced _ _ _ L Hd Hfr). lia.
Qed.
Lemma wp_bmap_direct_new s n ip i k (Q : Z -> fstate -> Prop) :
  tx s [] (S (S n)) -> layout (V s) (fsb s) -> icache s !! ip = Some i -> file_inv (V s) (fsb s) i ->
  (k <= 12)%nat -> nth k (addrs i) 0 = 0 -> (0 < nfree (V s) (fsb s))%nat ->
  (forall a s', tx s' [] n -> mapped s s' ip i (with_addr i k a) (aslot k) a 1 -> Q a s') -> wp (bmap_direct ip k) Q s.
Proof.
  intros T L Hi F Hk Hz Hf HQ. unfold bmap_direct. rewrite wp_bind. apply (wp_get_inode _ _ i); [done|]. rewrite Hz. cbn [Z.eqb].
  rewrite wp_bind. apply (wp_balloc s [] n); [done|cbn; lia|done|by intros x ?%elem_of_nil|by apply nfree_pos|].
  intros r s' Hr Hfr _ T' EV [F1 F2 F3]. unfold set_addr, set_inode. wp_steps.
  rewrite F2, (list_alter_insert_lookup _ _ _ i) by done. apply HQ; [by destruct T'; split|]. by apply mapped_addr.
Qed.
Lemma wp_bmap_direct s n ip i k (Q : Z -> fstate -> Prop) :
  tx s [] (S (S n)) -> layout (V s) (fsb s) -> icache s !! ip = Some i -> file_inv (V s) (fsb s) i ->
  (k <= 12)%nat -> (0 < nfree (V s) (fsb s))%nat ->
  (forall a s' i', tx s' [] n -> mapped s s' ip i i' (aslot k) a 1 -> Q a s') -> wp (bmap_direct ip k) Q s.
Proof.
  intros T L Hi F Hk Hf HQ. destruct (decide (nth k (addrs i) 0 = 0)) as [Hz|Hz].
  { eapply wp_bmap_direct_new; try done. intros a s' T' Mp. by eapply HQ. }
  unfold bmap_direct. rewrite wp_bind. apply (wp_get_inode _ _ i); [done|]. destruct (Z.eqb_spec (nth k (addrs i) 0) 0); [done|].
  wp_steps. rewrite <- (slot_aslot (V s)) by done. rewrite <- (slot_aslot (V s)) in Hz by done.
  apply (HQ _ _ i); [eapply tx_weaken; [exact T|lia]|]. by apply mapped_refl.
Qed.

Lemma slot_indirect v i j : 12 <= j < SLOT_IND -> ind i ≠ 0 -> slot v i j = get32 (default [] (v !! ind i)) (4 * (j - 12)).
Proof.
  intros Hj Hi. unfold slot. unfold SLOT_IND in *. destruct (Z.ltb_spec j 12); [lia|]. destruct (Z.eqb_spec j 140); [lia|].
  by destruct (Z.eqb_spec (ind i) 0).
Qed.
Lemma ind_slot v i : slot v i SLOT_IND = ind i.
Proof. done. Qed.
Lemma slot_exists v sb i j : layout v sb -> file_inv v sb i -> is_slot j -> slot v i j ≠ 0 -> exists d, v !! slot v i j = Some d /\ is_block d.
Proof.
  intros L F Hj Hn. destruct (fi_blk _ _ _ F j Hj Hn) as [D _]. pose proof (data_block_range _ _ _ L D).
  destruct (ly_exist _ _ L (slot v i j)) as [d Hd]; [lia|]. exists d. split; [done|]. by eapply ly_block.
Qed.

(** A file block that is there is found without changing the disk. *)
Lemma wp_bmap_present s k ip i bn (Q : Z -> fstate -> Prop) :
  tx s [] k -> layout (V s) (fsb s) -> icache s !! ip = Some i -> file_inv (V s) (fsb s) i ->
  0 <= bn < SLOT_IND -> slot (V s) i bn ≠ 0 ->
  Q (slot (V s) i bn) s -> wp (bmap ip bn) Q s.
Proof.
  intros T L Hi F Hbn Hn HQ. unfold bmap. unfold SLOT_IND, NINDIRECT, BSIZE, NDIRECT in *. destruct (Z.ltb_spec bn (Z.of_nat 12)) as [Hb|Hb].
  { assert (slot (V s) i bn = nth (Z.to_nat bn) (addrs i) 0) as Es by (unfold slot; by destruct (Z.ltb_spec bn 12); [|lia]).
    unfold bmap_direct. rewrite wp_bind. apply (wp_get_inode _ _ i); [done|]. rewrite <- Es. destruct (Z.eqb_spec (slot (V s) i bn) 0); [done|].
    by wp_steps. }
  destruct (Z.ltb_spec (bn - Z.of_nat 12) (512 / 4)); [|change (512 / 4) with 128 in *; lia].
  assert (ind i ≠ 0) as Hin.
  { intros E. apply Hn. unfold slot. rewrite E. destruct (Z.ltb_spec bn 12); [lia|]. by destruct (bn =? SLOT_IND). }
  unfold bmap_direct. rewrite !wp_bind. apply (wp_get_inode _ _ i); [done|]. change (nth 12 (addrs i) 0) with (ind i).
  destruct (Z.eqb_spec (ind i) 0); [done|]. wp_steps. destruct (slot_exists _ _ i SLOT_IND L F) as (d & Hd & _); [done|done|].
  change (slot (V s) i SLOT_IND) with (ind i) in Hd. eapply wp_tx_look; [exact T|exact Hd|].
  wp_steps. eapply wp_held_data; [exact Hd|].
  assert (slot (V s) i bn = get32 d (4 * (bn - Z.of_nat 12))) as Es.
  { rewrite slot_indirect by (try done; unfold SLOT_IND; lia). by rewrite Hd. }
  rewrite <- Es. destruct (Z.eqb_spec (slot (V s) i bn) 0); [done|]. wp_steps. eapply wp_held_release; [exact T|]. by wp_steps.
Qed.

(** A new entry of the indirect block. *)
Lemma mapped_entry s s' ip i bn r d :
  layout (V s) (fsb s) -> icache s !! ip = Some i -> file_inv (V s) (fsb s) i ->
  12 <= bn < SLOT_IND -> ind i ≠ 0 -> slot (V s) i bn = 0 -> V s !! ind i = Some d -> is_block d ->
  0 <= r < sb_size (fsb s) -> in_use (V s) (fsb s) r = false -> frame s s' ->
  is_block (put32 d (4 * (bn - 12)) r) ->
  V s' = <[ind i := put32 d (4 * (bn - 12)) r]> (alloced (V s) (fsb s) r) -> mapped s s' ip i i bn r 1.
Proof.
  intros L Hi F Hbn Hin Hz Hd Bd Hr Hfr [F1 F2 F3] Bp EV. set (sb := fsb s) in *.
  destruct (fi_blk _ _ _ F SLOT_IND) as [Dd Du]; [done|done|]. rewrite ind_slot in *.
  assert (data_block sb r) as Dr by (by eapply layout_free). pose proof (data_block_range _ _ _ L Dr) as Hr0. pose proof (ly_size _ _ L) as Hsz.
  assert (ind i ≠ r) as Hir by congruence.
  assert (alloced (V s) sb r !! ind i = Some d) as Hd2. { rewrite alloced_other by (try done; by eapply bmap_not_data). done. }
  assert (forall x, 0 <= x < sb_size sb -> BBLOCK x sb ≠ ind i) as Hbm by (intros x Hx; by eapply bmap_not_data).
  assert (forall j, is_slot j -> slot (V s') i j = if decide (j = bn) then r else slot (V s) i j) as Hs.
  { intros j Hj. rewrite EV, slot_set_entry; try done; [|unfold W32; lia]. case_decide; [done|]. apply slot_ext. intros _. congruence. }
  assert (forall b, b ≠ ind i -> in_use (V s) sb b = true -> (forall x, 0 <= x < sb_size sb -> BBLOCK x sb ≠ b) -> V s' !! b = V s !! b) as Hfr3.
  { intros b Hb Hu Hx. rewrite EV, lookup_insert_ne by done. by apply alloced_frame. }
  pose proof (layout_alloced _ _ _ L Dr) as La. assert (is_slot bn) as Hsl by (unfold is_slot; lia).
  split; rewrite ?F1, ?F2, ?F3; try done.
  - by rewrite list_insert_id.
  - eapply grows_slot with (j0 := bn) (a := r); try done.
    + rewrite EV. by apply layout_insert.
    + intros b Hb. rewrite EV, in_use_insert by (by apply Hbm). by apply in_use_alloced.
    + apply F.
    + by destruct i.
    + intros b Hb Hu Ho Hx. apply Hfr3; try done. intros ->. apply Ho. split; [done|]. by exists SLOT_IND.
  - rewrite Hs by done. by rewrite decide_True.
  - lia.
  - intros j' Hj' Hne. rewrite Hs by (unfold is_slot; lia). by rewrite decide_False.
  - intros b Hb Hu Hne. apply Hfr3; try done. intros x Hx. by eapply bmap_not_data.
  - intros _. rewrite EV, lookup_insert_ne by done. apply alloced_zero.
  - rewrite EV. fold sb. rewrite nfree_insert by done. rewrite (nfree_alloced _ _ _ L Dr Hfr). lia.
Qed.

(** The second half of [bmap], for an entry of the indirect block. *)
Lemma wp_bmap_entry s n ip i bn (Q : Z -> fstate -> Prop) :
  tx s [] (S (S (S n))) -> layout (V s) (fsb s) -> icache s !! ip = Some i -> file_inv (V s) (fsb s) i ->
  12 <= bn < SLOT_IND -> ind i ≠ 0 -> slot (V s) i bn = 0 -> (0 < nfree (V s) (fsb s))%nat ->
  (forall a s', tx s' [] n -> frame s s' -> mapped s s' ip i i bn a 1 -> Q a s') ->
  wp (bp ← on_blk (bread (ind i));
      a ← on_blk (bdata bp);
      if get32 a (4 * (bn - 12)) =? 0 then
        addr ← balloc;
        on_blk (set_bdata bp (put32 a (4 * (bn - 12)) addr)) ;;
        on_log (log_write bp) ;;
        on_blk (brelse bp) ;;
        mret addr
      else
        on_blk (brelse bp) ;;
        mret (get32 a (4 * (bn - 12)))) Q s.
Proof.
  intros T L Hi F Hbn Hin Hz Hf HQ. destruct (slot_exists _ _ i SLOT_IND L F) as (d & Hd & Bd); [done|done|].
  destruct (fi_blk _ _ _ F SLOT_IND) as [Dd Du]; [done|done|]. rewrite ind_slot in *.
  rewrite wp_bind. eapply wp_tx_bread; [exact T|by apply not_elem_of_nil|cbn; lia|by rewrite Hd|].
  intros s1 T1 E1 F1 C1. wp_steps. eapply wp_tx_bdata; [exact T1|by left|by rewrite E1|].
  assert (slot (V s) i bn = get32 d (4 * (bn - 12))) as Es by (rewrite slot_indirect by done; by rewrite Hd).
  rewrite <- Es, Hz. cbn [Z.eqb]. wp_steps. pose proof (fr_sb _ _ F1) as ES1. set (sb := fsb s) in *.
  apply (wp_balloc s1 [ind i] (S n)); rewrite ?E1, ?ES1; [done|cbn; lia|done| |by apply nfree_pos|].
  { intros x ->%list_elem_of_singleton. done. }
  intros r s2 Hr Hfr _ T2 E2 F2. assert (data_block sb r) as Dr by (by eapply layout_free).
  assert (ind i ≠ r) as Hir by congruence.
  assert (V s2 !! ind i = Some d) as Hd2. { rewrite E2, alloced_other by (try done; by eapply bmap_not_data). done. }
  assert (is_block (put32 d (4 * (bn - 12)) r)) as Bp.
  { apply is_block_put; [done|apply is_bytes32|lia|]. cbn [length]. unfold SLOT_IND, BSIZE in *. cbn. lia. }
  apply wp_tx_update with (h := []) (k := n); [done|by rewrite Hd2|done|rewrite (fr_sb _ _ F2), ES1; by eapply home_data|].
  intros s3 T3 E3 F3. wp_steps. assert (frame s s3) as Fr by (etrans; [exact F1|by etrans]). apply HQ; [done|done|].
  apply (mapped_entry _ _ _ _ _ _ d); try done. by rewrite E3, E2.
Qed.

(** A new entry of an indirect block that may itself be new. *)
Lemma mapped_trans s s1 s2 ip i i1 bn a r :
  layout (V s) (fsb s) -> 0 <= bn < SLOT_IND -> slot (V s) i bn = 0 ->
  mapped s s1 ip i i1 SLOT_IND a 1 -> mapped s1 s2 ip i1 i1 bn r 1 -> mapped s s2 ip i i1 bn r 2.
Proof.
  intros L Hbn Hz M1 M2. pose proof (mp_grows _ _ _ _ _ _ _ _ M1) as G1. pose proof (mp_grows _ _ _ _ _ _ _ _ M2) as G2.
  pose proof (mp_sb _ _ _ _ _ _ _ _ M1) as S1. rewrite S1 in G2. set (sb := fsb s) in *.
  split.
  - rewrite (mp_ic _ _ _ _ _ _ _ _ M2), (mp_ic _ _ _ _ _ _ _ _ M1). by rewrite list_insert_insert_eq.
  - by rewrite (mp_sb _ _ _ _ _ _ _ _ M2).
  - by rewrite (mp_cwd _ _ _ _ _ _ _ _ M2), (mp_cwd _ _ _ _ _ _ _ _ M1).
  - by eapply grows_trans.
  - apply (mp_slot _ _ _ _ _ _ _ _ M2).
  - apply (mp_nz _ _ _ _ _ _ _ _ M2).
  - intros j' Hj' Hne. rewrite (mp_others _ _ _ _ _ _ _ _ M2) by done. apply (mp_others _ _ _ _ _ _ _ _ M1); [done|lia].
  - intros b Hb Hu Hne. pose proof (data_block_range _ _ _ L Hb) as Hbr. rewrite (mp_data _ _ _ _ _ _ _ _ M2); rewrite ?S1; try done.
    + by apply (mp_data _ _ _ _ _ _ _ _ M1).
    + eapply gr_use; [exact G1|lia|done].
    + pose proof (mp_slot _ _ _ _ _ _ _ _ M1) as Ea. rewrite ind_slot in Ea. intros ->. destruct (decide (ind i = 0)) as [E|E].
      * pose proof (gr_new _ _ _ _ _ G1 SLOT_IND) as U. rewrite !ind_slot in U. fold sb in Hu. rewrite U in Hu; try done. rewrite Ea. apply (mp_nz _ _ _ _ _ _ _ _ M1).
      * apply Hne. by apply (gr_keep _ _ _ _ _ G1 SLOT_IND).
  - intros _. apply (mp_zero _ _ _ _ _ _ _ _ M2). rewrite (mp_others _ _ _ _ _ _ _ _ M1); [done|done|lia].
  - done.
  - pose proof (mp_free _ _ _ _ _ _ _ _ M1). pose proof (mp_free _ _ _ _ _ _ _ _ M2) as H2. rewrite S1 in H2. subst sb. lia.
Qed.

(** [bmap] gives the block of the file, allocated if there was none. *)
Lemma wp_bmap s n ip i bn (Q : Z -> fstate -> Prop) :
  tx s [] (5 + n) -> layout (V s) (fsb s) -> icache s !! ip = Some i -> file_inv (V s) (fsb s) i ->
  0 <= bn < SLOT_IND -> (2 <= nfree (V s) (fsb s))%nat ->
  (forall a s' i', tx s' [] n -> mapped s s' ip i i' bn a 2 -> Q a s') -> wp (bmap ip bn) Q s.
Proof.
  intros T L Hi F Hbn Hf HQ. destruct (decide (slot (V s) i bn = 0)) as [Hz|Hz].
  2: { eapply wp_bmap_present; try done. apply (HQ _ _ i); [eapply tx_weaken; [exact T|lia]|]. by apply mapped_refl. }
  unfold bmap. unfold NINDIRECT, BSIZE, NDIRECT. destruct (Z.ltb_spec bn (Z.of_nat 12)) as [Hb|Hb].
  { eapply (wp_bmap_direct s n); try done; [eapply tx_weaken; [exact T|lia]|lia|lia|]. intros a s' i' T' Mp.
    assert (aslot (Z.to_nat bn) = bn) as Ea by (unfold aslot; destruct (Nat.ltb_spec (Z.to_nat bn) 12); lia). rewrite Ea in Mp.
    apply (HQ _ _ i'); [done|]. destruct Mp. split; try done. lia. }
  destruct (Z.ltb_spec (bn - Z.of_nat 12) (512 / 4)); [|unfold SLOT_IND in *; change (512 / 4) with 128 in *; lia].
  rewrite wp_bind. eapply (wp_bmap_direct s (S (S (S n)))); try done; [lia|]. intros a s1 i1 T1 M1.
  change (aslot 12) with SLOT_IND in M1. pose proof (mp_grows _ _ _ _ _ _ _ _ M1) as G1. pose proof (mp_slot _ _ _ _ _ _ _ _ M1) as Ea.
  rewrite ind_slot in Ea. subst a. pose proof (mp_sb _ _ _ _ _ _ _ _ M1) as S1.
  eapply (wp_bmap_entry s1 n ip i1 bn); rewrite ?S1; try done.
  - apply G1.
  - rewrite (mp_ic _ _ _ _ _ _ _ _ M1). apply list_lookup_insert_eq. by apply lookup_lt_Some in Hi.
  - apply G1.
  - unfold SLOT_IND in *. lia.
  - apply (mp_nz _ _ _ _ _ _ _ _ M1).
  - rewrite (mp_others _ _ _ _ _ _ _ _ M1) by lia. done.
  - pose proof (mp_free _ _ _ _ _ _ _ _ M1). lia.
  - intros r s2 T2 _ M2. apply (HQ _ _ i1); [done|]. by eapply mapped_trans.
Qed.

(** ** Contents *)

Definition fblock (v : gmap Z (list Z)) (i : inode) (j : Z) : list Z := default [] (v !! slot v i j).
Definition fbyte (v : gmap Z (list Z)) (i : inode) (o : Z) : Z := byte_at (fblock v i (o / BSIZE)) (o mod BSIZE).
(** The first [n] bytes of a file, and all of them. *)
Definition upto (v : gmap Z (list Z)) (i : inode) (n : Z) : list Z := fbyte v i <$> seqZ 0 n.
Definition content (v : gmap Z (list Z)) (i : inode) : list Z := upto v i (size i).
(** The blocks of the first [n] bytes are there. *)
Definition covers (v : gmap Z (list Z)) (i : inode) (n : Z) : Prop := forall o, 0 <= o < n -> slot v i (o / BSIZE) ≠ 0.

(** A regular file or directory whose inode is in memory. *)
Record file_ok (v : gmap Z (list Z)) (sb : superblock) (i : inode) : Prop := {
  fo_inv : file_inv v sb i;
  fo_size : 0 <= size i <= MAXFILE * BSIZE;
  fo_covers : covers v i (size i);
  fo_inum : 0 <= inum i < sb_ninodes sb
}.

Lemma length_upto v i n : length (upto v i n) = Z.to_nat n.
Proof. unfold upto. by rewrite length_fmap, length_seqZ. Qed.
Lemma lookup_upto v i n k : (k < Z.to_nat n)%nat -> upto v i n !! k = Some (fbyte v i (Z.of_nat k)).
Proof. intros Hk. unfold upto. rewrite list_lookup_fmap, lookup_seqZ_lt by lia. cbn. f_equal. Qed.
Lemma upto_block v i off m :
  0 <= off -> 0 <= m <= BSIZE - off mod BSIZE -> length (fblock v i (off / BSIZE)) = Z.to_nat BSIZE ->
  fbyte v i <$> seqZ off m = take (Z.to_nat m) (drop (Z.to_nat (off mod BSIZE)) (fblock v i (off / BSIZE))).
Proof.
  intros Ho Hm Hl. assert (0 <= off mod BSIZE < BSIZE) as Hom by (by apply Z.mod_pos_bound). change (Z.to_nat BSIZE) with 512%nat in Hl.
  unfold BSIZE in *. apply list_eq_same_length with (n := Z.to_nat m).
  - rewrite length_take, length_drop, Hl. lia.
  - by rewrite length_fmap, length_seqZ.
  - intros k x y Hk. rewrite list_lookup_fmap, lookup_seqZ_lt by lia. rewrite lookup_take_lt, lookup_drop by lia. cbn. intros [= <-] Hy.
    unfold fbyte, byte_at, BSIZE. replace ((off + Z.of_nat k) / 512) with (off / 512) by zlia.
    replace (Z.to_nat ((off + Z.of_nat k) mod 512)) with (Z.to_nat (off mod 512) + k)%nat by zlia. by rewrite Hy.
Qed.
Lemma seqZ_split m a b : 0 <= a -> 0 <= b -> seqZ m (a + b) = seqZ m a ++ seqZ (m + a) b.
Proof. intros. by rewrite seqZ_app by lia. Qed.

Lemma wp_readi_loop fuel : forall s k ip i off n (Q : list Z -> fstate -> Prop),
  tx s [] k -> layout (V s) (fsb s) -> icache s !! ip = Some i -> file_inv (V s) (fsb s) i ->
  covers (V s) i (off + n) -> 0 <= off -> 0 <= n -> off + n <= MAXFILE * BSIZE -> (Z.to_nat n <= fuel)%nat ->
  Q (fbyte (V s) i <$> seqZ off n) s ->
  wp (readi_loop ip off n fuel) Q s.
Proof.
  induction fuel as [|fuel IH]; intros s k ip i off n Q T L Hi F Hc Ho Hn Hmax Hfuel HQ.
  { assert (n = 0) as -> by lia. done. }
  cbn [readi_loop]. destruct (Z.leb_spec n 0) as [Hn0|Hn0]; [assert (n = 0) as -> by lia; done|].
  assert (0 <= off / BSIZE < SLOT_IND) as Hbn by (unfold MAXFILE, BSIZE, SLOT_IND in *; zlia).
  assert (slot (V s) i (off / BSIZE) ≠ 0) as Hs by (apply Hc; lia). rewrite wp_bind.
  destruct (slot_exists _ _ i (off / BSIZE) L F) as (d & Hd & [Bl Bd]); [unfold is_slot; lia|done|].
  eapply wp_bmap_present; try done. rewrite wp_bind. eapply wp_tx_look; [exact T|exact Hd|]. cbv zeta. wp_steps.
  eapply wp_held_data; [exact Hd|]. wp_steps. eapply wp_held_release; [exact T|].
  assert (0 <= off mod BSIZE < BSIZE) as Hom by (by apply Z.mod_pos_bound).
  set (m := Z.min n (BSIZE - off mod BSIZE)) in *. wp_steps. eapply (IH s k ip i); try done; try lia.
  - intros o Hoo. apply Hc. lia.
  - wp_steps. replace d with (fblock (V s) i (off / BSIZE)) by (unfold fblock; by rewrite Hd).
    rewrite <- upto_block; [|lia|lia|unfold fblock; by rewrite Hd]. rewrite <- fmap_app, <- seqZ_split by lia.
    by replace (m + (n - m)) with n by lia.
Qed.

(** ** Writing *)

Lemma slot_data v sb i j d j' :
  file_inv v sb i -> 0 <= j < SLOT_IND -> slot v i j ≠ 0 -> slot (<[slot v i j := d]> v) i j' = slot v i j'.
Proof.
  intros F Hj Hn. apply slot_ext. intros Hi. rewrite lookup_insert_ne; [done|]. intros E. rewrite <- (ind_slot v) in E.
  apply (fi_inj _ _ _ F) in E; [lia|unfold is_slot; lia|done|done].
Qed.
Lemma grows_data v sb i j d :
  layout v sb -> file_inv v sb i -> 0 <= j < SLOT_IND -> slot v i j ≠ 0 -> is_block d -> grows v (<[slot v i j := d]> v) sb i i.
Proof.
  intros L F Hj Hn Hd. assert (is_slot j) as Hj' by (unfold is_slot; lia). destruct (fi_blk _ _ _ F j Hj' Hn) as [D _].
  assert (forall b, 0 <= b < sb_size sb -> BBLOCK b sb ≠ slot v i j) as Hb by (intros b Hb; by eapply bmap_not_data).
  assert (forall b, 0 <= b < sb_size sb -> in_use (<[slot v i j := d]> v) sb b = in_use v sb b) as Hu.
  { intros b Hb'. apply in_use_insert. by apply Hb. }
  pose proof (slot_data v sb i j d) as Hs.
  split.
  - by apply layout_insert.
  - split; [apply F| |].
    + intros k Hk. rewrite Hs by done. intros Hkn. destruct (fi_blk _ _ _ F k Hk Hkn) as [Dk Uk]. split; [done|].
      pose proof (data_block_range _ _ _ L Dk). by rewrite Hu by lia.
    + intros k k' Hk Hk'. rewrite !Hs by done. by apply (fi_inj _ _ _ F).
  - by destruct i.
  - intros b Hb' U. by rewrite Hu.
  - intros k Hk _. by apply Hs.
  - intros k Hk E. by rewrite Hs.
  - intros b Hb' U Ho _. rewrite lookup_insert_ne; [done|]. intros E. apply Ho. split; [congruence|]. by exists j.
Qed.

(** The blocks of the file after one of them was looked up and overwritten. *)
Lemma fblock_written s s1 ip i i1 bn a c d' j :
  layout (V s) (fsb s) -> file_inv (V s) (fsb s) i -> mapped s s1 ip i i1 bn a c -> 0 <= bn < SLOT_IND -> 0 <= j < SLOT_IND ->
  fblock (<[a := d']> (V s1)) i1 j =
    if decide (j = bn) then d' else if decide (slot (V s) i j = 0) then default [] (V s1 !! 0) else fblock (V s) i j.
Proof.
  intros L F Mp Hbn Hj. pose proof (mp_grows _ _ _ _ _ _ _ _ Mp) as G. pose proof (mp_slot _ _ _ _ _ _ _ _ Mp) as Ea.
  pose proof (mp_nz _ _ _ _ _ _ _ _ Mp) as Hn. unfold fblock. rewrite <- Ea in *. rewrite (slot_data _ _ _ _ _ _ (gr_inv _ _ _ _ _ G)) by done.
  case_decide as E; [subst j; by rewrite lookup_insert_eq|]. pose proof (mp_others _ _ _ _ _ _ _ _ Mp j Hj E) as Es. rewrite Es.
  assert (slot (V s1) i1 bn ≠ slot (V s) i j) as Hne.
  { intros E2. rewrite <- Es in E2. apply (fi_inj _ _ _ (gr_inv _ _ _ _ _ G)) in E2; [congruence|unfold is_slot; lia..|done]. }
  rewrite lookup_insert_ne by done. case_decide as E0; [by rewrite E0|]. assert (is_slot j) as Hj' by (unfold is_slot; lia).
  destruct (fi_blk _ _ _ F j Hj' E0) as [D U]. rewrite (mp_data _ _ _ _ _ _ _ _ Mp); try done.
  intros E3. rewrite <- (ind_slot (V s)) in E3. apply (fi_inj _ _ _ F) in E3; [lia|done|done|done].
Qed.
(** What [bmap] and the write of a piece within one block do to the bytes. *)
Lemma written_piece s s1 ip i i1 a c d off piece N :
  layout (V s) (fsb s) -> file_inv (V s) (fsb s) i -> mapped s s1 ip i i1 (off / BSIZE) a c ->
  covers (V s) i N -> 0 <= off <= N -> N <= MAXFILE * BSIZE -> off + Z.of_nat (length piece) <= MAXFILE * BSIZE ->
  0 < Z.of_nat (length piece) <= BSIZE - off mod BSIZE ->
  V s1 !! a = Some d -> is_block d ->
  let v := <[a := put d (off mod BSIZE) piece]> (V s1) in
  let N' := Z.max N (off + Z.of_nat (length piece)) in
  covers v i1 N' /\ upto v i1 N' = splice (upto (V s) i N) (Z.to_nat off) piece.
Proof.
  intros L F Mp Hc Ho HN Hmax Hp Hd Bd v N'. pose proof (mp_grows _ _ _ _ _ _ _ _ Mp) as G. pose proof (mp_slot _ _ _ _ _ _ _ _ Mp) as Ea.
  pose proof (mp_nz _ _ _ _ _ _ _ _ Mp) as Hn. set (m := Z.of_nat (length piece)) in *.
  assert (0 <= off mod BSIZE < BSIZE) as Hom by (by apply Z.mod_pos_bound). destruct Bd as [Bl Bd]. change (Z.to_nat BSIZE) with 512%nat in Bl.
  assert (forall o, 0 <= o < N' -> 0 <= o / BSIZE < SLOT_IND) as Hj by (intros o Hoo; unfold MAXFILE, BSIZE, SLOT_IND in *; zlia).
  assert (forall o, 0 <= o < N' -> o / BSIZE = off / BSIZE \/ o < N) as Hor.
  { intros o Hoo. destruct (Z.lt_ge_cases o N); [by right|left]. unfold BSIZE in *. zlia. }
  split.
  - intros o Hoo. unfold v. rewrite <- Ea at 1. rewrite (slot_data _ _ _ _ _ _ (gr_inv _ _ _ _ _ G)); [|apply Hj; lia|by rewrite Ea].
    destruct (decide (o / BSIZE = off / BSIZE)) as [E|E]; [by rewrite E, Ea|].
    rewrite (mp_others _ _ _ _ _ _ _ _ Mp) by (try done; by apply Hj). apply Hc. destruct (Hor o Hoo); [done|lia].
  - apply list_eq_same_length with (n := Z.to_nat N').
    + rewrite length_splice; rewrite length_upto; lia.
    + by rewrite length_upto.
    + intros k x y Hk. rewrite lookup_upto by done. rewrite lookup_splice by (rewrite length_upto; lia). intros [= <-].
      assert (0 <= Z.of_nat k < N') as Hk' by lia. unfold fbyte, v. rewrite (fblock_written _ _ _ _ _ _ _ _ _ _ L F Mp) by (apply Hj; lia).
      case_decide as Hin.
      * intros Hy. assert (Z.of_nat k / BSIZE = off / BSIZE) as E by (unfold BSIZE in *; zlia). rewrite decide_True by done.
        rewrite byte_at_put by (rewrite ?Bl; unfold BSIZE in *; zlia). rewrite decide_True by (unfold BSIZE in *; zlia).
        unfold byte_at. replace (Z.to_nat _) with (k - Z.to_nat off)%nat by (unfold BSIZE in *; zlia). by rewrite Hy.
      * assert (Z.of_nat k < N) as HkN by lia. rewrite lookup_upto by lia. intros [= <-]. pose proof (Hc (Z.of_nat k) ltac:(lia)) as Hs0.
        case_decide as E; [|by rewrite decide_False]. rewrite byte_at_put by (rewrite ?Bl; unfold BSIZE in *; zlia).
        rewrite decide_False by (unfold BSIZE in *; zlia). unfold fbyte, fblock. rewrite E in *. destruct (mp_same _ _ _ _ _ _ _ _ Mp Hs0) as [EV EI].
        rewrite EV, EI in *. by rewrite Ea, Hd.
Qed.

(** The number of blocks that [n] bytes from [off] on are in. *)
Definition wblocks (off n : Z) : nat := if n <=? 0 then 0 else Z.to_nat ((off + n - 1) / BSIZE - off / BSIZE + 1).
Lemma wblocks_step off n :
  0 <= off -> 0 < n -> let m := Z.min n (BSIZE - off mod BSIZE) in wblocks off n = S (wblocks (off + m) (n - m)).
Proof.
  intros Ho Hn m. unfold wblocks, m, BSIZE. destruct (Z.leb_spec n 0); [lia|].
  destruct (Z.leb_spec (n - Z.min n (512 - off mod 512)) 0); zlia.
Qed.

(** The state after bytes were written to file [ip]. *)
Record wrote (s s' : fstate) (ip : nat) (i i' : inode) (off : Z) (src : list Z) (N : Z) : Prop := {
  wr_ic : icache s' = <[ip := i']> (icache s);
  wr_sb : fsb s' = fsb s;
  wr_cwd : fcwd s' = fcwd s;
  wr_grows : grows (V s) (V s') (fsb s) i i';
  wr_covers : covers (V s') i' (Z.max N (off + Z.of_nat (length src)));
  wr_bytes : upto (V s') i' (Z.max N (off + Z.of_nat (length src))) = splice (upto (V s) i N) (Z.to_nat off) src;
  wr_same : off + Z.of_nat (length src) <= N -> i' = i
}.

Lemma wrote_nil s ip i off N :
  layout (V s) (fsb s) -> icache s !! ip = Some i -> file_inv (V s) (fsb s) i -> covers (V s) i N -> 0 <= off <= N ->
  wrote s s ip i i off [] N.
Proof.
  intros L Hi F Hc Ho. assert (Z.max N (off + Z.of_nat (length (@nil Z))) = N) as EN by (cbn; lia). split; rewrite ?EN; try done.
  - by rewrite list_insert_id.
  - by apply grows_refl.
  - rewrite splice_nil; [done|]. rewrite length_upto. lia.
Qed.
Lemma wrote_app s s1 s2 ip i i1 i2 off b1 b2 N :
  0 <= off <= N -> wrote s s1 ip i i1 off b1 N -> wrote s1 s2 ip i1 i2 (off + Z.of_nat (length b1)) b2 (Z.max N (off + Z.of_nat (length b1))) ->
  wrote s s2 ip i i2 off (b1 ++ b2) N.
Proof.
  intros Ho W1 W2. pose proof (wr_sb _ _ _ _ _ _ _ _ W1) as S1.
  assert (Z.max (Z.max N (off + Z.of_nat (length b1))) (off + Z.of_nat (length b1) + Z.of_nat (length b2)) = Z.max N (off + Z.of_nat (length (b1 ++ b2)))) as EN.
  { rewrite length_app. lia. }
  split; rewrite <- ?EN.
  - rewrite (wr_ic _ _ _ _ _ _ _ _ W2), (wr_ic _ _ _ _ _ _ _ _ W1). by rewrite list_insert_insert_eq.
  - by rewrite (wr_sb _ _ _ _ _ _ _ _ W2).
  - by rewrite (wr_cwd _ _ _ _ _ _ _ _ W2), (wr_cwd _ _ _ _ _ _ _ _ W1).
  - eapply grows_trans; [apply W1|]. pose proof (wr_grows _ _ _ _ _ _ _ _ W2) as G. by rewrite S1 in G.
  - apply (wr_covers _ _ _ _ _ _ _ _ W2).
  - rewrite (wr_bytes _ _ _ _ _ _ _ _ W2), (wr_bytes _ _ _ _ _ _ _ _ W1). rewrite Z2Nat.inj_add, Nat2Z.id by lia.
    apply splice_splice. rewrite length_upto. lia.
  - rewrite length_app. intros Hl. rewrite (wr_same _ _ _ _ _ _ _ _ W2), (wr_same _ _ _ _ _ _ _ _ W1) by lia. done.
Qed.

(** One round of the loop of [writei]. *)
Lemma wp_write_piece {A} s k ip i off piece N (m : M fstate A) (Q : A -> fstate -> Prop) :
  tx s [] (6 + k) -> layout (V s) (fsb s) -> icache s !! ip = Some i -> file_inv (V s) (fsb s) i ->
  covers (V s) i N -> 0 <= off <= N -> N <= MAXFILE * BSIZE -> off + Z.of_nat (length piece) <= MAXFILE * BSIZE ->
  0 < Z.of_nat (length piece) <= BSIZE - off mod BSIZE -> is_bytes piece -> (2 <= nfree (V s) (fsb s))%nat ->
  (forall s' i', tx s' [] k -> wrote s s' ip i i' off piece N -> (nfree (V s) (fsb s) <= 2 + nfree (V s') (fsb s))%nat -> wp m Q s') ->
  wp (a ← bmap ip (off / BSIZE);
      bp ← on_blk (bread a);
      d ← on_blk (bdata bp);
      on_blk (set_bdata bp (put d (off mod BSIZE) piece)) ;;
      on_log (log_write bp) ;;
      on_blk (brelse bp) ;;
      m) Q s.
Proof.
  intros T L Hi F Hc Ho HN Hmax Hp Hb Hf HQ. assert (0 <= off mod BSIZE < BSIZE) as Hom by (by apply Z.mod_pos_bound).
  assert (0 <= off / BSIZE < SLOT_IND) as Hbn by (unfold MAXFILE, BSIZE, SLOT_IND in *; zlia). rewrite wp_bind.
  eapply (wp_bmap s (S k)); try done. intros a s1 i1 T1 Mp. pose proof (mp_grows _ _ _ _ _ _ _ _ Mp) as G. pose proof (mp_slot _ _ _ _ _ _ _ _ Mp) as Ea.
  pose proof (mp_nz _ _ _ _ _ _ _ _ Mp) as Hn. destruct (slot_exists _ _ i1 (off / BSIZE) (gr_layout _ _ _ _ _ G) (gr_inv _ _ _ _ _ G)) as (d & Hd & Bd);
    [unfold is_slot; lia|by rewrite Ea|]. rewrite Ea in Hd.
  rewrite wp_bind. eapply wp_tx_bread; [exact T1|by apply not_elem_of_nil|cbn; lia|by rewrite Hd|]. intros s2 T2 E2 F2 C2.
  rewrite wp_bind. eapply wp_tx_bdata; [exact T2|by left|by rewrite E2|].
  assert (is_block (put d (off mod BSIZE) piece)) as Bp. { apply is_block_put; try done; [lia|]. unfold BSIZE in *. lia. }
  assert (home (fsb s2) a) as Hhm.
  { rewrite (fr_sb _ _ F2), (mp_sb _ _ _ _ _ _ _ _ Mp). eapply home_data; [exact L|]. rewrite <- Ea. apply (fi_blk _ _ _ (gr_inv _ _ _ _ _ G)); [unfold is_slot; lia|by rewrite Ea]. }
  apply wp_tx_update with (h := []) (k := k); [done|by rewrite E2, Hd|done|done|]. intros s3 T3 E3 F3. rewrite E2 in E3.
  assert (frame s1 s3) as [Fr1 Fr2 Fr3] by (by etrans). destruct (written_piece _ _ _ _ _ _ _ _ _ _ _ L F Mp Hc Ho HN Hmax Hp Hd Bd) as [W1 W2].
  rewrite <- E3 in W1, W2. pose proof (mp_sb _ _ _ _ _ _ _ _ Mp) as S1. pose proof (grows_data _ _ i1 (off / BSIZE) (put d (off mod BSIZE) piece) (gr_layout _ _ _ _ _ G) (gr_inv _ _ _ _ _ G) Hbn) as G2.
  rewrite Ea in G2. specialize (G2 Hn Bp). rewrite <- E3 in G2. apply (HQ s3 i1); [done| |].
  - split; rewrite ?Fr1, ?Fr2, ?Fr3; try done; [apply Mp|apply (mp_cwd _ _ _ _ _ _ _ _ Mp)|by eapply grows_trans|].
    intros Hl. apply (mp_same _ _ _ _ _ _ _ _ Mp), Hc. lia.
  - rewrite E3, nfree_insert; [apply (mp_free _ _ _ _ _ _ _ _ Mp)|apply G|]. intros b Hb'. eapply bmap_not_data; [apply L|done|].
    rewrite <- Ea. apply (fi_blk _ _ _ (gr_inv _ _ _ _ _ G)); [unfold is_slot; lia|by rewrite Ea].
Qed.

Lemma wp_writei_loop fuel : forall s k ip i src off N (Q : Z -> fstate -> Prop),
  tx s [] (6 * wblocks off (Z.of_nat (length src)) + k) -> layout (V s) (fsb s) -> icache s !! ip = Some i -> file_inv (V s) (fsb s) i ->
  covers (V s) i N -> 0 <= off <= N -> N <= MAXFILE * BSIZE -> off + Z.of_nat (length src) <= MAXFILE * BSIZE ->
  is_bytes src -> (2 * wblocks off (Z.of_nat (length src)) <= nfree (V s) (fsb s))%nat -> (length src <= fuel)%nat ->
  (forall s' i', tx s' [] k -> wrote s s' ip i i' off src N ->
     (nfree (V s) (fsb s) <= 2 * wblocks off (Z.of_nat (length src)) + nfree (V s') (fsb s))%nat -> Q (off + Z.of_nat (length src)) s') ->
  wp (writei_loop ip src off fuel) Q s.
Proof.
  induction fuel as [|fuel IH]; intros s k ip i src off N Q T L Hi F Hc Ho HN Hmax Hb Hf Hfuel HQ.
  { destruct src; [|cbn in Hfuel; lia]. cbn. replace off with (off + Z.of_nat (length (@nil Z))) at 1 by (cbn; lia). eapply HQ; [exact T|by apply wrote_nil|lia]. }
  destruct src as [|x src']; [cbn; replace off with (off + Z.of_nat (length (@nil Z))) at 1 by (cbn; lia); eapply HQ; [exact T|by apply wrote_nil|lia]|].
  cbn [writei_loop]. set (src := x :: src') in *. set (m := Z.min (Z.of_nat (length src)) (BSIZE - off mod BSIZE)).
  assert (0 < Z.of_nat (length src)) as Hl0 by (unfold src; cbn; lia). pose proof (wblocks_step off (Z.of_nat (length src)) ltac:(lia) Hl0) as Ew. fold m in Ew.
  cbv zeta in Ew. assert (0 <= off mod BSIZE < BSIZE) as Hom by (by apply Z.mod_pos_bound). rewrite Ew in T, Hf, HQ.
  assert (length (take (Z.to_nat m) src) = Z.to_nat m) as Elt by (rewrite length_take; lia).
  assert (Z.of_nat (length src) - m = Z.of_nat (length (drop (Z.to_nat m) src))) as Eld by (rewrite length_drop; lia).
  eapply (wp_write_piece s (6 * wblocks (off + m) (Z.of_nat (length src) - m) + k) ip i off (take (Z.to_nat m) src) N); rewrite ?Elt; try done; try lia.
  { eapply tx_weaken; [exact T|lia]. }
  { by apply Forall_take. }
  intros s1 i1 T1 W1 Hf1. pose proof (wr_sb _ _ _ _ _ _ _ _ W1) as S1. pose proof (wr_grows _ _ _ _ _ _ _ _ W1) as G1.
  replace (off + m) with (off + Z.of_nat (length (take (Z.to_nat m) src))) by lia.
  eapply (IH s1 k ip i1 _ _ (Z.max N (off + Z.of_nat (length (take (Z.to_nat m) src))))); rewrite ?S1; try done; try lia.
  - rewrite <- Eld, Elt. rewrite Z2Nat.id by lia. done.
  - apply G1.
  - rewrite (wr_ic _ _ _ _ _ _ _ _ W1). apply list_lookup_insert_eq. by apply lookup_lt_Some in Hi.
  - apply G1.
  - apply (wr_covers _ _ _ _ _ _ _ _ W1).
  - by apply Forall_drop.
  - rewrite <- Eld, Elt. rewrite Z2Nat.id by lia. lia.
  - intros s2 i2 T2 W2 Hf2. replace (off + _ + _) with (off + Z.of_nat (length src)) by lia. apply (HQ _ i2); [done| |].
    + rewrite <- (take_drop (Z.to_nat m) src). by eapply wrote_app.
    + rewrite <- Eld, Elt in Hf2. rewrite Z2Nat.id in Hf2 by lia. lia.
Qed.

(** ** Inodes on disk *)

Definition inode_block (v : gmap Z (list Z)) (sb : superblock) (n : Z) : list Z := default [] (v !! IBLOCK n sb).
(** The inode on disk is the one in memory. *)
Definition synced (v : gmap Z (list Z)) (sb : superblock) (i : inode) : Prop :=
  decode_inode (inode_block v sb (inum i)) (dip (inum i)) i = i.
(** The fields fit into those of [struct dinode]. *)
Definition is_s16 (x : Z) : Prop := s16 x = x.
Record inode_wf (i : inode) : Prop := {
  iw_type : is_s16 (itype i);
  iw_major : is_s16 (major i);
  iw_minor : is_s16 (minor i);
  iw_nlink : is_s16 (nlink i);
  iw_size : 0 <= size i < W32;
  iw_len : length (addrs i) = 13%nat;
  iw_addrs : Forall (fun a => 0 <= a < W32) (addrs i)
}.

Lemma dip_range n : 0 <= dip n <= 448.
Proof. unfold dip, IPB, BSIZE. change (512 / 64) with 8. zlia. Qed.
Lemma length_bind_bytes32 l : length (l ≫= bytes32) = (4 * length l)%nat.
Proof. induction l as [|a l IH]; [done|]. cbn in *. lia. Qed.
Lemma length_encode_inode i : length (addrs i) = 13%nat -> length (encode_inode i) = 64%nat.
Proof. intros Hl. unfold encode_inode. rewrite !length_app, length_bind_bytes32, Hl. done. Qed.
Lemma is_bytes_encode_inode i : is_bytes (encode_inode i).
Proof.
  unfold encode_inode, is_bytes. repeat (apply Forall_app; split); try apply is_bytes16; [apply is_bytes32|].
  apply Forall_forall. intros x Hx. apply list_elem_of_bind in Hx as (a & Hx & _). pose proof (is_bytes32 a) as Hb.
  by apply (proj1 (Forall_forall _ _) Hb).
Qed.
Lemma s16_u16 x : s16 (u16 x) = s16 x.
Proof. unfold s16. by replace (u16 (u16 x)) with (u16 x) by zlia. Qed.

Lemma get16_field d o bs k v :
  0 <= o -> 0 <= k -> (Z.to_nat o + length bs <= length d)%nat -> k + 2 <= Z.of_nat (length bs) ->
  get16 bs k = get16 (bytes16 v) 0 -> is_s16 v -> s16 (get16 (put d o bs) (o + k)) = v.
Proof.
  intros Ho Hk Hl Hs E Hv. rewrite get16_put by lia. replace (o + k - o) with k by lia. rewrite E, get16_bytes16, s16_u16. done.
Qed.
Lemma get32_field d o bs k v :
  0 <= o -> 0 <= k -> (Z.to_nat o + length bs <= length d)%nat -> k + 4 <= Z.of_nat (length bs) ->
  get32 bs k = get32 (bytes32 v) 0 -> 0 <= v < W32 -> get32 (put d o bs) (o + k) = v.
Proof.
  intros Ho Hk Hl Hs E Hv. rewrite get32_put by lia. replace (o + k - o) with k by lia. rewrite E, get32_bytes32. by apply u32_small.
Qed.
Lemma get32_bind l k : (k < length l)%nat -> get32 (l ≫= bytes32) (4 * Z.of_nat k) = get32 (bytes32 (nth k l 0)) 0.
Proof.
  revert k. induction l as [|a l IH]; intros k Hk; [cbn in Hk; lia|]. destruct k as [|k]; [done|]. cbn [nth].
  rewrite <- IH by (cbn in Hk; lia). unfold get32, byte_at. cbn [mbind list_bind].
  replace (Z.to_nat (4 * Z.of_nat (S k))) with (4 + Z.to_nat (4 * Z.of_nat k))%nat by lia.
  replace (Z.to_nat (4 * Z.of_nat (S k) + 1)) with (4 + Z.to_nat (4 * Z.of_nat k + 1))%nat by lia.
  replace (Z.to_nat (4 * Z.of_nat (S k) + 2)) with (4 + Z.to_nat (4 * Z.of_nat k + 2))%nat by lia.
  replace (Z.to_nat (4 * Z.of_nat (S k) + 3)) with (4 + Z.to_nat (4 * Z.of_nat k + 3))%nat by lia. done.
Qed.
(** Writing an inode and reading it back. *)
Lemma decode_encode_inode d o i :
  is_block d -> 0 <= o <= 448 -> inode_wf i -> decode_inode (put d o (encode_inode i)) o i = i.
Proof.
  intros [Hl _] Ho W. change (Z.to_nat BSIZE) with 512%nat in Hl. pose proof (length_encode_inode i (iw_len _ W)) as El.
  assert ((fun k => get32 (put d o (encode_inode i)) (o + DI_addrs + 4 * k)) <$> seqZ 0 13 = addrs i) as Ea.
  { apply list_eq_same_length with (n := 13%nat); [apply W|by rewrite length_fmap, length_seqZ|].
    intros k x y Hk. rewrite list_lookup_fmap, lookup_seqZ_lt by lia. cbn [fmap option_fmap option_map]. intros [= <-] Hy.
    unfold DI_addrs. replace (o + 12 + 4 * (0 + Z.of_nat k)) with (o + (12 + 4 * Z.of_nat k)) by lia. apply get32_field; try lia.
    - assert (get32 (encode_inode i) (12 + 4 * Z.of_nat k) = get32 (addrs i ≫= bytes32) (4 * Z.of_nat k)) as ->.
      { unfold get32, byte_at. rewrite <- !Z.add_assoc. rewrite !(Z2Nat.inj_add 12) by lia. done. }
      rewrite get32_bind by (rewrite (iw_len _ W); lia). rewrite (nth_lookup_Some _ _ _ _ Hy). done.
    - by apply (Forall_lookup_1 _ _ _ _ (iw_addrs _ W) Hy). }
  unfold decode_inode. rewrite Ea. destruct W as [W1 W2 W3 W4 W5 W6 W7]. unfold DI_type, DI_major, DI_minor, DI_nlink, DI_size.
  rewrite (get16_field _ _ _ 0 (itype i)), (get16_field _ _ _ 2 (major i)), (get16_field _ _ _ 4 (minor i)), (get16_field _ _ _ 6 (nlink i)),
    (get32_field _ _ _ 8 (size i)) by (done || lia). by destruct i.
Qed.
(** The other inodes of the block. *)
Lemma decode_inode_other d o o' i i' :
  is_block d -> 0 <= o <= 448 -> 0 <= o' <= 448 -> o' + 64 <= o \/ o + 64 <= o' -> length (addrs i) = 13%nat ->
  decode_inode (put d o (encode_inode i)) o' i' = decode_inode d o' i'.
Proof.
  intros [Hl _] Ho Ho' Hd Ha. change (Z.to_nat BSIZE) with 512%nat in Hl. pose proof (length_encode_inode i Ha) as El.
  unfold decode_inode, DI_type, DI_major, DI_minor, DI_nlink, DI_size, DI_addrs.
  rewrite !get16_put_ne, get32_put_ne by lia. f_equal. apply list_fmap_ext. intros k x Hk. apply lookup_seqZ in Hk as [-> Hk].
  apply get32_put_ne; lia.
Qed.
Lemma synced_wf v sb i : is_bytes (inode_block v sb (inum i)) -> synced v sb i -> inode_wf i.
Proof.
  intros Hb E. unfold synced in E. rewrite <- E. clear E. unfold decode_inode.
  assert (forall x, is_s16 (s16 x)) as Hs. { intros x. unfold is_s16, s16. repeat (case_if; bool_hyps); zlia. }
  split; cbn [itype major minor nlink size addrs]; try apply Hs; [by apply get32_range|done|].
  apply Forall_fmap, Forall_forall. intros x _. by apply get32_range.
Qed.

(** The disk after [iupdate]. *)
Definition inode_written (v : gmap Z (list Z)) (sb : superblock) (i : inode) : gmap Z (list Z) :=
  <[IBLOCK (inum i) sb := put (inode_block v sb (inum i)) (dip (inum i)) (encode_inode i)]> v.

Lemma layout_inode v sb n : layout v sb -> 0 <= n < sb_ninodes sb -> is_block (inode_block v sb n) /\ is_Some (v !! IBLOCK n sb).
Proof.
  intros L Hn. pose proof (ly_inodes _ _ L n Hn). pose proof (ly_nblocks _ _ L). destruct (ly_exist _ _ L (IBLOCK n sb)) as [d Hd]; [lia|].
  unfold inode_block. rewrite Hd. split; [|done]. by eapply ly_block.
Qed.
Lemma is_block_encoded d n i : is_block d -> length (addrs i) = 13%nat -> is_block (put d (dip n) (encode_inode i)).
Proof.
  intros Hd Hl. pose proof (dip_range n). apply is_block_put; [done|apply is_bytes_encode_inode|lia|].
  rewrite length_encode_inode by done. unfold BSIZE. lia.
Qed.
Lemma wp_iupdate s k ip i (Q : unit -> fstate -> Prop) :
  tx s [] (S k) -> layout (V s) (fsb s) -> icache s !! ip = Some i -> 0 <= inum i < sb_ninodes (fsb s) -> length (addrs i) = 13%nat ->
  (forall s', tx s' [] k -> frame s s' -> V s' = inode_written (V s) (fsb s) i -> Q tt s') -> wp (iupdate ip) Q s.
Proof.
  intros T L Hi Hn Hl HQ. unfold iupdate. rewrite wp_bind. apply (wp_get_inode _ _ i); [done|]. wp_steps.
  destruct (layout_inode _ _ _ L Hn) as [Bd [d Hd]]. assert (inode_block (V s) (fsb s) (inum i) = d) as Ed by (unfold inode_block; by rewrite Hd).
  eapply wp_tx_bread; [exact T|by apply not_elem_of_nil|cbn; lia|by rewrite Hd|]. intros s1 T1 E1 F1 C1. wp_steps.
  eapply wp_tx_bdata; [exact T1|by left|by rewrite E1|]. rewrite Ed in Bd.
  apply wp_tx_update_last with (h := []) (k := k); [done|by rewrite E1, Hd|by apply is_block_encoded|rewrite (fr_sb _ _ F1); by eapply home_inode|].
  intros s2 T2 E2 F2. apply HQ; [done|by etrans|]. rewrite E2, E1. unfold inode_written. by rewrite Ed.
Qed.

Section InodeWritten.
Variables (v : gmap Z (list Z)) (sb : superblock) (i : inode).
Hypothesis L : layout v sb.
Hypothesis Hn : 0 <= inum i < sb_ninodes sb.
Hypothesis Hl : length (addrs i) = 13%nat.

Lemma inode_written_bmap b : 0 <= b < sb_size sb -> BBLOCK b sb ≠ IBLOCK (inum i) sb.
Proof. intros Hb. by apply (ly_sep _ _ L). Qed.
Lemma inode_written_layout : layout (inode_written v sb i) sb.
Proof.
  apply layout_insert; [done| |by apply inode_written_bmap]. apply is_block_encoded; [|done]. by apply layout_inode.
Qed.
Lemma inode_written_use b : 0 <= b < sb_size sb -> in_use (inode_written v sb i) sb b = in_use v sb b.
Proof. intros Hb. apply in_use_insert. by apply inode_written_bmap. Qed.
Lemma inode_written_data b : data_block sb b -> inode_written v sb i !! b = v !! b.
Proof. intros Hb. apply lookup_insert_ne. by eapply inode_not_data. Qed.
Lemma inode_written_slot x j : file_inv v sb x -> slot (inode_written v sb i) x j = slot v x j.
Proof. intros F. apply slot_ext. intros Hi. apply inode_written_data. by apply (fi_blk _ _ _ F SLOT_IND). Qed.
Lemma inode_written_inv x : file_inv v sb x -> file_inv (inode_written v sb i) sb x.
Proof.
  intros F. split; [apply F| |].
  - intros j Hj. rewrite inode_written_slot by done. intros Hnz. destruct (fi_blk _ _ _ F j Hj Hnz) as [D U]. split; [done|].
    pose proof (data_block_range _ _ _ L D). by rewrite inode_written_use by lia.
  - intros j j' Hj Hj'. rewrite !inode_written_slot by done. by apply (fi_inj _ _ _ F).
Qed.
Lemma inode_written_upto x N : file_inv v sb x -> covers v x N -> N <= MAXFILE * BSIZE -> upto (inode_written v sb i) x N = upto v x N.
Proof.
  intros F Hc HN. unfold upto. apply list_fmap_ext. intros k o Ho. apply lookup_seqZ in Ho as [-> Ho]. unfold fbyte, fblock.
  rewrite inode_written_slot by done. rewrite inode_written_data; [done|]. apply (fi_blk _ _ _ F); [|apply Hc; lia].
  unfold is_slot, SLOT_IND, MAXFILE, BSIZE in *. zlia.
Qed.
Lemma inode_written_synced : inode_wf i -> synced (inode_written v sb i) sb i.
Proof.
  intros W. unfold synced, inode_block, inode_written. rewrite lookup_insert_eq. cbn [from_option id].
  apply decode_encode_inode; [by apply layout_inode|apply dip_range|done].
Qed.
Lemma inode_written_other n x :
  0 <= n < sb_ninodes sb -> n ≠ inum i ->
  decode_inode (inode_block (inode_written v sb i) sb n) (dip n) x = decode_inode (inode_block v sb n) (dip n) x.
Proof.
  intros Hn' Hne. unfold inode_block at 1, inode_written. destruct (decide (IBLOCK (inum i) sb = IBLOCK n sb)) as [E|E].
  - rewrite <- E, lookup_insert_eq. cbn [from_option id]. unfold inode_block at 2. rewrite <- E. fold (inode_block v sb (inum i)).
    apply decode_inode_other; [by apply layout_inode|apply dip_range|apply dip_range| |done].
    unfold IBLOCK, dip, IPB, BSIZE in *. change (512 / 64) with 8 in *. zlia.
  - by rewrite lookup_insert_ne.
Qed.
End InodeWritten.

(** ** [readi] and [writei] *)

(** A file whose blocks stay as they are. *)
Lemma file_ok_ext v v' sb x :
  file_ok v sb x -> (forall b, owns v x b -> v' !! b = v !! b /\ (in_use v sb b = true -> in_use v' sb b = true)) ->
  file_ok v' sb x /\ content v' x = content v x.
Proof.
  intros [F Hs Hc Hn] Hb.
  assert (forall j, slot v' x j = slot v x j) as Es.
  { intros j. apply slot_ext. intros Hi. apply Hb. split; [done|]. by exists SLOT_IND. }
  assert (forall j, is_slot j -> slot v x j ≠ 0 -> owns v x (slot v x j)) as Ho. { intros j Hj Hnz. split; [done|]. by exists j. }
  split.
  - split; try done.
    + split; [apply F| |].
      * intros j Hj. rewrite Es. intros Hnz. destruct (fi_blk _ _ _ F j Hj Hnz) as [D U]. split; [done|]. apply Hb; [by apply Ho|done].
      * intros j j' Hj Hj'. rewrite !Es. by apply (fi_inj _ _ _ F).
    + intros o Hoo. rewrite Es. by apply Hc.
  - unfold content, upto. apply list_fmap_ext. intros k o Hoo. apply lookup_seqZ in Hoo as [-> Hoo]. unfold fbyte, fblock. rewrite Es.
    destruct (Hb (slot v x ((0 + Z.of_nat k) / BSIZE))) as [-> _]; [|done]. apply Ho; [|apply Hc; lia].
    unfold is_slot, SLOT_IND, MAXFILE, BSIZE in *. zlia.
Qed.

(** Two files without common blocks. *)
Definition disjoint_files (v : gmap Z (list Z)) (i x : inode) : Prop := forall b, owns v i b -> ~ owns v x b.

(** The state after a write to file [ip] that makes its contents [c']: the
    inode in memory, and on disk if it was up to date there; other inodes and
    other files keep their contents. *)
Record file_written (s s' : fstate) (ip : nat) (i i' : inode) (c' : list Z) : Prop := {
  fw_ic : icache s' = <[ip := i']> (icache s);
  fw_sb : fsb s' = fsb s;
  fw_cwd : fcwd s' = fcwd s;
  fw_meta : i' = {| i with size := size i'; addrs := addrs i' |};
  fw_layout : layout (V s') (fsb s);
  fw_ok : file_ok (V s') (fsb s) i';
  fw_synced : synced (V s) (fsb s) i -> synced (V s') (fsb s) i';
  fw_content : content (V s') i' = c';
  fw_inodes : forall n x, 0 <= n < sb_ninodes (fsb s) -> n ≠ inum i ->
    decode_inode (inode_block (V s') (fsb s) n) (dip n) x = decode_inode (inode_block (V s) (fsb s) n) (dip n) x;
  fw_others : forall x, file_ok (V s) (fsb s) x -> disjoint_files (V s) i x ->
    file_ok (V s') (fsb s) x /\ content (V s') x = content (V s) x /\ disjoint_files (V s') i' x
}.

Lemma grows_inode_block v v' sb i i' n :
  layout v sb -> file_inv v sb i -> grows v v' sb i i' -> 0 <= n < sb_ninodes sb -> v' !! IBLOCK n sb = v !! IBLOCK n sb.
Proof.
  intros L F G Hn. pose proof (ly_inodes _ _ L n Hn). pose proof (ly_nblocks _ _ L). apply (gr_frame _ _ _ _ _ G); [lia| | |].
  - apply (ly_meta _ _ L). lia.
  - intros (Hz & j & Hj & E). destruct (fi_blk _ _ _ F j Hj) as [D _]; [congruence|]. rewrite E in D. by eapply inode_not_data.
  - intros x Hx. by apply (ly_sep _ _ L).
Qed.
Lemma owns_data v sb x b : layout v sb -> file_inv v sb x -> owns v x b -> data_block sb b /\ in_use v sb b = true.
Proof. intros L F (Hz & j & Hj & <-). by apply (fi_blk _ _ _ F). Qed.
(** The blocks of another file stay as they are. *)
Lemma grows_keeps v v' sb i i' x :
  layout v sb -> grows v v' sb i i' -> file_inv v sb x -> disjoint_files v i x ->
  forall b, owns v x b -> v' !! b = v !! b /\ (in_use v sb b = true -> in_use v' sb b = true).
Proof.
  intros L G F Hd b Ho. destruct (owns_data _ _ _ _ L F Ho) as [D U]. pose proof (data_block_range _ _ _ L D). split.
  - apply (gr_frame _ _ _ _ _ G); [lia|done|intros Hi; by apply (Hd b)|]. intros y Hy. by eapply bmap_not_data.
  - apply (gr_use _ _ _ _ _ G). lia.
Qed.
Lemma grows_others v v' sb i i' x :
  layout v sb -> grows v v' sb i i' -> file_ok v sb x -> disjoint_files v i x ->
  file_ok v' sb x /\ content v' x = content v x /\ disjoint_files v' i' x.
Proof.
  intros L G Fx Hd. pose proof (fo_inv _ _ _ Fx) as F.
  pose proof (grows_keeps _ _ _ _ _ _ L G F Hd) as Hb.
  destruct (file_ok_ext _ v' _ _ Fx Hb) as [H1 H2]. split_and!; try done. intros b (Hz & j & Hj & Ej) (_ & j' & Hj' & Ej').
  assert (slot v' x j' = slot v x j') as Es. { apply slot_ext. intros Hi. apply Hb. split; [done|]. by exists SLOT_IND. }
  rewrite Es in Ej'. assert (owns v x b) as Hox by (split; [done|by exists j']). destruct (owns_data _ _ _ _ L F Hox) as [_ U].
  destruct (decide (slot v i j = 0)) as [E|E].
  - pose proof (gr_new _ _ _ _ _ G j Hj E). rewrite Ej in *. rewrite H in U by done. done.
  - apply (Hd b); [|done]. split; [done|]. exists j. split; [done|]. by rewrite <- (gr_keep _ _ _ _ _ G).
Qed.

Lemma inum_grows v v' sb i i' : grows v v' sb i i' -> inum i' = inum i /\ size i' = size i.
Proof. intros G. rewrite (gr_meta _ _ _ _ _ G). done. Qed.
Lemma file_written_same s s' ip i i' off src :
  layout (V s) (fsb s) -> file_ok (V s) (fsb s) i -> 0 <= off -> off + Z.of_nat (length src) <= size i -> wrote s s' ip i i' off src (size i) ->
  file_written s s' ip i i' (splice (content (V s) i) (Z.to_nat off) src).
Proof.
  intros L F Ho Hle W. pose proof (wr_grows _ _ _ _ _ _ _ _ W) as G. pose proof (wr_same _ _ _ _ _ _ _ _ W Hle) as E. subst i'.
  pose proof (wr_covers _ _ _ _ _ _ _ _ W) as Hc. pose proof (wr_bytes _ _ _ _ _ _ _ _ W) as Hb. rewrite Z.max_l in Hc, Hb by done.
  split; try done.
  - apply (wr_ic _ _ _ _ _ _ _ _ W).
  - apply (wr_sb _ _ _ _ _ _ _ _ W).
  - apply (wr_cwd _ _ _ _ _ _ _ _ W).
  - by destruct i.
  - apply G.
  - split; [apply G|apply F|done|apply F].
  - intros Hs. unfold synced, inode_block in *. by rewrite (grows_inode_block _ _ _ _ _ _ L (fo_inv _ _ _ F) G) by apply F.
  - intros n x Hn _. unfold inode_block. by rewrite (grows_inode_block _ _ _ _ _ _ L (fo_inv _ _ _ F) G).
  - intros x. by apply grows_others.
Qed.

Definition resized (i : inode) (n : Z) : inode := {| i with size := n |}.
Lemma file_inv_resized v sb i n : file_inv v sb i -> file_inv v sb (resized i n).
Proof. intros [F1 F2 F3]. split; [apply F1|apply F2|apply F3]. Qed.
Lemma inode_wf_grown v v' sb i i' n :
  layout v sb -> file_ok v sb i -> synced v sb i -> grows v v' sb i i' -> 0 <= n < W32 -> inode_wf (resized i' n).
Proof.
  intros L F Hs G Hn. pose proof (fo_inum _ _ _ F) as Hi. destruct (layout_inode _ _ _ L Hi) as [[_ Hb] _]. pose proof (synced_wf _ _ _ Hb Hs) as W.
  pose proof (gr_inv _ _ _ _ _ G) as F'. pose proof (ly_size _ _ (gr_layout _ _ _ _ _ G)) as Hsz.
  pose proof (gr_meta _ _ _ _ _ G) as E. destruct W as [W1 W2 W3 W4 W5 W6 W7]. assert (itype i' = itype i /\ major i' = major i /\ minor i' = minor i /\ nlink i' = nlink i) as (E1 & E2 & E3 & E4) by (by rewrite E).
  split; unfold resized; cbn [itype major minor nlink size addrs]; rewrite ?E1, ?E2, ?E3, ?E4; try done; [apply F'|].
  apply Forall_lookup. intros k a Hk. pose proof (lookup_lt_Some _ _ _ Hk) as Hlt. rewrite (fi_len _ _ _ F') in Hlt.
  assert (slot v' i' (aslot k) = a) as Ea. { rewrite slot_aslot by lia. by apply nth_lookup_Some. }
  destruct (decide (a = 0)) as [->|Ha]; [unfold W32; lia|]. destruct (fi_blk _ _ _ F' (aslot k)) as [D _]; [apply is_slot_aslot; lia|congruence|].
  pose proof (data_block_range _ _ _ (gr_layout _ _ _ _ _ G) D). rewrite Ea in *. unfold W32. lia.
Qed.
Lemma file_written_grown s s1 s' ip i i1 off src :
  layout (V s) (fsb s) -> file_ok (V s) (fsb s) i -> 0 <= off <= size i ->
  size i < off + Z.of_nat (length src) <= MAXFILE * BSIZE -> wrote s s1 ip i i1 off src (size i) ->
  let i' := resized i1 (off + Z.of_nat (length src)) in
  icache s' = <[ip := i']> (icache s) -> fsb s' = fsb s -> fcwd s' = fcwd s -> V s' = inode_written (V s1) (fsb s) i' ->
  file_written s s' ip i i' (splice (content (V s) i) (Z.to_nat off) src).
Proof.
  intros L F Ho Hlt W i' H1 H2 H3 EV. pose proof (wr_grows _ _ _ _ _ _ _ _ W) as G. pose proof (gr_layout _ _ _ _ _ G) as L1.
  pose proof (wr_covers _ _ _ _ _ _ _ _ W) as Hc. pose proof (wr_bytes _ _ _ _ _ _ _ _ W) as Hb. rewrite Z.max_r in Hc, Hb by lia.
  destruct (inum_grows _ _ _ _ _ G) as [En _]. pose proof (fo_inum _ _ _ F) as Hn. assert (0 <= inum i' < sb_ninodes (fsb s)) as Hn' by (cbn; by rewrite En).
  pose proof (gr_inv _ _ _ _ _ G) as F1. pose proof (file_inv_resized _ _ _ (off + Z.of_nat (length src)) F1) as F2. fold i' in F2.
  assert (length (addrs i') = 13%nat) as Hl by apply F2.
  assert (forall n, 0 <= n < sb_ninodes (fsb s) -> V s1 !! IBLOCK n (fsb s) = V s !! IBLOCK n (fsb s)) as HI.
  { intros n Hnn. eapply grows_inode_block; [exact L|apply F|done|done]. }
  split; try done; rewrite ?EV.
  - etransitivity; [unfold i'; apply (f_equal (fun x => resized x _)), (gr_meta _ _ _ _ _ G)|done].
  - by apply inode_written_layout.
  - split; [by apply inode_written_inv|cbn; lia| |done]. intros o Hoo. change (size i') with (off + Z.of_nat (length src)) in Hoo.
    rewrite inode_written_slot; [|done|done|done]. by apply (Hc o).
  - intros Hs. apply inode_written_synced; [done|done|]. apply (inode_wf_grown (V s) (V s1) (fsb s) i); try done. unfold W32, MAXFILE, BSIZE in *. lia.
  - unfold content at 1. change (size i') with (off + Z.of_nat (length src)). rewrite inode_written_upto; try done; lia.
  - intros n x Hnn Hne. rewrite inode_written_other; try done; [|cbn; congruence]. unfold inode_block. by rewrite HI.
  - intros x Fx Hd. destruct (grows_others _ _ _ _ _ _ L G Fx Hd) as (X1 & X2 & X3).
    destruct (file_ok_ext _ (inode_written (V s1) (fsb s) i') _ _ X1) as [Y1 Y2].
    { intros b Hob. destruct (owns_data _ _ _ _ L1 (fo_inv _ _ _ X1) Hob) as [D U]. split; [by apply inode_written_data|].
      intros _. pose proof (data_block_range _ _ _ L1 D). by rewrite inode_written_use by (done || lia). }
    split_and!; [done|congruence|]. intros b (Hz & j & Hj & Ej) (_ & j' & Hj' & Ej'). apply (X3 b); (split; [done|]).
    + exists j. split; [done|]. rewrite <- Ej. symmetry. change (slot (V s1) i1 j) with (slot (V s1) i' j). by apply inode_written_slot.
    + exists j'. split; [done|]. rewrite <- Ej'. symmetry. apply inode_written_slot; [done|done|apply X1].
Qed.

Section Rules.
Context {DS : DevSwitch}.

Lemma content_range v i off n :
  0 <= off <= size i -> 0 <= n -> fbyte v i <$> seqZ off (Z.min n (size i - off)) = take (Z.to_nat n) (drop (Z.to_nat off) (content v i)).
Proof.
  intros Ho Hn. unfold content, upto. rewrite <- fmap_drop, <- fmap_take. f_equal.
  replace (size i) with (off + (size i - off)) at 2 by lia. rewrite seqZ_split by lia. rewrite drop_app_length' by (rewrite length_seqZ; lia).
  rewrite Z.add_0_l. destruct (Z.le_ge_cases n (size i - off)).
  - rewrite Z.min_l by done. replace (size i - off) with (n + (size i - off - n)) by lia. rewrite seqZ_split by lia.
    by rewrite take_app_length' by (rewrite length_seqZ; lia).
  - rewrite Z.min_r by lia. rewrite take_ge; [done|]. rewrite length_seqZ. lia.
Qed.

Lemma wp_readi s k ip i off n (Q : option (list Z) -> fstate -> Prop) :
  tx s [] k -> layout (V s) (fsb s) -> icache s !! ip = Some i -> itype i ≠ T_DEV -> file_ok (V s) (fsb s) i ->
  0 <= off -> 0 <= n < W32 ->
  Q (read_at (content (V s) i) off n) s -> wp (readi ip off n) Q s.
Proof.
  intros T L Hi Ht [F Hs Hc _] Ho Hn HQ. unfold readi, read_at. rewrite wp_bind. apply (wp_get_inode _ _ i); [done|].
  destruct (Z.eqb_spec (itype i) T_DEV); [done|]. unfold content at 1 in HQ. unfold read_at in HQ. rewrite length_upto, Z2Nat.id in HQ by lia.
  destruct (Z.ltb_spec (size i) off); [done|]. cbn [orb] in *. destruct (Z.ltb_spec (u32 (off + n)) off) as [|Hw]; [done|].
  unfold MAXFILE, BSIZE in *. cbv zeta. rewrite wp_bind.
  replace (if size i <? off + n then size i - off else n) with (Z.min n (size i - off)) by (destruct (Z.ltb_spec (size i) (off + n)); lia).
  apply (wp_readi_loop _ s k ip i); try done; [|lia|unfold MAXFILE, BSIZE; lia|].
  - intros o Hoo. apply Hc. lia.
  - wp_steps. by rewrite content_range by lia.
Qed.

(** The blocks that a write of [n] bytes may have to log. *)
Definition wlog (off n : Z) : nat := (6 * wblocks off n + 1)%nat.

Lemma wp_writei s k ip i src off (Q : Z -> fstate -> Prop) :
  tx s [] (wlog off (Z.of_nat (length src)) + k) -> layout (V s) (fsb s) -> icache s !! ip = Some i -> itype i ≠ T_DEV ->
  file_ok (V s) (fsb s) i -> is_bytes src -> 0 <= off -> Z.of_nat (length src) < W32 ->
  (2 * wblocks off (Z.of_nat (length src)) <= nfree (V s) (fsb s))%nat ->
  (forall s', tx s' [] k -> match write_at (content (V s) i) off src with
     | None => s' = s -> Q (-1) s'
     | Some c' => forall i', file_written s s' ip i i' c' ->
         (nfree (V s) (fsb s) <= 2 * wblocks off (Z.of_nat (length src)) + nfree (V s') (fsb s))%nat -> Q (Z.of_nat (length src)) s'
     end) -> wp (writei ip src off) Q s.
Proof.
  intros T L Hi Ht Fo Hb Ho Hn Hf HQ. pose proof Fo as [F Hs Hc Hin]. unfold writei. rewrite wp_bind. apply (wp_get_inode _ _ i); [done|].
  set (n := Z.of_nat (length src)) in *. assert (tx s [] k) as Tk by (eapply tx_weaken; [exact T|unfold wlog; lia]).
  destruct (Z.eqb_spec (itype i) T_DEV); [done|]. unfold write_at in HQ. unfold content at 1 in HQ. rewrite length_upto, Z2Nat.id in HQ by lia.
  destruct (Z.ltb_spec (size i) off); [by apply (HQ s)|]. cbn [orb] in *. fold n in HQ.
  destruct (Z.ltb_spec (u32 (off + n)) off) as [|Hw]; [by apply (HQ s)|]. cbn [orb] in *.
  destruct (Z.ltb_spec (MAXFILE * BSIZE) (off + n)); [by apply (HQ s)|]. rewrite wp_bind.
  apply (wp_writei_loop _ s (S k) ip i src off (size i)); try done; [eapply tx_weaken; [exact T|unfold wlog, n; lia]|lia..|].
  intros s1 i1 T1 W Hf1. fold n. pose proof (wr_grows _ _ _ _ _ _ _ _ W) as G. destruct (inum_grows _ _ _ _ _ G) as [En Es].
  assert (icache s1 !! ip = Some i1) as Hi1. { rewrite (wr_ic _ _ _ _ _ _ _ _ W). apply list_lookup_insert_eq. by apply lookup_lt_Some in Hi. }
  rewrite wp_bind. apply (wp_get_inode _ _ i1); [done|]. rewrite Es. wp_steps. destruct (Z.ltb_spec (size i) (off + n)) as [Hg|Hg].
  2: { rewrite andb_false_r. eapply (HQ s1 ltac:(eapply tx_weaken; [exact T1|lia])); [|done]. eapply file_written_same; [done|done|lia|unfold n in *; lia|done]. }
  rewrite (proj2 (Z.ltb_lt 0 n)) by lia. cbn [andb]. wp_steps. unfold set_inode. wp_steps.
  rewrite (list_alter_insert_lookup _ _ _ i1) by done. match goal with |- wp _ _ ?t => set (s2 := t) end.
  assert (V s2 = V s1) as E2 by done. assert (fsb s2 = fsb s) as S2 by apply (wr_sb _ _ _ _ _ _ _ _ W).
  apply (wp_iupdate s2 k ip (resized i1 (off + n))); rewrite ?E2, ?S2.
  - by destruct T1; split.
  - apply G.
  - cbn. apply list_lookup_insert_eq. by apply lookup_lt_Some in Hi1.
  - cbn. by rewrite En.
  - apply (gr_inv _ _ _ _ _ G).
  - intros s3 T3 [F1 F2 F3] E3. wp_steps. eapply (HQ s3 T3); [eapply file_written_grown with (s1 := s1) (i1 := i1); try done|].
    + rewrite F2. cbn. by rewrite (wr_ic _ _ _ _ _ _ _ _ W), list_insert_insert_eq.
    + congruence.
    + rewrite F3. apply (wr_cwd _ _ _ _ _ _ _ _ W).
    + rewrite E3, (nfree_ext (V s1) (inode_written _ _ _)); [exact Hf1|]. intros b Hb'. apply inode_written_use; [apply G|by cbn; rewrite En|done].
Qed.

End Rules.

(** ** What [readi] and [writei] promise *)

Section FileSpec.
Context {DS : DevSwitch}.
Variables (s : fstate) (k : nat) (ip : nat) (i : inode).
Hypothesis L : layout (V s) (fsb s).
Hypothesis Hi : icache s !! ip = Some i.

(** C15. [readi] returns the bytes of the file from the offset on, as many as
    there are, or -1 for an offset behind the end or an overflowing range; it
    leaves the state as it was, all buffers released. *)
Theorem readi_correct off n :
  tx s [] k -> itype i ≠ T_DEV -> file_ok (V s) (fsb s) i -> 0 <= off -> 0 <= n < W32 ->
  wp (readi ip off n) (fun r s' => r = read_at (content (V s) i) off n /\ s' = s) s.
Proof. intros T Ht F Ho Hn. by eapply wp_readi. Qed.

(** C4. [writei] replaces or appends bytes as [write_at] does, or returns -1 and
    changes nothing. It keeps the invariant of the file, the agreement of the
    inode on disk with the one in memory, all other inodes and the contents of
    all files that share no block with it. Its need of log space and of free
    blocks is stated. *)
Theorem writei_correct src off :
  tx s [] (wlog off (Z.of_nat (length src)) + k) -> itype i ≠ T_DEV -> file_ok (V s) (fsb s) i -> is_bytes src ->
  0 <= off -> Z.of_nat (length src) < W32 -> (2 * wblocks off (Z.of_nat (length src)) <= nfree (V s) (fsb s))%nat ->
  wp (writei ip src off) (fun r s' => tx s' [] k /\
    match write_at (content (V s) i) off src with
    | None => r = -1 /\ V s' = V s /\ icache s' = icache s
    | Some c' => r = Z.of_nat (length src) /\ exists i', file_written s s' ip i i' c' /\
        (nfree (V s) (fsb s) <= 2 * wblocks off (Z.of_nat (length src)) + nfree (V s') (fsb s))%nat
    end) s.
Proof.
  intros T Ht F Hb Ho Hl Hf. eapply wp_writei; try done. intros s' T'. destruct (write_at _ off src) as [c'|].
  - intros i' W Hf'. split; [done|]. split; [done|]. by exists i'.
  - intros ->. done.
Qed.

End FileSpec.
