(* ===== verification/FsDir.v ===== *)
(** Directories: [dirlookup] and [dirlink] implement a map from names to inode
    numbers, and the inode cache ([iget], [idup], [iput]). *)

From stdpp Require Import base gmap list strings.
From Stdlib Require Import ZArith Lia.
From S2P Require Import Prelude Files Block Log Fs FsTx FsAlloc FsFile.
Open Scope Z_scope.

(** ** Entries of a directory *)

Definition dirent_at (c : list Z) (off : Z) : list Z := take (Z.to_nat DE_SIZE) (drop (Z.to_nat off) c).
(** The first entry for a name from [off] on, with its offset; the contents
    are searched entry by entry. *)
Fixpoint dir_find (c : list Z) (name : list Z) (off : Z) (n : nat) : option (Z * Z) :=
  match n with
  | O => None
  | S n' =>
      let de := dirent_at c off in
      if negb (de_inum de =? 0) && namecmp name (de_name de) then Some (de_inum de, off) else dir_find c name (off + DE_SIZE) n'
  end.
(** The offset of the first unused entry, or the end. *)
Fixpoint dir_free (c : list Z) (off : Z) (n : nat) : Z :=
  match n with
  | O => off
  | S n' => if de_inum (dirent_at c off) =? 0 then off else dir_free c (off + DE_SIZE) n'
  end.
Definition nents (c : list Z) : nat := (length c / 16)%nat.
(** Contents of a directory: a number of entries. *)
Definition is_dir (c : list Z) : Prop := length c = (16 * nents c)%nat.

Lemma read_dirent c off k :
  is_dir c -> Z.of_nat (length c) <= MAXFILE * BSIZE -> off = 16 * Z.of_nat k -> (k < nents c)%nat ->
  read_at c off DE_SIZE = Some (dirent_at c off) /\ Z.of_nat (length (dirent_at c off)) = DE_SIZE.
Proof.
  intros Hd Hm -> Hk. unfold is_dir in Hd. unfold DE_SIZE in *. split.
  - apply read_at_le; lia.
  - unfold dirent_at, DE_SIZE. rewrite length_take, length_drop. lia.
Qed.

Section Lookup.
Context {DS : DevSwitch}.
Variables (ip : nat) (i : inode) (name : list Z).
Hypothesis Ht : itype i ≠ T_DEV.

Lemma wp_dirlookup_loop fuel : forall s k off n (Q : option (Z * Z) -> fstate -> Prop),
  tx s [] k -> layout (V s) (fsb s) -> icache s !! ip = Some i -> file_ok (V s) (fsb s) i -> is_dir (content (V s) i) ->
  off = 16 * Z.of_nat n -> (n <= nents (content (V s) i))%nat -> (nents (content (V s) i) - n < fuel)%nat ->
  Q (dir_find (content (V s) i) name off (nents (content (V s) i) - n)) s ->
  wp (dirlookup_loop ip name off (size i) fuel) Q s.
Proof.
  induction fuel as [|fuel IH]; intros s k off n Q T L Hi F Hd Ho Hn Hf HQ; [lia|].
  set (c := content (V s) i) in *. pose proof (fo_size _ _ _ F) as Hs. unfold MAXFILE, BSIZE in Hs.
  assert (Z.of_nat (length c) = size i) as Hl by (unfold c, content; rewrite length_upto; lia). pose proof Hd as Hd'. unfold is_dir in Hd'.
  cbn [dirlookup_loop]. destruct (Z.leb_spec (size i) off) as [Hle|Hlt].
  { by replace (nents c - n)%nat with 0%nat in HQ by lia. }
  assert (n < nents c)%nat as Hn' by lia. destruct (read_dirent c off n) as [Hr Hlen]; try done; [unfold MAXFILE, BSIZE; lia|].
  rewrite wp_bind. apply (wp_readi s k ip i); try done; [lia|]. fold c. rewrite Hr.
  rewrite Hlen. change (DE_SIZE =? DE_SIZE) with true. cbn [negb].
  assert (forall Q' : option (Z * Z) -> fstate -> Prop, Q' (dir_find c name (off + DE_SIZE) (nents c - S n)) s ->
    wp (dirlookup_loop ip name (off + DE_SIZE) (size i) fuel) Q' s) as Hnext.
  { intros Q' HQ'. apply (IH s k (off + DE_SIZE) (S n)); try done; fold c; unfold DE_SIZE; lia. }
  destruct (nents c - n)%nat as [|r] eqn:Er; [lia|]. replace (nents c - S n)%nat with r in Hnext by lia. cbn [dir_find] in HQ.
  destruct (Z.eqb_spec (de_inum (dirent_at c off)) 0); [by apply Hnext|].
  cbn [negb andb] in HQ. destruct (namecmp name (de_name (dirent_at c off))); [done|by apply Hnext].
Qed.
Lemma wp_dirlink_loop fuel : forall s k off n (Q : Z -> fstate -> Prop),
  tx s [] k -> layout (V s) (fsb s) -> icache s !! ip = Some i -> file_ok (V s) (fsb s) i -> is_dir (content (V s) i) ->
  off = 16 * Z.of_nat n -> (n <= nents (content (V s) i))%nat -> (nents (content (V s) i) - n < fuel)%nat ->
  Q (dir_free (content (V s) i) off (nents (content (V s) i) - n)) s ->
  wp (dirlink_loop ip off (size i) fuel) Q s.
Proof.
  induction fuel as [|fuel IH]; intros s k off n Q T L Hi F Hd Ho Hn Hf HQ; [lia|].
  set (c := content (V s) i) in *. pose proof (fo_size _ _ _ F) as Hs. unfold MAXFILE, BSIZE in Hs.
  assert (Z.of_nat (length c) = size i) as Hl by (unfold c, content; rewrite length_upto; lia). pose proof Hd as Hd'. unfold is_dir in Hd'.
  cbn [dirlink_loop]. destruct (Z.leb_spec (size i) off) as [Hle|Hlt].
  { by replace (nents c - n)%nat with 0%nat in HQ by lia. }
  assert (n < nents c)%nat as Hn' by lia. destruct (read_dirent c off n) as [Hr Hlen]; try done; [unfold MAXFILE, BSIZE; lia|].
  rewrite wp_bind. apply (wp_readi s k ip i); try done; [lia|]. fold c. rewrite Hr.
  rewrite Hlen. change (DE_SIZE =? DE_SIZE) with true. cbn [negb].
  destruct (nents c - n)%nat as [|r] eqn:Er; [lia|]. cbn [dir_free] in HQ.
  destruct (Z.eqb_spec (de_inum (dirent_at c off)) 0); [done|].
  apply (IH s k (off + DE_SIZE) (S n)); try done; fold c; try (unfold DE_SIZE; lia).
  by replace (nents c - S n)%nat with r by lia.
Qed.
End Lookup.

(** ** The directory as a map *)

Definition dir_lookup (c name : list Z) : option (Z * Z) := dir_find c name 0 (nents c).
Definition dir_slot (c : list Z) : Z := dir_free c 0 (nents c).
(** The contents after [dirlink]. *)
Definition dir_add (c name : list Z) (n : Z) : list Z := splice c (Z.to_nat (dir_slot c)) (encode_dirent n name).

Lemma dir_find_app c name a : forall off b,
  dir_find c name off (a + b) = match dir_find c name off a with Some r => Some r | None => dir_find c name (off + 16 * Z.of_nat a) b end.
Proof.
  induction a as [|a IH]; intros off b; [cbn; f_equal; lia|]. cbn [dir_find Nat.add]. case_if; [done|]. rewrite IH.
  unfold DE_SIZE. replace (off + 16 + 16 * Z.of_nat a) with (off + 16 * Z.of_nat (S a)) by lia. done.
Qed.
Lemma dir_find_ext c c' name n : forall off,
  (forall k, (k < n)%nat -> dirent_at c' (off + 16 * Z.of_nat k) = dirent_at c (off + 16 * Z.of_nat k)) ->
  dir_find c' name off n = dir_find c name off n.
Proof.
  induction n as [|n IH]; intros off H; [done|]. cbn [dir_find]. pose proof (H 0%nat ltac:(lia)) as H0.
  replace (off + 16 * Z.of_nat 0) with off in H0 by lia. rewrite H0. case_if; [done|]. apply IH. intros k Hk. unfold DE_SIZE.
  replace (off + 16 + 16 * Z.of_nat k) with (off + 16 * Z.of_nat (S k)) by lia. apply H. lia.
Qed.
Lemma dir_free_spec c n : forall off, exists k, (k <= n)%nat /\ dir_free c off n = off + 16 * Z.of_nat k /\
  ((k < n)%nat -> de_inum (dirent_at c (off + 16 * Z.of_nat k)) = 0).
Proof.
  induction n as [|n IH]; intros off; [exists 0%nat; cbn; split_and!; lia|]. cbn [dir_free].
  destruct (Z.eqb_spec (de_inum (dirent_at c off)) 0) as [E|E].
  - exists 0%nat. replace (off + 16 * Z.of_nat 0) with off by lia. split_and!; [lia|done|done].
  - destruct (IH (off + DE_SIZE)) as (k & H1 & H2 & H3). exists (S k). unfold DE_SIZE in *.
    replace (off + 16 * Z.of_nat (S k)) with (off + 16 + 16 * Z.of_nat k) by lia. split_and!; [lia|done|]. intros Hk. apply H3. lia.
Qed.
Lemma length_copy_padded n t : length (copy_padded n t) = n.
Proof. revert t. induction n as [|n IH]; intros t; [done|]. cbn [copy_padded]. case_if; cbn [length]; [by rewrite length_replicate|by rewrite IH]. Qed.
Lemma eq_name_copy n s t : eq_name n s (copy_padded n t) = eq_name n s t.
Proof.
  revert s t. induction n as [|n IH]; intros s t; [done|]. cbn [copy_padded]. destruct (Z.eqb_spec (default 0 (head t)) 0) as [E|E].
  - cbn. rewrite E. repeat case_if; bool_hyps; done.
  - cbn. repeat case_if; [done|by rewrite IH|done].
Qed.
Lemma eq_name_refl n s : eq_name n s s = true.
Proof. revert s. induction n as [|n IH]; intros s; [done|]. cbn. rewrite Z.eqb_refl. case_if; [done|apply IH]. Qed.

Section Add.
Variables (c name : list Z) (n : Z).
Hypothesis Hd : is_dir c.
Hypothesis Hn : 0 < n < 65536.
Let c' := dir_add c name n.

Lemma length_encode_dirent : length (encode_dirent n name) = 16%nat.
Proof. unfold encode_dirent. rewrite length_app, length_copy_padded. done. Qed.
Lemma encode_dirent_inum : de_inum (encode_dirent n name) = n.
Proof. unfold de_inum. change (get16 (encode_dirent n name) 0) with (get16 (bytes16 n) 0). rewrite get16_bytes16. apply Z.mod_small. lia. Qed.
Lemma encode_dirent_name nm : namecmp nm (de_name (encode_dirent n name)) = namecmp nm name.
Proof. unfold de_name, encode_dirent. change (drop 2 (bytes16 n ++ ?l)) with l. apply eq_name_copy. Qed.

Lemma dirent_at_add m k :
  (m <= nents c)%nat -> dir_slot c = 16 * Z.of_nat m ->
  dirent_at c' (16 * Z.of_nat k) = if decide (k = m) then encode_dirent n name else dirent_at c (16 * Z.of_nat k).
Proof.
  intros Hm Em. unfold is_dir in Hd. pose proof length_encode_dirent as El. unfold dirent_at, DE_SIZE, c', dir_add. rewrite Em.
  assert (length (splice c (Z.to_nat (16 * Z.of_nat m)) (encode_dirent n name)) = Nat.max (length c) (16 * m + 16)) as Hl'.
  { rewrite length_splice by lia. lia. }
  apply list_eq. intros x. destruct (decide (x < 16)%nat) as [Hx|Hx].
  2: { rewrite lookup_take_ge by lia. case_decide; [rewrite lookup_ge_None_2 by lia; done|]. by rewrite lookup_take_ge by lia. }
  rewrite lookup_take_lt, lookup_drop, lookup_splice by lia. case_decide as E.
  - rewrite decide_True by lia. f_equal. lia.
  - rewrite decide_False by lia. by rewrite lookup_take_lt, lookup_drop by lia.
Qed.

Lemma nents_add m : (m <= nents c)%nat -> dir_slot c = 16 * Z.of_nat m -> nents c' = Nat.max (nents c) (S m) /\ is_dir c'.
Proof.
  intros Hm Em. unfold is_dir in Hd. pose proof length_encode_dirent as El.
  assert (length c' = (16 * Nat.max (nents c) (S m))%nat) as Hl. { unfold c', dir_add. rewrite Em, length_splice by lia. lia. }
  assert (nents c' = Nat.max (nents c) (S m)) as E. { unfold nents at 1. rewrite Hl, Nat.mul_comm. by apply Nat.div_mul. }
  split; [done|]. unfold is_dir. by rewrite E.
Qed.
(** A search in the new contents: the entries before the new one, the new one
    and those after it. *)
Lemma dir_lookup_split nm : exists m r, dir_slot c = 16 * Z.of_nat m /\
  dir_lookup c' nm = match dir_find c nm 0 m with
                     | Some x => Some x
                     | None => if namecmp nm name then Some (n, dir_slot c) else r end /\
  dir_lookup c nm = match dir_find c nm 0 m with Some x => Some x | None => r end.
Proof.
  destruct (dir_free_spec c (nents c) 0) as (m & Hm & Em & Hz). fold (dir_slot c) in Em. rewrite Z.add_0_l in Em, Hz.
  destruct (nents_add m Hm Em) as [En _]. exists m, (dir_find c nm (16 * Z.of_nat m + 16) (nents c - S m)). split; [done|].
  assert (forall k, k ≠ m -> dirent_at c' (16 * Z.of_nat k) = dirent_at c (16 * Z.of_nat k)) as Hold.
  { intros k Hk. rewrite (dirent_at_add m k Hm Em). by rewrite decide_False. }
  split.
  - unfold dir_lookup. rewrite En. replace (Nat.max (nents c) (S m)) with (m + S (nents c - S m))%nat by lia. rewrite dir_find_app.
    rewrite (dir_find_ext c c') by (intros k Hk; rewrite Z.add_0_l; apply Hold; lia). destruct (dir_find c nm 0 m); [done|].
    cbn [dir_find]. rewrite Z.add_0_l, (dirent_at_add m m Hm Em), decide_True, encode_dirent_inum, encode_dirent_name by done.
    destruct (Z.eqb_spec n 0); [lia|]. cbn [negb andb]. rewrite <- Em. case_if; [done|]. unfold DE_SIZE. rewrite Em. apply dir_find_ext.
    intros k Hk. replace (16 * Z.of_nat m + 16 + 16 * Z.of_nat k) with (16 * Z.of_nat (m + 1 + k)) by lia. apply Hold. lia.
  - unfold dir_lookup. destruct (decide (m = nents c)) as [->|Hne].
    + replace (nents c - S (nents c))%nat with 0%nat by lia. cbn [dir_find]. by destruct (dir_find c nm 0 (nents c)).
    + replace (nents c) with (m + S (nents c - S m))%nat at 1 by lia. rewrite dir_find_app. destruct (dir_find c nm 0 m); [done|].
      cbn [dir_find]. rewrite Z.add_0_l, Hz by lia. done.
Qed.
Lemma dir_lookup_added : dir_lookup c name = None -> dir_lookup c' name = Some (n, dir_slot c).
Proof.
  intros H. destruct (dir_lookup_split name) as (m & r & _ & E1 & E2). rewrite E1. rewrite H in E2. destruct (dir_find c name 0 m); [done|].
  unfold namecmp. by rewrite eq_name_refl.
Qed.
Lemma dir_lookup_others nm : namecmp nm name = false -> dir_lookup c' nm = dir_lookup c nm.
Proof.
  intros H. destruct (dir_lookup_split nm) as (m & r & _ & E1 & E2). rewrite E1, E2, H. done.
Qed.
End Add.

(** ** The inode cache *)

(** An entry of the cache that is in use for an inode. *)
Definition hit (dv n : Z) (i : inode) : bool := (0 <? iref i) && (idev i =? dv) && (inum i =? n).
(** The number of references to an inode. *)
Definition refs (l : list inode) (dv n : Z) : Z := foldr (fun i a => if hit dv n i then iref i + a else a) 0 l.

(** No inode has two entries. *)
Record cache_inv (l : list inode) : Prop := {
  ca_refs : forall k i, l !! k = Some i -> 0 <= iref i < 2147483648;
  ca_unique : forall k k' i i', l !! k = Some i -> l !! k' = Some i' ->
    0 < iref i -> 0 < iref i' -> idev i = idev i' -> inum i = inum i' -> k = k'
}.

Lemma iget_find_spec dv n l : forall i0 e,
  match iget_find dv n l i0 e with
  | (Some k, _) => exists x, (i0 <= k)%nat /\ l !! (k - i0)%nat = Some x /\ hit dv n x = true
  | (None, e') => (forall k x, l !! k = Some x -> hit dv n x = false) /\
      match e with
      | Some _ => e' = e
      | None => match e' with
                | Some k => exists x, (i0 <= k)%nat /\ l !! (k - i0)%nat = Some x /\ iref x = 0
                | None => forall k x, l !! k = Some x -> iref x ≠ 0
                end
      end
  end.
Proof.
  induction l as [|y l IH]; intros i0 e; cbn [iget_find].
  { split; [done|]. by destruct e. }
  fold (hit dv n y). destruct (hit dv n y) eqn:Ey.
  { exists y. split_and!; [done| |done]. by rewrite Nat.sub_diag. }
  set (e1 := match e with None => if iref y =? 0 then Some i0 else None | _ => e end).
  specialize (IH (S i0) e1). destruct (iget_find dv n l (S i0) e1) as [[k|] e'].
  - destruct IH as (x & H1 & H2 & H3). exists x. split_and!; [lia| |done]. by replace (k - i0)%nat with (S (k - S i0)) by lia.
  - destruct IH as [H1 H2]. split; [intros [|k] x Hx; [by injection Hx as ->|by eapply H1]|]. destruct e as [e|]; [by subst e1|].
    unfold e1 in H2. destruct (Z.eqb_spec (iref y) 0) as [E|E].
    + subst e'. exists y. rewrite Nat.sub_diag. by split_and!.
    + destruct e' as [k|].
      * destruct H2 as (x & G1 & G2 & G3). exists x. split_and!; [lia| |done]. by replace (k - i0)%nat with (S (k - S i0)) by lia.
      * intros [|k] x Hx; [by injection Hx as ->|by eapply H2].
Qed.

Lemma refs_cons z l dv n : refs (z :: l) dv n = (if hit dv n z then iref z else 0) + refs l dv n.
Proof. unfold refs. cbn [foldr]. case_if; lia. Qed.
Lemma refs_insert l k x y dv n :
  l !! k = Some x -> refs (<[k := y]> l) dv n = refs l dv n - (if hit dv n x then iref x else 0) + (if hit dv n y then iref y else 0).
Proof.
  revert k. induction l as [|z l IH]; intros [|k] Hk; cbn in Hk; [done|done| |].
  - injection Hk as ->. cbn [insert list_insert]. rewrite !refs_cons. lia.
  - change (<[S k := y]> (z :: l)) with (z :: <[k := y]> l). rewrite !refs_cons, (IH k Hk). lia.
Qed.
Lemma refs_none l dv n : (forall k x, l !! k = Some x -> hit dv n x = false) -> refs l dv n = 0.
Proof.
  induction l as [|z l IH]; intros H; [done|]. rewrite refs_cons, (H 0%nat z), Z.add_0_l by done. apply IH. intros k x Hx. by apply (H (S k)).
Qed.
Lemma hit_true dv n i : hit dv n i = true <-> 0 < iref i /\ idev i = dv /\ inum i = n.
Proof. unfold hit. rewrite !andb_true_iff, Z.ltb_lt, !Z.eqb_eq. tauto. Qed.
Lemma refs_hit l k i dv n : cache_inv l -> l !! k = Some i -> hit dv n i = true -> refs l dv n = iref i.
Proof.
  intros C Hk Hh. pose proof (refs_insert l k i {| i with iref := 0 |} dv n Hk) as E. rewrite Hh in E. cbn in E.
  rewrite refs_none in E; [lia|]. intros j x Hx. destruct (decide (j = k)) as [->|Hne].
  - rewrite list_lookup_insert_eq in Hx by (by apply lookup_lt_Some in Hk). injection Hx as <-. done.
  - rewrite list_lookup_insert_ne in Hx by done. destruct (hit dv n x) eqn:Ex; [|done]. apply hit_true in Ex as (X1 & X2 & X3).
    apply hit_true in Hh as (Y1 & Y2 & Y3). exfalso. apply Hne. eapply (ca_unique _ C); try done; congruence.
Qed.

(** The cache after [iget] returned entry [k]. *)
Record got (l l' : list inode) (k : nat) (dv n : Z) : Prop := {
  gt_inv : cache_inv l';
  gt_refs : refs l' dv n = refs l dv n + 1;
  gt_others : forall dv' n', (dv', n') ≠ (dv, n) -> refs l' dv' n' = refs l dv' n';
  gt_entry : exists i, l' !! k = Some i /\ hit dv n i = true;
  gt_keep : forall k' i, k' ≠ k -> l !! k' = Some i -> l' !! k' = Some i;
  gt_same : forall i, l !! k = Some i -> 0 < iref i -> exists r, l' !! k = Some {| i with iref := r |}
}.
Lemma got_insert l k x y dv n :
  cache_inv l -> l !! k = Some x -> 0 <= iref y < 2147483648 -> hit dv n y = true ->
  (hit dv n x = true /\ y = {| x with iref := iref x + 1 |}) \/
  (iref x = 0 /\ iref y = 1 /\ forall k x, l !! k = Some x -> hit dv n x = false) ->
  got l (<[k := y]> l) k dv n.
Proof.
  intros C Hk Hy Hh Hor. pose proof (lookup_lt_Some _ _ _ Hk) as Hlt. pose proof (proj1 (hit_true _ _ _) Hh) as (Y1 & Y2 & Y3).
  assert (forall j z, j ≠ k -> l !! j = Some z -> 0 < iref z -> idev z = dv -> inum z = n -> False) as Huniq.
  { intros j z Hne Hz Z1 Z2 Z3. destruct Hor as [[Hx _]|(_ & _ & Hno)].
    - apply hit_true in Hx as (X1 & X2 & X3). apply Hne. eapply (ca_unique _ C); try done; congruence.
    - pose proof (Hno _ _ Hz) as E. rewrite (proj2 (hit_true dv n z)) in E by done. done. }
  split.
  - split.
    + intros j i Hj. destruct (decide (j = k)) as [->|Hne]; [rewrite list_lookup_insert_eq in Hj by done; by injection Hj as <-|].
      rewrite list_lookup_insert_ne in Hj by done. by eapply ca_refs.
    + intros j j' i i' [(<- & <- & _)|[Hne Hj]]%list_lookup_insert_Some [(<- & <- & _)|[Hne' Hj']]%list_lookup_insert_Some; try done.
      * intros I1 I2 I3 I4. exfalso. apply (Huniq j' i'); try done; congruence.
      * intros I1 I2 I3 I4. exfalso. apply (Huniq j i); try done; congruence.
      * by eapply ca_unique.
  - rewrite (refs_insert _ _ x) by done. rewrite Hh. destruct Hor as [[Hx ->]|(Hx & Hy1 & Hno)]; [rewrite Hx; cbn; lia|].
    rewrite (Hno _ _ Hk). lia.
  - intros dv' n' Hne. rewrite (refs_insert _ _ x) by done. assert (hit dv' n' y = false) as ->.
    { destruct (hit dv' n' y) eqn:E; [|done]. apply hit_true in E as (? & ? & ?). congruence. }
    destruct (hit dv' n' x) eqn:E; [|lia]. apply hit_true in E as (E1 & E2 & E3). destruct Hor as [[Hx _]|(Hx & _)]; [|lia].
    apply hit_true in Hx as (_ & ? & ?). congruence.
  - exists y. by rewrite list_lookup_insert_eq.
  - intros k' i Hne Hi. by rewrite list_lookup_insert_ne.
  - intros i Hi Hr. rewrite Hk in Hi. injection Hi as <-. rewrite list_lookup_insert_eq by done.
    destruct Hor as [[_ ->]|(Hx & _)]; [by eexists|lia].
Qed.

Definition with_cache (s : fstate) (l : list inode) : fstate := {| s with icache := l |}.
Lemma wp_iget s dv n (Q : nat -> fstate -> Prop) :
  cache_inv (icache s) -> refs (icache s) dv n < 2147483647 ->
  (exists k x, icache s !! k = Some x /\ (iref x = 0 \/ hit dv n x = true)) ->
  (forall k l', got (icache s) l' k dv n -> Q k (with_cache s l')) -> wp (iget dv n) Q s.
Proof.
  intros C Hb (k0 & x0 & Hk0 & Hx0) HQ. unfold iget. rewrite wp_bind, wp_gets. pose proof (iget_find_spec dv n (icache s) 0 None) as H.
  destruct (iget_find dv n (icache s) 0 None) as [[k|] e].
  - destruct H as (x & _ & Hk & Hh). rewrite Nat.sub_0_r in Hk. unfold set_inode. wp_steps. rewrite (list_alter_insert_lookup _ _ _ x) by done.
    rewrite (refs_hit _ _ _ _ _ C Hk Hh) in Hb. pose proof (ca_refs _ C _ _ Hk). rewrite s32_small by lia. apply HQ.
    apply (got_insert _ _ x); try done; [cbn; lia| |by left]. apply hit_true in Hh as (? & ? & ?). apply hit_true. cbn. split_and!; [lia|done|done].
  - destruct H as [Hno He]. destruct e as [k|].
    + destruct He as (x & _ & Hk & Hr). rewrite Nat.sub_0_r in Hk. unfold set_inode. wp_steps. rewrite (list_alter_insert_lookup _ _ _ x) by done.
      apply HQ. apply (got_insert _ _ x); try done; [apply hit_true; cbn; split_and!; lia|]. right. done.
    + exfalso. destruct Hx0 as [Hx0|Hx0]; [by apply (He _ _ Hk0)|]. rewrite (Hno _ _ Hk0) in Hx0. done.
Qed.

Section Dir.
Context {DS : DevSwitch}.

(** There is an entry of the cache for the inode. *)
Definition cache_room (l : list inode) (dv n : Z) : Prop :=
  cache_inv l /\ refs l dv n < 2147483647 /\ exists k x, l !! k = Some x /\ (iref x = 0 \/ hit dv n x = true).

Lemma wp_dirlookup s k dp d name (Q : option (nat * Z) -> fstate -> Prop) :
  tx s [] k -> layout (V s) (fsb s) -> icache s !! dp = Some d -> itype d = T_DIR -> file_ok (V s) (fsb s) d -> is_dir (content (V s) d) ->
  (forall n off, dir_lookup (content (V s) d) name = Some (n, off) -> cache_room (icache s) (idev d) n) ->
  match dir_lookup (content (V s) d) name with
  | None => Q None s
  | Some (n, off) => forall ip l', got (icache s) l' ip (idev d) n -> Q (Some (ip, off)) (with_cache s l')
  end -> wp (dirlookup dp name) Q s.
Proof.
  intros T L Hi Ht F Hd Hroom HQ. unfold dirlookup. rewrite wp_bind. apply (wp_get_inode _ _ d); [done|]. rewrite Ht.
  change (negb (T_DIR =? T_DIR)) with false. cbv iota. rewrite wp_bind. pose proof (fo_size _ _ _ F) as Hs.
  assert (Z.of_nat (length (content (V s) d)) = size d) as Hl by (unfold content; rewrite length_upto; lia).
  apply (wp_dirlookup_loop dp d name ltac:(rewrite Ht; done) _ s k 0 0); try done; [lia| |].
  { rewrite Nat.sub_0_r. unfold nents, DE_SIZE. unfold is_dir, nents in Hd. zlia. }
  rewrite Nat.sub_0_r. fold (dir_lookup (content (V s) d) name). destruct (dir_lookup (content (V s) d) name) as [[n off]|]; [|done].
  rewrite wp_bind. destruct (Hroom n off eq_refl) as (R1 & R2 & R3). apply wp_iget; [done..|]. intros j l' G. wp_steps. by apply HQ.
Qed.

Lemma is_bytes_copy_padded n t : is_bytes t -> is_bytes (copy_padded n t).
Proof.
  revert t. induction n as [|n IH]; intros t Ht; [constructor|]. cbn [copy_padded].
  assert (0 <= default 0 (head t) < 256 /\ is_bytes (tail t)) as [H1 H2]. { destruct t; [cbn; split; [lia|constructor]|]. by apply Forall_cons in Ht. }
  case_if; [apply Forall_replicate; lia|]. constructor; [done|]. by apply IH.
Qed.
Lemma wblocks_dirent m : wblocks (16 * Z.of_nat m) 16 = 1%nat.
Proof. unfold wblocks, BSIZE. cbn [Z.leb Z.compare]. zlia. Qed.

Lemma wp_dirlink s k dp d name n (Q : Z -> fstate -> Prop) :
  tx s [] (7 + k) -> layout (V s) (fsb s) -> icache s !! dp = Some d -> itype d = T_DIR -> file_ok (V s) (fsb s) d -> is_dir (content (V s) d) ->
  is_bytes name -> dir_lookup (content (V s) d) name = None -> size d + 16 <= MAXFILE * BSIZE -> (2 <= nfree (V s) (fsb s))%nat ->
  (forall s' d', tx s' [] k -> file_written s s' dp d d' (dir_add (content (V s) d) name n) ->
     (nfree (V s) (fsb s) <= 2 + nfree (V s') (fsb s))%nat -> Q 0 s') -> wp (dirlink dp name n) Q s.
Proof.
  intros T L Hi Ht F Hd Hb Hno Hmax Hf HQ. unfold dirlink. rewrite wp_bind. set (c := content (V s) d) in *. pose proof (fo_size _ _ _ F) as Hs.
  assert (Z.of_nat (length c) = size d) as Hl by (unfold c, content; rewrite length_upto; lia).
  apply (wp_dirlookup s (7 + k) dp d name); try done; fold c; [by rewrite Hno|]. rewrite Hno.
  rewrite wp_bind. apply (wp_get_inode _ _ d); [done|]. rewrite wp_bind.
  apply (wp_dirlink_loop dp d ltac:(rewrite Ht; done) _ s (7 + k) 0 0); try done; fold c; [lia| |].
  { rewrite Nat.sub_0_r. unfold nents, DE_SIZE. unfold is_dir, nents in Hd. zlia. }
  rewrite Nat.sub_0_r. fold (dir_slot c). rewrite wp_bind.
  destruct (dir_free_spec c (nents c) 0) as (m & Hm & Em & _). fold (dir_slot c) in Em. rewrite Z.add_0_l in Em. unfold is_dir in Hd.
  assert (length (encode_dirent n name) = 16%nat) as El by apply length_encode_dirent.
  apply (wp_writei s k dp d); rewrite ?El; try done; fold c.
  - rewrite Em. change (Z.of_nat 16) with 16. unfold wlog. by rewrite wblocks_dirent.
  - by rewrite Ht.
  - apply Forall_app. split; [apply is_bytes16|by apply is_bytes_copy_padded].
  - lia.
  - rewrite Em. change (Z.of_nat 16) with 16. by rewrite wblocks_dirent.
  - intros s3 T3. rewrite write_at_ok by (rewrite ?El; lia). intros d' W Hf'. change (negb (Z.of_nat 16 =? DE_SIZE)) with false. cbv iota.
    wp_steps. apply (HQ s3 d'); [done|done|]. rewrite Em in Hf'. change (Z.of_nat 16) with 16 in Hf'. by rewrite wblocks_dirent in Hf'.
Qed.
End Dir.

(** ** What [dirlookup] and [dirlink] promise *)

Section DirSpec.
Context {DS : DevSwitch}.
Variables (s : fstate) (k : nat) (ip : nat) (i : inode).
Hypothesis L : layout (V s) (fsb s).
Hypothesis Hi : icache s !! ip = Some i.

(** [dirlookup] finds the inode number of a name as the directory's map
    gives it, and returns a new reference to the cache entry of that inode with
    the offset of the entry; nothing but the cache changes. *)
Theorem dirlookup_correct name :
  tx s [] k -> itype i = T_DIR -> file_ok (V s) (fsb s) i -> is_dir (content (V s) i) ->
  (forall n off, dir_lookup (content (V s) i) name = Some (n, off) -> cache_room (icache s) (idev i) n) ->
  wp (dirlookup ip name) (fun r s' =>
    match dir_lookup (content (V s) i) name with
    | None => r = None /\ s' = s
    | Some (n, off) => exists ip' l', r = Some (ip', off) /\ s' = with_cache s l' /\ got (icache s) l' ip' (idev i) n
    end) s.
Proof.
  intros T Ht F Hd Hroom. eapply wp_dirlookup; try done. destruct (dir_lookup _ name) as [[n off]|]; [|done].
  intros ip' l' G. by exists ip', l'.
Qed.

(** C25. [dirlink] of a new name adds the name to the directory's map and leaves
    all other names as they were, and other files alone. *)
Theorem dirlink_correct name n :
  tx s [] (7 + k) -> itype i = T_DIR -> file_ok (V s) (fsb s) i -> is_dir (content (V s) i) -> is_bytes name -> 0 < n < 65536 ->
  dir_lookup (content (V s) i) name = None -> size i + 16 <= MAXFILE * BSIZE -> (2 <= nfree (V s) (fsb s))%nat ->
  wp (dirlink ip name n) (fun r s' => r = 0 /\ exists i' c', file_written s s' ip i i' c' /\ is_dir c' /\
    dir_lookup c' name = Some (n, dir_slot (content (V s) i)) /\
    (forall nm, namecmp nm name = false -> dir_lookup c' nm = dir_lookup (content (V s) i) nm)) s.
Proof.
  intros T Ht F Hd Hb Hn Hno Hmax Hf. eapply wp_dirlink; try done. intros s' i' T' W _. split; [done|]. exists i', (dir_add (content (V s) i) name n).
  split; [done|]. split; [|split].
  - destruct (dir_free_spec (content (V s) i) (nents (content (V s) i)) 0) as (m & Hm & Em & _). by apply (nents_add _ name n Hd m).
  - by apply dir_lookup_added.
  - intros nm. by apply dir_lookup_others.
Qed.
End DirSpec.
