(* ===== verification/Mkfs.v ===== *)
(** The program that makes the disk (mkfs.c). It writes the blocks of the image
    on its own, not through the kernel; the image is one on which the kernel's
    file system starts: it has the layout of fs.c, the bitmap marks the blocks
    that are used, and every file is in the root directory with its bytes. *)

From stdpp Require Import base gmap list strings.
From Stdlib Require Import ZArith Lia.
From S2P Require Import Prelude Files Block Log Fs FsTx FsAlloc FsFile FsDir.
Open Scope Z_scope.

(** ** The program *)

Definition FSSIZE : Z := 1000.
Definition NINODES : Z := 200.
Definition nbitmap : Z := FSSIZE / (BSIZE * 8) + 1.
Definition ninodeblocks : Z := NINODES / IPB + 1.
Definition nlog : Z := LOGSIZE.
Definition nmeta : Z := 2 + nlog + ninodeblocks + nbitmap.
Definition nblocks : Z := FSSIZE - nmeta.
Definition new_sb : superblock :=
  mk_sb FSSIZE nblocks NINODES nlog 2 (2 + nlog) (2 + nlog + ninodeblocks).
Definition encode_sb (sb : superblock) : list Z :=
  [sb_size sb; sb_nblocks sb; sb_ninodes sb; sb_nlog sb; sb_logstart sb; sb_inodestart sb; sb_bmapstart sb] ≫= bytes32.

(** The image file, by blocks, and the counters. *)
Record mkst := mk_mkst { img : gmap Z (list Z); freeinode : Z; freeblock : Z }.

Definition wsect (sec : Z) (buf : list Z) : M mkst unit := modify (fun s => {| s with img := <[sec := buf]> (img s) |}).
(** Past the end of the image [read] comes back short. *)
Definition rsect (sec : Z) : M mkst (list Z) := fun s => match img s !! sec with Some d => Ok d s | None => Panic "read" end.
Definition winode (n : Z) (ip : inode) : M mkst unit :=
  let bn := IBLOCK n new_sb in
  buf ← rsect bn;
  wsect bn (put buf (dip n) (encode_inode ip)).
Definition rinode (n : Z) : M mkst inode :=
  buf ← rsect (IBLOCK n new_sb);
  mret (decode_inode buf (dip n) {| inode_zero with inum := n |}).
Definition mk_ialloc (type : Z) : M mkst Z :=
  n ← gets freeinode;
  modify (fun s => {| s with freeinode := n + 1 |}) ;;
  winode n {| inode_zero with inum := n; itype := type; nlink := 1 |} ;;
  mret n.
(** [freeblock++] *)
Definition next_block : M mkst Z :=
  b ← gets freeblock;
  modify (fun s => {| s with freeblock := b + 1 |}) ;;
  mret b.

Definition bitmap (used : Z) : list Z := foldl bm_set zeros (seqZ 0 used).
Definition mk_balloc (used : Z) : M mkst unit :=
  if negb (used <? BSIZE * 8) then panic "assertion" else
  wsect (sb_bmapstart new_sb) (bitmap used).

(** The block of the file at block number [fbn], allocated when there is none,
    and the inode then. *)
Definition append_block (din : inode) (fbn : Z) : M mkst (Z * inode) :=
  if fbn <? Z.of_nat NDIRECT then
    let a := nth (Z.to_nat fbn) (addrs din) 0 in
    if a =? 0 then x ← next_block; mret (x, with_addr din (Z.to_nat fbn) x) else mret (a, din)
  else
    din ← (let a := nth NDIRECT (addrs din) 0 in
           if a =? 0 then x ← next_block; mret (with_addr din NDIRECT x) else mret din);
    let ib := nth NDIRECT (addrs din) 0 in
    indirect ← rsect ib;
    let a := get32 indirect (4 * (fbn - Z.of_nat NDIRECT)) in
    if a =? 0 then
      x ← next_block;
      wsect ib (put32 indirect (4 * (fbn - Z.of_nat NDIRECT)) x) ;;
      mret (x, din)
    else mret (a, din).
Fixpoint iappend_loop (din : inode) (off : Z) (p : list Z) (fuel : nat) : M mkst (inode * Z) :=
  match p, fuel with
  | [], _ => mret (din, off)
  | _ :: _, O => diverge
  | _ :: _, S fuel' =>
      let fbn := off / BSIZE in
      if negb (fbn <? MAXFILE) then panic "assertion" else
      r ← append_block din fbn;
      let n1 := Z.min (Z.of_nat (length p)) ((fbn + 1) * BSIZE - off) in
      buf ← rsect r.1;
      wsect r.1 (put buf (off - fbn * BSIZE) (take (Z.to_nat n1) p)) ;;
      iappend_loop r.2 (off + n1) (drop (Z.to_nat n1) p) fuel'
  end.
Definition iappend (n : Z) (p : list Z) : M mkst unit :=
  din ← rinode n;
  r ← iappend_loop din (size din) p (length p);
  winode n {| (fst r) with size := snd r |}.

(** The bytes of a file as [read] returns them, a block at a time. *)
Fixpoint chunks (p : list Z) (fuel : nat) : list (list Z) :=
  match p, fuel with
  | [], _ | _, O => []
  | _, S fuel' => take (Z.to_nat BSIZE) p :: chunks (drop (Z.to_nat BSIZE) p) fuel'
  end.
(** Without the underscore in front. *)
Definition strip (name : list Z) : list Z := match name with 95 :: t => t | _ => name end.
(** An argument: its name and, if it can be opened, its bytes. *)
Definition add_file (rootino : Z) (arg : list Z * option (list Z)) : M mkst unit :=
  if bool_decide (47 ∈ arg.1) then panic "assertion" else
  match arg.2 with
  | None => panic "open"
  | Some bytes =>
      n ← mk_ialloc T_FILE;
      iappend rootino (encode_dirent n (strip arg.1)) ;;
      for_each (chunks bytes (length bytes)) (iappend n)
  end.
Definition mkfs_main (args : list (list Z * option (list Z))) : M mkst unit :=
  modify (fun s => {| s with freeblock := nmeta |}) ;;
  for_each (seqZ 0 FSSIZE) (fun i => wsect i zeros) ;;
  wsect 1 (put zeros 0 (encode_sb new_sb)) ;;
  rootino ← mk_ialloc T_DIR;
  if negb (rootino =? ROOTINO) then panic "assertion" else
  iappend rootino (encode_dirent rootino [46]) ;;
  iappend rootino (encode_dirent rootino [46; 46]) ;;
  for_each args (add_file rootino) ;;
  din ← rinode rootino;
  winode rootino {| din with size := (size din / BSIZE + 1) * BSIZE |} ;;
  used ← gets freeblock;
  mk_balloc used.
Definition mkfs_start : mkst := mk_mkst ∅ 1 0.

(** ** The image during the work *)

(** The image as it will be once the bitmap is written. *)
Definition sealed (s : mkst) : gmap Z (list Z) := <[sb_bmapstart new_sb := bitmap (freeblock s)]> (img s).

Lemma foldl_bm_set l : Forall (fun b => 0 <= b < BPB) l ->
  is_block (foldl bm_set zeros l) /\ forall b, 0 <= b < BPB -> bm_test (foldl bm_set zeros l) b = bool_decide (b ∈ l).
Proof.
  induction l as [|x l IH] using rev_ind; intros H.
  { split; [apply zeros_block|]. intros b Hb. cbn [foldl]. rewrite bool_decide_false by apply not_elem_of_nil. unfold bm_test.
    assert (byte_at zeros (b / 8) = 0) as ->; [|done]. unfold byte_at, zeros. destruct (_ !! _) eqn:E; [|done]. by apply lookup_replicate in E as [-> _]. }
  apply list.Forall_app in H as [H Hx]. destruct (IH H) as [IH1 IH2]. apply list.Forall_cons in Hx as [Hx _]. rewrite foldl_app. cbn [foldl]. split; [by apply is_block_bm_set|].
  intros b Hb. rewrite bm_test_set, IH2 by done. rewrite <- bool_decide_or. apply bool_decide_ext. rewrite elem_of_app, list_elem_of_singleton. done.
Qed.
Lemma bitmap_block n : n <= BPB -> is_block (bitmap n).
Proof. intros Hn. apply foldl_bm_set. apply list.Forall_forall. intros x Hx%elem_of_seqZ. lia. Qed.
Lemma bitmap_test n b : n <= BPB -> 0 <= b < BPB -> bm_test (bitmap n) b = (b <? n).
Proof.
  intros Hn Hb. unfold bitmap. rewrite (proj2 (foldl_bm_set (seqZ 0 n) ltac:(apply list.Forall_forall; intros x Hx%elem_of_seqZ; lia))) by done.
  destruct (Z.ltb_spec b n); [apply bool_decide_true|apply bool_decide_false]; rewrite elem_of_seqZ; lia.
Qed.
Lemma bitmap_succ n : 0 <= n -> bitmap (n + 1) = bm_set (bitmap n) n.
Proof. intros Hn. unfold bitmap. rewrite seqZ_split by lia. rewrite foldl_app. done. Qed.

Definition is_free (s : mkst) : Prop := forall b, freeblock s <= b < FSSIZE -> img s !! b = Some zeros.
(** The state of the image: what [layout] says of it once the bitmap is
    written, and the free blocks are zero. *)
Record image_ok (s : mkst) : Prop := {
  io_layout : layout (sealed s) new_sb;
  io_free : is_free s;
  io_range : nmeta <= freeblock s <= FSSIZE
}.

Lemma sealed_ne s b : b ≠ 58 -> sealed s !! b = img s !! b.
Proof. intros H. unfold sealed. by rewrite lookup_insert_ne. Qed.
Lemma in_use_sealed s b : image_ok s -> 0 <= b < FSSIZE -> in_use (sealed s) new_sb b = (b <? freeblock s).
Proof.
  intros [_ _ Hr] Hb. unfold in_use. replace (BBLOCK b new_sb) with (sb_bmapstart new_sb) by (unfold BBLOCK, BPB, BSIZE, FSSIZE in *; zlia).
  unfold sealed. rewrite lookup_insert_eq. cbn [default from_option id]. unfold FSSIZE in *. rewrite Z.mod_small by (unfold BPB, BSIZE; lia). apply bitmap_test; unfold BPB, BSIZE; lia.
Qed.
(** [freeblock++] marks the block in the bitmap to come. *)
Lemma sealed_next s : image_ok s -> freeblock s < FSSIZE ->
  sealed {| s with freeblock := freeblock s + 1 |} = alloced (sealed s) new_sb (freeblock s).
Proof.
  intros [_ Hf Hr] Hlt. change nmeta with 59 in Hr. unfold FSSIZE in *. unfold alloced, mark. replace (BBLOCK (freeblock s) new_sb) with (sb_bmapstart new_sb) by (unfold BBLOCK, BPB, BSIZE in *; zlia).
  unfold sealed at 2. rewrite lookup_insert_eq. cbn [default from_option id]. rewrite Z.mod_small by (unfold BPB, BSIZE; lia). rewrite <- bitmap_succ by lia.
  unfold sealed. cbn [freeblock img]. rewrite insert_insert_eq. rewrite insert_insert_ne by (change (sb_bmapstart new_sb) with 58; lia). f_equal. symmetry. apply insert_id, Hf. unfold FSSIZE. lia.
Qed.
Lemma image_ok_next s : image_ok s -> freeblock s < FSSIZE -> image_ok {| s with freeblock := freeblock s + 1 |}.
Proof.
  intros I Hlt. split.
  - rewrite sealed_next by done. apply layout_alloced; [apply I|]. pose proof (io_range _ I). unfold data_block, new_sb, nblocks. cbn [sb_size sb_nblocks]. lia.
  - intros b Hb. cbn [freeblock img] in *. apply (io_free _ I). lia.
  - cbn [freeblock]. pose proof (io_range _ I). lia.
Qed.
(** A write to a block that is in use and not the bitmap. *)
Lemma sealed_wsect s b d : b ≠ 58 -> sealed {| s with img := <[b := d]> (img s) |} = <[b := d]> (sealed s).
Proof. intros Hb. unfold sealed. cbn [img freeblock]. by rewrite insert_insert_ne by (change (sb_bmapstart new_sb) with 58; lia). Qed.
Lemma image_ok_wsect s b d : image_ok s -> b ≠ 58 -> b < freeblock s -> is_block d -> image_ok {| s with img := <[b := d]> (img s) |}.
Proof.
  intros I Hb Hlt Hd. split; [|intros x Hx; cbn [img freeblock] in *; rewrite lookup_insert_ne by lia; by apply (io_free _ I)|apply I].
  rewrite sealed_wsect by done. apply layout_insert; [apply I|done|]. intros x Hx. cbn [sb_size new_sb] in Hx. unfold FSSIZE in Hx.
  replace (BBLOCK x new_sb) with 58; [lia|]. unfold BBLOCK, BPB, BSIZE. change (sb_bmapstart new_sb) with 58. zlia.
Qed.

(** ** Blocks of a file *)

(** The size rounded up to whole blocks, the number of blocks with the indirect
    one, and that a file has no others. *)
Definition rnd (n : Z) : Z := (n + 511) / 512 * 512.
Definition need (n : Z) : Z := let b := (n + 511) / 512 in if 12 <? b then b + 1 else b.
Definition tight (v : gmap Z (list Z)) (i : inode) (n : Z) : Prop :=
  (forall j, 0 <= j < SLOT_IND -> n <= j * 512 -> slot v i j = 0) /\ (n <= 6144 -> ind i = 0).
(** The states between which the lemmas about fs.c are used. *)
Definition view (v : gmap Z (list Z)) (i : inode) : fstate :=
  {| fl := {| st := mk_store ∅ v ∅ [] []; lg := log_zero |}; fsb := new_sb; icache := [i]; fcwd := 0 |}.

Lemma wp_rsect s b d (Q : list Z -> mkst -> Prop) : img s !! b = Some d -> Q d s -> wp (rsect b) Q s.
Proof. intros H HQ. unfold wp, rsect. by rewrite H. Qed.
Lemma wp_next_block s (Q : Z -> mkst -> Prop) : Q (freeblock s) {| s with freeblock := freeblock s + 1 |} -> wp next_block Q s.
Proof. done. Qed.
Lemma mapped_le s s' ip i i' j a c c' : (c <= c')%nat -> mapped s s' ip i i' j a c -> mapped s s' ip i i' j a c'.
Proof. intros Hc [M1 M2 M3 M4 M5 M6 M7 M8 M9 M10 M11]. split; try done. lia. Qed.
Lemma data_sealed s b d : image_ok s -> data_block new_sb b -> sealed s !! b = Some d -> img s !! b = Some d.
Proof. intros I Hb. rewrite sealed_ne; [done|]. unfold data_block in Hb. change (sb_size new_sb - sb_nblocks new_sb) with 59 in Hb. lia. Qed.

(** What [append_block] does for the block at offset [off]. *)
Record appended (s s' : mkst) (i i' : inode) (off x : Z) : Prop := {
  ap_image : image_ok s';
  ap_mapped : mapped (view (sealed s) i) (view (sealed s') i') 0 i i' (off / BSIZE) x 2;
  ap_blocks : freeblock s' = freeblock s + (need (off + 1) - need off);
  ap_inodes : freeinode s' = freeinode s;
  ap_ind : off / BSIZE < 12 -> ind i' = ind i
}.

Lemma free_next s : image_ok s -> freeblock s < FSSIZE -> in_use (sealed s) new_sb (freeblock s) = false.
Proof. intros I H. pose proof (io_range _ I). change nmeta with 59 in *. rewrite in_use_sealed by (done || lia). apply Z.ltb_ge. lia. Qed.
Lemma appended_direct s i k off :
  image_ok s -> file_inv (sealed s) new_sb i -> (k < 12)%nat -> nth k (addrs i) 0 = 0 -> freeblock s < FSSIZE ->
  off / BSIZE = Z.of_nat k -> need (off + 1) - need off = 1 ->
  appended s {| s with freeblock := freeblock s + 1 |} i (with_addr i k (freeblock s)) off (freeblock s).
Proof.
  intros I F Hk Hz Hlt Eo En. pose proof (io_range _ I) as Hr. change nmeta with 59 in Hr. split; [by apply image_ok_next| |by rewrite En|done|].
  - rewrite Eo. replace (Z.of_nat k) with (aslot k) by (unfold aslot; by rewrite (proj2 (Nat.ltb_lt _ _))). apply (mapped_le _ _ _ _ _ _ _ 1); [lia|].
    apply mapped_addr; try done; [apply I|lia|cbn; lia|by apply free_next|by apply sealed_next].
  - intros _. unfold ind, with_addr, NDIRECT. cbn [addrs]. rewrite nth_insert by (rewrite (fi_len _ _ _ F); lia). by rewrite decide_False by lia.
Qed.
(** An entry of the indirect block. *)
Lemma mapped_next_entry s i bn d :
  image_ok s -> file_inv (sealed s) new_sb i -> 12 <= bn < SLOT_IND -> ind i ≠ 0 -> slot (sealed s) i bn = 0 -> freeblock s < FSSIZE -> img s !! ind i = Some d ->
  let s' := {| s with img := <[ind i := put32 d (4 * (bn - 12)) (freeblock s)]> (img s); freeblock := freeblock s + 1 |} in
  image_ok s' /\ mapped (view (sealed s) i) (view (sealed s') i) 0 i i bn (freeblock s) 1.
Proof.
  intros I F Hbn Hi Hz Hlt Hd s'. pose proof (io_range _ I) as Hr. change nmeta with 59 in Hr.
  destruct (fi_blk _ _ _ F SLOT_IND) as [D U]; [done|done|]. rewrite ind_slot in D, U.
  assert (59 <= ind i < freeblock s) as Hrange. { unfold data_block in D. change (sb_size new_sb - sb_nblocks new_sb) with 59 in D. change (sb_size new_sb) with FSSIZE in D. rewrite in_use_sealed in U by (done || lia). apply Z.ltb_lt in U. lia. }
  assert (is_block d) as Bd. { apply (ly_block _ _ (io_layout _ I) (ind i)). by rewrite sealed_ne by lia. }
  assert (is_block (put32 d (4 * (bn - 12)) (freeblock s))) as Bp. { apply is_block_put; [done|apply is_bytes32|lia|]. unfold SLOT_IND, BSIZE in *. cbn [length bytes32]. lia. }
  assert (image_ok {| s with freeblock := freeblock s + 1 |}) as I1 by (by apply image_ok_next).
  split.
  - apply (image_ok_wsect _ (ind i) _ I1); cbn [freeblock]; [lia|lia|done].
  - apply (mapped_entry _ _ _ _ _ _ d); try done; try (by split); [apply I|by rewrite <- Hd; apply sealed_ne; lia|cbn; lia|by apply free_next|].
    change (V (view (sealed s') i)) with (sealed s'). change (V (view (sealed s) i)) with (sealed s). cbn [fsb view].
    rewrite <- sealed_next by done. rewrite <- sealed_wsect by lia. done.
Qed.

Section Append.
Context (s : mkst) (i : inode) (off : Z).
Hypothesis I : image_ok s.
Hypothesis F : file_inv (sealed s) new_sb i.
Hypothesis Hc : covers (sealed s) i (rnd off).
Hypothesis Ht : tight (sealed s) i off.
Hypothesis Hoff : 0 <= off < MAXFILE * BSIZE.
Let bn := off / BSIZE.

Lemma bn_range : 0 <= bn < SLOT_IND.
Proof. unfold bn, MAXFILE, BSIZE, SLOT_IND in *. zlia. Qed.
Lemma slot_bn : slot (sealed s) i bn = 0 <-> off mod 512 = 0.
Proof.
  pose proof bn_range as Hb. split.
  - intros E. destruct (decide (off mod 512 = 0)) as [|Hne]; [done|]. exfalso. apply (Hc (bn * 512)); [unfold bn, rnd, BSIZE in *; zlia|].
    rewrite <- E. f_equal. unfold bn, BSIZE. zlia.
  - intros E. apply Ht; [done|]. unfold bn, BSIZE. zlia.
Qed.
Lemma need_step : need (off + 1) - need off = if decide (off mod 512 = 0) then (if decide (bn = 12) then 2 else 1) else 0.
Proof.
  unfold need. assert ((off + 1 + 511) / 512 = bn + 1) as -> by (unfold bn, BSIZE; zlia). destruct (decide (off mod 512 = 0)) as [E|E].
  - assert ((off + 511) / 512 = bn) as -> by (unfold bn, BSIZE; zlia). case_decide; destruct (Z.ltb_spec 12 (bn + 1)), (Z.ltb_spec 12 bn); lia.
  - assert ((off + 511) / 512 = bn + 1) as -> by (unfold bn, BSIZE; zlia). lia.
Qed.
Lemma ind_bn : 12 <= bn -> off mod 512 = 0 -> ind i = 0 <-> bn = 12.
Proof.
  intros H12 Em. pose proof bn_range as Hb. split.
  - intros E. destruct (decide (bn = 12)) as [|Hne]; [done|]. exfalso. apply (Hc 6144); [unfold bn, rnd, BSIZE in *; zlia|].
    change (6144 / BSIZE) with 12. unfold slot. cbn [Z.ltb Z.compare]. rewrite E. done.
  - intros E. apply Ht. unfold bn, BSIZE in *. zlia.
Qed.
Lemma appended_present x : off mod 512 ≠ 0 -> slot (sealed s) i bn = x -> appended s s i i off x.
Proof.
  intros Hne <-. split; [done| |rewrite need_step; rewrite decide_False by done; lia|done|done].
  apply mapped_refl; try done; [apply I|]. intros E. by apply slot_bn in E.
Qed.

Lemma img_ind : ind i ≠ 0 -> exists d, img s !! ind i = Some d /\ sealed s !! ind i = Some d.
Proof.
  intros Hi. destruct (fi_blk _ _ _ F SLOT_IND) as [D U]; [done|done|]. rewrite ind_slot in D. destruct (slot_exists _ _ _ SLOT_IND (io_layout _ I) F) as (d & Hd & _); [done|done|].
  exists d. split; [|done]. by apply data_sealed.
Qed.

(** With the indirect block there. *)
Lemma wp_append_entry (Q : Z * inode -> mkst -> Prop) :
  12 <= bn -> ind i ≠ 0 -> (off mod 512 = 0 -> freeblock s < FSSIZE) ->
  (forall x s', appended s s' i i off x -> Q (x, i) s') ->
  wp (indirect ← rsect (ind i);
      let a := get32 indirect (4 * (bn - Z.of_nat NDIRECT)) in
      if a =? 0 then
        x ← next_block;
        wsect (ind i) (put32 indirect (4 * (bn - Z.of_nat NDIRECT)) x) ;;
        mret (x, i)
      else mret (a, i)) Q s.
Proof.
  intros H12 Hi Hlt HQ. pose proof bn_range as Hb. destruct (img_ind Hi) as (d & Hd & Hs). rewrite wp_bind. apply (wp_rsect _ _ d); [done|].
  change (Z.of_nat NDIRECT) with 12. assert (get32 d (4 * (bn - 12)) = slot (sealed s) i bn) as Es. { rewrite slot_indirect by (done || lia). by rewrite Hs. }
  cbv zeta. rewrite Es. destruct (Z.eqb_spec (slot (sealed s) i bn) 0) as [E|E].
  - pose proof (proj1 slot_bn E) as Em. destruct (mapped_next_entry s i bn d I F) as [I' Mp]; try done; [lia|by apply Hlt|].
    rewrite wp_bind. apply wp_next_block. wp_steps. cbn [img freeblock]. apply HQ. split; [exact I'|by apply (mapped_le _ _ _ _ _ _ _ 1); [lia|]| |done|done].
    cbn [freeblock]. rewrite need_step, decide_True by done. rewrite decide_False; [done|]. intros E12. apply Hi, ind_bn; done.
  - apply wp_ret, HQ, appended_present; [|done]. intros Em. by apply slot_bn in Em.
Qed.
(** The first entry, with the indirect block itself. *)
Lemma wp_append_indirect (Q : Z * inode -> mkst -> Prop) :
  bn = 12 -> off mod 512 = 0 -> freeblock s + 1 < FSSIZE ->
  (forall x i' s', appended s s' i i' off x -> Q (x, i') s') ->
  let a := freeblock s in
  let s1 := {| s with freeblock := a + 1 |} in
  wp (indirect ← rsect a;
      let e := get32 indirect (4 * (bn - Z.of_nat NDIRECT)) in
      if e =? 0 then
        x ← next_block;
        wsect a (put32 indirect (4 * (bn - Z.of_nat NDIRECT)) x) ;;
        mret (x, with_addr i NDIRECT a)
      else mret (e, with_addr i NDIRECT a)) Q s1.
Proof.
  intros H12 Em Hlt HQ a s1. pose proof (io_range _ I) as Hr. change nmeta with 59 in Hr. assert (ind i = 0) as Hi by (apply ind_bn; [lia|done..]).
  assert (mapped (view (sealed s) i) (view (sealed s1) (with_addr i NDIRECT a)) 0 i (with_addr i NDIRECT a) SLOT_IND a 1) as M1.
  { apply (mapped_addr (view (sealed s) i) (view (sealed s1) (with_addr i 12 a)) 0 i 12 a); try done; [apply I|cbn; lia|apply free_next; [done|lia]|apply sealed_next; [done|lia]]. }
  pose proof (mp_grows _ _ _ _ _ _ _ _ M1) as G. cbn [fsb view] in G. set (i1 := with_addr i NDIRECT a) in *. assert (image_ok s1) as I1 by (apply image_ok_next; [done|lia]).
  assert (ind i1 = a) as Hi1 by (apply (mp_slot _ _ _ _ _ _ _ _ M1)). assert (img s !! a = Some zeros) as Hz by (apply (io_free _ I); lia).
  rewrite wp_bind. apply (wp_rsect _ _ zeros); [done|]. cbv zeta. rewrite get32_zeros. cbn [Z.eqb]. rewrite wp_bind. apply wp_next_block. wp_steps. cbn [img freeblock s1]. change (Z.of_nat NDIRECT) with 12.
  assert (slot (sealed s1) i1 bn = 0) as Hs1. { pose proof bn_range. rewrite (mp_others _ _ _ _ _ _ _ _ M1) by (unfold SLOT_IND in *; lia). by apply slot_bn. }
  destruct (mapped_next_entry s1 i1 bn zeros I1 (gr_inv _ _ _ _ _ G)) as [I2 M2]; rewrite ?Hi1; try done; [unfold SLOT_IND; lia|lia|]. rewrite Hi1 in I2, M2.
  apply HQ. split; [exact I2| |cbn [freeblock]; rewrite need_step, !decide_True by done; unfold a; lia|done|intros Hx; fold bn in Hx; lia].
  eapply (mapped_trans _ (view (sealed s1) i1)); [apply I|apply bn_range|by apply slot_bn|exact M1|exact M2].
Qed.

Lemma wp_append_block (Q : Z * inode -> mkst -> Prop) :
  freeblock s + (need (off + 1) - need off) <= FSSIZE ->
  (forall x i' s', appended s s' i i' off x -> Q (x, i') s') -> wp (append_block i bn) Q s.
Proof.
  intros Hfit HQ. pose proof bn_range as Hb. pose proof need_step as En. unfold append_block. change (Z.of_nat NDIRECT) with 12 at 1. destruct (Z.ltb_spec bn 12) as [H12|H12].
  - cbv zeta. assert (slot (sealed s) i bn = nth (Z.to_nat bn) (addrs i) 0) as Es by (unfold slot; by rewrite (proj2 (Z.ltb_lt _ _))). rewrite <- Es.
    destruct (Z.eqb_spec (slot (sealed s) i bn) 0) as [E|E].
    + pose proof (proj1 slot_bn E) as Em. rewrite decide_True, decide_False in En by (done || lia). rewrite wp_bind. apply wp_next_block. wp_steps. apply HQ.
      apply appended_direct; try done; [lia|congruence|lia|fold bn; lia].
    + apply wp_ret, HQ, appended_present; [|done]. intros Em. by apply slot_bn in Em.
  - cbv zeta. fold (ind i). destruct (Z.eqb_spec (ind i) 0) as [Hi|Hi].
    + destruct (decide (off mod 512 = 0)) as [Em|Em].
      * apply ind_bn in Hi; [|done..]. rewrite decide_True in En by done. rewrite wp_bind, wp_bind. apply wp_next_block. rewrite wp_ret.
        assert (nth NDIRECT (addrs (with_addr i NDIRECT (freeblock s))) 0 = freeblock s) as ->. { unfold with_addr, NDIRECT. cbn [addrs]. rewrite nth_insert by (rewrite (fi_len _ _ _ F); lia). by rewrite decide_True. }
        apply wp_append_indirect; [done|done|lia|done].
      * exfalso. assert (slot (sealed s) i bn = 0) as E; [|by apply slot_bn in E]. unfold slot. rewrite (proj2 (Z.ltb_ge _ _)) by done. rewrite Hi. by destruct (_ =? SLOT_IND).
    + rewrite wp_bind, wp_ret. fold (ind i). apply wp_append_entry; try done; [|intros; by apply HQ].
      intros Em. rewrite decide_True in En by done. rewrite decide_False in En by (intros E12; by apply Hi, ind_bn). lia.
Qed.
End Append.

(** ** The bytes of a file *)

Definition zpad (n : Z) : list Z := replicate (Z.to_nat (rnd n - n)) 0.
Definition len (c : list Z) : Z := Z.of_nat (length c).
(** The file has the bytes [c], zeros to the end of its last block, and no
    other blocks. *)
Record holds (v : gmap Z (list Z)) (i : inode) (c : list Z) : Prop := {
  hd_inv : file_inv v new_sb i;
  hd_covers : covers v i (rnd (len c));
  hd_bytes : upto v i (rnd (len c)) = c ++ zpad (len c);
  hd_tight : tight v i (len c)
}.

Lemma put_tail (d : list Z) o piece (r : list Z) :
  (o + length piece <= length d)%nat -> drop (o + length piece) d = r -> put d (Z.of_nat o) piece = put d (Z.of_nat o) (piece ++ r).
Proof.
  intros Hl <-. unfold put, splice. rewrite Nat2Z.id, length_app, length_drop, <- app_assoc. do 3 f_equal. rewrite (drop_ge d (_ + (_ + _))) by lia. by rewrite app_nil_r.
Qed.
Lemma splice_pad (c z piece r : list Z) : (length z <= length (piece ++ r))%nat -> splice (c ++ z) (length c) (piece ++ r) = c ++ piece ++ r.
Proof. intros H. unfold splice. rewrite take_app_length, drop_ge by (rewrite length_app; lia). by rewrite app_nil_r. Qed.
(** The last block of the file is zero after its bytes, as a new block is. *)
Lemma last_block_tail s s1 i i1 c x d :
  holds (sealed s) i c -> len c < MAXFILE * BSIZE -> appended s s1 i i1 (len c) x -> sealed s1 !! x = Some d -> is_block d ->
  forall k, (Z.to_nat (len c mod 512) <= k < 512)%nat -> d !! k = Some 0.
Proof.
  intros [F Hc Hb Ht] Hmax A Hd [Hl Bd] k Hk. pose proof (ap_mapped _ _ _ _ _ _ A) as Mp. change (Z.to_nat BSIZE) with 512%nat in Hl. assert (0 <= len c) as H0 by (unfold len; lia).
  destruct (decide (slot (sealed s) i (len c / BSIZE) = 0)) as [E|E].
  { pose proof (mp_zero _ _ _ _ _ _ _ _ Mp E) as Hz. change (V (view (sealed s1) i1)) with (sealed s1) in Hz. rewrite Hd in Hz. injection Hz as ->. apply lookup_replicate. split; [done|]. change (Z.to_nat BSIZE) with 512%nat. lia. }
  destruct (mp_same _ _ _ _ _ _ _ _ Mp E) as [EV ->]. change (sealed s1 = sealed s) in EV. rewrite EV in Hd. pose proof (mp_slot _ _ _ _ _ _ _ _ Mp) as Es. change (V (view (sealed s1) i)) with (sealed s1) in Es. rewrite EV in Es.
  destruct (decide (len c mod 512 = 0)) as [Em|Em]. { exfalso. apply E. apply Ht; [unfold MAXFILE, BSIZE, SLOT_IND in *; zlia|]. unfold BSIZE. zlia. }
  set (o := len c / 512 * 512 + Z.of_nat k). assert (0 <= o < rnd (len c)) as Ho by (unfold o, rnd; zlia). assert (len c <= o) as Ho2 by (unfold o; zlia).
  pose proof (lookup_upto (sealed s) i (rnd (len c)) (Z.to_nat o) ltac:(lia)) as Hu. rewrite Hb, lookup_app_r in Hu by (unfold len in *; lia). apply lookup_replicate in Hu as [Hu _].
  rewrite Z2Nat.id in Hu by lia. unfold fbyte, fblock in Hu. replace (o / BSIZE) with (len c / BSIZE) in Hu by (unfold o, BSIZE; rewrite Z.div_add_l, (Z.div_small (Z.of_nat k)) by lia; lia). rewrite Es, Hd in Hu. cbn [default from_option id] in Hu.
  replace (o mod BSIZE) with (Z.of_nat k) in Hu by (unfold o, BSIZE; rewrite Z.add_comm, Z_mod_plus_full, Z.mod_small; lia). unfold byte_at in Hu. rewrite Nat2Z.id in Hu. destruct (d !! k) as [b|] eqn:Eb; [cbn in Hu; by subst b|]. apply lookup_ge_None in Eb. lia.
Qed.

Lemma rnd_piece (c piece : list Z) :
  0 < len piece <= 512 - len c mod 512 ->
  rnd (len c) <= len c + (512 - len c mod 512) /\ len c <= rnd (len c) /\ rnd (len (c ++ piece)) = len c + (512 - len c mod 512).
Proof.
  intros Hp. replace (len (c ++ piece)) with (len c + len piece) by (unfold len; rewrite length_app; lia). assert (0 <= len c) by (unfold len; lia). unfold rnd. generalize dependent (len c). generalize dependent (len piece). intros. zlia.
Qed.
Lemma tight_piece s s1 i i1 c x piece d' :
  appended s s1 i i1 (len c) x -> file_inv (sealed s1) new_sb i1 -> 0 <= len c / BSIZE < SLOT_IND -> slot (sealed s1) i1 (len c / BSIZE) = x -> x ≠ 0 ->
  tight (sealed s) i (len c) -> 0 < len piece <= 512 - len c mod 512 ->
  tight (<[slot (sealed s1) i1 (len c / BSIZE) := d']> (sealed s1)) i1 (len (c ++ piece)).
Proof.
  intros A F1 Hbn Es Hx [T1 T2] Hp. assert (len (c ++ piece) = len c + len piece) as -> by (unfold len; rewrite length_app; lia). assert (0 <= len c) as H0 by (unfold len; lia). split.
  - intros j Hj Hle. rewrite (slot_data _ _ _ _ _ _ F1) by (done || congruence). rewrite <- (T1 j) by (done || lia).
    apply (mp_others _ _ _ _ _ _ _ _ (ap_mapped _ _ _ _ _ _ A)); [done|]. intros ->. unfold BSIZE in Hle. pose proof (Z.div_mod (len c) 512 ltac:(lia)). pose proof (Z.mod_pos_bound (len c) 512 ltac:(lia)). lia.
  - intros Hle. rewrite (ap_ind _ _ _ _ _ _ A); [apply T2; lia|]. unfold BSIZE. apply Z.div_lt_upper_bound; lia.
Qed.
(** One round of [iappend]: a piece that lies within a block. *)
Lemma holds_piece s s1 i i1 c x d piece :
  image_ok s -> holds (sealed s) i c -> appended s s1 i i1 (len c) x -> img s1 !! x = Some d -> is_bytes piece ->
  0 < len piece <= 512 - len c mod 512 -> len c + len piece <= MAXFILE * BSIZE ->
  let s2 := {| s1 with img := <[x := put d (len c mod 512) piece]> (img s1) |} in
  image_ok s2 /\ holds (sealed s2) i1 (c ++ piece) /\ grows (sealed s) (sealed s2) new_sb i i1.
Proof.
  intros I H A Hd Hpb Hp Hmax s2. pose proof H as [F Hc Hb Ht]. pose proof (ap_mapped _ _ _ _ _ _ A) as Mp. pose proof (ap_image _ _ _ _ _ _ A) as I1.
  pose proof (mp_grows _ _ _ _ _ _ _ _ Mp) as G. cbn [fsb view] in G. change (V (view ?v ?j)) with v in *. pose proof (gr_inv _ _ _ _ _ G) as F1.
  pose proof (mp_slot _ _ _ _ _ _ _ _ Mp) as Es. change (V (view ?v ?j)) with v in Es. pose proof (mp_nz _ _ _ _ _ _ _ _ Mp) as Hx.
  assert (0 <= len c) as H0 by (unfold len; lia). set (bn := len c / BSIZE) in *. assert (0 <= bn < SLOT_IND) as Hbn by (unfold bn, MAXFILE, BSIZE, SLOT_IND in *; zlia). assert (is_slot bn) as Hsl by (unfold is_slot; lia).
  destruct (fi_blk _ _ _ F1 bn Hsl) as [D U]; [congruence|]. rewrite Es in D, U. assert (59 <= x < freeblock s1) as Hxr.
  { unfold data_block in D. change (sb_size new_sb - sb_nblocks new_sb) with 59 in D. change (sb_size new_sb) with FSSIZE in D. rewrite in_use_sealed in U by (done || lia). apply Z.ltb_lt in U. lia. }
  assert (sealed s1 !! x = Some d) as Hd1 by (by rewrite sealed_ne by lia). assert (is_block d) as Bd by (by apply (ly_block _ _ (io_layout _ I1) x)).
  pose proof (last_block_tail _ _ _ _ _ _ _ H ltac:(lia) A Hd1 Bd) as Htail. set (o := len c mod 512) in *. assert (0 <= o < 512) as Ho by (apply Z.mod_pos_bound; lia).
  assert (is_block (put d o piece)) as Bp by (apply is_block_put; [done|done|lia|unfold len, BSIZE in *; lia]).
  assert (sealed s2 = <[x := put d o piece]> (sealed s1)) as E2 by (apply sealed_wsect; lia).
  assert (grows (sealed s1) (sealed s2) new_sb i1 i1) as G2 by (rewrite E2, <- Es; apply grows_data; try done; [apply G|congruence]).
  set (zr := replicate (Z.to_nat (512 - o - len piece)) 0).
  assert (put d o piece = put d o (piece ++ zr)) as Ep.
  { rewrite <- (Z2Nat.id o) by lia. destruct Bd as [Bl _]. change (Z.to_nat BSIZE) with 512%nat in Bl. apply put_tail; [unfold len in *; lia|].
    apply list_eq_same_length with (n := Z.to_nat (512 - o - len piece)); [unfold zr; by rewrite length_replicate|rewrite length_drop; unfold len in *; lia|].
    intros k y z Hk. rewrite lookup_drop, Htail by (unfold len in *; lia). intros [= <-] Hz. unfold zr in Hz. apply lookup_replicate in Hz as [-> _]. done. }
  assert (len (piece ++ zr) = 512 - o) as El by (unfold len in *; rewrite length_app; unfold zr; rewrite length_replicate; lia).
  assert (rnd (len c) <= len c + (512 - o) /\ len c <= rnd (len c) /\ rnd (len (c ++ piece)) = len c + (512 - o)) as (R1 & R2 & R3) by (by apply rnd_piece).
  assert (len c + (512 - o) <= MAXFILE * BSIZE) as R4 by (unfold o, MAXFILE, BSIZE in *; clear -Hmax Hp H0; zlia).
  destruct (written_piece (view (sealed s) i) (view (sealed s1) i1) 0 i i1 x 2 d (len c) (piece ++ zr) (rnd (len c))) as [W1 W2]; try done; fold (len (piece ++ zr)); rewrite ?El; try lia; [apply I|unfold BSIZE; fold o; lia|].
  change (V (view ?v ?j)) with v in W1, W2. fold (len (piece ++ zr)) in W1, W2. rewrite El, Z.max_r in W1, W2 by lia. change (len c mod BSIZE) with o in W1, W2. rewrite <- Ep, <- E2, <- R3 in W1, W2.
  split_and!; [apply image_ok_wsect; try done; lia| |by eapply grows_trans]. split; [apply G2|done| |].
  - rewrite W2, Hb. unfold len at 2. rewrite Nat2Z.id, splice_pad, <- app_assoc.
    + do 2 f_equal. unfold zr, zpad. f_equal. rewrite R3. unfold len. rewrite length_app. unfold len in *. lia.
    + unfold zpad. rewrite length_replicate. unfold len in *. lia.
  - rewrite E2, <- Es. by apply (tight_piece s s1 i i1 c x).
Qed.

Lemma need_piece n m : 0 < m <= 512 - n mod 512 -> 0 <= n -> need (n + m) = need (n + 1).
Proof. intros Hm Hn. unfold need. assert ((n + m + 511) / 512 = (n + 1 + 511) / 512) as -> by zlia. done. Qed.
Lemma need_mono n m : n <= m -> need n <= need m.
Proof.
  intros H. unfold need. assert ((n + 511) / 512 <= (m + 511) / 512) by (apply Z.div_le_mono; lia).
  destruct (Z.ltb_spec 12 ((n + 511) / 512)), (Z.ltb_spec 12 ((m + 511) / 512)); lia.
Qed.
Lemma len_app c p : len (c ++ p) = len c + len p.
Proof. unfold len. rewrite length_app. lia. Qed.

Lemma wp_iappend_loop fuel : forall s i c p (Q : inode * Z -> mkst -> Prop),
  image_ok s -> holds (sealed s) i c -> is_bytes p -> len c + len p <= MAXFILE * BSIZE ->
  freeblock s + (need (len c + len p) - need (len c)) <= FSSIZE -> (length p <= fuel)%nat ->
  (forall i' s', image_ok s' -> holds (sealed s') i' (c ++ p) -> grows (sealed s) (sealed s') new_sb i i' ->
     freeblock s' = freeblock s + (need (len c + len p) - need (len c)) -> freeinode s' = freeinode s -> Q (i', len c + len p) s') ->
  wp (iappend_loop i (len c) p fuel) Q s.
Proof.
  assert (forall c, len c + len [] = len c) as E0 by (intros c; unfold len; cbn; lia).
  induction fuel as [|fuel IH]; intros s i c p Q I H Hb Hmax Hfit Hf HQ; (assert (p = [] -> Q (i, len c) s) as Hnil;
    [intros ->; specialize (HQ i s); rewrite E0, app_nil_r in HQ; apply HQ; try done; [apply grows_refl; [apply I|apply H]|lia]|]).
  { destruct p; [by apply Hnil|cbn in Hf; lia]. }
  destruct p as [|b p']; [by apply Hnil|]. clear Hnil.
  cbn [iappend_loop]. set (p := b :: p') in *. assert (0 < len p) as Hp0 by (unfold len, p; cbn; lia). assert (0 <= len c) as Hc0 by (unfold len; lia).
  pose proof (Z.mod_pos_bound (len c) 512 ltac:(lia)) as Hmod. pose proof (Z.div_mod (len c) 512 ltac:(lia)) as Hdm.
  assert (len c / BSIZE < MAXFILE) as Hfb by (unfold MAXFILE, BSIZE in *; apply Z.div_lt_upper_bound; lia). rewrite (proj2 (Z.ltb_lt _ _)) by done. cbn [negb].
  change (Z.of_nat (length p)) with (len p). replace ((len c / BSIZE + 1) * BSIZE - len c) with (512 - len c mod 512) by (unfold BSIZE; lia). replace (len c - len c / BSIZE * BSIZE) with (len c mod 512) by (unfold BSIZE; lia).
  set (n1 := Z.min (len p) (512 - len c mod 512)). set (p1 := take (Z.to_nat n1) p). set (p2 := drop (Z.to_nat n1) p).
  assert (p = p1 ++ p2) as Ep by (symmetry; apply take_drop). assert (len p1 = n1) as El1 by (unfold len, p1; rewrite length_take; unfold len in *; lia). assert (len p = n1 + len p2) as El by (rewrite Ep, len_app, El1; done).
  assert (0 <= len p2) as Hp2 by (unfold len; lia). pose proof (need_piece (len c) n1 ltac:(lia) Hc0) as En. pose proof (need_mono (len c + n1) (len c + len p) ltac:(lia)) as Hmono.
  rewrite wp_bind. apply wp_append_block; [done|apply H|apply H|apply H|lia|lia|]. intros x i1 s1 A. cbn [fst snd].
  pose proof (ap_mapped _ _ _ _ _ _ A) as Mp. pose proof (mp_grows _ _ _ _ _ _ _ _ Mp) as G. cbn [fsb view] in G. change (V (view ?v ?j)) with v in G.
  destruct (slot_exists _ _ _ (len c / BSIZE) (gr_layout _ _ _ _ _ G) (gr_inv _ _ _ _ _ G)) as (d & Hd & Bd); [unfold is_slot, SLOT_IND, MAXFILE, BSIZE in *; zlia|rewrite (mp_slot _ _ _ _ _ _ _ _ Mp : slot (sealed s1) i1 _ = x); apply Mp|].
  assert (data_block new_sb x) as D. { rewrite <- (mp_slot _ _ _ _ _ _ _ _ Mp : slot (sealed s1) i1 _ = x). apply (fi_blk _ _ _ (gr_inv _ _ _ _ _ G)); [unfold is_slot, SLOT_IND, MAXFILE, BSIZE in *; zlia|rewrite (mp_slot _ _ _ _ _ _ _ _ Mp : slot (sealed s1) i1 _ = x); apply Mp]. }
  rewrite (mp_slot _ _ _ _ _ _ _ _ Mp : slot (sealed s1) i1 _ = x) in Hd. apply data_sealed in Hd; [|apply A|done].
  rewrite wp_bind. apply (wp_rsect _ _ d); [done|]. wp_steps. rewrite Ep in Hb. apply list.Forall_app in Hb as [Hb1 Hb2].
  destruct (holds_piece s s1 i i1 c x d p1 I H A Hd Hb1) as (I2 & H2 & G2); [lia|lia|]. rewrite <- El1, <- len_app.
  apply IH; try done.
  - rewrite len_app. lia.
  - cbn [freeblock]. rewrite (ap_blocks _ _ _ _ _ _ A), len_app, El1. replace (len c + n1 + len p2) with (len c + len p) by lia. lia.
  - unfold len in *. lia.
  - intros i' s' I' H' G' Hfb' Hfi'. rewrite len_app, El1. replace (len c + n1 + len p2) with (len c + len p) by lia. apply HQ; [done|by rewrite Ep, app_assoc|by eapply grows_trans| |].
    + rewrite Hfb'. cbn [freeblock]. rewrite (ap_blocks _ _ _ _ _ _ A), len_app, El1. replace (len c + n1 + len p2) with (len c + len p) by lia. lia.
    + rewrite Hfi'. apply (ap_inodes _ _ _ _ _ _ A).
Qed.

(** ** The files of the image *)

(** The inode [n] of the image, as [rinode] reads it. *)
Definition on_disk (v : gmap Z (list Z)) (n : Z) : inode := decode_inode (inode_block v new_sb n) (dip n) {| inode_zero with inum := n |}.
Record file_at (v : gmap Z (list Z)) (n ty : Z) (c : list Z) : Prop := {
  fa_holds : holds v (on_disk v n) c;
  fa_size : size (on_disk v n) = len c;
  fa_max : len c <= MAXFILE * BSIZE;
  fa_type : itype (on_disk v n) = ty;
  fa_nlink : nlink (on_disk v n) = 1
}.
Definition inum_of (k : nat) : Z := Z.of_nat k + 1.
(** The files made so far, by inode number: their types and bytes. *)
Record fs_ok (s : mkst) (fs : list (Z * list Z)) : Prop := {
  fs_image : image_ok s;
  fs_sb : decode_sb (default [] (sealed s !! 1)) = new_sb;
  fs_next : freeinode s = inum_of (length fs);
  fs_room : inum_of (length fs) <= NINODES;
  fs_files : forall k f, fs !! k = Some f -> file_at (sealed s) (inum_of k) f.1 f.2;
  fs_disjoint : forall k k', (k < length fs)%nat -> (k' < length fs)%nat -> k ≠ k' ->
    disjoint_files (sealed s) (on_disk (sealed s) (inum_of k)) (on_disk (sealed s) (inum_of k'))
}.

Lemma wp_winode s i (Q : unit -> mkst -> Prop) :
  image_ok s -> 0 <= inum i < NINODES -> length (addrs i) = 13%nat ->
  (forall s', image_ok s' -> sealed s' = inode_written (sealed s) new_sb i -> freeblock s' = freeblock s -> freeinode s' = freeinode s -> Q tt s') ->
  wp (winode (inum i) i) Q s.
Proof.
  intros I Hn Hl HQ. assert (32 <= IBLOCK (inum i) new_sb < 58) as Hb. { unfold IBLOCK, IPB, BSIZE, NINODES in *. change (sb_inodestart new_sb) with 32. change (512 / 64) with 8. zlia. }
  destruct (layout_inode _ _ _ (io_layout _ I) Hn) as [Bd [d Hd]]. pose proof Hd as Hd'. rewrite sealed_ne in Hd' by lia. unfold winode. rewrite wp_bind. apply (wp_rsect _ _ d); [done|].
  unfold inode_block in Bd. rewrite Hd in Bd. cbn [default from_option id] in Bd. pose proof (io_range _ I) as Hr. change nmeta with 59 in Hr.
  unfold wsect. wp_steps. apply HQ; [|by rewrite sealed_wsect by lia; unfold inode_written, inode_block; rewrite Hd|done|done].
  apply image_ok_wsect; [done|lia|lia|]. by apply is_block_encoded.
Qed.
Lemma wp_rinode s n (Q : inode -> mkst -> Prop) : image_ok s -> 0 <= n < NINODES -> Q (on_disk (sealed s) n) s -> wp (rinode n) Q s.
Proof.
  intros I Hn HQ. assert (32 <= IBLOCK n new_sb < 58) as Hb. { unfold IBLOCK, IPB, BSIZE, NINODES in *. change (sb_inodestart new_sb) with 32. change (512 / 64) with 8. zlia. }
  destruct (layout_inode _ _ _ (io_layout _ I) Hn) as [_ [d Hd]]. unfold on_disk, inode_block in HQ. rewrite Hd in HQ. unfold rinode. rewrite wp_bind.
  rewrite sealed_ne in Hd by lia. by apply (wp_rsect _ _ d).
Qed.

(** A file that keeps its blocks. *)
Lemma holds_ext v v' x c :
  holds v x c -> len c <= MAXFILE * BSIZE -> (forall b, owns v x b -> v' !! b = v !! b /\ (in_use v new_sb b = true -> in_use v' new_sb b = true)) -> holds v' x c.
Proof.
  intros [F Hc Hb Ht] Hm Ho. assert (0 <= len c) as H0 by (unfold len; lia).
  assert (file_ok v new_sb {| x with inum := 1; size := rnd (len c) |}) as FO. { split; [by destruct F; split|cbn [size]; unfold rnd, MAXFILE, BSIZE in *; zlia|exact Hc|cbn; unfold NINODES; lia]. }
  destruct (file_ok_ext _ v' _ _ FO Ho) as [[F' _ C' _] E]. assert (forall j, slot v' x j = slot v x j) as Es. { intros j. apply slot_ext. intros Hi. apply Ho. split; [done|]. by exists SLOT_IND. }
  split; [by destruct F'; split|exact C'|rewrite <- Hb; exact E|]. destruct Ht as [T1 T2]. split; [|done]. intros j Hj Hle. rewrite Es. by apply T1.
Qed.

(** Of a file with an inode on disk, what fs.c asks for. *)
Lemma file_at_ok v n ty c :
  file_at v n ty c -> 0 <= n < NINODES ->
  file_ok v new_sb (on_disk v n) /\ synced v new_sb (on_disk v n) /\ content v (on_disk v n) = c.
Proof.
  intros [[F Hc Hb Ht] Hs Hm _ _] Hn. assert (0 <= len c) as H0 by (unfold len; lia). assert (len c <= rnd (len c)) as Hr by (unfold rnd; zlia). split_and!.
  - split; [done|by rewrite Hs| |done]. intros o Ho. apply Hc. rewrite Hs in Ho. lia.
  - done.
  - unfold content. rewrite Hs. assert (upto v (on_disk v n) (len c) = take (length c) (upto v (on_disk v n) (rnd (len c)))) as ->; [|by rewrite Hb, take_app_length].
    unfold upto. rewrite <- fmap_take. f_equal. replace (rnd (len c)) with (len c + (rnd (len c) - len c)) by lia. rewrite seqZ_split by lia. by rewrite take_app_length' by (rewrite length_seqZ; unfold len; lia).
Qed.

(** ** Writing an inode *)

Definition plain (i : inode) : Prop :=
  i = {| inode_zero with inum := inum i; itype := itype i; major := major i; minor := minor i; nlink := nlink i; size := size i; addrs := addrs i |}.
Lemma decode_plain d o i : plain i -> decode_inode d o {| inode_zero with inum := inum i |} = decode_inode d o i.
Proof. destruct i. unfold plain. cbn. intros [= -> -> -> ->]. done. Qed.
Section Winode.
Context (v : gmap Z (list Z)) (i : inode).
Hypothesis L : layout v new_sb.
Hypothesis Hn : 0 <= inum i < NINODES.
Hypothesis Hl : length (addrs i) = 13%nat.
Let v' := inode_written v new_sb i.

Lemma on_disk_self : inode_wf i -> plain i -> on_disk v' (inum i) = i.
Proof.
  intros W P. pose proof (inode_written_synced v new_sb i L Hn W) as S. unfold synced in S. fold v' in S. unfold on_disk.
  by rewrite decode_plain.
Qed.
Lemma on_disk_other n : 0 <= n < NINODES -> n ≠ inum i -> on_disk v' n = on_disk v n.
Proof. intros H1 H2. by apply inode_written_other. Qed.
Lemma winode_holds x c : holds v x c -> len c <= MAXFILE * BSIZE -> holds v' x c.
Proof.
  intros H Hm. apply (holds_ext v); [done|done|]. intros b Ho. destruct (owns_data _ _ _ _ L (hd_inv _ _ _ H) Ho) as [D U]. pose proof (data_block_range _ _ _ L D).
  split; [by apply inode_written_data|]. intros _. unfold v'. by rewrite inode_written_use by (done || lia).
Qed.
Lemma winode_owns x b : file_inv v new_sb x -> owns v' x b <-> owns v x b.
Proof. intros F. unfold owns. split; intros (H1 & j & H2 & H3); (split; [done|]); exists j; (split; [done|]); rewrite <- H3; [symmetry|]; by apply inode_written_slot. Qed.
Lemma winode_disjoint x y : file_inv v new_sb x -> file_inv v new_sb y -> disjoint_files v x y -> disjoint_files v' x y.
Proof. intros Fx Fy H b. rewrite !winode_owns by done. apply H. Qed.
End Winode.

Lemma on_disk_plain v n : plain (on_disk v n).
Proof. done. Qed.
Lemma plain_grown i i' z : plain i -> i' = {| i with addrs := addrs i' |} -> plain {| i' with size := z |}.
Proof. intros P ->. rewrite P. done. Qed.

Lemma superblock_written v i : 0 <= inum i < NINODES -> inode_written v new_sb i !! 1 = v !! 1.
Proof. intros H. unfold inode_written. apply lookup_insert_ne. unfold IBLOCK, IPB, BSIZE, NINODES in *. change (sb_inodestart new_sb) with 32. change (512 / 64) with 8. zlia. Qed.
Lemma superblock_grows v v' i i' : layout v new_sb -> file_inv v new_sb i -> grows v v' new_sb i i' -> v' !! 1 = v !! 1.
Proof.
  intros L F G. apply (gr_frame _ _ _ _ _ G); [by vm_compute|by apply (ly_meta _ _ L)| |].
  - intros Ho. destruct (owns_data _ _ _ _ L F Ho) as [[D _] _]. by vm_compute in D.
  - intros x Hx. unfold BBLOCK, BPB, BSIZE. change (sb_bmapstart new_sb) with 58. change (sb_size new_sb) with 1000 in Hx. zlia.
Qed.
Lemma owns_kept v v' x b : (forall b, owns v x b -> v' !! b = v !! b) -> owns v' x b <-> owns v x b.
Proof.
  intros H. assert (forall j, slot v' x j = slot v x j) as Es. { intros j. apply slot_ext. intros Hi. apply H. split; [done|]. by exists SLOT_IND. }
  unfold owns. split; intros (H1 & j & H2 & H3); (split; [done|]); exists j; (split; [done|]); congruence.
Qed.
(** Another file, when file [i] grows and its inode is written. *)
Lemma file_at_other s s1 i i1 i' x n ty c :
  image_ok s -> image_ok s1 -> grows (sealed s) (sealed s1) new_sb i i1 -> addrs i' = addrs i1 -> 0 <= inum i' < NINODES -> length (addrs i') = 13%nat ->
  x = on_disk (sealed s) n -> 0 <= n < NINODES -> file_at (sealed s) n ty c -> disjoint_files (sealed s) i x ->
  let v' := inode_written (sealed s1) new_sb i' in
  holds v' x c /\ disjoint_files v' i' x /\ forall b, owns v' x b <-> owns (sealed s) x b.
Proof.
  intros I I1 G Ea Hi Hl -> Hn FA Hd v'. pose proof (io_layout _ I) as L. pose proof (io_layout _ I1) as L1. destruct (file_at_ok _ _ _ _ FA Hn) as (FO & _ & _). pose proof (fo_inv _ _ _ FO) as F.
  pose proof (grows_keeps _ _ _ _ _ _ L G F Hd) as Hkeep. destruct (grows_others _ _ _ _ _ _ L G FO Hd) as (FO1 & _ & D1). pose proof (fo_inv _ _ _ FO1) as F1.
  assert (holds (sealed s1) (on_disk (sealed s) n) c) as H1 by (apply (holds_ext (sealed s)); [apply FA|apply FA|done]).
  split_and!.
  - apply winode_holds; try done. apply FA.
  - apply winode_disjoint; try done.
    + destruct (gr_inv _ _ _ _ _ G) as [A1 A2 A3]. assert (forall j, slot (sealed s1) i' j = slot (sealed s1) i1 j) as Es by (intros j; unfold slot, ind; by rewrite Ea).
      split; [congruence|intros j; rewrite Es; apply A2|intros j j'; rewrite !Es; apply A3].
    + intros b (B1 & j & B2 & B3). apply D1. split; [done|]. exists j. split; [done|]. rewrite <- B3. unfold slot, ind. by rewrite Ea.
  - intros b. unfold v'. rewrite winode_owns by done. apply owns_kept. intros b' Hb'. by apply Hkeep.
Qed.

(** Appending bytes to a file. *)
Lemma wp_iappend s fs k ty c p (Q : unit -> mkst -> Prop) :
  fs_ok s fs -> fs !! k = Some (ty, c) -> is_bytes p -> len c + len p <= MAXFILE * BSIZE ->
  freeblock s + (need (len c + len p) - need (len c)) <= FSSIZE ->
  (forall s', fs_ok s' (<[k := (ty, c ++ p)]> fs) -> freeblock s' = freeblock s + (need (len c + len p) - need (len c)) -> Q tt s') ->
  wp (iappend (inum_of k) p) Q s.
Proof.
  intros [I Hsb Hnx Hroom Hfs Hdis] Hk Hb Hmax Hfit HQ. pose proof (lookup_lt_Some _ _ _ Hk) as Hlt. pose proof (Hfs k _ Hk) as FA. cbn [fst snd] in FA.
  assert (forall m, (m < length fs)%nat -> 0 <= inum_of m < NINODES) as Hin by (intros m Hm; unfold inum_of in *; lia). set (n := inum_of k) in *. pose proof (Hin k Hlt) as Hn. fold n in Hn.
  pose proof (file_at_ok _ _ _ _ FA Hn) as (FO & SY & CO). destruct FA as [H Hs _ Hty Hnl]. set (i := on_disk (sealed s) n) in *.
  unfold iappend. rewrite wp_bind. apply wp_rinode; [done|done|]. fold i. rewrite Hs, wp_bind. apply (wp_iappend_loop _ _ _ c p); try done. intros i1 s1 I1 H1 G Hfb Hfi. cbn [fst snd].
  set (i' := {| i1 with size := len c + len p |}). pose proof (gr_meta _ _ _ _ _ G) as Em. assert (inum i' = n) as En by (cbn; rewrite Em; done). rewrite <- En.
  assert (plain i') as P by (apply (plain_grown i); [apply on_disk_plain|done]).
  assert (inode_wf i') as W. { apply (inode_wf_grown (sealed s) (sealed s1) new_sb i i1); try done; [apply I|]. unfold W32, len, MAXFILE, BSIZE in *. lia. }
  pose proof (io_layout _ I) as L. pose proof (io_layout _ I1) as L1. pose proof (iw_len _ W) as Hl. assert (0 <= inum i' < NINODES) as Hn' by (by rewrite En).
  apply wp_winode; [done..|]. intros s' I' E' Efb Efi. apply HQ; [|congruence].
  assert (forall m, (m < length fs)%nat -> m ≠ k -> on_disk (sealed s') (inum_of m) = on_disk (sealed s) (inum_of m)) as Eo.
  { intros m Hm Hne. rewrite E', on_disk_other; try done; [|by apply Hin|rewrite En; unfold n, inum_of; lia]. unfold on_disk, inode_block. by rewrite (grows_inode_block _ _ _ _ _ _ L (hd_inv _ _ _ H) G) by (by apply Hin). }
  assert (on_disk (sealed s') n = i') as Ek by (rewrite E', <- En; by apply on_disk_self).
  assert (forall m f, fs !! m = Some f -> m ≠ k -> let x := on_disk (sealed s) (inum_of m) in
    holds (sealed s') x f.2 /\ disjoint_files (sealed s') i' x /\ forall b, owns (sealed s') x b <-> owns (sealed s) x b) as Hoth.
  { intros m f Hm Hne x. pose proof (lookup_lt_Some _ _ _ Hm) as Hml. rewrite E'. apply (file_at_other s s1 i i1 i' x (inum_of m) f.1); try done; [by apply Hin|by apply Hfs|by apply Hdis]. }
  split; rewrite ?length_insert; [done|by rewrite E', superblock_written, (superblock_grows _ _ _ _ L (hd_inv _ _ _ H) G)|congruence|done| |].
  - intros m f. destruct (decide (m = k)) as [->|Hne].
    + rewrite list_lookup_insert_eq by done. intros [= <-]. cbn [fst snd]. fold n. split; rewrite ?Ek, ?len_app; try done; [|by rewrite <- Hty; cbn; rewrite Em|by rewrite <- Hnl; cbn; rewrite Em].
      rewrite E'. apply winode_holds; try done; [by destruct H1 as [[A1 A2 A3] ? ? ?]; split|by rewrite len_app].
    + rewrite list_lookup_insert_ne by done. intros Hm. destruct (Hoth m f Hm Hne) as (B1 & _). pose proof (lookup_lt_Some _ _ _ Hm) as Hml. destruct (Hfs m f Hm) as [_ C2 C3 C4 C5]. rewrite <- (Eo m Hml Hne) in *. by split.
  - intros m m' Hm Hm' Hne. destruct (lookup_lt_is_Some_2 fs m Hm) as [f Hf]. destruct (lookup_lt_is_Some_2 fs m' Hm') as [f' Hf'].
    destruct (decide (m = k)) as [->|Hmk]; [|destruct (decide (m' = k)) as [->|Hmk']].
    + fold n. rewrite Ek, Eo by done. by apply (Hoth m' f').
    + fold n. rewrite Ek, Eo by done. intros b B1 B2. by apply (proj1 (proj2 (Hoth m f Hf Hmk)) b).
    + rewrite !Eo by done. intros b. rewrite (proj2 (proj2 (Hoth m f Hf Hmk))), (proj2 (proj2 (Hoth m' f' Hf' Hmk'))). by apply Hdis.
Qed.

Definition fresh (n ty : Z) : inode := {| inode_zero with inum := n; itype := ty; nlink := 1 |}.
Lemma slot_fresh v n ty j : slot v (fresh n ty) j = 0.
Proof. unfold slot. replace (ind (fresh n ty)) with 0 by done. assert (forall k, nth k (addrs (fresh n ty)) 0 = 0) as ->. { intros k. do 14 (destruct k as [|k]; [done|]). by destruct k. } by repeat case_if. Qed.
Lemma fresh_holds v n ty : holds v (fresh n ty) [].
Proof.
  split; [split; [done|intros j _; by rewrite slot_fresh|intros j j' _ _ _; by rewrite slot_fresh]| |done|].
  - intros o Ho. change (rnd (len [])) with 0 in Ho. lia.
  - split; [intros; apply slot_fresh|done].
Qed.
Lemma fresh_wf n ty : is_s16 ty -> inode_wf (fresh n ty).
Proof. intros H. split; try done; try (cbn; unfold W32; lia). apply list.Forall_forall. intros x Hx. apply elem_of_replicate in Hx as [-> _]. unfold W32. lia. Qed.

Lemma wp_mk_ialloc s fs ty (Q : Z -> mkst -> Prop) :
  fs_ok s fs -> inum_of (length fs) < NINODES -> is_s16 ty ->
  (forall s', fs_ok s' (fs ++ [(ty, [])]) -> freeblock s' = freeblock s -> Q (inum_of (length fs)) s') -> wp (mk_ialloc ty) Q s.
Proof.
  intros [I Hsb Hnx Hroom Hfs Hdis] Hlt Hty HQ. set (n := inum_of (length fs)) in *. assert (0 <= n < NINODES) as Hn by (unfold n, inum_of in *; lia).
  assert (forall m, (m < length fs)%nat -> 0 <= inum_of m < NINODES /\ inum_of m ≠ n) as Hin by (intros m Hm; unfold n, inum_of in *; lia).
  unfold mk_ialloc. wp_steps. rewrite Hnx. set (s1 := {| s with freeinode := n + 1 |}). assert (image_ok s1) as I1 by (by destruct I; split). change (sealed s) with (sealed s1) in *.
  fold (fresh n ty). set (i := fresh n ty). pose proof (io_layout _ I1) as L. pose proof (fresh_wf n ty Hty) as W. fold i in W. pose proof (iw_len _ W) as Hl. pose proof (fresh_holds (sealed s1) n ty) as H0. fold i in H0.
  apply (wp_winode s1 i); try done. intros s' I' E' Efb Efi. wp_steps. apply HQ; [|done].
  assert (on_disk (sealed s') n = i) as En by (rewrite E'; by apply on_disk_self).
  assert (forall m, (m < length fs)%nat -> on_disk (sealed s') (inum_of m) = on_disk (sealed s1) (inum_of m)) as Eo by (intros m Hm; rewrite E'; apply on_disk_other; try done; by apply Hin).
  assert (forall (x : Prop) b, owns (sealed s1) i b -> x) as Hno by (intros x b (B1 & j & _ & B3); unfold i in B3; rewrite slot_fresh in B3; by subst b).
  assert (forall m f, fs !! m = Some f -> let x := on_disk (sealed s1) (inum_of m) in
    holds (sealed s') x f.2 /\ disjoint_files (sealed s') i x /\ forall b, owns (sealed s') x b <-> owns (sealed s1) x b) as Hoth.
  { intros m f Hm x. pose proof (lookup_lt_Some _ _ _ Hm) as Hml. rewrite E'. apply (file_at_other s1 s1 i i i x (inum_of m) f.1); try done; [apply grows_refl; [done|apply H0]|by apply Hin|by apply Hfs|]. intros b Hb. by apply (Hno (~ owns (sealed s1) x b) b). }
  split; rewrite ?length_app; cbn [length]; [done|by rewrite E', superblock_written|rewrite Efi; unfold s1, n, inum_of; cbn; lia|unfold n, inum_of in *; lia| |].
  - intros m f Hm. apply lookup_app_Some in Hm as [Hm|[Hge Hm]].
    + pose proof (lookup_lt_Some _ _ _ Hm) as Hml. destruct (Hoth m f Hm) as (B1 & _). destruct (Hfs m f Hm) as [_ C2 C3 C4 C5]. rewrite <- (Eo m Hml) in *. by split.
    + apply list_lookup_singleton_Some in Hm as [Hz <-]. replace (inum_of m) with n by (unfold n, inum_of; lia). split; rewrite ?En; try done. rewrite E'. apply winode_holds; done.
  - intros m m' Hm Hm' Hne. assert (forall k, (k < length fs + 1)%nat -> k = length fs \/ exists f, fs !! k = Some f) as Hc. { intros k Hk. destruct (decide (k = length fs)); [by left|right]. apply lookup_lt_is_Some_2. lia. }
    destruct (Hc m Hm) as [->|[f Hf]], (Hc m' Hm') as [->|[f' Hf']]; [done|..]; fold n; rewrite ?En, ?Eo by (by eapply lookup_lt_Some).
    + by apply (Hoth m' f').
    + intros b B1 B2. by apply (proj1 (proj2 (Hoth m f Hf)) b).
    + intros b. rewrite (proj2 (proj2 (Hoth m f Hf))), (proj2 (proj2 (Hoth m' f' Hf'))). apply Hdis; [by eapply lookup_lt_Some..|done].
Qed.

(** ** The whole run *)

Lemma wp_chunks fuel : forall p s fs k ty c (Q : unit -> mkst -> Prop),
  fs_ok s fs -> fs !! k = Some (ty, c) -> is_bytes p -> len c + len p <= MAXFILE * BSIZE ->
  freeblock s + (need (len c + len p) - need (len c)) <= FSSIZE -> (length p <= fuel)%nat ->
  (forall s', fs_ok s' (<[k := (ty, c ++ p)]> fs) -> freeblock s' = freeblock s + (need (len c + len p) - need (len c)) -> Q tt s') ->
  wp (for_each (chunks p fuel) (iappend (inum_of k))) Q s.
Proof.
  assert (forall c, len c + len [] = len c) as E0 by (intros c; unfold len; cbn; lia).
  induction fuel as [|fuel IH]; intros p s fs k ty c Q H Hk Hb Hmax Hfit Hf HQ; (assert (p = [] -> Q tt s) as Hnil;
    [intros ->; specialize (HQ s); rewrite E0, app_nil_r, list_insert_id in HQ by done; apply HQ; [done|lia]|]).
  { destruct p; [by apply Hnil|cbn in Hf; lia]. }
  destruct p as [|b p']; [by apply Hnil|]. clear Hnil. cbn [chunks]. set (p := b :: p') in *. set (p1 := take (Z.to_nat BSIZE) p). set (p2 := drop (Z.to_nat BSIZE) p).
  assert (p = p1 ++ p2) as Ep by (symmetry; apply take_drop). assert (len p = len p1 + len p2) as El by (rewrite Ep; apply len_app). assert (0 <= len p2) as H2 by (unfold len; lia).
  assert (length p2 <= fuel)%nat as Hf2. { unfold p2. rewrite length_drop. unfold p in *. cbn [length] in *. unfold BSIZE. lia. }
  rewrite Ep in Hb. apply list.Forall_app in Hb as [Hb1 Hb2]. pose proof (need_mono (len c + len p1) (len c + len p) ltac:(lia)). pose proof (lookup_lt_Some _ _ _ Hk) as Hlt.
  cbn [for_each]. rewrite wp_bind. apply (wp_iappend s fs k ty c p1); try done; [lia|lia|]. intros s1 H1 Hfb1.
  apply (IH p2 s1 (<[k := (ty, c ++ p1)]> fs) k ty (c ++ p1)); rewrite ?len_app, ?Hfb1; try done; [by apply list_lookup_insert_eq|lia| |].
  - replace (len c + len p1 + len p2) with (len c + len p) by lia. lia.
  - rewrite list_insert_insert_eq, <- app_assoc, <- Ep. intros s' H' Hfb'. apply HQ; [done|]. rewrite Hfb'. replace (len c + len p1 + len p2) with (len c + len p) by lia. lia.
Qed.

(** The files after those of [args] were added, [n] being the number of the
    next inode: the entries of the root directory and the files. *)
Fixpoint entries (args : list (list Z * list Z)) (n : Z) : list Z :=
  match args with [] => [] | a :: args' => encode_dirent n (strip a.1) ++ entries args' (n + 1) end.
Definition blocks (args : list (list Z * list Z)) : Z := foldr (fun a t => need (len a.2) + t) 0 args.
Definition openable (args : list (list Z * list Z)) : list (list Z * option (list Z)) := (fun a => (a.1, Some a.2)) <$> args.
Definition arg_ok (a : list Z * list Z) : Prop := 47 ∉ a.1 /\ is_bytes a.1 /\ is_bytes a.2 /\ len a.2 <= MAXFILE * BSIZE.

Lemma is_bytes_dirent n name : is_bytes name -> is_bytes (encode_dirent n name).
Proof. intros H. apply list.Forall_app. split; [apply is_bytes16|by apply is_bytes_copy_padded]. Qed.
Lemma is_bytes_strip name : is_bytes name -> is_bytes (strip name).
Proof. intros H. unfold strip. destruct name as [|x t]; [done|]. repeat case_match; try done. by apply list.Forall_cons in H as [_ H]. Qed.
Lemma len_dirent n name : len (encode_dirent n name) = 16.
Proof. unfold len. by rewrite length_encode_dirent. Qed.

Lemma wp_add_file s fs d a (Q : unit -> mkst -> Prop) :
  fs_ok s fs -> fs !! 0%nat = Some (T_DIR, d) -> arg_ok a -> inum_of (length fs) < NINODES -> len d + 16 <= MAXFILE * BSIZE ->
  freeblock s + (need (len d + 16) - need (len d)) + need (len a.2) <= FSSIZE ->
  (forall s', fs_ok s' (<[0%nat := (T_DIR, d ++ encode_dirent (inum_of (length fs)) (strip a.1))]> fs ++ [(T_FILE, a.2)]) ->
     freeblock s' = freeblock s + (need (len d + 16) - need (len d)) + need (len a.2) -> Q tt s') ->
  wp (add_file 1 (a.1, Some a.2)) Q s.
Proof.
  intros H H0 (A1 & A2 & A3 & A4) Hn Hmax Hfit HQ. pose proof (lookup_lt_Some _ _ _ H0) as Hlt. set (n := inum_of (length fs)) in *. assert (0 <= need (len a.2)) as Hnn. { unfold need. assert (0 <= (len a.2 + 511) / 512) by (apply Z.div_pos; unfold len; lia). case_if; bool_hyps; lia. }
  unfold add_file. cbn [fst snd]. rewrite bool_decide_false by done. rewrite wp_bind. apply (wp_mk_ialloc s fs); [done|done|done|]. intros s1 H1 Hfb1.
  rewrite wp_bind. apply (wp_iappend s1 (fs ++ [(T_FILE, [])]) 0 T_DIR d); rewrite ?len_dirent, ?Hfb1; try done; [by rewrite lookup_app_l|by apply is_bytes_dirent, is_bytes_strip|lia|]. intros s2 H2 Hfb2.
  rewrite insert_app_l in H2 by done. set (fs2 := <[0%nat := _]> fs) in *. assert (length fs2 = length fs) as El2 by (unfold fs2; by rewrite length_insert). rewrite <- El2.
  change (need 0) with 0 in *. apply (wp_chunks _ _ s2 (fs2 ++ [(T_FILE, [])]) _ T_FILE []); try done; [by rewrite lookup_app_r, Nat.sub_diag by lia|by change (len []) with 0; rewrite Z.add_0_l, Hfb2; change (need 0) with 0; lia|].
  intros s3 H3 Hfb3. rewrite insert_app_r_alt, Nat.sub_diag in H3 by lia. cbn [app] in H3. apply HQ; [exact H3|]. rewrite Hfb3, Hfb2. change (len []) with 0. change (need 0) with 0. rewrite Z.add_0_l. lia.
Qed.

Lemma len_entries args : forall n, len (entries args n) = 16 * Z.of_nat (length args).
Proof. induction args as [|a args IH]; intros n; [done|]. cbn [entries length]. rewrite len_app, len_dirent, IH. lia. Qed.
Lemma blocks_nonneg args : 0 <= blocks args.
Proof.
  induction args as [|a args IH]; [done|]. cbn [blocks foldr]. fold (blocks args). assert (0 <= need (len a.2)); [|lia]. unfold need. assert (0 <= (len a.2 + 511) / 512) by (apply Z.div_pos; unfold len; lia).
  case_if; bool_hyps; lia.
Qed.
Lemma wp_add_files args : forall s fs d (Q : unit -> mkst -> Prop),
  fs_ok s fs -> fs !! 0%nat = Some (T_DIR, d) -> Forall arg_ok args -> inum_of (length fs + length args) <= NINODES ->
  len d + 16 * Z.of_nat (length args) <= MAXFILE * BSIZE ->
  freeblock s + (need (len d + 16 * Z.of_nat (length args)) - need (len d)) + blocks args <= FSSIZE ->
  (forall s', fs_ok s' (<[0%nat := (T_DIR, d ++ entries args (inum_of (length fs)))]> fs ++ ((fun a => (T_FILE, a.2)) <$> args)) ->
     freeblock s' = freeblock s + (need (len d + 16 * Z.of_nat (length args)) - need (len d)) + blocks args -> Q tt s') ->
  wp (for_each (openable args) (add_file 1)) Q s.
Proof.
  induction args as [|a args IH]; intros s fs d Q H H0 Ha Hn Hmax Hfit HQ.
  { cbn [openable fmap list_fmap for_each]. apply wp_ret, HQ; [cbn [entries fmap list_fmap]; rewrite !app_nil_r, list_insert_id; done|]. cbn [length blocks foldr]. replace (len d + 16 * Z.of_nat 0) with (len d) by lia. lia. }
  apply list.Forall_cons in Ha as [Ha1 Ha]. cbn [length] in *. unfold inum_of in Hn. cbn [openable fmap list_fmap for_each]. fold (openable args). rewrite wp_bind.
  cbn [blocks foldr] in *. fold (blocks args) in *. pose proof (blocks_nonneg args) as Hbn. pose proof (need_mono (len d + 16) (len d + 16 * Z.of_nat (S (length args))) ltac:(lia)) as Hm.
  pose proof (lookup_lt_Some _ _ _ H0) as Hlt. apply (wp_add_file s fs d a); try done; [unfold inum_of; lia|lia|lia|]. intros s1 H1 Hfb1. set (de := encode_dirent _ _) in *.
  assert (len (d ++ de) = len d + 16) as Ed by (unfold de; by rewrite len_app, len_dirent). assert (length (<[0%nat := (T_DIR, d ++ de)]> fs ++ [(T_FILE, a.2)]) = S (length fs)) as El by (rewrite length_app, length_insert; cbn; lia).
  assert (forall x, x = Z.of_nat (length args) -> len d + 16 + 16 * x = len d + 16 * Z.of_nat (S (length args))) as Ex by (intros x ->; lia).
  apply (IH s1 (<[0%nat := (T_DIR, d ++ de)]> fs ++ [(T_FILE, a.2)]) (d ++ de)); rewrite ?El, ?Ed, ?(Ex _ eq_refl), ?Hfb1; try done; [rewrite lookup_app_l by (by rewrite length_insert); by apply list_lookup_insert_eq|unfold inum_of; lia|lia|].
  intros s' H' Hfb'. apply HQ; [|rewrite Hfb'; lia]. rewrite insert_app_l in H' by (by rewrite length_insert). rewrite list_insert_insert_eq, <- !app_assoc in H'. cbn [entries]. fold de.
  replace (inum_of (length fs) + 1) with (inum_of (S (length fs))) by (unfold inum_of; lia). exact H'.
Qed.

(** The empty image. *)
Lemma wp_zero_blocks l : forall s (Q : unit -> mkst -> Prop),
  (forall s', (forall b, img s' !! b = if decide (b ∈ l) then Some zeros else img s !! b) -> freeblock s' = freeblock s -> freeinode s' = freeinode s -> Q tt s') ->
  wp (for_each l (fun b => wsect b zeros)) Q s.
Proof.
  induction l as [|x l IH]; intros s Q HQ; cbn [for_each].
  { apply wp_ret, HQ; [|done..]. intros b. by rewrite decide_False by apply not_elem_of_nil. }
  rewrite wp_bind. unfold wsect at 1. rewrite wp_modify. apply IH. intros s' Hi H1 H2. apply HQ; [|done..]. intros b. rewrite Hi. cbn [img]. destruct (decide (b ∈ l)) as [Hb|Hb].
  - rewrite decide_True by set_solver. done.
  - destruct (decide (b = x)) as [->|Hne]; [rewrite lookup_insert_eq, decide_True by set_solver; done|]. rewrite lookup_insert_ne, decide_False by set_solver. done.
Qed.
Lemma empty_image s : (forall b, img s !! b = if decide (b ∈ seqZ 0 FSSIZE) then Some zeros else None) -> freeblock s = nmeta -> image_ok s.
Proof.
  intros Hi Hf. assert (forall b, 0 <= b < 1000 -> img s !! b = Some zeros) as Hz. { intros b Hb. rewrite Hi, decide_True; [done|]. apply elem_of_seqZ. unfold FSSIZE. lia. }
  assert (forall b, 0 <= b < 1000 -> BBLOCK b new_sb = 58) as Hbb by (intros b Hb; unfold BBLOCK, BPB, BSIZE; change (sb_bmapstart new_sb) with 58; zlia).
  assert (forall n, 0 <= n < 200 -> 32 <= IBLOCK n new_sb < 58) as Hib by (intros n Hn; unfold IBLOCK, IPB, BSIZE; change (512 / 64) with 8; change (sb_inodestart new_sb) with 32; zlia).
  split; [|intros b Hb; rewrite Hf in Hb; change nmeta with 59 in Hb; apply Hz; unfold FSSIZE in Hb; lia|rewrite Hf; by vm_compute].
  unfold sealed. rewrite Hf. split; change (sb_size new_sb) with 1000; change (sb_nblocks new_sb) with 941; change (sb_ninodes new_sb) with 200; try lia.
  - intros b Hb. destruct (decide (b = 58)) as [->|]; [by rewrite lookup_insert_eq|rewrite lookup_insert_ne by (change (sb_bmapstart new_sb) with 58; lia); by rewrite Hz].
  - intros b d. destruct (decide (b = 58)) as [->|Hne]; [change (sb_bmapstart new_sb) with 58; rewrite lookup_insert_eq; intros [= <-]; apply bitmap_block; by vm_compute|].
    rewrite lookup_insert_ne, Hi by (change (sb_bmapstart new_sb) with 58; lia). case_decide; [intros [= <-]; apply zeros_block|done].
  - intros b Hb. rewrite Hbb by done. lia.
  - intros n Hn. pose proof (Hib n Hn). lia.
  - intros b n Hb Hn. rewrite Hbb by done. pose proof (Hib n Hn). lia.
  - intros b Hb. unfold in_use. rewrite Hbb by lia. change (sb_bmapstart new_sb) with 58. rewrite lookup_insert_eq. cbn [default from_option id]. rewrite Z.mod_small by (unfold BPB, BSIZE; lia). rewrite bitmap_test by (change nmeta with 59; unfold BPB, BSIZE; lia). apply Z.ltb_lt. change nmeta with 59. lia.
  - intros b Hb. unfold in_log in Hb. change (sb_logstart new_sb) with 2 in Hb. change LOGSIZE with 30 in Hb. split_and!; [lia|lia|intros x Hx; rewrite Hbb by done; lia|intros n Hn; pose proof (Hib n Hn); lia].
Qed.

(** The root directory that is made for the arguments, and when they fit. *)
Definition root_dir (args : list (list Z * list Z)) : list Z := encode_dirent 1 [46] ++ encode_dirent 1 [46; 46] ++ entries args 2.
Definition all_files (args : list (list Z * list Z)) : list (Z * list Z) := (T_DIR, root_dir args) :: ((fun a => (T_FILE, a.2)) <$> args).
Record fits (args : list (list Z * list Z)) : Prop := {
  ft_args : Forall arg_ok args;
  ft_inodes : Z.of_nat (length args) + 2 <= NINODES;
  ft_blocks : nmeta + need (len (root_dir args)) + blocks args <= FSSIZE
}.
Lemma lookup_all_files args k : all_files args !! S k = (fun a => (T_FILE, a.2)) <$> args !! k.
Proof. apply list_lookup_fmap. Qed.
Lemma len_root_dir args : len (root_dir args) = 16 * (Z.of_nat (length args) + 2).
Proof. unfold root_dir. rewrite !len_app, !len_dirent, len_entries. lia. Qed.

Lemma need_small n : 0 < n <= 512 -> need n = 1.
Proof. intros H. unfold need. assert ((n + 511) / 512 = 1) as -> by zlia. done. Qed.
(** The root with its first two entries. *)
Lemma wp_mkfs_root s (K : Z -> M mkst unit) (Q : unit -> mkst -> Prop) :
  fs_ok s [] -> freeblock s = nmeta ->
  (forall s', fs_ok s' [(T_DIR, encode_dirent 1 [46] ++ encode_dirent 1 [46; 46])] -> freeblock s' = nmeta + 1 -> wp (K 1) Q s') ->
  wp (rootino ← mk_ialloc T_DIR;
      if negb (rootino =? ROOTINO) then panic "assertion" else
      iappend rootino (encode_dirent rootino [46]) ;;
      iappend rootino (encode_dirent rootino [46; 46]) ;;
      K rootino) Q s.
Proof.
  intros H Hf HQ. rewrite wp_bind. apply (wp_mk_ialloc s []); [done|by vm_compute|done|]. intros s1 H1 Hf1. change (inum_of (length [])) with 1. cbn [app] in H1. change (negb (1 =? ROOTINO)) with false. cbv iota.
  rewrite wp_bind. change 1 with (inum_of 0) at 1. apply (wp_iappend s1 [(T_DIR, [])] 0 T_DIR []); [done|done|by apply is_bytes_dirent; repeat constructor|by vm_compute|rewrite Hf1, Hf; by vm_compute|]. intros s2 H2 Hf2. cbn [app list_insert] in H2.
  rewrite wp_bind. change 1 with (inum_of 0) at 1. apply (wp_iappend s2 [(T_DIR, encode_dirent 1 [46])] 0 T_DIR (encode_dirent 1 [46])); [done|done|by apply is_bytes_dirent; repeat constructor|by vm_compute|rewrite Hf2, Hf1, Hf; by vm_compute|]. intros s3 H3 Hf3. cbn [app list_insert] in H3.
  apply HQ; [exact H3|]. rewrite Hf3, Hf2, Hf1, Hf. by vm_compute.
Qed.

Lemma wp_mkfs_main args (Q : unit -> mkst -> Prop) :
  fits args ->
  (forall s1 s', fs_ok s1 (all_files args) -> freeblock s1 = nmeta + need (len (root_dir args)) + blocks args ->
     img s' = inode_written (sealed s1) new_sb {| (on_disk (sealed s1) 1) with size := (len (root_dir args) / BSIZE + 1) * BSIZE |} -> Q tt s') ->
  wp (mkfs_main (openable args)) Q mkfs_start.
Proof.
  intros [Ha Hn Hbl] HQ. unfold mkfs_main. rewrite wp_bind, wp_modify, wp_bind. cbn [freeblock img freeinode mkfs_start]. apply wp_zero_blocks. cbn [freeblock img freeinode]. intros s0 Hi Hf0 Hfi0.
  rewrite wp_bind. unfold wsect at 1. rewrite wp_modify. set (s1 := {| s0 with img := _ |}).
  assert (image_ok s1) as I1. { apply image_ok_wsect; [by apply empty_image|done|rewrite Hf0; by vm_compute|]. apply is_block_put; [apply zeros_block| |done|vm_compute; lia]. apply (bool_decide_eq_true_1 _). by vm_compute. }
  assert (fs_ok s1 []) as H1. { split; [done| |done|by vm_compute|by intros k f Hk|intros k k' Hk; cbn in Hk; lia]. rewrite sealed_ne by lia. unfold s1. cbn [img]. rewrite lookup_insert_eq. by vm_compute. }
  apply (wp_mkfs_root s1); [done|done|]. intros s2 H2 Hf2. set (d := encode_dirent 1 [46] ++ encode_dirent 1 [46; 46]) in *. assert (len d = 32) as Ed by (by vm_compute).
  pose proof (len_root_dir args) as Er. rewrite wp_bind. apply (wp_add_files args s2 [(T_DIR, d)] d); try done.
  { cbn [length]. unfold inum_of. lia. }
  { rewrite Ed. unfold NINODES, MAXFILE, BSIZE in *. lia. }
  { rewrite Ed, Hf2, (need_small 32) by lia. replace (32 + 16 * Z.of_nat (length args)) with (len (root_dir args)) by lia. lia. }
  change (inum_of (length [(T_DIR, d)])) with 2. cbn [list_insert app]. replace (d ++ entries args 2) with (root_dir args) by (unfold d, root_dir; by rewrite <- app_assoc). fold (all_files args).
  intros s3 H3 Hf3. assert (freeblock s3 = nmeta + need (len (root_dir args)) + blocks args) as Hf3'. { rewrite Hf3, Hf2, Ed, (need_small 32) by lia. replace (32 + 16 * Z.of_nat (length args)) with (len (root_dir args)) by lia. lia. }
  pose proof (fs_files _ _ H3 0%nat _ eq_refl) as FA. change (inum_of 0) with 1 in FA. cbn [fst snd] in FA.
  rewrite wp_bind. apply wp_rinode; [apply H3|by vm_compute|]. rewrite (fa_size _ _ _ _ FA), wp_bind. set (r := {| (on_disk _ _) with size := _ |}). change 1 with (inum r). apply wp_winode; [apply H3|by vm_compute|apply (hd_inv _ _ _ (fa_holds _ _ _ _ FA))|].
  intros s4 I4 E4 Hf4 _. rewrite wp_bind, wp_gets. unfold mk_balloc. rewrite Hf4, Hf3', (proj2 (Z.ltb_lt _ _)) by (unfold FSSIZE, BSIZE in *; lia). cbn [negb]. unfold wsect. apply wp_modify, (HQ s3); [done|done|]. cbn [img].
  rewrite <- Hf3', <- Hf4. exact E4.
Qed.

(** ** The image that is made *)

(** A file of the image: what fs.c needs to read it, and its bytes. *)
Record file_of (v : gmap Z (list Z)) (n ty : Z) (c : list Z) : Prop := {
  fl_type : itype (on_disk v n) = ty;
  fl_nlink : nlink (on_disk v n) = 1;
  fl_ok : file_ok v new_sb (on_disk v n);
  fl_synced : synced v new_sb (on_disk v n);
  fl_content : content v (on_disk v n) = c
}.
Record image_of (v : gmap Z (list Z)) (args : list (list Z * list Z)) : Prop := {
  im_sb : decode_sb (default [] (v !! 1)) = new_sb;
  im_layout : layout v new_sb;
  im_bitmap : forall b, 0 <= b < FSSIZE -> in_use v new_sb b = (b <? nmeta + need (len (root_dir args)) + blocks args);
  im_root : file_of v ROOTINO T_DIR (root_dir args ++ zpad (len (root_dir args)));
  im_files : forall k a, args !! k = Some a -> file_of v (Z.of_nat k + 2) T_FILE a.2;
  im_disjoint : forall k k', (k <= length args)%nat -> (k' <= length args)%nat -> k ≠ k' ->
    disjoint_files v (on_disk v (inum_of k)) (on_disk v (inum_of k'))
}.

Lemma rnd_next n : 0 <= n -> n mod 512 ≠ 0 -> rnd n = (n / 512 + 1) * 512.
Proof. intros H1 H2. unfold rnd. zlia. Qed.
(** The root directory once its size is rounded up. *)
Section Root.
Context (args : list (list Z * list Z)) (s : mkst).
Hypothesis H : fs_ok s (all_files args).
Hypothesis Hn : Z.of_nat (length args) + 2 <= NINODES.
Let d := root_dir args.
Let r := on_disk (sealed s) 1.
Let r' := {| r with size := (len d / BSIZE + 1) * BSIZE |}.
Let v := inode_written (sealed s) new_sb r'.

Lemma root_at : file_at (sealed s) 1 T_DIR d.
Proof. apply (fs_files _ _ H 0%nat _ eq_refl). Qed.
Lemma root_small : 0 <= len d <= 6400.
Proof. unfold d. rewrite len_root_dir. unfold NINODES in Hn. lia. Qed.
Lemma root_layout : layout (sealed s) new_sb /\ length (addrs r') = 13%nat /\ 0 <= inum r' < NINODES.
Proof. split_and!; [apply H|apply (hd_inv _ _ _ (fa_holds _ _ _ _ root_at))|by vm_compute|by vm_compute]. Qed.
Lemma root_on_disk : on_disk v 1 = r'.
Proof.
  destruct root_layout as (L & Hl & Hi). pose proof root_small as Hs. apply (on_disk_self (sealed s) r'); try done. destruct (file_at_ok _ _ _ _ root_at) as (_ & SY & _); [by vm_compute|].
  destruct (layout_inode _ _ _ L Hi) as [[_ Hb] _]. destruct (synced_wf (sealed s) new_sb r Hb SY) as [W1 W2 W3 W4 W5 W6 W7]. split; try done. cbn [size r']. unfold W32, BSIZE. zlia.
Qed.
Lemma root_holds : holds v r' d.
Proof. destruct root_layout as (L & Hl & Hi). pose proof (fa_holds _ _ _ _ root_at) as [F C B T]. apply winode_holds; try done; [by destruct F; split|apply root_at]. Qed.
Lemma root_file : len d mod 512 ≠ 0 -> file_of v 1 T_DIR (d ++ zpad (len d)).
Proof.
  intros Hm. pose proof root_small as Hs. pose proof root_holds as [F C B T]. pose proof (rnd_next (len d) ltac:(lia) Hm) as Er. split; rewrite ?root_on_disk; [apply (fa_type _ _ _ _ root_at)|apply (fa_nlink _ _ _ _ root_at)| | |].
  - split; [exact F|cbn [size r']; unfold MAXFILE, BSIZE; zlia| |by vm_compute]. cbn [size r']. unfold BSIZE. by rewrite <- Er.
  - rewrite <- root_on_disk. done.
  - unfold content. cbn [size r']. unfold BSIZE. by rewrite <- Er.
Qed.
Lemma root_others k a : args !! k = Some a -> file_of v (Z.of_nat k + 2) T_FILE a.2 /\ on_disk v (inum_of (S k)) = on_disk (sealed s) (inum_of (S k)).
Proof.
  intros Hk. pose proof (lookup_lt_Some _ _ _ Hk) as Hlt. destruct root_layout as (L & Hl & Hi). replace (Z.of_nat k + 2) with (inum_of (S k)) by (unfold inum_of; lia).
  assert (0 <= inum_of (S k) < NINODES) as Hin by (unfold inum_of; lia). assert (on_disk v (inum_of (S k)) = on_disk (sealed s) (inum_of (S k))) as Eo by (apply on_disk_other; try done; unfold inum_of; cbn; lia).
  assert (file_at (sealed s) (inum_of (S k)) T_FILE a.2) as FA. { apply (fs_files _ _ H (S k) (T_FILE, a.2)). by rewrite lookup_all_files, Hk. }
  assert (file_at v (inum_of (S k)) T_FILE a.2) as FA'. { destruct FA as [F1 F2 F3 F4 F5]. split; rewrite ?Eo; try done. by apply winode_holds. }
  destruct (file_at_ok _ _ _ _ FA' Hin) as (A1 & A2 & A3). split; [|done]. by split; [apply (fa_type _ _ _ _ FA')|apply (fa_nlink _ _ _ _ FA')|..].
Qed.
Lemma root_disjoint k k' : (k <= length args)%nat -> (k' <= length args)%nat -> k ≠ k' -> disjoint_files v (on_disk v (inum_of k)) (on_disk v (inum_of k')).
Proof.
  intros Hk Hk' Hne. destruct root_layout as (L & Hl & Hi). assert (forall m, (m <= length args)%nat -> addrs (on_disk v (inum_of m)) = addrs (on_disk (sealed s) (inum_of m)) /\ file_inv (sealed s) new_sb (on_disk (sealed s) (inum_of m))) as Ha.
  { intros m Hm. destruct m as [|m]; [change (inum_of 0) with 1; rewrite root_on_disk; split; [done|apply root_at]|]. destruct (lookup_lt_is_Some_2 args m) as [a Ea]; [lia|]. split; [by rewrite (proj2 (root_others m a Ea))|].
    apply (hd_inv _ _ _ (fa_holds _ _ _ _ (fs_files _ _ H (S m) (T_FILE, a.2) ltac:(by rewrite lookup_all_files, Ea)))). }
  destruct (Ha k Hk) as [E1 F1], (Ha k' Hk') as [E2 F2].
  assert (disjoint_files v (on_disk (sealed s) (inum_of k)) (on_disk (sealed s) (inum_of k'))) as D by (apply winode_disjoint; try done; apply (fs_disjoint _ _ H); try done; cbn; rewrite length_fmap; lia).
  intros b (B1 & j & B2 & B3) (_ & j' & B2' & B3'). apply (D b); (split; [done|]); [exists j|exists j']; (split; [done|]); [rewrite <- B3|rewrite <- B3']; unfold slot, ind; [by rewrite E1|by rewrite E2].
Qed.
End Root.

Lemma wp_mkfs_image args : fits args -> (Z.of_nat (length args) + 2) mod 32 ≠ 0 -> wp (mkfs_main (openable args)) (fun _ s => image_of (img s) args) mkfs_start.
Proof.
  intros F Hm. apply wp_mkfs_main; [done|]. intros s1 s' H1 Hf E'. pose proof (ft_inodes _ F) as Hn. pose proof (root_layout args s1 H1) as (L & Hl & Hi). rewrite E'.
  assert (len (root_dir args) mod 512 ≠ 0) as Hr. { rewrite len_root_dir. intros E. apply Hm. zlia. }
  split.
  - rewrite superblock_written by done. apply H1.
  - by apply inode_written_layout.
  - intros b Hb. rewrite inode_written_use by done. rewrite in_use_sealed by (done || apply H1). by rewrite Hf.
  - by apply root_file.
  - intros k a Hk. by apply (root_others args s1).
  - by apply root_disjoint.
Qed.

(** ** Finding the files *)

Lemma dirent_at_mid (pre de rest : list Z) : length de = 16%nat -> dirent_at (pre ++ de ++ rest) (len pre) = de.
Proof. intros H. unfold dirent_at, len. rewrite Nat2Z.id, drop_app_length. change (Z.to_nat DE_SIZE) with 16%nat. by rewrite take_app_length' by lia. Qed.
(** A search passes an entry for another name, and ends at one for the name. *)
Lemma dir_find_entry pre rest n name nm m : 0 < n < 65536 ->
  dir_find (pre ++ encode_dirent n name ++ rest) nm (len pre) (S m) =
    if namecmp nm name then Some (n, len pre) else dir_find ((pre ++ encode_dirent n name) ++ rest) nm (len (pre ++ encode_dirent n name)) m.
Proof.
  intros Hn. cbn [dir_find]. rewrite dirent_at_mid by apply length_encode_dirent. rewrite encode_dirent_inum, encode_dirent_name by done. destruct (Z.eqb_spec n 0); [lia|]. cbn [negb andb].
  rewrite <- app_assoc, len_app, len_dirent. done.
Qed.
(** The names of the arguments, without the underscore. *)
Definition name_of (a : list Z * list Z) : list Z := strip a.1.
Lemma dir_find_entries args : forall n pre rest m nm k a,
  args !! k = Some a -> namecmp nm (name_of a) = true -> (forall j b, (j < k)%nat -> args !! j = Some b -> namecmp nm (name_of b) = false) ->
  0 < n -> n + Z.of_nat (length args) < 65536 -> (length args <= m)%nat ->
  dir_find (pre ++ entries args n ++ rest) nm (len pre) m = Some (n + Z.of_nat k, len pre + 16 * Z.of_nat k).
Proof.
  induction args as [|b args IH]; intros n pre rest m nm k a Hk Hnm Hbefore Hn Hmax Hm; [done|]. cbn [length] in *. destruct m as [|m]; [lia|]. cbn [entries]. rewrite <- app_assoc, dir_find_entry by lia. fold (name_of b). destruct k as [|k].
  - injection Hk as ->. rewrite Hnm. do 2 f_equal; lia.
  - rewrite (Hbefore 0%nat b) by (done || lia). rewrite (IH _ _ _ m nm k a); try done; [|intros j x Hj Hx; apply (Hbefore (S j)); [lia|done]|lia..]. rewrite len_app, len_dirent. do 2 f_equal; lia.
Qed.
Lemma root_lookup args k a :
  args !! k = Some a -> (forall j b, (j < k)%nat -> args !! j = Some b -> namecmp (name_of a) (name_of b) = false) ->
  namecmp (name_of a) [46] = false -> namecmp (name_of a) [46; 46] = false -> Z.of_nat (length args) + 2 <= NINODES ->
  dir_lookup (root_dir args ++ zpad (len (root_dir args))) (name_of a) = Some (Z.of_nat k + 2, 16 * (Z.of_nat k + 2)).
Proof.
  intros Hk Hbefore H1 H2 Hn. unfold NINODES in Hn. unfold dir_lookup. assert (length args + 2 <= nents (root_dir args ++ zpad (len (root_dir args))))%nat as Hm.
  { unfold nents. rewrite length_app. apply Nat.div_le_lower_bound; [lia|]. pose proof (len_root_dir args). unfold len in *. lia. }
  set (z := zpad _) in *. set (m := nents _) in *. clearbody m z. unfold root_dir. destruct m as [|[|m]]; [lia|lia|]. rewrite <- !app_assoc. change 0 with (len []). change (encode_dirent 1 [46] ++ ?l) with ([] ++ encode_dirent 1 [46] ++ l).
  rewrite dir_find_entry, H1 by lia. rewrite dir_find_entry, H2 by lia. rewrite (dir_find_entries args 2 _ _ m _ k a); try done; try lia; [|unfold namecmp; apply eq_name_refl]. rewrite !len_app, !len_dirent. do 2 f_equal; unfold len; cbn; lia.
Qed.

(** ** The theorems *)

(** C19. The image has the superblock and the layout that the kernel expects, and
    exactly the blocks of the files are marked; the files have their bytes, and
    share no blocks. *)
Theorem mkfs_image args :
  fits args -> (Z.of_nat (length args) + 2) mod 32 ≠ 0 -> exists s, mkfs_main (openable args) mkfs_start = Ok tt s /\ image_of (img s) args.
Proof. intros F Hm. destruct (proj1 (wp_Ok _ _ _) (wp_mkfs_image args F Hm)) as ([] & s & E & HI). exists s. exact (conj E HI). Qed.

(** C26. A lookup in the root directory, as [dirlookup] does it, finds every file
    under its name without the underscore, and its inode has its bytes. *)
Theorem mkfs_finds_files args k a :
  fits args -> (Z.of_nat (length args) + 2) mod 32 ≠ 0 -> args !! k = Some a ->
  (forall j b, (j < k)%nat -> args !! j = Some b -> namecmp (name_of a) (name_of b) = false) ->
  namecmp (name_of a) [46] = false -> namecmp (name_of a) [46; 46] = false ->
  exists s, mkfs_main (openable args) mkfs_start = Ok tt s /\
    exists n off, dir_lookup (content (img s) (on_disk (img s) ROOTINO)) (name_of a) = Some (n, off) /\ content (img s) (on_disk (img s) n) = a.2.
Proof.
  intros F Hm Hk Hbefore H1 H2. destruct (proj1 (wp_Ok _ _ _) (wp_mkfs_image args F Hm)) as ([] & s & E & HI). exists s. split; [exact E|]. clear E. exists (Z.of_nat k + 2), (16 * (Z.of_nat k + 2)). split.
  - rewrite (fl_content _ _ _ _ (im_root _ _ HI)). apply root_lookup; try done. apply F.
  - apply (fl_content _ _ _ _ (im_files _ _ HI k a Hk)).
Qed.

(** When the entries fill their last block, the size of the root directory is
    rounded up past it, and the directory ends with a block that is not there. *)
Theorem mkfs_root_hole args :
  fits args -> (Z.of_nat (length args) + 2) mod 32 = 0 -> exists s, mkfs_main (openable args) mkfs_start = Ok tt s /\
    let root := on_disk (img s) ROOTINO in
    size root = len (root_dir args) + BSIZE /\ slot (img s) root (len (root_dir args) / BSIZE) = 0.
Proof.
  intros F Hm. assert (wp (mkfs_main (openable args)) (fun _ s => let root := on_disk (img s) ROOTINO in size root = len (root_dir args) + BSIZE /\ slot (img s) root (len (root_dir args) / BSIZE) = 0) mkfs_start) as Hwp;
    [|destruct (proj1 (wp_Ok _ _ _) Hwp) as ([] & s & E & HI); exists s; exact (conj E HI)].
  apply wp_mkfs_main; [done|]. intros s1 s' H1 Hf E'. pose proof (ft_inodes _ F) as Hn. rewrite E'. change ROOTINO with 1. cbv zeta. rewrite root_on_disk by done. cbn [size].
  pose proof (root_small args Hn) as Hs. pose proof (len_root_dir args) as El. split; [unfold BSIZE; zlia|].
  destruct (root_holds args s1 H1) as [_ _ _ [T _]]. apply T; unfold SLOT_IND, BSIZE; zlia.
Qed.

(** ** Examples *)

Definition arg_okb (a : list Z * list Z) : bool :=
  bool_decide (47 ∉ a.1) && forallb (fun b => (0 <=? b) && (b <? 256)) a.1 && forallb (fun b => (0 <=? b) && (b <? 256)) a.2 && (len a.2 <=? MAXFILE * BSIZE).
Lemma arg_okb_ok args : forallb arg_okb args = true -> Forall arg_ok args.
Proof.
  assert (forall l, forallb (fun b => (0 <=? b) && (b <? 256)) l = true -> is_bytes l) as Hl. { induction l as [|b l IH]; cbn [forallb]; intros H; [constructor|]. bool_hyps. constructor; [lia|by apply IH]. }
  induction args as [|a args IH]; cbn [forallb]; intros H; [constructor|]. apply andb_true_iff in H as [H H']. constructor; [|by apply IH]. unfold arg_okb in H. rewrite !andb_true_iff in H. destruct H as [[[H1 H2] H3] H4].
  split_and!; [by apply bool_decide_eq_true_1 in H1|by apply Hl|by apply Hl|by apply Z.leb_le].
Qed.
(** "_cat" with three bytes and "README" with two blocks. *)
Definition demo_args : list (list Z * list Z) := [([95; 99; 97; 116], [1; 2; 3]); ([82; 69; 65; 68; 77; 69], replicate 600 120)].
Lemma demo_fits : fits demo_args.
Proof. split; [apply arg_okb_ok; vm_compute; reflexivity|vm_compute; discriminate|vm_compute; discriminate]. Qed.
Lemma mkfs_image_witness : exists s, mkfs_main (openable demo_args) mkfs_start = Ok tt s /\ image_of (img s) demo_args.
Proof. apply (mkfs_image demo_args); [apply demo_fits|vm_compute; discriminate]. Defined.
Lemma mkfs_finds_files_witness : exists s, mkfs_main (openable demo_args) mkfs_start = Ok tt s /\
  exists n off, dir_lookup (content (img s) (on_disk (img s) ROOTINO)) [99; 97; 116] = Some (n, off) /\ content (img s) (on_disk (img s) n) = [1; 2; 3].
Proof.
  apply (mkfs_finds_files demo_args 0 ([95; 99; 97; 116], [1; 2; 3])); [apply demo_fits|vm_compute; discriminate|reflexivity|intros j b Hj; lia|vm_compute; reflexivity|vm_compute; reflexivity].
Defined.
(** Thirty files fill a block with "." and "..". *)
Lemma mkfs_root_hole_witness : exists s, mkfs_main (openable (replicate 30 ([97], []))) mkfs_start = Ok tt s /\
  size (on_disk (img s) ROOTINO) = 1024 /\ slot (img s) (on_disk (img s) ROOTINO) 1 = 0.
Proof.
  apply (mkfs_root_hole (replicate 30 ([97], []))); [|vm_compute; reflexivity]. split; [apply arg_okb_ok; vm_compute; reflexivity|vm_compute; discriminate|vm_compute; discriminate].
Defined.
