(* ===== verification/FsInode.v ===== *)
(** Inodes: [itrunc] frees exactly the blocks of a file, [iput] frees an inode
    without links at its last reference, and [ialloc] takes a free inode. *)

From stdpp Require Import base gmap list strings.
From Stdlib Require Import ZArith Lia.
From S2P Require Import Prelude Files Block Log Fs FsTx FsAlloc FsFile FsDir.
Open Scope Z_scope.

(** ** Freeing blocks *)

(** The bitmap changed by freeing the blocks [D]. *)
Record freed (v v' : gmap Z (list Z)) (sb : superblock) (D : list Z) : Prop := {
  fd_layout : layout v' sb;
  fd_use : forall b, 0 <= b < sb_size sb -> in_use v' sb b = in_use v sb b && bool_decide (b ∉ D);
  fd_other : forall b, (forall x, 0 <= x < sb_size sb -> BBLOCK x sb ≠ b) -> v' !! b = v !! b
}.
Lemma freed_nil v sb : layout v sb -> freed v v sb [].
Proof. intros L. split; try done. intros b Hb. rewrite bool_decide_true by (by apply not_elem_of_nil). by rewrite andb_true_r. Qed.
Lemma freed_trans v1 v2 v3 sb D E : freed v1 v2 sb D -> freed v2 v3 sb E -> freed v1 v3 sb (D ++ E).
Proof.
  intros F G. split; [apply G| |].
  - intros b Hb. rewrite (fd_use _ _ _ _ G), (fd_use _ _ _ _ F), <- andb_assoc by done. f_equal.
    rewrite <- bool_decide_and. apply bool_decide_ext. rewrite not_elem_of_app. tauto.
  - intros b Hb. by rewrite (fd_other _ _ _ _ G), (fd_other _ _ _ _ F).
Qed.
Lemma freed_unmark v sb b : layout v sb -> data_block sb b -> freed v (unmark v sb b) sb [b].
Proof.
  intros L Hb. pose proof (data_block_range _ _ _ L Hb). split; [by apply layout_unmark| |].
  - intros x Hx. rewrite in_use_unmark by (done || lia). f_equal. apply bool_decide_ext. by rewrite list_elem_of_singleton.
  - intros x Hx. unfold unmark. rewrite lookup_insert_ne; [done|]. apply Hx. lia.
Qed.

(** Room in the log for [k] blocks and, if it is not there yet, for the only
    block of the bitmap. *)
Definition bitmap_logged (s : fstate) : Prop := sb_bmapstart (fsb s) ∈ pinned (st (fl s)).
Definition txb (s : fstate) (h : list Z) (k : nat) : Prop := tx s h (if decide (bitmap_logged s) then k else S k).
Lemma txb_tx s h k : txb s h k -> tx s h k.
Proof. unfold txb. intros T. eapply tx_weaken; [exact T|]. case_decide; lia. Qed.
Lemma tx_txb s h k : tx s h (S k) -> txb s h k.
Proof. unfold txb. intros T. eapply tx_weaken; [exact T|]. case_decide; lia. Qed.
Lemma txb_step s s' h k : frame s s' -> tx s' h (if decide (bitmap_logged s) then k else S k) -> txb s' h k.
Proof.
  intros F T. assert (bitmap_logged s -> bitmap_logged s') as H.
  { unfold bitmap_logged. rewrite (fr_sb _ _ F). apply (fr_pinned _ _ F). }
  unfold txb. eapply tx_weaken; [exact T|]. destruct (decide (bitmap_logged s')), (decide (bitmap_logged s)); try lia. tauto.
Qed.

Definition one_bitmap_block (sb : superblock) : Prop := sb_size sb <= BPB.
Lemma one_bitmap sb b : one_bitmap_block sb -> 0 <= b < sb_size sb -> BBLOCK b sb = sb_bmapstart sb.
Proof. unfold one_bitmap_block, BBLOCK, BPB, BSIZE. zlia. Qed.

Lemma wp_bfree_b s h k b (Q : unit -> fstate -> Prop) :
  txb s h (S k) -> one_bitmap_block (fsb s) -> (length h < 3)%nat -> layout (V s) (fsb s) -> (forall x, x ∈ h -> data_block (fsb s) x) ->
  data_block (fsb s) b -> in_use (V s) (fsb s) b = true ->
  (forall s', txb s' h (S k) -> V s' = unmark (V s) (fsb s) b -> frame s s' -> Q tt s') ->
  wp (bfree b) Q s.
Proof.
  intros T Ho Hh L Hhd Hb Hu HQ. pose proof (data_block_range _ _ _ L Hb) as Hr. assert (0 <= b < sb_size (fsb s)) as Hb' by lia.
  unfold bfree. wp_steps. destruct (layout_bitmap _ _ _ L Hb') as (d & Hd & Bd). pose proof (one_bitmap _ _ Ho Hb') as Eb.
  assert (BBLOCK b (fsb s) ∉ h) as Hni. { intros Hx. apply Hhd in Hx. by apply (bmap_not_data _ _ _ _ L Hb' Hx). }
  unfold txb in T. set (k0 := if decide (bitmap_logged s) then S k else S (S k)) in *.
  eapply wp_tx_bread; [exact T|done|done|by rewrite Hd|].
  intros s1 T1 E1 F1 P1. wp_steps. eapply wp_tx_bdata; [exact T1|by left|by rewrite E1|].
  pose proof Hu as Hu'. unfold in_use in Hu'. rewrite Hd in Hu'. cbn in Hu'. rewrite Hu'. cbn [negb].
  assert (k0 = S (pred k0)) as Ek by (unfold k0; case_decide; done). rewrite Ek in T1.
  eapply wp_tx_update_last_room; [exact T1|by rewrite E1, Hd|apply is_block_bm_clear; [done|apply bit_range]|rewrite (fr_sb _ _ F1); by eapply home_bmap|].
  intros s2 T2 E2 F2 P2. apply HQ; [| |by etrans].
  - assert (frame s s2) as F by (by etrans). unfold txb. rewrite decide_True by (unfold bitmap_logged; rewrite (fr_sb _ _ F); congruence).
    eapply tx_weaken; [exact T2|]. unfold k0. unfold bitmap_logged. rewrite <- Eb. pose proof (fr_pinned _ _ F1). repeat case_decide; try (cbn; lia).
    exfalso. set_solver.
  - rewrite E2, E1. unfold unmark. by rewrite Hd.
Qed.

(** ** [itrunc] *)

Definition nz (a : Z) : list Z := if a =? 0 then [] else [a].
Lemma elem_of_nz a b : b ∈ nz a <-> b = a /\ a ≠ 0.
Proof.
  unfold nz. destruct (Z.eqb_spec a 0); [split; [by intros ?%elem_of_nil|tauto]|]. rewrite list_elem_of_singleton. tauto.
Qed.
Lemma elem_of_nzs l b : b ∈ l ≫= nz <-> b ∈ l /\ b ≠ 0.
Proof.
  rewrite list_elem_of_bind. split.
  - intros (a & Hb & Ha). apply elem_of_nz in Hb as [-> Hn]. done.
  - intros [Hb Hn]. exists b. split; [by apply elem_of_nz|done].
Qed.

(** The blocks of a list can be freed one after the other. *)
Definition freeable (v : gmap Z (list Z)) (sb : superblock) (l : list Z) : Prop :=
  NoDup (l ≫= nz) /\ forall a, a ∈ l -> a ≠ 0 -> data_block sb a /\ in_use v sb a = true.
Lemma freeable_cons v v' sb a l D :
  freeable v sb (a :: l) -> layout v sb -> freed v v' sb D -> (forall b, b ∈ D -> b ∈ nz a) -> freeable v' sb l.
Proof.
  intros [Hnd Hb] L F HD. cbn [mbind list_bind] in Hnd. apply NoDup_app in Hnd as (_ & Hni & Hnd). split; [done|].
  intros x Hx Hn. destruct (Hb x) as [D1 D2]; [by right|done|]. split; [done|]. pose proof (data_block_range _ _ _ L D1).
  rewrite (fd_use _ _ _ _ F), D2 by lia. rewrite bool_decide_true; [done|]. intros Hd. apply HD, Hni in Hd. apply Hd. by apply elem_of_nzs.
Qed.

(** Inode [ip] became [i'] and the blocks [D] were freed. *)
Record let_go (s s' : fstate) (ip : nat) (i' : inode) (D : list Z) : Prop := {
  rl_ic : icache s' = <[ip := i']> (icache s);
  rl_sb : fsb s' = fsb s;
  rl_cwd : fcwd s' = fcwd s;
  rl_freed : freed (V s) (V s') (fsb s) D
}.
Lemma let_go_trans s1 s2 s3 ip i2 i3 D E : let_go s1 s2 ip i2 D -> let_go s2 s3 ip i3 E -> let_go s1 s3 ip i3 (D ++ E).
Proof.
  intros [A1 A2 A3 A4] [B1 B2 B3 B4]. rewrite A2 in *. split; try congruence.
  - by rewrite B1, A1, list_insert_insert_eq.
  - by eapply freed_trans.
Qed.
Lemma wp_set_addr s h n ip i k a (Q : unit -> fstate -> Prop) :
  txb s h n -> icache s !! ip = Some i ->
  (forall s', txb s' h n -> V s' = V s -> icache s' = <[ip := with_addr i k a]> (icache s) -> fsb s' = fsb s -> fcwd s' = fcwd s -> Q tt s') ->
  wp (set_addr ip k a) Q s.
Proof.
  intros T Hi HQ. unfold set_addr, set_inode. rewrite wp_modify. rewrite (list_alter_insert_lookup _ _ _ i) by done. apply HQ; try done.
  by destruct T; split.
Qed.

Lemma wp_itrunc_direct s n ip i k l (Q : unit -> fstate -> Prop) :
  txb s [] (S n) -> one_bitmap_block (fsb s) -> layout (V s) (fsb s) -> icache s !! ip = Some i -> (k < length (addrs i))%nat ->
  freeable (V s) (fsb s) (nth k (addrs i) 0 :: l) ->
  (forall s', txb s' [] (S n) -> let_go s s' ip (with_addr i k 0) (nz (nth k (addrs i) 0)) -> freeable (V s') (fsb s') l -> Q tt s') ->
  wp (itrunc_direct ip k) Q s.
Proof.
  intros T Ho L Hi Hk Hfr HQ. unfold itrunc_direct. rewrite wp_bind. apply (wp_get_inode _ _ i); [done|]. rewrite wp_when.
  set (a := nth k (addrs i) 0) in *. destruct (Z.eqb_spec a 0) as [E|E]; cbn [negb].
  - assert (nz a = []) as En by (unfold nz; by rewrite E). rewrite En in HQ.
    assert (let_go s s ip (with_addr i k 0) []) as R.
    { split; try done; [|by apply freed_nil]. rewrite list_insert_id; [done|]. rewrite Hi. f_equal. unfold with_addr.
      rewrite list_insert_id; [by destruct i|]. destruct (lookup_lt_is_Some_2 (addrs i) k Hk) as [x Hx]. unfold a in E.
      rewrite (nth_lookup_Some _ _ _ _ Hx) in E. by subst x. }
    apply HQ; [done|done|]. eapply freeable_cons; [exact Hfr|done|by apply freed_nil|]. by intros b ?%elem_of_nil.
  - rewrite wp_bind. destruct Hfr as [Hnd Hb]. destruct (Hb a) as [Da Ua]; [by left|done|].
    apply (wp_bfree_b s [] n a); try done; [cbn; lia|by intros x ?%elem_of_nil|]. intros s1 T1 E1 [F1 F2 F3].
    pose proof (freed_unmark _ _ _ L Da) as Fr. rewrite <- E1 in Fr. assert (nz a = [a]) as En by (unfold nz; by destruct (Z.eqb_spec a 0)).
    eapply wp_set_addr; [exact T1|by rewrite F2|]. intros s2 T2 E2 I2 S2 C2. rewrite <- E2 in Fr. apply HQ; [done| |].
    + split; [by rewrite I2, F2|congruence|congruence|by rewrite En].
    + rewrite S2, F1. eapply freeable_cons; [by split|done|exact Fr|]. by rewrite En.
Qed.

(** The addresses [k .. k+m-1] set to zero. *)
Definition zeroed (i : inode) (k m : nat) : inode := {| i with addrs := take k (addrs i) ++ replicate m 0 ++ drop (k + m) (addrs i) |}.
Lemma zeroed_0 i k : zeroed i k 0 = i.
Proof. unfold zeroed. cbn. rewrite Nat.add_0_r, take_drop. by destruct i. Qed.
Lemma zeroed_S i k m : (k + S m <= length (addrs i))%nat -> zeroed (with_addr i k 0) (S k) m = zeroed i k (S m).
Proof.
  intros Hl. unfold zeroed, with_addr. cbn [addrs]. f_equal. rewrite drop_insert_lt by lia. replace (S k + m)%nat with (k + S m)%nat by lia.
  rewrite (take_S_r _ _ 0) by (apply list_lookup_insert_eq; lia). rewrite take_insert_ge by lia. by rewrite <- app_assoc.
Qed.

Lemma wp_itrunc_directs m : forall s n ip i k l (Q : unit -> fstate -> Prop),
  txb s [] (S n) -> one_bitmap_block (fsb s) -> layout (V s) (fsb s) -> icache s !! ip = Some i -> (k + m <= length (addrs i))%nat ->
  freeable (V s) (fsb s) (take m (drop k (addrs i)) ++ l) ->
  (forall s', txb s' [] (S n) -> let_go s s' ip (zeroed i k m) (take m (drop k (addrs i)) ≫= nz) -> freeable (V s') (fsb s') l -> Q tt s') ->
  wp (for_each (seq k m) (itrunc_direct ip)) Q s.
Proof.
  induction m as [|m IH]; intros s n ip i k l Q T Ho L Hi Hk Hfr HQ.
  { cbn. apply HQ; [done| |done]. rewrite zeroed_0. split; try done; [by rewrite list_insert_id|by apply freed_nil]. }
  cbn [seq for_each]. rewrite wp_bind. destruct (lookup_lt_is_Some_2 (addrs i) k ltac:(lia)) as [a Ha].
  assert (take (S m) (drop k (addrs i)) = a :: take m (drop (S k) (addrs i))) as Et by (by rewrite (drop_S _ a)).
  rewrite Et in *. pose proof (nth_lookup_Some _ _ 0 _ Ha) as En. pose proof (lookup_lt_Some _ _ _ Hi) as Hlt.
  eapply (wp_itrunc_direct s n ip i k); try done; [lia|rewrite En; exact Hfr|]. rewrite En. intros s1 T1 R1 Hf1.
  assert (drop (S k) (addrs (with_addr i k 0)) = drop (S k) (addrs i)) as Ed by (unfold with_addr; cbn [addrs]; by rewrite drop_insert_lt by lia).
  eapply (IH s1 n ip (with_addr i k 0) (S k) l); rewrite ?(rl_sb _ _ _ _ _ R1); try done.
  - apply R1.
  - rewrite (rl_ic _ _ _ _ _ R1). by apply list_lookup_insert_eq.
  - unfold with_addr. cbn [addrs]. rewrite length_insert. lia.
  - rewrite Ed. by rewrite (rl_sb _ _ _ _ _ R1) in Hf1.
  - intros s2 T2 R2 Hf2. rewrite Ed in R2. rewrite zeroed_S in R2 by lia. apply HQ; [done| |done].
    cbn [mbind list_bind]. by eapply let_go_trans.
Qed.

Lemma wp_free_entries (f : Z -> Z) h l2 js : forall s n (Q : unit -> fstate -> Prop),
  txb s h (S n) -> one_bitmap_block (fsb s) -> layout (V s) (fsb s) -> (length h < 3)%nat -> (forall x, x ∈ h -> data_block (fsb s) x) ->
  freeable (V s) (fsb s) ((f <$> js) ++ l2) ->
  (forall s', txb s' h (S n) -> frame s s' -> freed (V s) (V s') (fsb s) ((f <$> js) ≫= nz) -> freeable (V s') (fsb s) l2 -> Q tt s') ->
  wp (for_each js (fun j => when (negb (f j =? 0)) (bfree (f j)))) Q s.
Proof.
  induction js as [|j js IH]; intros s n Q T Ho L Hh Hhd Hfr HQ.
  { cbn. apply HQ; try done. by apply freed_nil. }
  cbn [for_each]. rewrite wp_bind, wp_when. cbn [fmap list_fmap app] in Hfr.
  assert (forall s1, txb s1 h (S n) -> frame s s1 -> freed (V s) (V s1) (fsb s) (nz (f j)) -> wp (for_each js (fun j => when (negb (f j =? 0)) (bfree (f j)))) Q s1) as Hnext.
  { intros s1 T1 F1 Fr1. pose proof (fr_sb _ _ F1) as S1. apply (IH s1 n); rewrite ?S1; try done.
    - apply Fr1.
    - eapply freeable_cons; [exact Hfr|done|exact Fr1|done].
    - intros s2 T2 F2 Fr2 Hf2. apply HQ; try done; [by etrans|]. cbn [fmap list_fmap mbind list_bind]. by eapply freed_trans. }
  destruct (Z.eqb_spec (f j) 0) as [E|E]; cbn [negb].
  - apply Hnext; [done|done|]. unfold nz. rewrite E. by apply freed_nil.
  - destruct Hfr as [Hnd Hb]. destruct (Hb (f j)) as [Da Ua]; [by left|done|].
    apply (wp_bfree_b s h n); try done. intros s1 T1 E1 F1. apply Hnext; [done|done|]. unfold nz. destruct (Z.eqb_spec (f j) 0); [done|].
    rewrite E1. by apply freed_unmark.
Qed.

(** All the addresses of a file, the indirect block last. *)
Definition addresses (v : gmap Z (list Z)) (i : inode) : list Z :=
  take 12 (addrs i) ++ (if ind i =? 0 then [] else (fun j => get32 (default [] (v !! ind i)) (4 * j)) <$> seqZ 0 NINDIRECT) ++ [ind i].
Definition slots (i : inode) : list Z := seqZ 0 12 ++ (if ind i =? 0 then [] else seqZ 12 128) ++ [SLOT_IND].
Lemma addresses_slots v i : length (addrs i) = 13%nat -> addresses v i = slot v i <$> slots i.
Proof.
  intros Hl. unfold addresses, slots. rewrite !fmap_app. f_equal; [|f_equal].
  - apply list_eq_same_length with (n := 12%nat); [by rewrite length_fmap, length_seqZ|rewrite length_take; lia|].
    intros k x y Hk. rewrite lookup_take_lt by lia. rewrite list_lookup_fmap, lookup_seqZ_lt by lia. cbn [fmap option_fmap option_map]. rewrite Z.add_0_l. intros Hx [= <-].
    unfold slot. destruct (Z.ltb_spec (Z.of_nat k) 12); [|lia]. rewrite Nat2Z.id. by rewrite (nth_lookup_Some _ _ _ _ Hx).
  - destruct (Z.eqb_spec (ind i) 0) as [E|E]; [done|]. change NINDIRECT with 128. apply list_eq_same_length with (n := 128%nat);
      [by rewrite length_fmap, length_seqZ|by rewrite length_fmap, length_seqZ|].
    intros k x y Hk. rewrite !list_lookup_fmap, !lookup_seqZ_lt by lia. cbn [fmap option_fmap option_map]. intros [= <-] [= <-].
    rewrite slot_indirect by (try done; unfold SLOT_IND; lia). do 2 f_equal. lia.
Qed.
Lemma elem_of_slots i j : j ∈ slots i -> is_slot j.
Proof.
  unfold slots, is_slot, SLOT_IND. rewrite !elem_of_app, elem_of_seqZ, list_elem_of_singleton. intros [H|[H| ->]]; [lia| |lia].
  destruct (ind i =? 0); [by apply elem_of_nil in H|]. apply elem_of_seqZ in H. lia.
Qed.
Lemma NoDup_slots i : NoDup (slots i).
Proof.
  unfold slots, SLOT_IND. apply NoDup_app. split; [apply NoDup_seqZ|]. split.
  - intros x Hx%elem_of_seqZ. rewrite elem_of_app, list_elem_of_singleton. intros [H| ->]; [|lia].
    destruct (ind i =? 0); [by apply elem_of_nil in H|]. apply elem_of_seqZ in H. lia.
  - apply NoDup_app. split; [destruct (ind i =? 0); [apply NoDup_nil_2|apply NoDup_seqZ]|]. split; [|apply NoDup_singleton].
    intros x Hx. rewrite list_elem_of_singleton. intros ->. destruct (ind i =? 0); [by apply elem_of_nil in Hx|]. apply elem_of_seqZ in Hx. lia.
Qed.
Lemma NoDup_nz_fmap (f : Z -> Z) l :
  NoDup l -> (forall j j', j ∈ l -> j' ∈ l -> f j = f j' -> f j ≠ 0 -> j = j') -> NoDup ((f <$> l) ≫= nz).
Proof.
  induction 1 as [|j l Hj Hl IH]; intros Hinj; [apply NoDup_nil_2|]. cbn [fmap list_fmap mbind list_bind]. apply NoDup_app. split_and!.
  - unfold nz. destruct (f j =? 0); [apply NoDup_nil_2|apply NoDup_singleton].
  - intros x [-> Hn]%elem_of_nz Hx. apply elem_of_nzs in Hx as [Hx _]. apply list_elem_of_fmap in Hx as (j' & E & Hj').
    apply Hj. rewrite (Hinj j j'); try done; [by left|by right].
  - apply IH. intros a b Ha Hb. apply Hinj; by right.
Qed.
Lemma freeable_addresses v sb i : file_inv v sb i -> freeable v sb (addresses v i).
Proof.
  intros F. rewrite addresses_slots by apply F. split.
  - apply NoDup_nz_fmap; [apply NoDup_slots|]. intros j j' Hj Hj'. apply (fi_inj _ _ _ F); by eapply elem_of_slots.
  - intros a (j & -> & Hj)%list_elem_of_fmap Hn. apply (fi_blk _ _ _ F); [by eapply elem_of_slots|done].
Qed.
Lemma elem_of_addresses v i b : length (addrs i) = 13%nat -> b ∈ addresses v i ≫= nz <-> owns v i b.
Proof.
  intros Hl. rewrite elem_of_nzs, addresses_slots, list_elem_of_fmap by done. unfold owns. split.
  - intros [(j & -> & Hj) Hn]. split; [done|]. exists j. split; [by eapply elem_of_slots|done].
  - intros (Hn & j & Hj & <-). split; [|done]. exists j. split; [done|]. unfold slots, is_slot, SLOT_IND in *. rewrite !elem_of_app, elem_of_seqZ, list_elem_of_singleton.
    destruct (Z.lt_ge_cases j 12); [left; lia|right]. destruct (decide (j = 140)); [by right|left]. destruct (Z.eqb_spec (ind i) 0) as [E|E].
    + exfalso. apply Hn. unfold slot. rewrite E. destruct (Z.ltb_spec j 12); [lia|]. by destruct (j =? SLOT_IND).
    + apply elem_of_seqZ. lia.
Qed.

Lemma let_go_frame s s' ip i D : icache s !! ip = Some i -> frame s s' -> freed (V s) (V s') (fsb s) D -> let_go s s' ip i D.
Proof. intros Hi [F1 F2 F3] Fr. split; try done. by rewrite F2, list_insert_id. Qed.
Lemma freed_data v v' sb D b : layout v sb -> freed v v' sb D -> data_block sb b -> v' !! b = v !! b.
Proof. intros L F Hb. apply (fd_other _ _ _ _ F). intros x Hx. by eapply bmap_not_data. Qed.

(** The part of [itrunc] for the indirect block. *)
Lemma wp_itrunc_indirect s n ip i ia (Q : unit -> fstate -> Prop) :
  txb s [] (S n) -> one_bitmap_block (fsb s) -> layout (V s) (fsb s) -> icache s !! ip = Some i -> ia ≠ 0 ->
  let es := (fun j => get32 (default [] (V s !! ia)) (4 * j)) <$> seqZ 0 NINDIRECT in
  freeable (V s) (fsb s) (es ++ [ia]) ->
  (forall s', txb s' [] (S n) -> let_go s s' ip (with_addr i NDIRECT 0) ((es ++ [ia]) ≫= nz) -> Q tt s') ->
  wp (bp ← on_blk (bread ia);
      a ← on_blk (bdata bp);
      for_each (seqZ 0 NINDIRECT) (fun j => when (negb (get32 a (4 * j) =? 0)) (bfree (get32 a (4 * j)))) ;;
      on_blk (brelse bp) ;;
      bfree ia ;;
      set_addr ip NDIRECT 0) Q s.
Proof.
  intros T Ho L Hi Hn es Hfr HQ. destruct (proj2 Hfr ia) as [Di _]; [apply elem_of_app; right; by left|done|].
  pose proof (data_block_range _ _ _ L Di) as Hr. destruct (ly_exist _ _ L ia) as [d Hd]; [lia|]. unfold es in *. rewrite Hd in *. cbn [from_option id] in *.
  rewrite wp_bind. eapply wp_tx_bread; [exact T|by apply not_elem_of_nil|cbn; lia|by rewrite Hd|]. intros s1 T1 E1 F1 C1.
  assert (txb s1 [ia] (S n)) as Tb1 by (eapply txb_step; [exact F1|exact T1]).
  rewrite wp_bind. eapply wp_tx_bdata; [exact T1|by left|by rewrite E1|]. pose proof (fr_sb _ _ F1) as S1.
  rewrite wp_bind. eapply (wp_free_entries _ [ia] [ia] _ s1 n); rewrite ?E1, ?S1; try done; [cbn; lia|by intros x ->%list_elem_of_singleton|].
  intros s2 T2 F2 Fr2 Hf2. rewrite wp_bind. pose proof (fr_sb _ _ F2) as S2. rewrite S1 in S2.
  assert (V s2 !! ia = V s1 !! ia) as Ed2 by (rewrite E1; by eapply freed_data).
  eapply wp_tx_brelse; [exact T2|by eapply clean_frame|]. intros s3 T3 E3 F3.
  assert (txb s3 [] (S n)) as Tb3 by (eapply txb_step; [exact F3|exact T3]).
  pose proof (fr_sb _ _ F3) as S3. rewrite S2 in S3. destruct Hf2 as [_ Hf2]. destruct (Hf2 ia) as [_ Ui]; [by left|done|].
  rewrite wp_bind. apply (wp_bfree_b s3 [] n); rewrite ?E3, ?S3; try done; [cbn; lia|apply Fr2|by intros x ?%elem_of_nil|].
  intros s4 T4 E4 F4. pose proof (freed_unmark _ _ _ (fd_layout _ _ _ _ Fr2) Di) as Fr4. rewrite <- E4 in Fr4.
  assert (frame s s4) as F by (etrans; [exact F1|etrans; [exact F2|by etrans]]).
  eapply wp_set_addr; [exact T4|rewrite (fr_icache _ _ F); exact Hi|]. intros s5 T5 E5 I5 S5 C5. apply HQ; [done|].
  destruct F as [G1 G2 G3]. split; [by rewrite I5, G2|congruence|congruence|]. rewrite E5. rewrite bind_app. eapply freed_trans; [exact Fr2|].
  assert ([ia] ≫= nz = [ia]) as ->; [|done]. cbn. unfold nz. by destruct (Z.eqb_spec ia 0).
Qed.

Lemma drop_last_addr l : length l = 13%nat -> drop 12 l = [nth 12 l 0].
Proof.
  intros Hl. destruct (lookup_lt_is_Some_2 l 12 ltac:(lia)) as [x Hx]. rewrite (drop_S _ x) by done.
  rewrite (nth_lookup_Some _ _ _ _ Hx). by rewrite drop_ge by lia.
Qed.
Definition trunc_inode (i : inode) : inode := {| i with size := 0; addrs := replicate 13 0 |}.
(** File [ip] became empty: its blocks, and no others, were freed. *)
Record truncated (s s' : fstate) (ip : nat) (i i' : inode) : Prop := {
  tr_ic : icache s' = <[ip := i']> (icache s);
  tr_sb : fsb s' = fsb s;
  tr_cwd : fcwd s' = fcwd s;
  tr_layout : layout (V s') (fsb s);
  tr_use : forall b, 0 <= b < sb_size (fsb s) -> in_use (V s') (fsb s) b = true <-> in_use (V s) (fsb s) b = true /\ ~ owns (V s) i b;
  tr_data : forall b, data_block (fsb s) b -> V s' !! b = V s !! b;
  tr_synced : inode_wf i' -> synced (V s') (fsb s) i';
  tr_inodes : forall n x, 0 <= n < sb_ninodes (fsb s) -> n ≠ inum i ->
    decode_inode (inode_block (V s') (fsb s) n) (dip n) x = decode_inode (inode_block (V s) (fsb s) n) (dip n) x
}.

(** Other files keep their blocks. *)
Lemma truncated_others s s' ip i i' x :
  layout (V s) (fsb s) -> truncated s s' ip i i' -> file_ok (V s) (fsb s) x -> disjoint_files (V s) i x ->
  file_ok (V s') (fsb s) x /\ content (V s') x = content (V s) x.
Proof.
  intros L Tr Fx Hd. apply file_ok_ext; [done|]. intros b Hb. destruct (owns_data _ _ _ _ L (fo_inv _ _ _ Fx) Hb) as [D U].
  split; [by apply (tr_data _ _ _ _ _ Tr)|]. intros _. pose proof (data_block_range _ _ _ L D). apply (tr_use _ _ _ _ _ Tr); [lia|].
  split; [done|]. intros Ho. by apply (Hd b).
Qed.

(** The inode written after its blocks were freed. *)
Lemma truncated_written s s1 s' ip i i1 i' D :
  let_go s s1 ip i1 D -> layout (V s) (fsb s) -> (forall b, b ∈ D <-> owns (V s) i b) -> 0 <= inum i < sb_ninodes (fsb s) ->
  inum i' = inum i -> length (addrs i') = 13%nat ->
  icache s' = <[ip := i']> (icache s) -> fsb s' = fsb s -> fcwd s' = fcwd s -> V s' = inode_written (V s1) (fsb s) i' ->
  truncated s s' ip i i'.
Proof.
  intros R L HD Hn En Hl H1 H2 H3 EV. pose proof (rl_freed _ _ _ _ _ R) as Fr. pose proof (fd_layout _ _ _ _ Fr) as L1.
  assert (0 <= inum i' < sb_ninodes (fsb s)) as Hn' by (by rewrite En).
  split; try done; rewrite ?EV.
  - by apply inode_written_layout.
  - intros b Hb. rewrite inode_written_use by done. rewrite (fd_use _ _ _ _ Fr) by done. rewrite andb_true_iff, bool_decide_eq_true. by rewrite HD.
  - intros b Hb. rewrite inode_written_data by done. by eapply freed_data.
  - intros W. by apply inode_written_synced.
  - intros n x Hnn Hne. rewrite inode_written_other; try done; [|congruence]. unfold inode_block. rewrite (fd_other _ _ _ _ Fr); [done|].
    intros y Hy. by apply (ly_sep _ _ L).
Qed.

(** The end of [itrunc]: the size and the inode on disk. *)
Lemma wp_itrunc_end s s2 n ip i D (Q : unit -> fstate -> Prop) :
  txb s2 [] (S n) -> let_go s s2 ip {| i with addrs := replicate 13 0 |} D -> layout (V s) (fsb s) ->
  (forall b, b ∈ D <-> owns (V s) i b) -> 0 <= inum i < sb_ninodes (fsb s) -> (ip < length (icache s))%nat ->
  (forall s', tx s' [] n -> truncated s s' ip i (trunc_inode i) -> Q tt s') ->
  wp (set_inode ip (fun i => {| i with size := 0 |}) ;; iupdate ip) Q s2.
Proof.
  intros T2 R L HD Hn Hlt HQ. unfold set_inode. rewrite wp_bind, wp_modify.
  rewrite (list_alter_insert_lookup _ _ _ {| i with addrs := replicate 13 0 |}) by (rewrite (rl_ic _ _ _ _ _ R); by apply list_lookup_insert_eq).
  rewrite (rl_ic _ _ _ _ _ R), list_insert_insert_eq. match goal with |- wp _ _ ?t => set (s3 := t) end.
  assert (V s3 = V s2) as E3 by done. assert (fsb s3 = fsb s) as S3 by apply (rl_sb _ _ _ _ _ R).
  apply (wp_iupdate s3 n ip (trunc_inode i)); rewrite ?E3, ?S3; try done.
  - destruct (txb_tx _ _ _ T2); by split.
  - apply (rl_freed _ _ _ _ _ R).
  - cbn. by apply list_lookup_insert_eq.
  - intros s4 T4 [F1 F2 F3] E4. apply HQ; [done|]. eapply (truncated_written s s2); try done.
    + congruence.
    + rewrite F3. apply (rl_cwd _ _ _ _ _ R).
Qed.
Lemma wp_itrunc s n ip i (Q : unit -> fstate -> Prop) :
  tx s [] (S (S n)) -> one_bitmap_block (fsb s) -> layout (V s) (fsb s) -> icache s !! ip = Some i -> file_inv (V s) (fsb s) i ->
  0 <= inum i < sb_ninodes (fsb s) ->
  (forall s', tx s' [] n -> truncated s s' ip i (trunc_inode i) -> Q tt s') -> wp (itrunc ip) Q s.
Proof.
  intros T Ho L Hi F Hn HQ. apply tx_txb in T. pose proof (fi_len _ _ _ F) as Hl. pose proof (freeable_addresses _ _ _ F) as Hfr.
  set (es := if ind i =? 0 then [] else (fun j => get32 (default [] (V s !! ind i)) (4 * j)) <$> seqZ 0 NINDIRECT).
  assert (addresses (V s) i = take 12 (addrs i) ++ es ++ [ind i]) as Ea by done.
  pose proof (lookup_lt_Some _ _ _ Hi) as Hlt. unfold itrunc. rewrite wp_bind.
  eapply (wp_itrunc_directs 12 s n ip i 0); try done; [lia|]. rewrite drop_0. intros s1 T1 R1 Hf1. rewrite (rl_sb _ _ _ _ _ R1) in Hf1.
  assert (icache s1 !! ip = Some (zeroed i 0 12)) as Hi1 by (rewrite (rl_ic _ _ _ _ _ R1); by apply list_lookup_insert_eq).
  assert (addrs (zeroed i 0 12) = replicate 12 0 ++ [ind i]) as Ez.
  { unfold zeroed. cbn [addrs take app Nat.add]. by rewrite drop_last_addr. }
  assert (length (addrs (zeroed i 0 12)) = 13%nat) as Hl1 by (by rewrite Ez).
  assert (ind (zeroed i 0 12) = ind i) as Ei by (unfold ind at 1; by rewrite Ez).
  rewrite wp_bind. apply (wp_get_inode _ _ (zeroed i 0 12)); [done|]. change (nth NDIRECT (addrs (zeroed i 0 12)) 0) with (ind (zeroed i 0 12)).
  rewrite Ei. rewrite wp_bind, wp_when.
  assert (forall s2 D, txb s2 [] (S n) -> let_go s1 s2 ip {| i with addrs := replicate 13 0 |} D -> D = (es ++ [ind i]) ≫= nz ->
    wp (set_inode ip (fun i => {| i with size := 0 |}) ;; iupdate ip) Q s2) as Hlast.
  { intros s2 D T2 R2 ED. eapply (wp_itrunc_end s s2 n); [exact T2|by eapply let_go_trans|done| |done|done|done].
    intros b. rewrite ED, <- bind_app, <- Ea. by apply elem_of_addresses. }
  assert (with_addr (zeroed i 0 12) NDIRECT 0 = {| i with addrs := replicate 13 0 |}) as Ew by (unfold with_addr; by rewrite Ez).
  destruct (Z.eqb_spec (ind i) 0) as [E0|E0]; cbn [negb].
  - apply (Hlast s1 []); [done| |by unfold es; rewrite E0].
    assert (zeroed i 0 12 = {| i with addrs := replicate 13 0 |}) as Ez'.
    { change (zeroed i 0 12) with {| i with addrs := addrs (zeroed i 0 12) |}. by rewrite Ez, E0. }
    split; try done; [by rewrite <- Ez', list_insert_id|]. apply freed_nil. rewrite (rl_sb _ _ _ _ _ R1). apply R1.
  - assert (V s1 !! ind i = V s !! ind i) as EV. { eapply freed_data; [done|apply R1|]. by apply (fi_blk _ _ _ F SLOT_IND). }
    assert (es = (fun j => get32 (default [] (V s1 !! ind i)) (4 * j)) <$> seqZ 0 NINDIRECT) as Ees.
    { unfold es. rewrite EV. by destruct (Z.eqb_spec (ind i) 0). }
    apply (wp_itrunc_indirect s1 n ip (zeroed i 0 12)); rewrite ?(rl_sb _ _ _ _ _ R1), <- ?Ees; try done; [apply R1|].
    intros s2 T2 R2. rewrite Ew in R2. by eapply Hlast.
Qed.

(** ** [iput] *)

(** The inode is free on disk. *)
Definition inode_free (v : gmap Z (list Z)) (sb : superblock) (n : Z) : Prop := get16 (inode_block v sb n) (dip n + DI_type) = 0.

Lemma inode_written_free v sb i :
  layout v sb -> 0 <= inum i < sb_ninodes sb -> length (addrs i) = 13%nat -> itype i = 0 -> inode_free (inode_written v sb i) sb (inum i).
Proof.
  intros L Hn Hl Ht. destruct (layout_inode _ _ _ L Hn) as [[Bl _] _]. unfold inode_free, inode_block at 1, inode_written. rewrite lookup_insert_eq.
  cbn [from_option id]. pose proof (dip_range (inum i)). rewrite get16_put; unfold DI_type; rewrite ?(length_encode_inode i Hl), ?Bl; try (unfold BSIZE; lia).
  replace (dip (inum i) + 0 - dip (inum i)) with 0 by lia. change (get16 (encode_inode i) 0) with (get16 (bytes16 (itype i)) 0). by rewrite Ht.
Qed.

(** What [iput] does at the last reference to an inode without links. *)
Record disposed (s s' : fstate) (ip : nat) (i : inode) : Prop := {
  di_ic : exists i', icache s' = <[ip := i']> (icache s) /\ iref i' = 0 /\ valid i' = 0 /\ inum i' = inum i /\ ilk i' = false;
  di_sb : fsb s' = fsb s;
  di_layout : layout (V s') (fsb s);
  di_free : inode_free (V s') (fsb s) (inum i);
  di_use : forall b, 0 <= b < sb_size (fsb s) -> in_use (V s') (fsb s) b = true <-> in_use (V s) (fsb s) b = true /\ ~ owns (V s) i b;
  di_data : forall b, data_block (fsb s) b -> V s' !! b = V s !! b;
  di_inodes : forall n x, 0 <= n < sb_ninodes (fsb s) -> n ≠ inum i ->
    decode_inode (inode_block (V s') (fsb s) n) (dip n) x = decode_inode (inode_block (V s) (fsb s) n) (dip n) x
}.

Lemma disposed_written s s1 s2 s' ip i i1 i3 :
  V s1 = V s -> fsb s1 = fsb s -> truncated s1 s2 ip i1 (trunc_inode i1) -> (forall b, owns (V s) i1 b <-> owns (V s) i b) ->
  inum i1 = inum i -> inum i3 = inum i -> length (addrs i3) = 13%nat -> itype i3 = 0 -> 0 <= inum i < sb_ninodes (fsb s) ->
  fsb s' = fsb s -> V s' = inode_written (V s2) (fsb s) i3 ->
  (exists i', icache s' = <[ip := i']> (icache s) /\ iref i' = 0 /\ valid i' = 0 /\ inum i' = inum i /\ ilk i' = false) ->
  disposed s s' ip i.
Proof.
  intros EV ES Tr Ho E1 E3 Hl Ht Hn HS E' Hic. destruct Tr as [_ _ _ L2 U2 D2 _ I2]. rewrite EV, ES in *. rewrite E1 in I2.
  assert (0 <= inum i3 < sb_ninodes (fsb s)) as Hn3 by (by rewrite E3).
  split; try done; rewrite ?E'.
  - by apply inode_written_layout.
  - rewrite <- E3. by apply inode_written_free.
  - intros b Hb. rewrite inode_written_use by done. rewrite U2 by done. by rewrite Ho.
  - intros b Hb. rewrite inode_written_data by done. by apply D2.
  - intros m x Hm Hne. rewrite inode_written_other; try done; [|congruence]. by apply I2.
Qed.

Lemma wp_set_inode s ip i f (Q : unit -> fstate -> Prop) :
  icache s !! ip = Some i -> Q tt (with_cache s (<[ip := f i]> (icache s))) -> wp (set_inode ip f) Q s.
Proof. intros Hi HQ. unfold set_inode. rewrite wp_modify. by rewrite (list_alter_insert_lookup _ _ _ i). Qed.
Lemma tx_with_cache s h k l : tx s h k -> tx (with_cache s l) h k.
Proof. intros T. by destruct T; split. Qed.

Lemma wp_iput_last s n ip i (Q : unit -> fstate -> Prop) :
  tx s [] (3 + n) -> one_bitmap_block (fsb s) -> layout (V s) (fsb s) -> icache s !! ip = Some i -> file_inv (V s) (fsb s) i ->
  0 <= inum i < sb_ninodes (fsb s) -> ilk i = false -> valid i ≠ 0 -> nlink i = 0 -> iref i = 1 ->
  (forall s', tx s' [] n -> disposed s s' ip i -> Q tt s') -> wp (iput ip) Q s.
Proof.
  intros T Ho L Hi F Hn Hlk Hv Hnl Hr HQ. pose proof (lookup_lt_Some _ _ _ Hi) as Hlt. unfold iput. rewrite wp_bind.
  apply (wp_get_inode _ _ i); [done|]. rewrite Hlk. rewrite wp_bind. apply (wp_set_inode _ _ i); [done|]. rewrite wp_bind, wp_when.
  destruct (Z.eqb_spec (valid i) 0); [done|]. rewrite (proj2 (Z.eqb_eq (nlink i) 0) Hnl), (proj2 (Z.eqb_eq (iref i) 1) Hr).
  cbn [negb andb]. cbv iota. rewrite wp_when. cbv iota beta.
  set (i1 := {| i with ilk := true |}). set (s1 := with_cache s (<[ip := i1]> (icache s))).
  assert (icache s1 !! ip = Some i1) as Hi1 by (by apply list_lookup_insert_eq).
  rewrite wp_bind. apply (wp_itrunc s1 (S n) ip i1); try done; [by apply tx_with_cache|by destruct F; split|]. intros s2 T2 Tr.
  assert (icache s2 = <[ip := trunc_inode i1]> (icache s)) as I2 by (rewrite (tr_ic _ _ _ _ _ Tr); apply list_insert_insert_eq).
  rewrite wp_bind. eapply wp_set_inode; [rewrite I2; by apply list_lookup_insert_eq|]. rewrite I2, list_insert_insert_eq. cbv beta.
  match goal with |- wp _ _ (with_cache s2 (<[ip := ?x]> _)) => set (i3 := x) end. set (s3 := with_cache s2 (<[ip := i3]> (icache s))).
  pose proof (tr_sb _ _ _ _ _ Tr) as S2. change (fsb s1) with (fsb s) in S2.
  rewrite wp_bind. apply (wp_iupdate s3 n ip i3); try done;
    [by apply tx_with_cache|change (layout (V s2) (fsb s2)); rewrite S2; apply Tr|by apply list_lookup_insert_eq|change (fsb s3) with (fsb s2); by rewrite S2|].
  change (V s3) with (V s2). change (fsb s3) with (fsb s2). rewrite S2. intros s4 T4 [F1 F2 F3] E4. change (icache s3) with (<[ip := i3]> (icache s)) in F2.
  eapply wp_set_inode; [rewrite F2; by apply list_lookup_insert_eq|]. rewrite F2, list_insert_insert_eq. wp_steps.
  eapply wp_set_inode; [by apply list_lookup_insert_eq|]. wp_steps.
  eapply wp_set_inode; [cbn [icache with_cache]; apply list_lookup_insert_eq; by rewrite length_insert|].
  cbn [icache with_cache]. rewrite !list_insert_insert_eq. apply HQ; [by repeat apply tx_with_cache|].
  apply (disposed_written s s1 s2 _ ip i i1 i3); try done.
  - cbn. rewrite F1. exact S2.
  - eexists. split; [done|]. cbn. by rewrite Hr.
Qed.

(** ** [ialloc] *)

Definition inode_freeb (v : gmap Z (list Z)) (sb : superblock) (n : Z) : bool := get16 (inode_block v sb n) (dip n + DI_type) =? 0.
(** The disk after inode [n] was taken. *)
Definition inode_taken (v : gmap Z (list Z)) (sb : superblock) (n ty : Z) : gmap Z (list Z) :=
  <[IBLOCK n sb := put16 (put (inode_block v sb n) (dip n) (replicate 64 0)) (dip n + DI_type) ty]> v.

Lemma is_block_taken d n ty : is_block d -> is_block (put16 (put d (dip n) (replicate 64 0)) (dip n + DI_type) ty).
Proof.
  intros Hd. pose proof (dip_range n). apply is_block_put; [|apply is_bytes16|unfold DI_type; lia|cbn [length bytes16]; unfold DI_type, BSIZE; lia].
  apply is_block_put; [done|apply Forall_replicate; lia|lia|rewrite length_replicate; unfold BSIZE; lia].
Qed.

Lemma wp_ialloc_loop dv ty m : forall s n k (Q : nat -> fstate -> Prop),
  tx s [] (S k) -> layout (V s) (fsb s) -> 1 <= n -> n + Z.of_nat m = sb_ninodes (fsb s) ->
  (exists f, n <= f < sb_ninodes (fsb s) /\ inode_freeb (V s) (fsb s) f = true) ->
  (forall x, n <= x < sb_ninodes (fsb s) -> inode_freeb (V s) (fsb s) x = true -> cache_room (icache s) dv x) ->
  (forall x ip s', n <= x < sb_ninodes (fsb s) -> inode_freeb (V s) (fsb s) x = true -> (forall y, n <= y < x -> inode_freeb (V s) (fsb s) y = false) ->
     tx s' [] k -> V s' = inode_taken (V s) (fsb s) x ty -> fsb s' = fsb s -> fcwd s' = fcwd s -> got (icache s) (icache s') ip dv x -> Q ip s') ->
  wp (ialloc_loop dv ty (seqZ n (Z.of_nat m))) Q s.
Proof.
  induction m as [|m IH]; intros s n k Q T L H1 Hm (f & Hf & Ff) Hroom HQ; [lia|].
  rewrite seqZ_cons by lia. replace (Z.pred (Z.of_nat (S m))) with (Z.of_nat m) by lia. cbn [ialloc_loop]. wp_steps.
  destruct (layout_inode _ _ n L ltac:(lia)) as [Bd [d Hd]]. assert (inode_block (V s) (fsb s) n = d) as Ed by (unfold inode_block; by rewrite Hd).
  eapply wp_tx_bread; [exact T|by apply not_elem_of_nil|cbn; lia|by rewrite Hd|]. intros s1 T1 E1 F1 C1. wp_steps.
  eapply wp_tx_bdata; [exact T1|by left|by rewrite E1|]. rewrite Ed in Bd. pose proof (fr_sb _ _ F1) as S1. pose proof (fr_icache _ _ F1) as I1.
  assert (get16 d (dip n + DI_type) =? 0 = inode_freeb (V s) (fsb s) n) as Efree by (unfold inode_freeb; by rewrite Ed).
  rewrite Efree. destruct (inode_freeb (V s) (fsb s) n) eqn:En.
  - apply wp_tx_update with (h := []) (k := k); [done|by rewrite E1, Hd|by apply is_block_taken|rewrite S1; eapply home_inode; [done|lia]|].
    intros s2 T2 E2 [F2 I2 C2].
    destruct (Hroom n) as (R1 & R2 & R3); [lia|done|]. apply wp_iget; rewrite ?I2, ?I1; try done. intros ip l' G.
    apply (HQ n); try done; try lia; [by apply tx_with_cache| | |].
    + change (V (with_cache s2 l')) with (V s2). rewrite E2, E1. unfold inode_taken. by rewrite Ed.
    + cbn. congruence.
    + cbn. rewrite C2. apply (fr_cwd _ _ F1).
  - wp_steps. eapply wp_tx_brelse; [exact T1|exact C1|]. intros s2 T2 E2 F2. assert (frame s s2) as F by (by etrans).
    assert (V s2 = V s) as EV by congruence. pose proof (fr_sb _ _ F) as ES. pose proof (fr_icache _ _ F) as EI.
    replace (Z.succ n) with (n + 1) by lia. apply (IH s2 (n + 1) k); rewrite ?EV, ?ES, ?EI; try done; try lia.
    + exists f. split; [|done]. destruct (decide (f = n)) as [->|]; [congruence|lia].
    + intros x Hx. apply Hroom. lia.
    + intros x ip s' Hx Fx Hfirst T' E' S' C' G. apply (HQ x); try done; [lia| |by rewrite (fr_cwd _ _ F) in C'].
      intros y Hy. destruct (decide (y = n)) as [->|]; [done|]. apply Hfirst. lia.
Qed.
Lemma wp_ialloc s dv ty k (Q : nat -> fstate -> Prop) :
  tx s [] (S k) -> layout (V s) (fsb s) ->
  (exists f, 1 <= f < sb_ninodes (fsb s) /\ inode_freeb (V s) (fsb s) f = true) ->
  (forall x, 1 <= x < sb_ninodes (fsb s) -> inode_freeb (V s) (fsb s) x = true -> cache_room (icache s) dv x) ->
  (forall x ip s', 1 <= x < sb_ninodes (fsb s) -> inode_freeb (V s) (fsb s) x = true -> (forall y, 1 <= y < x -> inode_freeb (V s) (fsb s) y = false) ->
     tx s' [] k -> V s' = inode_taken (V s) (fsb s) x ty -> fsb s' = fsb s -> fcwd s' = fcwd s -> got (icache s) (icache s') ip dv x -> Q ip s') ->
  wp (ialloc dv ty) Q s.
Proof.
  intros T L He Hroom HQ. unfold ialloc. wp_steps. destruct He as (f & Hf & Ff).
  replace (sb_ninodes (fsb s) - 1) with (Z.of_nat (Z.to_nat (sb_ninodes (fsb s) - 1))) by lia.
  eapply (wp_ialloc_loop dv ty _ s 1 k); try done; [lia|]. by exists f.
Qed.

(** The inode taken is of the type given, empty and without links. *)
Lemma decode_inode_taken v sb n ty x :
  layout v sb -> 0 <= n < sb_ninodes sb -> is_s16 ty ->
  decode_inode (inode_block (inode_taken v sb n ty) sb n) (dip n) x =
    {| x with itype := ty; major := 0; minor := 0; nlink := 0; size := 0; addrs := replicate 13 0 |}.
Proof.
  intros L Hn Hty. destruct (layout_inode _ _ _ L Hn) as [[Bl _] _]. change (Z.to_nat BSIZE) with 512%nat in Bl. pose proof (dip_range n).
  unfold inode_block at 1, inode_taken. rewrite lookup_insert_eq. cbn [from_option id]. set (d := inode_block v sb n) in *.
  assert (length (put d (dip n) (replicate 64 0)) = 512%nat) as Hl by (rewrite length_put; rewrite ?length_replicate; lia).
  assert (forall o, 0 <= o < 64 -> byte_at (put d (dip n) (replicate 64 0)) (dip n + o) = 0) as Hz.
  { intros o Ho. rewrite byte_at_put by (rewrite ?length_replicate; lia). rewrite decide_True by (rewrite length_replicate; lia).
    unfold byte_at. destruct (_ !! _) eqn:E; [|done]. by apply lookup_replicate in E as [-> _]. }
  assert (forall o, 2 <= o < 64 -> byte_at (put16 (put d (dip n) (replicate 64 0)) (dip n + DI_type) ty) (dip n + o) = 0) as Hz2.
  { intros o Ho. unfold put16, DI_type. rewrite byte_at_put by (cbn [length bytes16]; lia). rewrite decide_False by (cbn [length bytes16]; lia). apply Hz. lia. }
  assert (forall o, 2 <= o < 63 -> s16 (get16 (put16 (put d (dip n) (replicate 64 0)) (dip n + DI_type) ty) (dip n + o)) = 0) as Hz16.
  { intros o Ho. unfold get16. rewrite <- Z.add_assoc, !Hz2 by lia. done. }
  assert (forall o, 2 <= o < 61 -> get32 (put16 (put d (dip n) (replicate 64 0)) (dip n + DI_type) ty) (dip n + o) = 0) as Hz32.
  { intros o Ho. unfold get32. rewrite <- !Z.add_assoc, !Hz2 by lia. done. }
  unfold decode_inode. unfold DI_major, DI_minor, DI_nlink, DI_size, DI_addrs. rewrite (Hz16 2), (Hz16 4), (Hz16 6), (Hz32 8) by lia. f_equal.
  - unfold put16. rewrite get16_put by (cbn [length bytes16]; unfold DI_type; lia). rewrite Z.sub_diag, get16_bytes16. by rewrite s16_u16.
  - transitivity ((fun _ : Z => 0) <$> seqZ 0 13); [|done]. apply list_fmap_ext. intros k o Ho. apply lookup_seqZ in Ho as [-> Ho].
    rewrite <- Z.add_assoc. apply Hz32. lia.
Qed.

(** ** What [iput] and [ialloc] promise *)

Section InodeSpec.
Variables (s : fstate) (k : nat) (ip : nat) (i : inode).
Hypothesis L : layout (V s) (fsb s).
Hypothesis Hi : icache s !! ip = Some i.

(** C27. The last [iput] of an inode without links frees exactly the blocks of
    the file, marks the inode on disk as free and empties the cache entry; all
    other inodes and data blocks are as before. *)
Theorem iput_frees :
  tx s [] (3 + k) -> one_bitmap_block (fsb s) -> file_inv (V s) (fsb s) i -> 0 <= inum i < sb_ninodes (fsb s) ->
  ilk i = false -> valid i ≠ 0 -> nlink i = 0 -> iref i = 1 ->
  wp (iput ip) (fun _ s' => disposed s s' ip i) s.
Proof. intros T Ho F Hn Hlk Hv Hnl Hr. eapply wp_iput_last; done. Qed.

(** [ialloc] takes the first free inode, makes it an empty file of the type
    without links on disk, and returns a reference to it. *)
Theorem ialloc_correct dv ty :
  tx s [] (S k) -> is_s16 ty ->
  (exists f, 1 <= f < sb_ninodes (fsb s) /\ inode_freeb (V s) (fsb s) f = true) ->
  (forall x, 1 <= x < sb_ninodes (fsb s) -> inode_freeb (V s) (fsb s) x = true -> cache_room (icache s) dv x) ->
  wp (ialloc dv ty) (fun r s' => exists n, 1 <= n < sb_ninodes (fsb s) /\ inode_freeb (V s) (fsb s) n = true /\
    (forall m, 1 <= m < n -> inode_freeb (V s) (fsb s) m = false) /\ got (icache s) (icache s') r dv n /\
    (forall x, decode_inode (inode_block (V s') (fsb s) n) (dip n) x =
       {| x with itype := ty; major := 0; minor := 0; nlink := 0; size := 0; addrs := replicate 13 0 |})) s.
Proof.
  intros T Hty He Hroom. eapply wp_ialloc; try done. intros x r s' Hx Fx First T' E' _ _ G. exists x. split_and!; try done; try lia.
  intros y. rewrite E'. apply decode_inode_taken; [done|lia|done].
Qed.

End InodeSpec.
