(* ===== verification/FsPath.v ===== *)
(** Path names: [skipelem] takes a path apart at its slashes, and [itoa] gives
    every process a swap file of its own. *)

From stdpp Require Import base gmap list strings.
From Stdlib Require Import ZArith Lia.
From S2P Require Import Prelude Files Block Log Fs.
Open Scope Z_scope.

(** ** Elements of a path *)

(** The pieces between slashes; the elements are those that are not empty. *)
Fixpoint pieces (path : list Z) : list (list Z) :=
  match path with
  | [] => [[]]
  | c :: path' =>
      if c =? SLASH then [] :: pieces path'
      else match pieces path' with e :: es => (c :: e) :: es | [] => [[c]] end
  end.
Definition elements (path : list Z) : list (list Z) := filter (.≠ []) (pieces path).
(** The string in an array of DIRSIZ characters. *)
Fixpoint name_of (n : nat) (a : list Z) : list Z :=
  match n, a with
  | S n', c :: a' => if c =? 0 then [] else c :: name_of n' a'
  | _, _ => []
  end.
Definition no_nul (path : list Z) : Prop := Forall (.≠ 0) path.

Lemma pieces_cons path : exists e es, pieces path = e :: es.
Proof. destruct path as [|c path]; cbn; [eauto|]. destruct (c =? SLASH); [eauto|]. destruct (pieces path); eauto. Qed.
Lemma elements_skip path : elements (skip_slashes path) = elements path.
Proof.
  induction path as [|c path IH]; [done|]. cbn [skip_slashes]. destruct (Z.eqb_spec c SLASH) as [->|]; [|done].
  rewrite IH. unfold elements. cbn [pieces]. change (SLASH =? SLASH) with true. cbv iota. by rewrite filter_cons_False by tauto.
Qed.
Lemma skip_slashes_head path c p : skip_slashes path = c :: p -> c ≠ SLASH.
Proof.
  induction path as [|x path IH]; [done|]. cbn. destruct (Z.eqb_spec x SLASH); [done|]. by intros [= -> ->].
Qed.
Lemma take_elem_pieces path e rest :
  take_elem path = (e, rest) ->
  match rest with
  | [] => pieces path = [e]
  | c :: rest' => c = SLASH /\ pieces path = e :: pieces rest'
  end.
Proof.
  revert e rest. induction path as [|c path IH]; intros e rest; cbn [take_elem pieces]; [by intros [= <- <-]|].
  destruct (Z.eqb_spec c SLASH) as [->|Hc]; [by intros [= <- <-]|]. destruct (take_elem path) as [e' rest'] eqn:E. intros [= <- <-].
  specialize (IH _ _ eq_refl). destruct rest' as [|x rest']; [by rewrite IH|]. destruct IH as [-> IH]. by rewrite IH.
Qed.
Lemma skip_slashes_nil path : skip_slashes path = [] <-> elements path = [].
Proof.
  rewrite <- elements_skip. destruct (skip_slashes path) as [|c p] eqn:E; [done|]. apply skip_slashes_head in E. split; [done|].
  unfold elements. cbn [pieces]. destruct (Z.eqb_spec c SLASH); [done|]. destruct (pieces_cons p) as (e & es & ->). by rewrite filter_cons_True.
Qed.
Lemma take_elem_app path e rest : take_elem path = (e, rest) -> path = e ++ rest.
Proof.
  revert e rest. induction path as [|c path IH]; intros e rest; cbn [take_elem]; [by intros [= <- <-]|].
  destruct (c =? SLASH); [by intros [= <- <-]|]. destruct (take_elem path) as [e' rest']. intros [= <- <-]. cbn. f_equal. by apply IH.
Qed.

Lemma name_of_take n s l : no_nul s -> (n <= length s)%nat -> name_of n (take n s ++ l) = take n s.
Proof.
  revert s. induction n as [|n IH]; intros s Hs Hl; [done|]. destruct s as [|c s]; [cbn in Hl; lia|]. apply Forall_cons in Hs as [Hc Hs].
  cbn. destruct (Z.eqb_spec c 0); [done|]. f_equal. apply IH; [done|]. cbn in Hl. lia.
Qed.
Lemma name_of_short n s l : no_nul s -> (length s < n)%nat -> name_of n (s ++ 0 :: l) = s.
Proof.
  revert s. induction n as [|n IH]; intros s Hs Hl; [lia|]. destruct s as [|c s]; [done|]. apply Forall_cons in Hs as [Hc Hs].
  cbn. destruct (Z.eqb_spec c 0); [done|]. f_equal. apply IH; [done|]. cbn in Hl. lia.
Qed.
Lemma no_nul_skip path : no_nul path -> no_nul (skip_slashes path).
Proof. induction path as [|c path IH]; [done|]. intros H. cbn. case_if; [|done]. apply Forall_cons in H as [_ H]. by apply IH. Qed.

(** [skipelem] gives the next element of the path, cut off after DIRSIZ
    characters, and a rest with the remaining elements, which is empty when
    there are none (this is how [namex] finds the parent directory); it fails
    when no element is left. *)
Theorem skipelem_elements path name :
  no_nul path ->
  match elements path with
  | [] => skipelem path name = None
  | e :: es => exists rest name', skipelem path name = Some (rest, name') /\ name_of DIRSIZ name' = take DIRSIZ e /\
                 elements rest = es /\ (rest = [] <-> es = []) /\ (length rest < length path)%nat /\ no_nul rest
  end.
Proof.
  intros Hp. unfold skipelem. rewrite <- elements_skip. pose proof (no_nul_skip _ Hp) as Hs.
  assert (length (skip_slashes path) <= length path)%nat as Hlen.
  { clear. induction path as [|c path IH]; [done|]. cbn. case_if; cbn; lia. }
  destruct (skip_slashes path) as [|c p] eqn:E; [done|]. apply skip_slashes_head in E.
  destruct (take_elem (c :: p)) as [e rest] eqn:Et. pose proof (take_elem_pieces _ _ _ Et) as Hpc. pose proof (take_elem_app _ _ _ Et) as Happ.
  assert (e ≠ []) as He. { cbn in Et. destruct (Z.eqb_spec c SLASH); [done|]. destruct (take_elem p). injection Et as <- <-. discriminate. }
  assert (elements (c :: p) = e :: elements rest) as Eel.
  { unfold elements at 1. destruct rest as [|x rest']; [rewrite Hpc; by rewrite filter_cons_True|]. destruct Hpc as [-> Hpc]. rewrite Hpc.
    rewrite filter_cons_True by done. done. }
  rewrite Eel. rewrite Happ in Hs. apply Forall_app in Hs as [Hse Hsr].
  eexists _, _. split; [done|]. split; [|split_and!].
  - destruct (Nat.leb_spec DIRSIZ (length e)) as [Hd|Hd].
    + rewrite <- (app_nil_r (take DIRSIZ e)) at 1. by apply name_of_take.
    + cbn [app]. rewrite name_of_short by done. by rewrite take_ge by lia.
  - apply elements_skip.
  - apply skip_slashes_nil.
  - apply (f_equal length) in Happ. rewrite length_app in Happ. assert (length (skip_slashes rest) <= length rest)%nat.
    { clear. induction rest as [|y l IH]; [done|]. cbn. case_if; cbn; lia. } destruct e; [done|]. cbn [length] in *. lia.
  - by apply no_nul_skip.
Qed.
(** "/usr//bin/" and a name of 16 characters *)
Lemma skipelem_elements_witness : elements [47;117;115;114;47;47;98;105;110;47] = [[117;115;114];[98;105;110]] /\
  exists rest name', skipelem (replicate 16 97 ++ [47;98]) (replicate 14 0) = Some (rest, name') /\ name_of DIRSIZ name' = replicate 14 97 /\ rest = [98].
Proof.
  split; [reflexivity|]. pose proof (skipelem_elements (replicate 16 97 ++ [47;98]) (replicate 14 0)) as H.
  destruct H as (rest & name' & H1 & H2 & _); [repeat constructor; discriminate|]. exists rest, name'. split; [done|]. split; [exact H2|].
  vm_compute in H1. injection H1 as <- _. reflexivity.
Defined.

(** ** Names of swap files *)

Definition undigits (l : list Z) : Z := foldr (fun d a => d - 48 + 10 * a) 0 l.
Lemma undigits_digits fuel : forall i, 0 <= i < 10 ^ Z.of_nat fuel -> undigits (digits i fuel) = i.
Proof.
  induction fuel as [|fuel IH]; intros i Hi; [cbn in Hi |- *; lia|]. cbn [digits undigits foldr]. fold (undigits (if i / 10 =? 0 then [] else digits (i / 10) fuel)).
  rewrite Nat2Z.inj_succ, Z.pow_succ_r in Hi by lia. destruct (Z.eqb_spec (i / 10) 0) as [E|E].
  - cbn. zlia.
  - rewrite IH by (split; [zlia|]; apply Z.div_lt_upper_bound; lia). zlia.
Qed.
(** The number of digits. *)
Lemma length_digits fuel : forall i k, 0 <= i < 10 ^ Z.of_nat fuel -> (0 < fuel)%nat ->
  (length (digits i fuel) <= S k)%nat <-> i < 10 ^ Z.of_nat (S k).
Proof.
  induction fuel as [|fuel IH]; intros i k Hi Hf; [lia|]. cbn [digits length]. destruct (Z.eqb_spec (i / 10) 0) as [E|E].
  - cbn [length]. rewrite Nat2Z.inj_succ, Z.pow_succ_r by lia. pose proof (Z.pow_pos_nonneg 10 (Z.of_nat k)).
    split; [intros _; zlia|]. intros _. lia.
  - rewrite Nat2Z.inj_succ, Z.pow_succ_r in Hi by lia. destruct k as [|k].
    { split; [|change (10 ^ Z.of_nat 1) with 10; zlia]. destruct fuel as [|fuel]; [cbn in Hi; zlia|]. cbn [digits length]. lia. }
    assert (0 <= i / 10 < 10 ^ Z.of_nat fuel) as Hq by (split; [zlia|]; apply Z.div_lt_upper_bound; lia).
    assert (0 < fuel)%nat as Hf' by (destruct fuel; [cbn in Hi; zlia|lia]). specialize (IH (i / 10) k Hq Hf').
    rewrite (Nat2Z.inj_succ (S k)), Z.pow_succ_r by lia. rewrite <- Nat.succ_le_mono, IH.
    assert (10 * (i / 10) <= i < 10 * (i / 10) + 10) by zlia. lia.
Qed.

(** Two processes have different swap files, and the name of a swap file
    ends in the decimal digits of the process number. With its terminating zero
    it fits into the arrays [path] of createSwapFile and removeSwapFile exactly
    if the process number is below ten million. *)
Theorem swap_path_bounds pid :
  0 <= pid < 2147483648 ->
  ((length (swap_path pid) < DIGITS)%nat <-> pid < 10000000) /\
  undigits (reverse (drop (length SWAP_PREFIX) (swap_path pid))) = pid /\
  (forall pid', 0 <= pid' < 2147483648 -> swap_path pid' = swap_path pid -> pid' = pid).
Proof.
  assert (forall p, 0 <= p < 2147483648 -> swap_path p = SWAP_PREFIX ++ rev (digits p 10) /\ 0 <= p < 10 ^ Z.of_nat 10) as Hp.
  { intros p H. split; [|change (10 ^ Z.of_nat 10) with 10000000000; lia]. unfold swap_path, itoa. by destruct (Z.ltb_spec p 0); [lia|]. }
  intros H. destruct (Hp pid H) as [E R]. split_and!.
  - rewrite E, length_app, length_rev. change (length SWAP_PREFIX) with 6%nat. unfold DIGITS.
    rewrite <- (length_digits 10 pid 6 R) by lia. change (10 ^ Z.of_nat 7) with 10000000. lia.
  - rewrite E. rewrite drop_app_length. unfold reverse. rewrite <- rev_alt, rev_involutive. by apply undigits_digits.
  - intros pid' H'. destruct (Hp pid' H') as [E' R']. rewrite E, E'. intros Ea. apply app_inv_head in Ea.
    apply (f_equal (@rev Z)) in Ea. rewrite !rev_involutive in Ea. rewrite <- (undigits_digits 10 pid' R'), <- (undigits_digits 10 pid R). by rewrite Ea.
Qed.
Lemma swap_path_bounds_witness : (length (swap_path 9999999) < DIGITS)%nat /\ ~ (length (swap_path 10000000) < DIGITS)%nat.
Proof.
  split.
  - apply (swap_path_bounds 9999999); lia.
  - intros H. apply (swap_path_bounds 10000000) in H; lia.
Defined.
