(* ===== verification/FsOp.v ===== *)
(** A file-system operation between [begin_op] and [end_op]: what code inside
    it leaves alone, and the commit at its end. *)

From stdpp Require Import base gmap list strings.
From Stdlib Require Import ZArith Lia.
From S2P Require Import Prelude Files Block Log Fs FsTx FsAlloc FsFile FsDir FsInode.
Open Scope Z_scope.

(** ** Code inside an operation *)

(** The disk and the counters of the log stay as they are. *)
Record lframe (s s' : fstate) : Prop := {
  lf_disk : disk (st (fl s')) = disk (st (fl s));
  lf_start : start (lg (fl s')) = start (lg (fl s));
  lf_size : log_size (lg (fl s')) = log_size (lg (fl s));
  lf_out : outstanding (lg (fl s')) = outstanding (lg (fl s));
  lf_comm : committing (lg (fl s')) = committing (lg (fl s))
}.
#[export] Instance lframe_preorder : PreOrder lframe.
Proof. split; [done|]. intros s1 s2 s3 [? ? ? ? ?] [? ? ? ? ?]. split; congruence. Qed.

(** Code that neither writes to the disk nor begins or ends an operation. *)
Definition stays {A} (m : M fstate A) : Prop := forall s a s', m s = Ok a s' -> lframe s s'.

Create HintDb stays.
Lemma stays_ret {A} (a : A) : stays (mret a).
Proof. by intros s x s' [= _ <-]. Qed.
Lemma stays_bind {A B} (m : M fstate A) (f : A -> M fstate B) : stays m -> (forall a, stays (f a)) -> stays (m ≫= f).
Proof. intros Hm Hf s b s'' (a & s' & H1 & H2)%bind_Ok. etrans; [by eapply Hm|by eapply Hf]. Qed.
Lemma stays_gets {A} (f : fstate -> A) : stays (gets f).
Proof. by intros s x s' [= _ <-]. Qed.
Lemma stays_panic {A} e : stays (panic (A := A) e).
Proof. by intros s x s' [=]. Qed.
Lemma stays_diverge {A} : stays (diverge (A := A)).
Proof. by intros s x s' [=]. Qed.
Lemma stays_when b (m : M fstate unit) : stays m -> stays (when b m).
Proof. destruct b; [done|]. intros _. apply stays_ret. Qed.
Lemma stays_for_each {A} (l : list A) (body : A -> M fstate unit) : (forall x, stays (body x)) -> stays (for_each l body).
Proof. intros H. induction l as [|x l IH]; cbn; [apply stays_ret|]. by apply stays_bind. Qed.
Lemma stays_get_inode ip : stays (get_inode ip).
Proof. intros s x s'. unfold get_inode. destruct (icache s !! ip); [|done]. by intros [= _ <-]. Qed.
Lemma stays_set_inode ip f : stays (set_inode ip f).
Proof. by intros s x s' [= _ <-]. Qed.
Lemma stays_blk {A} (m : M store A) : (forall t a t', m t = Ok a t' -> disk t' = disk t) -> stays (on_blk m).
Proof.
  intros H s a s'. unfold on_blk, on_log, on_store, zoom. destruct (m (st (fl s))) as [x t| | |] eqn:E; [|done..]. intros [= _ <-].
  split; try done. cbn. by eapply H.
Qed.
Lemma stays_bread b : stays (on_blk (bread b)).
Proof.
  apply stays_blk. intros t a t'. unfold bread. case_decide; [done|]. case_decide; [|done]. destruct (disk t !! b); [|done]. by intros [= _ <-].
Qed.
Lemma stays_bdata b : stays (on_blk (bdata b)).
Proof. apply stays_blk. intros t a t'. unfold bdata. case_decide; [|done]. destruct (vw t !! b); [|done]. by intros [= _ <-]. Qed.
Lemma stays_set_bdata b d : stays (on_blk (set_bdata b d)).
Proof. apply stays_blk. intros t a t'. unfold set_bdata. case_decide; [|done]. by intros [= _ <-]. Qed.
Lemma stays_brelse b : stays (on_blk (brelse b)).
Proof. apply stays_blk. intros t a t'. unfold brelse. repeat case_match; try done. all: by intros [= _ <-]. Qed.
Lemma stays_log_write b : stays (on_log (log_write b)).
Proof.
  intros s a s'. unfold on_log, zoom. destruct (log_write b (fl s)) as [x t| | |] eqn:E; [|done..]. intros [= _ <-].
  unfold log_write in E. apply bind_Ok in E as (l & s1 & [= <- <-] & E). case_match; [done|]. case_match; [done|].
  apply bind_Ok in E as (u & s2 & E1 & E). unfold set_lh in E1. destruct (_ && _) in E1; [|done]. injection E1 as <- <-.
  apply bind_Ok in E as (u2 & s3 & E2 & E). unfold on_store, zoom, bpin in E.
  unfold when, set_log in E2. destruct (_ =? lh_n _) in E2; injection E2 as <- <-; injection E as <- <-; by split.
Qed.
#[export] Hint Resolve stays_ret stays_gets stays_panic stays_diverge stays_get_inode stays_set_inode stays_bread stays_bdata
  stays_set_bdata stays_brelse stays_log_write : stays.

(** Takes a computation apart. *)
Ltac stays_step :=
  match goal with
  | |- stays (mbind _ _) => apply stays_bind; [|intros ?]
  | |- stays (when _ _) => apply stays_when
  | |- stays (for_each _ _) => apply stays_for_each; intros ?
  | |- stays (if ?b then _ else _) => destruct b
  | |- stays (match ?x with _ => _ end) => destruct x
  | |- stays (let _ := _ in _) => cbv zeta
  | |- stays _ => solve [auto with stays]
  end.
Ltac stays_tac := repeat stays_step.

Lemma stays_bzero b : stays (bzero b).
Proof. unfold bzero. stays_tac. Qed.
#[export] Hint Resolve stays_bzero : stays.
Lemma stays_balloc_loop fuel : forall b, stays (balloc_loop b fuel).
Proof. induction fuel; intros b; cbn [balloc_loop]; stays_tac. Qed.
#[export] Hint Resolve stays_balloc_loop : stays.
Lemma stays_balloc : stays balloc.
Proof. unfold balloc. stays_tac. Qed.
Lemma stays_bfree b : stays (bfree b).
Proof. unfold bfree. stays_tac. Qed.
Lemma stays_iupdate ip : stays (iupdate ip).
Proof. unfold iupdate. stays_tac. Qed.
Lemma stays_set_addr ip k a : stays (set_addr ip k a).
Proof. unfold set_addr. stays_tac. Qed.
#[export] Hint Resolve stays_balloc stays_bfree stays_iupdate stays_set_addr : stays.
Lemma stays_bmap_direct ip k : stays (bmap_direct ip k).
Proof. unfold bmap_direct. stays_tac. Qed.
#[export] Hint Resolve stays_bmap_direct : stays.
Lemma stays_bmap ip bn : stays (bmap ip bn).
Proof. unfold bmap. stays_tac. Qed.
Lemma stays_itrunc_direct ip k : stays (itrunc_direct ip k).
Proof. unfold itrunc_direct. stays_tac. Qed.
#[export] Hint Resolve stays_bmap stays_itrunc_direct : stays.
Lemma stays_itrunc ip : stays (itrunc ip).
Proof. unfold itrunc. stays_tac. Qed.
Lemma stays_ilock p : stays (ilock p).
Proof. unfold ilock. stays_tac. Qed.
Lemma stays_iunlock p : stays (iunlock p).
Proof. unfold iunlock. stays_tac. Qed.
#[export] Hint Resolve stays_itrunc stays_ilock stays_iunlock : stays.
Lemma stays_iput ip : stays (iput ip).
Proof. unfold iput. stays_tac. Qed.
Lemma stays_iget dv n : stays (iget dv n).
Proof. unfold iget. stays_tac. Qed.
#[export] Hint Resolve stays_iput stays_iget : stays.
Lemma stays_iunlockput ip : stays (iunlockput ip).
Proof. unfold iunlockput. stays_tac. Qed.
Lemma stays_ialloc_loop dv ty ns : stays (ialloc_loop dv ty ns).
Proof. induction ns; cbn [ialloc_loop]; stays_tac. Qed.
#[export] Hint Resolve stays_iunlockput stays_ialloc_loop : stays.
Lemma stays_ialloc dv ty : stays (ialloc dv ty).
Proof. unfold ialloc. stays_tac. Qed.
#[export] Hint Resolve stays_ialloc : stays.

Lemma stays_readi_loop ip fuel : forall off n, stays (readi_loop ip off n fuel).
Proof. induction fuel; intros off n; cbn [readi_loop]; stays_tac. Qed.
Lemma stays_writei_loop ip fuel : forall src off, stays (writei_loop ip src off fuel).
Proof. induction fuel; intros src off; destruct src; cbn [writei_loop]; stays_tac. Qed.
#[export] Hint Resolve stays_readi_loop stays_writei_loop : stays.

(** Code in a given state, for the calls that may go to a device. *)
Definition stays_at {A} (s : fstate) (m : M fstate A) : Prop := forall a s', m s = Ok a s' -> lframe s s'.
Lemma stays_stays_at {A} s (m : M fstate A) : stays m -> stays_at s m.
Proof. intros H a s'. apply H. Qed.
#[export] Hint Resolve stays_stays_at : stays.
Lemma wp_stays {A} (m : M fstate A) (Q : A -> fstate -> Prop) s : stays_at s m -> wp m (fun a s' => lframe s s' -> Q a s') s -> wp m Q s.
Proof. intros Hm. unfold wp. destruct (m s) as [a s'| | |] eqn:E; try done. intros H. apply H. by eapply Hm. Qed.
Lemma stays_at_get_inode {A} s ip i (m : inode -> M fstate A) :
  icache s !! ip = Some i -> stays_at s (m i) -> stays_at s (get_inode ip ≫= m).
Proof.
  intros Hi Hm a s' (j & s1 & E1 & E2)%bind_Ok. unfold get_inode in E1. rewrite Hi in E1. injection E1 as <- <-. by eapply Hm.
Qed.
Lemma stays_at_readi `{DevSwitch} s ip i off n : icache s !! ip = Some i -> itype i ≠ T_DEV -> stays_at s (readi ip off n).
Proof.
  intros Hi Ht. unfold readi. eapply stays_at_get_inode; [done|]. destruct (Z.eqb_spec (itype i) T_DEV); [done|]. apply stays_stays_at. stays_tac.
Qed.
Lemma stays_at_writei `{DevSwitch} s ip i src off : icache s !! ip = Some i -> itype i ≠ T_DEV -> stays_at s (writei ip src off).
Proof.
  intros Hi Ht. unfold writei. eapply stays_at_get_inode; [done|]. destruct (Z.eqb_spec (itype i) T_DEV); [done|]. apply stays_stays_at. stays_tac.
Qed.

(** ** Between operations *)

(** No operation is under way and the log is empty. *)
Record idle (s : fstate) : Prop := {
  id_pending : pending (fl s) [] [];
  id_out : outstanding (lg (fl s)) = 0;
  id_comm : committing (lg (fl s)) = 0;
  id_size : log_size (lg (fl s)) = LOGSIZE;
  id_start : start (lg (fl s)) = sb_logstart (fsb s)
}.
(** One operation is under way. *)
Record busy (s : fstate) : Prop := {
  bs_out : outstanding (lg (fl s)) = 1;
  bs_comm : committing (lg (fl s)) = 0;
  bs_size : log_size (lg (fl s)) = LOGSIZE;
  bs_start : start (lg (fl s)) = sb_logstart (fsb s);
  bs_log : forall b, in_log (start (lg (fl s))) b -> is_Some (disk (st (fl s)) !! b);
  bs_head : exists h, disk (st (fl s)) !! start (lg (fl s)) = Some h /\ header_n h = 0
}.
Lemma busy_lframe s s' : lframe s s' -> fsb s' = fsb s -> busy s -> busy s'.
Proof. intros [E1 E2 E3 E4 E5] E6 [H1 H2 H3 H4 H5 H6]. split; rewrite ?E1, ?E2, ?E3, ?E4, ?E5, ?E6; done. Qed.

(** The room that one operation alone has in the log. *)
Definition OPROOM : nat := 27.
Definition opened (s : fstate) : fstate :=
  {| s with fl := {| (fl s) with lg := {| (lg (fl s)) with outstanding := 1 |} |} |}.
Lemma wp_begin_op s (Q : unit -> fstate -> Prop) :
  idle s -> (tx (opened s) [] OPROOM -> busy (opened s) -> Q tt (opened s)) -> wp (on_log begin_op) Q s.
Proof.
  intros [[P1 P2 P3 P4 P5 P6 P7 P8 P9 P10 P11 P12] H2 H3 H4 H5] HQ. unfold on_log. rewrite wp_zoom. unfold begin_op, begin_op_try. wp_steps.
  rewrite H3, P3, H2. change (LOGSIZE <? _) with false. cbn [negb Z.eqb]. unfold set_log. wp_steps. rewrite H2. apply HQ.
  - split; cbn; [done|done| |done|].
    + exists []. rewrite H4. split_and!; try done. vm_compute. lia.
    + intros b Hb. rewrite P6 in Hb. by apply elem_of_empty in Hb.
  - by split.
Qed.

(** The state after an operation, or a pause between operations, that changed
    only the log on the disk. *)
Record settled (s s' : fstate) : Prop := {
  se_data : same_data (sb_logstart (fsb s)) (V s) (V s');
  se_log : forall b, in_log (sb_logstart (fsb s)) b -> is_Some (V s' !! b);
  se_block : forall b d, V s' !! b = Some d -> is_block d;
  se_sb : fsb s' = fsb s;
  se_ic : icache s' = icache s;
  se_cwd : fcwd s' = fcwd s
}.

Lemma tx_pending s k : tx s [] k -> busy s -> exists bs vs, pending (fl s) bs vs.
Proof.
  intros [H1 H2 (bs & L1 & L2 & L3 & L4 & L5 & L6 & L7) H4 H5] [B1 B2 B3 B4 B5 B6].
  destruct (Forall2_exists (fun b d => vw (st (fl s)) !! b = Some d) bs) as [vs Hvs].
  { apply Forall_forall. intros b Hb. apply (H5 b). rewrite L4. by apply elem_of_list_to_set. }
  exists bs, vs. split; try done; [|lia]. apply Forall_forall. intros b Hb. rewrite B4. apply (H5 b). rewrite L4. by apply elem_of_list_to_set.
Qed.

(** What [commit] does to the log that holds blocks of a transaction, or none. *)
Lemma wp_commit_any s bs vs (Q : unit -> lstate -> Prop) :
  pending s bs vs ->
  (forall s', pending s' [] [] -> lg s' = {| (lg s) with lh_n := 0 |} -> same_data (start (lg s)) (vw (st s)) (vw (st s')) -> Q tt s') ->
  wp commit Q s.
Proof.
  intros Hp HQ. destruct (decide (bs = [])) as [->|Hne].
  - assert (vs = []) as -> by (eapply Forall2_nil_inv_l, (pd_vs _ _ _ Hp)). pose proof (pd_n _ _ _ Hp) as Hn. unfold commit. wp_steps. rewrite Hn. cbn.
    apply HQ; [done| |done]. destruct s as [t l]. destruct l. cbn in *. by subst.
  - eapply wp_mono; [by eapply (wp_commit s bs vs)|]. intros [] s' (h1 & h2 & B1 & N1 & _ & B2 & N2 & ->). apply HQ; [by apply pending_committed|done|].
    cbn. intros b Hb. rewrite <- (pending_new _ _ _ _ Hp Hb). rewrite <- (commit_writes_data _ _ _ h1 h2 Hp b Hb). symmetry.
    pose proof (pending_committed _ _ _ h1 h2 Hp B1 B2 N2) as Hp'. cbv zeta in Hp'.
    apply (so_clean _ (pd_store _ _ _ Hp')); [apply not_elem_of_empty|apply not_elem_of_nil].
Qed.

Lemma wp_end_op s k (Q : unit -> fstate -> Prop) :
  tx s [] k -> busy s -> (forall s', idle s' -> settled s s' -> Q tt s') -> wp (on_log end_op) Q s.
Proof.
  intros T B HQ. destruct (tx_pending _ _ T B) as (bs & vs & Hp). destruct B as [B1 B2 B3 B4 B5 B6].
  unfold on_log. rewrite wp_zoom. unfold end_op, end_op_enter, end_op_leave, set_log. wp_steps. cbn [st lg committing outstanding]. rewrite B1, B2.
  change (negb (0 =? 0)) with false. change (1 - 1 =? 0) with true. cbv iota. wp_steps.
  pose proof (pending_counters _ 0 1 _ _ Hp) as Hp'.
  eapply wp_commit_any; [exact Hp'|]. intros l' Hl' El Hd. wp_steps. cbn in El, Hd. apply HQ.
  - pose proof (pending_counters _ 0 0 _ _ Hl') as Hl''. destruct l' as [t l]. cbn in El. subst l. split; cbn; done.
  - pose proof (pd_store _ _ _ Hl') as Hso. split; cbn; unfold V; cbn; try done.
    + by rewrite <- B4.
    + intros b Hb. apply (so_dom _ Hso), (pd_log _ _ _ Hl'). by rewrite El, B4.
    + apply (so_blocks _ Hso).
Qed.

(** ** What survives the end of an operation *)

Section Settled.
Variables (s s' : fstate) (S : settled s s').
Hypothesis L : layout (V s) (fsb s).
Notation sb := (fsb s).

Lemma settled_home b : home sb b -> V s' !! b = V s !! b.
Proof. intros [H _]. symmetry. by apply (se_data _ _ S). Qed.
Lemma settled_use b : 0 <= b < sb_size sb -> in_use (V s') sb b = in_use (V s) sb b.
Proof. intros Hb. unfold in_use. by rewrite settled_home by (by eapply home_bmap). Qed.
Lemma settled_nfree : nfree (V s') sb = nfree (V s) sb.
Proof. apply nfree_ext. apply settled_use. Qed.
Lemma settled_inode n : 0 <= n < sb_ninodes sb -> inode_block (V s') sb n = inode_block (V s) sb n.
Proof. intros Hn. unfold inode_block. by rewrite settled_home by (by eapply home_inode). Qed.
Lemma settled_layout : layout (V s') sb.
Proof.
  destruct L as [L1 L2 L3 L4 L5 L6 L7 L8 L9]. split; try done.
  - intros b Hb. destruct (decide (in_log (sb_logstart sb) b)) as [Hl|Hl]; [by apply (se_log _ _ S)|]. rewrite <- (se_data _ _ S) by done. by apply L3.
  - apply (se_block _ _ S).
  - intros b Hb. rewrite settled_use by lia. by apply L8.
Qed.
Lemma settled_owned x b : file_ok (V s) sb x -> owns (V s) x b -> V s' !! b = V s !! b /\ (in_use (V s) sb b = true -> in_use (V s') sb b = true).
Proof.
  intros F Ho. destruct (owns_data _ _ _ _ L (fo_inv _ _ _ F) Ho) as [D U]. split; [by eapply settled_home, home_data|].
  intros _. rewrite settled_use; [done|]. pose proof (data_block_range _ _ _ L D). lia.
Qed.
Lemma settled_file x : file_ok (V s) sb x -> file_ok (V s') sb x /\ content (V s') x = content (V s) x.
Proof. intros F. apply file_ok_ext; [done|]. intros b Hb. by eapply settled_owned. Qed.
Lemma settled_synced x : file_ok (V s) sb x -> synced (V s) sb x -> synced (V s') sb x.
Proof. intros F Hs. unfold synced. rewrite settled_inode by apply F. apply Hs. Qed.
Lemma settled_slot x j : file_ok (V s) sb x -> slot (V s') x j = slot (V s) x j.
Proof. intros F. apply slot_ext. intros Hi. eapply (settled_owned x); [done|]. split; [done|]. by exists SLOT_IND. Qed.
Lemma settled_disjoint x y :
  file_ok (V s) sb x -> file_ok (V s) sb y -> disjoint_files (V s) x y -> disjoint_files (V s') x y.
Proof.
  intros Fx Fy Hd b (Hz & j & Hj & Ej) (_ & j' & Hj' & Ej'). rewrite settled_slot in Ej, Ej' by done.
  apply (Hd b); (split; [done|]); [by exists j|by exists j'].
Qed.
End Settled.
