(* ===== verification/File.v ===== *)
(** The table of open files and the operations on them (file.c). Reads and
    writes of files are shown to implement the reads and writes at an offset of
    Files.v, which is the view that the paging code has of its swap file. *)

From stdpp Require Import base gmap list strings.
From Stdlib Require Import ZArith Lia.
From S2P Require Import Pipe.
From S2P Require Import Prelude Files Block Log Fs FsTx FsAlloc FsFile FsDir FsInode FsOp.
Open Scope Z_scope.

(** ** State *)

Definition NFILE : nat := 100.
Definition NOFILE : nat := 16.

Inductive fdtype := FD_NONE | FD_PIPE | FD_INODE.
#[export] Instance fdtype_eq_dec : EqDecision fdtype.
Proof. solve_decision. Defined.

(** [struct file]; pointers are positions in the tables of pipes and inodes. *)
Record file := mk_file {
  ftype : fdtype;
  fref : Z;
  readable : Z;
  writable : Z;
  fpipe : option nat;
  fip : option nat;
  foff : Z
}.
Definition file_zero : file := mk_file FD_NONE 0 0 0 None None 0.

(** The file system, [ftable.file], the pipes in use and, for each process,
    [ofile], [swapFile] and [pid]. [kcur] is the process that runs. *)
Record ftstate := mk_ftstate {
  kfs : fstate;
  ftable : list file;
  kpipes : gmap nat Pipe.pipe;
  ofiles : list (list (option nat));
  swapfile : list (option nat);
  pids : list Z;
  kcur : nat
}.

Definition on_fs {A} (m : M fstate A) : M ftstate A := zoom kfs (fun t s => {| s with kfs := t |}) m.
Definition get_file (f : nat) : M ftstate file := fun s =>
  match ftable s !! f with Some x => Ok x s | None => UB end.
Definition set_file (f : nat) (g : file -> file) : M ftstate unit :=
  modify (fun s => {| s with ftable := alter g f (ftable s) |}).
Definition get_pipe (p : option nat) : M ftstate (nat * Pipe.pipe) := fun s =>
  match p with
  | None => UB
  | Some q => match kpipes s !! q with Some x => Ok (q, x) s | None => UB end
  end.
Definition set_pipe (q : nat) (x : Pipe.pipe) : M ftstate unit :=
  modify (fun s => {| s with kpipes := <[q := x]> (kpipes s) |}).
Definition free_pipe (q : nat) : M ftstate unit :=
  modify (fun s => {| s with kpipes := delete q (kpipes s) |}).
(** Access through a pointer to an inode. *)
Definition deref (p : option nat) : M ftstate nat := match p with Some ip => mret ip | None => ub end.

(** ** Allocation and references *)

(** The first entry that is not referenced. *)
Fixpoint free_entry (l : list file) (i : nat) : option nat :=
  match l with
  | [] => None
  | x :: l' => if fref x =? 0 then Some i else free_entry l' (S i)
  end.
Definition filealloc : M ftstate (option nat) :=
  l ← gets ftable;
  match free_entry l 0 with
  | Some f => set_file f (fun x => {| x with fref := 1 |}) ;; mret (Some f)
  | None => mret None
  end.
Definition filedup (f : nat) : M ftstate nat :=
  x ← get_file f;
  if fref x <? 1 then panic "filedup" else
  set_file f (fun x => {| x with fref := s32 (fref x + 1) |}) ;;
  mret f.

(** The call of pipeclose: the page goes back when both ends are closed. *)
Definition close_pipe (p : option nat) (w : Z) : M ftstate unit :=
  '(q, x) ← get_pipe p;
  let '(x', _, freed) := Pipe.pipeclose x (negb (w =? 0)) in
  if (freed : bool) then free_pipe q else set_pipe q x'.
Definition fileclose (f : nat) : M ftstate unit :=
  x ← get_file f;
  if fref x <? 1 then panic "fileclose" else
  set_file f (fun x => {| x with fref := s32 (fref x - 1) |}) ;;
  if 0 <? fref x - 1 then mret tt else
  set_file f (fun x => {| x with fref := 0; ftype := FD_NONE |}) ;;
  match ftype x with
  | FD_PIPE => close_pipe (fpipe x) (writable x)
  | FD_INODE => on_fs (on_log begin_op) ;; ip ← deref (fip x); on_fs (iput ip) ;; on_fs (on_log end_op)
  | FD_NONE => mret tt
  end.

(** The result -1 is [None]. *)
Definition filestat (f : nat) : M ftstate (option stat) :=
  x ← get_file f;
  match ftype x with
  | FD_INODE =>
      on_fs (ilock (fip x)) ;;
      ip ← deref (fip x);
      r ← on_fs (stati ip);
      on_fs (iunlock (fip x)) ;;
      mret (Some r)
  | _ => mret None
  end.

(** ** Reading and writing *)

(** A process that sleeps with nobody to wake it up waits for ever. *)
Definition read_pipe (p : option nat) (n : Z) : M ftstate (option (list Z)) :=
  '(q, x) ← get_pipe p;
  let '(x', _, e, bs) := Pipe.piperead false x n in
  set_pipe q x' ;;
  match e with Pipe.Returns r => mret (if r <? 0 then None else Some bs) | Pipe.Sleeps _ _ => diverge end.
Definition write_pipe (p : option nat) (src : list Z) : M ftstate Z :=
  '(q, x) ← get_pipe p;
  let '(x', _, e) := Pipe.pipewrite false x src in
  set_pipe q x' ;;
  match e with Pipe.Returns r => mret r | Pipe.Sleeps _ _ => diverge end.

Section FileOps.
Context {DS : DevSwitch}.

(** The bytes read, or [None] for -1. *)
Definition fileread (f : nat) (n : Z) : M ftstate (option (list Z)) :=
  x ← get_file f;
  if readable x =? 0 then mret None else
  match ftype x with
  | FD_PIPE => read_pipe (fpipe x) n
  | FD_INODE =>
      on_fs (ilock (fip x)) ;;
      ip ← deref (fip x);
      r ← on_fs (readi ip (foff x) (u32 n));
      (match r with
       | Some bs => when (0 <? Z.of_nat (length bs)) (set_file f (fun x => {| x with foff := u32 (foff x + Z.of_nat (length bs)) |}))
       | None => mret tt
       end) ;;
      on_fs (iunlock (fip x)) ;;
      mret r
  | FD_NONE => panic "fileread"
  end.

(** One transaction of [filewrite]; the result is that of [writei]. *)
Definition write_piece (f : nat) (piece : list Z) : M ftstate Z :=
  x ← get_file f;
  on_fs (on_log begin_op) ;;
  on_fs (ilock (fip x)) ;;
  ip ← deref (fip x);
  r ← on_fs (writei ip piece (foff x));
  when (0 <? r) (set_file f (fun x => {| x with foff := u32 (foff x + r) |})) ;;
  on_fs (iunlock (fip x)) ;;
  on_fs (on_log end_op) ;;
  mret r.
(** The loop of [filewrite], with the bytes that are still to be written. *)
Fixpoint filewrite_pieces (f : nat) (src : list Z) (fuel : nat) : M ftstate bool :=
  match src with
  | [] => mret true
  | _ =>
      match fuel with
      | O => diverge
      | S fuel' =>
          let piece := take FILEWRITE_MAX src in
          r ← write_piece f piece;
          if r <? 0 then mret false
          else if negb (r =? Z.of_nat (length piece)) then panic "short filewrite"
          else filewrite_pieces f (drop (Z.to_nat r) src) fuel'
      end
  end.
Definition filewrite (f : nat) (src : list Z) : M ftstate Z :=
  x ← get_file f;
  if writable x =? 0 then mret (-1) else
  match ftype x with
  | FD_PIPE => write_pipe (fpipe x) src
  | FD_INODE =>
      ok ← filewrite_pieces f src (length src);
      mret (if (ok : bool) then Z.of_nat (length src) else -1)
  | FD_NONE => panic "filewrite"
  end.
End FileOps.

(** ** Transfer of the state of a file across the steps of a write *)

Definition locked (i : inode) (b : bool) : inode := {| i with ilk := b |}.

Lemma file_ok_locked v sb i b : file_ok v sb i <-> file_ok v sb (locked i b).
Proof. split; intros [[F1 F2 F3] H2 H3 H4]; split; try done; by split. Qed.
Lemma synced_locked v sb i b : synced v sb i <-> synced v sb (locked i b).
Proof.
  unfold synced. change (inum (locked i b)) with (inum i).
  change (decode_inode ?d ?o (locked i b)) with (locked (decode_inode d o i) b).
  split; [by intros ->|]. intros E. apply (f_equal (fun x => locked x (ilk i))) in E. destruct i. exact E.
Qed.

Lemma file_written_settled s s1 s2 ip i i' c :
  file_written s s1 ip i i' c -> settled s1 s2 -> file_written s s2 ip i i' c.
Proof.
  intros [W1 W2 W3 W4 W5 W6 W7 W8 W9 W10] S. assert (layout (V s1) (fsb s1)) as L1 by (by rewrite W2).
  split; rewrite <- ?W2 in *; try done.
  - by rewrite (se_ic _ _ S).
  - apply (se_sb _ _ S).
  - by rewrite (se_cwd _ _ S).
  - by apply settled_layout.
  - by eapply settled_file.
  - intros Hs. eapply settled_synced; [done|done|done|by apply W7].
  - rewrite <- W8. by eapply settled_file.
  - intros n x Hn Hne. rewrite <- W9 by done. by erewrite settled_inode.
  - intros x Fx Hd. destruct (W10 x Fx Hd) as (X1 & X2 & X3). destruct (settled_file _ _ S L1 x X1) as [Y1 Y2].
    split_and!; [done|congruence|]. by eapply settled_disjoint.
Qed.
Lemma file_written_trans s s1 s2 ip i i1 i2 c1 c2 :
  file_written s s1 ip i i1 c1 -> file_written s1 s2 ip i1 i2 c2 -> file_written s s2 ip i i2 c2.
Proof.
  intros [W1 W2 W3 W4 W5 W6 W7 W8 W9 W10] [X1 X2 X3 X4 X5 X6 X7 X8 X9 X10]. rewrite W2 in *. split; try done.
  - rewrite X1, W1. by rewrite list_insert_insert_eq.
  - congruence.
  - rewrite X4, W4. done.
  - auto.
  - intros n x Hn Hne. rewrite X9; [by apply W9|done|]. rewrite W4. done.
  - intros x Fx Hd. destruct (W10 x Fx Hd) as (Y1 & Y2 & Y3). destruct (X10 x Y1 Y3) as (Z1 & Z2 & Z3). split_and!; [done|congruence|done].
Qed.
(** The write happens with the inode locked. *)
Lemma file_written_locked s s0 s1 s2 ip i i' c :
  icache s !! ip = Some i -> icache s0 = <[ip := locked i true]> (icache s) -> V s0 = V s -> fsb s0 = fsb s -> fcwd s0 = fcwd s ->
  file_written s0 s1 ip (locked i true) i' c ->
  icache s2 = <[ip := locked i' (ilk i)]> (icache s1) -> V s2 = V s1 -> fsb s2 = fsb s1 -> fcwd s2 = fcwd s1 ->
  file_written s s2 ip i (locked i' (ilk i)) c.
Proof.
  intros Hi I0 V0 S0 C0 [W1 W2 W3 W4 W5 W6 W7 W8 W9 W10] I2 V2 S2 C2. rewrite V0, S0 in *. split; rewrite ?V2; try done.
  - by rewrite I2, W1, I0, !list_insert_insert_eq.
  - congruence.
  - congruence.
  - rewrite W4. by destruct i.
  - by apply file_ok_locked.
  - intros Hs. apply synced_locked, W7. by apply synced_locked.
Qed.

Lemma file_written_refl s ip i :
  layout (V s) (fsb s) -> icache s !! ip = Some i -> file_ok (V s) (fsb s) i -> file_written s s ip i i (content (V s) i).
Proof. intros L Hi F. split; try done; [by rewrite list_insert_id|by destruct i]. Qed.

(** ** Rules *)

Lemma wp_on_fs {A} (m : M fstate A) (Q : A -> ftstate -> Prop) s :
  wp m (fun a t => Q a {| s with kfs := t |}) (kfs s) -> wp (on_fs m) Q s.
Proof. unfold on_fs. by rewrite wp_zoom. Qed.
Lemma wp_get_file f x (Q : file -> ftstate -> Prop) s : ftable s !! f = Some x -> Q x s -> wp (get_file f) Q s.
Proof. intros H HQ. unfold wp, get_file. by rewrite H. Qed.
Definition with_inode (s : fstate) (ip : nat) (i : inode) : fstate := {| s with icache := <[ip := i]> (icache s) |}.
Lemma wp_ilock_valid s ip i (Q : unit -> fstate -> Prop) :
  icache s !! ip = Some i -> 1 <= iref i -> ilk i = false -> valid i ≠ 0 -> Q tt (with_inode s ip (locked i true)) -> wp (ilock (Some ip)) Q s.
Proof.
  intros Hi Hr Hl Hv HQ. unfold ilock. rewrite wp_bind. apply (wp_get_inode _ _ i); [done|]. destruct (Z.ltb_spec (iref i) 1); [lia|].
  rewrite Hl. unfold set_inode. wp_steps. rewrite (list_alter_insert_lookup _ _ _ i) by done. destruct (Z.eqb_spec (valid i) 0); [done|]. wp_steps. exact HQ.
Qed.
Lemma wp_iunlock_held s ip i (Q : unit -> fstate -> Prop) :
  icache s !! ip = Some i -> 1 <= iref i -> ilk i = true -> Q tt (with_inode s ip (locked i false)) -> wp (iunlock (Some ip)) Q s.
Proof.
  intros Hi Hr Hl HQ. unfold iunlock. rewrite wp_bind. apply (wp_get_inode _ _ i); [done|]. rewrite Hl. destruct (Z.ltb_spec (iref i) 1); [lia|].
  cbn [negb orb]. unfold set_inode. wp_steps. by rewrite (list_alter_insert_lookup _ _ _ i) by done.
Qed.
Lemma tx_with_inode s h k ip i : tx s h k -> tx (with_inode s ip i) h k.
Proof. by intros [H1 H2 H3 H4 H5]. Qed.
Lemma busy_with_inode s ip i : busy s -> busy (with_inode s ip i).
Proof. by intros [H1 H2 H3 H4 H5 H6]. Qed.

(** A regular file that is open through [f] while no operation is under way. *)
Record open_file (s : ftstate) (f : nat) (x : file) (ip : nat) (i : inode) : Prop := {
  of_file : ftable s !! f = Some x;
  of_type : ftype x = FD_INODE;
  of_ip : fip x = Some ip;
  of_inode : icache (kfs s) !! ip = Some i;
  of_ref : 1 <= iref i;
  of_free : ilk i = false;
  of_valid : valid i ≠ 0;
  of_regular : itype i ≠ T_DEV;
  of_off : 0 <= foff x < W32;
  of_idle : idle (kfs s);
  of_layout : layout (V (kfs s)) (fsb (kfs s));
  of_ok : file_ok (V (kfs s)) (fsb (kfs s)) i
}.

Section Rules.
Context {DS : DevSwitch}.

Definition moved (x : file) (n : Z) : file := {| x with foff := foff x + n |}.

(** The state after [c'] became the contents of the file and [n] was added to
    the offset. *)
Record wrote_file (s s' : ftstate) (f : nat) (x : file) (ip : nat) (i i' : inode) (c' : list Z) (n : Z) : Prop := {
  wf_state : s' = {| s with kfs := kfs s'; ftable := <[f := moved x n]> (ftable s) |};
  wf_written : file_written (kfs s) (kfs s') ip i i' c';
  wf_open : open_file s' f (moved x n) ip i'
}.

Lemma wblocks_piece off n : 0 <= off -> 0 <= n <= Z.of_nat FILEWRITE_MAX -> (wblocks off n <= 4)%nat.
Proof. intros Ho Hn. unfold FILEWRITE_MAX in Hn. unfold wblocks, BSIZE. destruct (Z.leb_spec n 0); zlia. Qed.

Lemma wp_finish_op s ip j k r (Q : Z -> ftstate -> Prop) :
  tx (kfs s) [] k -> busy (kfs s) -> icache (kfs s) !! ip = Some j -> 1 <= iref j -> ilk j = true ->
  (forall t, idle t -> settled (with_inode (kfs s) ip (locked j false)) t -> Q r {| s with kfs := t |}) ->
  wp (on_fs (iunlock (Some ip)) ;; on_fs (on_log end_op) ;; mret r) Q s.
Proof.
  intros T B Hj Hr Hl HQ. rewrite wp_bind. apply wp_on_fs, (wp_iunlock_held _ ip j); try done. rewrite wp_bind. apply wp_on_fs.
  eapply wp_end_op; [by eapply tx_with_inode|by apply busy_with_inode|]. intros t It St. wp_steps. by apply HQ.
Qed.
Lemma wrote_file_intro s s' f x ip i i' c' n :
  open_file s f x ip i -> s' = {| s with kfs := kfs s'; ftable := <[f := moved x n]> (ftable s) |} -> idle (kfs s') -> 0 <= foff x + n < W32 ->
  file_written (kfs s) (kfs s') ip i i' c' -> wrote_file s s' f x ip i i' c' n.
Proof.
  intros [O1 O2 O3 O4 O5 O6 O7 O8 O9 O10 O11 O12] E It Ho W. pose proof W as [W1 W2 W3 W4 W5 W6 W7 W8 W9 W10].
  split; [done|done|]. split; try done; rewrite ?W2; try done.
  - rewrite E. cbn. apply list_lookup_insert_eq. by apply lookup_lt_Some in O1.
  - rewrite W1. apply list_lookup_insert_eq. by apply lookup_lt_Some in O4.
  - by rewrite W4.
  - by rewrite W4.
  - by rewrite W4.
  - by rewrite W4.
Qed.

Lemma write_at_bounds c off bs c' : 0 <= off -> write_at c off bs = Some c' -> off + Z.of_nat (length bs) <= MAXFILE * BSIZE.
Proof. unfold write_at. intros Ho. destruct (Z.ltb_spec (MAXFILE * BSIZE) (off + Z.of_nat (length bs))); [by rewrite orb_true_r|done]. Qed.

Lemma wp_file_piece s f x ip i piece (Q : Z -> ftstate -> Prop) :
  open_file s f x ip i -> is_bytes piece -> 0 < Z.of_nat (length piece) <= Z.of_nat FILEWRITE_MAX ->
  (8 <= nfree (V (kfs s)) (fsb (kfs s)))%nat ->
  (forall s', match write_at (content (V (kfs s)) i) (foff x) piece with
     | None => wrote_file s s' f x ip i i (content (V (kfs s)) i) 0 -> Q (-1) s'
     | Some c' => forall i', wrote_file s s' f x ip i i' c' (Z.of_nat (length piece)) ->
         (nfree (V (kfs s)) (fsb (kfs s)) <= 8 + nfree (V (kfs s')) (fsb (kfs s)))%nat -> Q (Z.of_nat (length piece)) s'
     end) -> wp (write_piece f piece) Q s.
Proof.
  intros O Hb Hl Hf HQ. pose proof O as [O1 O2 O3 O4 O5 O6 O7 O8 O9 O10 O11 O12]. unfold write_piece. rewrite wp_bind. apply (wp_get_file f x); [done|].
  rewrite wp_bind. apply wp_on_fs, wp_begin_op; [done|]. intros T0 B0. rewrite O3. set (s0 := opened (kfs s)) in *.
  rewrite wp_bind. apply wp_on_fs. apply (wp_ilock_valid _ ip i); try done. cbn [kfs]. fold s0. set (s1 := with_inode s0 ip (locked i true)).
  assert (icache s1 !! ip = Some (locked i true)) as Hi1. { apply list_lookup_insert_eq. by apply lookup_lt_Some in O4. }
  cbn [deref]. wp_steps. apply wp_on_fs. cbn [kfs].
  eapply wp_stays; [by eapply stays_at_writei|].
  pose proof (wblocks_piece (foff x) (Z.of_nat (length piece)) ltac:(lia) ltac:(lia)) as Hw.
  apply (wp_writei s1 0 ip (locked i true)); try done; [|by apply file_ok_locked|lia|unfold FILEWRITE_MAX, W32 in *; lia|change (V s1) with (V (kfs s)); change (fsb s1) with (fsb (kfs s)); lia|].
  { apply tx_with_inode. eapply tx_weaken; [exact T0|]. unfold wlog, OPROOM. lia. }
  intros s2 T2. change (V s1) with (V (kfs s)). change (content ?v (locked i true)) with (content v i).
  destruct (write_at (content (V (kfs s)) i) (foff x) piece) as [c'|] eqn:Ew.
  - intros i2 W Hf2 LF. rewrite (proj2 (Z.ltb_lt 0 _)) by lia. rewrite wp_bind. unfold when, set_file. rewrite wp_modify. cbn [ftable].
    rewrite (list_alter_insert_lookup _ _ _ x) by done.
    pose proof (write_at_bounds _ _ _ _ (proj1 O9) Ew) as Hmax. unfold MAXFILE, BSIZE in Hmax. rewrite u32_small by (unfold W32; lia).
    assert (i2 = {| (locked i true) with size := size i2; addrs := addrs i2 |}) as Em by apply W.
    assert (icache s2 !! ip = Some i2) as Hi2. { rewrite (fw_ic _ _ _ _ _ _ W). apply list_lookup_insert_eq. by apply lookup_lt_Some in Hi1. }
    eapply wp_finish_op; cbn [kfs]; [exact T2| |exact Hi2|by rewrite Em|by rewrite Em|].
    { eapply busy_lframe; [exact LF|apply W|by apply busy_with_inode]. }
    intros t It St. assert (file_written (kfs s) t ip i (locked i2 false) c') as Wt.
    { eapply file_written_settled; [|exact St]. rewrite <- O6. by eapply (file_written_locked _ s1 s2). }
    eapply HQ; [apply wrote_file_intro; try done; unfold W32; lia|]. cbn [kfs].
    pose proof (fw_sb _ _ _ _ _ _ W) as E2. pose proof (settled_nfree _ _ St) as En. cbn in En. change (V (with_inode s2 _ _)) with (V s2) in En.
    rewrite E2 in En. change (fsb s1) with (fsb (kfs s)) in *. rewrite En by apply W. change (V s1) with (V (kfs s)) in Hf2. lia.
  - intros -> LF. change (0 <? -1) with false. rewrite wp_bind. cbn [when]. rewrite wp_ret. eapply wp_finish_op; cbn [kfs]; [exact T2| |exact Hi1|done|done|].
    { by apply busy_with_inode. }
    intros t It St. apply HQ. apply wrote_file_intro; try done; cbn [kfs ftable].
    + f_equal. rewrite list_insert_id; [done|]. rewrite O1. f_equal. destruct x; unfold moved; cbn. f_equal. lia.
    + lia.
    + eapply file_written_settled; [by apply file_written_refl|]. destruct St as [St1 St2 St3 St4 St5 St6]. split; try done.
      rewrite St5. cbn. rewrite !list_insert_insert_eq. apply list_insert_id. rewrite O4. by destruct i; cbn in *; subst.
Qed.

Lemma moved_moved x m n : moved (moved x m) n = moved x (m + n).
Proof. unfold moved. cbn. f_equal. lia. Qed.
Lemma wrote_file_trans s s1 s2 f x ip i i1 i2 c1 c2 m n :
  wrote_file s s1 f x ip i i1 c1 m -> wrote_file s1 s2 f (moved x m) ip i1 i2 c2 n -> wrote_file s s2 f x ip i i2 c2 (m + n).
Proof.
  intros [E1 W1 O1] [E2 W2 O2]. rewrite moved_moved in *. split; [|by eapply file_written_trans|done].
  rewrite E2, E1. cbn. by rewrite list_insert_insert_eq.
Qed.
Lemma wrote_file_nil s f x ip i : open_file s f x ip i -> wrote_file s s f x ip i i (content (V (kfs s)) i) 0.
Proof.
  intros O. pose proof O as [O1 O2 O3 O4 O5 O6 O7 O8 O9 O10 O11 O12]. apply wrote_file_intro; try done; [|lia|by apply file_written_refl].
  rewrite list_insert_id; [by destruct s|]. rewrite O1. f_equal. destruct x; unfold moved; cbn. f_equal. lia.
Qed.

(** The transactions that a write of [n] bytes takes. *)
Definition pieces (n : nat) : nat := Z.to_nat ((Z.of_nat n + 1535) / 1536).

Lemma wp_filewrite_pieces f ip fuel : forall s x i src (Q : bool -> ftstate -> Prop),
  open_file s f x ip i -> is_bytes src -> (length src <= fuel)%nat ->
  (8 * pieces (length src) <= nfree (V (kfs s)) (fsb (kfs s)))%nat ->
  (forall s' i' n ok, wrote_file s s' f x ip i i' (fst (filewrite_loop (content (V (kfs s)) i) (foff x) src fuel)) n ->
     ok = snd (filewrite_loop (content (V (kfs s)) i) (foff x) src fuel) -> (ok = true -> n = Z.of_nat (length src)) -> Q ok s') ->
  wp (filewrite_pieces f src fuel) Q s.
Proof.
  induction fuel as [|fuel IH]; intros s x i src Q O Hb Hfu Hf HQ.
  { destruct src; [|cbn in Hfu; lia]. cbn. eapply HQ; [by apply wrote_file_nil|done|done]. }
  destruct src as [|b src']; [cbn; eapply HQ; [by apply wrote_file_nil|done|done]|].
  cbn [filewrite_pieces filewrite_loop] in *. set (src := b :: src') in *. assert (0 < length src)%nat as Hl by (unfold src; cbn; lia).
  set (piece := take FILEWRITE_MAX src) in *. assert (length piece = Nat.min FILEWRITE_MAX (length src)) as Elp by apply length_take.
  assert (0 < length piece <= FILEWRITE_MAX)%nat as Hlp by (rewrite Elp; unfold FILEWRITE_MAX; lia).
  assert (pieces (length src) = S (pieces (length src - length piece))) as Ep by (rewrite Elp; unfold pieces, FILEWRITE_MAX; zlia).
  rewrite Ep in Hf. rewrite wp_bind. eapply wp_file_piece; [exact O|by apply Forall_take|lia|lia|].
  intros s1. destruct (write_at _ (foff x) piece) as [c'|].
  - intros i1 W1 Hf1. destruct (Z.ltb_spec (Z.of_nat (length piece)) 0); [lia|]. rewrite Z.eqb_refl. cbn [negb]. rewrite Nat2Z.id.
    assert (drop (length piece) src = drop FILEWRITE_MAX src) as Ed.
    { rewrite Elp. destruct (Nat.min_spec FILEWRITE_MAX (length src)) as [[_ ->]|[Hle ->]]; [done|]. by rewrite drop_all, drop_ge. }
    pose proof (wf_written _ _ _ _ _ _ _ _ _ W1) as F1.
    eapply (IH s1 (moved x (Z.of_nat (length piece))) i1); [apply W1|by apply Forall_drop|rewrite length_drop; lia| |].
    { rewrite length_drop, (fw_sb _ _ _ _ _ _ F1). lia. }
    rewrite (fw_content _ _ _ _ _ _ F1), Ed. change (foff (moved x ?n)) with (foff x + n).
    intros s2 i2 n ok W2 -> Hn. eapply HQ; [by eapply wrote_file_trans|done|]. intros Hok. rewrite (Hn Hok), length_drop, Elp. lia.
  - intros W1. cbn. eapply HQ; [exact W1|done|done].
Qed.
End Rules.

Lemma filewrite_loop_fuel n : forall m c off bs,
  (length bs <= n)%nat -> (length bs <= m)%nat -> filewrite_loop c off bs n = filewrite_loop c off bs m.
Proof.
  induction n as [|n IH]; intros m c off bs Hn Hm; (destruct bs as [|b bs]; [by destruct m|]); [cbn in Hn; lia|].
  destruct m as [|m]; [cbn in Hm; lia|]. cbn [filewrite_loop]. destruct (write_at _ _ _) as [c'|]; [|done].
  apply IH; rewrite length_drop; unfold FILEWRITE_MAX; cbn [length] in *; lia.
Qed.
Lemma idle_tx s : idle s -> tx s [] 0.
Proof.
  intros [[P1 P2 P3 P4 P5 P6 P7 P8 P9 P10 P11 P12] H2 H3 H4 H5]. split; [done|done| |lia|].
  - exists []. rewrite H4. split_and!; try done. vm_compute. lia.
  - intros b Hb. rewrite P6 in Hb. by apply elem_of_empty in Hb.
Qed.
Lemma read_at_len c off n bs :
  read_at c off n = Some bs -> 0 <= off -> 0 <= off + Z.of_nat (length bs) <= Z.of_nat (length c).
Proof.
  unfold read_at. destruct (Z.ltb_spec (Z.of_nat (length c)) off); [done|]. destruct (_ <? off); [done|]. intros [= <-] Ho.
  rewrite length_take, length_drop. lia.
Qed.

Lemma with_inode_back s ip i :
  icache s !! ip = Some i -> ilk i = false -> with_inode (with_inode s ip (locked i true)) ip (locked (locked i true) false) = s.
Proof.
  intros Hi Hl. unfold with_inode. cbn. rewrite list_insert_insert_eq. change (locked (locked i true) false) with (locked i false).
  rewrite <- Hl. rewrite list_insert_id; [by destruct s|]. rewrite Hi. by destruct i.
Qed.
Lemma moved_0 x : moved x 0 = x.
Proof. destruct x. unfold moved. cbn. f_equal. lia. Qed.

(** ** What [fileread] and [filewrite] promise *)

Section FileSpec.
Context {DS : DevSwitch}.
Variables (s : ftstate) (f : nat) (x : file) (ip : nat) (i : inode).
Hypothesis O : open_file s f x ip i.

(** [fileread] returns what [read_at] reads of the contents at the offset of
    the open file, and moves the offset over it; nothing else changes. *)
Theorem fileread_refines n :
  readable x ≠ 0 -> 0 <= n < 2147483648 ->
  wp (fileread f n) (fun r s' => r = read_at (content (V (kfs s)) i) (foff x) n /\
    s' = {| s with ftable := <[f := moved x (Z.of_nat (length (default [] r)))]> (ftable s) |}) s.
Proof.
  intros Hr Hn. pose proof O as [O1 O2 O3 O4 O5 O6 O7 O8 O9 O10 O11 O12]. unfold fileread. rewrite wp_bind. apply (wp_get_file f x); [done|].
  destruct (Z.eqb_spec (readable x) 0); [done|]. rewrite O2, O3, wp_bind. apply wp_on_fs, (wp_ilock_valid _ ip i); try done.
  cbn [deref]. wp_steps. apply wp_on_fs. cbn [kfs]. set (s1 := with_inode (kfs s) ip (locked i true)). rewrite u32_small by (unfold W32; lia).
  assert (icache s1 !! ip = Some (locked i true)) as Hi1. { apply list_lookup_insert_eq. by apply lookup_lt_Some in O4. }
  apply (wp_readi s1 0 ip (locked i true)); try done; [by apply tx_with_inode, idle_tx|by apply file_ok_locked|lia|unfold W32; lia|].
  change (content _ (locked i true)) with (content (V (kfs s)) i). destruct (read_at _ (foff x) n) as [bs|] eqn:E.
  - pose proof (read_at_len _ _ _ _ E (proj1 O9)) as Hlen. pose proof (fo_size _ _ _ O12) as Hs. unfold content in Hlen. rewrite length_upto in Hlen.
    unfold MAXFILE, BSIZE in Hs. destruct (Z.ltb_spec 0 (Z.of_nat (length bs))) as [Hp|Hp]; cbn [when]; unfold set_file; wp_steps;
      apply wp_on_fs, (wp_iunlock_held _ ip (locked i true)); try done; wp_steps; (split; [done|]); cbn [kfs ftable kpipes ofiles swapfile pids kcur from_option id]; unfold s1; rewrite with_inode_back by done.
    + rewrite (list_alter_insert_lookup _ _ _ x) by done. by rewrite u32_small by (unfold W32; lia).
    + replace (Z.of_nat (length bs)) with 0 by lia. rewrite moved_0, list_insert_id by done. done.
  - wp_steps. apply wp_on_fs, (wp_iunlock_held _ ip (locked i true)); try done. wp_steps. split; [done|]. cbn [kfs ftable kpipes ofiles swapfile pids kcur from_option id]. unfold s1. rewrite with_inode_back by done.
    rewrite moved_0, list_insert_id by done. done.
Qed.

(** C5. [filewrite] returns what the loop of writes in Files.v returns and makes the
    contents of the file what that loop makes them, in transactions that leave
    the log empty; it keeps the invariant of the file and the contents of the
    files that share no block with it. *)
Theorem filewrite_refines src :
  writable x ≠ 0 -> is_bytes src -> (8 * pieces (length src) <= nfree (V (kfs s)) (fsb (kfs s)))%nat ->
  wp (filewrite f src) (fun r s' => let '(c', ok) := filewrite_loop (content (V (kfs s)) i) (foff x) src (S (length src)) in
    r = (if ok then Z.of_nat (length src) else -1) /\
    exists i' n, wrote_file s s' f x ip i i' c' n /\ (ok = true -> n = Z.of_nat (length src))) s.
Proof.
  intros Hw Hb Hf. unfold filewrite. rewrite wp_bind. apply (wp_get_file f x); [apply O|]. destruct (Z.eqb_spec (writable x) 0); [done|].
  rewrite (of_type _ _ _ _ _ O), wp_bind. eapply wp_filewrite_pieces; [exact O|done|done|done|].
  rewrite (filewrite_loop_fuel _ (S (length src))) by lia. intros s' i' n0 ok W -> Hn. wp_steps.
  destruct (filewrite_loop _ _ _ _) as [c' ok]. split; [done|]. by exists i', n0.
Qed.
End FileSpec.
