(* ===== verification/Sysfile.v ===== *)
(** The system calls on files (sysfile.c), the descriptors of the processes,
    and the creation and removal of swap files (fs.c). *)

From stdpp Require Import base gmap list strings.
From Stdlib Require Import ZArith Lia.
From S2P Require Import Pipe.
From S2P Require Import Prelude Files Block Log Fs FsTx FsAlloc FsFile FsDir FsInode FsOp File.
Open Scope Z_scope.

Definition O_RDONLY : Z := 0.
Definition O_WRONLY : Z := 1.
Definition O_RDWR : Z := 2.
Definition O_CREATE : Z := 512.

(** ** Descriptors *)

(** [myproc()->ofile] *)
Definition cur_ofile (s : ftstate) : list (option nat) := default [] (ofiles s !! kcur s).
Definition set_ofile (fd : nat) (v : option nat) : M ftstate unit :=
  modify (fun s => {| s with ofiles := alter (fun l => <[fd := v]> l) (kcur s) (ofiles s) |}).

(** [argfd] on the argument that [argint] fetched. *)
Definition argfd (fd : Z) : M ftstate (option nat) :=
  l ← gets cur_ofile;
  if (fd <? 0) || (Z.of_nat NOFILE <=? fd) then mret None
  else mret (default None (l !! Z.to_nat fd)).

Fixpoint free_fd (l : list (option nat)) (fd : nat) : option nat :=
  match l with
  | [] => None
  | None :: _ => Some fd
  | Some _ :: l' => free_fd l' (S fd)
  end.
Definition fdalloc (f : nat) : M ftstate Z :=
  l ← gets cur_ofile;
  match free_fd l 0 with
  | Some fd => set_ofile fd (Some f) ;; mret (Z.of_nat fd)
  | None => mret (-1)
  end.

Section Calls.
Context {DS : DevSwitch}.

Definition sys_dup (fd : Z) : M ftstate Z :=
  r ← argfd fd;
  match r with
  | None => mret (-1)
  | Some f =>
      fd' ← fdalloc f;
      if fd' <? 0 then mret (-1) else
      filedup f ;;
      mret fd'
  end.

(** The buffer is valid for [n] bytes iff [ok], see [argptr]. *)
Definition sys_read (fd n : Z) (ok : bool) : M ftstate (option (list Z)) :=
  r ← argfd fd;
  match r with
  | None => mret None
  | Some f => if negb ok then mret None else fileread f n
  end.
Definition sys_write (fd : Z) (src : list Z) (ok : bool) : M ftstate Z :=
  r ← argfd fd;
  match r with
  | None => mret (-1)
  | Some f => if negb ok then mret (-1) else filewrite f src
  end.
Definition sys_close (fd : Z) : M ftstate Z :=
  r ← argfd fd;
  match r with
  | None => mret (-1)
  | Some f =>
      set_ofile (Z.to_nat fd) None ;;
      fileclose f ;;
      mret 0
  end.
Definition sys_fstat (fd : Z) (ok : bool) : M ftstate (option stat) :=
  r ← argfd fd;
  match r with
  | None => mret None
  | Some f => if negb ok then mret None else filestat f
  end.

(** ** Names *)

(** The part of [sys_link] after the label [bad]. *)
Definition link_bad (ip : nat) : M fstate Z :=
  ilock (Some ip) ;;
  set_inode ip (fun i => {| i with nlink := s16 (nlink i - 1) |}) ;;
  iupdate ip ;;
  iunlockput ip ;;
  on_log end_op ;;
  mret (-1).
Definition sys_link (old new : option (list Z)) : M fstate Z :=
  match old, new with
  | Some old, Some new =>
      on_log begin_op ;;
      r ← namei old;
      match r with
      | None => on_log end_op ;; mret (-1)
      | Some ip =>
          ilock (Some ip) ;;
          i ← get_inode ip;
          if itype i =? T_DIR then iunlockput ip ;; on_log end_op ;; mret (-1) else
          set_inode ip (fun i => {| i with nlink := s16 (nlink i + 1) |}) ;;
          iupdate ip ;;
          iunlock (Some ip) ;;
          '(p, name) ← nameiparent new;
          match p with
          | None => link_bad ip
          | Some dp =>
              ilock (Some dp) ;;
              d ← get_inode dp;
              i ← get_inode ip;
              r ← (if negb (idev d =? idev i) then mret (-1) else dirlink dp name (inum i));
              if r <? 0 then iunlockput dp ;; link_bad ip else
              iunlockput dp ;;
              iput ip ;;
              on_log end_op ;;
              mret 0
          end
      end
  | _, _ => mret (-1)
  end.

Fixpoint isdirempty_loop (dp : nat) (off sz : Z) (fuel : nat) : M fstate bool :=
  if sz <=? off then mret true else
  match fuel with
  | O => diverge
  | S fuel' =>
      r ← readi dp off DE_SIZE;
      match r with
      | Some de =>
          if negb (Z.of_nat (length de) =? DE_SIZE) then panic "isdirempty: readi" else
          if negb (de_inum de =? 0) then mret false
          else isdirempty_loop dp (off + DE_SIZE) sz fuel'
      | None => panic "isdirempty: readi"
      end
  end.
Definition isdirempty (dp : nat) : M fstate bool :=
  d ← get_inode dp;
  isdirempty_loop dp (2 * DE_SIZE) (size d) (Z.to_nat (size d / DE_SIZE + 1)).

Definition DOT : list Z := [46].
Definition DOTDOT : list Z := [46; 46].

(** The part of [sys_unlink] and of [removeSwapFile] from [begin_op] on, which
    is the same in both; [bad] is the code after the label. *)
Definition unlink_bad (dp : nat) : M fstate Z :=
  iunlockput dp ;;
  on_log end_op ;;
  mret (-1).
(** From the test of [nlink] on. *)
Definition unlink_entry (dp ip : nat) (off : Z) : M fstate Z :=
  i ← get_inode ip;
  if nlink i <? 1 then panic "unlink: nlink < 1" else
  full ← (if itype i =? T_DIR then e ← isdirempty ip; mret (negb e) else mret false);
  if (full : bool) then iunlockput ip ;; unlink_bad dp else
  r ← writei dp (replicate (Z.to_nat DE_SIZE) 0) off;
  if negb (r =? DE_SIZE) then panic "unlink: writei" else
  i ← get_inode ip;
  when (itype i =? T_DIR) (
    set_inode dp (fun d => {| d with nlink := s16 (nlink d - 1) |}) ;;
    iupdate dp) ;;
  iunlockput dp ;;
  set_inode ip (fun i => {| i with nlink := s16 (nlink i - 1) |}) ;;
  iupdate ip ;;
  iunlockput ip ;;
  on_log end_op ;;
  mret 0.
Definition unlink_path (path : list Z) : M fstate Z :=
  on_log begin_op ;;
  '(p, name) ← nameiparent path;
  match p with
  | None => on_log end_op ;; mret (-1)
  | Some dp =>
      ilock (Some dp) ;;
      if namecmp name DOT || namecmp name DOTDOT then unlink_bad dp else
      r ← dirlookup dp name;
      match r with
      | None => unlink_bad dp
      | Some (ip, off) =>
          ilock (Some ip) ;;
          unlink_entry dp ip off
      end
  end.
Definition sys_unlink (path : option (list Z)) : M fstate Z :=
  match path with
  | None => mret (-1)
  | Some path => unlink_path path
  end.

(** ** Creating *)

(** "." and ".." *)
Definition create_dots (ip dp : nat) : M fstate unit :=
  set_inode dp (fun d => {| d with nlink := s16 (nlink d + 1) |}) ;;
  iupdate dp ;;
  i ← get_inode ip;
  d ← get_inode dp;
  r ← dirlink ip DOT (inum i);
  if r <? 0 then panic "create dots" else
  r ← dirlink ip DOTDOT (inum d);
  if r <? 0 then panic "create dots" else mret tt.
(** The inode comes back locked. *)
Definition create (path : list Z) (ty mj mn : Z) : M fstate (option nat) :=
  '(p, name) ← nameiparent path;
  match p with
  | None => mret None
  | Some dp =>
      ilock (Some dp) ;;
      r ← dirlookup dp name;
      match r with
      | Some (ip, _) =>
          iunlockput dp ;;
          ilock (Some ip) ;;
          i ← get_inode ip;
          if (ty =? T_FILE) && (itype i =? T_FILE) then mret (Some ip)
          else iunlockput ip ;; mret None
      | None =>
          d ← get_inode dp;
          ip ← ialloc (idev d) ty;
          ilock (Some ip) ;;
          set_inode ip (fun i => {| i with major := mj; minor := mn; nlink := 1 |}) ;;
          iupdate ip ;;
          when (ty =? T_DIR) (create_dots ip dp) ;;
          i ← get_inode ip;
          r ← dirlink dp name (inum i);
          if r <? 0 then panic "create: dirlink" else
          iunlockput dp ;;
          mret (Some ip)
      end
  end.

(** The inode that [sys_open] opens, locked; the transaction has ended if there
    is none. *)
Definition open_inode (path : list Z) (omode : Z) : M fstate (option nat) :=
  on_log begin_op ;;
  if negb (Z.land omode O_CREATE =? 0) then
    r ← create path T_FILE 0 0;
    match r with
    | None => on_log end_op ;; mret None
    | Some ip => mret (Some ip)
    end
  else
    r ← namei path;
    match r with
    | None => on_log end_op ;; mret None
    | Some ip =>
        ilock (Some ip) ;;
        i ← get_inode ip;
        if (itype i =? T_DIR) && negb (omode =? O_RDONLY) then iunlockput ip ;; on_log end_op ;; mret None
        else mret (Some ip)
    end.
Definition sys_open (path : option (list Z)) (omode : Z) : M ftstate Z :=
  match path with
  | None => mret (-1)
  | Some path =>
      r ← on_fs (open_inode path omode);
      match r with
      | None => mret (-1)
      | Some ip =>
          r ← filealloc;
          match r with
          | None => on_fs (iunlockput ip) ;; on_fs (on_log end_op) ;; mret (-1)
          | Some f =>
              fd ← fdalloc f;
              if fd <? 0 then
                fileclose f ;; on_fs (iunlockput ip) ;; on_fs (on_log end_op) ;; mret (-1)
              else
                on_fs (iunlock (Some ip)) ;;
                on_fs (on_log end_op) ;;
                set_file f (fun x => {| x with ftype := FD_INODE; fip := Some ip; foff := 0;
                  readable := (if Z.land omode O_WRONLY =? 0 then 1 else 0);
                  writable := (if (Z.land omode O_WRONLY =? 0) && (Z.land omode O_RDWR =? 0) then 0 else 1) |}) ;;
                mret fd
          end
      end
  end.

(** [sys_mkdir] and [sys_mknod]; the arguments are [None] if they could not be
    fetched. *)
Definition make_node (args : option (list Z * Z * Z)) (ty : Z) : M fstate Z :=
  on_log begin_op ;;
  r ← (match args with
       | None => mret None
       | Some (path, mj, mn) => create path ty mj mn
       end);
  match r with
  | None => on_log end_op ;; mret (-1)
  | Some ip => iunlockput ip ;; on_log end_op ;; mret 0
  end.
Definition sys_mkdir (path : option (list Z)) : M fstate Z :=
  make_node ((fun p => (p, 0, 0)) <$> path) T_DIR.
(** [create] takes the device numbers as shorts. *)
Definition sys_mknod (args : option (list Z * Z * Z)) : M fstate Z :=
  make_node ((fun a => (fst (fst a), s16 (snd (fst a)), s16 (snd a))) <$> args) T_DEV.
Definition sys_chdir (path : option (list Z)) : M fstate Z :=
  on_log begin_op ;;
  r ← (match path with None => mret None | Some path => namei path end);
  match r with
  | None => on_log end_op ;; mret (-1)
  | Some ip =>
      ilock (Some ip) ;;
      i ← get_inode ip;
      if negb (itype i =? T_DIR) then iunlockput ip ;; on_log end_op ;; mret (-1) else
      iunlock (Some ip) ;;
      cwd ← gets fcwd;
      iput cwd ;;
      on_log end_op ;;
      modify (fun s => {| s with fcwd := ip |}) ;;
      mret 0
  end.

(** ** Pipes *)

(** [pipealloc]; [page] is what [kalloc] returns, with a name for it. *)
Definition pipealloc (page : option (nat * list Z)) : M ftstate (option (nat * nat)) :=
  f0 ← filealloc;
  match f0 with
  | None => mret None
  | Some f0 =>
      f1 ← filealloc;
      match f1 with
      | None => fileclose f0 ;; mret None
      | Some f1 =>
          match page with
          | None => fileclose f0 ;; fileclose f1 ;; mret None
          | Some (p, d) =>
              set_pipe p (new_pipe (take (Z.to_nat PIPESIZE) d)) ;;
              set_file f0 (fun x => {| x with ftype := FD_PIPE; readable := 1; writable := 0; fpipe := Some p |}) ;;
              set_file f1 (fun x => {| x with ftype := FD_PIPE; readable := 0; writable := 1; fpipe := Some p |}) ;;
              mret (Some (f0, f1))
          end
      end
  end.
(** The two descriptors, or [None] for -1. *)
Definition sys_pipe (page : option (nat * list Z)) (ok : bool) : M ftstate (option (Z * Z)) :=
  if negb ok then mret None else
  r ← pipealloc page;
  match r with
  | None => mret None
  | Some (rf, wf) =>
      fd0 ← fdalloc rf;
      if fd0 <? 0 then fileclose rf ;; fileclose wf ;; mret None else
      fd1 ← fdalloc wf;
      if fd1 <? 0 then set_ofile (Z.to_nat fd0) None ;; fileclose rf ;; fileclose wf ;; mret None else
      mret (Some (fd0, fd1))
  end.

(** ** Processes *)

(** The loops over the descriptors in [fork], for the child [np], and in
    [exit]. *)
Definition fork_file (np fd : nat) : M ftstate unit :=
  l ← gets cur_ofile;
  match l !! fd with
  | Some (Some f) =>
      g ← filedup f;
      modify (fun s => {| s with ofiles := alter (fun l => <[fd := Some g]> l) np (ofiles s) |})
  | _ => mret tt
  end.
Definition fork_files (np : nat) : M ftstate unit := for_each (seq 0 NOFILE) (fork_file np).
Definition close_files : M ftstate unit :=
  for_each (seq 0 NOFILE) (fun fd =>
    l ← gets cur_ofile;
    match l !! fd with
    | Some (Some f) => fileclose f ;; set_ofile fd None
    | _ => mret tt
    end).

(** ** Swap files *)

Definition createSwapFile (p : nat) : M ftstate Z :=
  pid ← gets (fun s => default 0 (pids s !! p));
  on_fs (on_log begin_op) ;;
  ip ← on_fs (create (swap_path pid) T_FILE 0 0);
  on_fs (iunlock ip) ;;
  f ← filealloc;
  modify (fun s => {| s with swapfile := <[p := f]> (swapfile s) |}) ;;
  match f with
  | None => panic "no slot for files on /store"
  | Some f =>
      set_file f (fun x => {| x with fip := ip; ftype := FD_INODE; foff := 0; readable := O_WRONLY; writable := O_RDWR |}) ;;
      on_fs (on_log end_op) ;;
      mret 0
  end.
(** The pointer [swapFile] stays. *)
Definition removeSwapFile (p : nat) : M ftstate Z :=
  pid ← gets (fun s => default 0 (pids s !! p));
  f ← gets (fun s => default None (swapfile s !! p));
  match f with
  | None => mret (-1)
  | Some f =>
      fileclose f ;;
      on_fs (unlink_path (swap_path pid))
  end.
Definition swap_file (p : nat) : M ftstate nat :=
  f ← gets (fun s => default None (swapfile s !! p));
  match f with Some f => mret f | None => ub end.
Definition writeToSwapFile (p : nat) (buf : list Z) (placeOnFile : Z) : M ftstate Z :=
  f ← swap_file p;
  set_file f (fun x => {| x with foff := placeOnFile |}) ;;
  filewrite f buf.
Definition readFromSwapFile (p : nat) (placeOnFile n : Z) : M ftstate (option (list Z)) :=
  f ← swap_file p;
  set_file f (fun x => {| x with foff := placeOnFile |}) ;;
  fileread f n.
End Calls.
