(* ===== verification/Descr.v ===== *)
(** Reference counts of open files: the count of an entry of the table is the
    number of descriptors and swap files that refer to it, in every state that
    system calls reach; and the entry that exec loses. *)

From stdpp Require Import base gmap list strings relations.
From Stdlib Require Import ZArith Lia.
From S2P Require Import Prelude Files Block Log Fs File Sysfile.
Open Scope Z_scope.

(** ** Partial correctness

    The invariant is about the states after calls that return. *)

Definition wlp {A} (m : M ftstate A) (Q : A -> ftstate -> Prop) (s : ftstate) : Prop := forall a s', m s = Ok a s' -> Q a s'.

Lemma wlp_bind {A B} (m : M ftstate A) (g : A -> M ftstate B) Q s : wlp m (fun a s' => wlp (g a) Q s') s -> wlp (m ≫= g) Q s.
Proof. intros H b s'' (a & s' & H1 & H2)%bind_Ok. by eapply H. Qed.
Lemma wlp_ret {A} (a : A) (Q : A -> ftstate -> Prop) s : Q a s -> wlp (mret a) Q s.
Proof. by intros H b s' [= <- <-]. Qed.
Lemma wlp_gets {A} (g : ftstate -> A) (Q : A -> ftstate -> Prop) s : Q (g s) s -> wlp (gets g) Q s.
Proof. by intros H b s' [= <- <-]. Qed.
Lemma wlp_modify g (Q : unit -> ftstate -> Prop) s : Q tt (g s) -> wlp (modify g) Q s.
Proof. by intros H b s' [= <- <-]. Qed.
Lemma wlp_panic {A} e (Q : A -> ftstate -> Prop) s : wlp (panic e) Q s.
Proof. by intros b s' [=]. Qed.
Lemma wlp_diverge {A} (Q : A -> ftstate -> Prop) s : wlp diverge Q s.
Proof. by intros b s' [=]. Qed.
Lemma wlp_mono {A} (m : M ftstate A) (P Q : A -> ftstate -> Prop) s : wlp m P s -> (forall a s', P a s' -> Q a s') -> wlp m Q s.
Proof. intros H HPQ a s' E. by apply HPQ, H. Qed.
Lemma wlp_get_file f (Q : file -> ftstate -> Prop) s : (forall x, ftable s !! f = Some x -> Q x s) -> wlp (get_file f) Q s.
Proof. intros H b s'. unfold get_file. destruct (ftable s !! f) eqn:E; [|done]. intros [= <- <-]. by apply H. Qed.

(** ** Counting references *)

Definition count (f : nat) (hs : list (option nat)) : nat := length (filter (.= Some f) hs).
(** Lists with the same references. *)
Definition same_refs (hs hs' : list (option nat)) : Prop := forall f, count f hs = count f hs'.
#[export] Instance same_refs_equiv : Equivalence same_refs.
Proof. split; [done|by intros h h' H f|by intros h1 h2 h3 H1 H2 f; rewrite H1]. Qed.

Lemma count_app f hs hs' : count f (hs ++ hs') = (count f hs + count f hs')%nat.
Proof. unfold count. by rewrite filter_app, length_app. Qed.
Lemma count_cons f h hs : count f (h :: hs) = ((if decide (h = Some f) then 1 else 0) + count f hs)%nat.
Proof. unfold count. rewrite filter_cons. by case_decide. Qed.
Lemma count_le f hs : (count f hs <= length hs)%nat.
Proof. apply length_filter. Qed.
Lemma count_pos f hs : (0 < count f hs)%nat <-> Some f ∈ hs.
Proof.
  unfold count. split.
  - intros H. destruct (filter _ hs) as [|x l] eqn:E; [cbn in H; lia|]. assert (x ∈ filter (.= Some f) hs) as Hx by (rewrite E; by left).
    by apply list_elem_of_filter in Hx as [-> Hx].
  - intros H. assert (Some f ∈ filter (.= Some f) hs) as Hx by (by apply list_elem_of_filter). destruct (filter _ hs); [by apply not_elem_of_nil in Hx|cbn; lia].
Qed.
Lemma count_insert f l k v w : l !! k = Some v -> (count f (<[k := w]> l) + count f [v] = count f l + count f [w])%nat.
Proof.
  revert k. induction l as [|h l IH]; intros [|k] Hk; try done.
  - injection Hk as ->. change (<[0%nat := w]> (v :: l)) with (w :: l). rewrite (count_cons f w l), (count_cons f v l), !(count_cons _ _ []). lia.
  - change (<[S k := w]> (h :: l)) with (h :: <[k := w]> l). rewrite !(count_cons f h). specialize (IH k Hk). lia.
Qed.
#[export] Instance same_refs_app : Proper (same_refs ==> same_refs ==> same_refs) (++).
Proof. intros h1 h2 H k1 k2 K f. by rewrite !count_app, H, K. Qed.
#[export] Instance same_refs_cons x : Proper (same_refs ==> same_refs) (cons x).
Proof. intros h1 h2 H f. by rewrite !count_cons, H. Qed.
Lemma same_refs_swap h hs hs' : same_refs (hs ++ h :: hs') (h :: hs ++ hs').
Proof. intros f. rewrite !count_app, !count_cons, count_app. lia. Qed.

(** ** The table against the references *)

Record refs_ok (t : list file) (hs : list (option nat)) : Prop := {
  ro_count : forall f x, t !! f = Some x -> fref x = Z.of_nat (count f hs);
  ro_valid : forall f, Some f ∈ hs -> is_Some (t !! f);
  ro_none : forall f x, t !! f = Some x -> fref x = 0 -> ftype x = FD_NONE
}.
#[export] Instance refs_ok_proper t : Proper (same_refs ==> iff) (refs_ok t).
Proof.
  assert (forall h h', same_refs h h' -> refs_ok t h -> refs_ok t h') as H.
  { intros h h' E [H1 H2 H3]. split; [|intros f; rewrite <- count_pos, <- E, count_pos; apply H2|done]. intros f x Hx. rewrite <- E. by apply H1. }
  intros h h' E. split; apply H; [done|by symmetry].
Qed.

(** The count of an entry goes up with a reference, or down. *)
Lemma refs_ok_more t hs f x g :
  refs_ok t hs -> t !! f = Some x -> fref (g x) = fref x + 1 -> refs_ok (alter g f t) (Some f :: hs).
Proof.
  intros [H1 H2 H3] Hx Eg. pose proof (H1 f x Hx) as Hc. split.
  - intros k y Hy. rewrite count_cons. destruct (decide (k = f)) as [->|Hne].
    + rewrite list_lookup_alter_eq, Hx in Hy. injection Hy as <-. rewrite decide_True by done. lia.
    + rewrite list_lookup_alter_ne in Hy by done. rewrite decide_False by congruence. by apply H1.
  - intros k Hk. apply elem_of_cons in Hk as [[= ->]|Hk].
    + rewrite list_lookup_alter_eq, Hx. by eexists.
    + destruct (H2 k Hk) as [y Hy]. apply lookup_lt_is_Some. rewrite length_alter. by eapply lookup_lt_Some.
  - intros k y Hy. destruct (decide (k = f)) as [->|Hne].
    + rewrite list_lookup_alter_eq, Hx in Hy. injection Hy as <-. lia.
    + rewrite list_lookup_alter_ne in Hy by done. by eapply H3.
Qed.
Lemma refs_ok_less t hs f x g :
  refs_ok t (Some f :: hs) -> t !! f = Some x -> fref (g x) = fref x - 1 -> (fref (g x) = 0 -> ftype (g x) = FD_NONE) ->
  refs_ok (alter g f t) hs.
Proof.
  intros [H1 H2 H3] Hx Eg Et. split.
  - intros k y Hy. destruct (decide (k = f)) as [->|Hne].
    + rewrite list_lookup_alter_eq, Hx in Hy. injection Hy as <-. rewrite Eg, (H1 f x Hx), count_cons, decide_True by done. lia.
    + rewrite list_lookup_alter_ne in Hy by done. rewrite (H1 k y Hy), count_cons, decide_False by congruence. done.
  - intros k Hk. destruct (H2 k ltac:(by right)) as [y Hy]. apply lookup_lt_is_Some. rewrite length_alter. by eapply lookup_lt_Some.
  - intros k y Hy. destruct (decide (k = f)) as [->|Hne].
    + rewrite list_lookup_alter_eq, Hx in Hy. injection Hy as <-. done.
    + rewrite list_lookup_alter_ne in Hy by done. by eapply H3.
Qed.
(** Other fields of an entry in use change. *)
Lemma refs_ok_same t hs f g :
  refs_ok t hs -> (forall x, t !! f = Some x -> fref (g x) = fref x /\ (fref x = 0 -> ftype (g x) = ftype x)) -> refs_ok (alter g f t) hs.
Proof.
  intros [H1 H2 H3] Hg. split.
  - intros k y Hy. destruct (decide (k = f)) as [->|Hne].
    + rewrite list_lookup_alter_eq in Hy. destruct (t !! f) as [x|] eqn:Hx; [|done]. injection Hy as <-. destruct (Hg x eq_refl) as [-> _]. by apply H1.
    + rewrite list_lookup_alter_ne in Hy by done. by apply H1.
  - intros k Hk. destruct (H2 k Hk) as [y Hy]. apply lookup_lt_is_Some. rewrite length_alter. by eapply lookup_lt_Some.
  - intros k y Hy. destruct (decide (k = f)) as [->|Hne].
    + rewrite list_lookup_alter_eq in Hy. destruct (t !! f) as [x|] eqn:Hx; [|done]. injection Hy as <-. destruct (Hg x eq_refl) as [E1 E2].
      rewrite E1. intros E. rewrite E2 by done. by eapply H3.
    + rewrite list_lookup_alter_ne in Hy by done. by eapply H3.
Qed.

(** ** The invariant

    [o] are the processes whose pointer [swapFile] is in use; [hand] are the
    references that the running call holds. *)

Definition NPROC : nat := 64.
Definition holders (s : ftstate) (o : gset nat) : list (option nat) :=
  concat (ofiles s) ++ ((fun p => default None (swapfile s !! p)) <$> elements o).
Record fd_inv (s : ftstate) (o : gset nat) (hand : list (option nat)) : Prop := {
  fd_refs : refs_ok (ftable s) (hand ++ holders s o);
  fd_shape : Forall (fun l => length l = NOFILE) (ofiles s);
  fd_procs : (length (ofiles s) <= NPROC)%nat;
  fd_swaps : length (swapfile s) = NPROC;
  fd_owned : forall p, p ∈ o -> (p < NPROC)%nat;
  fd_hand : (length hand <= 4)%nat
}.

Lemma length_holders s o hand : fd_inv s o hand -> (length (hand ++ holders s o) <= 2000)%nat.
Proof.
  intros [_ H1 H2 _ H3 H4]. unfold holders. rewrite !length_app, length_fmap.
  assert (length (concat (ofiles s)) = length (ofiles s) * NOFILE)%nat as E.
  { clear H2. induction H1 as [|l ls Hl _ IH]; [done|]. cbn [concat length]. rewrite length_app, IH, Hl. lia. }
  assert (o ⊆ (set_seq 0 NPROC : gset nat)) as Ho by (intros p Hp%H3; apply elem_of_set_seq; lia).
  apply subseteq_size in Ho. rewrite size_set_seq in Ho. change (base.size o) with (length (elements o)) in Ho. rewrite E. unfold NPROC, NOFILE in *. lia.
Qed.
Lemma fd_inv_bound s o hand f x : fd_inv s o hand -> ftable s !! f = Some x -> 0 <= fref x <= 2000.
Proof.
  intros I Hx. rewrite (ro_count _ _ (fd_refs _ _ _ I) f x Hx). pose proof (length_holders _ _ _ I). pose proof (count_le f (hand ++ holders s o)). lia.
Qed.

(** The table and the descriptors stay as they are. *)
Definition same_fd (s s' : ftstate) : Prop :=
  ftable s' = ftable s /\ ofiles s' = ofiles s /\ swapfile s' = swapfile s /\ kcur s' = kcur s.
Lemma fd_inv_same s s' o h : same_fd s s' -> fd_inv s o h -> fd_inv s' o h.
Proof.
  intros (E1 & E2 & E3 & E4) [H1 H2 H3 H4 H5 H6]. split; rewrite ?E1, ?E2, ?E3; try done. unfold holders in *. by rewrite E2, E3.
Qed.
Lemma fd_inv_table s o h h' t :
  fd_inv s o h -> refs_ok t (h' ++ holders s o) -> (length h' <= 4)%nat -> fd_inv {| s with ftable := t |} o h'.
Proof. intros [H1 H2 H3 H4 H5 H6] Ht Hh. by split. Qed.
Lemma fd_inv_hand s o h h' : fd_inv s o h -> same_refs h h' -> (length h' <= 4)%nat -> fd_inv s o h'.
Proof. intros [H1 H2 H3 H4 H5 H6] E Hh. split; try done. by rewrite <- E. Qed.

(** ** Descriptors *)

Lemma free_fd_spec l : forall k fd, free_fd l k = Some fd -> exists j, fd = (k + j)%nat /\ l !! j = Some None.
Proof.
  induction l as [|[f|] l IH]; intros k fd E; [done| |].
  - apply IH in E as (j & -> & Hj). exists (S j). split; [lia|done].
  - injection E as <-. exists 0%nat. split; [lia|done].
Qed.
Definition ofile_of (s : ftstate) (p : nat) : list (option nat) := default [] (ofiles s !! p).
Definition with_ofile (s : ftstate) (p fd : nat) (v : option nat) : ftstate :=
  {| s with ofiles := alter (fun l => <[fd := v]> l) p (ofiles s) |}.
Lemma ofile_some s p fd v : ofile_of s p !! fd = Some v -> exists l, ofiles s !! p = Some l /\ l !! fd = Some v.
Proof. unfold ofile_of. destruct (ofiles s !! p) as [l|]; [|done]. eauto. Qed.
Lemma count_concat f ls k l l' : ls !! k = Some l -> (count f (concat (<[k := l']> ls)) + count f l = count f (concat ls) + count f l')%nat.
Proof.
  revert k. induction ls as [|h ls IH]; intros [|k] Hk; try done.
  - injection Hk as ->. change (<[0%nat := l']> (l :: ls)) with (l' :: ls). cbn [concat]. rewrite !count_app. lia.
  - change (<[S k := l']> (h :: ls)) with (h :: <[k := l']> ls). cbn [concat]. rewrite !count_app. specialize (IH k Hk). lia.
Qed.
Lemma holders_ofile s o p fd v w f :
  ofile_of s p !! fd = Some v -> (count f (holders (with_ofile s p fd w) o) + count f [v] = count f (holders s o) + count f [w])%nat.
Proof.
  intros (l & Hl & Hv)%ofile_some. unfold holders, with_ofile. cbn [ofiles swapfile]. rewrite !count_app.
  rewrite (list_alter_insert_lookup _ _ _ l) by done. pose proof (count_concat f _ _ _ (<[fd := w]> l) Hl). pose proof (count_insert f l fd v w Hv). lia.
Qed.
Lemma fd_inv_ofile s o h h' p fd w :
  fd_inv s o h -> refs_ok (ftable s) (h' ++ holders (with_ofile s p fd w) o) -> (length h' <= 4)%nat -> fd_inv (with_ofile s p fd w) o h'.
Proof.
  intros [H1 H2 H3 H4 H5 H6] Hr Hh. split; cbn; try done; [|by rewrite length_alter]. apply Forall_lookup. intros k l Hl.
  destruct (decide (k = p)) as [->|Hne].
  - rewrite list_lookup_alter_eq in Hl. destruct (ofiles s !! p) as [l0|] eqn:El; [|done]. injection Hl as <-. rewrite length_insert.
    by apply (Forall_lookup_1 _ _ _ _ H2 El).
  - rewrite list_lookup_alter_ne in Hl by done. by apply (Forall_lookup_1 _ _ _ _ H2 Hl).
Qed.
(** A reference moves from the hand into a descriptor, or back. *)
Lemma fd_inv_give s o h p fd f : ofile_of s p !! fd = Some None -> fd_inv s o (Some f :: h) -> fd_inv (with_ofile s p fd (Some f)) o h.
Proof.
  intros Hv I. eapply fd_inv_ofile; [exact I| |pose proof (fd_hand _ _ _ I) as Hh; cbn in Hh; lia].
  eapply refs_ok_proper; [|exact (fd_refs _ _ _ I)]. intros k. pose proof (holders_ofile s o p fd None (Some f) k Hv) as E.
  rewrite count_app. cbn [app]. rewrite (count_cons k (Some f) (h ++ _)), count_app, !(count_cons _ _ []) in *. rewrite (decide_False (P := None = Some k)) in E by done.
  lia.
Qed.
Lemma fd_inv_take s o h p fd f :
  ofile_of s p !! fd = Some (Some f) -> (length h < 4)%nat -> fd_inv s o h -> fd_inv (with_ofile s p fd None) o (Some f :: h).
Proof.
  intros Hv Hh I. eapply fd_inv_ofile; [exact I| |cbn; lia].
  eapply refs_ok_proper; [|exact (fd_refs _ _ _ I)]. intros k. pose proof (holders_ofile s o p fd (Some f) None k Hv) as E.
  cbn [app]. rewrite (count_cons k (Some f) (h ++ _)), !count_app, !(count_cons _ _ []) in *. rewrite (decide_False (P := None = Some k)) in E by done.
  lia.
Qed.

(** ** Operations on the table *)

Lemma free_entry_spec l : forall k f, free_entry l k = Some f -> exists j x, f = (k + j)%nat /\ l !! j = Some x /\ fref x = 0.
Proof.
  induction l as [|y l IH]; intros k f E; [done|]. cbn in E. destruct (Z.eqb_spec (fref y) 0).
  - injection E as <-. exists 0%nat, y. split_and!; [lia|done|done].
  - apply IH in E as (j & x & -> & Hj & Hx). exists (S j), x. split_and!; [lia|done|done].
Qed.
Lemma wlp_filealloc s o h (Q : option nat -> ftstate -> Prop) :
  fd_inv s o h -> (length h < 4)%nat -> Q None s ->
  (forall f t, fd_inv {| s with ftable := t |} o (Some f :: h) -> Q (Some f) {| s with ftable := t |}) -> wlp filealloc Q s.
Proof.
  intros I Hh HN HS. unfold filealloc. apply wlp_bind, wlp_gets. destruct (free_entry (ftable s) 0) as [f|] eqn:E; [|by apply wlp_ret].
  apply free_entry_spec in E as (j & x & -> & Hx & Hr). cbn [Nat.add]. apply wlp_bind, wlp_modify, wlp_ret. apply HS.
  eapply fd_inv_table; [exact I| |cbn; lia]. cbn [app]. apply (refs_ok_more _ _ j x); [apply I|done|]. cbn. lia.
Qed.
Lemma wlp_fdalloc s f (Q : Z -> ftstate -> Prop) :
  Q (-1) s -> (forall fd, cur_ofile s !! fd = Some None -> Q (Z.of_nat fd) (with_ofile s (kcur s) fd (Some f))) -> wlp (fdalloc f) Q s.
Proof.
  intros HN HS. unfold fdalloc. apply wlp_bind, wlp_gets. destruct (free_fd (cur_ofile s) 0) as [fd|] eqn:E; [|by apply wlp_ret].
  apply free_fd_spec in E as (j & -> & Hj). apply wlp_bind, wlp_modify, wlp_ret. by apply HS.
Qed.
Lemma ofile_with s p fd v w : ofile_of s p !! fd = Some v -> ofile_of (with_ofile s p fd w) p !! fd = Some w.
Proof.
  intros (l & Hl & Hv)%ofile_some. unfold ofile_of, with_ofile. cbn. rewrite list_lookup_alter_eq, Hl. cbn.
  apply list_lookup_insert_eq. by eapply lookup_lt_Some.
Qed.
Lemma wlp_filedup s f (Q : nat -> ftstate -> Prop) :
  (forall x, ftable s !! f = Some x -> 0 <= fref x <= 2000) ->
  (forall x t, ftable s !! f = Some x -> 1 <= fref x -> t = alter (fun x => {| x with fref := fref x + 1 |}) f (ftable s) -> Q f {| s with ftable := t |}) ->
  wlp (filedup f) Q s.
Proof.
  intros Hb HQ. unfold filedup. apply wlp_bind, wlp_get_file. intros x Hx. destruct (Z.ltb_spec (fref x) 1); [apply wlp_panic|].
  apply wlp_bind, wlp_modify, wlp_ret. apply (HQ x); [done|lia|]. rewrite !(list_alter_insert_lookup _ _ _ x) by done.
  specialize (Hb x Hx). by rewrite s32_small by lia.
Qed.

(** The table after an entry lost a reference. *)
Definition dropped (x : file) : file :=
  if fref x =? 1 then {| x with fref := 0; ftype := FD_NONE |} else {| x with fref := fref x - 1 |}.
Lemma wlp_keep {A} (m : M ftstate A) (Q : A -> ftstate -> Prop) s :
  (forall a s', m s = Ok a s' -> same_fd s s') -> (forall a s', same_fd s s' -> Q a s') -> wlp m Q s.
Proof. intros H HQ a s' E. apply HQ. by eapply H. Qed.
Lemma keep_on_fs {A} (m : M fstate A) s a s' : on_fs m s = Ok a s' -> same_fd s s'.
Proof. unfold on_fs, zoom. destruct (m (kfs s)); [|done..]. by intros [= _ <-]. Qed.
Lemma keep_bind {A B} (m : M ftstate A) (g : A -> M ftstate B) :
  (forall s a s', m s = Ok a s' -> same_fd s s') -> (forall x s a s', g x s = Ok a s' -> same_fd s s') ->
  forall s a s', (m ≫= g) s = Ok a s' -> same_fd s s'.
Proof.
  intros H1 H2 s b s'' (a & s' & E1 & E2)%bind_Ok. apply H1 in E1 as (? & ? & ? & ?). apply H2 in E2 as (? & ? & ? & ?). unfold same_fd. split_and!; congruence.
Qed.
Lemma keep_deref p s a s' : deref p s = Ok a s' -> same_fd s s'.
Proof. destruct p; [|done]. by intros [= _ <-]. Qed.
Lemma keep_get_pipe p s a s' : get_pipe p s = Ok a s' -> same_fd s s'.
Proof. unfold get_pipe. destruct p as [q|]; [|done]. destruct (kpipes s !! q); [|done]. by intros [= _ <-]. Qed.
Lemma keep_close_pipe p w s a s' : close_pipe p w s = Ok a s' -> same_fd s s'.
Proof.
  revert s a s'. apply keep_bind; [apply keep_get_pipe|]. intros [q x] s a s'. destruct (Pipe.pipeclose _ _) as [[x' l] []].
  - by intros [= _ <-].
  - by intros [= _ <-].
Qed.
Lemma keep_close_inode p : forall s a s',
  (on_fs (on_log begin_op) ;; ip ← deref p; on_fs (iput ip) ;; on_fs (on_log end_op)) s = Ok a s' -> same_fd s s'.
Proof.
  apply keep_bind; [apply keep_on_fs|]. intros _. apply keep_bind; [apply keep_deref|]. intros ip.
  apply keep_bind; [apply keep_on_fs|]. intros _. apply keep_on_fs.
Qed.

Lemma wlp_fileclose s f (Q : unit -> ftstate -> Prop) :
  (forall x, ftable s !! f = Some x -> 0 <= fref x <= 2000) ->
  (forall x s', ftable s !! f = Some x -> 1 <= fref x -> same_fd {| s with ftable := alter dropped f (ftable s) |} s' -> Q tt s') ->
  wlp (fileclose f) Q s.
Proof.
  intros Hb HQ. unfold fileclose. apply wlp_bind, wlp_get_file. intros x Hx. specialize (Hb x Hx). destruct (Z.ltb_spec (fref x) 1); [apply wlp_panic|].
  unfold set_file. apply wlp_bind, wlp_modify. specialize (fun s' => HQ x s' Hx ltac:(lia)). rewrite (list_alter_insert_lookup _ _ _ x) in HQ by done.
  rewrite (list_alter_insert_lookup _ _ _ x) by done. unfold dropped in HQ. destruct (Z.ltb_spec 0 (fref x - 1)).
  - apply wlp_ret. apply HQ. rewrite s32_small by lia. by destruct (Z.eqb_spec (fref x) 1); [lia|].
  - rewrite (proj2 (Z.eqb_eq (fref x) 1)) in HQ by lia. apply wlp_bind, wlp_modify. cbn [ftable].
    rewrite (list_alter_insert_lookup _ _ _ {| x with fref := s32 (fref x - 1) |}); [|apply list_lookup_insert_eq; by eapply lookup_lt_Some].
    rewrite list_insert_insert_eq. destruct (ftype x); [by apply wlp_ret, HQ|eapply wlp_keep; [apply keep_close_pipe|intros []; apply HQ]|].
    eapply wlp_keep; [|intros []; apply HQ]. apply keep_close_inode.
Qed.

(** ** Calls that keep the references *)

Definition holds {A} (o : gset nat) (h : list (option nat)) (m : M ftstate A) : Prop :=
  forall s, fd_inv s o h -> wlp m (fun _ s' => fd_inv s' o h) s.
Create HintDb holds.
Section Holds.
Context (o : gset nat) (h : list (option nat)).
Lemma holds_ret {A} (a : A) : holds o h (mret a).
Proof. intros s I. by apply wlp_ret. Qed.
Lemma holds_bind {A B} (m : M ftstate A) (g : A -> M ftstate B) : holds o h m -> (forall a, holds o h (g a)) -> holds o h (m ≫= g).
Proof. intros Hm Hg s I. apply wlp_bind. eapply wlp_mono; [by apply Hm|]. intros a s' I'. by apply Hg. Qed.
Lemma holds_gets {A} (g : ftstate -> A) : holds o h (gets g).
Proof. intros s I. by apply wlp_gets. Qed.
Lemma holds_panic {A} e : holds o h (panic (A := A) e).
Proof. intros s I. apply wlp_panic. Qed.
Lemma holds_diverge {A} : holds o h (diverge (A := A)).
Proof. intros s I. apply wlp_diverge. Qed.
Lemma holds_when b m : holds o h m -> holds o h (when b m).
Proof. destruct b; [done|]. intros _. apply holds_ret. Qed.
Lemma holds_get_file f : holds o h (get_file f).
Proof. intros s I. by apply wlp_get_file. Qed.
Lemma holds_keep {A} (m : M ftstate A) : (forall s a s', m s = Ok a s' -> same_fd s s') -> holds o h m.
Proof. intros H s I a s' E. eapply fd_inv_same; [by eapply H|done]. Qed.
Lemma holds_on_fs {A} (m : M fstate A) : holds o h (on_fs m).
Proof. apply holds_keep. intros s a s'. apply keep_on_fs. Qed.
Lemma holds_deref p : holds o h (deref p).
Proof. apply holds_keep. intros s a s'. apply keep_deref. Qed.
Lemma holds_get_pipe p : holds o h (get_pipe p).
Proof. apply holds_keep. intros s a s'. apply keep_get_pipe. Qed.
Lemma holds_set_pipe q x : holds o h (set_pipe q x).
Proof. apply holds_keep. by intros s a s' [= _ <-]. Qed.
Lemma holds_set_file f g : (forall x, fref (g x) = fref x /\ ftype (g x) = ftype x) -> holds o h (set_file f g).
Proof.
  intros Hg s I. apply wlp_modify. eapply fd_inv_table; [exact I| |apply I]. apply refs_ok_same; [apply I|]. intros x _.
  destruct (Hg x). auto.
Qed.
End Holds.
#[export] Hint Resolve holds_ret holds_gets holds_panic holds_diverge holds_get_file holds_on_fs holds_deref holds_get_pipe holds_set_pipe : holds.
#[export] Hint Extern 1 (holds _ _ (set_file _ _)) => (apply holds_set_file; done) : holds.

Ltac holds_step :=
  match goal with
  | |- holds _ _ (mbind _ _) => apply holds_bind; [|intros ?]
  | |- holds _ _ (when _ _) => apply holds_when
  | |- holds _ _ (if ?b then _ else _) => destruct b
  | |- holds _ _ (match ?x with _ => _ end) => destruct x
  | |- holds _ _ (let _ := _ in _) => cbv zeta
  | |- holds _ _ _ => solve [auto with holds]
  end.
Ltac holds_tac := repeat holds_step.

Section Kept.
Context {DS : DevSwitch} (o : gset nat) (h : list (option nat)).
Lemma holds_fileread f n : holds o h (fileread f n).
Proof. unfold fileread, read_pipe. holds_tac. Qed.
Lemma holds_write_piece f b : holds o h (write_piece f b).
Proof. unfold write_piece. holds_tac. Qed.
Lemma holds_filewrite_pieces f fuel : forall src, holds o h (filewrite_pieces f src fuel).
Proof. induction fuel; intros []; cbn [filewrite_pieces]; holds_tac; apply holds_write_piece. Qed.
Lemma holds_filewrite f b : holds o h (filewrite f b).
Proof. unfold filewrite, write_pipe. holds_tac. apply holds_filewrite_pieces. Qed.
Lemma holds_filestat f : holds o h (filestat f).
Proof. unfold filestat. holds_tac. Qed.
Lemma holds_argfd fd : holds o h (argfd fd).
Proof. unfold argfd. holds_tac. Qed.
End Kept.
#[export] Hint Resolve holds_fileread holds_filewrite holds_filestat holds_argfd : holds.

(** ** Calls that move references *)

Lemma fd_inv_files s o h f : fd_inv s o h -> forall x, ftable s !! f = Some x -> 0 <= fref x <= 2000.
Proof. intros I x. by eapply fd_inv_bound. Qed.
Lemma refs_ok_dropped t hs f x : refs_ok t (Some f :: hs) -> t !! f = Some x -> 1 <= fref x -> refs_ok (alter dropped f t) hs.
Proof.
  intros R Hx Hr. unfold dropped. apply (refs_ok_less _ _ _ x); [done|done| |].
  - destruct (Z.eqb_spec (fref x) 1) as [E|]; cbn; lia.
  - destruct (Z.eqb_spec (fref x) 1) as [E|]; cbn; [done|lia].
Qed.
Lemma wlp_close_hand s o h f (Q : unit -> ftstate -> Prop) :
  fd_inv s o (Some f :: h) -> (forall s', fd_inv s' o h -> ofiles s' = ofiles s -> kcur s' = kcur s -> Q tt s') -> wlp (fileclose f) Q s.
Proof.
  intros I HQ. apply wlp_fileclose; [by eapply fd_inv_files|]. intros x s' Hx Hr E. apply HQ; [|apply E|apply E]. eapply fd_inv_same; [exact E|].
  eapply fd_inv_table; [exact I| |pose proof (fd_hand _ _ _ I) as Hh; cbn in Hh; lia]. eapply refs_ok_dropped; [apply I|done|done].
Qed.
Lemma argfd_spec fd s (Q : option nat -> ftstate -> Prop) :
  Q None s -> (forall f, 0 <= fd -> ofile_of s (kcur s) !! Z.to_nat fd = Some (Some f) -> Q (Some f) s) -> wlp (argfd fd) Q s.
Proof.
  intros HN HS. unfold argfd. apply wlp_bind, wlp_gets. destruct (Z.ltb_spec fd 0); [by apply wlp_ret|]. cbn [orb].
  destruct (_ <=? fd); [by apply wlp_ret|]. apply wlp_ret. change (cur_ofile s) with (ofile_of s (kcur s)).
  destruct (ofile_of s (kcur s) !! Z.to_nat fd) as [[f|]|] eqn:E; [by apply HS|done|done].
Qed.

Lemma ofile_holder s o p fd f : ofile_of s p !! fd = Some (Some f) -> Some f ∈ holders s o.
Proof.
  intros (l & Hl & Hf)%ofile_some. apply elem_of_app. left. apply list_elem_of_In, in_concat. exists l.
  split; apply list_elem_of_In; by eapply list_elem_of_lookup_2.
Qed.
Lemma holders_same s s' o : same_fd s s' -> holders s' o = holders s o.
Proof. intros (_ & E2 & E3 & _). unfold holders. by rewrite E2, E3. Qed.
(** Any field but the count of an entry that is referred to may change. *)
Lemma refs_ok_used t hs f g : refs_ok t hs -> Some f ∈ hs -> (forall x, fref (g x) = fref x) -> refs_ok (alter g f t) hs.
Proof.
  intros R Hin Hg. apply refs_ok_same; [done|]. intros x Hx. split; [apply Hg|]. intros E. rewrite (ro_count _ _ R f x Hx) in E.
  apply count_pos in Hin. lia.
Qed.

Section Calls.
Context {DS : DevSwitch} (o : gset nat).

Lemma holds_sys_dup fd : holds o [] (sys_dup fd).
Proof.
  intros s I. unfold sys_dup. apply wlp_bind, argfd_spec; [by apply wlp_ret|]. intros f H0 Hf. apply wlp_bind, wlp_fdalloc; [by apply wlp_ret|].
  intros fd' Hfd. destruct (Z.ltb_spec (Z.of_nat fd') 0); [lia|]. apply wlp_bind, wlp_filedup; [by eapply (fd_inv_files s)|].
  intros x t Hx Hr ->. apply wlp_ret.
  change (fd_inv (with_ofile {| s with ftable := alter (fun x => {| x with fref := fref x + 1 |}) f (ftable s) |} (kcur s) fd' (Some f)) o []).
  apply fd_inv_give; [done|]. eapply fd_inv_table; [exact I| |cbn; lia]. by apply (refs_ok_more _ _ _ x); [apply I|..].
Qed.
Lemma holds_sys_close fd : holds o [] (sys_close fd).
Proof.
  intros s I. unfold sys_close. apply wlp_bind, argfd_spec; [by apply wlp_ret|]. intros f H0 Hf. apply wlp_bind, wlp_modify.
  apply wlp_bind. change (wlp (fileclose f) (fun a s' => wlp (mret 0) (fun _ s' => fd_inv s' o []) s') (with_ofile s (kcur s) (Z.to_nat fd) None)).
  eapply wlp_close_hand; [apply (fd_inv_take _ _ []); [exact Hf|cbn; lia|exact I]|]. intros s' I' _ _. by apply wlp_ret.
Qed.
Lemma holds_sys_open path omode : holds o [] (sys_open path omode).
Proof.
  intros s I. unfold sys_open. destruct path as [path|]; [|by apply wlp_ret]. apply wlp_bind. eapply wlp_mono; [by apply holds_on_fs|].
  clear s I. intros r s I. destruct r as [ip|]; [|by apply wlp_ret]. apply wlp_bind. eapply wlp_filealloc; [exact I|cbn; lia| |].
  { revert s I. change (holds o [] (on_fs (iunlockput ip) ;; on_fs (on_log end_op) ;; mret (-1))). holds_tac. }
  intros f t It. set (s1 := {| s with ftable := t |}) in *. clearbody s1. clear s I t. apply wlp_bind, wlp_fdalloc.
  - cbn [Z.ltb Z.compare]. apply wlp_bind. eapply wlp_close_hand; [exact It|]. intros s2 I2 _ _. revert s2 I2.
    change (holds o [] (on_fs (iunlockput ip) ;; on_fs (on_log end_op) ;; mret (-1))). holds_tac.
  - intros fd Hfd. destruct (Z.ltb_spec (Z.of_nat fd) 0); [lia|]. 
    assert (fd_inv (with_ofile s1 (kcur s1) fd (Some f)) o []) as I2 by (by apply fd_inv_give).
    assert (Some f ∈ holders (with_ofile s1 (kcur s1) fd (Some f)) o) as Hin by (by eapply ofile_holder, ofile_with).
    apply wlp_bind. eapply wlp_keep; [apply keep_on_fs|]. intros _ s3 E3. apply wlp_bind. eapply wlp_keep; [apply keep_on_fs|]. intros _ s4 E4.
    apply wlp_bind, wlp_modify, wlp_ret. assert (fd_inv s4 o []) as I4 by (by eapply fd_inv_same, fd_inv_same).
    eapply fd_inv_table; [exact I4| |cbn; lia]. eapply refs_ok_used; [apply I4|by rewrite (holders_same _ _ _ E4), (holders_same _ _ _ E3)|done].
Qed.
(** An entry in hand is set up. *)
Lemma holds_set_hand f g h : Some f ∈ h -> (forall x, fref (g x) = fref x) -> holds o h (set_file f g).
Proof.
  intros Hin Hg s I. apply wlp_modify. eapply fd_inv_table; [exact I| |apply I]. apply refs_ok_used; [apply I| |done].
  apply elem_of_app. by left.
Qed.
Lemma wlp_holds {A} (m : M ftstate A) (Q : A -> ftstate -> Prop) h s :
  holds o h m -> fd_inv s o h -> (forall a s', fd_inv s' o h -> Q a s') -> wlp m Q s.
Proof. intros Hm I HQ. eapply wlp_mono; [by apply Hm|]. done. Qed.
Lemma wlp_pipealloc page s (Q : option (nat * nat) -> ftstate -> Prop) :
  fd_inv s o [] -> (forall s', fd_inv s' o [] -> Q None s') -> (forall f0 f1 s', fd_inv s' o [Some f1; Some f0] -> Q (Some (f0, f1)) s') ->
  wlp (pipealloc page) Q s.
Proof.
  intros I HN HS. unfold pipealloc. apply wlp_bind. eapply wlp_filealloc; [exact I|cbn; lia|by apply wlp_ret, HN|]. intros f0 t0 I0.
  apply wlp_bind. eapply wlp_filealloc; [exact I0|cbn; lia| |].
  { apply wlp_bind. eapply wlp_close_hand; [exact I0|]. intros s' I' _ _. by apply wlp_ret, HN. }
  intros f1 t1 I1. destruct page as [[p d]|].
  - apply wlp_bind. eapply wlp_holds; [by apply holds_set_pipe|exact I1|]. intros _ s2 I2.
    apply wlp_bind. eapply wlp_holds; [apply holds_set_hand; [right; by left|done]|exact I2|]. intros _ s3 I3.
    apply wlp_bind. eapply wlp_holds; [apply holds_set_hand; [by left|done]|exact I3|]. intros _ s4 I4. by apply wlp_ret, HS.
  - apply wlp_bind. apply (wlp_close_hand _ o [Some f1]).
    { eapply fd_inv_hand; [exact I1|apply (same_refs_swap (Some f0) [Some f1] [])|cbn; lia]. }
    intros s' I' _ _. apply wlp_bind. eapply wlp_close_hand; [exact I'|]. intros s2 I2 _ _. by apply wlp_ret, HN.
Qed.
Lemma holds_sys_pipe page ok : holds o [] (sys_pipe page ok).
Proof.
  intros s I. unfold sys_pipe. destruct ok; [|by apply wlp_ret]. cbn [negb]. apply wlp_bind, wlp_pipealloc; [done|intros s' I'; by apply wlp_ret|].
  clear s I. intros rf wf s I. assert (fd_inv s o [Some rf; Some wf]) as I' by (eapply fd_inv_hand; [exact I|apply (same_refs_swap (Some rf) [Some wf] [])|cbn; lia]).
  assert (forall s', fd_inv s' o [Some rf; Some wf] -> wlp (fileclose rf ;; fileclose wf ;; mret (@None (Z * Z))) (fun _ s' => fd_inv s' o []) s') as Hbad.
  { intros s' H. apply wlp_bind. eapply wlp_close_hand; [exact H|]. intros s2 I2 _ _. apply wlp_bind. eapply wlp_close_hand; [exact I2|].
    intros s3 I3 _ _. by apply wlp_ret. }
  apply wlp_bind, wlp_fdalloc; [by apply Hbad|]. intros fd0 H0. destruct (Z.ltb_spec (Z.of_nat fd0) 0); [lia|].
  apply wlp_bind, wlp_fdalloc.
  - cbn [Z.ltb Z.compare]. apply wlp_bind, wlp_modify, Hbad. rewrite Nat2Z.id. 
    change (fd_inv (with_ofile (with_ofile s (kcur s) fd0 (Some rf)) (kcur s) fd0 None) o [Some rf; Some wf]).
    apply fd_inv_take; [by eapply ofile_with|cbn; lia|by apply fd_inv_give].
  - intros fd1 H1. destruct (Z.ltb_spec (Z.of_nat fd1) 0); [lia|]. apply wlp_ret. by apply fd_inv_give; [|apply fd_inv_give].
Qed.
End Calls.

(** ** Processes *)

Lemma holds_for_each {A} o h (l : list A) body : (forall x, holds o h (body x)) -> holds o h (for_each l body).
Proof. intros H. induction l as [|x l IH]; cbn; [apply holds_ret|]. by apply holds_bind. Qed.
Lemma holds_exit_files o : holds o [] close_files.
Proof.
  apply holds_for_each. intros fd s I. apply wlp_bind, wlp_gets. change (cur_ofile s) with (ofile_of s (kcur s)).
  destruct (ofile_of s (kcur s) !! fd) as [[f|]|] eqn:Hf; [|by apply wlp_ret..].
  pose proof (fd_inv_take s o [] _ _ _ Hf ltac:(cbn; lia) I) as It.
  apply wlp_bind, wlp_fileclose; [by eapply fd_inv_files|]. intros x s' Hx Hr (E1 & E2 & E3 & E4). apply wlp_modify. cbn in *.
  eapply (fd_inv_same (with_ofile {| s with ftable := alter dropped f (ftable s) |} (kcur s) fd None)); [split_and!; cbn; congruence|].
  change (fd_inv {| (with_ofile s (kcur s) fd None) with ftable := alter dropped f (ftable s) |} o []).
  eapply fd_inv_table; [exact It| |cbn; lia]. eapply refs_ok_dropped; [exact (fd_refs _ _ _ It)|done|done].
Qed.

(** The descriptors of [np] from [k] on are free. *)
Definition free_from (s : ftstate) (np k : nat) : Prop := forall fd, (k <= fd < NOFILE)%nat -> ofile_of s np !! fd = Some None.
Lemma free_from_with s np k v : free_from s np k -> free_from (with_ofile s np k v) np (S k).
Proof.
  intros H fd Hfd. specialize (H fd ltac:(lia)). apply ofile_some in H as (l & Hl & Hf). unfold ofile_of, with_ofile. cbn.
  rewrite list_lookup_alter_eq, Hl. cbn. by rewrite list_lookup_insert_ne by lia.
Qed.
Lemma free_from_S s np k : free_from s np k -> free_from s np (S k).
Proof. intros H fd Hfd. apply H. lia. Qed.
Lemma wlp_fork_file o np k s :
  fd_inv s o [] -> free_from s np k -> (k < NOFILE)%nat -> wlp (fork_file np k) (fun _ s' => fd_inv s' o [] /\ free_from s' np (S k)) s.
Proof.
  intros I F Hk. unfold fork_file. apply wlp_bind, wlp_gets. pose proof (free_from_S _ _ _ F) as F'.
  destruct (cur_ofile s !! k) as [[f|]|]; [|by apply wlp_ret..]. apply wlp_bind, wlp_filedup; [by eapply fd_inv_files|].
  intros x t Hx Hr ->. apply wlp_modify.
  set (s1 := {| s with ftable := alter (fun x => {| x with fref := fref x + 1 |}) f (ftable s) |}).
  change (fd_inv (with_ofile s1 np k (Some f)) o [] /\ free_from (with_ofile s1 np k (Some f)) np (S k)).
  split; [|by apply free_from_with]. apply fd_inv_give; [apply (F k); lia|]. eapply fd_inv_table; [exact I| |cbn; lia].
  by apply (refs_ok_more _ _ _ x); [apply I|..].
Qed.
Lemma wlp_fork_files o np s : fd_inv s o [] -> free_from s np 0 -> wlp (fork_files np) (fun _ s' => fd_inv s' o []) s.
Proof.
  unfold fork_files. assert (0 + NOFILE = NOFILE)%nat as E by done. revert E. generalize NOFILE at 1 3 as n. generalize 0%nat as k. intros k n. revert k s.
  induction n as [|n IH]; intros k s E I F; [by apply wlp_ret|]. cbn [seq for_each]. apply wlp_bind.
  eapply wlp_mono; [apply wlp_fork_file; [done|done|lia]|]. intros _ s' [I' F']. apply IH; [lia|done|done].
Qed.

(** ** Swap files *)

Lemma count_perm f hs hs' : hs ≡ₚ hs' -> count f hs = count f hs'.
Proof. intros H. unfold count. by rewrite H. Qed.
Lemma holders_own s o p v :
  p ∉ o -> (p < length (swapfile s))%nat ->
  same_refs (holders {| s with swapfile := <[p := v]> (swapfile s) |} ({[p]} ∪ o)) (v :: holders s o).
Proof.
  intros Hp Hl f. unfold holders. cbn [ofiles swapfile]. rewrite !count_app, count_cons, count_app.
  rewrite (count_perm f (_ <$> elements ({[p]} ∪ o)) (v :: ((fun q => default None (swapfile s !! q)) <$> elements o))).
  - rewrite count_cons. lia.
  - rewrite elements_union_singleton by done. cbn. rewrite list_lookup_insert_eq by done. cbn. f_equiv.
    match goal with |- ?a ≡ₚ ?b => enough (a = b) as -> by done end. apply list_fmap_ext. intros k q Hq. rewrite list_lookup_insert_ne; [done|]. intros ->. apply Hp, elem_of_elements. by eapply list_elem_of_lookup_2.
Qed.
Lemma holders_disown s o p : p ∈ o -> same_refs (holders s o) (default None (swapfile s !! p) :: holders s (o ∖ {[p]})).
Proof.
  intros Hp f. unfold holders. rewrite count_cons, !count_app.
  rewrite (count_perm f (_ <$> elements o) (default None (swapfile s !! p) :: ((fun q => default None (swapfile s !! q)) <$> elements (o ∖ {[p]})))).
  - rewrite count_cons. lia.
  - transitivity ((fun q => default None (swapfile s !! q)) <$> p :: elements (o ∖ {[p]})); [|done]. apply fmap_Permutation.
    rewrite <- elements_union_singleton by set_solver. by rewrite <- union_difference_singleton_L.
Qed.

Section SwapFiles.
Context {DS : DevSwitch}.
(** [createSwapFile] up to the invariant: [f] is the new entry. *)
Lemma wlp_createSwapFile p s (Q : Z -> ftstate -> Prop) :
  (forall s1, same_fd s s1 -> forall f x, ftable s1 !! f = Some x -> fref x = 0 ->
     forall s', ofiles s' = ofiles s -> swapfile s' = <[p := Some f]> (swapfile s) -> kcur s' = kcur s ->
       (exists g, ftable s' = alter g f (ftable s) /\ forall y, fref (g y) = 1) -> Q 0 s') ->
  wlp (createSwapFile p) Q s.
Proof.
  intros HQ. unfold createSwapFile. apply wlp_bind, wlp_gets. apply wlp_bind. eapply wlp_keep; [apply keep_on_fs|]. intros _ s1 E1.
  apply wlp_bind. eapply wlp_keep; [apply keep_on_fs|]. intros ip s2 E2. apply wlp_bind. eapply wlp_keep; [apply keep_on_fs|]. intros _ s3 E3.
  assert (same_fd s s3) as E. { destruct E1 as (? & ? & ? & ?), E2 as (? & ? & ? & ?), E3 as (? & ? & ? & ?). split_and!; congruence. }
  apply wlp_bind. unfold filealloc. apply wlp_bind, wlp_gets. destruct (free_entry (ftable s3) 0) as [f|] eqn:Ef.
  2: { apply wlp_ret, wlp_bind, wlp_modify, wlp_panic. }
  apply free_entry_spec in Ef as (j & x & -> & Hx & Hr). cbn [Nat.add]. apply wlp_bind, wlp_modify, wlp_ret, wlp_bind, wlp_modify, wlp_bind, wlp_modify.
  apply wlp_bind. eapply wlp_keep; [apply keep_on_fs|]. intros _ s4 (F1 & F2 & F3 & F4). apply wlp_ret. cbn in *. destruct E as (G1 & G2 & G3 & G4).
  apply (HQ s3 ltac:(done) j x Hx Hr); try congruence. rewrite F1, (list_alter_insert_lookup _ (ftable s3) j x) by done.
  erewrite list_alter_insert_lookup; [|apply list_lookup_insert_eq; by eapply lookup_lt_Some]. rewrite list_insert_insert_eq, G1 in *.
  match goal with |- context [<[j := ?y]> _] => exists (fun _ => y) end. split; [|done]. by rewrite (list_alter_insert_lookup _ _ _ x).
Qed.
Lemma own_swap_file o p s :
  fd_inv s o [] -> p ∉ o -> (p < NPROC)%nat -> wlp (createSwapFile p) (fun _ s' => fd_inv s' ({[p]} ∪ o) []) s.
Proof.
  intros I Hp Hn. apply wlp_createSwapFile. intros s1 E1 f x Hx Hr s' E2 E3 E4 (g & E5 & Hg). destruct E1 as (G1 & _). rewrite G1 in Hx.
  pose proof I as [I1 I2 I3 I4 I5 I6]. split; rewrite ?E2, ?E3; try done.
  - eapply refs_ok_proper.
    + cbn [app]. transitivity (holders {| s with swapfile := <[p := Some f]> (swapfile s) |} ({[p]} ∪ o)); [unfold holders; by rewrite E2, E3|].
      apply holders_own; [done|by rewrite I4].
    + rewrite E5. apply (refs_ok_more _ _ _ x); [exact I1|done|]. rewrite Hg. lia.
  - by rewrite length_insert.
  - intros q [->%elem_of_singleton|Hq]%elem_of_union; [done|by apply I5].
Qed.
Lemma disown_swap_file o p s :
  fd_inv s o [] -> p ∈ o -> wlp (removeSwapFile p) (fun _ s' => fd_inv s' (o ∖ {[p]}) []) s.
Proof.
  intros I Hp. unfold removeSwapFile. apply wlp_bind, wlp_gets, wlp_bind, wlp_gets. pose proof (holders_disown s o p Hp) as Hh.
  assert (fd_inv s (o ∖ {[p]}) [default None (swapfile s !! p)]) as I1.
  { destruct I as [I1 I2 I3 I4 I5 I6]. split; try done; [|set_solver|cbn; lia]. cbn [app] in *. by rewrite <- Hh. }
  destruct (default None (swapfile s !! p)) as [f|] eqn:E.
  - apply wlp_bind. eapply wlp_close_hand; [exact I1|]. intros s' I' _ _. eapply wlp_mono; [by apply holds_on_fs|done].
  - apply wlp_ret. eapply fd_inv_hand; [exact I1|by intros f|cbn; lia].
Qed.
Lemma holds_swap_write o p buf off : holds o [] (writeToSwapFile p buf off).
Proof. unfold writeToSwapFile, swap_file. holds_tac. by intros s I b s' [=]. Qed.
Lemma holds_swap_read o p off n : holds o [] (readFromSwapFile p off n).
Proof. unfold readFromSwapFile, swap_file. holds_tac. by intros s I b s' [=]. Qed.
End SwapFiles.

(** ** Sequences of calls *)

Section Steps.
Context {DS : DevSwitch}.

(** A call of some process, or a switch to another process; calls that touch
    only the file system are [step_fs]. *)
Inductive fdstep : ftstate * gset nat -> ftstate * gset nat -> Prop :=
  | step_dup s o fd r s' : sys_dup fd s = Ok r s' -> fdstep (s, o) (s', o)
  | step_close s o fd r s' : sys_close fd s = Ok r s' -> fdstep (s, o) (s', o)
  | step_open s o path omode r s' : sys_open path omode s = Ok r s' -> fdstep (s, o) (s', o)
  | step_pipe s o page ok r s' : sys_pipe page ok s = Ok r s' -> fdstep (s, o) (s', o)
  | step_read s o fd n ok r s' : sys_read fd n ok s = Ok r s' -> fdstep (s, o) (s', o)
  | step_write s o fd src ok r s' : sys_write fd src ok s = Ok r s' -> fdstep (s, o) (s', o)
  | step_fstat s o fd ok r s' : sys_fstat fd ok s = Ok r s' -> fdstep (s, o) (s', o)
  | step_fork s o np r s' : free_from s np 0 -> fork_files np s = Ok r s' -> fdstep (s, o) (s', o)
  | step_exit s o r s' : close_files s = Ok r s' -> fdstep (s, o) (s', o)
  | step_create s o p r s' : p ∉ o -> (p < NPROC)%nat -> createSwapFile p s = Ok r s' -> fdstep (s, o) (s', {[p]} ∪ o)
  | step_remove s o p r s' : p ∈ o -> removeSwapFile p s = Ok r s' -> fdstep (s, o) (s', o ∖ {[p]})
  | step_swap_write s o p buf off r s' : writeToSwapFile p buf off s = Ok r s' -> fdstep (s, o) (s', o)
  | step_swap_read s o p off n r s' : readFromSwapFile p off n s = Ok r s' -> fdstep (s, o) (s', o)
  | step_fs s o A (m : M fstate A) r s' : on_fs m s = Ok r s' -> fdstep (s, o) (s', o)
  | step_switch s o p : fdstep (s, o) ({| s with kcur := p |}, o).

Lemma fdstep_inv c c' : fdstep c c' -> fd_inv (fst c) (snd c) [] -> fd_inv (fst c') (snd c') [].
Proof.
  destruct 1 as [s o fd r s' E|s o fd r s' E|s o path omode r s' E|s o page ok r s' E|s o fd n ok r s' E|s o fd src ok r s' E|s o fd ok r s' E
    |s o np r s' F E|s o r s' E|s o p r s' Hp Hn E|s o p r s' Hp E|s o p buf off r s' E|s o p off n r s' E|s o A m r s' E|s o p]; cbn [fst snd]; intros I.
  - by eapply holds_sys_dup.
  - by eapply holds_sys_close.
  - by eapply holds_sys_open.
  - by eapply holds_sys_pipe.
  - assert (holds o [] (sys_read fd n ok)) as H by (unfold sys_read; holds_tac). by eapply H.
  - assert (holds o [] (sys_write fd src ok)) as H by (unfold sys_write; holds_tac). by eapply H.
  - assert (holds o [] (sys_fstat fd ok)) as H by (unfold sys_fstat; holds_tac). by eapply H.
  - by eapply wlp_fork_files.
  - by eapply holds_exit_files.
  - by eapply own_swap_file.
  - by eapply disown_swap_file.
  - by eapply holds_swap_write.
  - by eapply holds_swap_read.
  - by eapply holds_on_fs.
  - by destruct I as [I1 I2 I3 I4 I5 I6]; split.
Qed.

(** Nothing is open. *)
Definition fd_start (s : ftstate) : Prop :=
  (exists n, ftable s = replicate n file_zero) /\ Forall (fun l => l = replicate NOFILE None) (ofiles s) /\
  (length (ofiles s) <= NPROC)%nat /\ length (swapfile s) = NPROC.
Lemma count_none f hs : Forall (.= None) hs -> count f hs = 0%nat.
Proof. intros H. destruct (count f hs) eqn:E; [done|]. assert (Some f ∈ hs) as Hin by (apply count_pos; lia). rewrite Forall_forall in H. by apply H in Hin. Qed.
Lemma fd_start_inv s : fd_start s -> fd_inv s ∅ [].
Proof.
  intros ((n & Et) & Ho & Hl & Hs). assert (Forall (.= None) (holders s ∅)) as Hn.
  { unfold holders. rewrite elements_empty. apply Forall_app. split; [|constructor]. apply Forall_concat. eapply Forall_impl; [exact Ho|].
    intros l ->. by apply Forall_replicate. }
  split; try done; [|eapply Forall_impl; [exact Ho|by intros l ->; rewrite length_replicate]|cbn; lia]. cbn [app]. rewrite Et. split.
  - intros f x [-> _]%lookup_replicate. by rewrite count_none.
  - intros f Hf. rewrite Forall_forall in Hn. by apply Hn in Hf.
  - by intros f x [-> _]%lookup_replicate.
Qed.

Lemma reachable_inv s0 s o : fd_start s0 -> rtc fdstep (s0, ∅) (s, o) -> fd_inv s o [].
Proof.
  intros H0%fd_start_inv R. change (fd_inv (fst (s, o)) (snd (s, o)) []).
  change (fd_inv (fst (s0, ∅ : gset nat)) (snd (s0, ∅ : gset nat)) []) in H0. revert R H0. generalize (s0, ∅ : gset nat), (s, o).
  intros c c' R. induction R as [|c1 c2 c3 H R IH]; [done|]. intros H1. apply IH. by eapply fdstep_inv.
Qed.


(** exec calls [createSwapFile] for a process that has a swap file, which loses
    the entry of the old one: its count stays one above the number of the
    descriptors and swap files that refer to it, so that no sequence of closes
    frees it. *)
Theorem exec_loses_file s0 s o p f r s' :
  fd_start s0 -> rtc fdstep (s0, ∅) (s, o) -> p ∈ o -> swapfile s !! p = Some (Some f) -> createSwapFile p s = Ok r s' ->
  exists x, ftable s' !! f = Some x /\ fref x = Z.of_nat (count f (holders s' o)) + 1.
Proof.
  intros H0 R Hp Hf E. pose proof (reachable_inv _ _ _ H0 R) as I. pose proof (fd_refs _ _ _ I) as Rf. cbn in Rf.
  pose proof (holders_disown s o p Hp f) as H1. rewrite Hf in H1. cbn [default from_option id] in H1. rewrite count_cons, decide_True in H1 by done.
  assert (Some f ∈ holders s o) as Hin by (apply count_pos; lia). destruct (ro_valid _ _ Rf f Hin) as [x Hx]. pose proof (ro_count _ _ Rf f x Hx) as Hc.
  revert r s' E. change (wlp (createSwapFile p) (fun _ s' => exists x, ftable s' !! f = Some x /\ fref x = Z.of_nat (count f (holders s' o)) + 1) s).
  apply wlp_createSwapFile. intros s1 (E1 & _) g y Hy Hr s' E2 E3 E4 (h & E5 & Hh). rewrite E1 in Hy.
  assert (g ≠ f) as Hne by (intros ->; rewrite Hx in Hy; injection Hy as ->; lia).
  exists x. split; [by rewrite E5, list_lookup_alter_ne|]. pose proof (holders_disown s' o p Hp f) as H2. rewrite E3 in H2.
  rewrite list_lookup_insert_eq in H2 by (by eapply lookup_lt_Some). cbn [default from_option id] in H2. rewrite count_cons, decide_False in H2 by congruence.
  assert (holders s' (o ∖ {[p]}) = holders s (o ∖ {[p]})) as Eh; [|rewrite Eh in H2; lia].
  unfold holders. rewrite E2, E3. f_equal. apply list_fmap_ext. intros k q Hq. rewrite list_lookup_insert_ne; [done|].
  intros ->. apply list_elem_of_lookup_2, elem_of_elements in Hq. set_solver.
Qed.
End Steps.
