(* ===== verification/FsDemo.v ===== *)
(** A small file system, on which the theorems about fs.c are applied: a root
    directory with one file, in memory and locked, inside a transaction. *)

From stdpp Require Import base gmap list strings.
From Stdlib Require Import ZArith Lia.
From S2P Require Import Prelude Files Block Log Fs FsTx FsAlloc FsFile.
Open Scope Z_scope.

Definition demo_sb : superblock :=
  {| sb_size := 64; sb_nblocks := 29; sb_ninodes := 16; sb_nlog := 30; sb_logstart := 2; sb_inodestart := 32; sb_bmapstart := 34 |}.
Definition demo_root : inode := mk_inode 1 1 1 true 1 T_DIR 0 0 1 48 (35 :: replicate NDIRECT 0).
Definition demo_file : inode := mk_inode 1 2 1 true 1 T_FILE 0 0 1 5 (36 :: replicate NDIRECT 0).
Definition pad (bs : list Z) : list Z := take (Z.to_nat BSIZE) (bs ++ zeros).
(** ".", "..", "a" and "hello" *)
Definition demo_dir : list Z := encode_dirent 1 [46] ++ encode_dirent 1 [46; 46] ++ encode_dirent 2 [97].
Definition demo_text : list Z := [104; 101; 108; 108; 111].
Definition demo_block (b : Z) : list Z :=
  if b =? 32 then put (put zeros (dip 1) (encode_inode demo_root)) (dip 2) (encode_inode demo_file)
  else if b =? 34 then pad [255; 255; 255; 255; 31]
  else if b =? 35 then pad demo_dir
  else if b =? 36 then pad demo_text
  else zeros.
Definition demo_fs : gmap Z (list Z) := list_to_map ((fun b => (b, demo_block b)) <$> seqZ 0 64).
Definition demo_state : fstate := {|
  fl := {| st := mk_store demo_fs demo_fs ∅ [] []; lg := {| (boot_log 2 LOGSIZE) with outstanding := 1 |} |};
  fsb := demo_sb;
  icache := demo_root :: demo_file :: replicate 48 inode_zero;
  fcwd := 0
|}.

(** Properties of a range of numbers, by evaluation. *)
Lemma forall_range (P : Z -> bool) n : forallb P (seqZ 0 n) = true -> forall b, 0 <= b < n -> P b = true.
Proof. intros H b Hb. apply (proj1 (forallb_forall _ _) H). apply list_elem_of_In, elem_of_seqZ. lia. Qed.
Lemma demo_lookup b : 0 <= b < 64 -> demo_fs !! b = Some (demo_block b).
Proof.
  intros Hb. apply elem_of_list_to_map_1.
  - rewrite <- list_fmap_compose. rewrite (list_fmap_ext _ id) by done. rewrite list_fmap_id. apply NoDup_seqZ.
  - apply list_elem_of_fmap. exists b. split; [done|]. apply elem_of_seqZ. lia.
Qed.
Lemma demo_lookup_inv b d : demo_fs !! b = Some d -> 0 <= b < 64 /\ d = demo_block b.
Proof. intros H. apply elem_of_list_to_map_2, list_elem_of_fmap in H as (x & [= -> ->] & Hx). apply elem_of_seqZ in Hx. split; [lia|done]. Qed.
Lemma demo_is_block b : 0 <= b < 64 -> is_block (demo_block b).
Proof.
  intros Hb. assert (forallb (fun b => (length (demo_block b) =? 512)%nat && forallb (fun x => (0 <=? x) && (x <? 256)) (demo_block b)) (seqZ 0 64) = true) as H.
  { vm_compute. reflexivity. }
  apply (forall_range _ _ H) in Hb. apply andb_true_iff in Hb as [H1 H2]. apply Nat.eqb_eq in H1. split; [done|].
  apply Forall_forall. intros x Hx. pose proof (proj1 (forallb_forall _ _) H2 x (proj1 (list_elem_of_In _ _) Hx)) as H3. cbv beta in H3. bool_hyps. lia.
Qed.
Lemma demo_in_use b : 0 <= b < 64 -> in_use demo_fs demo_sb b = (b <? 37).
Proof.
  intros Hb. assert (forallb (fun b => eqb (in_use demo_fs demo_sb b) (b <? 37)) (seqZ 0 64) = true) as H by (vm_compute; reflexivity).
  apply (forall_range _ _ H) in Hb. by apply eqb_prop.
Qed.
Lemma demo_layout : layout demo_fs demo_sb.
Proof.
  split; cbn [sb_size sb_nblocks sb_ninodes demo_sb]; try lia.
  - intros b Hb. rewrite demo_lookup by done. by eexists.
  - intros b d H. apply demo_lookup_inv in H as [Hb ->]. by apply demo_is_block.
  - intros b Hb. change (BBLOCK b demo_sb) with (b / 4096 + 34). zlia.
  - intros n Hn. change (IBLOCK n demo_sb) with (n / 8 + 32). zlia.
  - intros b n Hb Hn. change (BBLOCK b demo_sb) with (b / 4096 + 34). change (IBLOCK n demo_sb) with (n / 8 + 32). zlia.
  - intros b Hb. rewrite demo_in_use by lia. apply Z.ltb_lt. lia.
  - intros b Hb. unfold in_log in Hb. change (sb_logstart demo_sb) with 2 in Hb. change LOGSIZE with 30 in Hb. split_and!; [lia|lia| |].
    + intros x Hx. change (BBLOCK x demo_sb) with (x / 4096 + 34). zlia.
    + intros n Hn. change (IBLOCK n demo_sb) with (n / 8 + 32). zlia.
Qed.
Lemma demo_tx : tx demo_state [] 27.
Proof.
  split.
  - split; cbn.
    + done.
    + intros b d H. apply demo_lookup_inv in H as [Hb ->]. by apply demo_is_block.
    + intros b d H. apply demo_lookup_inv in H as [Hb ->]. by apply demo_is_block.
    + done.
    + apply NoDup_nil_2.
  - done.
  - exists []. cbn. split_and!; try done; [apply NoDup_nil_2|unfold NBUF; lia].
  - intros _. cbn. lia.
  - intros b Hb. by apply elem_of_empty in Hb.
Qed.

Lemma slot_single v i a j : addrs i = a :: replicate NDIRECT 0 -> is_slot j -> slot v i j = if decide (j = 0) then a else 0.
Proof.
  intros Ea Hj. unfold slot, ind. rewrite Ea. case_decide as E; [by subst j|]. unfold is_slot in Hj. destruct (Z.ltb_spec j 12).
  - destruct (Z.to_nat j) as [|k] eqn:Ek; [lia|]. cbn [nth]. rewrite nth_lookup. destruct (_ !! _) eqn:E2; [|done]. by apply lookup_replicate in E2 as [-> _].
  - by destruct (j =? SLOT_IND).
Qed.
(** A file of one block. *)
Lemma demo_single i a :
  addrs i = a :: replicate NDIRECT 0 -> 35 <= a < 37 -> 0 <= size i <= 512 -> 0 <= inum i < 16 -> file_ok demo_fs demo_sb i.
Proof.
  intros Ea Ha Hs Hn. split; [|unfold MAXFILE, BSIZE; lia| |done].
  - split; [by rewrite Ea| |].
    + intros j Hj. rewrite (slot_single _ _ a) by done. case_decide; [|done]. intros _. split; [unfold data_block; cbn; lia|].
      rewrite demo_in_use by lia. apply Z.ltb_lt. lia.
    + intros j j' Hj Hj'. rewrite !(slot_single _ _ a) by done. repeat case_decide; lia.
  - intros o Ho. rewrite (slot_single _ _ a); [|done|unfold is_slot, SLOT_IND, BSIZE; zlia]. rewrite decide_True; [lia|]. unfold BSIZE. zlia.
Qed.
Lemma demo_root_ok : file_ok demo_fs demo_sb demo_root.
Proof. apply (demo_single _ 35); [done|cbn; lia..]. Qed.
Lemma demo_file_ok : file_ok demo_fs demo_sb demo_file.
Proof. apply (demo_single _ 36); [done|cbn; lia..]. Qed.
Lemma demo_nfree : nfree demo_fs demo_sb = 27%nat.
Proof. vm_compute. reflexivity. Qed.
