(* ===== verification/FsExamples.v ===== *)
(** The theorems about files, directories, inodes and the block allocator
    applied to the file system of FsDemo.v. *)

From stdpp Require Import base gmap list strings.
From Stdlib Require Import ZArith Lia.
From S2P Require Import Prelude Files Block Log Fs FsTx FsAlloc FsFile FsDir FsInode FsDemo.
Open Scope Z_scope.

(** No devices. *)
#[local] Instance no_device_files : DevSwitch := {| dev_read := fun _ => None; dev_write := fun _ => None |}.

Lemma demo_cache_inv : cache_inv (icache demo_state).
Proof.
  assert (forall j i, icache demo_state !! j = Some i -> i = demo_root /\ j = 0%nat \/ i = demo_file /\ j = 1%nat \/ i = inode_zero) as H.
  { intros [|[|j]] i Hj; cbn in Hj; [injection Hj as <-; by left|injection Hj as <-; right; by left|].
    right. right. by apply (lookup_replicate_1 48 inode_zero i j) in Hj as [-> _]. }
  split.
  - intros j i Hj. destruct (H j i Hj) as [[-> _]|[[-> _]| ->]]; cbn; lia.
  - intros j j' i i' Hj Hj'. destruct (H j i Hj) as [[-> ->]|[[-> ->]| ->]], (H j' i' Hj') as [[-> ->]|[[-> ->]| ->]]; cbn; try done; lia.
Qed.
Lemma demo_room n : cache_room (icache demo_state) 1 n.
Proof.
  split; [apply demo_cache_inv|]. split.
  - unfold refs. cbn. repeat case_if; cbn; lia.
  - exists 2%nat, inode_zero. split; [reflexivity|by left].
Qed.

Lemma readi_correct_witness : wp (readi 1 1 10) (fun r s' => r = Some [101; 108; 108; 111] /\ s' = demo_state) demo_state.
Proof.
  eapply wp_mono; [eapply (readi_correct demo_state 27 1 demo_file)|].
  - apply demo_layout.
  - reflexivity.
  - apply demo_tx.
  - discriminate.
  - apply demo_file_ok.
  - lia.
  - unfold W32. lia.
  - intros r s' (-> & ->). split; [vm_compute; reflexivity|reflexivity].
Defined.

(** "hello" becomes "help me". *)
Lemma writei_correct_witness :
  wp (writei 1 [112; 32; 109; 101] 3) (fun r s' => r = 4 /\ exists i', file_written demo_state s' 1 demo_file i' [104; 101; 108; 112; 32; 109; 101]) demo_state.
Proof.
  eapply wp_mono; [eapply (writei_correct demo_state 0 1 demo_file)|].
  - apply demo_layout.
  - reflexivity.
  - apply (tx_weaken _ _ 27); [apply demo_tx|vm_compute; lia].
  - discriminate.
  - apply demo_file_ok.
  - repeat constructor; lia.
  - lia.
  - unfold W32. cbn. lia.
  - change (V demo_state) with demo_fs. change (fsb demo_state) with demo_sb. rewrite demo_nfree. vm_compute. lia.
  - intros r s' [_ H]. vm_compute (write_at _ _ _) in H. destruct H as (H & i' & W & _). split; [exact H|by exists i'].
Defined.

Lemma dirlookup_correct_witness : wp (dirlookup 0 [97]) (fun r s' => exists ip' l', r = Some (ip', 32) /\ s' = with_cache demo_state l' /\ got (icache demo_state) l' ip' 1 2) demo_state.
Proof.
  eapply wp_mono; [eapply (dirlookup_correct demo_state 0 0 demo_root) with (name := [97])|].
  - apply demo_layout.
  - reflexivity.
  - apply (tx_weaken _ _ 27); [apply demo_tx|lia].
  - reflexivity.
  - apply demo_root_ok.
  - vm_compute. reflexivity.
  - intros n off _. apply demo_room.
  - intros r s' H. vm_compute (dir_lookup _ _) in H. exact H.
Defined.

Lemma dirlink_correct_witness : wp (dirlink 0 [98] 3) (fun r s' => r = 0 /\ exists i' c', file_written demo_state s' 0 demo_root i' c' /\
  dir_lookup c' [98] = Some (3, 48) /\ option_map fst (dir_lookup c' [97]) = Some 2) demo_state.
Proof.
  eapply wp_mono; [eapply (dirlink_correct demo_state 0 0 demo_root) with (name := [98]) (n := 3)|].
  - apply demo_layout.
  - reflexivity.
  - apply (tx_weaken _ _ 27); [apply demo_tx|lia].
  - reflexivity.
  - apply demo_root_ok.
  - vm_compute. reflexivity.
  - repeat constructor; lia.
  - lia.
  - vm_compute. reflexivity.
  - vm_compute. discriminate.
  - change (V demo_state) with demo_fs. change (fsb demo_state) with demo_sb. rewrite demo_nfree. lia.
  - intros r s' (-> & i' & c' & W & _ & H1 & H2). split; [done|]. exists i', c'. split; [exact W|]. split.
    + rewrite H1. vm_compute. reflexivity.
    + rewrite H2 by reflexivity. vm_compute. reflexivity.
Defined.

(** The file after it was unlinked and closed. *)
Definition demo_orphan : inode := {| demo_file with ilk := false; nlink := 0 |}.
Definition demo_unlinked : fstate := with_cache demo_state (<[1%nat := demo_orphan]> (icache demo_state)).
Lemma iput_frees_witness : wp (iput 1) (fun _ s' => in_use (V s') demo_sb 36 = false /\ in_use (V s') demo_sb 35 = true /\ inode_free (V s') demo_sb 2) demo_unlinked.
Proof.
  assert (file_inv demo_fs demo_sb demo_orphan) as F by (destruct (fo_inv _ _ _ demo_file_ok); by split).
  eapply wp_mono; [eapply (iput_frees demo_unlinked 0 1 demo_orphan)|].
  - apply demo_layout.
  - reflexivity.
  - apply tx_with_cache, (tx_weaken _ _ 27); [apply demo_tx|lia].
  - unfold one_bitmap_block. vm_compute. discriminate.
  - exact F.
  - cbn. lia.
  - reflexivity.
  - discriminate.
  - reflexivity.
  - reflexivity.
  - intros r s' D. change demo_sb with (fsb demo_unlinked). split_and!.
    + destruct (in_use _ _ 36) eqn:E; [|done]. apply (di_use _ _ _ _ D) in E as [_ E]; [|cbn; lia]. exfalso. apply E. split; [done|]. by exists 0.
    + apply (di_use _ _ _ _ D); [cbn; lia|]. split; [apply (demo_in_use 35); lia|]. intros (_ & j & Hj & E).
      rewrite (slot_single _ _ 36) in E by done. case_decide; done.
    + apply (di_free _ _ _ _ D).
Defined.

Lemma ialloc_correct_witness : wp (ialloc 1 T_FILE) (fun r s' => got (icache demo_state) (icache s') r 1 3) demo_state.
Proof.
  eapply wp_mono; [eapply (ialloc_correct demo_state 0) with (dv := 1) (ty := T_FILE)|].
  - apply demo_layout.
  - apply (tx_weaken _ _ 27); [apply demo_tx|lia].
  - reflexivity.
  - exists 3. split; [cbn; lia|]. vm_compute. reflexivity.
  - intros x _ _. apply demo_room.
  - intros r s' (n & Hn & Fn & First & G & _). assert (n = 3) as ->; [|exact G].
    assert (inode_freeb (V demo_state) (fsb demo_state) 3 = true) as F3 by (vm_compute; reflexivity).
    assert (inode_freeb (V demo_state) (fsb demo_state) 1 = false) as F1 by (vm_compute; reflexivity).
    assert (inode_freeb (V demo_state) (fsb demo_state) 2 = false) as F2 by (vm_compute; reflexivity).
    destruct (Z.lt_total n 3) as [H|[H|H]]; [|done|rewrite First in F3 by lia; discriminate].
    assert (n = 1 \/ n = 2) as [-> | ->] by lia; congruence.
Defined.

Lemma balloc_correct_witness : wp balloc (fun r s' => r = 37 /\ V s' !! 37 = Some zeros) demo_state.
Proof.
  eapply wp_mono; [eapply (balloc_correct demo_state 0)|].
  - apply (tx_weaken _ _ 27); [apply demo_tx|lia].
  - apply demo_layout.
  - change (V demo_state) with demo_fs. change (fsb demo_state) with demo_sb. rewrite demo_nfree. lia.
  - intros r s' (D & Fr & First & Z & _). change (V demo_state) with demo_fs in *. change (fsb demo_state) with demo_sb in *.
    assert (r = 37) as ->; [|done]. unfold data_block in D. cbn in D. destruct (Z.lt_total r 37) as [H|[H|H]]; [|done|].
    + rewrite demo_in_use in Fr by lia. apply Z.ltb_ge in Fr. lia.
    + specialize (First 37 ltac:(lia)). rewrite demo_in_use in First by lia. discriminate First.
Defined.
