(* ===== verification/FileExamples.v ===== *)
(** Applications of the theorems of File.v and Descr.v to the file system of
    FsDemo.v. *)

From stdpp Require Import base gmap list strings relations.
From Stdlib Require Import ZArith Lia.
From S2P Require Import Prelude Files Block Log Fs FsTx FsAlloc FsFile FsDir FsOp File Sysfile Descr FsDemo.
Open Scope Z_scope.

(** No devices. *)
#[local] Instance no_devices : DevSwitch := { dev_read _ := None; dev_write _ := None }.

(** No operation is under way, the root directory and the file are not locked;
    the file is open at its end. *)
Definition demo_idle : fstate := {|
  fl := {| st := mk_store demo_fs demo_fs ∅ [] []; lg := boot_log 2 LOGSIZE |};
  fsb := demo_sb;
  icache := locked demo_root false :: locked demo_file false :: replicate 48 inode_zero;
  fcwd := 0
|}.
Definition demo_open_file : file := mk_file FD_INODE 1 1 1 None (Some 1%nat) 5.
Definition demo_ft : ftstate := {|
  kfs := demo_idle;
  ftable := demo_open_file :: replicate 99 file_zero;
  kpipes := ∅;
  ofiles := [Some 0%nat :: replicate 15 None; replicate 16 None];
  swapfile := replicate 64 None;
  pids := [1; 7];
  kcur := 0
|}.
Lemma demo_idle_ok : idle demo_idle.
Proof.
  split; [|reflexivity..]. split.
  - split; cbn [st lg fl demo_idle disk vw bheld pinned].
    + reflexivity.
    + intros b d H. apply demo_lookup_inv in H as [Hb ->]. by apply demo_is_block.
    + intros b d H. apply demo_lookup_inv in H as [Hb ->]. by apply demo_is_block.
    + reflexivity.
    + apply NoDup_nil_2.
  - reflexivity.
  - reflexivity.
  - reflexivity.
  - reflexivity.
  - reflexivity.
  - apply NoDup_nil_2.
  - constructor.
  - constructor.
  - intros b Hb. change (is_Some (demo_fs !! b)). rewrite demo_lookup; [by eexists|]. unfold in_log in Hb. change LOGSIZE with 30 in Hb.
    change (start (lg (fl demo_idle))) with 2 in Hb. lia.
  - cbn. unfold NBUF. lia.
  - exists zeros. split; [change (demo_fs !! 2 = Some (demo_block 2)); by apply demo_lookup|reflexivity].
Qed.
Lemma demo_open : open_file demo_ft 0 demo_open_file 1 (locked demo_file false).
Proof.
  split; [reflexivity..|cbn; lia|reflexivity|discriminate|discriminate|cbn; unfold W32; lia|apply demo_idle_ok|apply demo_layout|].
  apply file_ok_locked, demo_file_ok.
Qed.

Lemma fileread_refines_witness :
  wp (fileread 0 10) (fun r s' => r = Some [] /\ s' = demo_ft) demo_ft.
Proof.
  eapply wp_mono; [apply (fileread_refines demo_ft 0 demo_open_file 1 (locked demo_file false) demo_open 10); [done|lia]|].
  intros r s' [E1 E2]. vm_compute (read_at _ _ _) in E1. subst r. split; [done|]. rewrite E2. reflexivity.
Defined.
(** " world" is appended to "hello". *)
Lemma filewrite_refines_witness :
  wp (filewrite 0 [32; 119; 111; 114; 108; 100]) (fun r s' => r = 6 /\ exists i',
    wrote_file demo_ft s' 0 demo_open_file 1 (locked demo_file false) i' (demo_text ++ [32; 119; 111; 114; 108; 100]) 6) demo_ft.
Proof.
  eapply wp_mono; [apply (filewrite_refines demo_ft 0 demo_open_file 1 (locked demo_file false) demo_open)|].
  - done.
  - repeat constructor; lia.
  - change (V (kfs demo_ft)) with demo_fs. change (fsb (kfs demo_ft)) with demo_sb. rewrite demo_nfree. vm_compute. lia.
  - intros r s' H. vm_compute (filewrite_loop _ _ _ _) in H. destruct H as (-> & i' & n & W & Hn). split; [done|]. exists i'.
    rewrite (Hn eq_refl) in W. exact W.
Defined.

(** ** Descriptors *)

Definition run_call {A} (m : M ftstate A) (s : ftstate) : ftstate := match m s with Ok _ s' => s' | _ => s end.
(** Nothing is open; two processes. *)
Definition fd_boot : ftstate := {| demo_ft with ftable := replicate 100 file_zero; ofiles := replicate 2 (replicate 16 None) |}.
Lemma fd_boot_start : fd_start fd_boot.
Proof. split; [by exists 100%nat|]. split; [repeat constructor|]. split; [cbn; unfold NPROC; lia|done]. Qed.

(** A process opens a pipe, forks and closes its end for reading. *)
Definition fd_pipe : ftstate := run_call (sys_pipe (Some (0%nat, replicate 4096 0)) true) fd_boot.
Definition fd_fork : ftstate := run_call (fork_files 1) fd_pipe.
Definition fd_closed : ftstate := run_call (sys_close 0) fd_fork.
Lemma free_from_empty s np : ofile_of s np = replicate NOFILE None -> free_from s np 0.
Proof. intros E fd Hfd. rewrite E. apply lookup_replicate. split; [done|lia]. Qed.
Lemma fd_closed_reachable : rtc fdstep (fd_boot, ∅) (fd_closed, ∅).
Proof.
  eapply rtc_l; [eapply (step_pipe _ _ (Some (0%nat, replicate 4096 0)) true _ fd_pipe); vm_compute; reflexivity|].
  eapply rtc_l; [eapply (step_fork _ _ 1 _ fd_fork); [apply free_from_empty; vm_compute; reflexivity|vm_compute; reflexivity]|].
  eapply rtc_l; [eapply (step_close _ _ 0 _ fd_closed); vm_compute; reflexivity|]. apply rtc_refl.
Qed.

(** Process 1 gets a swap file and calls exec. *)
Definition with_swap : ftstate := run_call (createSwapFile 1) fd_boot.
Definition after_exec : ftstate := run_call (createSwapFile 1) with_swap.
Lemma created_ok : exists r, createSwapFile 1 fd_boot = Ok r with_swap.
Proof. eexists. vm_compute. reflexivity. Qed.
Lemma exec_ok : exists r, createSwapFile 1 with_swap = Ok r after_exec.
Proof. eexists. vm_compute. reflexivity. Qed.
Lemma create_reachable s s' p r : (p < NPROC)%nat -> createSwapFile p s = Ok r s' -> rtc fdstep (s, ∅) (s', {[p]}).
Proof.
  intros Hp E. rewrite <- (union_empty_r_L {[p]}). apply rtc_once. by apply (step_create _ _ _ r); [apply not_elem_of_empty|..].
Qed.
Lemma exec_loses_file_witness :
  exists x, ftable after_exec !! 0%nat = Some x /\ fref x = Z.of_nat (count 0 (holders after_exec {[1%nat]})) + 1.
Proof.
  destruct created_ok as [r E], exec_ok as [r' E']. apply (exec_loses_file fd_boot with_swap {[1%nat]} 1 0 r' after_exec).
  - apply fd_boot_start.
  - apply (create_reachable _ _ _ r); [unfold NPROC; lia|exact E].
  - by apply elem_of_singleton.
  - vm_compute. reflexivity.
  - exact E'.
Defined.
