(* ===== verification/Ulib.v ===== *)
(** The library of the user programs: strings and numbers (ulib.c) and
    formatted output (printf.c), with the calls [read] and [write] as a process
    sees them. *)

From stdpp Require Import base list strings.
From Stdlib Require Import ZArith Lia Ascii.
From S2P Require Import Prelude.
Open Scope Z_scope.

(** ** Strings

    A C string is the list of its characters without the terminating zero. *)

Definition str (s : string) : list Z := (fun c => Z.of_nat (nat_of_ascii c)) <$> String.list_ascii_of_string s.
Definition NL : Z := 10.

Fixpoint strcmp (p q : list Z) : Z :=
  match p, q with
  | a :: p', b :: q' => if a =? b then strcmp p' q' else a - b
  | a :: _, [] => a
  | [], b :: _ => - b
  | [], [] => 0
  end.
Fixpoint strlen (s : list Z) : Z := match s with [] => 0 | _ :: s' => 1 + strlen s' end.
(** The rest of the string from the first [c] on. *)
Fixpoint strchr (s : list Z) (c : Z) : option (list Z) :=
  match s with
  | [] => None
  | a :: s' => if a =? c then Some s else strchr s' c
  end.
(** [n*10 + *s++ - '0'] wraps around. *)
Fixpoint atoi_loop (n : Z) (s : list Z) : Z :=
  match s with
  | [] => n
  | c :: s' => if (48 <=? c) && (c <=? 57) then atoi_loop (s32 (n * 10 + c - 48)) s' else n
  end.
Definition atoi (s : list Z) : Z := atoi_loop 0 s.

(** ** Input and output

    The results of the coming calls of [read] on the input, what was written to
    which descriptor, and whether [write] fails. *)

Inductive rd := Bytes (b : list Z) | ReadError.
Record io := mk_io { input : list rd; output : list (Z * list Z); broken : bool }.

(** At most [n] bytes, none at the end of the file; -1 is [None]. *)
Definition read (n : Z) : M io (option (list Z)) := fun s =>
  match input s with
  | [] => Ok (Some []) s
  | ReadError :: l => Ok None {| s with input := l |}
  | Bytes b :: l =>
      if Z.of_nat (length b) <=? n then Ok (Some b) {| s with input := l |}
      else Ok (Some (take (Z.to_nat n) b)) {| s with input := Bytes (drop (Z.to_nat n) b) :: l |}
  end.
Definition write (fd : Z) (b : list Z) : M io Z := fun s =>
  if broken s then Ok (-1) s else Ok (Z.of_nat (length b)) {| s with output := output s ++ [(fd, b)] |}.
(** What a descriptor received. *)
Definition received (fd : Z) (s : io) : list Z := concat (snd <$> filter (fun w => fst w = fd) (output s)).

Fixpoint gets_loop (i max : Z) (fuel : nat) : M io (list Z) :=
  if negb (i + 1 <? max) then mret [] else
  match fuel with
  | O => diverge
  | S fuel' =>
      r ← read 1;
      match r with
      | Some (c :: _) =>
          if (c =? 10) || (c =? 13) then mret [c] else
          rest ← gets_loop (i + 1) max fuel'; mret (c :: rest)
      | _ => mret []
      end
  end.
(** The characters stored before the zero. *)
Definition gets (max : Z) : M io (list Z) := gets_loop 0 max (Z.to_nat max).

(** ** printf *)

Definition digits_upper : list Z := str "0123456789ABCDEF".
(** The digits in the order of their computation, least significant first. *)
Fixpoint digits_of (tbl : list Z) (x base : Z) (fuel : nat) : list Z :=
  match fuel with
  | O => []
  | S fuel' => default 0 (tbl !! Z.to_nat (x mod base)) :: (if x / base =? 0 then [] else digits_of tbl (x / base) base fuel')
  end.
(** The contents of [buf]; a 32-bit number has at most 32 digits. *)
Definition printint_buf (tbl : list Z) (xx base : Z) (sgn : bool) : list Z :=
  let neg := sgn && (xx <? 0) in
  let x := if neg then u32 (- xx) else u32 xx in
  digits_of tbl x base 32 ++ (if neg then [45] else []).
Definition putc (fd c : Z) : M io unit := write fd [c] ;; mret tt.
Definition putcs (fd : Z) (l : list Z) : M io unit := for_each l (putc fd).
Definition printint (fd xx base : Z) (sgn : bool) : M io unit := putcs fd (rev (printint_buf digits_upper xx base sgn)).

(** The words on the stack after the format. *)
Inductive parg := AInt (x : Z) | AStr (s : option (list Z)).
Definition as_int (a : parg) : M io Z := match a with AInt x => mret x | AStr _ => ub end.

(** The format from a position on; [state] says that a % was read. *)
Fixpoint printf_loop (fd : Z) (fmt : list Z) (state : bool) (args : list parg) : M io unit :=
  match fmt with
  | [] => mret tt
  | c :: fmt' =>
      if negb state then
        if c =? 37 then printf_loop fd fmt' true args
        else putc fd c ;; printf_loop fd fmt' false args
      else if c =? 100 then
        match args with
        | a :: args' => x ← as_int a; printint fd (s32 x) 10 true ;; printf_loop fd fmt' false args'
        | [] => ub
        end
      else if (c =? 120) || (c =? 112) then
        match args with
        | a :: args' => x ← as_int a; printint fd (s32 x) 16 false ;; printf_loop fd fmt' false args'
        | [] => ub
        end
      else if c =? 115 then
        match args with
        | AStr s :: args' => putcs fd (default (str "(null)") s) ;; printf_loop fd fmt' false args'
        | _ => ub
        end
      else if c =? 99 then
        match args with
        | a :: args' => x ← as_int a; putc fd (u8 x) ;; printf_loop fd fmt' false args'
        | [] => ub
        end
      else if c =? 37 then putc fd c ;; printf_loop fd fmt' false args
      else putc fd 37 ;; putc fd c ;; printf_loop fd fmt' false args
  end.
Definition printf (fd : Z) (fmt : list Z) (args : list parg) : M io unit := printf_loop fd fmt false args.

(** ** Numbers *)

Definition digit_val (d : Z) : Z := if d <=? 57 then d - 48 else d - 55.
(** The number that digits denote, least significant digit first. *)
Definition value (base : Z) (l : list Z) : Z := foldr (fun d a => digit_val d + base * a) 0 l.

Lemma digit_upper k : 0 <= k < 16 -> exists d, digits_upper !! Z.to_nat k = Some d /\ digit_val d = k /\ (k < 10 -> d = 48 + k).
Proof.
  intros Hk. assert (k = 0 \/ k = 1 \/ k = 2 \/ k = 3 \/ k = 4 \/ k = 5 \/ k = 6 \/ k = 7 \/ k = 8 \/ k = 9 \/ k = 10 \/ k = 11 \/ k = 12 \/ k = 13 \/ k = 14 \/ k = 15) as H by lia.
  repeat destruct H as [->|H]; try subst k; eexists; (split; [vm_compute; reflexivity|]); split; lia || reflexivity || (vm_compute; discriminate).
Qed.

Section Digits.
Context (base : Z) (Hb : 2 <= base <= 16).

Lemma value_digits fuel : forall x, 0 <= x < base ^ Z.of_nat fuel -> value base (digits_of digits_upper x base fuel) = x.
Proof.
  induction fuel as [|fuel IH]; intros x Hx; [cbn in Hx |- *; lia|]. cbn [digits_of value foldr].
  fold (value base (if x / base =? 0 then [] else digits_of digits_upper (x / base) base fuel)).
  rewrite Nat2Z.inj_succ, Z.pow_succ_r in Hx by lia. pose proof (Z.mod_pos_bound x base ltac:(lia)) as Hm.
  destruct (digit_upper (x mod base)) as (d & -> & Hd & _); [lia|]. cbn [default from_option id]. rewrite Hd.
  pose proof (Z.div_mod x base ltac:(lia)) as E. destruct (Z.eqb_spec (x / base) 0) as [E0|E0]; [cbn; lia|].
  rewrite IH; [lia|]. split; [apply Z.div_pos; lia|apply Z.div_lt_upper_bound; lia].
Qed.
Lemma length_digits_of fuel k : forall x, 0 <= x < base ^ Z.of_nat (S k) -> (length (digits_of digits_upper x base fuel) <= S k)%nat.
Proof.
  revert k. induction fuel as [|fuel IH]; intros k x Hx; [cbn; lia|]. cbn [digits_of length]. destruct (Z.eqb_spec (x / base) 0) as [E0|E0]; [cbn; lia|].
  rewrite Nat2Z.inj_succ, Z.pow_succ_r in Hx by lia. assert (0 <= x / base < base ^ Z.of_nat k) as Hq.
  { split; [apply Z.div_pos; lia|apply Z.div_lt_upper_bound; lia]. }
  destruct k as [|k]; [cbn in Hq; lia|]. specialize (IH k _ Hq). lia.
Qed.
End Digits.

Definition is_digit (c : Z) : Prop := 48 <= c <= 57.
Lemma digits_decimal fuel : forall x, 0 <= x -> Forall is_digit (digits_of digits_upper x 10 fuel).
Proof.
  induction fuel as [|fuel IH]; intros x Hx; [constructor|]. cbn [digits_of]. pose proof (Z.mod_pos_bound x 10 ltac:(lia)) as Hm.
  destruct (digit_upper (x mod 10)) as (d & -> & _ & Hd); [lia|]. constructor; [cbn; unfold is_digit; lia|].
  destruct (_ =? 0); [constructor|]. apply IH. apply Z.div_pos; lia.
Qed.
Lemma value_app b l l' : value b (l ++ l') = value b l + b ^ Z.of_nat (length l) * value b l'.
Proof.
  unfold value. induction l as [|d l IH]; [cbn; lia|]. cbn [app foldr length]. rewrite IH, Nat2Z.inj_succ, Z.pow_succ_r by lia. lia.
Qed.
Lemma value_bounds l : Forall is_digit l -> 0 <= value 10 l < 10 ^ Z.of_nat (length l).
Proof.
  unfold value. induction 1 as [|d l Hd _ IH]; [cbn; lia|]. cbn [foldr length]. rewrite Nat2Z.inj_succ, Z.pow_succ_r by lia.
  assert (0 <= digit_val d <= 9) by (unfold digit_val; unfold is_digit in Hd; destruct (Z.leb_spec d 57); lia). lia.
Qed.
Lemma atoi_loop_digits l : forall n,
  Forall is_digit l -> 0 <= n -> n * 10 ^ Z.of_nat (length l) + value 10 (rev l) < 2147483648 ->
  atoi_loop n l = n * 10 ^ Z.of_nat (length l) + value 10 (rev l).
Proof.
  induction l as [|d l IH]; intros n Hl Hn Hb; [cbn in *; lia|]. apply Forall_cons in Hl as [Hd Hl]. cbn [atoi_loop rev length] in *.
  rewrite value_app, length_rev in *. rewrite Nat2Z.inj_succ, Z.pow_succ_r in * by lia. unfold is_digit in Hd.
  assert (value 10 [d] = d - 48) as Ev by (unfold value, digit_val; cbn; destruct (Z.leb_spec d 57); lia). rewrite Ev in *.
  pose proof (value_bounds (rev l) ltac:(by apply Forall_rev)) as [Hv _]. pose proof (Z.pow_pos_nonneg 10 (Z.of_nat (length l))) as Hp.
  destruct (Z.leb_spec 48 d); [|lia]. destruct (Z.leb_spec d 57); [|lia]. cbn [andb]. rewrite s32_small by nia. rewrite IH; [lia|done|lia|nia].
Qed.

(** What [printint] prints in base 10 is the number, with a minus sign for a
    negative one, and [atoi] reads a number that is not negative back; in base
    16 it prints the 32-bit pattern. The digits and the sign fit into the
    array [buf] of 16 characters. *)
Theorem printint_roundtrip x :
  -2147483648 <= x < 2147483648 ->
  let dec := printint_buf digits_upper x 10 true in
  let hex := printint_buf digits_upper x 16 false in
  (exists l, dec = l ++ (if x <? 0 then [45] else []) /\ Forall is_digit l /\ value 10 l = Z.abs x) /\
  (0 <= x -> atoi (rev dec) = x) /\
  value 16 hex = u32 x /\ (length dec <= 11)%nat /\ (length hex <= 8)%nat.
Proof.
  intros Hx dec hex. set (l := digits_of digits_upper (Z.abs x) 10 32).
  assert (dec = l ++ (if x <? 0 then [45] else [])) as Ed.
  { unfold dec, printint_buf, l. cbn [andb]. destruct (Z.ltb_spec x 0).
    - rewrite u32_small by (unfold W32; lia). by rewrite Z.abs_neq by lia.
    - rewrite u32_small by (unfold W32; lia). by rewrite Z.abs_eq by lia. }
  assert (Forall is_digit l) as Hl by (apply digits_decimal; lia).
  assert (value 10 l = Z.abs x) as Hv by (apply value_digits; [lia|change (10 ^ Z.of_nat 32) with 100000000000000000000000000000000; lia]).
  assert (length l <= 10)%nat as Hlen by (apply (length_digits_of 10 ltac:(lia) 32 9); change (10 ^ Z.of_nat 10) with 10000000000; lia).
  split_and!.
  - by exists l.
  - intros H0. rewrite Ed. destruct (Z.ltb_spec x 0); [lia|]. rewrite app_nil_r. unfold atoi.
    assert (value 10 (rev (rev l)) = x) as Hr by (rewrite rev_involutive, Hv; lia).
    rewrite atoi_loop_digits; rewrite ?Z.mul_0_l, ?Hr; [done|by apply Forall_rev|done|lia].
  - unfold hex, printint_buf. cbn [andb]. rewrite app_nil_r. apply value_digits; [lia|]. pose proof (u32_range x).
    change (16 ^ Z.of_nat 32) with 340282366920938463463374607431768211456. unfold W32 in *. lia.
  - rewrite Ed, length_app. destruct (x <? 0); cbn [length]; lia.
  - unfold hex, printint_buf. cbn [andb]. rewrite app_nil_r. apply (length_digits_of 16 ltac:(lia) 32 7). pose proof (u32_range x).
    change (16 ^ Z.of_nat 8) with W32. lia.
Qed.
Lemma printint_roundtrip_witness : atoi (rev (printint_buf digits_upper 2147483647 10 true)) = 2147483647.
Proof. apply (printint_roundtrip 2147483647); lia. Defined.

(** The order of dictionaries. *)
Inductive lex : list Z -> list Z -> Prop :=
  | lex_nil b q : lex [] (b :: q)
  | lex_lt a b p q : a < b -> lex (a :: p) (b :: q)
  | lex_eq a p q : lex p q -> lex (a :: p) (a :: q).
Ltac solve_lex :=
  let H := fresh in intros H; first [lia | congruence | constructor; first [assumption | lia] | inversion H; subst; first [assumption | lia | congruence]].
(** [strcmp] orders strings of characters above zero as dictionaries do. *)
Theorem strcmp_order p q :
  Forall (fun c => 0 < c) p -> Forall (fun c => 0 < c) q ->
  (strcmp p q = 0 <-> p = q) /\ (strcmp p q < 0 <-> lex p q) /\ (0 < strcmp p q <-> lex q p).
Proof.
  intros Hp. revert q. induction Hp as [|a p Ha Hp IH]; intros q Hq; destruct Hq as [|b q Hb Hq]; cbn [strcmp].
  - split_and!; split; solve_lex.
  - split_and!; split; solve_lex.
  - split_and!; split; solve_lex.
  - destruct (Z.eqb_spec a b) as [->|Hne]; [|split_and!; split; solve_lex].
    destruct (IH q Hq) as (H1 & H2 & H3). rewrite H1, H2, H3. split_and!; split; solve_lex.
Qed.
Lemma strcmp_order_witness : strcmp (str "cat") (str "echo") < 0.
Proof. apply (strcmp_order (str "cat") (str "echo")); [repeat constructor; lia..|]. apply lex_lt. reflexivity. Defined.

(** ** What is written *)

Lemma wp_write fd b (Q : Z -> io -> Prop) s :
  broken s = false -> Q (Z.of_nat (length b)) {| s with output := output s ++ [(fd, b)] |} -> wp (write fd b) Q s.
Proof. destruct s as [i o b']. cbn. intros -> HQ. exact HQ. Qed.
Lemma received_write fd b s : received fd {| s with output := output s ++ [(fd, b)] |} = received fd s ++ b.
Proof. unfold received. cbn. by rewrite filter_app, fmap_app, concat_app, filter_cons_True, filter_nil, fmap_cons, fmap_nil; cbn; rewrite ?app_nil_r. Qed.
Lemma received_other fd fd' b s : fd ≠ fd' -> received fd {| s with output := output s ++ [(fd', b)] |} = received fd s.
Proof. intros H. unfold received. cbn. rewrite filter_app, filter_cons_False, filter_nil, app_nil_r; [done|]. cbn. congruence. Qed.

(** The state after [fd] received [b]; the input is [l]. *)
Record wrote (s s' : io) (fd : Z) (b : list Z) (l : list rd) : Prop := {
  wr_input : input s' = l;
  wr_broken : broken s' = broken s;
  wr_fd : received fd s' = received fd s ++ b;
  wr_other : forall fd', fd' ≠ fd -> received fd' s' = received fd' s
}.
Lemma wr_nil s fd : wrote s s fd [] (input s).
Proof. split; try done. by rewrite app_nil_r. Qed.
Lemma wr_app s s1 s2 fd b b' l l' : wrote s s1 fd b l -> wrote s1 s2 fd b' l' -> wrote s s2 fd (b ++ b') l'.
Proof.
  intros [H1 H2 H3 H4] [K1 K2 K3 K4]. split; [done|congruence|by rewrite K3, H3, app_assoc|]. intros fd' Hne. by rewrite K4, H4.
Qed.
Lemma wp_write_wrote fd b (Q : Z -> io -> Prop) s :
  broken s = false -> (forall s', wrote s s' fd b (input s) -> Q (Z.of_nat (length b)) s') -> wp (write fd b) Q s.
Proof.
  intros Hb HQ. apply wp_write; [done|]. apply HQ. split; [done|done|apply received_write|]. intros fd' H. by apply received_other.
Qed.
Lemma wp_putcs fd l : forall s (Q : unit -> io -> Prop),
  broken s = false -> (forall s', wrote s s' fd l (input s) -> Q tt s') -> wp (putcs fd l) Q s.
Proof.
  induction l as [|c l IH]; intros s Q Hb HQ; [apply HQ, wr_nil|]. unfold putcs. cbn [for_each]. unfold putc. rewrite !wp_bind.
  apply wp_write_wrote; [done|]. intros s1 W1. wp_steps. apply IH; [by rewrite (wr_broken _ _ _ _ _ W1)|]. intros s2 W2. apply HQ.
  rewrite (wr_input _ _ _ _ _ W1) in W2. by apply (wr_app _ s1 _ _ [c] _ (input s)).
Qed.

(** ** Reading to the end *)

(** The bytes up to the end of the file, and whether there is no error before
    it. *)
Fixpoint stream (l : list rd) : list Z * bool :=
  match l with
  | [] | Bytes [] :: _ => ([], true)
  | ReadError :: _ => ([], false)
  | Bytes b :: l' => (b ++ fst (stream l'), snd (stream l'))
  end.
(** A bound on the number of calls that return something. *)
Definition input_size (l : list rd) : nat :=
  list_sum ((fun r => match r with Bytes b => S (length b) | ReadError => 1%nat end) <$> l).

Lemma input_size_cons b l : input_size (Bytes b :: l) = (S (length b) + input_size l)%nat.
Proof. done. Qed.
Lemma read_stream n s (Q : option (list Z) -> io -> Prop) :
  0 < n ->
  (forall l, stream (input s) = ([], false) -> Q None {| s with input := l |}) ->
  (forall l, stream (input s) = ([], true) -> Q (Some []) {| s with input := l |}) ->
  (forall b l, b ≠ [] -> stream (input s) = (b ++ fst (stream l), snd (stream l)) -> (input_size l < input_size (input s))%nat -> Q (Some b) {| s with input := l |}) ->
  wp (read n) Q s.
Proof.
  intros Hn HN HE HS. unfold wp, read. destruct s as [inp o br]. cbn [input output broken] in *. destruct inp as [|[b|] l].
  - by apply HE.
  - destruct (Z.leb_spec (Z.of_nat (length b)) n).
    + destruct b as [|c b]; [by apply HE|]. apply HS; [done|done|]. rewrite input_size_cons. lia.
    + destruct b as [|c b]; [cbn in *; lia|]. apply HS.
      * intros E. apply (f_equal length) in E. rewrite length_take in E. cbn [length] in *. lia.
      * cbn [stream]. destruct (drop (Z.to_nat n) (c :: b)) as [|c' b'] eqn:Ed.
        { apply (f_equal length) in Ed. rewrite length_drop in Ed. cbn [length] in *. lia. }
        rewrite <- Ed. cbn [fst snd]. by rewrite app_assoc, take_drop.
      * rewrite !input_size_cons, length_drop. lia.
  - by apply HN.
Qed.

(** ** What [printf] prints *)

(** The characters that a directive prints, given its letter. *)
Definition directive (c : Z) (args : list parg) : option (list Z * list parg) :=
  if c =? 100 then match args with AInt x :: args' => Some (rev (printint_buf digits_upper (s32 x) 10 true), args') | _ => None end
  else if (c =? 120) || (c =? 112) then match args with AInt x :: args' => Some (rev (printint_buf digits_upper (s32 x) 16 false), args') | _ => None end
  else if c =? 115 then match args with AStr s :: args' => Some (default (str "(null)") s, args') | _ => None end
  else if c =? 99 then match args with AInt x :: args' => Some ([u8 x], args') | _ => None end
  else if c =? 37 then Some ([37], args)
  else Some ([37; c], args).
(** The text of a format; a % at its end prints nothing. *)
Fixpoint render (fmt : list Z) (args : list parg) : option (list Z) :=
  match fmt with
  | [] => Some []
  | c :: fmt' =>
      if c =? 37 then
        match fmt' with
        | [] => Some []
        | d :: fmt'' =>
            match directive d args with
            | Some (b, args') => (fun t => b ++ t) <$> render fmt'' args'
            | None => None
            end
        end
      else (fun t => c :: t) <$> render fmt' args
  end.

Lemma wp_putc fd c (Q : unit -> io -> Prop) s :
  broken s = false -> (forall s', wrote s s' fd [c] (input s) -> Q tt s') -> wp (putc fd c) Q s.
Proof. intros Hb HQ. unfold putc. rewrite wp_bind. apply wp_write_wrote; [done|]. intros s' W. wp_steps. by apply HQ. Qed.
Lemma Some_pair_inj {A B} (a c : A) (b d : B) : Some (a, b) = Some (c, d) -> a = c /\ b = d.
Proof. by intros [= -> ->]. Qed.
Lemma wp_directive fd c args b args' (m : list parg -> M io unit) (Q : unit -> io -> Prop) s :
  directive c args = Some (b, args') -> broken s = false ->
  (forall s', wrote s s' fd b (input s) -> wp (m args') Q s') ->
  wp (if c =? 100 then match args with a :: args' => x ← as_int a; printint fd (s32 x) 10 true ;; m args' | [] => ub end
      else if (c =? 120) || (c =? 112) then match args with a :: args' => x ← as_int a; printint fd (s32 x) 16 false ;; m args' | [] => ub end
      else if c =? 115 then match args with AStr s :: args' => putcs fd (default (str "(null)") s) ;; m args' | _ => ub end
      else if c =? 99 then match args with a :: args' => x ← as_int a; putc fd (u8 x) ;; m args' | [] => ub end
      else if c =? 37 then putc fd c ;; m args
      else putc fd 37 ;; putc fd c ;; m args) Q s.
Proof.
  unfold directive, printint. intros E Hb HQ. destruct (c =? 100).
  { destruct args as [|[x|] args1]; try discriminate. apply Some_pair_inj in E as [<- <-]. cbn [as_int]. wp_steps. by apply wp_putcs. }
  destruct ((c =? 120) || (c =? 112)).
  { destruct args as [|[x|] args1]; try discriminate. apply Some_pair_inj in E as [<- <-]. cbn [as_int]. wp_steps. by apply wp_putcs. }
  destruct (c =? 115).
  { destruct args as [|[x|s0] args1]; try discriminate. apply Some_pair_inj in E as [<- <-]. wp_steps. by apply wp_putcs. }
  destruct (c =? 99).
  { destruct args as [|[x|] args1]; try discriminate. apply Some_pair_inj in E as [<- <-]. cbn [as_int]. wp_steps. by apply wp_putc. }
  destruct (Z.eqb_spec c 37) as [->|]; apply Some_pair_inj in E as [<- <-]; wp_steps; [by apply wp_putc|].
  apply wp_putc; [done|]. intros s1 W1. wp_steps. apply wp_putc; [by rewrite (wr_broken _ _ _ _ _ W1)|]. intros s2 W2. apply HQ.
  rewrite (wr_input _ _ _ _ _ W1) in W2. by apply (wr_app _ _ _ _ [37] [c] _ _ W1 W2).
Qed.
Lemma wp_printf fd fmt : forall args t s (Q : unit -> io -> Prop),
  render fmt args = Some t -> broken s = false -> (forall s', wrote s s' fd t (input s) -> Q tt s') -> wp (printf fd fmt args) Q s.
Proof.
  unfold printf. induction fmt as [fmt IH] using (induction_ltof1 _ (@length Z)). intros args t s Q E Hb HQ.
  destruct fmt as [|c fmt]; [injection E as <-; apply HQ, wr_nil|]. cbn [render] in E. cbn [printf_loop negb].
  destruct (Z.eqb_spec c 37) as [->|Hc].
  - destruct fmt as [|d fmt]; [injection E as <-; apply HQ, wr_nil|]. destruct (directive d args) as [[b args']|] eqn:Ed; [|done].
    destruct (render fmt args') as [t'|] eqn:Er; [|done]. injection E as <-. cbn [printf_loop negb].
    apply (wp_directive _ _ _ b args' (fun args => printf_loop fd fmt false args)); [done|done|]. intros s1 W1.
    eapply (IH fmt); [unfold ltof; cbn; lia|exact Er|by rewrite (wr_broken _ _ _ _ _ W1)|]. intros s2 W2. apply HQ.
    rewrite (wr_input _ _ _ _ _ W1) in W2. by eapply wr_app.
  - destruct (render fmt args) as [t'|] eqn:Er; [|done]. injection E as <-. rewrite wp_bind. apply wp_putc; [done|]. intros s1 W1.
    eapply (IH fmt); [unfold ltof; cbn; lia|exact Er|by rewrite (wr_broken _ _ _ _ _ W1)|]. intros s2 W2. apply HQ.
    rewrite (wr_input _ _ _ _ _ W1) in W2. by apply (wr_app _ _ _ _ [c] _ _ _ W1 W2).
Qed.
