(* ===== verification/Grep.v ===== *)
(** grep (grep.c): the matcher is equivalent to the language of the pattern as
    a regular expression, and the loop over the input prints the matching
    lines. *)

From stdpp Require Import base list strings.
From Stdlib Require Import ZArith Lia.
From S2P Require Import Prelude Ulib.
Open Scope Z_scope.

(** ** The matcher *)

Definition CARET : Z := 94.
Definition DOLLAR : Z := 36.
Definition STAR : Z := 42.
Definition ANY : Z := 46.

(** [matchstar], with [matchhere] of the rest of the expression. *)
Fixpoint matchstar (here : list Z -> bool) (c : Z) (text : list Z) : bool :=
  here text ||
  match text with
  | [] => false
  | t :: text' => if (t =? c) || (c =? ANY) then matchstar here c text' else false
  end.
Fixpoint matchhere (re : list Z) (text : list Z) : bool :=
  match re with
  | [] => true
  | c :: re1 =>
      match re1 with
      | s :: re2 =>
          if s =? STAR then matchstar (matchhere re2) c text
          else
            match text with
            | t :: text' => if (c =? ANY) || (c =? t) then matchhere re1 text' else false
            | [] => false
            end
      | [] =>
          if c =? DOLLAR then bool_decide (text = [])
          else
            match text with
            | t :: text' => if (c =? ANY) || (c =? t) then matchhere re1 text' else false
            | [] => false
            end
      end
  end.
(** The loop of [match] over the positions of the text. *)
Fixpoint match_from (re text : list Z) : bool :=
  matchhere re text || match text with [] => false | _ :: text' => match_from re text' end.
Definition match_ (re text : list Z) : bool :=
  match re with
  | c :: re' => if c =? CARET then matchhere re' text else match_from re text
  | [] => match_from re text
  end.

(** ** Regular expressions

    A pattern is a sequence of characters, each possibly repeated, and may be
    bound to the start and to the end of the line. *)

Inductive item := One (c : Z) | Many (c : Z).
Record pattern := mk_pattern { at_start : bool; items : list item; at_end : bool }.

Fixpoint parse_items (re : list Z) : list item * bool :=
  match re with
  | [] => ([], false)
  | c :: re1 =>
      match re1 with
      | s :: re2 =>
          if s =? STAR then let '(l, e) := parse_items re2 in (Many c :: l, e)
          else let '(l, e) := parse_items re1 in (One c :: l, e)
      | [] => if c =? DOLLAR then ([], true) else ([One c], false)
      end
  end.
Definition parse (re : list Z) : pattern :=
  match re with
  | c :: re' =>
      if c =? CARET then let '(l, e) := parse_items re' in mk_pattern true l e
      else let '(l, e) := parse_items re in mk_pattern false l e
  | [] => mk_pattern false [] false
  end.

(** A character of the pattern stands for itself, the dot for any. *)
Definition stands (c t : Z) : Prop := c = ANY \/ c = t.
Inductive lang : list item -> list Z -> Prop :=
  | lang_nil : lang [] []
  | lang_one c l t w : stands c t -> lang l w -> lang (One c :: l) (t :: w)
  | lang_many c l u w : Forall (stands c) u -> lang l w -> lang (Many c :: l) (u ++ w).
(** The pattern occurs in the line. *)
Definition occurs (p : pattern) (text : list Z) : Prop :=
  exists u v w, text = u ++ v ++ w /\ lang (items p) v /\ (at_start p = true -> u = []) /\ (at_end p = true -> w = []).

(** ** Correctness of the matcher *)

(** A match at the start of the text. *)
Definition prefix_match (p : list item * bool) (text : list Z) : Prop :=
  exists v w, text = v ++ w /\ lang (fst p) v /\ (snd p = true -> w = []).

Lemma stands_spec c t : (c =? ANY) || (c =? t) = true <-> stands c t.
Proof. unfold stands. rewrite orb_true_iff, !Z.eqb_eq. done. Qed.
Lemma prefix_nil e text : prefix_match ([], e) text <-> (e = true -> text = []).
Proof.
  split.
  - intros (v & w & -> & Hl & Hw). cbn in *. inversion Hl; subst. done.
  - intros H. exists [], text. split_and!; [done|constructor|done].
Qed.
Lemma prefix_one c l e text :
  prefix_match (One c :: l, e) text <-> exists t text', text = t :: text' /\ stands c t /\ prefix_match (l, e) text'.
Proof.
  split.
  - intros (v & w & -> & Hl & Hw). cbn in *. inversion Hl; subst. eexists _, _. split; [done|]. split; [done|]. by eexists _, _.
  - intros (t & text' & -> & Hs & v & w & -> & Hl & Hw). exists (t :: v), w. split_and!; [done|by constructor|done].
Qed.
Lemma prefix_many c l e text :
  prefix_match (Many c :: l, e) text <-> exists u text', text = u ++ text' /\ Forall (stands c) u /\ prefix_match (l, e) text'.
Proof.
  split.
  - intros (v & w & -> & Hl & Hw). cbn in *. inversion Hl; subst. eexists _, _. split; [by rewrite <- app_assoc|]. split; [done|]. by eexists _, _.
  - intros (u & text' & -> & Hs & v & w & -> & Hl & Hw). exists (u ++ v), w. split_and!; [by rewrite app_assoc|by constructor|done].
Qed.
Lemma matchstar_spec here c text :
  matchstar here c text = true <-> exists u text', text = u ++ text' /\ Forall (stands c) u /\ here text' = true.
Proof.
  induction text as [|t text IH]; cbn [matchstar]; rewrite orb_true_iff.
  - split.
    + intros [H|H]; [|done]. exists [], []. split_and!; [done|constructor|done].
    + intros (u & text' & E & _ & H). symmetry in E. apply app_nil in E as [-> ->]. by left.
  - rewrite (orb_comm (t =? c)), (Z.eqb_sym t c). destruct ((c =? ANY) || (c =? t)) eqn:Es.
    + rewrite IH. apply stands_spec in Es. split.
      * intros [H|(u & text' & -> & Hu & H)]; [exists [], (t :: text); split_and!; [done|constructor|done]|].
        exists (t :: u), text'. split_and!; [done|by constructor|done].
      * intros (u & text' & E & Hu & H). destruct u as [|x u]; [left; cbn in E; by subst|right]. injection E as -> ->.
        apply Forall_cons in Hu as [_ Hu]. by exists u, text'.
    + split.
      * intros [H|H]; [|done]. exists [], (t :: text). split_and!; [done|constructor|done].
      * intros (u & text' & E & Hu & H). destruct u as [|x u]; [left; cbn in E; by subst|]. injection E as -> ->.
        apply Forall_cons in Hu as [Hx _]. apply stands_spec in Hx. congruence.
Qed.
Lemma match_one c re text :
  match text with t :: text' => if (c =? ANY) || (c =? t) then matchhere re text' else false | [] => false end = true <->
  exists t text', text = t :: text' /\ stands c t /\ matchhere re text' = true.
Proof.
  destruct text as [|t text]; [split; [done|by intros (? & ? & ? & _)]|]. destruct ((c =? ANY) || (c =? t)) eqn:E.
  - apply stands_spec in E. split; [intros H; by exists t, text|by intros (? & ? & [= <- <-] & _ & H)].
  - split; [done|]. intros (? & ? & [= <- <-] & Hs & _). apply stands_spec in Hs. congruence.
Qed.
Lemma parse_items_eq c s re :
  parse_items (c :: s :: re) =
  if s =? STAR then (Many c :: fst (parse_items re), snd (parse_items re)) else (One c :: fst (parse_items (s :: re)), snd (parse_items (s :: re))).
Proof.
  change (parse_items (c :: s :: re)) with
    (if s =? STAR then let '(l, e) := parse_items re in (Many c :: l, e) else let '(l, e) := parse_items (s :: re) in (One c :: l, e)).
  destruct (s =? STAR); by destruct (parse_items _).
Qed.
Lemma matchhere_spec re : forall text, matchhere re text = true <-> prefix_match (parse_items re) text.
Proof.
  induction re as [re IH] using (induction_ltof1 _ (@length Z)). intros text.
  destruct re as [|c [|s re2]]; [cbn [matchhere parse_items]; by rewrite prefix_nil| |].
  - cbn [matchhere parse_items]. destruct (Z.eqb_spec c DOLLAR).
    + rewrite bool_decide_eq_true, prefix_nil. intuition.
    + etransitivity; [exact (match_one c [] text)|]. rewrite prefix_one. setoid_rewrite prefix_nil. naive_solver.
  - rewrite parse_items_eq. cbn [matchhere]. destruct (Z.eqb_spec s STAR).
    + rewrite matchstar_spec, prefix_many, <- surjective_pairing. by setoid_rewrite (IH re2 ltac:(unfold ltof; cbn; lia)).
    + etransitivity; [exact (match_one c (s :: re2) text)|]. rewrite prefix_one, <- surjective_pairing.
      by setoid_rewrite (IH (s :: re2) ltac:(unfold ltof; cbn; lia)).
Qed.
Lemma match_from_spec re text : match_from re text = true <-> exists u text', text = u ++ text' /\ prefix_match (parse_items re) text'.
Proof.
  induction text as [|t text IH]; cbn [match_from]; rewrite orb_true_iff, matchhere_spec.
  - split; [intros [H|H]; [by exists [], []|done]|]. intros (u & text' & E & H). symmetry in E. apply app_nil in E as [-> ->]. by left.
  - rewrite IH. split.
    + intros [H|(u & text' & -> & H)]; [by exists [], (t :: text)|by exists (t :: u), text'].
    + intros ([|x u] & text' & E & H); [left; cbn in E; by subst|right]. injection E as -> ->. by exists u, text'.
Qed.

Lemma match_spec re text : match_ re text = true <-> occurs (parse re) text.
Proof.
  assert (match_from re text = true <-> occurs (let '(l, e) := parse_items re in mk_pattern false l e) text) as Hfrom.
  { rewrite match_from_spec. destruct (parse_items re) as [l e]. unfold occurs, prefix_match. cbn. naive_solver. }
  destruct re as [|c re]; [exact Hfrom|]. cbn [match_ parse]. destruct (Z.eqb_spec c CARET); [|exact Hfrom].
  rewrite matchhere_spec. destruct (parse_items re) as [l b]. unfold occurs, prefix_match. cbn. split.
  - intros (v & w & -> & Hl & Hw). by exists [], v, w.
  - intros (u & v & w & -> & Hl & Hu & Hw). rewrite (Hu eq_refl). by exists v, w.
Qed.
#[export] Instance occurs_dec re text : Decision (occurs (parse re) text).
Proof. refine (cast_if (decide (match_ re text = true))); by rewrite <- match_spec. Defined.

(** C23. [match] decides whether the pattern, read as a regular expression, occurs
    in the text. *)
Theorem match_correct re text : match_ re text = true <-> occurs (parse re) text.
Proof. apply match_spec. Qed.

(** ** Lines *)

(** The complete lines of a text, without their ends, and what follows the
    last of them. *)
Fixpoint lines (text : list Z) : list (list Z) * list Z :=
  match text with
  | [] => ([], [])
  | c :: t =>
      let '(ls, r) := lines t in
      if c =? NL then ([] :: ls, r) else match ls with [] => ([], c :: r) | l :: ls' => ((c :: l) :: ls', r) end
  end.
Lemma lines_line l t : NL ∉ l -> lines (l ++ NL :: t) = (l :: fst (lines t), snd (lines t)).
Proof.
  induction l as [|c l IH]; intros Hl; cbn [app lines]; [by destruct (lines t)|]. apply not_elem_of_cons in Hl as [Hc Hl]. rewrite IH by done.
  by destruct (Z.eqb_spec c NL); [congruence|].
Qed.
Lemma lines_none t : NL ∉ t -> lines t = ([], t).
Proof.
  induction t as [|c t IH]; intros Hl; [done|]. apply not_elem_of_cons in Hl as [Hc Hl]. cbn. rewrite IH by done.
  by destruct (Z.eqb_spec c NL); [congruence|].
Qed.
Lemma split_line t : NL ∈ t -> exists l r, t = l ++ NL :: r /\ NL ∉ l.
Proof.
  induction t as [|c t IH]; intros H; [by apply not_elem_of_nil in H|]. destruct (decide (c = NL)) as [->|Hne].
  - exists [], t. split; [done|apply not_elem_of_nil].
  - apply elem_of_cons in H as [H|H]; [congruence|]. destruct (IH H) as (l & r & -> & Hl). exists (c :: l), r. split; [done|]. by apply not_elem_of_cons.
Qed.
(** Induction over the lines of a text. *)
Lemma lines_ind (P : list Z -> Prop) :
  (forall t, NL ∉ t -> P t) -> (forall l t, NL ∉ l -> P t -> P (l ++ NL :: t)) -> forall t, P t.
Proof.
  intros H1 H2 t. induction t as [t IH] using (induction_ltof1 _ (@length Z)). destruct (decide (NL ∈ t)) as [H|H]; [|by apply H1].
  destruct (split_line t H) as (l & r & -> & Hl). apply H2; [done|]. apply IH. unfold ltof. rewrite length_app. cbn. lia.
Qed.
Lemma lines_app b : forall t, lines (b ++ t) = (fst (lines b) ++ fst (lines (snd (lines b) ++ t)), snd (lines (snd (lines b) ++ t))).
Proof.
  induction b as [b Hb|l b Hl IH] using lines_ind; intros t.
  - rewrite (lines_none b) by done. cbn. by destruct (lines (b ++ t)).
  - rewrite <- app_assoc. cbn [app]. rewrite !lines_line by done. rewrite IH. cbn. done.
Qed.
Lemma lines_rest b : NL ∉ snd (lines b).
Proof. induction b as [b Hb|l b Hl IH] using lines_ind; [by rewrite lines_none|by rewrite lines_line]. Qed.
Lemma lines_eq b : b = concat ((fun l => l ++ [NL]) <$> fst (lines b)) ++ snd (lines b).
Proof.
  induction b as [b Hb|l b Hl IH] using lines_ind; [by rewrite lines_none|]. rewrite lines_line by done. cbn. rewrite <- !app_assoc. cbn. by rewrite <- IH.
Qed.

(** ** grep *)

Definition GREPBUF : Z := 1024.

(** [strchr(p, '\n')]: the line before the newline and the text after it; the
    search ends at a zero. *)
Fixpoint find_line (p : list Z) : option (list Z * list Z) :=
  match p with
  | [] => None
  | c :: p' =>
      if c =? 0 then None else if c =? NL then Some ([], p')
      else match find_line p' with Some (l, r) => Some (c :: l, r) | None => None end
  end.
(** The inner loop, from [p] on; the result is the [p] at its end. *)
Fixpoint grep_lines (re p : list Z) (fuel : nat) : M io (list Z) :=
  match find_line p with
  | None => mret p
  | Some (l, r) =>
      match fuel with
      | O => diverge
      | S fuel' =>
          when (match_ re l) (write 1 (l ++ [NL]) ;; mret tt) ;;
          grep_lines re r fuel'
      end
  end.
(** [pend] are the [m] bytes at the start of the buffer. *)
Fixpoint grep_loop (re pend : list Z) (fuel : nat) : M io unit :=
  match fuel with
  | O => diverge
  | S fuel' =>
      r ← read (GREPBUF - Z.of_nat (length pend) - 1);
      match r with
      | None | Some [] => mret tt
      | Some b =>
          let buf := pend ++ b in
          p ← grep_lines re buf (length buf);
          grep_loop re (if (length p =? length buf)%nat then [] else p) fuel'
      end
  end.
(** The fuel is enough by [read_stream]. *)
Definition grep (re : list Z) : M io unit := fun s => grep_loop re [] (S (input_size (input s))) s.

(** The lines that are printed. *)
Definition printed (re : list Z) (ls : list (list Z)) : list Z :=
  concat ((fun l => l ++ [NL]) <$> filter (fun l => match_ re l = true) ls).
Lemma printed_app re ls ls' : printed re (ls ++ ls') = printed re ls ++ printed re ls'.
Proof. unfold printed. by rewrite filter_app, fmap_app, concat_app. Qed.

Lemma find_line_some l r : NL ∉ l -> 0 ∉ l -> find_line (l ++ NL :: r) = Some (l, r).
Proof.
  induction l as [|c l IH]; intros H1 H2; [done|]. apply not_elem_of_cons in H1 as [H1 H1'], H2 as [H2 H2']. cbn [app find_line].
  rewrite IH by done. destruct (Z.eqb_spec c 0); [congruence|]. by destruct (Z.eqb_spec c NL); [congruence|].
Qed.
Lemma find_line_none p : NL ∉ p -> find_line p = None.
Proof.
  induction p as [|c p IH]; intros H1; [done|]. apply not_elem_of_cons in H1 as [H1 H1']. cbn. rewrite IH by done.
  destruct (c =? 0); [done|]. by destruct (Z.eqb_spec c NL); [congruence|].
Qed.
Lemma wp_grep_lines re p : forall fuel s (Q : list Z -> io -> Prop),
  0 ∉ p -> (length p <= fuel)%nat -> broken s = false ->
  (forall s', wrote s s' 1 (printed re (fst (lines p))) (input s) -> Q (snd (lines p)) s') -> wp (grep_lines re p fuel) Q s.
Proof.
  induction p as [p Hp|l p Hl IH] using lines_ind; intros fuel s Q H0 Hf Hb HQ.
  - rewrite (lines_none p) in HQ by done. assert (forall f, grep_lines re p f = mret p) as -> by (intros []; cbn; by rewrite find_line_none).
    wp_steps. apply HQ, wr_nil.
  - rewrite lines_line in HQ by done. apply not_elem_of_app in H0 as [H0 H1]. apply not_elem_of_cons in H1 as [_ H1].
    rewrite length_app in Hf. cbn [length] in Hf. destruct fuel as [|fuel]; [lia|]. cbn [grep_lines]. rewrite find_line_some by done. rewrite wp_bind.
    assert (forall s1, wrote s s1 1 (printed re [l]) (input s) -> wp (grep_lines re p fuel) Q s1) as Hnext.
    { intros s1 W1. apply IH; [done|lia|by rewrite (wr_broken _ _ _ _ _ W1)|]. intros s2 W2. apply HQ. cbn [fst snd].
      change (l :: fst (lines p)) with ([l] ++ fst (lines p)). rewrite printed_app. rewrite (wr_input _ _ _ _ _ W1) in W2. by eapply wr_app. }
    unfold printed in Hnext. destruct (match_ re l) eqn:Em; cbn [when].
    + rewrite wp_bind. apply wp_write_wrote; [done|]. intros s1 W1. wp_steps. apply Hnext.
      rewrite filter_cons_True by done. cbn. rewrite app_nil_r. exact W1.
    + wp_steps. apply Hnext. rewrite filter_cons_False by congruence. apply wr_nil.
Qed.

(** Reading from a file whose contents is still to come. *)
Definition file_input (t : list Z) : list rd := match t with [] => [] | _ => [Bytes t] end.
Lemma wp_read_file t n (Q : option (list Z) -> io -> Prop) s :
  0 <= n -> input s = [Bytes t] ->
  Q (Some (take (Z.to_nat n) t)) {| s with input := if Z.of_nat (length t) <=? n then [] else [Bytes (drop (Z.to_nat n) t)] |} -> wp (read n) Q s.
Proof.
  intros Hn Hi HQ. unfold wp, read. rewrite Hi. destruct (Z.leb_spec (Z.of_nat (length t)) n); [|done]. rewrite take_ge in HQ by lia. done.
Qed.
Lemma wp_read_end n (Q : option (list Z) -> io -> Prop) s : input s = [] -> Q (Some []) s -> wp (read n) Q s.
Proof. intros Hi HQ. unfold wp, read. by rewrite Hi. Qed.

(** Lines that fit into the buffer. *)
Definition short (t : list Z) : Prop := Forall (fun l => (length l < 1023)%nat) (fst (lines t)).
Lemma short_none b t : (1023 <= length b)%nat -> NL ∉ b -> short (b ++ t) -> NL ∉ b ++ t.
Proof.
  intros Hb Hn Hs Hin. destruct (split_line _ Hin) as (l & r & E & Hl). unfold short in Hs. rewrite E, lines_line in Hs by done.
  apply Forall_cons in Hs as [Hlt _]. cbn in Hlt. assert (b ++ t = l ++ [NL] ++ r) as E' by done.
  assert (NL ∈ take (length b) (l ++ [NL] ++ r)) as Hm.
  { rewrite take_app_ge by lia. apply elem_of_app. right. destruct (length b - length l)%nat eqn:Ek; [lia|]. cbn. by left. }
  rewrite <- E', take_app_length in Hm. done.
Qed.
Lemma lines_progress b : NL ∈ b -> (length (snd (lines b)) < length b)%nat.
Proof.
  intros Hin. destruct (split_line _ Hin) as (l & r & -> & Hl). rewrite lines_line by done. cbn [snd]. rewrite length_app. cbn.
  pose proof (f_equal length (lines_eq r)) as E. rewrite length_app in E. lia.
Qed.
Lemma wp_grep_loop_end re pend fuel s (Q : unit -> io -> Prop) : input s = [] -> Q tt s -> wp (grep_loop re pend (S fuel)) Q s.
Proof. intros Hi HQ. cbn [grep_loop]. rewrite wp_bind. by apply wp_read_end. Qed.
Lemma wp_grep_loop re fuel : forall pend rest s (Q : unit -> io -> Prop),
  input s = [Bytes rest] -> NL ∉ pend -> (length pend < 1023)%nat -> 0 ∉ pend ++ rest -> short (pend ++ rest) ->
  (S (length rest) < fuel)%nat -> broken s = false ->
  (forall s', wrote s s' 1 (printed re (fst (lines (pend ++ rest)))) [] -> Q tt s') -> wp (grep_loop re pend fuel) Q s.
Proof.
  induction fuel as [|fuel IH]; intros pend rest s Q Hi Hp Hlp H0 Hs Hf Hb HQ; [lia|]. cbn [grep_loop]. rewrite wp_bind. unfold GREPBUF.
  set (k := 1024 - Z.of_nat (length pend) - 1). apply (wp_read_file rest); [unfold k; lia|done|]. destruct (Z.leb_spec (Z.of_nat (length rest)) k) as [Hk|Hk].
  - rewrite take_ge by lia. destruct rest as [|c rest'].
    { wp_steps. apply HQ. rewrite app_nil_r, lines_none by done. split; try done. cbn. by rewrite app_nil_r. }
    set (rest := c :: rest') in *. cbv zeta. rewrite wp_bind. apply wp_grep_lines; [done|done|done|]. intros s1 W1. cbn [input] in W1.
    destruct fuel as [|fuel]; [lia|]. apply wp_grep_loop_end; [apply W1|]. apply HQ. destruct W1 as [W1 W2 W3 W4]. by split.
  - set (b := take (Z.to_nat k) rest) in *. assert (length b = Z.to_nat k) as Elb by (unfold b; rewrite length_take; unfold k in *; lia).
    destruct b as [|c b'] eqn:Eb; [cbn in Elb; unfold k in *; lia|]. rewrite <- Eb in *. cbv zeta.
    assert (pend ++ rest = (pend ++ b) ++ drop (Z.to_nat k) rest) as Esplit by (unfold b; by rewrite <- app_assoc, take_drop).
    rewrite Esplit in H0, Hs, HQ. set (buf := pend ++ b) in *. set (t := drop (Z.to_nat k) rest) in *.
    assert (length buf = 1023%nat) as Elen by (unfold buf; rewrite length_app; unfold k in *; lia).
    assert (length t < length rest)%nat as Hlt by (unfold t; rewrite length_drop; unfold k in *; lia).
    apply not_elem_of_app in H0 as [H0 H0']. rewrite wp_bind. apply wp_grep_lines; [done|done|done|]. intros s1 W1. cbn [input] in W1.
    assert (broken s1 = false) as Hb1 by (rewrite (wr_broken _ _ _ _ _ W1); done).
    destruct (decide (NL ∈ buf)) as [Hin|Hin].
    + pose proof (lines_progress _ Hin) as Hpr. destruct (Nat.eqb_spec (length (snd (lines buf))) (length buf)); [lia|].
      unfold short in Hs. rewrite lines_app in Hs, HQ. cbn [fst] in Hs, HQ. apply Forall_app in Hs as [_ Hs].
      apply (IH _ t); [apply W1|apply lines_rest|lia| |done|lia|done|].
      * apply not_elem_of_app. split; [|done]. intros Hz. apply H0. rewrite (lines_eq buf). apply elem_of_app. by right.
      * intros s2 W2. apply HQ. rewrite printed_app. destruct W1 as [X1 X2 X3 X4], W2 as [Y1 Y2 Y3 Y4].
        split; [done|congruence|by rewrite Y3, X3, app_assoc|]. intros fd Hfd. by rewrite Y4, X4.
    + pose proof (short_none buf t ltac:(lia) Hin Hs) as Hnone. rewrite (lines_none (buf ++ t)) in HQ by done. rewrite (lines_none buf) in W1 |- * by done.
      cbn [snd]. rewrite Nat.eqb_refl. apply not_elem_of_app in Hnone as [_ Hnt].
      apply (IH [] t); [apply W1|apply not_elem_of_nil|cbn; lia|done|unfold short; cbn [app]; rewrite lines_none by done; constructor|lia|done|].
      intros s2 W2. apply HQ. cbn [app] in W2. rewrite lines_none in W2 by done. destruct W1 as [X1 X2 X3 X4], W2 as [Y1 Y2 Y3 Y4].
      split; [done|congruence|rewrite Y3, X3; cbn; by rewrite !app_nil_r|]. intros fd Hfd. by rewrite Y4, X4.
Qed.

(** grep on a file without zeros whose complete lines have less than 1023
    characters prints exactly the complete lines in which the pattern occurs,
    in their order, whole and once. *)
Theorem grep_file re t s :
  input s = [Bytes t] -> broken s = false -> 0 ∉ t -> short t ->
  wp (grep re) (fun _ s' =>
    wrote s s' 1 (concat ((fun l => l ++ [NL]) <$> filter (fun l => occurs (parse re) l) (fst (lines t)))) []) s.
Proof.
  intros Hi Hb H0 Hs. unfold grep. change (wp (grep_loop re [] (S (input_size (input s)))) (fun _ s' =>
    wrote s s' 1 (concat ((fun l => l ++ [NL]) <$> filter (fun l => occurs (parse re) l) (fst (lines t)))) []) s).
  apply (wp_grep_loop re _ [] t); [done|apply not_elem_of_nil|cbn; lia|done|done|rewrite Hi; cbn; lia|done|].
  unfold printed. rewrite (list_filter_iff _ (fun l => occurs (parse re) l)); [done|]. intros l. apply match_spec.
Qed.
(** The lines of "one\ntwo\nthree\n" with a t before an o. *)
Lemma grep_file_witness :
  let t := str "one" ++ [NL] ++ str "two" ++ [NL] ++ str "three" ++ [NL] in
  wp (grep (str "t.*o")) (fun _ s' => received 1 s' = str "two" ++ [NL]) (mk_io [Bytes t] [] false).
Proof.
  intros t. eapply wp_mono; [apply (grep_file (str "t.*o") t)|].
  - reflexivity.
  - reflexivity.
  - apply (bool_decide_unpack _). vm_compute. exact I.
  - unfold short. apply (bool_decide_unpack _). vm_compute. exact I.
  - intros u s' W. rewrite (wr_fd _ _ _ _ _ W). vm_compute. reflexivity.
Defined.

(** A line that comes in two pieces is lost: [grep] forgets what it read when it
    finds no newline in the buffer, even if the buffer is not full. *)
Theorem grep_loses_line :
  match_ (str "ab") (str "ab") = true /\
  wp (grep (str "ab")) (fun _ s' => received 1 s' = []) (mk_io [Bytes (str "a"); Bytes (str "b" ++ [NL])] [] false).
Proof. split; vm_compute; reflexivity. Qed.
