(* ===== verification/Utils.v ===== *)
(** The programs cat, wc, echo, ls and the command line of grep. *)

From stdpp Require Import base list strings.
From Stdlib Require Import ZArith Lia.
From S2P Require Import Prelude Ulib Grep.
Open Scope Z_scope.

(** ** cat *)

Definition CATBUF : Z := 512.
(** The result says whether the program exited. *)
Fixpoint cat_loop (fuel : nat) : M io bool :=
  match fuel with
  | O => diverge
  | S fuel' =>
      r ← read CATBUF;
      match r with
      | None => printf 1 (str "cat: read error" ++ [NL]) [] ;; mret true
      | Some [] => mret false
      | Some b =>
          n ← write 1 b;
          if negb (n =? Z.of_nat (length b)) then printf 1 (str "cat: write error" ++ [NL]) [] ;; mret true
          else cat_loop fuel'
      end
  end.
Definition cat : M io bool := fun s => cat_loop (S (input_size (input s))) s.

(** ** wc *)

Record counts := mk_counts { ls : Z; ws : Z; cs : Z; inword : bool }.
Definition blanks : list Z := [32; 13; 9; 10; 11].
(** The body of the inner loop; the counters are ints. *)
Definition wc_char (k : counts) (b : Z) : counts :=
  let c := s32 (cs k + 1) in
  let l := if b =? NL then s32 (ls k + 1) else ls k in
  match strchr blanks b with
  | Some _ => mk_counts l (ws k) c false
  | None => if inword k then mk_counts l (ws k) c true else mk_counts l (s32 (ws k + 1)) c true
  end.
Fixpoint wc_loop (k : counts) (fuel : nat) : M io (option counts) :=
  match fuel with
  | O => diverge
  | S fuel' =>
      r ← read 512;
      match r with
      | None => mret None
      | Some [] => mret (Some k)
      | Some b => wc_loop (foldl wc_char k b) fuel'
      end
  end.
Definition wc (name : list Z) : M io bool := fun s =>
  (r ← wc_loop (mk_counts 0 0 0 false) (S (input_size (input s)));
   match r with
   | None => printf 1 (str "wc: read error" ++ [NL]) [] ;; mret true
   | Some k => printf 1 (str "%d %d %d %s" ++ [NL]) [AInt (ls k); AInt (ws k); AInt (cs k); AStr (Some name)] ;; mret false
   end) s.

(** ** Programs over several files *)

(** [main] of cat and wc: the standard input, or each file in turn; opening a
    file puts its contents at the head of the input. *)
Section Main.
Context (open_ : list Z -> option (list rd)) (body : list Z -> M io bool) (prog : string).
Fixpoint main_files (args : list (list Z)) : M io unit :=
  match args with
  | [] => mret tt
  | a :: args' =>
      match open_ a with
      | None => printf 1 (str prog ++ str ": cannot open %s" ++ [NL]) [AStr (Some a)]
      | Some l =>
          modify (fun s => {| s with input := l |}) ;;
          exited ← body a;
          if (exited : bool) then mret tt else main_files args'
      end
  end.
Definition main_io (args : list (list Z)) : M io unit :=
  match args with
  | [] => body [] ;; mret tt
  | _ => main_files args
  end.
End Main.
Definition cat_main (open_ : list Z -> option (list rd)) : list (list Z) -> M io unit := main_io open_ (fun _ => cat) "cat".
Definition wc_main (open_ : list Z -> option (list rd)) : list (list Z) -> M io unit := main_io open_ wc "wc".

Definition grep_main (open_ : list Z -> option (list rd)) (args : list (list Z)) : M io unit :=
  match args with
  | [] => printf 2 (str "usage: grep pattern [file ...]" ++ [NL]) []
  | [pattern] => grep pattern
  | pattern :: files => main_files open_ (fun _ => grep pattern ;; mret false) "grep" files
  end.

(** ** echo *)

Fixpoint echo_main (args : list (list Z)) : M io unit :=
  match args with
  | [] => mret tt
  | a :: args' =>
      printf 1 (str "%s%s") [AStr (Some a); AStr (Some (match args' with [] => [NL] | _ => [32] end))] ;;
      echo_main args'
  end.

(** ** ls *)

(** The name after the last slash. *)
Fixpoint last_name (path acc : list Z) : list Z :=
  match path with
  | [] => acc
  | c :: path' => if c =? 47 then last_name path' path' else last_name path' acc
  end.
Definition fmtname (path : list Z) : list Z :=
  let p := last_name path path in
  if (14 <=? length p)%nat then p else p ++ replicate (14 - length p) 32.

Definition T_DIR : Z := 1.
Definition T_FILE : Z := 2.
Definition DIRSIZ : nat := 14.
Record stat := mk_stat { st_type : Z; st_ino : Z; st_size : Z }.
(** The string in a field of fixed size. *)
Fixpoint cstr (l : list Z) : list Z :=
  match l with [] => [] | c :: l' => if c =? 0 then [] else c :: cstr l' end.
Definition ls_line (path : list Z) (st : stat) : M io unit :=
  printf 1 (str "%s %d %d %d" ++ [NL]) [AStr (Some (fmtname path)); AInt (st_type st); AInt (st_ino st); AInt (st_size st)].

(** [open_] gives the result of [fstat] on the new descriptor and the contents
    of the file; [stat_] is the call [stat] of the library. *)
Section Ls.
Context (open_ : list Z -> option (option stat * list rd)) (stat_ : list Z -> option stat).
Fixpoint ls_loop (path : list Z) (fuel : nat) : M io unit :=
  match fuel with
  | O => diverge
  | S fuel' =>
      r ← read 16;
      match r with
      | Some (lo :: hi :: name) =>
          if negb (length name =? DIRSIZ)%nat then mret tt else
          when (negb (lo + 256 * hi =? 0))
            (let buf := path ++ [47] ++ cstr name in
             match stat_ buf with
             | None => printf 1 (str "ls: cannot stat %s" ++ [NL]) [AStr (Some buf)]
             | Some st => ls_line buf st
             end) ;;
          ls_loop path fuel'
      | _ => mret tt
      end
  end.
Definition ls_ (path : list Z) : M io unit :=
  match open_ path with
  | None => printf 2 (str "ls: cannot open %s" ++ [NL]) [AStr (Some path)]
  | Some (None, _) => printf 2 (str "ls: cannot stat %s" ++ [NL]) [AStr (Some path)]
  | Some (Some st, l) =>
      if st_type st =? T_FILE then ls_line path st
      else if st_type st =? T_DIR then
        if 512 <? strlen path + 1 + Z.of_nat DIRSIZ + 1 then printf 1 (str "ls: path too long" ++ [NL]) []
        else modify (fun s => {| s with input := l |}) ;; ls_loop path (S (input_size l))
      else mret tt
  end.
Definition ls_main (args : list (list Z)) : M io unit :=
  match args with
  | [] => ls_ (str ".")
  | _ => for_each args ls_
  end.
End Ls.

(** ** Correctness *)

(** cat copies its input to the standard output, however the calls of [read]
    divide it, and reports an error of [read] behind what came before it. *)
Theorem cat_copies s :
  broken s = false ->
  wp cat (fun exited s' => exited = negb (snd (stream (input s))) /\
    received 1 s' = received 1 s ++ fst (stream (input s)) ++ (if snd (stream (input s)) then [] else str "cat: read error" ++ [NL]) /\
    forall fd, fd ≠ 1 -> received fd s' = received fd s) s.
Proof.
  intros Hb. unfold cat. match goal with |- wp _ ?Q s => change (wp (cat_loop (S (input_size (input s)))) Q s) end.
  assert (input_size (input s) < S (input_size (input s)))%nat as Hf by lia. revert Hf. generalize (S (input_size (input s))) as fuel. intros fuel.
  revert s Hb. induction fuel as [|fuel IH]; intros s Hb Hf; [lia|]. cbn [cat_loop]. rewrite wp_bind. apply read_stream; [done| | |].
  - intros l E. rewrite E, wp_bind. eapply wp_printf; [reflexivity|done|]. intros s' W. wp_steps. split_and!; [done|apply W|apply W].
  - intros l E. rewrite E. wp_steps. split_and!; [done|by rewrite !app_nil_r|done].
  - intros b l Hne E Hlt. rewrite E. cbn [fst snd]. destruct b as [|c b]; [done|]. rewrite wp_bind. apply wp_write_wrote; [done|]. intros s1 W1.
    rewrite Z.eqb_refl. cbn [negb]. pose proof (wr_input _ _ _ _ _ W1) as Ei. cbn in Ei.
    eapply wp_mono; [apply IH; [by rewrite (wr_broken _ _ _ _ _ W1)|rewrite Ei; lia]|]. rewrite Ei. intros exited s' (-> & H1 & H2).
    split_and!; [done| |].
    + rewrite H1, (wr_fd _ _ _ _ _ W1), <- !app_assoc. done.
    + intros fd Hfd. rewrite H2 by done. by rewrite (wr_other _ _ _ _ _ W1).
Qed.
Lemma cat_copies_witness :
  wp cat (fun exited s' => exited = false /\ received 1 s' = str "hello") (mk_io [Bytes (str "he"); Bytes (str "llo")] [] false).
Proof. eapply wp_mono; [by apply (cat_copies (mk_io [Bytes (str "he"); Bytes (str "llo")] [] false))|]. intros e s' (-> & -> & _). split; reflexivity. Defined.

(** The text between blanks. *)
Fixpoint split_blank (t : list Z) : list Z * list (list Z) :=
  match t with
  | [] => ([], [])
  | c :: t' => let '(w, l) := split_blank t' in if bool_decide (c ∈ blanks) then ([], w :: l) else (c :: w, l)
  end.
(** The number of words: of the pieces between blanks that are not empty. *)
Definition words (t : list Z) : nat := length (filter (.≠ []) (fst (split_blank t) :: snd (split_blank t))).
Definition newlines (t : list Z) : nat := length (filter (.= NL) t).

Lemma strchr_blanks c : strchr blanks c = None <-> c ∉ blanks.
Proof.
  generalize blanks. intros l. induction l as [|x l IH]; cbn; [split; [intros _; apply not_elem_of_nil|done]|].
  rewrite not_elem_of_cons. destruct (Z.eqb_spec x c) as [->|]; [split; [done|by intros []]|]. rewrite IH. naive_solver.
Qed.
(** The words that begin in [t], if the text before it ends in a word. *)
Definition words_after (inw : bool) (t : list Z) : nat :=
  (length (filter (.≠ []) (snd (split_blank t))) + (if inw then 0 else length (filter (.≠ []) [fst (split_blank t)])))%nat.
Lemma words_after_false t : words_after false t = words t.
Proof. unfold words_after, words. rewrite !filter_cons, filter_nil. case_decide; cbn; lia. Qed.
Lemma words_after_le inw t : (words_after inw t <= length t)%nat.
Proof.
  assert (length (fst (split_blank t)) + length (snd (split_blank t)) <= length t)%nat as H.
  { induction t as [|c t IH]; [done|]. cbn. destruct (split_blank t) as [w l]. cbn in *. case_bool_decide; cbn; lia. }
  unfold words_after. pose proof (length_filter (.≠ []) (snd (split_blank t))). destruct inw; [lia|]. rewrite filter_cons, filter_nil.
  case_decide as Hd; cbn; [|lia]. destruct (fst (split_blank t)); [done|cbn in *; lia].
Qed.
Lemma words_after_nil inw : words_after inw [] = 0%nat.
Proof. pose proof (words_after_le inw []). cbn [length] in *. lia. Qed.
Lemma wc_chars t : forall k,
  0 <= ls k -> 0 <= ws k -> 0 <= cs k -> ls k + Z.of_nat (length t) < 2147483648 -> ws k + Z.of_nat (length t) < 2147483648 ->
  cs k + Z.of_nat (length t) < 2147483648 ->
  let k' := foldl wc_char k t in
  ls k' = ls k + Z.of_nat (newlines t) /\ ws k' = ws k + Z.of_nat (words_after (inword k) t) /\ cs k' = cs k + Z.of_nat (length t).
Proof.
  induction t as [|c t IH]; intros k Hl Hw Hc Bl Bw Bc; cbn [foldl].
  { rewrite words_after_nil. cbn. lia. }
  cbn [length] in *. unfold newlines in *. rewrite filter_cons.
  set (l1 := if c =? NL then s32 (ls k + 1) else ls k).
  assert (0 <= l1 /\ l1 + Z.of_nat (length t) < 2147483648 /\
    ls k + Z.of_nat (length (if decide (c = NL) then c :: filter (.= NL) t else filter (.= NL) t)) = l1 + Z.of_nat (length (filter (.= NL) t))) as (L1 & L2 & L3).
  { unfold l1. destruct (Z.eqb_spec c NL); [rewrite decide_True by done|rewrite decide_False by done]; rewrite ?s32_small by lia; cbn [length]; lia. }
  rewrite L3. assert (words_after (inword k) (c :: t) = if bool_decide (c ∈ blanks) then words_after false t else ((if inword k then 0 else 1) + words_after true t)%nat) as Ew.
  { unfold words_after. cbn [split_blank]. destruct (split_blank t) as [w l]. case_bool_decide; cbn [fst snd].
    - rewrite !filter_cons, !filter_nil. destruct (inword k); repeat case_decide; cbn; try done; lia.
    - destruct (inword k); [cbn; lia|]. rewrite (filter_cons_True _ (c :: w)) by done. rewrite filter_nil. cbn. lia. }
  rewrite Ew. cbn zeta.
  assert (wc_char k c = match strchr blanks c with Some _ => mk_counts l1 (ws k) (cs k + 1) false
    | None => if inword k then mk_counts l1 (ws k) (cs k + 1) true else mk_counts l1 (s32 (ws k + 1)) (cs k + 1) true end) as ->
    by (unfold wc_char; by rewrite (s32_small (cs k + 1)) by lia).
  destruct (strchr blanks c) eqn:Es.
  - assert (c ∈ blanks) as Hin by (destruct (decide (c ∈ blanks)) as [|Hn]; [done|]; apply strchr_blanks in Hn; congruence).
    rewrite bool_decide_eq_true_2 by done. destruct (IH (mk_counts l1 (ws k) (cs k + 1) false)) as (H1 & H2 & H3); cbn [ls ws cs inword] in *; try lia.
    all: rewrite H1, H2, H3; lia.
  - apply strchr_blanks in Es. rewrite bool_decide_eq_false_2 by done. destruct (inword k).
    + destruct (IH (mk_counts l1 (ws k) (cs k + 1) true)) as (H1 & H2 & H3); cbn [ls ws cs inword] in *; try lia. all: rewrite H1, H2, H3; lia.
    + rewrite (s32_small (ws k + 1)) by lia. destruct (IH (mk_counts l1 (ws k + 1) (cs k + 1) true)) as (H1 & H2 & H3); cbn [ls ws cs inword] in *; try lia.
      all: rewrite H1, H2, H3; lia.
Qed.

Lemma wp_wc_loop k fuel : forall s,
  snd (stream (input s)) = true -> (input_size (input s) < fuel)%nat ->
  wp (wc_loop k fuel) (fun r s' => r = Some (foldl wc_char k (fst (stream (input s)))) /\ broken s' = broken s /\ output s' = output s) s.
Proof.
  revert k. induction fuel as [|fuel IH]; intros k s Hok Hf; [lia|]. cbn [wc_loop]. rewrite wp_bind. apply read_stream; [done| | |].
  - intros l E. by rewrite E in Hok.
  - intros l E. by rewrite E.
  - intros b l Hne E Hlt. rewrite E in *. cbn [fst snd] in *. destruct b as [|c b]; [done|]. rewrite foldl_app. apply (IH _ {| s with input := l |}); [done|cbn [input]; lia].
Qed.
(** The counts as they are printed. *)
Definition decimal (x : Z) : list Z := rev (printint_buf digits_upper x 10 true).
Lemma render_counts l w c name :
  0 <= l < 2147483648 -> 0 <= w < 2147483648 -> 0 <= c < 2147483648 ->
  render (str "%d %d %d %s" ++ [NL]) [AInt l; AInt w; AInt c; AStr (Some name)] =
  Some (decimal l ++ [32] ++ decimal w ++ [32] ++ decimal c ++ [32] ++ name ++ [NL]).
Proof.
  intros Hl Hw Hc. replace (decimal l) with (decimal (s32 l)) by (by rewrite s32_small by lia).
  replace (decimal w) with (decimal (s32 w)) by (by rewrite s32_small by lia).
  replace (decimal c) with (decimal (s32 c)) by (by rewrite s32_small by lia). unfold decimal. reflexivity.
Qed.
(** wc prints the number of newlines, of words and of characters of its input,
    however the calls of [read] divide it; a word is a longest sequence of
    characters other than blanks. *)
Theorem wc_counts name s :
  broken s = false -> snd (stream (input s)) = true -> Z.of_nat (length (fst (stream (input s)))) < 2147483648 ->
  wp (wc name) (fun exited s' => exited = false /\
    let t := fst (stream (input s)) in
    received 1 s' = received 1 s ++ decimal (Z.of_nat (newlines t)) ++ [32] ++ decimal (Z.of_nat (words t)) ++ [32] ++
                    decimal (Z.of_nat (length t)) ++ [32] ++ name ++ [NL]) s.
Proof.
  intros Hb Hok Hlen. unfold wc. match goal with |- wp _ ?Q s => change (wp (
    r ← wc_loop (mk_counts 0 0 0 false) (S (input_size (input s)));
    match r with
    | None => printf 1 (str "wc: read error" ++ [NL]) [] ;; mret true
    | Some k => printf 1 (str "%d %d %d %s" ++ [NL]) [AInt (ls k); AInt (ws k); AInt (cs k); AStr (Some name)] ;; mret false
    end) Q s) end.
  rewrite wp_bind. eapply wp_mono; [by apply (wp_wc_loop (mk_counts 0 0 0 false)); [|lia]|]. intros r s1 (-> & H1 & H2).
  set (t := fst (stream (input s))) in *. destruct (wc_chars t (mk_counts 0 0 0 false)) as (E1 & E2 & E3); cbn [ls ws cs inword] in *; try lia.
  rewrite words_after_false in E2. rewrite E1, E2, E3, wp_bind. rewrite !Z.add_0_l.
  pose proof (words_after_le false t) as Hw. rewrite words_after_false in Hw. pose proof (length_filter (.= NL) t) as Hn. fold (newlines t) in Hn.
  eapply wp_printf; [apply render_counts; lia|congruence|]. intros s2 W. wp_steps. split; [done|].
  rewrite (wr_fd _ _ _ _ _ W). unfold received. by rewrite H2.
Qed.
Lemma wc_counts_witness :
  wp (wc []) (fun exited s' => exited = false /\ received 1 s' = str "1 3 14 " ++ [NL]) (mk_io [Bytes (str "one tw"); Bytes (str "o" ++ [NL] ++ str " three")] [] false).
Proof.
  eapply wp_mono; [apply (wc_counts [] (mk_io [Bytes (str "one tw"); Bytes (str "o" ++ [NL] ++ str " three")] [] false)); [done|reflexivity|vm_compute; reflexivity]|].
  intros e s' (-> & E). split; [done|]. etransitivity; [exact E|]. vm_compute. reflexivity.
Defined.

(** echo prints its arguments, one blank between each two of them, and a newline. *)
Fixpoint joined (args : list (list Z)) : list Z :=
  match args with
  | [] => []
  | [a] => a ++ [NL]
  | a :: args' => a ++ [32] ++ joined args'
  end.
Theorem echo_joins args : forall s,
  broken s = false -> wp (echo_main args) (fun _ s' => received 1 s' = received 1 s ++ joined args) s.
Proof.
  induction args as [|a args IH]; intros s Hb; cbn [echo_main]; [wp_steps; by rewrite app_nil_r|]. rewrite wp_bind.
  eapply wp_printf; [reflexivity|done|]. intros s1 W. eapply wp_mono; [apply IH; by rewrite (wr_broken _ _ _ _ _ W)|]. cbn beta. intros _ s' ->.
  rewrite (wr_fd _ _ _ _ _ W). destruct args; cbn [joined]; cbn [app default from_option id]; rewrite <- ?app_assoc, ?app_nil_r; done.
Qed.
Lemma echo_joins_witness : wp (echo_main [str "a"; str "bc"]) (fun _ s' => received 1 s' = str "a bc" ++ [NL]) (mk_io [] [] false).
Proof. eapply wp_mono; [by apply (echo_joins [str "a"; str "bc"] (mk_io [] [] false))|]. intros _ s' ->. reflexivity. Defined.

(** ** What ls prints *)

Record entry := mk_entry { e_lo : Z; e_hi : Z; e_name : list Z }.
Definition entry_bytes (e : entry) : list Z := e_lo e :: e_hi e :: e_name e.
Definition line_of (path : list Z) (st : stat) : option (list Z) :=
  render (str "%s %d %d %d" ++ [NL]) [AStr (Some (fmtname path)); AInt (st_type st); AInt (st_ino st); AInt (st_size st)].
Definition entry_line (path : list Z) (stat_ : list Z -> option stat) (e : entry) : list Z :=
  if e_lo e + 256 * e_hi e =? 0 then [] else
  let name := path ++ [47] ++ cstr (e_name e) in
  default [] (match stat_ name with
              | None => render (str "ls: cannot stat %s" ++ [NL]) [AStr (Some name)]
              | Some st => line_of name st
              end).
Definition entries_of (l : list entry) : list Z := concat (entry_bytes <$> l).

Lemma wp_ls_entry stat_ path e (Q : unit -> io -> Prop) s :
  broken s = false -> (forall s', wrote s s' 1 (entry_line path stat_ e) (input s) -> Q tt s') ->
  wp (when (negb (e_lo e + 256 * e_hi e =? 0))
        (let buf := path ++ [47] ++ cstr (e_name e) in
         match stat_ buf with
         | None => printf 1 (str "ls: cannot stat %s" ++ [NL]) [AStr (Some buf)]
         | Some st => ls_line buf st
         end)) Q s.
Proof.
  intros Hb HQ. unfold entry_line in HQ. destruct (_ =? 0); cbn [negb when]; [apply HQ, wr_nil|]. cbn zeta in HQ |- *.
  destruct (stat_ _) as [st|]; [unfold ls_line|]; (eapply wp_printf; [reflexivity|done|exact HQ]).
Qed.
Lemma wp_ls_loop stat_ path fuel : forall l s (Q : unit -> io -> Prop),
  Forall (fun e => length (e_name e) = DIRSIZ) l -> broken s = false -> input s = file_input (entries_of l) -> (length l < fuel)%nat ->
  (forall s', wrote s s' 1 (concat (entry_line path stat_ <$> l)) [] -> Q tt s') ->
  wp (ls_loop stat_ path fuel) Q s.
Proof.
  induction fuel as [|fuel IH]; intros l s Q Hl Hb Hi Hf HQ; [lia|]. cbn [ls_loop]. rewrite wp_bind. destruct Hl as [|e l He Hl].
  { apply wp_read_end; [done|]. apply HQ. cbn in Hi. rewrite <- Hi. apply wr_nil. }
  apply (wp_read_file (entries_of (e :: l))); [lia|exact Hi|]. unfold entries_of. rewrite fmap_cons. cbn [concat].
  assert (length (entry_bytes e) = 16)%nat as He16 by (cbn; by rewrite He).
  change (Z.to_nat 16) with 16%nat. rewrite take_app_le, take_ge, (drop_app_ge (entry_bytes e)) by lia. rewrite He16, Nat.sub_diag, drop_0, length_app, He16.
  fold (entries_of l). cbn [entry_bytes]. rewrite He. cbn [negb]. rewrite Nat.eqb_refl. cbn [negb].
  set (s0 := {| s with input := _ |}). assert (input s0 = file_input (entries_of l)) as Hi0.
  { unfold s0. cbn [input]. destruct l as [|e' l]; [done|]. assert (0 < length (entries_of (e' :: l)))%nat by (cbn; lia). case_match eqn:El; [apply Z.leb_le in El; lia|done]. }
  rewrite wp_bind. apply (wp_ls_entry stat_ path e); [done|]. intros s1 W1. apply IH with l; [done|by rewrite (wr_broken _ _ _ _ _ W1)| |cbn in Hf; lia|].
  - by rewrite (wr_input _ _ _ _ _ W1).
  - intros s2 W2. apply HQ. rewrite fmap_cons. cbn [concat]. refine (wr_app s s1 s2 _ _ _ (input s0) _ _ W2).
    destruct W1 as [H1 H2 H3 H4]. by split.
Qed.
(** ls prints the line of a file; for a directory it prints, in the order of
    the directory, the line of each entry in use, with the type, the inode and
    the size that [stat] gives for the path of the entry. *)
Theorem ls_lists open_ stat_ path st (l : list entry) s :
  broken s = false -> open_ path = Some (Some st, file_input (entries_of l)) -> Forall (fun e => length (e_name e) = DIRSIZ) l ->
  strlen path + 16 <= 512 ->
  wp (ls_ open_ stat_ path) (fun _ s' =>
    received 1 s' = received 1 s ++
      (if st_type st =? T_FILE then default [] (line_of path st)
       else if st_type st =? T_DIR then concat (entry_line path stat_ <$> l) else [])) s.
Proof.
  intros Hb Ho Hl Hp. unfold ls_. rewrite Ho. destruct (_ =? T_FILE).
  { eapply wp_printf; [reflexivity|done|]. intros s' W. apply W. }
  destruct (_ =? T_DIR); [|wp_steps; by rewrite app_nil_r].
  destruct (Z.ltb_spec 512 (strlen path + 1 + Z.of_nat DIRSIZ + 1)); [unfold DIRSIZ in *; lia|]. wp_steps.
  apply wp_ls_loop with l; [done|done|done| |intros s' W; apply W].
  clear. assert (length l <= length (entries_of l))%nat as H by (induction l as [|e l IH]; [done|unfold entries_of in *; rewrite fmap_cons; cbn [concat length]; rewrite length_app; cbn [entry_bytes length]; lia]).
  destruct (entries_of l); cbn in *; lia.
Qed.
Lemma ls_lists_witness :
  wp (ls_ (fun _ => Some (Some (mk_stat 1 1 32), file_input (entries_of [mk_entry 1 0 (str "." ++ replicate 13 0); mk_entry 0 0 (replicate 14 0); mk_entry 2 0 (str "README" ++ replicate 8 0)])))
        (fun p => if (length p =? 3)%nat then Some (mk_stat 1 1 32) else Some (mk_stat 2 2 7)) (str "/"))
     (fun _ s' => received 1 s' = str ".              1 1 32" ++ [NL] ++ str "README         2 2 7" ++ [NL]) (mk_io [] [] false).
Proof.
  eapply wp_mono; [eapply (ls_lists _ _ (str "/") (mk_stat 1 1 32)); [done|reflexivity|repeat constructor|vm_compute; discriminate]|].
  intros u s' E. etransitivity; [exact E|]. vm_compute. reflexivity.
Defined.
