(* ===== verification/Umalloc.v ===== *)
(** The memory allocator of the user programs (umalloc.c): a circular list of
    free blocks in order of their addresses, threaded through the memory that
    it manages. *)

From Stdlib Require Import ZArith Lia.
From S2P Require Import Prelude Mmu.
From stdpp Require Import base list gmap functions.
Open Scope Z_scope.

(** ** The memory of a process

    The words at aligned addresses below [brk]; the address of [base] is a
    parameter. *)

Record ustate := mk_ustate { mem : Z -> Z; freep : Z; brk : Z }.

Definition mapped (s : ustate) (a : Z) : bool := (0 <=? a) && (a + 4 <=? brk s) && (a mod 4 =? 0).
Definition ldw (a : Z) : M ustate Z := fun s => if mapped s a then Ok (mem s a) s else UB.
Definition stw (a v : Z) : M ustate unit := fun s => if mapped s a then Ok tt {| s with mem := <[a := v]> (mem s) |} else UB.

(** [sizeof(Header)], and pointers to headers: [p + n] and the two fields. *)
Definition HEADER : Z := 8.
Definition hplus (p n : Z) : Z := u32 (p + HEADER * n).
Definition get_ptr (p : Z) : M ustate Z := ldw p.
Definition get_size (p : Z) : M ustate Z := ldw (p + 4).
Definition set_ptr (p v : Z) : M ustate unit := stw p v.
Definition set_size (p v : Z) : M ustate unit := stw (p + 4) v.

Section Umalloc.
(** Where [base] is, and whether the kernel finds the memory for a process of
    the given size to grow by the given number of bytes. *)
Context (base : Z) (enough : Z -> Z -> bool).

(** The system call [sbrk]: a process grows below [KERNBASE], and shrinks by a
    negative [n]; pages that are given back and got again are zero. *)
Definition sbrk (n : Z) : M ustate Z := fun s =>
  let sz := brk s in
  if 0 <? n then
    if (KERNBASE <=? u32 (sz + n)) || negb (enough sz n) then Ok (-1) s else Ok sz {| s with brk := u32 (sz + n) |}
  else if n <? 0 then
    let newsz := u32 (sz + n) in
    let sz' := if sz <=? newsz then sz else newsz in
    if sz' =? 0 then Ok (-1) s else Ok sz {| {| s with brk := sz' |} with mem := fun a => if PGROUNDUP sz' <=? a then 0 else mem s a |}
  else Ok sz s.

(** The search for the free block before [bp]. *)
Fixpoint free_loop (bp p : Z) (fuel : nat) : M ustate Z :=
  match fuel with
  | O => diverge
  | S fuel' =>
      next ← get_ptr p;
      if (p <? bp) && (bp <? next) then mret p
      else if (next <=? p) && ((p <? bp) || (bp <? next)) then mret p
      else free_loop bp next fuel'
  end.
(** Twice round the list: there are at most [brk / 8] blocks. *)
Definition rounds (s : ustate) : nat := Z.to_nat (2 * (brk s / HEADER) + 4).

(** [b] is linked to [next], or takes it over if it begins where [b] ends. *)
Definition link (b next : Z) : M ustate unit :=
  size ← get_size b;
  if hplus b size =? next then
    nsize ← get_size next;
    set_size b (u32 (size + nsize)) ;;
    nnext ← get_ptr next;
    set_ptr b nnext
  else set_ptr b next.
Definition free (ap : Z) : M ustate unit :=
  let bp := u32 (ap - HEADER) in
  fuel ← gets rounds;
  p0 ← gets freep;
  p ← free_loop bp p0 fuel;
  next ← get_ptr p;
  link bp next ;;
  link p bp ;;
  modify (fun s => {| s with freep := p |}).

Definition morecore (nu : Z) : M ustate Z :=
  let nu := if nu <? 4096 then 4096 else nu in
  p ← sbrk (s32 (nu * HEADER));
  if p =? -1 then mret 0 else
  set_size p nu ;;
  free (u32 (p + HEADER)) ;;
  gets freep.

(** A block that is large enough is taken whole, or its tail is. *)
Definition malloc_take (nunits prevp p psize : Z) : M ustate Z :=
  p ← (if psize =? nunits then next ← get_ptr p; set_ptr prevp next ;; mret p
       else set_size p (psize - nunits) ;;
            let p := hplus p (psize - nunits) in
            set_size p nunits ;; mret p);
  modify (fun s => {| s with freep := prevp |}) ;;
  mret (hplus p 1).
(** The loop from [p = prevp->s.ptr] on. *)
Fixpoint malloc_loop (nunits prevp : Z) (fuel : nat) : M ustate Z :=
  match fuel with
  | O => diverge
  | S fuel' =>
      p ← get_ptr prevp;
      psize ← get_size p;
      if nunits <=? psize then
        malloc_take nunits prevp p psize
      else
        fp ← gets freep;
        if p =? fp then
          p ← morecore nunits;
          if p =? 0 then mret 0 else malloc_loop nunits p fuel'
        else malloc_loop nunits p fuel'
  end.
Definition malloc (nbytes : Z) : M ustate Z :=
  let nunits := u32 (u32 (nbytes + HEADER - 1) / HEADER + 1) in
  fp ← gets freep;
  when (fp =? 0) (set_ptr base base ;; modify (fun s => {| s with freep := base |}) ;; set_size base 0) ;;
  prevp ← gets freep;
  fuel ← gets rounds;
  malloc_loop nunits prevp fuel.

(** ** The invariant *)

(** The blocks of [F] are linked in order, from address [a] to address [q]. *)
Fixpoint seg (m : Z -> Z) (F : list (Z * Z)) (a q : Z) : Prop :=
  match F with
  | [] => a = q
  | (b, n) :: F' => a = b /\ m (b + 4) = n /\ seg m F' (m b) q
  end.
(** The blocks are in order of their addresses and no two are adjacent. *)
Fixpoint apart (F : list (Z * Z)) : Prop :=
  match F with
  | (a, n) :: ((b, _) :: _) as F' => a + 8 * n < b /\ apart F'
  | _ => True
  end.
(** The addresses of a block, and of a list of blocks. *)
Definition inside (x : Z * Z) (w : Z) : Prop := fst x <= w < fst x + 8 * snd x.
Definition covers (F : list (Z * Z)) (w : Z) : Prop := exists x, x ∈ F /\ inside x w.
Definition good_block (s : ustate) (x : Z * Z) : Prop :=
  base + 8 <= fst x /\ fst x mod 4 = 0 /\ 1 <= snd x /\ fst x + 8 * snd x <= brk s.

Record space_ok (s : ustate) : Prop := {
  sp_base : 0 < base /\ base mod 4 = 0 /\ base + 8 <= brk s;
  sp_brk : brk s <= KERNBASE /\ brk s mod 4 = 0
}.
(** [F] are the free blocks, [A] gives the sizes of the allocated ones, in
    headers; [base] is a free block of size 0 before all others. *)
Record heap_ok (s : ustate) (F : list (Z * Z)) (A : gmap Z Z) : Prop := {
  ho_space : space_ok s;
  ho_ring : seg (mem s) ((base, 0) :: F) base base;
  ho_apart : apart ((base, 0) :: F);
  ho_free : Forall (good_block s) F;
  ho_freep : freep s ∈ ((base, 0) :: F).*1;
  ho_alloc : forall a n, A !! a = Some n -> good_block s (a, n) /\ mem s (a + 4) = n;
  ho_split : forall a n w, A !! a = Some n -> inside (a, n) w -> ~ covers F w;
  ho_disjoint : forall a n b m w, A !! a = Some n -> A !! b = Some m -> inside (a, n) w -> inside (b, m) w -> a = b
}.
(** Before the first call of [malloc] there is no list. *)
Definition heap (s : ustate) (A : gmap Z Z) : Prop :=
  (space_ok s /\ freep s = 0 /\ A = ∅) \/ exists F, heap_ok s F A.

(** ** Segments *)

Lemma seg_app m F1 F2 a q : seg m (F1 ++ F2) a q <-> exists r, seg m F1 a r /\ seg m F2 r q.
Proof.
  revert a. induction F1 as [|[b n] F1 IH]; intros a; cbn; [naive_solver|]. rewrite IH. naive_solver.
Qed.
Lemma seg_frame m m' F a q :
  (forall b, b ∈ F.*1 -> m' b = m b /\ m' (b + 4) = m (b + 4)) -> seg m F a q -> seg m' F a q.
Proof.
  revert a. induction F as [|[b n] F IH]; intros a Hm; [done|]. cbn. intros (-> & <- & HF).
  destruct (Hm b) as [H1 H2]; [set_solver|]. rewrite H1, H2. split_and!; [done|done|]. apply IH; [set_solver|done].
Qed.
Definition nxt (F : list (Z * Z)) : Z := match F with [] => base | (b, _) :: _ => b end.
Lemma seg_nxt m F a : seg m F a base -> a = nxt F.
Proof. destruct F as [|[b n] F]; cbn; naive_solver. Qed.
Lemma seg_read m F1 p k F2 : seg m (F1 ++ (p, k) :: F2) base base -> m p = nxt F2 /\ m (p + 4) = k.
Proof. rewrite seg_app. cbn. intros (r & _ & -> & H & ?). split; [by eapply seg_nxt|done]. Qed.

Lemma apart_app F1 x F2 : apart (F1 ++ x :: F2) <-> apart (F1 ++ [x]) /\ apart (x :: F2).
Proof.
  induction F1 as [|[a n] F1 IH]; [destruct x; cbn; tauto|]. cbn [app]. destruct F1 as [|[b m] F1]; cbn [app] in *.
  - destruct x as [c k]. cbn. destruct F2 as [|[]]; tauto.
  - cbn in IH |- *. rewrite IH. tauto.
Qed.
Lemma apart_lt a n F x : apart ((a, n) :: F) -> 0 <= n -> Forall (fun y => 1 <= snd y) F -> x ∈ F -> a + 8 * n < fst x.
Proof.
  revert a n. induction F as [|[b m] F IH]; intros a n H Hn HF Hx; [by inversion Hx|].
  cbn [apart] in H. destruct H as [H1 H2]. apply Forall_cons_1 in HF as [Hm HF]. cbn in Hm. apply elem_of_cons in Hx as [->|Hx]; [done|].
  specialize (IH b m H2 ltac:(lia) HF Hx). lia.
Qed.

(** ** Access to the headers *)

Lemma wp_ldw a (Q : Z -> ustate -> Prop) s : mapped s a = true -> Q (mem s a) s -> wp (ldw a) Q s.
Proof. unfold wp, ldw. by intros ->. Qed.
Lemma wp_stw a v (Q : unit -> ustate -> Prop) s : mapped s a = true -> Q tt {| s with mem := <[a := v]> (mem s) |} -> wp (stw a v) Q s.
Proof. unfold wp, stw. by intros ->. Qed.
Lemma ldw_run a s : mapped s a = true -> ldw a s = Ok (mem s a) s.
Proof. unfold ldw. by intros ->. Qed.
Definition header_mapped (s : ustate) (p : Z) : Prop := mapped s p = true /\ mapped s (p + 4) = true.
Lemma header_mapped_intro s p : 0 <= p -> p mod 4 = 0 -> p + 8 <= brk s -> header_mapped s p.
Proof.
  intros. unfold header_mapped, mapped. rewrite !andb_true_iff, !Z.leb_le, !Z.eqb_eq. replace (p + 4) with (p + 1 * 4) by lia. rewrite Z.mod_add by lia. lia.
Qed.
Lemma good_header s x : space_ok s -> good_block s x -> header_mapped s (fst x).
Proof. intros [Hb _] (H1 & H2 & H3 & H4). apply header_mapped_intro; lia. Qed.
Lemma base_header s : space_ok s -> header_mapped s base.
Proof. intros [Hb _]. apply header_mapped_intro; lia. Qed.
Lemma ring_header s F p : space_ok s -> Forall (good_block s) F -> p ∈ ((base, 0) :: F).*1 -> header_mapped s p.
Proof.
  intros Hs HF Hp. rewrite fmap_cons in Hp. apply elem_of_cons in Hp as [->|Hp]; [by apply base_header|].
  apply list_elem_of_fmap in Hp as (x & -> & Hx). apply good_header; [done|]. by rewrite list.Forall_forall in HF; apply HF.
Qed.

Lemma apart_length a n F top : apart ((a, n) :: F) -> 1 <= n -> Forall (fun y => 1 <= snd y) F -> Forall (fun y => fst y + 8 * snd y <= top) ((a, n) :: F) ->
  a + 8 * Z.of_nat (S (length F)) <= top.
Proof.
  revert a n. induction F as [|[b m] F IH]; intros a n H Hn HF Ht; apply Forall_cons_1 in Ht as [Ha Ht]; cbn [fst snd] in *; [cbn; lia|].
  cbn [apart] in H. destruct H as [H1 H2]. apply Forall_cons_1 in HF as [Hm HF]. specialize (IH b m H2 Hm HF Ht). cbn [length] in *. lia.
Qed.
Lemma ring_length s F : space_ok s -> apart ((base, 0) :: F) -> Forall (good_block s) F -> (2 * length ((base, 0%Z) :: F) + 2 <= rounds s)%nat.
Proof.
  intros [Hb _] Ha HF. unfold rounds, HEADER. assert (Z.of_nat (length F) + 1 <= brk s / 8); [|cbn [length]; lia].
  apply Z.div_le_lower_bound; [lia|]. destruct F as [|[a n] F]; [cbn; lia|]. cbn [apart] in Ha. destruct Ha as [_ Ha].
  pose proof HF as HF'. apply Forall_cons_1 in HF' as [(H1 & H2 & H3 & H4) HF']. cbn [fst snd] in *.
  pose proof (apart_length a n F (brk s) Ha H3) as H. cbn [length].
  assert (a + 8 * Z.of_nat (S (length F)) <= brk s); [|lia]. apply H.
  - eapply Forall_weaken; [exact HF'|]. intros x (_ & _ & ? & _). done.
  - eapply Forall_weaken; [exact HF|]. intros x (_ & _ & _ & ?). done.
Qed.

(** ** The search of [free] *)

Section Search.
Context (s : ustate) (F : list (Z * Z)).
Context (Hs : space_ok s) (Hring : seg (mem s) ((base, 0) :: F) base base) (Hapart : apart ((base, 0) :: F)) (Hgood : Forall (good_block s) F).

Lemma ring_sorted L a n M x : (base, 0) :: F = L ++ (a, n) :: M -> x ∈ M -> a + 8 * n < fst x.
Proof.
  intros E Hx. assert (Forall (fun y => 0 <= snd y) ((base, 0) :: F) /\ Forall (fun y => 1 <= snd y) F) as [H0 H1].
  { split; [constructor; [done|]|]; (eapply Forall_weaken; [exact Hgood|]); intros y (_ & _ & ? & _); lia. }
  rewrite E in Hapart, H0. apply apart_app in Hapart as [_ Ha]. apply list.Forall_app in H0 as [_ H0]. apply list.Forall_cons in H0 as [Hn _]. cbn in Hn.
  apply (apart_lt a n M); [done|done| |done]. destruct L as [|y L]; cbn in E; [by injection E as _ _ ->|]. injection E as _ ->.
  apply list.Forall_app in H1 as [_ H1]. by apply list.Forall_cons in H1 as [_ H1].
Qed.
Lemma ring_lt L a n M x : (base, 0) :: F = L ++ (a, n) :: M -> x ∈ M -> a < fst x.
Proof.
  intros E Hx. pose proof (ring_sorted L a n M x E Hx). assert (0 <= n); [|lia].
  assert ((a, n) ∈ (base, 0) :: F) as Hin by (rewrite E; set_solver). apply elem_of_cons in Hin as [[= -> ->]|Hin]; [done|].
  rewrite list.Forall_forall in Hgood. destruct (Hgood _ Hin) as (_ & _ & ? & _). cbn in *. lia.
Qed.
Lemma step_read L a n M : (base, 0) :: F = L ++ (a, n) :: M -> get_ptr a s = Ok (nxt M) s.
Proof.
  intros E. rewrite E in Hring. apply seg_read in Hring as [<- _]. apply ldw_run. eapply ring_header; [done..|].
  rewrite E, fmap_app. set_solver.
Qed.
Context (bp p k : Z) (G1 G2 : list (Z * Z)).
Context (HR : (base, 0) :: F = G1 ++ (p, k) :: G2) (Hp : p < bp) (HG2 : Forall (fun x => bp < fst x) G2) (Hbp : base < bp).

Lemma free_forward M1 : forall L a fuel,
  (base, 0) :: F = L ++ M1 ++ (p, k) :: G2 -> a = nxt (M1 ++ (p, k) :: G2) -> (length M1 < fuel)%nat -> free_loop bp a fuel s = Ok p s.
Proof.
  induction M1 as [|[c n] M1 IH]; intros L a fuel E -> Hf; (destruct fuel as [|fuel]; [lia|]); cbn [app nxt free_loop].
  - rewrite (bind_run _ _ _ (nxt G2) s) by (by apply (step_read L _ k)). destruct (Z.ltb_spec p bp); [|lia]. cbn [andb orb].
    destruct G2 as [|[b m] G2']; cbn [nxt].
    + destruct (Z.ltb_spec bp base); [lia|]. destruct (Z.leb_spec base p); [done|]. exfalso.
      destruct L as [|g L]; cbn in E; [injection E; lia|]. injection E as _ E. 
      pose proof (ring_lt [] base 0 F (p, k) eq_refl) as H'. cbn in H'. rewrite E in H'. ospecialize* H'; [set_solver|lia].
    + apply list.Forall_cons in HG2 as [Hb _]. cbn in Hb. destruct (Z.ltb_spec bp b); [done|lia].
  - cbn [length] in Hf. cbn [app] in E. rewrite (bind_run _ _ _ (nxt (M1 ++ (p, k) :: G2)) s) by (by apply (step_read L _ n)).
    assert (c < nxt (M1 ++ (p, k) :: G2) <= p) as Hc.
    { destruct M1 as [|[d m] M1]; cbn [app nxt] in *.
      - split; [|lia]. apply (ring_lt L c n _ (p, k) E). set_solver.
      - split; [apply (ring_lt L c n _ (d, m) E); set_solver|]. apply Z.lt_le_incl, (ring_lt (L ++ [(c, n)]) d m (M1 ++ (p, k) :: G2) (p, k)); [by rewrite <- app_assoc|set_solver]. }
    destruct (Z.ltb_spec bp (nxt (M1 ++ (p, k) :: G2))); [lia|]. rewrite andb_false_r.
    destruct (Z.leb_spec (nxt (M1 ++ (p, k) :: G2)) c); [lia|]. cbn [andb]. apply (IH (L ++ [(c, n)])); [by rewrite <- app_assoc|done|lia].
Qed.
Lemma free_backward N : forall L a fuel,
  (base, 0) :: F = L ++ N -> a = nxt N -> Forall (fun x => bp < fst x) N -> (length N + length G1 < fuel)%nat -> free_loop bp a fuel s = Ok p s.
Proof.
  induction N as [|[c n] N IH]; intros L a fuel E -> HN Hf; cbn [nxt] in *.
  { apply (free_forward G1 []); [done| |cbn in Hf; lia]. rewrite <- HR. done. }
  apply list.Forall_cons in HN as [Hc HN]. cbn in Hc. destruct fuel as [|fuel]; [lia|]. cbn [free_loop].
  rewrite (bind_run _ _ _ (nxt N) s) by (by apply (step_read L _ n)). destruct (Z.ltb_spec c bp); [lia|]. cbn [andb orb].
  assert ((nxt N <=? c) && (bp <? nxt N) = false) as ->.
  { destruct N as [|[d m] N]; cbn [nxt].
    - destruct (Z.ltb_spec bp base); [lia|]. apply andb_false_r.
    - pose proof (ring_lt L c n _ (d, m) E ltac:(set_solver)) as H'. cbn in H'. by destruct (Z.leb_spec d c); [lia|]. }
  apply (IH (L ++ [(c, n)])); [by rewrite <- app_assoc|done|done|cbn in Hf; lia].
Qed.
(** The search finds the block before [bp], from wherever it starts. *)
Lemma free_search q : q ∈ ((base, 0) :: F).*1 -> free_loop bp q (rounds s) s = Ok p s.
Proof.
  intros Hq. pose proof (ring_length s F Hs Hapart Hgood) as Hlen. rewrite HR, length_app in Hlen. cbn [length] in Hlen.
  apply list_elem_of_fmap in Hq as ([q' n] & -> & Hq). rewrite HR in Hq. apply elem_of_app in Hq as [Hq|Hq].
  - apply list_elem_of_split in Hq as (L & M & E). rewrite E, length_app in Hlen. cbn [length] in Hlen.
    apply (free_forward ((q', n) :: M) L); [by rewrite HR, E, <- app_assoc|done|cbn; lia].
  - apply elem_of_cons in Hq as [[= -> ->]|Hq]; [apply (free_forward [] G1); [done|done|cbn; lia]|].
    apply list_elem_of_split in Hq as (L & M & E). pose proof HG2 as HN. rewrite E in HN. apply list.Forall_app in HN as [_ HN]. rewrite E, length_app in Hlen. cbn [length] in Hlen.
    apply (free_backward ((q', n) :: M) (G1 ++ (p, k) :: L)); [rewrite HR, E, <- app_assoc; done|done|done|cbn; lia].
Qed.
End Search.

(** ** Joining blocks *)

Definition join (b : Z * Z) (G : list (Z * Z)) : list (Z * Z) :=
  match G with
  | [] => [b]
  | (x, xn) :: G' => if fst b + 8 * snd b =? x then (fst b, snd b + xn) :: G' else b :: G
  end.
(** [b] ends before the first block of [G]. *)
Definition before (b : Z * Z) (G : list (Z * Z)) : Prop :=
  match G with [] => True | (x, _) :: _ => fst b + 8 * snd b <= x end.

Lemma join_apart b G : apart G -> before b G -> apart (join b G).
Proof.
  destruct b as [b n], G as [|[x xn] G]; intros HG Hb; [done|]. cbn [join fst snd] in *. destruct (Z.eqb_spec (b + 8 * n) x) as [<-|Hne].
  - destruct G as [|[y yn] G]; [done|]. cbn [apart] in *. destruct HG. split; [lia|done].
  - cbn [before fst snd] in Hb. cbn [apart]. split; [lia|done].
Qed.
Lemma join_cons b G : exists n G', join b G = (fst b, n) :: G'.
Proof. destruct b as [b n], G as [|[x xn] G]; cbn; [eauto|]. destruct (_ =? _); eauto. Qed.
Lemma covers_cons x F w : covers (x :: F) w <-> inside x w \/ covers F w.
Proof. unfold covers. setoid_rewrite elem_of_cons. naive_solver. Qed.
Lemma covers_nil w : ~ covers [] w.
Proof. intros (x & Hx & _). by inversion Hx. Qed.
Lemma covers_app F F' w : covers (F ++ F') w <-> covers F w \/ covers F' w.
Proof. unfold covers. setoid_rewrite elem_of_app. naive_solver. Qed.
Lemma covers_join b G w : 0 <= snd b -> Forall (fun x => 0 <= snd x) G -> covers (join b G) w <-> inside b w \/ covers G w.
Proof.
  destruct b as [b n], G as [|[x xn] G]; cbn [join fst snd]; intros Hn HG; [by rewrite covers_cons|]. apply list.Forall_cons in HG as [Hx _]. cbn in Hx.
  destruct (Z.eqb_spec (b + 8 * n) x) as [<-|]; rewrite !covers_cons; [|done]. unfold inside; cbn [fst snd]. split.
  - intros [H|H]; [destruct (Z.lt_ge_cases w (b + 8 * n)); [left; lia|right; left; lia]|by right; right].
  - intros [H|[H|H]]; [left; lia|left; lia|by right].
Qed.
Lemma apart_last G p k k' : apart (G ++ [(p, k)]) -> apart (G ++ [(p, k')]).
Proof.
  induction G as [|[a n] G IH]; [done|]. cbn [app]. destruct G as [|[b m] G]; cbn [app apart] in *; [done|]. intros [H1 H2]. split; [done|]. by apply IH.
Qed.
Lemma join_good s b G : good_block s b -> Forall (good_block s) G -> before b G -> Forall (good_block s) (join b G).
Proof.
  destruct b as [b n], G as [|[x xn] G]; intros Hb HG Hlt; [by constructor|]. cbn [join fst snd before] in *. apply list.Forall_cons in HG as [Hx HG].
  destruct (Z.eqb_spec (b + 8 * n) x) as [<-|]; [|constructor; [done|by constructor]]. constructor; [|done].
  destruct Hb as (? & ? & ? & ?), Hx as (? & ? & ? & ?). cbn [fst snd] in *. split_and!; cbn [fst snd]; lia.
Qed.

Definition within (y x : Z * Z) : Prop := fst x <= fst y /\ fst y + 8 * snd y <= fst x + 8 * snd x.
Lemma join_within b G y : 0 <= snd b -> Forall (fun x => 0 <= snd x) G -> y ∈ b :: G -> exists x, x ∈ join b G /\ within y x.
Proof.
  destruct b as [b n], G as [|[x xn] G]; cbn [join fst snd]; intros Hn HG Hy; [exists y; split; [done|unfold within; lia]|]. apply list.Forall_cons in HG as [Hx _]. cbn in Hx.
  destruct (Z.eqb_spec (b + 8 * n) x) as [<-|]; [|exists y; split; [done|unfold within; lia]]. rewrite !elem_of_cons in Hy. destruct Hy as [->|[->|Hy]].
  - exists (b, n + xn). split; [set_solver|unfold within; cbn; lia].
  - exists (b, n + xn). split; [set_solver|unfold within; cbn; lia].
  - exists y. split; [set_solver|unfold within; lia].
Qed.
Lemma within_trans x y z : within x y -> within y z -> within x z.
Proof. unfold within. lia. Qed.
(** Only the header of [b] changes. *)
Definition same_but (b : Z) (m m' : Z -> Z) : Prop := forall w, w ≠ b -> w ≠ b + 4 -> m' w = m w.
Lemma wp_link b n G s (Q : unit -> ustate -> Prop) :
  header_mapped s b -> 0 <= b -> 0 <= n -> b + 8 * n <= brk s -> brk s <= KERNBASE -> mem s (b + 4) = n -> (G = [] -> base ≠ b + 8 * n) ->
  seg (mem s) G (nxt G) base -> Forall (good_block s) G -> Forall (fun x => b + 8 <= fst x) G -> space_ok s ->
  (forall m', same_but b (mem s) m' -> seg m' (join (b, n) G) b base -> Q tt {| s with mem := m' |}) ->
  wp (link b (nxt G)) Q s.
Proof.
  intros [M1 M2] Hb Hn Hbn Hbrk Hsz Hbase HG Hgood Hfar Hs HQ. unfold link, get_size, get_ptr, set_size, set_ptr, KERNBASE in *. rewrite wp_bind. apply wp_ldw; [done|].
  rewrite Hsz. unfold hplus, HEADER. rewrite u32_small by (unfold W32; lia). destruct (Z.eqb_spec (b + 8 * n) (nxt G)) as [E|E].
  - destruct G as [|[x xn] G]; cbn [nxt] in E; [by destruct (Hbase eq_refl)|]. cbn [nxt seg] in *. destruct HG as (_ & Hxn & HG).
    apply list.Forall_cons in Hgood as [Hx Hgood], Hfar as [Hxb Hfar]. destruct (good_header s _ Hs Hx) as [N1 N2]. destruct Hx as (X1 & X2 & X3 & X4). cbn [fst snd] in *.
    rewrite wp_bind. apply wp_ldw; [done|]. rewrite Hxn, u32_small by (unfold W32; lia). rewrite wp_bind. apply wp_stw; [done|].
    rewrite wp_bind. apply wp_ldw; [done|]. apply wp_stw; [done|]. cbn [mem]. apply HQ.
    + intros w W1 W2. by rewrite !fn_lookup_insert_ne by done.
    + cbn [join fst snd]. rewrite (proj2 (Z.eqb_eq _ _) E). cbn [seg]. split_and!; [done| |].
      * rewrite fn_lookup_insert_ne by lia. by rewrite fn_lookup_insert.
      * rewrite fn_lookup_insert, fn_lookup_insert_ne by lia. eapply seg_frame; [|exact HG].
        intros c Hc. apply list_elem_of_fmap in Hc as (y & -> & Hy). rewrite list.Forall_forall in Hfar. pose proof (Hfar _ Hy). rewrite !fn_lookup_insert_ne by lia. done.
  - apply wp_stw; [done|]. apply HQ.
    + intros w W1 W2. by rewrite fn_lookup_insert_ne by done.
    + assert (join (b, n) G = (b, n) :: G) as ->.
      { destruct G as [|[x xn] G]; [done|]. cbn in *. by rewrite (proj2 (Z.eqb_neq _ _) E). }
      cbn [seg]. rewrite fn_lookup_insert, fn_lookup_insert_ne by lia. split_and!; [done|done|]. eapply seg_frame; [|exact HG].
      intros c Hc. apply list_elem_of_fmap in Hc as (y & -> & Hy). rewrite list.Forall_forall in Hfar. pose proof (Hfar _ Hy). rewrite !fn_lookup_insert_ne by lia. done.
Qed.

(** ** [free] *)

Lemma ring_split bp a n (F : list (Z * Z)) :
  a < bp -> Forall (fun x => fst x ≠ bp) F -> (forall L c m M x, (a, n) :: F = L ++ (c, m) :: M -> x ∈ M -> c < fst x) ->
  exists G1 p k G2, (a, n) :: F = G1 ++ (p, k) :: G2 /\ p < bp /\ Forall (fun x => bp < fst x) G2.
Proof.
  revert a n. induction F as [|[b m] F IH]; intros a n Ha Hne Hs; [exists [], a, n, []; done|].
  apply list.Forall_cons in Hne as [Hb Hne]. cbn in Hb. destruct (Z.lt_ge_cases b bp).
  - destruct (IH b m) as (G1 & p & k & G2 & E & ? & ?); [done|done| |].
    + intros L c m' M x E. apply (Hs ((a, n) :: L) c m' M x). by rewrite E.
    + exists ((a, n) :: G1), p, k, G2. by rewrite E.
  - exists [], a, n, ((b, m) :: F). split_and!; [done|done|]. constructor; [cbn; lia|]. apply list.Forall_forall. intros x Hx.
    pose proof (Hs [(a, n)] b m F x eq_refl Hx). lia.
Qed.
Lemma inside_start a n : 1 <= n -> inside (a, n) a.
Proof. unfold inside. cbn. lia. Qed.
(** Blocks without a common address. *)
Lemma apart_inside (x y : Z * Z) : 1 <= snd x -> 1 <= snd y -> (forall w, inside x w -> ~ inside y w) -> fst x + 8 * snd x <= fst y \/ fst y + 8 * snd y <= fst x.
Proof.
  destruct x as [a n], y as [b m]. unfold inside. cbn [fst snd]. intros Hn Hm H. destruct (Z.le_ge_cases a b).
  - left. destruct (Z.le_gt_cases (a + 8 * n) b); [done|]. destruct (H b); lia.
  - right. destruct (Z.le_gt_cases (b + 8 * m) a); [done|]. destruct (H a); lia.
Qed.
Lemma heap_sorted s F A (H : heap_ok s F A) L c m M x : (base, 0) :: F = L ++ (c, m) :: M -> x ∈ M -> c < fst x.
Proof. destruct H. by apply (ring_lt s F). Qed.
Lemma free_place s F A a n :
  heap_ok s F A -> A !! a = Some n ->
  exists G1 p k G2, (base, 0) :: F = G1 ++ (p, k) :: G2 /\ p < a /\ p + 8 * k <= a /\ p + 8 <= a /\ Forall (fun x => a < fst x) G2 /\ Forall (fun x => a + 8 * n <= fst x) G2 /\ 0 <= k.
Proof.
  intros H HA. destruct (ho_alloc _ _ _ H a n HA) as [(B1 & B2 & B3 & B4) _]. cbn [fst snd] in *.
  assert (forall x, x ∈ F -> fst x + 8 * snd x <= a \/ a + 8 * n <= fst x) as Hfar.
  { intros x Hx. pose proof (ho_free _ _ _ H) as HF. rewrite list.Forall_forall in HF. destruct (HF _ Hx) as (_ & _ & Hx1 & _).
    apply (apart_inside x (a, n)); [done|done|]. intros w Hw Hw'. apply (ho_split _ _ _ H a n w HA Hw'). by exists x. }
  assert (forall x, x ∈ F -> 1 <= snd x) as Hpos.
  { intros x Hx. pose proof (ho_free _ _ _ H) as HF. rewrite list.Forall_forall in HF. by destruct (HF _ Hx) as (_ & _ & Hx1 & _). }
  destruct (ring_split a base 0 F) as (G1 & p & k & G2 & E & Hp & HG2); [lia| |intros L c m M x E; by apply (heap_sorted s F A H L c m M x)|].
  { apply list.Forall_forall. intros x Hx Heq. pose proof (Hpos x Hx). destruct (Hfar x Hx); lia. }
  exists G1, p, k, G2. assert (forall x, x ∈ G2 -> x ∈ F) as HG2F.
  { intros x Hx. destruct G1 as [|g G1]; cbn in E; injection E; [intros -> _ _; done|]. intros -> _. set_solver. }
  assert (p + 8 * k <= a /\ p + 8 <= a /\ 0 <= k) as (? & ? & ?).
  { assert ((p, k) ∈ (base, 0) :: F) as Hin by (rewrite E; set_solver). apply elem_of_cons in Hin as [[= -> ->]|Hin]; [lia|].
    pose proof (Hpos _ Hin). destruct (Hfar _ Hin); cbn [fst snd] in *; lia. }
  split_and!; try done. apply list.Forall_forall. intros x Hx. rewrite list.Forall_forall in HG2. pose proof (HG2 _ Hx). pose proof (Hpos _ (HG2F _ Hx)). destruct (Hfar _ (HG2F _ Hx)); lia.
Qed.

(** The headers of free blocks, and of [base], are outside allocated blocks. *)
Lemma ring_untouched s F A p k b m w :
  heap_ok s F A -> (p, k) ∈ (base, 0) :: F -> A !! b = Some m -> inside (b, m) w -> w ≠ p /\ w ≠ p + 4.
Proof.
  intros H Hp Hb Hw. destruct (ho_alloc _ _ _ H b m Hb) as [(B1 & _) _]. cbn in B1. apply elem_of_cons in Hp as [[= -> ->]|Hp]; [unfold inside in Hw; cbn in Hw; lia|].
  pose proof (ho_free _ _ _ H) as HF. rewrite list.Forall_forall in HF. destruct (HF _ Hp) as (_ & _ & Hk & _). cbn in Hk.
  split; intros ->; apply (ho_split _ _ _ H b m _ Hb Hw); exists (p, k); (split; [done|]); unfold inside; cbn; lia.
Qed.
Lemma good_sizes s G : Forall (good_block s) G -> Forall (fun x => 0 <= snd x) G.
Proof. intros H. eapply Forall_weaken; [exact H|]. intros y (_ & _ & ? & _). lia. Qed.
Lemma block_untouched s F A a n b m w :
  heap_ok s F A -> A !! a = Some n -> A !! b = Some m -> a ≠ b -> inside (b, m) w -> w ≠ a /\ w ≠ a + 4.
Proof.
  intros H Ha Hb Hne Hw. destruct (ho_alloc _ _ _ H a n Ha) as [(_ & _ & B3 & _) _]. cbn in B3.
  split; intros ->; apply Hne; eapply (ho_disjoint _ _ _ H a n b m); eauto; unfold inside; cbn; lia.
Qed.
Lemma header_word s F A a n : heap_ok s F A -> A !! a = Some n -> inside (a, n) (a + 4).
Proof. intros H Ha. destruct (ho_alloc _ _ _ H a n Ha) as [(_ & _ & B3 & _) _]. unfold inside. cbn in *. lia. Qed.

(** The list after a block was put back between two others. *)
Lemma insert_block s F A a n G1 p k G2 :
  heap_ok s F A -> A !! a = Some n -> (base, 0) :: F = G1 ++ (p, k) :: G2 -> p + 8 * k <= a -> p + 8 <= a -> Forall (fun x => a + 8 * n <= fst x) G2 -> 0 <= k ->
  let J := join (a, n) G2 in
  Forall (good_block s) G2 /\ Forall (good_block s) J /\ Forall (fun x => p + 8 <= fst x) J /\ apart (G1 ++ join (p, k) J) /\
  exists F', G1 ++ join (p, k) J = (base, 0) :: F' /\ Forall (good_block s) F' /\ (forall w, covers F' w <-> covers F w \/ inside (a, n) w) /\
    exists x, x ∈ F' /\ within (a, n) x.
Proof.
  intros H HA E Hpa Hp8 HG2 Hk J. destruct (ho_alloc _ _ _ H a n HA) as [Hgood _].
  assert (Forall (good_block s) G2) as Hg2.
  { pose proof (ho_free _ _ _ H) as HF. destruct G1 as [|g G1]; cbn in E; injection E; [by intros <- _ _|]. intros -> _. apply list.Forall_app in HF as [_ HF]. by apply list.Forall_cons in HF as [_ HF]. }
  assert (before (a, n) G2) as Hbef by (destruct HG2 as [|[x xn] G2 Hx _]; done).
  assert (Forall (good_block s) J) as HJ by (by apply join_good).
  destruct (join_cons (a, n) G2) as (n' & J' & EJ). fold J in EJ. cbn [fst] in EJ.
  assert (before (p, k) J) as HbJ by (rewrite EJ; done).
  pose proof (ho_apart _ _ _ H) as Hap. rewrite E in Hap. apply apart_app in Hap as [Hap1 Hap2].
  assert (apart J) as HapJ by (apply join_apart; [destruct G2 as [|[] G2]; [done|]; apply Hap2|done]).
  split_and!; [done|done| | |].
  - rewrite EJ in HJ |- *. constructor; [done|]. rewrite EJ in HapJ. apply list.Forall_cons in HJ as [(_ & _ & Hn' & _) HJ]. cbn in Hn'. apply list.Forall_forall. intros x Hx.
    pose proof (apart_lt a n' J' x HapJ ltac:(lia)) as Hlt. assert (a + 8 * n' < fst x); [|lia]. apply Hlt; [|done]. eapply Forall_weaken; [exact HJ|]. by intros y (_ & _ & ? & _).
  - destruct (join_cons (p, k) J) as (k' & L & EL). rewrite EL. apply apart_app. split; [by apply apart_last with k|]. rewrite <- EL. by apply join_apart.
  - assert (forall w, covers (G1 ++ join (p, k) J) w <-> covers F w \/ inside (a, n) w) as Hcov.
    { intros w. assert (covers F w <-> covers ((base, 0) :: F) w) as -> by (rewrite covers_cons; unfold inside; cbn; naive_solver lia).
      rewrite E, !covers_app, covers_cons. destruct Hgood as (_ & _ & Hn1 & _).
      rewrite covers_join by (done || by apply (good_sizes s)). unfold J. cbn [snd] in Hn1.
      rewrite covers_join by ((cbn; lia) || by apply (good_sizes s)). tauto. }
    assert (forall F', G1 ++ join (p, k) J = (base, 0) :: F' -> forall w, covers F' w <-> covers F w \/ inside (a, n) w) as Hcov'.
    { intros F' EF w. rewrite <- Hcov, EF, covers_cons. unfold inside; cbn. naive_solver lia. }
    assert (forall F', G1 ++ join (p, k) J = (base, 0) :: F' -> exists x, x ∈ F' /\ within (a, n) x) as Hwith.
    { intros F' EF. pose proof Hgood as (_ & _ & Hn1 & _). cbn in Hn1.
      destruct (join_within (a, n) G2 (a, n)) as (y & Hy & Hw); [cbn; lia|by apply (good_sizes s)|set_solver|].
      destruct (join_within (p, k) J y) as (x & Hx & Hw'); [done|by apply (good_sizes s)|set_solver|]. pose proof (within_trans _ _ _ Hw Hw') as Hw2.
      assert (x ∈ (base, 0) :: F') as Hin by (rewrite <- EF; set_solver). apply elem_of_cons in Hin as [->|Hin]; [unfold within in Hw2; cbn in Hw2; lia|eauto]. }
    destruct G1 as [|g G1]; cbn [app] in *; injection E.
    + intros -> <- <-. rewrite EJ in *. cbn [join fst snd] in *. destruct (Z.eqb_spec (base + 8 * 0) a); [lia|]. eauto 10.
    + intros EF <-. exists (G1 ++ join (p, k) J). split_and!; [done| |by apply Hcov'|by apply Hwith]. pose proof (ho_free _ _ _ H) as HF. rewrite EF in HF. apply list.Forall_app in HF as [HF1 HF2].
      apply list.Forall_cons in HF2 as [HF2 _]. apply list.Forall_app. split; [done|]. by apply join_good.
Qed.

(** The contents of the allocated blocks stay as they are. *)
Definition preserved (A : gmap Z Z) (s s' : ustate) : Prop :=
  forall b m w, A !! b = Some m -> inside (b, m) w -> mem s' w = mem s w.
Lemma preserved_refl A s : preserved A s s.
Proof. done. Qed.
Lemma preserved_trans A s1 s2 s3 : preserved A s1 s2 -> preserved A s2 s3 -> preserved A s1 s3.
Proof. intros H1 H2 b m w Hb Hw. by rewrite (H2 b m w), (H1 b m w). Qed.
Lemma preserved_sub A A' s s' : A' ⊆ A -> preserved A s s' -> preserved A' s s'.
Proof. intros Hsub H b m w Hb. apply (H b m w). by eapply lookup_weaken. Qed.

Lemma ring_far s F A L c m M x : heap_ok s F A -> (base, 0) :: F = L ++ (c, m) :: M -> x ∈ M -> c + 8 <= fst x.
Proof.
  intros H E Hx. pose proof (ho_free _ _ _ H) as HF. rewrite list.Forall_forall in HF.
  destruct L as [|y L]; cbn in E; injection E.
  - intros -> _ <-. by destruct (HF x Hx) as (? & _).
  - intros EF _. destruct (HF (c, m)) as (_ & _ & Hm & _); [rewrite EF; set_solver|]. cbn in Hm.
    enough (c + 8 * m < fst x) by lia. destruct H. by eapply (ring_sorted s F) with (L := y :: L) (M := M).
Qed.
Lemma length_join b G : (length (join b G) <= S (length G))%nat.
Proof. destruct b, G as [|[] G]; cbn; [done|]. destruct (_ =? _); cbn; lia. Qed.

Lemma space_brk s s' : brk s' = brk s -> space_ok s -> space_ok s'.
Proof. intros E [H1 H2]. by split; rewrite E. Qed.
(** The memory after [free]. *)
Lemma wp_free_mem s F A a n G1 p k G2 (Q : unit -> ustate -> Prop) :
  heap_ok s F A -> A !! a = Some n -> (base, 0) :: F = G1 ++ (p, k) :: G2 -> p + 8 * k <= a -> p + 8 <= a -> 
  Forall (fun x => a < fst x) G2 -> Forall (fun x => a + 8 * n <= fst x) G2 -> 0 <= k ->
  (forall m', (forall w, w ≠ a -> w ≠ a + 4 -> w ≠ p -> w ≠ p + 4 -> m' w = mem s w) -> seg m' (G1 ++ join (p, k) (join (a, n) G2)) base base ->
     Q tt {| {| s with mem := m' |} with freep := p |}) ->
  wp (free (u32 (a + HEADER))) Q s.
Proof.
  intros H HA E Hpk Hp8 HG2 HG2' Hk HQ. destruct (insert_block s F A a n G1 p k G2 H HA E Hpk Hp8 HG2' Hk) as (Hg2 & HJ & HpJ & _).
  destruct (ho_alloc _ _ _ H a n HA) as [Hgood Hsz]. pose proof Hgood as (B1 & B2 & B3 & B4). cbn [fst snd] in *.
  pose proof (ho_space _ _ _ H) as Hs. pose proof Hs as [Sb [Sk Sm]]. assert ((p, k) ∈ (base, 0) :: F) as Hin by (rewrite E; set_solver).
  assert (0 <= p) by (pose proof (ho_free _ _ _ H) as HF; rewrite list.Forall_forall in HF; apply elem_of_cons in Hin as [[= -> ->]|Hin]; [lia|]; destruct (HF _ Hin) as (? & _); cbn in *; lia).
  assert (header_mapped s p) as Mp by (eapply ring_header; [done|apply H|]; apply list_elem_of_fmap; by exists (p, k)).
  pose proof (ho_ring _ _ _ H) as Hring. rewrite E in Hring. destruct (seg_read _ _ _ _ _ Hring) as [Rp Rk].
  apply seg_app in Hring as (q & Sg1 & -> & _ & Sg2). rewrite Rp in Sg2. unfold KERNBASE in *.
  unfold free, HEADER. rewrite (u32_small (a + 8)) by (unfold W32; lia). replace (a + 8 - 8) with a by lia. rewrite (u32_small a) by (unfold W32; lia).
  wp_steps. rewrite (wp_eq _ _ _ p s) by (apply (free_search s F Hs (ho_ring _ _ _ H) (ho_apart _ _ _ H) (ho_free _ _ _ H) a p k G1 G2); try done; [lia|lia|apply H]).
  rewrite wp_bind. apply wp_ldw; [apply Mp|]. rewrite Rp. rewrite wp_bind.
  apply (wp_link a n G2); try done; try lia.
  { by apply (good_header s (a, n)). }
  { eapply Forall_weaken; [exact HG2'|]. cbn. lia. }
  intros m1 D1 S1. destruct (join_cons (a, n) G2) as (n' & J' & EJ). cbn [fst] in EJ.
  rewrite wp_bind. assert (link p a = link p (nxt (join (a, n) G2))) as -> by (by rewrite EJ). apply (wp_link p k (join (a, n) G2)); try done; cbn [mem brk]; try lia.
  { rewrite D1 by lia. done. }
  { by rewrite EJ. }
  { by rewrite EJ in S1 |- *. }
  intros m2 D2 S2. wp_steps. apply HQ; [intros w ????; by rewrite D2, D1|]. apply seg_app. exists p. split; [|done].
  eapply seg_frame; [|exact Sg1]. intros b Hb. apply list_elem_of_fmap in Hb as ([c m] & -> & Hb). apply list_elem_of_split in Hb as (L & M & ->). cbn [fst].
  assert (c + 8 <= p) by (apply (ring_far s F A L c m (M ++ (p, k) :: G2) (p, k) H); [by rewrite E, <- app_assoc|set_solver]).
  rewrite !D2, !D1 by lia. done.
Qed.
Lemma wp_free s F A a n (Q : unit -> ustate -> Prop) :
  heap_ok s F A -> A !! a = Some n ->
  (forall s' F', heap_ok s' F' (delete a A) -> brk s' = brk s -> preserved (delete a A) s s' ->
     (exists x, x ∈ F' /\ within (a, n) x) -> (length F' <= S (length F))%nat -> Q tt s') ->
  wp (free (u32 (a + HEADER))) Q s.
Proof.
  intros H HA HQ. destruct (free_place s F A a n H HA) as (G1 & p & k & G2 & E & Hp & Hpk & Hp8 & HG2 & HG2' & Hk).
  destruct (insert_block s F A a n G1 p k G2 H HA E Hpk Hp8 HG2' Hk) as (_ & _ & _ & Hap & F' & EF & HF' & Hcov & Hwith).
  apply (wp_free_mem s F A a n G1 p k G2); try done. intros m' D S'. set (s' := {| {| s with mem := m' |} with freep := p |}).
  assert (preserved (delete a A) s s') as Hpres.
  { intros b m w Hb Hw. apply lookup_delete_Some in Hb as [Hne Hb]. assert ((p, k) ∈ (base, 0) :: F) as Hin by (rewrite E; set_solver).
    destruct (ring_untouched s F A p k b m w H Hin Hb Hw), (block_untouched s F A a n b m w H HA Hb Hne Hw). by apply D. }
  apply (HQ s' F'); [|done|done|done|].
  - rewrite EF in S', Hap. constructor; try done.
    + by apply (space_brk s), H.
    + cbn [freep s']. rewrite <- EF. destruct (join_cons (p, k) (join (a, n) G2)) as (k' & L & ->). rewrite fmap_app. set_solver.
    + intros b m Hb. pose proof Hb as Hb'. apply lookup_delete_Some in Hb' as [Hne Hb']. destruct (ho_alloc _ _ _ H b m Hb') as [Hg Hm]. split; [done|].
      rewrite (Hpres b m); [done|done|by eapply header_word].
    + intros b m w Hb Hw. apply lookup_delete_Some in Hb as [Hne Hb]. rewrite Hcov. intros [Hc|Hc]; [by apply (ho_split _ _ _ H b m w)|].
      apply Hne. by apply (ho_disjoint _ _ _ H a n b m w).
    + intros b m c l w Hb Hc. apply lookup_delete_Some in Hb as [_ Hb], Hc as [_ Hc]. by apply (ho_disjoint _ _ _ H b m c l w).
  - pose proof (length_join (a, n) G2). pose proof (length_join (p, k) (join (a, n) G2)). apply (f_equal length) in E, EF. rewrite length_app in *. cbn [length] in *. lia.
Qed.

(** ** Taking a block *)

Lemma ring_disjoint s F A H x G w : heap_ok s F A -> F = H ++ x :: G -> inside x w -> ~ covers (H ++ G) w.
Proof.
  intros Hok E Hx (y & Hy & Hyw). destruct x as [a n], y as [b m]. unfold inside in *. cbn [fst snd] in *.
  assert (forall L c l M z, (base, 0) :: F = L ++ (c, l) :: M -> z ∈ M -> c + 8 * l < fst z) as Hsorted.
  { intros L c l M z EL Hz. destruct Hok. by eapply (ring_sorted s F). }
  apply elem_of_app in Hy as [Hy|Hy].
  - apply list_elem_of_split in Hy as (H1 & H2 & ->). pose proof (Hsorted ((base, 0) :: H1) b m (H2 ++ (a, n) :: G) (a, n)) as Hs. cbn in Hs.
    assert (b + 8 * m < a); [|lia]. apply Hs; [by rewrite E, <- app_assoc|set_solver].
  - pose proof (Hsorted ((base, 0) :: H) a n G (b, m)) as Hs. cbn in Hs. assert (a + 8 * n < b); [|lia]. apply Hs; [by rewrite E|done].
Qed.
Lemma heap_take s F A s' F' a n :
  heap_ok s F A -> brk s' = brk s -> seg (mem s') ((base, 0) :: F') base base -> apart ((base, 0) :: F') -> Forall (good_block s) F' ->
  freep s' ∈ ((base, 0) :: F').*1 -> preserved A s s' -> mem s' (a + 4) = n -> good_block s (a, n) ->
  (forall w, covers F' w -> covers F w) -> (forall w, inside (a, n) w -> covers F w /\ ~ covers F' w) ->
  heap_ok s' F' (<[a := n]> A) /\ A !! a = None.
Proof.
  intros H Eb Hseg Hap HF' Hfp Hpres Hn Hg Hsub Hin. pose proof Hg as (_ & _ & Hn1 & _). cbn in Hn1.
  assert (forall b m w, A !! b = Some m -> inside (b, m) w -> ~ inside (a, n) w) as Hdis.
  { intros b m w Hb Hw Hw'. apply (ho_split _ _ _ H b m w Hb Hw). by apply Hin. }
  assert (A !! a = None) as HA.
  { destruct (A !! a) as [m|] eqn:Ea; [|done]. exfalso. destruct (ho_alloc _ _ _ H a m Ea) as [(_ & _ & Hm & _) _]. cbn in Hm. by apply (Hdis a m a Ea); apply inside_start. }
  assert (forall x, good_block s x -> good_block s' x) as Hgood by (unfold good_block; by rewrite Eb).
  split; [|done]. constructor; try done.
  - by apply (space_brk s), H.
  - eapply Forall_weaken; [exact HF'|done].
  - intros b m Hb. apply lookup_insert_Some in Hb as [[<- <-]|[Hne Hb]]; [by split; [apply Hgood|]|].
    destruct (ho_alloc _ _ _ H b m Hb) as [Hg' Hm]. split; [by apply Hgood|]. rewrite (Hpres b m); [done|done|by eapply header_word].
  - intros b m w Hb Hw Hc. apply lookup_insert_Some in Hb as [[<- <-]|[Hne Hb]]; [by apply (Hin w)|]. apply (ho_split _ _ _ H b m w Hb Hw). by apply Hsub.
  - intros b m c l w Hb Hc Hw Hw'. apply lookup_insert_Some in Hb as [[<- <-]|[_ Hb]], Hc as [[<- <-]|[_ Hc]]; [done| | |by apply (ho_disjoint _ _ _ H b m c l w)].
    + by destruct (Hdis c l w).
    + by destruct (Hdis b m w).
Qed.
Lemma ring_prev (F G1 : list (Z * Z)) q k x G2 :
  (base, 0) :: F = G1 ++ (q, k) :: x :: G2 -> exists H, F = H ++ x :: G2 /\ (base, 0) :: H = G1 ++ [(q, k)].
Proof.
  destruct G1 as [|g G1]; cbn; intros E; injection E; [intros -> <- <-; by exists []|]. intros -> <-. exists (G1 ++ [(q, k)]). by rewrite <- app_assoc.
Qed.
(** The other headers are elsewhere. *)
Lemma ring_words s F A L q k M c : heap_ok s F A -> (base, 0) :: F = L ++ (q, k) :: M -> c ∈ (L ++ M).*1 -> c + 8 <= q \/ (q + 8 <= c /\ q + 8 * k < c).
Proof.
  intros H E Hc. apply list_elem_of_fmap in Hc as ([c' m] & -> & Hc). cbn [fst]. apply elem_of_app in Hc as [Hc|Hc].
  - left. apply list_elem_of_split in Hc as (L1 & L2 & ->). apply (ring_far s F A L1 c' m (L2 ++ (q, k) :: M) (q, k) H); [by rewrite E, <- app_assoc|set_solver].
  - right. split; [by apply (ring_far s F A L q k M (c', m) H)|]. destruct H. by eapply (ring_sorted s F) with (x := (c', m)).
Qed.
Section Take.
Context (s : ustate) (F : list (Z * Z)) (A : gmap Z Z) (H : heap_ok s F A) (G1 G2 HH : list (Z * Z)) (q k p n : Z).
Context (E : (base, 0) :: F = G1 ++ (q, k) :: (p, n) :: G2) (EF : F = HH ++ (p, n) :: G2) (EH : (base, 0) :: HH = G1 ++ [(q, k)]).

Lemma take_good x : x ∈ HH \/ x ∈ G2 \/ x = (p, n) -> good_block s x.
Proof. intros Hx. pose proof (ho_free _ _ _ H) as HF. rewrite list.Forall_forall in HF. apply HF. rewrite EF. set_solver. Qed.
Lemma take_covers x w : inside x w -> within x (p, n) -> covers F w /\ ~ covers (HH ++ G2) w.
Proof.
  intros Hw Hi. assert (inside (p, n) w) as Hp by (unfold inside, within in *; cbn in *; lia). split.
  - rewrite EF, covers_app, covers_cons. tauto.
  - by apply (ring_disjoint s F A HH (p, n) G2 w H EF).
Qed.
Lemma take_whole :
  let s' := {| {| s with mem := <[q := nxt G2]> (mem s) |} with freep := q |} in
  heap_ok s' (HH ++ G2) (<[p := n]> A) /\ A !! p = None /\ preserved A s s'.
Proof.
  intros s'. assert ((q, k) ∈ (base, 0) :: F) as HqF by (rewrite E; set_solver).
  assert (q + 8 <= p) as Hqp by (apply (ring_far s F A G1 q k ((p, n) :: G2) (p, n) H E); set_solver).
  assert (preserved A s s') as Hpres.
  { intros b m w Hb Hw. destruct (ring_untouched s F A q k b m w H HqF Hb Hw). cbn [mem s']. by rewrite fn_lookup_insert_ne. }
  pose proof (ho_ring _ _ _ H) as Hring. rewrite E in Hring. apply seg_app in Hring as (r & S1 & -> & Rk & Rq & Rn & S2). cbn [seg] in S2.
  destruct (heap_take s F A s' (HH ++ G2) p n) as [??]; try done.
  - rewrite app_comm_cons, EH, <- app_assoc. apply seg_app. exists q. split.
    + eapply seg_frame; [|exact S1]. intros c Hc. destruct (ring_words s F A _ _ _ _ c H E) as [|[]]; [rewrite fmap_app; set_solver|cbn [mem s']; by rewrite !fn_lookup_insert_ne by lia..].
    + cbn [app seg mem s']. rewrite fn_lookup_insert, fn_lookup_insert_ne by lia. split_and!; [done|done|]. apply seg_frame with (mem s); [|by rewrite <- (seg_nxt _ _ _ S2)].
      intros c Hc. destruct (ring_words s F A _ _ _ _ c H E) as [|[]]; [rewrite fmap_app; set_solver|by rewrite !fn_lookup_insert_ne by lia..].
  - rewrite app_comm_cons, EH, <- app_assoc. pose proof (ho_apart _ _ _ H) as Hap. rewrite E in Hap. apply apart_app in Hap as [Ha1 Ha2]. apply apart_app. split; [done|].
    pose proof (take_good (p, n) ltac:(tauto)) as (_ & _ & Hn & _). cbn in Hn. cbn [apart app] in *. destruct G2 as [|[x xn] G]; [done|]. cbn [apart] in Ha2. destruct Ha2 as (? & ? & ?). split; [lia|done].
  - apply list.Forall_app. split; apply list.Forall_forall; intros x Hx; apply take_good; tauto.
  - rewrite app_comm_cons, EH. cbn [freep s']. rewrite !fmap_app. set_solver.
  - cbn [mem s']. rewrite fn_lookup_insert_ne by lia. done.
  - apply take_good. tauto.
  - intros w. rewrite EF, !covers_app, covers_cons. tauto.
  - intros w Hw. apply (take_covers (p, n)); [done|]. unfold within. lia.
Qed.
Lemma take_tail nunits : 1 <= nunits < n ->
  let a := p + 8 * (n - nunits) in
  let s' := {| {| s with mem := <[a + 4 := nunits]> (<[p + 4 := n - nunits]> (mem s)) |} with freep := q |} in
  heap_ok s' (HH ++ (p, n - nunits) :: G2) (<[a := nunits]> A) /\ A !! a = None /\ preserved A s s'.
Proof.
  intros Hn a s'. assert ((p, n) ∈ (base, 0) :: F) as HpF by (rewrite E; set_solver).
  assert (Forall (good_block s) [(p, n)]) as Hpg by (constructor; [apply take_good; tauto|done]). apply list.Forall_cons in Hpg as [(P1 & P2 & P3 & P4) _]. cbn [fst snd] in *.
  assert (preserved A s s') as Hpres.
  { intros b m w Hb Hw. destruct (ring_untouched s F A p n b m w H HpF Hb Hw). cbn [mem s']. rewrite !fn_lookup_insert_ne; [done|done|].
    intros <-. apply (ho_split _ _ _ H b m _ Hb Hw). exists (p, n). split; [rewrite EF; set_solver|]. unfold inside, a; cbn; lia. }
  pose proof (ho_ring _ _ _ H) as Hring. assert ((base, 0) :: F = (G1 ++ [(q, k)]) ++ (p, n) :: G2) as E' by (by rewrite <- app_assoc).
  rewrite E' in Hring. apply seg_app in Hring as (r & S1 & -> & Rn & S2). cbn [seg] in S2.
  assert (forall c, c ∈ ((G1 ++ [(q, k)]) ++ G2).*1 -> mem s' c = mem s c /\ mem s' (c + 4) = mem s (c + 4)) as Hsame.
  { intros c Hc. destruct (ring_words s F A _ _ _ _ c H E' Hc) as [Hc'|[_ Hc']]; cbn [mem s'].
    - unfold a. by rewrite !fn_lookup_insert_ne by lia.
    - unfold a. by rewrite !fn_lookup_insert_ne by lia. }
  assert (mem s' p = mem s p /\ mem s' (p + 4) = n - nunits /\ mem s' (a + 4) = nunits) as (Ep & Ep4 & Ea).
  { cbn [mem s']. rewrite fn_lookup_insert. unfold a. rewrite !(fn_lookup_insert_ne _ (p + 8 * (n - nunits) + 4)) by lia. rewrite fn_lookup_insert, fn_lookup_insert_ne by lia. done. }
  assert (good_block s (a, nunits) /\ good_block s (p, n - nunits)) as [Hga Hgp].
  { unfold good_block, a; cbn [fst snd]. replace (p + 8 * (n - nunits)) with (p + 2 * (n - nunits) * 4) by lia. rewrite Z.mod_add by lia. lia. }
  destruct (heap_take s F A s' (HH ++ (p, n - nunits) :: G2) a nunits) as [??]; try done.
  - rewrite app_comm_cons, EH. apply seg_app. exists p. split; [|cbn [seg]; rewrite Ep, Ep4; split_and!; [done|done|]].
    + eapply seg_frame; [|exact S1]. intros c Hc. apply Hsame. rewrite fmap_app. set_solver.
    + eapply seg_frame; [|exact S2]. intros c Hc. apply Hsame. rewrite fmap_app. set_solver.
  - rewrite app_comm_cons, EH. pose proof (ho_apart _ _ _ H) as Hap. rewrite E' in Hap. apply apart_app in Hap as [Ha1 Ha2]. apply apart_app. split; [by apply apart_last with n|].
    cbn [apart] in *. destruct G2 as [|[x xn] G]; [done|]. cbn [apart] in Ha2 |- *. destruct Ha2. split; [lia|done].
  - apply list.Forall_app. split; [|constructor; [done|]]; apply list.Forall_forall; intros x Hx; apply take_good; tauto.
  - rewrite app_comm_cons, EH. cbn [freep s']. rewrite !fmap_app. set_solver.
  - intros w. rewrite EF, !covers_app, !covers_cons. unfold inside; cbn. intuition lia.
  - intros w Hw. assert (within (a, nunits) (p, n)) as Hi by (unfold within, a; cbn; lia). destruct (take_covers (a, nunits) w Hw Hi) as [Hc1 Hc2]. split; [done|].
    rewrite covers_app, covers_cons in *. intros [?|[Hp|?]]; [tauto| |tauto]. unfold inside, a in *. cbn in *. lia.
Qed.
End Take.
Lemma wp_malloc_take s F A nunits G1 q k p n G2 (Q : Z -> ustate -> Prop) :
  heap_ok s F A -> (base, 0) :: F = G1 ++ (q, k) :: (p, n) :: G2 -> 1 <= nunits <= n ->
  (forall s' F' a, heap_ok s' F' (<[a := nunits]> A) -> A !! a = None -> brk s' = brk s -> preserved A s s' -> Q (a + HEADER) s') ->
  wp (malloc_take nunits q p n) Q s.
Proof.
  intros H E Hn HQ. destruct (ring_prev F G1 q k (p, n) G2 E) as (HH & EF & EH).
  assert (mem s p = nxt G2) as Rp by (pose proof (ho_ring _ _ _ H) as Hring; rewrite E in Hring; apply (seg_read _ (G1 ++ [(q, k)]) p n); by rewrite <- app_assoc).
  assert ((q, k) ∈ (base, 0) :: F) as HqF by (rewrite E; set_solver).
  pose proof (ho_free _ _ _ H) as HF. rewrite list.Forall_forall in HF. assert (good_block s (p, n)) as Hg by (apply HF; rewrite EF; set_solver).
  pose proof Hg as (P1 & P2 & P3 & P4). cbn [fst snd] in *.
  pose proof (ho_space _ _ _ H) as Hs. pose proof Hs as [Sb [Sk Sm]]. unfold KERNBASE in *.
  assert (header_mapped s p) as Mp by (by apply (good_header s (p, n))).
  assert (header_mapped s q) as Mq by (eapply ring_header; [done|apply H|]; apply list_elem_of_fmap; by exists (q, k)).
  unfold malloc_take, get_ptr, set_ptr, set_size, hplus, HEADER in *. destruct (Z.eqb_spec n nunits) as [->|Hne].
  - wp_steps. apply wp_ldw; [apply Mp|]. wp_steps. apply wp_stw; [apply Mq|]. wp_steps. rewrite Rp, Z.mul_1_r, u32_small by (unfold W32; lia).
    destruct (take_whole s F A H G1 G2 HH q k p nunits E EF EH) as (? & ? & ?). by eapply HQ.
  - wp_steps. apply wp_stw; [apply Mp|]. cbn zeta. rewrite (u32_small (p + 8 * (n - nunits))) by (unfold W32; lia). wp_steps.
    apply wp_stw; [by apply (good_header s (p + 8 * (n - nunits), nunits)); [|unfold good_block; cbn [fst snd]; replace (p + 8 * (n - nunits)) with (p + 2 * (n - nunits) * 4) by lia; rewrite Z.mod_add by lia; lia]|].
    wp_steps. rewrite Z.mul_1_r, u32_small by (unfold W32; lia). destruct (take_tail s F A H G1 G2 HH q k p n E EF EH nunits) as (? & ? & ?); [lia|]. by eapply HQ.
Qed.

(** ** More memory *)

(** The memory from [sbrk], as a block that was allocated. *)
Lemma heap_grow s F A nu :
  heap_ok s F A -> 1 <= nu -> brk s + 8 * nu <= KERNBASE ->
  let s' := {| {| s with brk := brk s + 8 * nu |} with mem := <[brk s + 4 := nu]> (mem s) |} in
  heap_ok s' F (<[brk s := nu]> A) /\ A !! brk s = None /\ preserved A s s'.
Proof.
  intros H Hnu Hk s'. pose proof (ho_space _ _ _ H) as [Sb [Sk Sm]].
  assert (forall x, good_block s x -> good_block s' x) as Hg by (intros x (? & ? & ? & ?); unfold good_block; cbn [brk s']; split_and!; lia).
  assert (forall b m w, A !! b = Some m -> inside (b, m) w -> w < brk s) as Hlow.
  { intros b m w Hb Hw. destruct (ho_alloc _ _ _ H b m Hb) as [(_ & _ & _ & ?) _]. unfold inside in Hw. cbn in *. lia. }
  assert (forall w, covers F w -> w < brk s) as HlowF.
  { intros w (x & Hx & Hw). pose proof (ho_free _ _ _ H) as HF. rewrite list.Forall_forall in HF. destruct (HF _ Hx) as (_ & _ & _ & ?). unfold inside in Hw. lia. }
  assert (preserved A s s') as Hpres by (intros b m w Hb Hw; pose proof (Hlow _ _ _ Hb Hw); cbn [mem s']; by rewrite fn_lookup_insert_ne by lia).
  assert (A !! brk s = None) as HA.
  { destruct (A !! brk s) as [m|] eqn:Ea; [|done]. destruct (ho_alloc _ _ _ H _ m Ea) as [(_ & _ & ? & ?) _]. cbn in *. lia. }
  split; [|done]. constructor; try apply H.
  - split; cbn [brk s']; [lia|]. replace (brk s + 8 * nu) with (brk s + (2 * nu) * 4) by lia. rewrite Z.mod_add by lia. lia.
  - eapply seg_frame; [|apply H]. intros c Hc. destruct (ring_header s F c (ho_space _ _ _ H) (ho_free _ _ _ H) Hc) as [M1 M2]. unfold mapped in *. bool_hyps.
    cbn [mem s']. rewrite !fn_lookup_insert_ne by lia. done.
  - eapply Forall_weaken; [apply H|done].
  - intros b m Hb. apply lookup_insert_Some in Hb as [[<- <-]|[Hne Hb]].
    + split; [unfold good_block; cbn; lia|cbn [mem s']; by rewrite fn_lookup_insert].
    + destruct (ho_alloc _ _ _ H b m Hb) as [? Hm]. split; [by apply Hg|]. rewrite (Hpres b m); [done|done|by eapply header_word].
  - intros b m w Hb Hw Hc. apply lookup_insert_Some in Hb as [[<- <-]|[Hne Hb]]; [|by apply (ho_split _ _ _ H b m w)].
    pose proof (HlowF w Hc). unfold inside in Hw. cbn in Hw. lia.
  - intros b m c l w Hb Hc Hw Hw'. apply lookup_insert_Some in Hb as [[<- <-]|[_ Hb]], Hc as [[<- <-]|[_ Hc]]; [done| | |by apply (ho_disjoint _ _ _ H b m c l w)].
    + pose proof (Hlow _ _ _ Hc Hw'). unfold inside in Hw. cbn in Hw. lia.
    + pose proof (Hlow _ _ _ Hb Hw). unfold inside in Hw'. cbn in Hw'. lia.
Qed.
(** The kernel refuses the memory for [nunits]. *)
Definition refused (s : ustate) (nunits : Z) : Prop :=
  let n := HEADER * Z.max 4096 nunits in KERNBASE <= brk s + n \/ enough (brk s) n = false.
Lemma wp_morecore s F A nunits (Q : Z -> ustate -> Prop) :
  heap_ok s F A -> 1 <= nunits -> 8 * nunits < KERNBASE -> (refused s nunits -> Q 0 s) ->
  (forall s' F', heap_ok s' F' A -> preserved A s s' -> (exists x, x ∈ F' /\ nunits <= snd x) -> (length F' <= S (length F))%nat -> freep s' ≠ 0 -> Q (freep s') s') ->
  wp (morecore nunits) Q s.
Proof.
  intros H Hn Hk H0 HQ. unfold morecore. set (nu := if nunits <? 4096 then 4096 else nunits). unfold KERNBASE in *.
  assert (nunits <= nu /\ 1 <= nu /\ 8 * nu < 2147483648 /\ nu * HEADER = HEADER * Z.max 4096 nunits) as (N1 & N2 & N3 & N4) by (unfold nu, HEADER; destruct (Z.ltb_spec nunits 4096); lia).
  pose proof (ho_space _ _ _ H) as [Sb [Sk Sm]]. unfold KERNBASE in *. rewrite s32_small by (unfold HEADER; lia). rewrite wp_bind. unfold sbrk at 1. unfold wp at 1.
  destruct (Z.ltb_spec 0 (nu * HEADER)); [|unfold HEADER in *; lia]. rewrite u32_small by (unfold HEADER, W32 in *; lia).
  destruct (Z.leb_spec KERNBASE (brk s + nu * HEADER)) as [|Hlt]; [apply H0; left; lia|]. destruct (enough _ _) eqn:Een; [|apply H0; right; by rewrite <- N4]. cbn [orb negb].
  destruct (Z.eqb_spec (brk s) (-1)); [lia|]. unfold KERNBASE, HEADER in Hlt. replace (brk s + nu * HEADER) with (brk s + 8 * nu) by (unfold HEADER; lia).
  destruct (heap_grow s F A nu H) as (Hg & HA & Hp); [lia|unfold KERNBASE; lia|]. set (s' := {| {| s with brk := brk s + 8 * nu |} with mem := <[brk s + 4 := nu]> (mem s) |}) in *.
  rewrite wp_bind. apply wp_stw; [|change (wp (free (u32 (brk s + HEADER)) ;; gets freep) Q s')].
  { apply (header_mapped_intro {| s with brk := brk s + 8 * nu |} (brk s)); cbn; lia. }
  rewrite wp_bind. apply (wp_free s' F (<[brk s := nu]> A) (brk s) nu); [done|by rewrite lookup_insert_eq|]. rewrite delete_insert_id by done.
  intros s2 F2 H2 B2 P2 (x & Hx & Hw) L2. rewrite wp_gets. apply (HQ s2 F2); [done|by eapply preserved_trans| |done|].
  - exists x. split; [done|]. unfold within in Hw. cbn in Hw. lia.
  - pose proof (ho_freep _ _ _ H2) as Hf. destruct (ring_header s2 F2 _ (ho_space _ _ _ H2) (ho_free _ _ _ H2) Hf) as [M1 _].
    apply list_elem_of_fmap in Hf as (y & -> & Hy). apply elem_of_cons in Hy as [->|Hy]; [cbn; lia|].
    pose proof (ho_free _ _ _ H2) as HF. rewrite list.Forall_forall in HF. destruct (HF _ Hy) as (? & _). lia.
Qed.

(** ** The search of [malloc] *)

(** The last block of a list after [q]. *)
Fixpoint fin (q : Z) (M : list (Z * Z)) : Z := match M with [] => q | (p, _) :: M' => fin p M' end.
Lemma fin_split q k M : exists L k', (q, k) :: M = L ++ [(fin q M, k')].
Proof.
  revert q k. induction M as [|[p n] M IH]; intros q k; [by exists [], k|]. destruct (IH p n) as (L & k' & E). exists ((q, k) :: L), k'. cbn [fin app]. by rewrite E.
Qed.

Section Scan.
Context (s : ustate) (F : list (Z * Z)) (A : gmap Z Z) (H : heap_ok s F A) (nunits : Z) (Hn : 1 <= nunits) (Q : Z -> ustate -> Prop).
Context (Hfit : forall G1 q k p n G2, (base, 0) :: F = G1 ++ (q, k) :: (p, n) :: G2 -> nunits <= n -> wp (malloc_take nunits q p n) Q s).
Let after fuel := p ← morecore nunits; if p =? 0 then mret 0 else malloc_loop nunits p fuel.

Lemma loop_step L q k M fuel :
  (base, 0) :: F = L ++ (q, k) :: M ->
  (forall size, (nxt M, size) ∈ (base, 0) :: F -> nunits <= size -> wp (malloc_take nunits q (nxt M) size) Q s) ->
  (forall size, (nxt M, size) ∈ (base, 0) :: F -> size < nunits -> wp (if nxt M =? freep s then after fuel else malloc_loop nunits (nxt M) fuel) Q s) ->
  wp (malloc_loop nunits q (S fuel)) Q s.
Proof.
  intros E Ht Hc. assert ((q, k) ∈ (base, 0) :: F) as Hq by (rewrite E; set_solver).
  pose proof (ho_ring _ _ _ H) as Hring. rewrite E in Hring. destruct (seg_read _ _ _ _ _ Hring) as [Rq _].
  assert (exists size, (nxt M, size) ∈ (base, 0) :: F) as (size & Hin).
  { destruct M as [|[p n] M]; [exists 0; set_solver|]. exists n. rewrite E. set_solver. }
  assert (forall c m, (c, m) ∈ (base, 0) :: F -> header_mapped s c) as Hmap.
  { intros c m Hcm. eapply ring_header; [apply H|apply H|]. apply list_elem_of_fmap. by exists (c, m). }
  assert (mem s (nxt M + 4) = size) as Rs.
  { pose proof (ho_ring _ _ _ H) as Hr. apply list_elem_of_split in Hin as (L1 & L2 & E2). rewrite E2 in Hr. by destruct (seg_read _ _ _ _ _ Hr). }
  cbn [malloc_loop]. rewrite wp_bind. apply wp_ldw; [by eapply Hmap|]. rewrite Rq, wp_bind. apply wp_ldw; [by eapply Hmap|]. rewrite Rs.
  destruct (Z.leb_spec nunits size) as [Hle|Hgt]; [by apply Ht|]. rewrite wp_bind, wp_gets. specialize (Hc size Hin Hgt). unfold after in Hc. done.
Qed.
Lemma ring_unique a n m : (a, n) ∈ (base, 0) :: F -> (a, m) ∈ (base, 0) :: F -> n = m.
Proof.
  intros H1 H2. apply list_elem_of_split in H1 as (L & M & E). rewrite E in H2. apply elem_of_app in H2 as [H2|H2].
  - destruct (ring_words s F A L a n M a H E); [rewrite fmap_app; apply elem_of_app; left; by apply (list_elem_of_fmap_2 fst _ (a, m))|lia..].
  - apply elem_of_cons in H2 as [[= ->]|H2]; [done|]. destruct (ring_words s F A L a n M a H E); [rewrite fmap_app; apply elem_of_app; right; by apply (list_elem_of_fmap_2 fst _ (a, m))|lia..].
Qed.
Lemma scan M : forall L q k N fuel,
  (base, 0) :: F = L ++ (q, k) :: M ++ N -> freep s ∉ M.*1 ->
  (Forall (fun x => snd x < nunits) M -> wp (malloc_loop nunits (fin q M) fuel) Q s) ->
  wp (malloc_loop nunits q (length M + fuel)) Q s.
Proof.
  induction M as [|[p n] M IH]; intros L q k N fuel E Hf Hk; [by apply Hk|]. cbn [length Nat.add app] in *. rewrite fmap_cons in Hf. cbn [fst] in Hf. apply not_elem_of_cons in Hf as [Hf1 Hf2].
  assert ((p, n) ∈ (base, 0) :: F) as Hp by (rewrite E; set_solver).
  apply (loop_step L q k _ _ E); cbn [nxt]; intros size Hs Hle; rewrite (ring_unique p size n Hs Hp) in *.
  - by apply (Hfit L q k p n (M ++ N)).
  - destruct (Z.eqb_spec p (freep s)); [congruence|]. apply (IH (L ++ [(q, k)]) p n N fuel); [by rewrite E, <- app_assoc|done|].
    intros HM. apply Hk. by constructor.
Qed.
(** Once round the list: a block is taken, or all are too small. *)
Lemma wp_malloc_loop fuel :
  (Forall (fun x => snd x < nunits) F -> wp (after fuel) Q s) -> wp (malloc_loop nunits (freep s) (length ((base, 0%Z) :: F) + fuel)) Q s.
Proof.
  intros Hno. pose proof (ho_freep _ _ _ H) as Hf. apply list_elem_of_fmap in Hf as ([fp f] & Efp & Hf). cbn [fst] in Efp. rewrite Efp. pose proof Hf as Hin.
  apply list_elem_of_split in Hf as (P & T & E).
  assert (fp ∉ T.*1 /\ fp ∉ P.*1) as [HnT HnP].
  { split; intros Hc; (destruct (ring_words s F A P fp f T fp H E); [rewrite fmap_app; apply elem_of_app; tauto|lia..]). }
  replace (length ((base, 0%Z) :: F) + fuel)%nat with (length T + (1 + length P + fuel))%nat by (rewrite E, length_app; cbn; lia).
  apply (scan T P fp f []); [by rewrite app_nil_r|by rewrite Efp|]. intros HS. destruct (fin_split fp f T) as (L & k' & EL).
  assert ((base, 0) :: F = (P ++ L) ++ [(fin fp T, k')]) as E' by (by rewrite E, <- app_assoc, EL).
  cbn [Nat.add]. apply (loop_step _ _ _ _ _ E'); cbn [nxt]; intros size Hb Hsz; (assert (size = 0) as -> by (apply (ring_unique base); [done|set_solver])); [lia|].
  rewrite Efp. destruct P as [|[b z] P]; cbn [app] in E.
  - injection E as <- <- ->. rewrite Z.eqb_refl. cbn [length Nat.add]. apply Hno. done.
  - pose proof E as E2. injection E2 as <- <- EF. destruct (Z.eqb_spec base fp) as [->|Hne]; [set_solver|]. cbn [length Nat.add].
    replace (S (length P + fuel))%nat with (length P + (1 + fuel))%nat by lia.
    apply (scan P [] base 0 ((fp, f) :: T)); [done|rewrite Efp; set_solver|]. intros HP.
    destruct (fin_split base 0 P) as (L2 & k2 & EL2). assert ((base, 0) :: F = L2 ++ (fin base P, k2) :: (fp, f) :: T) as E3 by (rewrite E, app_comm_cons, EL2, <- app_assoc; done).
    apply (loop_step _ _ _ _ _ E3); cbn [nxt]; intros size Hs Hle; rewrite (ring_unique fp size f Hs Hin) in *.
    + by apply (Hfit L2 _ k2 fp f T).
    + rewrite Efp, Z.eqb_refl. apply Hno. rewrite EF. apply list.Forall_app. by split; [|constructor].
Qed.
End Scan.

(** ** Correctness *)

Definition units (nbytes : Z) : Z := (nbytes + 7) / 8 + 1.

Lemma wp_malloc_ring s F A nunits (Q : Z -> ustate -> Prop) :
  heap_ok s F A -> 1 <= nunits -> 8 * nunits < KERNBASE ->
  (refused s nunits -> Forall (fun x => snd x < nunits) F -> Q 0 s) ->
  (forall s' F' a, heap_ok s' F' (<[a := nunits]> A) -> A !! a = None -> preserved A s s' -> Q (a + HEADER) s') ->
  wp (malloc_loop nunits (freep s) (rounds s)) Q s.
Proof.
  intros H Hn Hk H0 HQ. pose proof (ring_length s F (ho_space _ _ _ H) (ho_apart _ _ _ H) (ho_free _ _ _ H)) as Hlen.
  replace (rounds s) with (length ((base, 0%Z) :: F) + (length ((base, 0%Z) :: F) + (1 + (rounds s - 2 * length ((base, 0%Z) :: F) - 1))))%nat by lia.
  apply (wp_malloc_loop s F A H nunits Hn).
  - intros G1 q k p n G2 E Hle. apply (wp_malloc_take s F A nunits G1 q k p n G2); [done|done|lia|]. intros s' F' a ? ? ? ?. by eapply HQ.
  - intros Hno. rewrite wp_bind. apply (wp_morecore s F A); [done|done|done| |].
    + intros Hr. cbn. by apply H0.
    + intros s' F' H' P' (x & Hx & Hle) L' Hfp. destruct (Z.eqb_spec (freep s') 0) as [|_]; [done|].
      set (fuel := (length _ + _)%nat). assert (length ((base, 0%Z) :: F') <= fuel)%nat as Hf by (unfold fuel; cbn [length]; lia).
      replace fuel with (length ((base, 0%Z) :: F') + (fuel - length ((base, 0%Z) :: F')))%nat by lia. apply (wp_malloc_loop s' F' A H' nunits Hn).
      * intros G1 q k p n G2 E Hle'. apply (wp_malloc_take s' F' A nunits G1 q k p n G2); [done|done|lia|]. intros s2 F2 a H2 Ha _ P2. eapply HQ; [done|done|by eapply preserved_trans].
      * intros Hno'. rewrite list.Forall_forall in Hno'. specialize (Hno' x Hx). lia.
Qed.
Lemma wp_malloc s A nbytes (Q : Z -> ustate -> Prop) :
  heap s A -> 0 <= nbytes <= KERNBASE - 24 ->
  (forall s' F, heap_ok s' F A -> preserved A s s' -> brk s' = brk s -> refused s (units nbytes) -> Forall (fun x => snd x < units nbytes) F -> Q 0 s') ->
  (forall s' F a, heap_ok s' F (<[a := units nbytes]> A) -> A !! a = None -> preserved A s s' -> Q (a + HEADER) s') ->
  wp (malloc nbytes) Q s.
Proof.
  intros H Hb H0 HQ. unfold KERNBASE in Hb. assert (1 <= units nbytes /\ 8 * units nbytes < KERNBASE) as [U1 U2] by (unfold units, KERNBASE; Z.to_euclidean_division_equations; lia).
  unfold malloc, HEADER. rewrite (u32_small (nbytes + 8 - 1)) by (unfold W32; lia). replace (nbytes + 8 - 1) with (nbytes + 7) by lia. fold (units nbytes).
  unfold KERNBASE in U2. rewrite u32_small by (unfold W32; lia). wp_steps. destruct H as [(Hs & Hf & ->)|(F & H)].
  - rewrite Hf, Z.eqb_refl. destruct (base_header s Hs) as [M1 M2]. wp_steps. apply wp_stw; [done|]. wp_steps. apply wp_stw; [done|]. wp_steps.
    match goal with |- wp _ _ ?s0 => set (s1 := s0) end.
    assert (heap_ok s1 [] ∅) as H1.
    { constructor; try done.
      - by apply (space_brk s).
      - cbn [seg mem s1]. rewrite fn_lookup_insert, fn_lookup_insert_ne, fn_lookup_insert by lia. done.
      - cbn. set_solver. }
    apply (wp_malloc_ring s1 [] ∅); [done|done|unfold KERNBASE; lia| |].
    + intros Hr Hno. by apply (H0 s1 []).
    + intros s' F' a H' Ha _. by apply (HQ s' F').
  - destruct (Z.eqb_spec (freep s) 0) as [E0|_].
    { pose proof (ho_freep _ _ _ H) as Hf. rewrite E0 in Hf. destruct (ring_header s F _ (ho_space _ _ _ H) (ho_free _ _ _ H) Hf) as [M1 _].
      apply list_elem_of_fmap in Hf as (y & Ey & Hy). destruct (ho_space _ _ _ H) as [Sb _]. apply elem_of_cons in Hy as [->|Hy]; [cbn in Ey; lia|].
      pose proof (ho_free _ _ _ H) as HF. rewrite list.Forall_forall in HF. destruct (HF _ Hy) as (? & _). lia. }
    wp_steps. apply (wp_malloc_ring s F A); [done|done|unfold KERNBASE; lia| |].
    + intros Hr Hno. by apply (H0 s F).
    + intros s' F' a H' Ha P'. by apply (HQ s' F').
Qed.

(** C14. [malloc] returns an aligned block of at least [nbytes] bytes behind its
    header, disjoint from all blocks in use, or 0 when no free block is large
    enough and the kernel refuses more memory; the contents of the blocks in
    use do not change, and the list of free blocks stays circular, in order
    and without adjacent blocks. *)
Theorem malloc_correct s A nbytes :
  heap s A -> 0 <= nbytes <= KERNBASE - 24 ->
  wp (malloc nbytes) (fun r s' => preserved A s s' /\
    ((r = 0 /\ heap s' A /\ refused s (units nbytes)) \/
     exists a n, r = a + HEADER /\ A !! a = None /\ nbytes <= HEADER * (n - 1) /\ heap s' (<[a := n]> A) /\
       (a mod 4 = 0 /\ base + HEADER <= a /\ a + HEADER * n <= brk s') /\
       forall b m, A !! b = Some m -> b + HEADER * m <= a \/ a + HEADER * n <= b)) s.
Proof.
  intros H Hb. apply (wp_malloc s A); [done|done| |].
  - intros s' F H' P' B' Hr Hno. split; [done|]. left. split_and!; [done|right; eauto|done].
  - intros s' F a H' Ha P'. split; [done|]. right. exists a, (units nbytes). unfold HEADER. destruct (ho_alloc _ _ _ H' a (units nbytes)) as [(G1 & G2 & G3 & G4) _]; [by rewrite lookup_insert_eq|]. cbn [fst snd] in *.
    split_and!; [done|done|unfold units; Z.to_euclidean_division_equations; lia|right; eauto|done|done|done|].
    intros b m Hbm. assert (a ≠ b) by congruence. assert ((<[a := units nbytes]> A) !! b = Some m) as Hb' by (by rewrite lookup_insert_ne).
    destruct (ho_alloc _ _ _ H' b m Hb') as [(_ & _ & M3 & _) _]. apply (apart_inside (b, m) (a, units nbytes)); [done|done|]. intros w Hw Hw'.
    apply H0. eapply (ho_disjoint _ _ _ H'); [|exact Hb'|exact Hw'|exact Hw]. by rewrite lookup_insert_eq.
Qed.
(** [free] puts a block back: it does not return memory to the kernel, the
    contents of the other blocks stay, and the list of free blocks stays
    circular, in order and without adjacent blocks. *)
Theorem free_correct s A a n :
  heap s A -> A !! a = Some n ->
  wp (free (u32 (a + HEADER))) (fun _ s' => heap s' (delete a A) /\ preserved (delete a A) s s' /\ brk s' = brk s) s.
Proof.
  intros [(_ & _ & ->)|(F & H)] Ha; [done|]. apply (wp_free s F A a n); [done|done|]. intros s' F' H' B' P' _ _. split_and!; [right; eauto|done|done].
Qed.
(** A program may write to its blocks. *)
Lemma write_block s A a n w v :
  heap s A -> A !! a = Some n -> a + HEADER <= w < a + HEADER * n -> heap {| s with mem := <[w := v]> (mem s) |} A.
Proof.
  intros [(_ & _ & ->)|(F & H)] Ha Hw; [done|]. right. exists F. unfold HEADER in Hw. assert (inside (a, n) w) as Hin by (unfold inside; cbn; lia). destruct H as [H1 H2 H3 H4 H5 H6 H7 H8].
  constructor; try done.
  - by apply (space_brk s).
  - eapply seg_frame; [|exact H2]. intros c Hc. apply list_elem_of_fmap in Hc as ([p k] & -> & Hc). cbn [fst mem].
    destruct (ring_untouched s F A p k a n w) as [N1 N2]; [by constructor|done|done|done|]. by rewrite !fn_lookup_insert_ne by done.
  - intros b m Hb. destruct (H6 b m Hb) as [Hg Hm]. split; [done|]. cbn [mem]. rewrite fn_lookup_insert_ne; [done|]. intros ->.
    assert (a = b) as -> by (eapply (H8 a n b m); [done|done|done|]; destruct Hg as (_ & _ & ? & _); unfold inside; cbn in *; lia). lia.
Qed.
End Umalloc.

(** The allocator of a process of 16 Kbytes. *)
Definition fresh_process : ustate := mk_ustate (fun _ => 0) 0 16384.
Lemma fresh_heap : heap 64 fresh_process ∅.
Proof. left. split_and!; [split; vm_compute; split_and!; done || (intros [=])|done|done]. Qed.
Lemma malloc_correct_witness :
  wp (malloc 64 (fun _ _ => true) 100) (fun r s' => exists a n, r = a + HEADER /\ 100 <= HEADER * (n - 1) /\ heap 64 s' {[a := n]}) fresh_process.
Proof.
  eapply wp_mono; [apply (malloc_correct 64 (fun _ _ => true) fresh_process ∅ 100); [exact fresh_heap|unfold KERNBASE; lia]|].
  intros r s' [_ [(_ & _ & [Hr|Hr])|(a & n & -> & _ & Hn & Hh & _)]]; [by vm_compute in Hr|done|]. by exists a, n.
Defined.
Lemma free_correct_witness : exists s, wp (free (16384 + HEADER)) (fun _ s' => heap 64 s' ∅) s.
Proof.
  set (s := mk_ustate (<[16388 := 4]> (<[64 := 64]> (fun _ => 0))) 64 16416). exists s.
  assert (heap 64 s {[16384 := 4]}) as H.
  { right. exists []. constructor.
    - split; vm_compute; split_and!; done || (intros [=]).
    - cbn. done.
    - done.
    - constructor.
    - cbn. set_solver.
    - intros a n [<- <-]%lookup_singleton_Some. split; [|reflexivity]. split_and!; vm_compute; done || (intros [=]).
    - intros a n w _ _. apply covers_nil.
    - intros a n b m w [<- <-]%lookup_singleton_Some [<- <-]%lookup_singleton_Some. done. }
  eapply wp_mono; [apply (free_correct 64 (fun _ _ => true) s {[16384 := 4]} 16384 4); [exact H|apply lookup_singleton_eq]|]. intros _ s' (H' & _). by rewrite delete_singleton_eq in H'.
Defined.

(** The number of bytes is rounded up without a test: a request of 2^32 - 1
    bytes is served with a block that has no room at all behind its header. *)
Theorem malloc_wraps :
  wp (malloc 64 (fun _ _ => true) 4294967295) (fun r s' => r ≠ 0 /\ mem s' (r - 4) = 1) fresh_process.
Proof. vm_compute. split; [intros [=]|reflexivity]. Qed.
