(* ===== verification/ShParse.v ===== *)
(** The command parser of the shell (sh.c): tokens, the recursive-descent
    parser, the termination of its strings, and a printer it inverts. *)

From Stdlib Require Import ZArith Lia Ascii.
From S2P Require Import Prelude Ulib.
From stdpp Require Import base list strings.
Open Scope Z_scope.

(** ** Commands

    The strings of a command are of type [A]: pairs of positions in the
    buffer while it is parsed, texts afterwards. *)

Inductive cmd (A : Type) : Type :=
| EXEC (argv : list A)
| REDIR (c : cmd A) (file : A) (mode fd : Z)
| PIPE (left right : cmd A)
| LIST (left right : cmd A)
| BACK (c : cmd A).
Arguments EXEC {A} _.
Arguments REDIR {A} _ _ _ _.
Arguments PIPE {A} _ _.
Arguments LIST {A} _ _.
Arguments BACK {A} _.
#[export] Instance cmd_eq_dec A : EqDecision A -> EqDecision (cmd A).
Proof. intros HA. unfold EqDecision. intros x y. unfold Decision. decide equality; try apply HA; try apply Z.eq_dec. apply list_eq_dec. Defined.

Fixpoint cmd_map {A B} (f : A -> B) (c : cmd A) : cmd B :=
  match c with
  | EXEC argv => EXEC (f <$> argv)
  | REDIR c file mode fd => REDIR (cmd_map f c) (f file) mode fd
  | PIPE l r => PIPE (cmd_map f l) (cmd_map f r)
  | LIST l r => LIST (cmd_map f l) (cmd_map f r)
  | BACK c => BACK (cmd_map f c)
  end.

Definition MAXARGS : nat := 10.
Definition O_RDONLY : Z := 0.
Definition O_WRCREATE : Z := Z.lor 0x001 0x200.
Definition whitespace : list Z := [32; 9; 13; 10; 11].
Definition symbols : list Z := str "<|>&;()".
Definition is_ws (c : Z) : bool := bool_decide (c ∈ whitespace).
Definition is_sym (c : Z) : bool := bool_decide (c ∈ symbols).
Definition is_word (c : Z) : bool := negb (is_ws c) && negb (is_sym c).

(** The length of the longest prefix of characters that satisfy [f]. *)
Fixpoint span_len (f : Z -> bool) (l : list Z) : nat :=
  match l with
  | [] => 0
  | c :: l' => if f c then S (span_len f l') else 0
  end.

Definition BAR : Z := 124.
Definition LPAREN : Z := 40.
Definition RPAREN : Z := 41.
Definition SEMI : Z := 59.
Definition AMP : Z := 38.
Definition LT : Z := 60.
Definition GT : Z := 62.
(** The tokens of words and of [>>]. *)
Definition TOK_WORD : Z := 97.
Definition TOK_APPEND : Z := 43.

(** ** The parser

    The buffer holds the text [t] and a zero behind it; the state is the
    position [*ps]. *)

Section Parse.
Context (t : list Z).

Definition char (i : nat) : Z := default 0 (t !! i).
Definition skip (i : nat) : nat := i + span_len is_ws (drop i t).

Definition gettoken : M nat (Z * (nat * nat)) := fun ps =>
  let s := skip ps in
  let c := char s in
  let '(ret, s') :=
    if c =? 0 then (c, s)
    else if bool_decide (c ∈ [BAR; LPAREN; RPAREN; SEMI; AMP; LT]) then (c, S s)
    else if c =? GT then if char (S s) =? GT then (TOK_APPEND, S (S s)) else (c, S s)
    else (TOK_WORD, (s + span_len is_word (drop s t))%nat) in
  Ok (ret, (s, s')) (skip s').
Definition peek (toks : list Z) : M nat bool := fun ps =>
  let s := skip ps in
  Ok (negb (char s =? 0) && bool_decide (char s ∈ toks)) s.

(** The redirections that follow, as the changes of the command. *)
Fixpoint redirs_loop (fuel : nat) : M nat (list ((nat * nat) * Z * Z)) :=
  match fuel with
  | O => diverge
  | S fuel' =>
      b ← peek [LT; GT];
      if negb b then mret [] else
      tok ← gettoken;
      r ← gettoken;
      let '(k, q) := r in
      if negb (k =? TOK_WORD) then panic "missing file for redirection" else
      let x := if tok.1 =? LT then (q, O_RDONLY, 0) else (q, O_WRCREATE, 1) in
      rest ← redirs_loop fuel';
      mret (x :: rest)
  end.
Definition add_redirs {A} (c : cmd A) (l : list (A * Z * Z)) : cmd A := foldl (fun c '(file, mode, fd) => REDIR c file mode fd) c l.
Definition redirs : M nat (list ((nat * nat) * Z * Z)) := redirs_loop (S (length t)).
Definition parseredirs (c : cmd (nat * nat)) : M nat (cmd (nat * nat)) :=
  l ← redirs; mret (add_redirs c l).

(** The arguments and the redirections between them; [argc] arguments were
    read. The command that is extended is the innermost one. *)
Fixpoint args_loop (argc : nat) (fuel : nat) : M nat (list (nat * nat) * list ((nat * nat) * Z * Z)) :=
  match fuel with
  | O => diverge
  | S fuel' =>
      b ← peek [BAR; RPAREN; AMP; SEMI];
      if (b : bool) then mret ([], []) else
      r ← gettoken;
      let '(tok, q) := r in
      if tok =? 0 then mret ([], []) else
      if negb (tok =? TOK_WORD) then panic "syntax" else
      if (MAXARGS <=? S argc)%nat then panic "too many args" else
      l ← redirs;
      rest ← args_loop (S argc) fuel';
      mret (q :: rest.1, l ++ rest.2)
  end.
Fixpoint back_loop (c : cmd (nat * nat)) (fuel : nat) : M nat (cmd (nat * nat)) :=
  match fuel with
  | O => diverge
  | S fuel' =>
      b ← peek [AMP];
      if (b : bool) then gettoken ;; back_loop (BACK c) fuel' else mret c
  end.
Definition parseblock (parseline : M nat (cmd (nat * nat))) : M nat (cmd (nat * nat)) :=
  b ← peek [LPAREN];
  if negb b then panic "parseblock" else
  gettoken ;;
  c ← parseline;
  b ← peek [RPAREN];
  if negb b then panic "syntax - missing )" else
  gettoken ;;
  parseredirs c.
Fixpoint parseline (fuel : nat) : M nat (cmd (nat * nat)) :=
  match fuel with
  | O => diverge
  | S fuel' =>
      c ← parsepipe fuel';
      c ← back_loop c (S (length t));
      b ← peek [SEMI];
      if (b : bool) then gettoken ;; r ← parseline fuel'; mret (LIST c r) else mret c
  end
with parsepipe (fuel : nat) : M nat (cmd (nat * nat)) :=
  match fuel with
  | O => diverge
  | S fuel' =>
      c ← parseexec fuel';
      b ← peek [BAR];
      if (b : bool) then gettoken ;; r ← parsepipe fuel'; mret (PIPE c r) else mret c
  end
with parseexec (fuel : nat) : M nat (cmd (nat * nat)) :=
  match fuel with
  | O => diverge
  | S fuel' =>
      b ← peek [LPAREN];
      if (b : bool) then parseblock (parseline fuel') else
      l ← redirs;
      r ← args_loop 0 (S (length t));
      mret (add_redirs (EXEC r.1) (l ++ r.2))
  end.
(** The fuel is enough by [parsecmd_total]: three calls for each character. *)
Definition parse : M nat (cmd (nat * nat)) :=
  c ← parseline (3 * length t + 3);
  peek [] ;;
  s ← Prelude.gets id;
  if negb (s =? length t)%nat then panic "syntax" else mret c.
End Parse.

(** [nulterminate] writes a zero behind each string of the command. *)
Fixpoint nulterminate (c : cmd (nat * nat)) (t : list Z) : list Z :=
  match c with
  | EXEC argv => foldl (fun t q => <[q.2 := 0]> t) t argv
  | REDIR c file _ _ => <[file.2 := 0]> (nulterminate c t)
  | PIPE l r | LIST l r => nulterminate r (nulterminate l t)
  | BACK c => nulterminate c t
  end.
(** [parsecmd]: the command and the contents of the buffer, where a zero
    follows the text. *)
Definition parsecmd (t : list Z) : outcome nat (cmd (nat * nat) * list Z) :=
  (c ← parse t; mret (c, nulterminate c (t ++ [0]))) 0%nat.
(** The string at a position of the buffer. *)
Fixpoint cstring (l : list Z) : list Z :=
  match l with [] => [] | c :: l' => if c =? 0 then [] else c :: cstring l' end.
Definition string_at (buf : list Z) (q : nat * nat) : list Z := cstring (drop q.1 buf).

(** ** Results of the parser *)

(** Well-formed commands: strings in [P], fewer than [MAXARGS] arguments, and
    the redirections of the standard input and output. *)
Fixpoint cmd_ok {A} (P : A -> Prop) (c : cmd A) : Prop :=
  match c with
  | EXEC argv => Forall P argv /\ (length argv < MAXARGS)%nat
  | REDIR c file mode fd => cmd_ok P c /\ P file /\ ((mode, fd) = (O_RDONLY, 0) \/ (mode, fd) = (O_WRCREATE, 1))
  | PIPE l r | LIST l r => cmd_ok P l /\ cmd_ok P r
  | BACK c => cmd_ok P c
  end.
Definition redir_ok {A} (P : A -> Prop) (x : A * Z * Z) : Prop :=
  P x.1.1 /\ ((x.1.2, x.2) = (O_RDONLY, 0) \/ (x.1.2, x.2) = (O_WRCREATE, 1)).
Lemma add_redirs_ok {A} (P : A -> Prop) l : forall c, cmd_ok P c -> Forall (redir_ok P) l -> cmd_ok P (add_redirs c l).
Proof.
  unfold add_redirs. induction l as [|[[file mode] fd] l IH]; intros c Hc Hl; [done|]. apply list.Forall_cons in Hl as [[H1 H2] Hl]. cbn. apply IH; [|done]. done.
Qed.

(** [m] returns a result in [Q] or ends with a message. *)
Definition wpe {S A} (m : M S A) (Q : A -> S -> Prop) (s : S) : Prop :=
  match m s with Ok a s' => Q a s' | Panic _ => True | _ => False end.
Lemma wpe_bind {S A B} (m : M S A) (f : A -> M S B) Q s : wpe (m ≫= f) Q s <-> wpe m (fun a s' => wpe (f a) Q s') s.
Proof. unfold wpe, mbind, M_bind. by destruct (m s). Qed.
Lemma wpe_mono {S A} (m : M S A) (P Q : A -> S -> Prop) s : wpe m P s -> (forall a s', P a s' -> Q a s') -> wpe m Q s.
Proof. unfold wpe. destruct (m s); eauto. Qed.

Lemma symbols_eq : symbols = [LT; BAR; GT; AMP; SEMI; LPAREN; RPAREN].
Proof. reflexivity. Qed.
Lemma span_le f l : (span_len f l <= length l)%nat.
Proof. induction l as [|c l IH]; cbn; [lia|]. destruct (f c); lia. Qed.
Lemma span_all f l i : (i < span_len f l)%nat -> exists c, l !! i = Some c /\ f c = true.
Proof.
  revert i. induction l as [|c l IH]; intros i; cbn; [lia|]. destruct (f c) eqn:E; [|lia]. destruct i as [|i]; [eauto|]. intros. apply IH. lia.
Qed.
Lemma span_end f l c : l !! span_len f l = Some c -> f c = false.
Proof. induction l as [|d l IH]; cbn; [done|]. destruct (f d) eqn:E; [done|]. cbn. by intros [= ->]. Qed.

Section Spans.
Context (t : list Z) (Ht : 0 ∉ t).

(** A word of the text: it ends at its end or before a delimiter. *)
Definition word_span (q : nat * nat) : Prop :=
  (q.1 < q.2 <= length t)%nat /\ (forall i, q.1 <= i < q.2 -> is_word (char t i) = true)%nat /\ (q.2 = length t \/ is_word (char t q.2) = false).

Lemma char_some i : (i < length t)%nat -> t !! i = Some (char t i) /\ char t i ≠ 0.
Proof.
  intros Hi. destruct (lookup_lt_is_Some_2 t i Hi) as [c Hc]. unfold char. rewrite Hc. split; [done|]. cbn. intros ->. apply Ht. by apply list_elem_of_lookup_2 in Hc.
Qed.
Lemma char_zero i : char t i = 0 -> (length t <= i)%nat.
Proof. intros H. destruct (Nat.lt_ge_cases i (length t)) as [Hi|]; [|done]. by destruct (char_some i Hi). Qed.
Lemma span_pos f i : (i + span_len f (drop i t) <= Nat.max i (length t))%nat.
Proof. pose proof (span_le f (drop i t)). rewrite length_drop in *. lia. Qed.
Lemma skip_le i : (i <= length t -> i <= skip t i <= length t)%nat.
Proof. unfold skip. pose proof (span_pos is_ws i). lia. Qed.
Lemma skip_char i : is_ws (char t (skip t i)) = true -> False.
Proof.
  unfold skip, char. intros H. destruct (t !! _) as [c|] eqn:E; [|done]. cbn in H. rewrite <- lookup_drop in E. apply span_end in E. congruence.
Qed.
(** What [gettoken] returns. *)
Definition token_ok (ps : nat) (r : Z * (nat * nat)) (ps' : nat) : Prop :=
  (ps <= r.2.1 /\ r.2.1 <= r.2.2 <= length t /\ r.2.2 <= ps' <= length t)%nat /\ (r.1 ≠ 0%Z -> r.2.1 < r.2.2)%nat /\ (r.1 = TOK_WORD -> word_span r.2).
Lemma word_prefix s : (s < length t)%nat -> is_word (char t s) = true -> word_span (s, (s + span_len is_word (drop s t))%nat).
Proof.
  intros Hs Hw. pose proof (span_pos is_word s). unfold word_span. cbn [fst snd].
  assert (forall i, (s <= i < s + span_len is_word (drop s t))%nat -> is_word (char t i) = true) as Hin.
  { intros i Hi. destruct (span_all is_word (drop s t) (i - s)) as (c & Hc & Hf); [lia|]. rewrite lookup_drop in Hc. unfold char. replace i with (s + (i - s))%nat by lia. by rewrite Hc. }
  split_and!; [|lia|done|].
  - destruct (span_len is_word (drop s t)) as [|n] eqn:E; [|lia]. destruct (char_some s Hs) as [Hc _]. assert (drop s t !! span_len is_word (drop s t) = Some (char t s)) as Hd by (by rewrite E, lookup_drop, Nat.add_0_r). apply span_end in Hd. congruence.
  - destruct (Nat.eq_dec (s + span_len is_word (drop s t))%nat (length t)) as [|Hne]; [by left|right].
    destruct (char_some (s + span_len is_word (drop s t))%nat) as [Hc _]; [lia|]. rewrite <- lookup_drop in Hc. by apply span_end in Hc.
Qed.
Lemma wpe_gettoken ps (Q : Z * (nat * nat) -> nat -> Prop) :
  (ps <= length t)%nat -> (forall r ps', token_ok ps r ps' -> Q r ps') -> wpe (gettoken t) Q ps.
Proof.
  intros Hps HQ. unfold wpe, gettoken. pose proof (skip_le ps Hps) as Hs. pose proof (skip_char ps) as Hws. set (s := skip t ps) in *.
  destruct (Z.eqb_spec (char t s) 0) as [E0|E0].
  { apply HQ. pose proof (skip_le s ltac:(lia)). unfold token_ok; cbn [fst snd]. split_and!; try (intros; lia); by rewrite E0. }
  assert (s < length t)%nat as Hlt by (destruct (Nat.lt_ge_cases s (length t)) as [|Hge]; [done|]; unfold char in E0; by rewrite lookup_ge_None_2 in E0).
  pose proof (skip_le (S s) ltac:(lia)). case_bool_decide as Hsym.
  { apply HQ. unfold token_ok; cbn [fst snd]. split_and!; try (intros; lia). intros E. rewrite E in Hsym. by apply (bool_decide_eq_true_2 _) in Hsym. }
  destruct (Z.eqb_spec (char t s) GT) as [EG|EG].
  { destruct (Z.eqb_spec (char t (S s)) GT) as [EG2|EG2].
    - assert (S s < length t)%nat by (destruct (Nat.lt_ge_cases (S s) (length t)) as [|Hge]; [done|]; unfold char in EG2; by rewrite lookup_ge_None_2 in EG2).
      pose proof (skip_le (S (S s)) ltac:(lia)). apply HQ. unfold token_ok; cbn [fst snd]. split_and!; try (intros; lia). done.
    - apply HQ. unfold token_ok; cbn [fst snd]. split_and!; try (intros; lia). rewrite EG. done. }
  assert (is_word (char t s) = true) as Hw.
  { unfold is_word. destruct (is_ws (char t s)) eqn:Ew; [by destruct Hws|]. cbn. apply negb_true_iff, bool_decide_eq_false_2. intros Hin. rewrite symbols_eq in Hin. rewrite ?elem_of_cons, elem_of_nil in *. naive_solver. }
  pose proof (word_prefix s Hlt Hw) as Hsp. pose proof Hsp as ((H1 & H2) & _). cbn in H1, H2. pose proof (skip_le (s + span_len is_word (drop s t))%nat ltac:(lia)). apply HQ. unfold token_ok; cbn [fst snd]. split_and!; try (intros; lia). done.
Qed.
Lemma wpe_peek toks ps (Q : bool -> nat -> Prop) :
  (ps <= length t)%nat -> (forall b, (b = true -> char t (skip t ps) ∈ toks /\ skip t ps < length t)%nat -> (ps <= skip t ps <= length t)%nat -> Q b (skip t ps)) -> wpe (peek t toks) Q ps.
Proof.
  intros Hps HQ. unfold wpe, peek. pose proof (skip_le ps Hps). apply HQ; [|done]. intros Hb. bool_hyps. split; [by apply bool_decide_eq_true_1 in H1|].
  destruct (Nat.lt_ge_cases (skip t ps) (length t)) as [|Hge]; [done|]. unfold char in H0. by rewrite lookup_ge_None_2 in H0.
Qed.
Lemma skip_skip i : skip t (skip t i) = skip t i.
Proof.
  unfold skip at 1. destruct (drop (skip t i) t) as [|c l] eqn:E; [cbn; lia|]. cbn. assert (char t (skip t i) = c) as Hc.
  { unfold char. pose proof (f_equal (fun l => l !! 0%nat) E) as E0. cbn in E0. rewrite lookup_drop, Nat.add_0_r in E0. by rewrite E0. }
  destruct (is_ws c) eqn:Ew; [|lia]. rewrite <- Hc in Ew. by destruct (skip_char i).
Qed.
(** A token after a successful [peek] is not the end of the text. *)
Lemma wpe_token ps (Q : Z * (nat * nat) -> nat -> Prop) :
  (skip t ps < length t)%nat -> (ps <= length t)%nat -> (forall r ps', token_ok ps r ps' -> r.1 ≠ 0 -> (ps < ps')%nat -> Q r ps') -> wpe (gettoken t) Q ps.
Proof.
  intros Hlt Hps HQ. assert (wpe (gettoken t) (fun r ps' => token_ok ps r ps' /\ r.1 ≠ 0) ps) as H.
  { pose proof (wpe_gettoken ps (token_ok ps) Hps ltac:(done)) as H. unfold wpe, gettoken in *. destruct (char_some _ Hlt) as [_ Hc]. rewrite (proj2 (Z.eqb_neq _ _) Hc) in *.
    destruct (bool_decide _); [done|]. destruct (char t (skip t ps) =? GT); [|done]. by destruct (_ =? GT). }
  eapply wpe_mono; [exact H|]. intros r ps' [Hr Hne]. apply HQ; [done|done|]. destruct Hr as ((H1 & H2 & H3) & H4 & _). specialize (H4 Hne). lia.
Qed.

Lemma wpe_redirs_loop fuel : forall ps (Q : list ((nat * nat) * Z * Z) -> nat -> Prop),
  (ps <= length t)%nat -> (length t - ps < fuel)%nat ->
  (forall l ps', Forall (redir_ok word_span) l -> (ps <= ps' <= length t)%nat -> Q l ps') -> wpe (redirs_loop t fuel) Q ps.
Proof.
  induction fuel as [|fuel IH]; intros ps Q Hps Hf HQ; [lia|]. cbn [redirs_loop]. rewrite wpe_bind. apply wpe_peek; [done|]. intros b Hb Hle.
  destruct b; cbn [negb]; [|by apply HQ]. destruct (Hb eq_refl) as [_ Hlt]. rewrite wpe_bind. apply wpe_token; [by rewrite skip_skip|lia|]. intros [k0 q0] p1 H1 _ Hp1.
  pose proof H1 as ((? & ? & ?) & _). rewrite wpe_bind. apply wpe_gettoken; [lia|]. intros [k q] p2 ((? & ? & ?) & _ & Hw). cbn [fst snd] in *.
  destruct (Z.eqb_spec k TOK_WORD) as [->|]; [|done]. cbn [negb]. rewrite wpe_bind. apply IH; [lia|lia|]. intros l p3 Hl Hp3. apply HQ; [|lia].
  constructor; [|done]. destruct (k0 =? LT); (split; [by apply Hw|cbn; tauto]).
Qed.
Lemma wpe_args_loop fuel : forall argc ps (Q : list (nat * nat) * list ((nat * nat) * Z * Z) -> nat -> Prop),
  (ps <= length t)%nat -> (length t - ps < fuel)%nat -> (argc < MAXARGS)%nat ->
  (forall r ps', Forall word_span r.1 -> (argc + length r.1 < MAXARGS)%nat -> Forall (redir_ok word_span) r.2 -> (ps <= ps' <= length t)%nat -> Q r ps') -> wpe (args_loop t argc fuel) Q ps.
Proof.
  induction fuel as [|fuel IH]; intros argc ps Q Hps Hf Ha HQ; [lia|]. cbn [args_loop]. rewrite wpe_bind. apply wpe_peek; [done|]. intros b _ Hle.
  destruct b; [apply HQ; cbn; try done; lia|]. rewrite wpe_bind. apply wpe_gettoken; [lia|]. intros [tok q] p1 ((? & ? & ?) & Hne & Hw). cbn [fst snd] in *.
  destruct (Z.eqb_spec tok 0) as [->|E0]; [apply HQ; cbn; try done; lia|]. specialize (Hne E0). destruct (Z.eqb_spec tok TOK_WORD) as [->|]; [|done]. cbn [negb].
  destruct (Nat.leb_spec MAXARGS (S argc)); [done|]. rewrite wpe_bind. apply wpe_redirs_loop; [lia|lia|]. intros l p2 Hl Hp2. rewrite wpe_bind.
  apply IH; [lia|lia|done|]. intros r p3 R1 R2 R3 Hp3. apply HQ; cbn [fst snd length]; [by constructor; [apply Hw|]|lia|by apply list.Forall_app|lia].
Qed.
Lemma wpe_back_loop fuel : forall c ps (Q : cmd (nat * nat) -> nat -> Prop),
  (ps <= length t)%nat -> (length t - ps < fuel)%nat -> cmd_ok word_span c ->
  (forall c ps', cmd_ok word_span c -> (ps <= ps' <= length t)%nat -> Q c ps') -> wpe (back_loop t c fuel) Q ps.
Proof.
  induction fuel as [|fuel IH]; intros c ps Q Hps Hf Hc HQ; [lia|]. cbn [back_loop]. rewrite wpe_bind. apply wpe_peek; [done|]. intros b Hb Hle.
  destruct b; [|by apply HQ]. destruct (Hb eq_refl) as [_ Hlt]. rewrite wpe_bind. apply wpe_token; [by rewrite skip_skip|lia|]. intros [k q] p1 ((? & ? & ?) & _) _ Hp1. cbn [fst snd] in *.
  apply IH; [lia|lia|done|]. intros c' p2 Hc' Hp2. apply HQ; [done|lia].
Qed.
Definition parses (m : M nat (cmd (nat * nat))) (ps : nat) : Prop := wpe m (fun c ps' => cmd_ok word_span c /\ (ps <= ps' <= length t)%nat) ps.
Lemma parseredirs_ok c ps : (ps <= length t)%nat -> cmd_ok word_span c -> parses (parseredirs t c) ps.
Proof.
  intros Hps Hc. unfold parses, parseredirs. rewrite wpe_bind. apply wpe_redirs_loop; [done|lia|]. intros l ps' Hl Hle. split; [by apply add_redirs_ok|done].
Qed.
Lemma parser_ok fuel : forall ps, (ps <= length t)%nat ->
  ((3 * (length t - ps) + 3 <= fuel)%nat -> parses (parseline t fuel) ps) /\
  ((3 * (length t - ps) + 2 <= fuel)%nat -> parses (parsepipe t fuel) ps) /\
  ((3 * (length t - ps) + 1 <= fuel)%nat -> parses (parseexec t fuel) ps).
Proof.
  induction fuel as [|fuel IH]; intros ps Hps; [split_and!; lia|].
  assert (forall p, (p <= length t)%nat -> (3 * (length t - p) + 3 <= fuel)%nat -> parses (parseline t fuel) p) as IHl by (intros p Hp; apply (IH p Hp)).
  assert (forall p, (p <= length t)%nat -> (3 * (length t - p) + 2 <= fuel)%nat -> parses (parsepipe t fuel) p) as IHp by (intros p Hp; apply (IH p Hp)).
  assert (forall p, (p <= length t)%nat -> (3 * (length t - p) + 1 <= fuel)%nat -> parses (parseexec t fuel) p) as IHe by (intros p Hp; apply (IH p Hp)).
  split_and!; intros Hf; unfold parses; cbn [parseline parsepipe parseexec]; rewrite wpe_bind.
  - eapply wpe_mono; [apply IHp; lia|]. intros c p1 [Hc Hp1]. rewrite wpe_bind. apply wpe_back_loop; [lia|lia|done|]. intros c' p2 Hc' Hp2.
    rewrite wpe_bind. apply wpe_peek; [lia|]. intros b Hb Hle. destruct b; [|split; [done|lia]]. destruct (Hb eq_refl) as [_ Hlt].
    rewrite wpe_bind. apply wpe_token; [by rewrite skip_skip|lia|]. intros [k q] p3 ((? & ? & ?) & _) _ Hp3. cbn [fst snd] in *. rewrite wpe_bind.
    eapply wpe_mono; [apply IHl; lia|]. intros r p4 [Hr Hp4]. split; [done|lia].
  - eapply wpe_mono; [apply IHe; lia|]. intros c p1 [Hc Hp1]. rewrite wpe_bind. apply wpe_peek; [lia|]. intros b Hb Hle. destruct b; [|split; [done|lia]]. destruct (Hb eq_refl) as [_ Hlt].
    rewrite wpe_bind. apply wpe_token; [by rewrite skip_skip|lia|]. intros [k q] p3 ((? & ? & ?) & _) _ Hp3. cbn [fst snd] in *. rewrite wpe_bind.
    eapply wpe_mono; [apply IHp; lia|]. intros r p4 [Hr Hp4]. split; [done|lia].
  - apply wpe_peek; [lia|]. intros b Hb Hle. destruct b.
    + destruct (Hb eq_refl) as [Hin Hlt]. unfold parseblock. rewrite wpe_bind. apply wpe_peek; [lia|]. rewrite !skip_skip. intros b _ _. destruct b; [|done]. cbn [negb].
      rewrite wpe_bind. apply wpe_token; [by rewrite skip_skip|lia|]. intros [k q] p1 ((? & ? & ?) & _) _ Hp1. cbn [fst snd] in *. rewrite wpe_bind.
      eapply wpe_mono; [apply IHl; lia|]. intros c p2 [Hc Hp2]. rewrite wpe_bind. apply wpe_peek; [lia|]. intros b Hb2 Hle2. destruct b; [|done]. destruct (Hb2 eq_refl) as [_ Hlt2]. cbn [negb].
      rewrite wpe_bind. apply wpe_token; [by rewrite skip_skip|lia|]. intros [k' q'] p3 ((? & ? & ?) & _) _ Hp3. cbn [fst snd] in *.
      eapply wpe_mono; [by apply parseredirs_ok; [lia|]|]. intros c' p4 [Hc' Hp4]. split; [done|lia].
    + rewrite wpe_bind. apply wpe_redirs_loop; [lia|lia|]. intros l p1 Hl Hp1. rewrite wpe_bind. apply wpe_args_loop; [lia|lia|unfold MAXARGS; lia|].
      intros r p2 H1 H2 H3 Hp2. split; [|lia]. apply add_redirs_ok; [cbn; split; [done|lia]|]. by apply list.Forall_app.
Qed.
End Spans.

(** ** The strings of a command *)

Definition slice (t : list Z) (q : nat * nat) : list Z := take (q.2 - q.1) (drop q.1 t).
Fixpoint strings {A} (c : cmd A) : list A :=
  match c with
  | EXEC argv => argv
  | REDIR c file _ _ => strings c ++ [file]
  | PIPE l r | LIST l r => strings l ++ strings r
  | BACK c => strings c
  end.
Lemma cmd_ok_strings {A} (P : A -> Prop) c : cmd_ok P c -> Forall P (strings c).
Proof. induction c; cbn; rewrite ?list.Forall_app; naive_solver. Qed.
Lemma cmd_map_ext {A B} (f g : A -> B) c : Forall (fun x => f x = g x) (strings c) -> cmd_map f c = cmd_map g c.
Proof.
  induction c as [argv|c IH file mode fd|l IHl r IHr|l IHl r IHr|c IH]; cbn [strings cmd_map]; rewrite ?list.Forall_app; intros H.
  - f_equal. induction H as [|x l Hx _ IH]; [done|]. by rewrite !fmap_cons, Hx, IH.
  - destruct H as [H1 H2]. inversion H2 as [|? ? H3 _]; subst. by rewrite (IH H1), H3.
  - f_equal; [apply IHl|apply IHr]; tauto.
  - f_equal; [apply IHl|apply IHr]; tauto.
  - f_equal. by apply IH.
Qed.
Lemma cmd_ok_map {A B} (P : B -> Prop) (f : A -> B) c : cmd_ok P (cmd_map f c) <-> cmd_ok (fun x => P (f x)) c.
Proof.
  induction c; cbn; [rewrite list.Forall_fmap, length_fmap; done|tauto..].
Qed.
Lemma cmd_ok_mono {A} (P Q : A -> Prop) c : (forall x, P x -> Q x) -> cmd_ok P c -> cmd_ok Q c.
Proof. intros HPQ. induction c; cbn; try naive_solver. intros [H ?]. split; [|done]. by eapply Forall_weaken. Qed.

Lemma nulterminate_strings c : forall t, nulterminate c t = foldl (fun t q => <[q.2 := 0]> t) t (strings c).
Proof.
  induction c as [argv|c IH file mode fd|l IHl r IHr|l IHl r IHr|c IH]; intros t; cbn [nulterminate strings]; [done| | | |apply IH].
  - by rewrite foldl_app, <- IH.
  - by rewrite foldl_app, <- IHl, <- IHr.
  - by rewrite foldl_app, <- IHl, <- IHr.
Qed.
Lemma insert_same {A} (l : list A) i x : <[i := x]> l !! i = (fun _ => x) <$> l !! i.
Proof.
  destruct (l !! i) as [y|] eqn:E; [|by rewrite list_insert_ge by (by apply lookup_ge_None_1)]. by rewrite list_lookup_insert_eq by (by eapply lookup_lt_Some).
Qed.
Lemma zeros_lookup (l : list (nat * nat)) : forall (t : list Z) i,
  foldl (fun t q => <[q.2 := 0]> t) t l !! i = if decide (i ∈ l.*2) then ((fun _ => 0) <$> t !! i) else t !! i.
Proof.
  induction l as [|q l IH]; intros t i; cbn [foldl]; [by rewrite decide_False by (cbn; apply not_elem_of_nil)|]. rewrite IH, fmap_cons.
  destruct (decide (q.2 = i)) as [<-|Hne].
  - destruct (decide (q.2 ∈ q.2 :: l.*2)) as [_|Hn]; [|destruct Hn; apply elem_of_cons; by left]. rewrite insert_same. destruct (decide _); [|done]. by destruct (t !! q.2).
  - rewrite list_lookup_insert_ne by done. destruct (decide (i ∈ l.*2)); [rewrite decide_True by (apply elem_of_cons; by right)|rewrite decide_False by (rewrite elem_of_cons; intros [E|?]; [by apply Hne|done])]; done.
Qed.
Lemma cstring_take buf n : forall t,
  (forall i, (i < n)%nat -> exists c, buf !! i = Some c /\ t !! i = Some c /\ c ≠ 0) -> buf !! n = Some 0 -> cstring buf = take n t.
Proof.
  revert buf. induction n as [|n IH]; intros buf t Hi H0.
  - destruct buf as [|c buf]; [done|]. cbn in H0. injection H0 as ->. by cbn; rewrite take_0.
  - destruct (Hi 0%nat ltac:(lia)) as (c & H1 & H2 & Hc). destruct buf as [|c1 buf], t as [|c2 t]; try done. cbn in H1, H2, H0. injection H1 as ->. injection H2 as ->.
    cbn. rewrite (proj2 (Z.eqb_neq _ _) Hc). f_equal. apply IH; [|done]. intros i Hlt. apply (Hi (S i)). lia.
Qed.
(** The zeros end each string of the command where its word ends. *)
Lemma nulterminate_ok t c : 0 ∉ t -> cmd_ok (word_span t) c -> Forall (fun q => string_at (nulterminate c (t ++ [0])) q = slice t q) (strings c).
Proof.
  intros Ht Hc. apply cmd_ok_strings in Hc. apply list.Forall_forall. intros q Hq. rewrite list.Forall_forall in Hc. destruct (Hc q Hq) as ((H1 & H2) & Hw & He).
  unfold string_at, slice. apply cstring_take.
  - intros i Hi. destruct (char_some t Ht (q.1 + i)%nat) as [Hch Hne]; [lia|]. exists (char t (q.1 + i)%nat). rewrite !lookup_drop, nulterminate_strings, zeros_lookup. split_and!; [|done|done].
    rewrite decide_False; [by rewrite lookup_app_l by lia|]. intros Hin. apply list_elem_of_fmap in Hin as (q' & Eq & Hq'). destruct (Hc q' Hq') as ((H1' & H2') & _ & He').
    rewrite <- Eq in *. destruct He' as [He'|He']; [lia|]. by rewrite Hw in He' by lia.
  - rewrite lookup_drop, nulterminate_strings, zeros_lookup. replace (q.1 + (q.2 - q.1))%nat with q.2 by lia.
    rewrite decide_True by (apply list_elem_of_fmap; by exists q). destruct (lookup_lt_is_Some_2 (t ++ [0]) q.2) as [x ->]; [rewrite length_app; cbn; lia|done].
Qed.
(** A word: not empty, without blanks, symbols and zeros. *)
Definition word (w : list Z) : Prop := w ≠ [] /\ Forall (fun c => is_word c = true /\ c ≠ 0) w.
#[export] Instance word_dec w : Decision (word w).
Proof. unfold word. apply _. Defined.
Lemma slice_word t q : 0 ∉ t -> word_span t q -> word (slice t q).
Proof.
  intros Ht ((H1 & H2) & Hw & _). unfold slice. split.
  - intros E. apply (f_equal length) in E. rewrite length_take, length_drop in E. cbn in E. lia.
  - apply list.Forall_lookup. intros i c Hi. apply lookup_take_Some in Hi as [Hi Hlt]. rewrite lookup_drop in Hi. destruct (char_some t Ht (q.1 + i)%nat) as [Hch Hne]; [lia|].
    rewrite Hi in Hch. injection Hch as ->. split; [apply Hw; lia|done].
Qed.

(** C22. The parser returns on every text: it ends with a message, or it gives a
    command with fewer than [MAXARGS] arguments and redirections of descriptors
    0 and 1, whose strings are words of the text, each ended by a zero in the
    buffer. *)
Theorem parsecmd_typed t :
  0 ∉ t ->
  match parsecmd t with
  | Ok (c, buf) _ => cmd_ok word (cmd_map (string_at buf) c) /\ cmd_map (string_at buf) c = cmd_map (slice t) c
  | Panic _ => True
  | _ => False
  end.
Proof.
  intros Ht. enough (wpe (c ← parse t; mret (c, nulterminate c (t ++ [0]))) (fun r _ => cmd_ok word (cmd_map (string_at r.2) r.1) /\ cmd_map (string_at r.2) r.1 = cmd_map (slice t) r.1) 0%nat) as H.
  { unfold wpe, parsecmd in *. case_match; [by destruct a|done..]. }
  unfold parse. rewrite !wpe_bind. eapply wpe_mono; [apply (parser_ok t Ht); lia|]. intros c ps [Hc Hps]. rewrite !wpe_bind. apply wpe_peek; [lia|]. intros _ _ Hle.
  unfold Prelude.gets. rewrite wpe_bind. cbn. destruct (negb _); [done|]. cbn. pose proof (nulterminate_ok t c Ht Hc) as Hn. apply cmd_map_ext in Hn. rewrite Hn. split; [|done].
  apply cmd_ok_map. eapply cmd_ok_mono; [|exact Hc]. intros q. by apply slice_word.
Qed.
Lemma parsecmd_typed_witness : exists c buf ps, parsecmd (str "ls | wc") = Ok (c, buf) ps /\ cmd_ok word (cmd_map (string_at buf) c).
Proof.
  pose proof (parsecmd_typed (str "ls | wc")) as H. destruct (parsecmd (str "ls | wc")) as [[c buf] ps| | |] eqn:E; [|vm_compute in E; discriminate..].
  exists c, buf, ps. split; [done|]. apply H. vm_compute. intros Hin. repeat (apply elem_of_cons in Hin as [[=]|Hin]). by inversion Hin.
Defined.

(** ** Printing commands *)

(** The tokens of a command where the grammar expects a line (0), the part
    before an ampersand (1), a pipeline (2) or a simple command (3). *)
Definition paren (b : bool) (l : list (list Z)) : list (list Z) := if b then [[LPAREN]] ++ l ++ [[RPAREN]] else l.
Definition redir_tokens (x : list Z * Z * Z) : list (list Z) := [[if x.1.2 =? O_RDONLY then LT else GT]; x.1.1].
Fixpoint tokens (level : nat) (c : cmd (list Z)) : list (list Z) :=
  match c with
  | EXEC argv => argv
  | REDIR c file mode fd => tokens 3 c ++ redir_tokens (file, mode, fd)
  | PIPE l r => paren (2 <? level)%nat (tokens 3 l ++ [[BAR]] ++ tokens 2 r)
  | BACK c => paren (1 <? level)%nat (tokens 1 c ++ [[AMP]])
  | LIST l r => paren (0 <? level)%nat (tokens 1 l ++ [[SEMI]] ++ tokens 0 r)
  end.
Definition render (ts : list (list Z)) : list Z := concat ((fun w => w ++ [32]) <$> ts).
Definition print (c : cmd (list Z)) : list Z := render (tokens 0 c).

Definition symbol (w : list Z) : Prop := exists c, w = [c] /\ c ∈ [BAR; LPAREN; RPAREN; SEMI; AMP; LT; GT].
Definition token (w : list Z) : Prop := word w \/ symbol w.
Lemma symbol_intro c : bool_decide (c ∈ [BAR; LPAREN; RPAREN; SEMI; AMP; LT; GT]) = true -> token [c].
Proof. intros H. right. exists c. split; [done|]. by apply bool_decide_eq_true_1 in H. Qed.
Lemma tokens_ok c : cmd_ok word c -> forall level, Forall token (tokens level c).
Proof.
  assert (forall b l, Forall token l -> Forall token (paren b l)) as Hp.
  { intros [] l Hl; [|done]. unfold paren. apply list.Forall_app. split; [constructor; [by apply symbol_intro|constructor]|]. apply list.Forall_app. split; [done|]. constructor; [by apply symbol_intro|constructor]. }
  induction c as [argv|c IH file mode fd|l IHl r IHr|l IHl r IHr|c IH]; cbn [cmd_ok tokens]; intros Hc level.
  - destruct Hc as [Hc _]. eapply Forall_weaken; [exact Hc|]. by left.
  - destruct Hc as (Hc & Hf & _). apply list.Forall_app. split; [by apply IH|]. unfold redir_tokens. cbn. constructor; [destruct (_ =? _); by apply symbol_intro|constructor; [by left|constructor]].
  - destruct Hc. apply Hp. apply list.Forall_app. split; [by apply IHl|]. constructor; [by apply symbol_intro|by apply IHr].
  - destruct Hc. apply Hp. apply list.Forall_app. split; [by apply IHl|]. constructor; [by apply symbol_intro|by apply IHr].
  - apply Hp. apply list.Forall_app. split; [by apply IH|]. constructor; [by apply symbol_intro|constructor].
Qed.
Lemma render_cons w ts : render (w :: ts) = w ++ 32 :: render ts.
Proof. unfold render. rewrite fmap_cons. cbn. by rewrite <- app_assoc. Qed.
Lemma render_app ts ts' : render (ts ++ ts') = render ts ++ render ts'.
Proof. unfold render. by rewrite fmap_app, concat_app. Qed.

Lemma token_head w : token w -> exists c w', w = c :: w' /\ is_ws c = false /\ c ≠ 0.
Proof.
  intros [[Hn Hw]|(c & -> & Hc)].
  - destruct w as [|c w]; [done|]. apply list.Forall_cons in Hw as [[Hw H0] _]. exists c, w. split_and!; [done| |done]. unfold is_word in Hw. by destruct (is_ws c).
  - exists c, []. rewrite !elem_of_cons, elem_of_nil in Hc. split_and!; [done|destruct_or! Hc; subst; done..].
Qed.
Lemma render_no_ws ts : Forall token ts -> span_len is_ws (render ts) = 0%nat.
Proof. destruct 1 as [|w ts Hw _]; [done|]. rewrite render_cons. destruct (token_head w Hw) as (c & w' & -> & Hc & _). cbn. by rewrite Hc. Qed.
Lemma span_word w l : Forall (fun c => is_word c = true /\ c ≠ 0) w -> span_len is_word (w ++ 32 :: l) = length w.
Proof. induction 1 as [|c w [Hc _] _ IH]; [done|]. cbn. by rewrite Hc, IH. Qed.

(** Case analysis on which of the listed characters one is. *)
Ltac chars H :=
  rewrite ?elem_of_cons, ?elem_of_nil in H; destruct_or! H;
  repeat match type of H with ?x = _ => rewrite H in * end; apply (bool_decide_eq_true_1 _); reflexivity || done.
Section At.
Context (t : list Z).
(** The tokens [ts] are what is left of the text from position [i] on. *)
Definition at_ (i : nat) (ts : list (list Z)) : Prop := (i <= length t)%nat /\ drop i t = render ts /\ Forall token ts.
Definition head_char (ts : list (list Z)) : Z := match ts with (c :: _) :: _ => c | _ => 0 end.

Lemma at_skip i ts : at_ i ts -> skip t i = i.
Proof. intros (_ & E & H). unfold skip. rewrite E, render_no_ws by done. lia. Qed.
Lemma at_char i ts : at_ i ts -> char t i = head_char ts.
Proof.
  intros (_ & E & H). unfold char. rewrite <- (Nat.add_0_r i), <- lookup_drop, E. destruct H as [|w ts Hw _]; [done|]. rewrite render_cons. by destruct (token_head w Hw) as (c & w' & -> & _).
Qed.
Lemma peek_at i ts toks : at_ i ts -> peek t toks i = Ok (negb (head_char ts =? 0) && bool_decide (head_char ts ∈ toks)) i.
Proof. intros H. unfold peek. rewrite (at_skip i ts H). by rewrite (at_char i ts H). Qed.
(** Behind a token. *)
Lemma at_next i w ts : at_ i (w :: ts) -> at_ (i + length w + 1) ts /\ skip t (i + length w) = (i + length w + 1)%nat /\ slice t (i, (i + length w)%nat) = w /\ (i + length w + 1 <= length t)%nat.
Proof.
  intros (Hi & E & H). apply list.Forall_cons in H as [Hw H]. rewrite render_cons in E.
  assert (i + length w + 1 <= length t)%nat as Hlen by (apply (f_equal length) in E; rewrite length_drop, length_app in E; cbn in E; lia).
  assert (drop (i + length w) t = 32 :: render ts) as E1 by (rewrite <- drop_drop, E; by rewrite drop_app_length).
  assert (drop (i + length w + 1) t = render ts) as E2 by (by rewrite <- drop_drop, E1).
  split; [by split_and!|]. split_and!; [| |done].
  - unfold skip. rewrite E1. change (span_len is_ws (32 :: render ts)) with (S (span_len is_ws (render ts))). rewrite render_no_ws by done. lia.
  - unfold slice. cbn [fst snd]. replace (i + length w - i)%nat with (length w) by lia. rewrite E. by rewrite take_app_length.
Qed.
Lemma gettoken_word i w ts : word w -> at_ i (w :: ts) -> gettoken t i = Ok (TOK_WORD, (i, (i + length w)%nat)) (i + length w + 1)%nat.
Proof.
  intros Hw Hat. destruct (at_next i w ts Hat) as (_ & Hs & _). unfold gettoken. rewrite (at_skip i _ Hat), (at_char i _ Hat). destruct Hat as (_ & E & _). rewrite render_cons in E.
  destruct Hw as [Hn Hw]. destruct w as [|c w]; [done|]. cbn [head_char]. pose proof Hw as Hw'. apply list.Forall_cons in Hw' as [[Hc H0] _].
  rewrite (proj2 (Z.eqb_neq _ _) H0). assert (is_sym c = false) as Hsym by (unfold is_word in Hc; destruct (is_ws c), (is_sym c); done).
  unfold is_sym in Hsym. apply bool_decide_eq_false_1 in Hsym. rewrite symbols_eq, !not_elem_of_cons in Hsym. destruct Hsym as (N1 & N2 & N3 & N4 & N5 & N6 & N7 & _).
  rewrite bool_decide_eq_false_2 by (rewrite !not_elem_of_cons; split_and!; try done; apply not_elem_of_nil). rewrite (proj2 (Z.eqb_neq _ _) N3).
  rewrite E, span_word by done. by rewrite Hs.
Qed.
Lemma gettoken_symbol i c ts : c ∈ [BAR; LPAREN; RPAREN; SEMI; AMP; LT; GT] -> at_ i ([c] :: ts) -> gettoken t i = Ok (c, (i, S i)) (S (S i)).
Proof.
  intros Hc Hat. destruct (at_next i [c] ts Hat) as (_ & Hs & _ & Hlen). cbn [length] in *. unfold gettoken. rewrite (at_skip i _ Hat), (at_char i _ Hat). destruct Hat as (_ & E & _).
  cbn [head_char]. replace (i + 1)%nat with (S i) in * by lia. replace (S i + 1)%nat with (S (S i)) in Hs by lia.
  assert (char t (S i) = 32) as Hch. { unfold char. replace (S i) with (i + 1)%nat by lia. rewrite <- lookup_drop, E, render_cons. done. }
  assert (c ≠ 0) as H0 by (intros ->; by apply (bool_decide_eq_true_2 _) in Hc). rewrite (proj2 (Z.eqb_neq _ _) H0). case_bool_decide as Hin; [by rewrite Hs|].
  assert (c = GT) as -> by (rewrite !elem_of_cons in Hc; rewrite !not_elem_of_cons in Hin; naive_solver). rewrite Z.eqb_refl, Hch. change (32 =? GT) with false. cbn beta iota. by rewrite Hs.
Qed.

Lemma gettoken_end i : at_ i [] -> gettoken t i = Ok (0, (i, i)) i.
Proof.
  intros Hat. pose proof (at_skip i _ Hat) as Hs. unfold gettoken. rewrite Hs, (at_char i _ Hat). cbn [head_char Z.eqb]. by rewrite Hs.
Qed.
Lemma at_end i ts : at_ i ts -> head_char ts = 0 -> ts = [].
Proof. intros (_ & _ & H). destruct H as [|w ts Hw _]; [done|]. by destruct (token_head w Hw) as (c & w' & -> & _ & Hc). Qed.
Lemma word_head w ts : word w -> head_char (w :: ts) ≠ 0 /\ forall toks, Forall (fun c => is_sym c = true) toks -> bool_decide (head_char (w :: ts) ∈ toks) = false.
Proof.
  intros [Hn Hw]. destruct w as [|c w]; [done|]. apply list.Forall_cons in Hw as [[Hc H0] _]. cbn [head_char]. split; [done|]. intros toks Ht. apply bool_decide_eq_false_2. intros Hin.
  rewrite list.Forall_forall in Ht. specialize (Ht c Hin). unfold is_word in Hc. rewrite Ht, andb_false_r in Hc. done.
Qed.

Definition redir_map {A B} (f : A -> B) (x : A * Z * Z) : B * Z * Z := (f x.1.1, x.1.2, x.2).
Definition redirs_tokens (l : list (list Z * Z * Z)) : list (list Z) := concat (redir_tokens <$> l).
Lemma cmd_map_redirs {A B} (f : A -> B) l : forall c, cmd_map f (add_redirs c l) = add_redirs (cmd_map f c) (redir_map f <$> l).
Proof. unfold add_redirs. induction l as [|[[q m] fd] l IH]; intros c; [done|]. cbn. apply IH. Qed.

(** [m] consumes the tokens before [ts] and gives a value that [f] reads as [v]. *)
Definition consumes {A B} (m : M nat A) (f : A -> B) (v : B) (i : nat) (ts : list (list Z)) : Prop :=
  exists a i', m i = Ok a i' /\ f a = v /\ at_ i' ts /\ (i <= i')%nat.
Lemma consumes_bind {A B C D} (m : M nat A) (k : A -> M nat C) (f : A -> B) (g : C -> D) v w i ts ts' :
  consumes m f v i ts -> (forall a i', f a = v -> at_ i' ts -> (i <= i')%nat -> consumes (k a) g w i' ts') -> consumes (m ≫= k) g w i ts'.
Proof.
  intros (a & i1 & E & Hf & Hat & Hle) Hk. destruct (Hk a i1 Hf Hat Hle) as (c & i2 & E2 & Hg & Hat2 & Hle2). exists c, i2. split_and!; [|done|done|lia]. by rewrite (bind_run _ _ _ a i1).
Qed.
Lemma consumes_ret {A B} (a : A) (f : A -> B) v i ts : f a = v -> at_ i ts -> consumes (mret a) f v i ts.
Proof. intros. exists a, i. done. Qed.
Lemma consumes_peek {C D} (k : bool -> M nat C) toks (g : C -> D) w i ts ts' :
  at_ i ts -> consumes (k (negb (head_char ts =? 0) && bool_decide (head_char ts ∈ toks))) g w i ts' -> consumes (peek t toks ≫= k) g w i ts'.
Proof.
  intros Hat (c & i2 & E & H). exists c, i2. split; [|done]. by rewrite (bind_run _ _ _ _ _ (peek_at i ts toks Hat)).
Qed.
Lemma consumes_symbol {C D} (k : Z * (nat * nat) -> M nat C) (g : C -> D) w i c ts ts' :
  c ∈ [BAR; LPAREN; RPAREN; SEMI; AMP; LT; GT] -> at_ i ([c] :: ts) ->
  (at_ (S (S i)) ts -> (S (S i) <= length t)%nat -> consumes (k (c, (i, S i))) g w (S (S i)) ts') -> consumes (gettoken t ≫= k) g w i ts'.
Proof.
  intros Hc Hat Hk. destruct (at_next i [c] ts Hat) as (Hat' & _ & _ & Hlen). cbn [length] in *. replace (i + 1 + 1)%nat with (S (S i)) in * by lia.
  destruct (Hk Hat' Hlen) as (a & i' & E & ? & ? & ?). exists a, i'. split_and!; [|done|done|lia]. by rewrite (bind_run _ _ _ _ _ (gettoken_symbol i c ts Hc Hat)).
Qed.
Lemma consumes_word {C D} (k : Z * (nat * nat) -> M nat C) (g : C -> D) w i x ts ts' :
  word x -> at_ i (x :: ts) ->
  (forall q i', slice t q = x -> at_ i' ts -> (i < i' <= length t)%nat -> consumes (k (TOK_WORD, q)) g w i' ts') -> consumes (gettoken t ≫= k) g w i ts'.
Proof.
  intros Hx Hat Hk. destruct (at_next i x ts Hat) as (Hat' & _ & Hsl & Hlen). destruct (Hk _ _ Hsl Hat' ltac:(lia)) as (a & i' & E & ? & ? & ?).
  exists a, i'. split_and!; [|done|done|lia]. by rewrite (bind_run _ _ _ _ _ (gettoken_word i x ts Hx Hat)).
Qed.

Lemma redirs_at l : forall i ts fuel,
  at_ i (redirs_tokens l ++ ts) -> Forall (redir_ok word) l -> head_char ts ∉ [LT; GT] -> (length t - i < fuel)%nat ->
  consumes (redirs_loop t fuel) (fmap (redir_map (slice t))) l i ts.
Proof.
  induction l as [|[[file mode] fd] l IH]; intros i ts fuel Hat Hl Hts Hf; (destruct fuel as [|fuel]; [lia|]); cbn [redirs_loop].
  - apply (consumes_peek _ _ _ _ _ ts); [done|]. rewrite bool_decide_eq_false_2 by done. rewrite andb_false_r. by apply consumes_ret.
  - apply list.Forall_cons in Hl as [[Hw Hk] Hl]. cbn [fst snd] in *. unfold redirs_tokens in Hat. rewrite fmap_cons in Hat. cbn [concat redir_tokens app fst snd] in Hat. fold (redirs_tokens l) in Hat.
    set (c := if mode =? O_RDONLY then LT else GT) in *. assert (c = LT \/ c = GT) as Hc by (unfold c; destruct (_ =? _); tauto).
    apply (consumes_peek _ _ _ _ _ _ _ Hat). cbn [head_char]. assert (negb (c =? 0) && bool_decide (c ∈ [LT; GT]) = true) as -> by (destruct Hc as [-> | ->]; reflexivity). cbn [negb].
    eapply consumes_symbol; [|exact Hat|]; [destruct Hc as [-> | ->]; rewrite !elem_of_cons; tauto|]. intros Hat1 Hlen. cbn [fst snd].
    eapply consumes_word; [done|exact Hat1|]. intros q i2 Hq Hat2 Hi2. rewrite Z.eqb_refl. cbn [negb].
    eapply consumes_bind; [apply IH; [exact Hat2|done|done|lia]|]. intros l' i3 El Hat3 Hi3. apply consumes_ret; [|done]. rewrite fmap_cons, El. f_equal. unfold redir_map.
    destruct Hk as [[= -> ->]|[= -> ->]]; unfold c; rewrite <- Hq; reflexivity.
Qed.
Lemma args_at argv : forall l argc i ts fuel,
  at_ i (argv ++ redirs_tokens l ++ ts) -> Forall word argv -> (argc + length argv < MAXARGS)%nat -> (argv = [] -> l = []) -> Forall (redir_ok word) l ->
  head_char ts ∈ [0; BAR; RPAREN; AMP; SEMI] -> (length t - i < fuel)%nat ->
  consumes (args_loop t argc fuel) (fun r => (slice t <$> r.1, redir_map (slice t) <$> r.2)) (argv, l) i ts.
Proof.
  induction argv as [|w argv IH]; intros l argc i ts fuel Hat Hw Ha Hl0 Hl Hts Hf; (destruct fuel as [|fuel]; [lia|]); cbn [args_loop].
  - rewrite (Hl0 eq_refl) in *. cbn [app] in Hat. change (redirs_tokens [] ++ ts) with ts in Hat. apply (consumes_peek _ _ _ _ _ ts); [done|].
    destruct (Z.eqb_spec (head_char ts) 0) as [E0|E0].
    + cbn [negb andb]. pose proof (at_end i ts Hat E0) as ->. eexists _, _. rewrite (bind_run _ _ _ _ _ (gettoken_end i Hat)). split; [reflexivity|]. by split; [|split].
    + rewrite bool_decide_eq_true_2 by (by chars Hts). cbn [negb andb]. by apply consumes_ret.
  - apply list.Forall_cons in Hw as [Hw Hws]. cbn [app length] in *. apply (consumes_peek _ _ _ _ _ _ _ Hat). destruct (word_head w (argv ++ redirs_tokens l ++ ts) Hw) as [_ Hsym].
    rewrite Hsym by (repeat constructor). rewrite andb_false_r. eapply consumes_word; [done|exact Hat|]. intros q i1 Hq Hat1 Hi1. cbn beta iota. change (TOK_WORD =? 0) with false. rewrite Z.eqb_refl. cbn [negb].
    destruct (Nat.leb_spec MAXARGS (S argc)); [lia|]. destruct argv as [|w2 argv].
    + eapply consumes_bind; [apply (redirs_at l); [exact Hat1|done| |lia]|].
      { by chars Hts. }
      intros l' i2 El Hat2 Hi2. eapply consumes_bind; [apply (IH [] (S argc) i2 ts fuel); [exact Hat2|done|cbn; lia|done|done|done|lia]|].
      intros r i3 Er Hat3 Hi3. injection Er as E1 E2. apply consumes_ret; [|done]. cbn [fst snd]. by rewrite fmap_cons, fmap_app, Hq, E1, E2, El, app_nil_r.
    + eapply consumes_bind; [apply (redirs_at []); [exact Hat1|done| |lia]|].
      { apply list.Forall_cons in Hws as [Hw2 _]. destruct (word_head w2 (argv ++ redirs_tokens l ++ ts) Hw2) as [_ Hs2]. by apply (bool_decide_eq_false_1 _), Hs2; repeat constructor. }
      intros l' i2 El Hat2 Hi2. eapply consumes_bind; [apply (IH l (S argc) i2 ts fuel); [exact Hat2|done|cbn in *; lia|done|done|done|lia]|].
      intros r i3 Er Hat3 Hi3. injection Er as E1 E2. apply consumes_ret; [|done]. cbn [fst snd]. by rewrite fmap_cons, fmap_app, Hq, E1, E2, El.
Qed.

Definition exec_at (c : cmd (list Z)) : Prop := forall l i ts fuel,
  at_ i (tokens 3 c ++ redirs_tokens l ++ ts) -> Forall (redir_ok word) l -> head_char ts ∈ [0; BAR; RPAREN; AMP; SEMI] -> (3 * (length t - i) + 1 <= fuel)%nat ->
  consumes (parseexec t fuel) (cmd_map (slice t)) (add_redirs c l) i ts.
Definition pipe_at (c : cmd (list Z)) : Prop := forall i ts fuel,
  at_ i (tokens 2 c ++ ts) -> head_char ts ∈ [0; RPAREN; AMP; SEMI] -> (3 * (length t - i) + 2 <= fuel)%nat -> consumes (parsepipe t fuel) (cmd_map (slice t)) c i ts.
(** The pipeline and some of the ampersands behind it. *)
Definition back_at (c : cmd (list Z)) : Prop := forall i ts fuel n,
  at_ i (tokens 1 c ++ ts) -> head_char ts ∈ [0; RPAREN; AMP; SEMI] -> (3 * (length t - i) + 2 <= fuel)%nat -> (length t < n + i)%nat ->
  exists c' i' n', (parsepipe t fuel ≫= fun c0 => back_loop t c0 n) i = back_loop t c' n' i' /\ cmd_map (slice t) c' = c /\ at_ i' ts /\ (i <= i')%nat /\ (length t < n' + i')%nat.
Definition line_at (c : cmd (list Z)) : Prop := forall i ts fuel,
  at_ i (tokens 0 c ++ ts) -> head_char ts ∈ [0; RPAREN] -> (3 * (length t - i) + 3 <= fuel)%nat -> consumes (parseline t fuel) (cmd_map (slice t)) c i ts.

Lemma bind_assoc {S A B C} (m : M S A) (f : A -> M S B) (g : B -> M S C) s : (m ≫= (fun a => f a ≫= g)) s = ((m ≫= f) ≫= g) s.
Proof. unfold mbind, M_bind. by destruct (m s). Qed.
Lemma exec_pipe c : exec_at c -> tokens 2 c = tokens 3 c -> pipe_at c.
Proof.
  intros He Et i ts fuel Hat Hts Hf. destruct fuel as [|fuel]; [lia|]. cbn [parsepipe]. rewrite Et in Hat.
  eapply consumes_bind; [apply (He [] i ts fuel); [exact Hat|done|by chars Hts|lia]|]. intros c' i' Ec Hat' Hi'. apply (consumes_peek _ _ _ _ _ _ _ Hat').
  rewrite bool_decide_eq_false_2 by (by chars Hts). rewrite andb_false_r. by apply consumes_ret.
Qed.
Lemma pipe_back c : pipe_at c -> tokens 1 c = tokens 2 c -> back_at c.
Proof.
  intros Hp Et i ts fuel n Hat Hts Hf Hn. rewrite Et in Hat. destruct (Hp i ts fuel Hat Hts Hf) as (c' & i' & E & Ec & Hat' & Hle). exists c', i', n.
  rewrite (bind_run _ _ _ _ _ E). split_and!; [done|done| |done|lia]. done.
Qed.
Lemma back_loop_end c i ts n : at_ i ts -> head_char ts ∈ [0; RPAREN; SEMI] -> (length t < n + i)%nat -> back_loop t c n i = Ok c i.
Proof.
  intros Hat Hts Hn. destruct n as [|n]; [destruct Hat; lia|]. cbn [back_loop]. rewrite (bind_run _ _ _ _ _ (peek_at i ts [AMP] Hat)).
  rewrite bool_decide_eq_false_2 by (by chars Hts). by rewrite andb_false_r.
Qed.
Lemma back_line c : back_at c -> tokens 0 c = tokens 1 c -> line_at c.
Proof.
  intros Hb Et i ts fuel Hat Hts Hf. destruct fuel as [|fuel]; [lia|]. rewrite Et in Hat.
  destruct (Hb i ts fuel (S (length t)) Hat) as (c' & i' & n' & E & Ec & Hat' & Hi' & Hn'); [by chars Hts|lia|lia|].
  assert (back_loop t c' n' i' = Ok c' i') as E' by (by apply (back_loop_end _ _ ts); [|chars Hts|]).
  exists c', i'. split_and!; [|done|done|done]. cbn [parseline]. rewrite bind_assoc, (bind_run _ _ _ c' i') by (by rewrite E). rewrite (bind_run _ _ _ _ _ (peek_at i' ts [SEMI] Hat')).
  rewrite bool_decide_eq_false_2 by (by chars Hts). by rewrite andb_false_r.
Qed.
Lemma line_block c : line_at c -> tokens 3 c = paren true (tokens 0 c) -> exec_at c.
Proof.
  intros Hl Et l i ts fuel Hat Hr Hts Hf. destruct fuel as [|fuel]; [lia|]. rewrite Et in Hat. unfold paren in Hat. rewrite <- !app_assoc in Hat. cbn [app] in Hat. cbn [parseexec].
  apply (consumes_peek _ _ _ _ _ _ _ Hat). change (negb (head_char ([LPAREN] :: _) =? 0) && _) with true. cbn beta iota. unfold parseblock.
  apply (consumes_peek _ _ _ _ _ _ _ Hat). change (negb (head_char ([LPAREN] :: _) =? 0) && _) with true. cbn [negb].
  eapply consumes_symbol; [|exact Hat|]; [by apply (bool_decide_eq_true_1 _)|]. intros Hat1 Hlen.
  eapply consumes_bind; [apply (Hl _ ([RPAREN] :: redirs_tokens l ++ ts)); [exact Hat1|by apply (bool_decide_eq_true_1 _)|lia]|]. intros c' i2 Ec Hat2 Hi2.
  apply (consumes_peek _ _ _ _ _ _ _ Hat2). change (negb (head_char ([RPAREN] :: _) =? 0) && _) with true. cbn [negb].
  eapply consumes_symbol; [|exact Hat2|]; [by apply (bool_decide_eq_true_1 _)|]. intros Hat3 Hlen3. unfold parseredirs, redirs.
  eapply consumes_bind; [apply (redirs_at l); [exact Hat3|done|by chars Hts|lia]|]. intros l' i4 El Hat4 Hi4. apply consumes_ret; [|done]. by rewrite cmd_map_redirs, Ec, El.
Qed.

Lemma exec_simple argv : cmd_ok word (EXEC argv) -> exec_at (EXEC argv).
Proof.
  intros [Hw Ha] l i ts fuel Hat Hl Hts Hf. cbn [tokens] in Hat. destruct fuel as [|fuel]; [lia|]. cbn [parseexec]. unfold redirs.
  apply (consumes_peek _ _ _ _ _ _ _ Hat).
  assert (bool_decide (head_char (argv ++ redirs_tokens l ++ ts) ∈ [LPAREN]) = false) as ->.
  { destruct Hw as [|w argv Hw _]; [|apply (word_head w (argv ++ redirs_tokens l ++ ts) Hw); repeat constructor]. cbn [app].
    destruct l as [|[[f m] fd] l]; [change (redirs_tokens [] ++ ts) with ts; apply bool_decide_eq_false_2; by chars Hts|]. cbn. by destruct (m =? O_RDONLY). }
  rewrite andb_false_r. destruct argv as [|w argv].
  - eapply consumes_bind; [apply (redirs_at l); [exact Hat|done|by chars Hts|lia]|]. intros l' i1 El Hat1 Hi1.
    eapply consumes_bind; [apply (args_at [] [] 0 i1 ts); [exact Hat1|done|done|done|done|done|lia]|]. intros r i2 Er Hat2 Hi2. injection Er as E1 E2.
    apply consumes_ret; [|done]. by rewrite cmd_map_redirs, fmap_app, El, E2, app_nil_r; cbn [cmd_map]; rewrite E1.
  - eapply consumes_bind; [apply (redirs_at []); [exact Hat|done| |lia]|].
    { apply list.Forall_cons in Hw as [Hw _]. by apply (bool_decide_eq_false_1 _), (word_head w (argv ++ redirs_tokens l ++ ts) Hw); repeat constructor. }
    intros l' i1 El Hat1 Hi1. eapply consumes_bind; [apply (args_at (w :: argv) l 0 i1 ts); [exact Hat1|done|done|done|done|done|lia]|]. intros r i2 Er Hat2 Hi2. injection Er as E1 E2.
    apply consumes_ret; [|done]. by rewrite cmd_map_redirs, fmap_app, El, E2; cbn [cmd_map]; rewrite E1.
Qed.
Lemma exec_redir c file mode fd : exec_at c -> cmd_ok word (REDIR c file mode fd) -> exec_at (REDIR c file mode fd).
Proof.
  intros He (Hc & Hf & Hk) l i ts fuel Hat Hl Hts Hfu. cbn [tokens] in Hat. rewrite <- app_assoc in Hat. apply (He ((file, mode, fd) :: l) i ts fuel); [exact Hat| |done|done].
  by constructor.
Qed.
Lemma pipe_pipe l r : exec_at l -> pipe_at r -> pipe_at (PIPE l r).
Proof.
  intros Hl Hr i ts fuel Hat Hts Hf. destruct fuel as [|fuel]; [lia|]. cbn [tokens paren Nat.ltb Nat.leb] in Hat. rewrite <- app_assoc in Hat. cbn [app] in Hat. cbn [parsepipe].
  eapply consumes_bind; [apply (Hl [] i ([BAR] :: tokens 2 r ++ ts) fuel); [exact Hat|done|by apply (bool_decide_eq_true_1 _)|lia]|]. intros c i1 Ec Hat1 Hi1.
  apply (consumes_peek _ _ _ _ _ _ _ Hat1). change (negb (head_char ([BAR] :: _) =? 0) && _) with true. cbn beta iota.
  eapply consumes_symbol; [|exact Hat1|]; [by apply (bool_decide_eq_true_1 _)|]. intros Hat2 Hlen. eapply consumes_bind; [apply (Hr _ ts fuel Hat2 Hts); lia|].
  intros c' i3 Ec' Hat3 Hi3. apply consumes_ret; [|done]. cbn. by rewrite Ec, Ec'.
Qed.
Lemma back_back c : back_at c -> back_at (BACK c).
Proof.
  intros Hb i ts fuel n Hat Hts Hf Hn. cbn [tokens paren Nat.ltb Nat.leb] in Hat. rewrite <- app_assoc in Hat. cbn [app] in Hat.
  destruct (Hb i ([AMP] :: ts) fuel n Hat) as (c' & i' & n' & E & Ec & Hat' & Hi' & Hn'); [by apply (bool_decide_eq_true_1 _)|done|done|].
  destruct (at_next i' [AMP] ts Hat') as (Hat2 & _ & _ & Hlen). cbn [length] in *. replace (i' + 1 + 1)%nat with (S (S i')) in * by lia.
  destruct n' as [|n']; [lia|]. exists (BACK c'), (S (S i')), n'. split_and!; [|by cbn; rewrite Ec|done|lia|lia]. rewrite E. cbn [back_loop].
  rewrite (bind_run _ _ _ _ _ (peek_at i' _ [AMP] Hat')). change (negb (head_char ([AMP] :: ts) =? 0) && _) with true. cbn beta iota.
  rewrite (bind_run _ _ _ (AMP, (i', S i')) (S (S i'))) by (apply (gettoken_symbol i' AMP ts); [by apply (bool_decide_eq_true_1 _)|done]). done.
Qed.
Lemma line_list l r : back_at l -> line_at r -> line_at (LIST l r).
Proof.
  intros Hl Hr i ts fuel Hat Hts Hf. destruct fuel as [|fuel]; [lia|]. cbn [tokens paren Nat.ltb Nat.leb] in Hat. rewrite <- app_assoc in Hat. cbn [app] in Hat.
  destruct (Hl i ([SEMI] :: tokens 0 r ++ ts) fuel (S (length t)) Hat) as (c' & i' & n' & E & Ec & Hat' & Hi' & Hn'); [by apply (bool_decide_eq_true_1 _)|lia|lia|].
  assert (back_loop t c' n' i' = Ok c' i') as E' by (by apply (back_loop_end _ _ _ _ Hat'); [apply (bool_decide_eq_true_1 _)|]).
  destruct (at_next i' [SEMI] _ Hat') as (Hat2 & _ & _ & Hlen). cbn [length] in *. replace (i' + 1 + 1)%nat with (S (S i')) in * by lia.
  destruct (Hr (S (S i')) ts fuel Hat2 Hts ltac:(lia)) as (c2 & i2 & E2 & Ec2 & Hat3 & Hle3). exists (LIST c' c2), i2. split_and!; [|by cbn; rewrite Ec, Ec2|done|lia].
  cbn [parseline]. rewrite bind_assoc, (bind_run _ _ _ c' i') by (by rewrite E). rewrite (bind_run _ _ _ _ _ (peek_at i' _ [SEMI] Hat')). change (negb (head_char ([SEMI] :: _) =? 0) && _) with true. cbn beta iota.
  rewrite (bind_run _ _ _ (SEMI, (i', S i')) (S (S i'))) by (apply (gettoken_symbol i' SEMI (tokens 0 r ++ ts)); [by apply (bool_decide_eq_true_1 _)|done]). by rewrite (bind_run _ _ _ _ _ E2).
Qed.
Lemma parses_at c : cmd_ok word c -> exec_at c /\ pipe_at c /\ back_at c /\ line_at c.
Proof.
  induction c as [argv|c IH file mode fd|l IHl r IHr|l IHl r IHr|c IH]; intros Hc.
  - assert (exec_at (EXEC argv)) as He by (by apply exec_simple). assert (pipe_at (EXEC argv)) as Hp by (by apply exec_pipe). assert (back_at (EXEC argv)) as Hb by (by apply pipe_back).
    split_and!; [done..|]. by apply back_line.
  - assert (exec_at (REDIR c file mode fd)) as He by (apply exec_redir; [apply IH, Hc|done]). assert (pipe_at (REDIR c file mode fd)) as Hp by (by apply exec_pipe).
    assert (back_at (REDIR c file mode fd)) as Hb by (by apply pipe_back). split_and!; [done..|]. by apply back_line.
  - destruct Hc as [Hcl Hcr]. assert (pipe_at (PIPE l r)) as Hp by (apply pipe_pipe; [by apply IHl|by apply IHr]). assert (back_at (PIPE l r)) as Hb by (by apply pipe_back).
    assert (line_at (PIPE l r)) as Hl by (by apply back_line). split_and!; [by apply line_block|done..].
  - destruct Hc as [Hcl Hcr]. assert (line_at (LIST l r)) as Hl by (apply line_list; [by apply IHl|by apply IHr]). assert (exec_at (LIST l r)) as He by (by apply line_block).
    assert (pipe_at (LIST l r)) as Hp by (by apply exec_pipe). split_and!; [done|done|by apply pipe_back|done].
  - assert (back_at (BACK c)) as Hb by (apply back_back; by apply IH). assert (line_at (BACK c)) as Hl by (by apply back_line). assert (exec_at (BACK c)) as He by (by apply line_block).
    split_and!; [done|by apply exec_pipe|done|done].
Qed.
End At.

Lemma render_nonzero ts : Forall token ts -> 0 ∉ render ts.
Proof.
  induction 1 as [|w ts Hw _ IH]; [apply not_elem_of_nil|]. rewrite render_cons, not_elem_of_app, not_elem_of_cons. split_and!; [|done|done].
  destruct Hw as [[_ Hw]|(c & -> & Hc)].
  - intros Hin. rewrite list.Forall_forall in Hw. by destruct (Hw 0 Hin).
  - intros Hin. apply elem_of_cons in Hin as [<-|Hin]; [|by inversion Hin]. by apply (bool_decide_eq_true_2 _) in Hc.
Qed.
Lemma parse_printed c : cmd_ok word c -> exists c' ps buf, parsecmd (print c) = Ok (c', buf) ps /\ cmd_map (string_at buf) c' = c.
Proof.
  intros Hc. set (t := print c). pose proof (tokens_ok c Hc 0) as Htok. assert (0 ∉ t) as Ht by (by apply render_nonzero).
  destruct (parses_at t c Hc) as (_ & _ & _ & Hl). destruct (Hl 0%nat [] (3 * length t + 3)%nat) as (c' & i' & E & Ec & (Hi & Ei & _) & _).
  { rewrite app_nil_r. split; [lia|]. done. }
  { by apply (bool_decide_eq_true_1 _). }
  { lia. }
  assert (i' = length t) as -> by (apply (f_equal length) in Ei; rewrite length_drop in Ei; cbn in Ei; lia).
  assert (cmd_ok (word_span t) c') as Hok.
  { pose proof (proj1 (parser_ok t Ht (3 * length t + 3) 0 ltac:(lia)) ltac:(lia)) as Hp. unfold parses, wpe in Hp. rewrite E in Hp. apply Hp. }
  exists c', (length t), (nulterminate c' (t ++ [0])). split; [|by rewrite (cmd_map_ext _ _ _ (nulterminate_ok t c' Ht Hok))].
  unfold parsecmd, parse. rewrite (bind_run _ _ _ c' (length t)); [done|]. rewrite (bind_run _ _ _ _ _ E).
  assert (skip t (length t) = length t) as Hs by (pose proof (skip_le t (length t)); lia). unfold peek, Prelude.gets, mbind, M_bind. rewrite Hs. cbn [id]. by rewrite Nat.eqb_refl.
Qed.
(** C12. Every command with words as strings can be printed, and the parser reads
    the printed text back: no command is lost and the grammar is not ambiguous
    for printed text. What the parser makes of any text is again such a
    command, so printing it and parsing again changes nothing. *)
Theorem parse_print_roundtrip :
  (forall c, cmd_ok word c -> exists c' ps buf, parsecmd (print c) = Ok (c', buf) ps /\ cmd_map (string_at buf) c' = c) /\
  (forall t c buf ps, 0 ∉ t -> parsecmd t = Ok (c, buf) ps ->
     exists c' ps' buf', parsecmd (print (cmd_map (string_at buf) c)) = Ok (c', buf') ps' /\ cmd_map (string_at buf') c' = cmd_map (string_at buf) c).
Proof.
  split; [exact parse_printed|]. intros t c buf ps Ht E. apply parse_printed.
  assert (wpe (parse t) (fun c _ => cmd_ok (word_span t) c) 0%nat) as H.
  { unfold parse. rewrite wpe_bind. eapply wpe_mono; [apply (parser_ok t Ht); lia|]. intros c0 ps0 [Hc _]. unfold wpe, peek, Prelude.gets, mbind, M_bind. by destruct (negb _). }
  unfold parsecmd in E. apply bind_Ok in E as (c1 & s1 & E1 & E2). unfold wpe in H. rewrite E1 in H. injection E2 as <- <- <-.
  rewrite (cmd_map_ext _ _ _ (nulterminate_ok t c1 Ht H)). apply cmd_ok_map. eapply cmd_ok_mono; [|exact H]. intros q. by apply slice_word.
Qed.
Lemma parse_print_roundtrip_witness :
  exists c' ps buf, parsecmd (print (PIPE (LIST (EXEC [str "a"]) (EXEC [str "b"; str "c"])) (REDIR (EXEC []) (str "d") O_RDONLY 0))) = Ok (c', buf) ps /\
    cmd_map (string_at buf) c' = PIPE (LIST (EXEC [str "a"]) (EXEC [str "b"; str "c"])) (REDIR (EXEC []) (str "d") O_RDONLY 0).
Proof.
  apply (proj1 parse_print_roundtrip). cbn [cmd_ok length]. unfold MAXARGS. split_and!; try lia; try (by left); apply (bool_decide_eq_true_1 _); reflexivity.
Defined.
