(* ===== verification/ShRun.v ===== *)
(** The execution of commands by the shell (sh.c): [runcmd] on descriptor
    tables, and the loop that reads command lines. *)

From Stdlib Require Import ZArith Lia Ascii.
From S2P Require Import Prelude Ulib ShParse.
From stdpp Require Import base list strings.
Open Scope Z_scope.

(** ** Processes and descriptors

    What a descriptor refers to: what the shell inherited, an end of a pipe, or
    a file that was opened. *)
Inductive obj := Inherited (n : Z) | PipeRead (n : nat) | PipeWrite (n : nat) | Opened (path : list Z) (mode : Z).
Definition fdtable : Type := list (option obj).
(** What processes do: start a program with its descriptors, or print a message. *)
Inductive event := Started (argv : list (list Z)) (fds : fdtable) | Message (to : option obj) (text : list Z).
(** The descriptors of the process that runs; the number of pipes made, and
    what happened, in all processes. *)
Record sh := mk_sh { fds : fdtable; pipes : nat; log : list event }.

Definition free_fd (l : fdtable) : option nat := fst <$> list_find (fun o => o = None) l.
Definition close (fd : nat) : M sh unit := modify (fun s => {| s with fds := <[fd := None]> (fds s) |}).
Definition install (o : obj) : M sh Z := fun s =>
  match free_fd (fds s) with
  | None => Ok (-1) s
  | Some fd => Ok (Z.of_nat fd) {| s with fds := <[fd := Some o]> (fds s) |}
  end.
Definition dup (fd : nat) : M sh Z := fun s => match fds s !! fd with Some (Some o) => install o s | _ => Ok (-1) s end.
Definition pipe : M sh (option (nat * nat)) := fun s =>
  match free_fd (fds s) with
  | None => Ok None s
  | Some p0 =>
      let l := <[p0 := Some (PipeRead (pipes s))]> (fds s) in
      match free_fd l with
      | None => Ok None s
      | Some p1 => Ok (Some (p0, p1)) (mk_sh (<[p1 := Some (PipeWrite (pipes s))]> l) (S (pipes s)) (log s))
      end
  end.
Definition happen (e : event) : M sh unit := modify (fun s => {| s with log := log s ++ [e] |}).
Definition message (text : list Z) : M sh unit := fun s => happen (Message (mjoin (fds s !! 2%nat)) text) s.
(** The child runs on a copy of the descriptors. *)
Definition fork1 (child : M sh unit) : M sh unit := fun s =>
  match child s with
  | Ok _ s' => Ok tt {| s' with fds := fds s |}
  | Panic e => Panic e
  | UB => UB
  | Diverge => Diverge
  end.

Section Run.
(** Which programs and which files there are. *)
Context (program : list Z -> bool) (exists_ : list Z -> Z -> bool).

Definition open_ (path : list Z) (mode : Z) : M sh Z := if exists_ path mode then install (Opened path mode) else mret (-1).
Definition exec (path : list Z) (argv : list (list Z)) : M sh bool := fun s =>
  if program path then (happen (Started argv (fds s)) ;; mret true) s else Ok false s.

Fixpoint runcmd (c : cmd (list Z)) : M sh unit :=
  match c with
  | EXEC [] => mret tt
  | EXEC (path :: args) =>
      started ← exec path (path :: args);
      when (negb started) (message (str "exec " ++ path ++ str " failed" ++ [NL]))
  | REDIR c file mode fd =>
      close (Z.to_nat fd) ;;
      r ← open_ file mode;
      if r <? 0 then message (str "open " ++ file ++ str " failed" ++ [NL]) else runcmd c
  | LIST l r => fork1 (runcmd l) ;; runcmd r
  | PIPE l r =>
      p ← pipe;
      match p with
      | None => message (str "pipe" ++ [NL])
      | Some (p0, p1) =>
          fork1 (close 1 ;; dup p1 ;; close p0 ;; close p1 ;; runcmd l) ;;
          fork1 (close 0 ;; dup p0 ;; close p0 ;; close p1 ;; runcmd r) ;;
          close p0 ;;
          close p1
      end
  | BACK c => fork1 (runcmd c)
  end.

(** ** What a command means

    The programs of a command with their input, output and error output. *)
Definition std (i o e : obj) : fdtable := [Some i; Some o; Some e] ++ replicate 13 None.
Fixpoint meaning (c : cmd (list Z)) (i o e : obj) (n : nat) : list event * nat :=
  match c with
  | EXEC [] => ([], n)
  | EXEC (path :: args) =>
      ([if program path then Started (path :: args) (std i o e) else Message (Some e) (str "exec " ++ path ++ str " failed" ++ [NL])], n)
  | REDIR c file mode fd =>
      if exists_ file mode then
        if fd =? 0 then meaning c (Opened file mode) o e n else meaning c i (Opened file mode) e n
      else ([Message (Some e) (str "open " ++ file ++ str " failed" ++ [NL])], n)
  | LIST l r => let '(x, n1) := meaning l i o e n in let '(y, n2) := meaning r i o e n1 in (x ++ y, n2)
  | PIPE l r => let '(x, n1) := meaning l i (PipeWrite n) e (S n) in let '(y, n2) := meaning r (PipeRead n) o e n1 in (x ++ y, n2)
  | BACK c => meaning c i o e n
  end.

Lemma wp_fork1 child (Q : unit -> sh -> Prop) s : wp child (fun _ s' => Q tt {| s' with fds := fds s |}) s -> wp (fork1 child) Q s.
Proof. unfold wp, fork1. by destruct (child s). Qed.

Lemma wp_close fd (Q : unit -> sh -> Prop) s : Q tt {| s with fds := <[fd := None]> (fds s) |} -> wp (close fd) Q s.
Proof. done. Qed.
Lemma wp_dup fd o k (Q : Z -> sh -> Prop) s :
  fds s !! fd = Some (Some o) -> free_fd (fds s) = Some k -> Q (Z.of_nat k) {| s with fds := <[k := Some o]> (fds s) |} -> wp (dup fd) Q s.
Proof. intros H1 H2 HQ. unfold wp, dup, install. by rewrite H1, H2. Qed.
Definition runs (c : cmd (list Z)) : Prop := forall i o e s (Q : unit -> sh -> Prop),
  fds s = std i o e -> (forall l, Q tt (mk_sh l (meaning c i o e (pipes s)).2 (log s ++ (meaning c i o e (pipes s)).1))) -> wp (runcmd c) Q s.
Lemma runs_exec argv : runs (EXEC argv).
Proof.
  intros i o e [f n lg] Q Hf HQ. cbn [fds pipes log] in *. subst f. destruct argv as [|path args]; [cbn in HQ |- *; by rewrite app_nil_r in HQ|]. cbn [runcmd meaning fst snd] in *. unfold exec. rewrite wp_bind. unfold wp at 1.
  destruct (program path); apply HQ.
Qed.
Lemma runs_redir c file mode fd : runs c -> fd = 0 \/ fd = 1 -> runs (REDIR c file mode fd).
Proof.
  intros Hc Hfd i o e [f n lg] Q Hf HQ. cbn [fds pipes log] in *. subst f. cbn [runcmd meaning] in *. unfold open_. destruct (exists_ file mode); cbn [fst snd] in *.
  - destruct Hfd as [-> | ->]; cbn [Z.eqb] in HQ; wp_steps; unfold wp at 1, install; cbn; [apply (Hc (Opened file mode) o e)|apply (Hc i (Opened file mode) e)]; done.
  - wp_steps. destruct Hfd as [-> | ->]; cbn; apply HQ.
Qed.
Lemma runs_list l r : runs l -> runs r -> runs (LIST l r).
Proof.
  intros Hl Hr i o e s Q Hf HQ. cbn [runcmd meaning] in *. rewrite wp_bind. apply wp_fork1. apply (Hl i o e); [done|]. intros f1. destruct (meaning l i o e (pipes s)) as [x n1] eqn:E1. cbn [fst snd] in *.
  destruct (meaning r i o e n1) as [y n2] eqn:E2. cbn [fst snd] in HQ. apply (Hr i o e); [done|]. intros f2. cbn [pipes log]. rewrite E2. cbn [fst snd]. rewrite <- app_assoc. apply HQ.
Qed.
Lemma runs_back c : runs c -> runs (BACK c).
Proof. intros Hc i o e s Q Hf HQ. cbn [runcmd meaning] in *. apply wp_fork1. apply (Hc i o e); [done|]. intros f. apply HQ. Qed.
Lemma runs_pipe l r : runs l -> runs r -> runs (PIPE l r).
Proof.
  intros Hl Hr i o e [f n lg] Q Hf HQ. cbn [fds pipes log] in *. subst f. cbn [runcmd meaning] in *.
  destruct (meaning l i (PipeWrite n) e (S n)) as [x n1] eqn:E1. destruct (meaning r (PipeRead n) o e n1) as [y n2] eqn:E2. cbn [fst snd] in HQ.
  rewrite wp_bind. apply (wp_eq _ _ _ (Some (3%nat, 4%nat)) (mk_sh ([Some i; Some o; Some e; Some (PipeRead n); Some (PipeWrite n)] ++ replicate 11 None) (S n) lg)); [reflexivity|].
  rewrite wp_bind. apply wp_fork1. do 2 (rewrite wp_bind; try apply wp_close). apply (wp_dup _ (PipeWrite n) 1); [reflexivity..|]. do 2 (rewrite wp_bind; apply wp_close). apply (Hl i (PipeWrite n) e); [reflexivity|]. intros f1. cbn [pipes log fds]. rewrite E1. cbn [fst snd].
  rewrite wp_bind. apply wp_fork1. do 2 (rewrite wp_bind; try apply wp_close). apply (wp_dup _ (PipeRead n) 0); [reflexivity..|]. do 2 (rewrite wp_bind; apply wp_close). apply (Hr (PipeRead n) o e); [reflexivity|]. intros f2. cbn [pipes log fds]. rewrite E2. cbn [fst snd].
  rewrite wp_bind. apply wp_close. apply wp_close. cbn [pipes log]. rewrite <- app_assoc. apply HQ.
Qed.
Lemma runs_all {P} c : cmd_ok P c -> runs c.
Proof.
  induction c as [argv|c IH file mode fd|l IHl r IHr|l IHl r IHr|c IH]; cbn [cmd_ok]; intros Hc.
  - apply runs_exec.
  - destruct Hc as (Hc & _ & Hk). apply runs_redir; [by apply IH|]. destruct Hk as [[= _ ->]|[= _ ->]]; tauto.
  - destruct Hc. apply runs_pipe; [by apply IHl|by apply IHr].
  - destruct Hc. apply runs_list; [by apply IHl|by apply IHr].
  - apply runs_back. by apply IH.
Qed.
End Run.

(** ** Reading command lines *)

(** A line: a change of the directory, which the shell does itself, or a
    command for a child. *)
Inductive action := ChDir (path : list Z) | RunLine (text : list Z).
Definition NBUF : Z := 100.
Section Main.
Context (chdir : list Z -> bool).
Definition getcmd : M io (list Z) := printf 2 (str "$ ") [] ;; buf ← Ulib.gets NBUF; mret (cstring buf).
(** The loop of [main]; the children do their work elsewhere. *)
Fixpoint main_loop (fuel : nat) : M io (list action) :=
  match fuel with
  | O => diverge
  | S fuel' =>
      buf ← getcmd;
      match buf with
      | [] => mret []
      | _ =>
          if decide (take 3 buf = str "cd ") then
            let path := drop 3 (take (length buf - 1) buf) in
            when (negb (chdir path)) (printf 2 (str "cannot cd %s" ++ [NL]) [AStr (Some path)]) ;;
            rest ← main_loop fuel'; mret (ChDir path :: rest)
          else rest ← main_loop fuel'; mret (RunLine buf :: rest)
      end
  end.
Definition main_ : M io (list action) := fun s => main_loop (S (input_size (input s))) s.

Lemma wp_read_one c t ok (Q : option (list Z) -> io -> Prop) s :
  stream (input s) = (c :: t, ok) -> (forall l, stream l = (t, ok) -> (input_size l < input_size (input s))%nat -> Q (Some [c]) {| s with input := l |}) -> wp (read 1) Q s.
Proof.
  intros E HQ. unfold wp, read. destruct s as [inp o br]. cbn [input output broken] in *. destruct inp as [|[b|] l]; [done| |done]. destruct b as [|c1 b]; [done|].
  cbn [stream] in E. destruct (stream l) as [t0 ok0] eqn:El. destruct b as [|c2 b].
  - cbn. injection E as -> -> ->. apply HQ; [done|]. rewrite input_size_cons. lia.
  - cbn [length]. destruct (Z.leb_spec (Z.of_nat (S (S (length b)))) 1); [lia|]. change (Z.to_nat 1) with 1%nat. cbn [take drop]. injection E as -> <- <-. apply HQ; [cbn; by rewrite El|].
    rewrite !input_size_cons. cbn. lia.
Qed.
(** A line that fits into the buffer is read whole, with its newline. *)
Lemma wp_gets_loop l : forall i max fuel rest ok s (Q : list Z -> io -> Prop),
  stream (input s) = (l ++ NL :: rest, ok) -> NL ∉ l -> 13 ∉ l -> i + Z.of_nat (length l) + 1 < max -> (length l < fuel)%nat ->
  (forall inp, stream inp = (rest, ok) -> (input_size inp < input_size (input s))%nat -> Q (l ++ [NL]) {| s with input := inp |}) -> wp (gets_loop i max fuel) Q s.
Proof.
  induction l as [|c l IH]; intros i max fuel rest ok s Q E H1 H2 Hmax Hf HQ; (destruct fuel as [|fuel]; [cbn in Hf; lia|]); cbn [gets_loop app length] in *.
  - destruct (Z.ltb_spec (i + 1) max); [|lia]. cbn [negb]. rewrite wp_bind. apply (wp_read_one _ _ _ _ _ E). intros inp Ei Hlt. cbn. by apply HQ.
  - apply not_elem_of_cons in H1 as [N1 H1], H2 as [N2 H2]. destruct (Z.ltb_spec (i + 1) max); [|lia]. cbn [negb]. rewrite wp_bind. apply (wp_read_one _ _ _ _ _ E). intros inp Ei Hlt.
    rewrite (proj2 (Z.eqb_neq c 10)), (proj2 (Z.eqb_neq c 13)) by (unfold NL in *; congruence). cbn [orb]. rewrite wp_bind. apply (IH _ _ _ rest ok); [done|done|done|lia|lia|].
    intros inp' Ei' Hlt'. apply (HQ inp'); [done|]. cbn [input] in Hlt'. lia.
Qed.
Lemma wp_gets_end i max fuel s (Q : list Z -> io -> Prop) :
  stream (input s) = ([], true) -> i + 1 < max -> (forall inp, Q [] {| s with input := inp |}) -> wp (gets_loop i max (S fuel)) Q s.
Proof.
  intros E Hmax HQ. cbn [gets_loop]. destruct (Z.ltb_spec (i + 1) max); [|lia]. cbn [negb]. rewrite wp_bind. apply read_stream; [done|by rewrite E| |].
  - intros l _. by apply HQ.
  - intros b l Hne E'. rewrite E in E'. by destruct b.
Qed.
Lemma cstring_id l : 0 ∉ l -> cstring l = l.
Proof. induction l as [|c l IH]; intros H; [done|]. apply not_elem_of_cons in H as [H1 H2]. cbn. rewrite (proj2 (Z.eqb_neq c 0)) by congruence. by rewrite IH. Qed.

Definition line_action (l : list Z) : action := if decide (take 3 (l ++ [NL]) = str "cd ") then ChDir (drop 3 l) else RunLine (l ++ [NL]).
Definition good_line (l : list Z) : Prop := NL ∉ l /\ 13 ∉ l /\ 0 ∉ l /\ (length l <= 98)%nat.
(** The shell takes the lines of its input one after the other, up to the end:
    it changes the directory itself and gives every other line to a child. *)
Theorem shell_lines (ls : list (list Z)) s :
  broken s = false -> stream (input s) = (concat ((fun l => l ++ [NL]) <$> ls), true) -> Forall good_line ls ->
  wp main_ (fun actions _ => actions = line_action <$> ls) s.
Proof.
  intros Hb E Hl. unfold main_. match goal with |- wp _ ?Q s => change (wp (main_loop (S (input_size (input s)))) Q s) end.
  assert (input_size (input s) < S (input_size (input s)))%nat as Hf by lia. revert Hf. generalize (S (input_size (input s))) as fuel. revert s Hb E.
  induction Hl as [|l ls (N1 & N2 & N3 & Hlen) _ IH]; intros s Hb E fuel Hf; (destruct fuel as [|fuel]; [lia|]); cbn [main_loop]; unfold getcmd; rewrite !wp_bind.
  all: (eapply wp_printf; [reflexivity|done|]); intros s1 W1; pose proof (wr_input _ _ _ _ _ W1) as Ei; pose proof (wr_broken _ _ _ _ _ W1) as Eb; rewrite wp_bind; unfold Ulib.gets, NBUF.
  - apply (wp_gets_end 0 100 99); [by rewrite Ei|done|]. intros inp. done.
  - rewrite fmap_cons in E. cbn [concat] in E. rewrite <- app_assoc in E. apply (wp_gets_loop l 0 100 100 (concat ((fun l => l ++ [NL]) <$> ls)) true); [by rewrite Ei|done|done|lia|lia|].
    intros inp Einp Hlt. rewrite wp_ret, cstring_id by (rewrite not_elem_of_app, not_elem_of_cons; split_and!; [done|done|apply not_elem_of_nil]). rewrite fmap_cons. unfold line_action at 1. rewrite Ei in Hlt.
    assert (exists c b, l ++ [NL] = c :: b) as (c & b & Ecb) by (destruct l; cbn; eauto). rewrite Ecb at 1. cbn beta iota.
    assert (drop 3 (take (length (l ++ [NL]) - 1) (l ++ [NL])) = drop 3 l) as Ed by (rewrite length_app; cbn [length]; rewrite Nat.add_sub, take_app_length; done).
    rewrite Ed. destruct (decide _) as [Ecd|Ecd].
    + rewrite wp_bind. assert (forall s2, broken s2 = false -> input s2 = inp -> wp (rest ← main_loop fuel; mret (ChDir (drop 3 l) :: rest)) (fun actions _ => actions = ChDir (drop 3 l) :: (line_action <$> ls)) s2) as Hgo.
      { intros s2 Hb2 Hi2. rewrite wp_bind. eapply wp_mono; [apply IH; [done|by rewrite Hi2|rewrite Hi2; lia]|]. intros r s' ->. done. }
      rewrite wp_when. destruct (chdir (drop 3 l)); cbn [negb]; [apply Hgo; [cbn; congruence|done]|]. eapply wp_printf; [reflexivity|cbn; congruence|]. intros s2 W2. apply Hgo; [rewrite (wr_broken _ _ _ _ _ W2); cbn; congruence|by rewrite (wr_input _ _ _ _ _ W2)].
    + rewrite wp_bind. eapply wp_mono; [apply IH; [cbn; congruence|done|cbn [input]; lia]|]. intros r s' ->. done.
Qed.
End Main.
Lemma shell_lines_witness :
  wp (main_ (fun _ => true)) (fun actions _ => actions = [ChDir (str "bin"); RunLine (str "ls | wc" ++ [NL])]) (mk_io [Bytes (str "cd bin" ++ [NL] ++ str "ls"); Bytes (str " | wc" ++ [NL])] [] false).
Proof.
  eapply wp_mono; [apply (shell_lines (fun _ => true) [str "cd bin"; str "ls | wc"]); [done|reflexivity|]|].
  - repeat constructor; try (cbn; lia); apply (bool_decide_eq_true_1 _); reflexivity.
  - intros r s' ->. reflexivity.
Defined.
