(* ===== verification/Uprog.v ===== *)
(** The rest of the user library (the functions of ulib.c that move bytes, and
    [stat]), init.c, and the programs rm, mkdir, ln and kill: the shell is
    started with the console as its three descriptors, and again whenever it
    ends; rm and mkdir stop at the first name that fails. *)

From Stdlib Require Import ZArith Lia Ascii.
From stdpp Require Import base gmap list strings.
From S2P Require Import Memory Ulib ShParse ShRun Prelude.
Open Scope Z_scope.

(** ** Moving bytes (ulib.c) *)

Module Bytes.

(** Copies up to and with the zero. *)
Fixpoint strcpy (m : gmap Z Z) (s t : Z) (fuel : nat) : option (gmap Z Z) :=
  match fuel with
  | O => None
  | S fuel' => let c := load8 m t in let m' := store8 m s c in if c =? 0 then Some m' else strcpy m' (s + 1) (t + 1) fuel'
  end.
Definition memset (m : gmap Z Z) (dst c n : Z) : gmap Z Z := stosb m dst c (Z.to_nat n).
(** From the first byte to the last, whatever the ranges. *)
Definition memmove (m : gmap Z Z) (dst src n : Z) : gmap Z Z := copy_up m dst src (Z.to_nat n).

(** The string [t] is at address [a]. *)
Definition string_at (m : gmap Z Z) (a : Z) (t : list Z) : Prop := load_bytes m a (S (length t)) = t ++ [0] /\ Forall (fun c => c ≠ 0) t.

Lemma strcpy_copies t : forall m s a fuel, string_at m a t -> s + Z.of_nat (length t) < a \/ a + Z.of_nat (length t) < s -> (length t < fuel)%nat ->
  exists m', strcpy m s a fuel = Some m' /\ forall x, load8 m' x = if decide (s <= x <= s + Z.of_nat (length t)) then load8 m (a + (x - s)) else load8 m x.
Proof.
  induction t as [|c t IH]; intros m s a fuel [Hb Hnz] Hd Hf; (destruct fuel as [|fuel]; [cbn in Hf; lia|]); cbn [strcpy length load_bytes app] in *.
  - injection Hb as Hb. rewrite Hb. cbn [Z.eqb]. eexists. split; [done|]. intros x. rewrite load8_store8. repeat case_decide; try lia. replace (a + (x - s)) with a by lia. by rewrite Hb.
  - injection Hb as Hc Hb. apply list.Forall_cons in Hnz as [Hc0 Hnz]. rewrite Hc. destruct (Z.eqb_spec c 0); [done|].
    assert (0 <= c < 256) as Hr by (rewrite <- Hc; apply load8_range).
    destruct (IH (store8 m s c) (s + 1) (a + 1) fuel) as (m' & E & H); [split; [|done]|lia|lia|].
    { change (load8 m (a + 1) :: load_bytes m (a + 1 + 1) (length t)) with (load_bytes m (a + 1) (S (length t))) in Hb. rewrite <- Hb. apply load_bytes_ext. intros i Hi. rewrite load8_store8. case_decide; [lia|done]. }
    exists m'. split; [done|]. intros x. rewrite H, !load8_store8. repeat case_decide; try lia; [f_equal; lia|]. subst x. rewrite Z.sub_diag, Z.add_0_r, Hc. unfold u8. by apply Z.mod_small.
Qed.

(** The user library's [memmove] moves as the kernel's does when the ranges do
    not overlap or it moves down. *)
Lemma memmove_moves m dst src n x : 0 <= n -> dst <= src \/ src + n <= dst ->
  load8 (memmove m dst src n) x = if decide (dst <= x < dst + n) then load8 m (src + (x - dst)) else load8 m x.
Proof. intros Hn Hd. unfold memmove. rewrite load8_copy_up by lia. by rewrite Z2Nat.id by lia. Qed.
Lemma copy_up_below n : forall m d s x, x < d -> load8 (copy_up m d s n) x = load8 m x.
Proof. induction n as [|n IH]; intros m d s x Hx; cbn [copy_up]; [done|]. rewrite IH by lia. rewrite load8_store8. by rewrite decide_False by lia. Qed.
(** Moving up by one byte repeats the first byte instead. *)
Theorem memmove_smears m a n : 0 <= n -> forall x, a <= x <= a + n -> load8 (memmove m (a + 1) a n) x = load8 m a.
Proof.
  intros Hn x Hx. unfold memmove. assert (a <= x <= a + Z.of_nat (Z.to_nat n)) as Hx' by lia. clear Hx Hn. revert m a x Hx'. generalize (Z.to_nat n) as k. clear n.
  induction k as [|k IH]; intros m a x Hx; cbn [copy_up]; [by replace x with a by lia|].
  pose proof (load8_range m a) as Hr. destruct (decide (x = a)) as [->|Hne]; [rewrite copy_up_below, load8_store8, decide_False by lia; done|].
  rewrite (IH (store8 m (a + 1) (load8 m a)) (a + 1) x) by lia. rewrite load8_store8, decide_True by done. unfold u8. by apply Z.mod_small.
Qed.
Lemma memmove_smears_witness : load8 (memmove (store_bytes ∅ 100 [1; 2; 3; 4]) (100 + 1) 100 3) 103 = 1.
Proof. rewrite (memmove_smears (store_bytes ∅ 100 [1; 2; 3; 4]) 100 3 ltac:(lia) 103 ltac:(lia)). reflexivity. Defined.
End Bytes.

(** [stat] of ulib.c, on the calls of the kernel: [st] is what [fstat] says. *)
Section Stat.
Context {S St : Type} (open_ : list Z -> Z -> M S Z) (fstat : Z -> M S (Z * St)) (close : Z -> M S Z).
Definition ustat (n : list Z) (st : St) : M S (Z * St) :=
  fd ← open_ n 0;
  if fd <? 0 then mret (-1, st) else
  r ← fstat fd;
  close fd ;;
  mret r.
(** The descriptor is closed, whatever [fstat] says; without the file there is
    no further call. *)
Lemma ustat_spec n st s fd s1 :
  open_ n 0 s = Ok fd s1 ->
  ustat n st s = if fd <? 0 then Ok (-1, st) s1 else match fstat fd s1 with Ok r s2 => match close fd s2 with Ok _ s3 => Ok r s3 | Panic e => Panic e | UB => UB | Diverge => Diverge end | Panic e => Panic e | UB => UB | Diverge => Diverge end.
Proof. intros E. unfold ustat, mbind, M_bind. rewrite E. by destruct (fd <? 0). Qed.
End Stat.

(** ** The console (init.c and sh.c) *)

Definition CONSOLE : list Z := str "console".
Definition O_RDWR : Z := 2.
(** Where [open] and [mknod] look: the files there are. *)
Record world := mk_world { proc : sh; files : list (list Z) }.
Definition on_proc {A} (m : M sh A) : M world A := zoom proc (fun t s => {| s with proc := t |}) m.
Definition wopen (path : list Z) (mode : Z) : M world Z := fun s =>
  on_proc (ShRun.open_ (fun p _ => bool_decide (p ∈ files s)) path mode) s.
Definition wmknod (path : list Z) : M world Z := fun s =>
  if bool_decide (path ∈ files s) then Ok (-1) s else Ok 0 {| s with files := path :: files s |}.

(** The start of init: init.c lines 16 to 21. *)
Definition init_console : M world unit :=
  r ← wopen CONSOLE O_RDWR;
  when (r <? 0) (wmknod CONSOLE ;; wopen CONSOLE O_RDWR ;; mret tt) ;;
  on_proc (dup 0) ;;
  on_proc (dup 0) ;;
  mret tt.
(** The start of the shell: it opens the console until three descriptors are
    open. *)
Fixpoint sh_console (fuel : nat) : M world unit :=
  match fuel with
  | O => diverge
  | S fuel' =>
      fd ← wopen CONSOLE O_RDWR;
      if negb (0 <=? fd) then mret tt else
      if 3 <=? fd then on_proc (close (Z.to_nat fd)) else sh_console fuel'
  end.

Definition console : obj := Opened CONSOLE O_RDWR.
Definition at_fds (l : fdtable) (n : nat) (lg : list event) (fs : list (list Z)) : world := mk_world (mk_sh l n lg) fs.
(** [k] descriptors of the console. *)
Definition consoles (k : nat) : fdtable := replicate k (Some console) ++ replicate (16 - k) None.
Lemma wp_wopen k n lg fs (Q : Z -> world -> Prop) :
  (k < 16)%nat -> CONSOLE ∈ fs -> Q (Z.of_nat k) (at_fds (consoles (S k)) n lg fs) -> wp (wopen CONSOLE O_RDWR) Q (at_fds (consoles k) n lg fs).
Proof.
  intros Hk Hin HQ. unfold wp, wopen, ShRun.open_. cbn [files at_fds]. rewrite bool_decide_true by done. do 16 (destruct k as [|k]; [exact HQ|]). lia.
Qed.
Lemma wp_dup_console k n lg fs (Q : Z -> world -> Prop) :
  (0 < k < 16)%nat -> Q (Z.of_nat k) (at_fds (consoles (S k)) n lg fs) -> wp (on_proc (dup 0)) Q (at_fds (consoles k) n lg fs).
Proof. intros Hk HQ. destruct k as [|k]; [lia|]. unfold wp. do 15 (destruct k as [|k]; [exact HQ|]). lia. Qed.
Lemma wp_sh_console fuel : forall k n lg fs (Q : unit -> world -> Prop),
  (k <= 3)%nat -> (3 - k < fuel)%nat -> CONSOLE ∈ fs -> Q tt (at_fds (std console console console) n lg fs) -> wp (sh_console fuel) Q (at_fds (consoles k) n lg fs).
Proof.
  induction fuel as [|fuel IH]; intros k n lg fs Q Hk Hf Hin HQ; [lia|]. cbn [sh_console]. rewrite wp_bind. apply wp_wopen; [lia|done|]. rewrite (proj2 (Z.leb_le 0 (Z.of_nat k))) by lia. cbn [negb].
  destruct (decide (k = 3%nat)) as [->|Hne]; [exact HQ|]. rewrite (proj2 (Z.leb_gt 3 (Z.of_nat k))) by lia. apply (IH (S k)); [lia|lia|done|done].
Qed.
(** From a process without descriptors, whether the device file is there or
    not, init and then the shell that it starts have the console as input,
    output and error output, and nothing else. *)
Theorem shell_has_console fs n lg :
  wp (init_console ;; sh_console 4) (fun _ s => fds (proc s) = std console console console /\ CONSOLE ∈ files s) (at_fds (consoles 0) n lg fs).
Proof.
  assert (forall fs, CONSOLE ∈ fs -> wp (on_proc (dup 0) ;; on_proc (dup 0) ;; mret tt) (fun _ s1 => wp (sh_console 4) (fun _ s => fds (proc s) = std console console console /\ CONSOLE ∈ files s) s1) (at_fds (consoles 1) n lg fs)) as Hrest.
  { intros fs' Hin. rewrite wp_bind. apply wp_dup_console; [lia|]. rewrite wp_bind. apply wp_dup_console; [lia|]. apply wp_ret, wp_sh_console; [lia|lia|done|]. done. }
  rewrite wp_bind. unfold init_console. rewrite wp_bind. destruct (decide (CONSOLE ∈ fs)) as [Hin|Hin].
  - apply wp_wopen; [lia|done|]. rewrite wp_bind, wp_when. cbn [Z.ltb Z.compare Z.of_nat]. by apply Hrest.
  - assert (wopen CONSOLE O_RDWR (at_fds (consoles 0) n lg fs) = Ok (-1) (at_fds (consoles 0) n lg fs)) as E by (unfold wopen, ShRun.open_; cbn [files at_fds]; by rewrite bool_decide_false).
    rewrite (wp_eq _ _ _ _ _ E), wp_bind, wp_when. cbn [Z.ltb Z.compare]. assert (wmknod CONSOLE (at_fds (consoles 0) n lg fs) = Ok 0 (at_fds (consoles 0) n lg (CONSOLE :: fs))) as E2 by (unfold wmknod; cbn [files at_fds]; by rewrite bool_decide_false).
    rewrite wp_bind, (wp_eq _ _ _ _ _ E2), wp_bind. apply wp_wopen; [lia|by left|]. apply wp_ret, Hrest. by left.
Qed.

(** ** The loop of init *)

(** The coming results of [fork] and [wait], what was printed, and the processes
    that run the shell. *)
Record initst := mk_initst { forks : list Z; waits : list Z; said : list (list Z); shells : list Z }.
Definition say (t : list Z) : M initst unit := modify (fun s => {| s with said := said s ++ [t] |}).
Definition fork_ : M initst Z := fun s => match forks s with [] => Ok (-1) s | p :: l => Ok p {| s with forks := l |} end.
Definition wait_ : M initst Z := fun s => match waits s with [] => Ok (-1) s | p :: l => Ok p {| s with waits := l |} end.
Definition STARTING : list Z := str "init: starting sh" ++ [NL].
Definition ZOMBIE : list Z := str "zombie!" ++ [NL].
Definition FORK_FAILED : list Z := str "init: fork failed" ++ [NL].
Fixpoint reap (pid : Z) (fuel : nat) : M initst unit :=
  match fuel with
  | O => diverge
  | S fuel' => wpid ← wait_; if (0 <=? wpid) && negb (wpid =? pid) then say ZOMBIE ;; reap pid fuel' else mret tt
  end.
Fixpoint init_loop (fuel : nat) : M initst unit :=
  match fuel with
  | O => diverge
  | S fuel' =>
      say STARTING ;;
      pid ← fork_;
      if pid <? 0 then say FORK_FAILED else
      modify (fun s => {| s with shells := shells s ++ [pid] |}) ;;
      n ← gets (fun s => length (waits s));
      reap pid (S n) ;;
      init_loop fuel'
  end.

(** A life of the system: each shell with the orphans that ended before it. *)
Definition life_ok (l : list (Z * list Z)) : Prop := Forall (fun x => 0 < x.1 /\ Forall (fun z => 0 < z /\ z ≠ x.1) x.2) l.
Definition life_waits (l : list (Z * list Z)) : list Z := mjoin ((fun x => x.2 ++ [x.1]) <$> l).
Definition life_said (l : list (Z * list Z)) : list (list Z) := mjoin ((fun x => STARTING :: replicate (length x.2) ZOMBIE) <$> l).

Lemma wp_reap pid zs : forall fuel s rest (Q : unit -> initst -> Prop),
  0 < pid -> Forall (fun z => 0 < z /\ z ≠ pid) zs -> waits s = zs ++ pid :: rest -> (length zs < fuel)%nat ->
  Q tt {| s with waits := rest; said := said s ++ replicate (length zs) ZOMBIE |} -> wp (reap pid fuel) Q s.
Proof.
  induction zs as [|z zs IH]; intros fuel s rest Q Hp Hz Hw Hf HQ; (destruct fuel as [|fuel]; [cbn in Hf; lia|]); cbn [reap app] in *; rewrite wp_bind; unfold wp at 1, wait_; rewrite Hw.
  - rewrite Z.eqb_refl, andb_false_r. apply wp_ret. cbn [length replicate] in HQ. by rewrite app_nil_r in HQ.
  - apply list.Forall_cons in Hz as [[Hz1 Hz2] Hz]. rewrite (proj2 (Z.leb_le 0 z)), (proj2 (Z.eqb_neq z pid)) by (done || lia). cbn [negb andb]. unfold say. rewrite wp_bind, wp_modify. cbn [length] in Hf.
    apply (IH _ _ rest); try done; [lia|]. cbn [said forks waits shells]. cbn [length replicate] in HQ. by rewrite <- app_assoc.
Qed.
Lemma wp_init_loop l : forall fuel s (Q : unit -> initst -> Prop),
  life_ok l -> forks s = l.*1 -> waits s = life_waits l -> (length l < fuel)%nat ->
  Q tt (mk_initst [] [] (said s ++ life_said l ++ [STARTING; FORK_FAILED]) (shells s ++ l.*1)) -> wp (init_loop fuel) Q s.
Proof.
  induction l as [|[pid zs] l IH]; intros fuel s Q Hl Hf Hw Hfuel HQ; (destruct fuel as [|fuel]; [cbn in Hfuel; lia|]); cbn [init_loop]; unfold say; rewrite wp_bind, wp_modify, wp_bind; unfold wp at 1, fork_; cbn [forks]; rewrite Hf; cbn [fmap list_fmap fst].
  - cbn [Z.ltb Z.compare]. apply wp_modify. cbn [said forks waits shells]. rewrite Hw, <- app_assoc. cbn in HQ |- *. by rewrite app_nil_r in HQ.
  - apply list.Forall_cons in Hl as [[Hp Hz] Hl]. cbn [fst snd] in Hp, Hz. rewrite (proj2 (Z.ltb_ge pid 0)) by lia. rewrite wp_bind, wp_modify, wp_bind, wp_gets, wp_bind. cbn [waits forks said shells]. rewrite Hw. cbn [length] in Hfuel.
    change (life_waits ((pid, zs) :: l)) with ((zs ++ [pid]) ++ life_waits l). rewrite <- app_assoc. cbn [app]. apply (wp_reap pid zs _ _ (life_waits l)); try done; [rewrite length_app; lia|].
    apply IH; try done; [lia|]. cbn [said shells]. change (life_said ((pid, zs) :: l)) with ((STARTING :: replicate (length zs) ZOMBIE) ++ life_said l) in HQ. cbn [fmap list_fmap fst app] in HQ. rewrite <- app_assoc in HQ. rewrite <- !(app_assoc (said s)), <- (app_assoc (shells s)). exact HQ.
Qed.
(** init starts a shell, reports every orphan that ends before it, and starts
    the next shell when, and only when, the shell has ended; it stops when
    there is no process for a shell. *)
Theorem init_restarts_shell l fuel :
  life_ok l -> (length l < fuel)%nat ->
  init_loop fuel (mk_initst l.*1 (life_waits l) [] []) = Ok tt (mk_initst [] [] (life_said l ++ [STARTING; FORK_FAILED]) l.*1).
Proof.
  intros Hl Hf. assert (wp (init_loop fuel) (fun _ s => s = mk_initst [] [] (life_said l ++ [STARTING; FORK_FAILED]) l.*1) (mk_initst l.*1 (life_waits l) [] [])) as H by (by apply (wp_init_loop l)).
  apply wp_Ok in H as ([] & s & -> & ->). done.
Qed.
Lemma init_restarts_shell_witness : init_loop 3 (mk_initst [2; 7] [5; 6; 2; 7] [] []) = Ok tt (mk_initst [] [] [STARTING; ZOMBIE; ZOMBIE; STARTING; STARTING; FORK_FAILED] [2; 7]).
Proof. apply (init_restarts_shell [(2, [5; 6]); (7, [])] 3); [by repeat constructor|cbn; lia]. Defined.

(** ** rm, mkdir, ln and kill *)

(** The programs use one call of the kernel each, on a state [K], and print
    what failed. *)
Section Programs.
Context {K : Type} (unlink mkdir : list Z -> K -> Z * K) (link : list Z -> list Z -> K -> Z * K) (kill : Z -> K -> Z * K).
Definition kcall {A} (f : K -> A * K) : M (K * io) A := fun s => let '(r, k) := f s.1 in Ok r (k, s.2).
Definition complain (fmt : list Z) (args : list (list Z)) : M (K * io) unit :=
  zoom snd (fun t s => (s.1, t)) (printf 2 fmt ((fun a => AStr (Some a)) <$> args)).
Fixpoint names_loop (f : list Z -> K -> Z * K) (msg : list Z) (args : list (list Z)) : M (K * io) unit :=
  match args with
  | [] => mret tt
  | a :: args' => r ← kcall (f a); if r <? 0 then complain msg [a] else names_loop f msg args'
  end.
Definition RM_FAILED : list Z := str "rm: %s failed to delete" ++ [NL].
Definition rm_main (args : list (list Z)) : M (K * io) unit :=
  match args with [] => complain (str "Usage: rm files..." ++ [NL]) [] | _ => names_loop unlink RM_FAILED args end.
Definition MKDIR_FAILED : list Z := str "mkdir: %s failed to create" ++ [NL].
Definition mkdir_main (args : list (list Z)) : M (K * io) unit :=
  match args with [] => complain (str "Usage: mkdir files..." ++ [NL]) [] | _ => names_loop mkdir MKDIR_FAILED args end.
Definition ln_main (args : list (list Z)) : M (K * io) unit :=
  match args with
  | [old; new] => r ← kcall (link old new); when (r <? 0) (complain (str "link %s %s: failed" ++ [NL]) [old; new])
  | _ => complain (str "Usage: ln old new" ++ [NL]) []
  end.
Definition kill_main (args : list (list Z)) : M (K * io) unit :=
  match args with
  | [] => complain (str "usage: kill pid..." ++ [NL]) []
  | _ => for_each args (fun a => kcall (kill (atoi a)) ;; mret tt)
  end.

(** The calls for the names up to the first that fails. *)
Inductive calls (f : list Z -> K -> Z * K) : K -> list (list Z) -> K -> Prop :=
| calls_none k : calls f k [] k
| calls_ok k a args r k' k2 : f a k = (r, k') -> 0 <= r -> calls f k' args k2 -> calls f k (a :: args) k2.

Lemma wp_complain fmt args t s (Q : unit -> K * io -> Prop) :
  Ulib.render fmt ((fun a => AStr (Some a)) <$> args) = Some t -> broken s.2 = false ->
  (forall o, received 2 o = received 2 s.2 ++ t -> Q tt (s.1, o)) -> wp (complain fmt args) Q s.
Proof. intros Hr Hb HQ. unfold complain. apply wp_zoom. eapply wp_printf; [exact Hr|done|]. intros o W. apply HQ. by rewrite (wr_fd _ _ _ _ _ W). Qed.
Lemma wp_names_app f msg args args' k k1 o (Q : unit -> K * io -> Prop) :
  calls f k args k1 -> wp (names_loop f msg args') Q (k1, o) -> wp (names_loop f msg (args ++ args')) Q (k, o).
Proof.
  intros Hc. revert Q. induction Hc as [k|k a args r k' k2 Hf Hr _ IH]; intros Q HQ; cbn [names_loop app]; [done|]. rewrite wp_bind. unfold wp at 1, kcall. cbn [fst snd]. rewrite Hf, (proj2 (Z.ltb_ge r 0)) by done. by apply IH.
Qed.
Lemma rm_all args k k1 o : args ≠ [] -> calls unlink k args k1 -> rm_main args (k, o) = Ok tt (k1, o).
Proof.
  intros Hn Hc. destruct args as [|a args]; [done|]. unfold rm_main. assert (wp (names_loop unlink RM_FAILED (a :: args)) (fun _ s => s = (k1, o)) (k, o)) as H.
  { rewrite <- (app_nil_r (a :: args)). eapply wp_names_app; [exact Hc|]. by apply wp_ret. }
  apply wp_Ok in H as ([] & s & -> & ->). done.
Qed.
(** rm removes the names before the first that fails, reports that one and
    leaves the rest. *)
Theorem rm_stops args a rest k k1 r k2 o :
  calls unlink k args k1 -> unlink a k1 = (r, k2) -> r < 0 -> broken o = false ->
  wp (rm_main (args ++ a :: rest)) (fun _ s => s.1 = k2 /\ received 2 s.2 = received 2 o ++ str "rm: " ++ a ++ str " failed to delete" ++ [NL]) (k, o).
Proof.
  intros Hc Hf Hr Hb. assert (rm_main (args ++ a :: rest) = names_loop unlink RM_FAILED (args ++ a :: rest)) as -> by (by destruct args).
  eapply wp_names_app; [exact Hc|]. cbn [names_loop]. rewrite wp_bind. unfold wp at 1, kcall. cbn [fst snd]. rewrite Hf, (proj2 (Z.ltb_lt r 0)) by done.
  eapply wp_complain; [reflexivity|done|]. intros o' Ho. split; [done|]. cbn [snd] in Ho |- *. rewrite Ho. cbn. by rewrite <- ?app_assoc.
Qed.
End Programs.

(** On a set of names. *)
Definition unlink_set (a : list Z) (k : gset (list Z)) : Z * gset (list Z) := if decide (a ∈ k) then (0, k ∖ {[a]}) else (-1, k).
Lemma rm_stops_witness :
  wp (rm_main unlink_set [str "a"; str "b"; str "c"]) (fun _ s => s.1 = {[str "c"]} /\ received 2 s.2 = str "rm: b failed to delete" ++ [NL]) ({[str "a"; str "c"]}, mk_io [] [] false).
Proof.
  eapply wp_mono; [apply (rm_stops unlink_set [str "a"] (str "b") [str "c"] {[str "a"; str "c"]} {[str "c"]} (-1) {[str "c"]} (mk_io [] [] false)); [|by vm_compute|lia|done]|].
  - eapply calls_ok; [by vm_compute|lia|constructor].
  - cbn beta. intros _ s' [-> ->]. done.
Defined.
