(* ===== verification/Kbd.v ===== *)
(** The keyboard (kbd.c, kbd.h): from the codes of the keys to characters. The
    controller is the list of the bytes it has not delivered. Typing a text on
    the keyboard delivers the text, whatever the case lock. *)

From stdpp Require Import base list strings.
From Stdlib Require Import ZArith Lia.
From S2P Require Import Prelude Ulib.
Open Scope Z_scope.

(** ** Tables *)

Definition NO : Z := 0.
Definition SHIFT : Z := 1.
Definition CTL : Z := 2.
Definition ALT : Z := 4.
Definition CAPSLOCK : Z := 8.
Definition NUMLOCK : Z := 16.
Definition SCROLLLOCK : Z := 32.
Definition E0ESC : Z := 64.
(** [C(x)] *)
Definition ctl (x : Z) : Z := x - 64.

(** An array that begins with [l] and has the designated entries [d]. *)
Definition array (l : list Z) (d : list (Z * Z)) (i : Z) : Z :=
  match list_find (fun p => p.1 = i) d with
  | Some (_, (_, v)) => v
  | None => nth (Z.to_nat i) l 0
  end.
Definition shiftcode : Z -> Z := array [] [(0x1D, CTL); (0x2A, SHIFT); (0x36, SHIFT); (0x38, ALT); (0x9D, CTL); (0xB8, ALT)].
Definition togglecode : Z -> Z := array [] [(0x3A, CAPSLOCK); (0x45, NUMLOCK); (0x46, SCROLLLOCK)].
(** The arrow and paging keys. *)
Definition keys : list (Z * Z) :=
  [(0xC8, 0xE2); (0xD0, 0xE3); (0xC9, 0xE6); (0xD1, 0xE7); (0xCB, 0xE4); (0xCD, 0xE5); (0x97, 0xE0); (0xCF, 0xE1); (0xD2, 0xE8); (0xD3, 0xE9)].
Definition normalmap : Z -> Z := array
  ([NO; 27] ++ str "1234567890-=" ++ [8; 9] ++ str "qwertyuiop[]" ++ [10; NO] ++ str "asdfghjkl;'`" ++ [NO] ++ str "\zxcvbnm,./" ++ [NO; 42; NO; 32]
   ++ replicate 13 NO ++ str "789-456+1230.")
  ([(0x9C, 10); (0xB5, 47)] ++ keys).
Definition shiftmap : Z -> Z := array
  ([NO; 27] ++ str "!@#$%^&*()_+" ++ [8; 9] ++ str "QWERTYUIOP{}" ++ [10; NO] ++ str "ASDFGHJKL:" ++ [34; 126; NO] ++ str "|ZXCVBNM<>?" ++ [NO; 42; NO; 32]
   ++ replicate 13 NO ++ str "789-456+1230.")
  ([(0x9C, 10); (0xB5, 47)] ++ keys).
Definition ctlmap : Z -> Z := array
  (replicate 16 NO ++ (ctl <$> str "QWERTYUIOP") ++ [NO; NO; 13; NO] ++ (ctl <$> str "ASDFGHJKL") ++ [NO; NO; NO; NO] ++ (ctl <$> str "\ZXCVBNM") ++ [NO; NO; u8 (ctl 47); NO; NO])
  ([(0x9C, 13); (0xB5, u8 (ctl 47))] ++ keys).

(** ** Operations *)

(** The bytes in the controller, and the static variable [shift]. *)
Record kbd := mk_kbd { codes : list Z; shift : Z }.

Definition charcode (i : Z) : Z -> Z := if i =? 0 then normalmap else if i =? 1 then shiftmap else ctlmap.
(** A byte that arrives when the shift state is [sh]. *)
Definition kbd_byte (sh data : Z) : Z * Z :=
  if data =? 0xE0 then (Z.lor sh E0ESC, 0) else
  if has data 0x80 then
    let data := if has sh E0ESC then data else Z.land data 0x7F in
    (clr sh (Z.lor (shiftcode data) E0ESC), 0)
  else
    let '(data, sh) := if has sh E0ESC then (Z.lor data 0x80, clr sh E0ESC) else (data, sh) in
    let sh := Z.lxor (Z.lor sh (shiftcode data)) (togglecode data) in
    let c := charcode (Z.land sh (Z.lor CTL SHIFT)) data in
    let c := if has sh CAPSLOCK then
        if (97 <=? c) && (c <=? 122) then c - 32
        else if (65 <=? c) && (c <=? 90) then c + 32 else c
      else c in
    (sh, c).
Definition kbdgetc : M kbd Z := fun s =>
  match codes s with
  | [] => Ok (-1) s
  | data :: l => let '(sh, c) := kbd_byte (shift s) data in Ok c (mk_kbd l sh)
  end.
(** What the loop of [consoleintr] gets from [kbdgetc] before -1. *)
Fixpoint kbd_chars (l : list Z) (sh : Z) : list Z * Z :=
  match l with
  | [] => ([], sh)
  | data :: l' => let '(sh, c) := kbd_byte sh data in let '(cs, sh) := kbd_chars l' sh in (c :: cs, sh)
  end.

(** ** Typing *)

Lemma array_range l d i :
  Forall (fun c => 0 <= c < 256) l -> Forall (fun p => 0 <= p.2 < 256) d -> 0 <= array l d i < 256.
Proof.
  intros Hl Hd. unfold array. destruct (list_find _ d) as [[n [k v]]|] eqn:E.
  - apply list_find_Some in E as (E & _). rewrite list.Forall_forall in Hd. apply (Hd (k, v)). by eapply list_elem_of_lookup_2.
  - destruct (nth_in_or_default (Z.to_nat i) l 0) as [Hin| ->]; [|lia]. rewrite list.Forall_forall in Hl. by apply Hl, list_elem_of_In.
Qed.
(** Every result is a byte. *)
Lemma kbd_byte_range sh d : 0 <= (kbd_byte sh d).2 < 256.
Proof.
  assert (forall i d, 0 <= charcode i d < 256) as Hc.
  { intros i d'. unfold charcode. destruct (i =? 0); [|destruct (i =? 1)]; apply array_range; apply (bool_decide_eq_true_1 _); reflexivity. }
  unfold kbd_byte. destruct (d =? 0xE0); [cbn; lia|]. destruct (has d 0x80); [cbn; lia|]. destruct (if has sh E0ESC then _ else _) as [d' sh']. cbn zeta. cbn [snd].
  match goal with |- context [charcode ?i ?x] => pose proof (Hc i x); set (c := charcode i x) in * end. destruct (has _ CAPSLOCK); [|done].
  destruct (Z.leb_spec 97 c), (Z.leb_spec c 122), (Z.leb_spec 65 c), (Z.leb_spec c 90); cbn [andb]; lia.
Qed.
Lemma kbd_chars_range l : forall sh, Forall (fun c => 0 <= c < 256) (kbd_chars l sh).1.
Proof.
  induction l as [|d l IH]; intros sh; [constructor|]. cbn [kbd_chars]. pose proof (kbd_byte_range sh d) as Hr. destruct (kbd_byte sh d) as [sh1 c].
  specialize (IH sh1). destruct (kbd_chars l sh1). by constructor.
Qed.

Lemma kbdgetc_chars l : forall sh,
  match l with
  | [] => kbdgetc (mk_kbd l sh) = Ok (-1) (mk_kbd [] sh)
  | d :: l' => kbdgetc (mk_kbd l sh) = Ok (kbd_byte sh d).2 (mk_kbd l' (kbd_byte sh d).1)
  end.
Proof. intros sh. destruct l; [done|]. unfold kbdgetc. cbn. by destruct (kbd_byte sh z). Qed.
Lemma kbd_chars_app l l' sh :
  kbd_chars (l ++ l') sh = ((kbd_chars l sh).1 ++ (kbd_chars l' (kbd_chars l sh).2).1, (kbd_chars l' (kbd_chars l sh).2).2).
Proof.
  revert sh. induction l as [|d l IH]; intros sh; cbn; [by destruct (kbd_chars l' sh)|].
  destruct (kbd_byte sh d) as [sh1 c]. rewrite IH. destruct (kbd_chars l sh1) as [cs sh2]. cbn. by destruct (kbd_chars l' sh2).
Qed.

(** The key and whether it must be pressed with shift. *)
Definition key_of (c : Z) : option (Z * bool) :=
  match list_find (fun i => normalmap i = c) (seqZ 1 0x39) with
  | Some (_, i) => Some (i, false)
  | None => match list_find (fun i => shiftmap i = c) (seqZ 1 0x39) with Some (_, i) => Some (i, true) | None => None end
  end.
(** Pressing and releasing the keys for a character: with the case lock on,
    letters need the other state of the shift key. *)
Definition is_letter (c : Z) : bool := ((97 <=? c) && (c <=? 122)) || ((65 <=? c) && (c <=? 90)).
Definition type_char (caps : bool) (c : Z) : list Z :=
  match key_of c with
  | Some (i, sh) =>
      if xorb sh (caps && is_letter c) then [0x2A; i; Z.lor i 0x80; 0xAA] else [i; Z.lor i 0x80]
  | None => []
  end.
Definition type_text (caps : bool) (t : list Z) : list Z := t ≫= type_char caps.
(** The characters of the main block of keys. *)
Definition typeable (c : Z) : Prop := 32 <= c <= 126 \/ c = 10 \/ c = 9 \/ c = 8 \/ c = 27.
#[export] Instance typeable_dec c : Decision (typeable c).
Proof. unfold typeable. apply _. Defined.

(** Every key ends with the state of the shift keys as before, and the
    character is the only one that is not 0. *)
Definition types_as (caps : bool) (c : Z) : Prop :=
  let sh := if caps then CAPSLOCK else 0 in
  let r := kbd_chars (type_char caps c) sh in r.2 = sh /\ filter (fun c => c ≠ 0) r.1 = [c].
#[export] Instance types_as_dec caps c : Decision (types_as caps c).
Proof. unfold types_as. apply _. Defined.
Lemma types_all caps c : typeable c -> types_as caps c.
Proof.
  intros H. assert (Forall (fun c => typeable c -> types_as caps c) (seqZ 0 127)) as Hall.
  { destruct caps; apply (bool_decide_eq_true_1 _); vm_compute; reflexivity. }
  rewrite list.Forall_forall in Hall. apply Hall; [|done]. apply elem_of_seqZ. unfold typeable in H. lia.
Qed.

(** Typing a text delivers the text, with zeros between the characters that
    the console ignores, and leaves the shift state as it was. *)
Theorem kbd_types_text (caps : bool) t :
  Forall typeable t ->
  let sh := if caps then CAPSLOCK else 0 in
  let r := kbd_chars (type_text caps t) sh in
  filter (fun c => c ≠ 0) r.1 = t /\ r.2 = sh.
Proof.
  intros Ht. cbn zeta. induction t as [|c t IH]; [done|]. apply list.Forall_cons in Ht as [Hc Ht]. unfold type_text. cbn [mbind list_bind]. fold (type_text caps t).
  rewrite kbd_chars_app. destruct (types_all caps c Hc) as [E1 E2]. cbn zeta in E1, E2. rewrite E1. cbn [fst snd]. destruct (IH Ht) as [IH1 IH2].
  split; [|done]. by rewrite filter_app, E2, IH1.
Qed.
Lemma kbd_types_text_witness : filter (fun c : Z => c ≠ 0) (kbd_chars (type_text true (str "echo Hi")) CAPSLOCK).1 = str "echo Hi".
Proof.
  refine (proj1 (kbd_types_text true (str "echo Hi") _)). apply (bool_decide_eq_true_1 _). reflexivity.
Defined.
