(* ===== verification/Console.v ===== *)
(** The console (console.c): the screen, formatted output, and the line editing
    of the input. The screen shows the last rows of what was printed; the ring
    of typed characters implements a queue of complete lines and the line
    being edited; a line that is typed on the keyboard is what [consoleread]
    returns. *)

From stdpp Require Import base list strings sets.
From Stdlib Require Import ZArith Lia.
From S2P Require Import Ulib Kbd Prelude.
Open Scope Z_scope.

Definition BACKSPACE : Z := 0x100.
Definition INPUT_BUF : Z := 128.

(** ** State

    The two halves of the cursor position are one number; [crt] are the cells
    of the screen, [serial] what was sent to the serial port, [wakeups] how
    often readers were woken. *)
Record console := mk_console {
  locked : bool;
  locking : bool;
  panicked : bool;
  crt : list Z;
  pos : Z;
  serial : list Z;
  buf : list Z;
  r : Z;
  w : Z;
  e : Z;
  wakeups : nat
}.

Definition acquire : M console unit := fun s => if locked s then Panic "acquire" else Ok tt {| s with locked := true |}.
Definition release : M console unit := fun s => if locked s then Ok tt {| s with locked := false |} else Panic "release".

(** ** Output *)

Definition set_cell (i v : Z) : M console unit := fun s =>
  if (0 <=? i) && (i <? Z.of_nat (length (crt s))) then Ok tt {| s with crt := <[Z.to_nat i := v]> (crt s) |} else UB.
(** [memmove(crt, crt+80, ...)] and [memset(crt+pos, 0, ...)] *)
Definition scroll (p : Z) : M console unit :=
  modify (fun s => {| s with crt := take (23 * 80) (drop 80 (crt s)) ++ drop (23 * 80) (crt s) |}) ;;
  modify (fun s => {| s with crt := take (Z.to_nat p) (crt s) ++ replicate (Z.to_nat (24 * 80 - p)) 0 ++ drop (Z.to_nat (Z.max p (24 * 80))) (crt s) |}).
(** The check of the new position, scrolling, and the cursor. *)
Definition cga_place (p : Z) : M console unit :=
  if (p <? 0) || (25 * 80 <? p) then panic "pos under/overflow" else
  p ← (if 24 <=? p / 80 then scroll (p - 80) ;; mret (p - 80) else mret p);
  modify (fun s => {| s with pos := u16 p |}) ;;
  set_cell p (Z.lor 32 0x0700).
Definition cgaputc (c : Z) : M console unit :=
  p ← gets pos;
  p ← (if c =? 10 then mret (p + (80 - p mod 80))
       else if c =? BACKSPACE then mret (if 0 <? p then p - 1 else p)
       else set_cell p (Z.lor (Z.land c 0xff) 0x0700) ;; mret (p + 1));
  cga_place p.
Definition uartputc (c : Z) : M console unit := modify (fun s => {| s with serial := serial s ++ [u8 c] |}).
Definition consputc (c : Z) : M console unit :=
  p ← gets panicked;
  if (p : bool) then diverge else
  (if c =? BACKSPACE then uartputc 8 ;; uartputc 32 ;; uartputc 8 else uartputc c) ;;
  cgaputc c.

Definition digits_lower : list Z := str "0123456789abcdef".
Definition printint (xx base : Z) (sign : bool) : M console unit := for_each (rev (printint_buf digits_lower xx base sign)) consputc.
(** The arguments: words, and strings, of which the null pointer is [None]. *)
Inductive arg := Word (x : Z) | Str (s : option (list Z)).
Fixpoint cprintf_loop (fmt : list Z) (argp : list arg) : M console unit :=
  match fmt with
  | [] => mret tt
  | c :: fmt' =>
      if negb (c =? 37) then consputc c ;; cprintf_loop fmt' argp else
      match fmt' with
      | [] => mret tt
      | d :: fmt'' =>
          if d =? 100 then
            match argp with Word x :: argp' => printint x 10 true ;; cprintf_loop fmt'' argp' | _ => ub end
          else if (d =? 120) || (d =? 112) then
            match argp with Word x :: argp' => printint x 16 false ;; cprintf_loop fmt'' argp' | _ => ub end
          else if d =? 115 then
            match argp with Str s :: argp' => for_each (default (str "(null)") s) consputc ;; cprintf_loop fmt'' argp' | _ => ub end
          else if d =? 37 then consputc 37 ;; cprintf_loop fmt'' argp
          else consputc 37 ;; consputc d ;; cprintf_loop fmt'' argp
      end
  end.
Definition cprintf (fmt : list Z) (argp : list arg) : M console unit :=
  locking ← gets locking;
  when locking acquire ;;
  cprintf_loop fmt argp ;;
  when locking release.
Definition consolewrite (b : list Z) : M console Z :=
  acquire ;;
  for_each b (fun c => consputc (Z.land c 0xff)) ;;
  release ;;
  mret (Z.of_nat (length b)).

(** ** Input *)

Definition buf_at (i : Z) : M console Z := fun s =>
  match buf s !! Z.to_nat (i mod INPUT_BUF) with Some c => Ok c s | None => UB end.
Definition set_buf (i c : Z) : M console unit := modify (fun s => {| s with buf := <[Z.to_nat (i mod INPUT_BUF) := u8 c]> (buf s) |}).
Definition wakeup : M console unit := modify (fun s => {| s with wakeups := S (wakeups s) |}).

(** Kill line. *)
Fixpoint kill_loop (fuel : nat) : M console unit :=
  ei ← gets e;
  wi ← gets w;
  if ei =? wi then mret tt else
  c ← buf_at (u32 (ei - 1));
  if c =? 10 then mret tt else
  match fuel with
  | O => diverge
  | S fuel' =>
      modify (fun s => {| s with e := u32 (ei - 1) |}) ;;
      consputc BACKSPACE ;;
      kill_loop fuel'
  end.
(** One character; the result says whether it asks for a process listing. *)
Definition input_char (c : Z) : M console bool :=
  if c =? ctl 80 then mret true
  else if c =? ctl 85 then kill_loop (Z.to_nat INPUT_BUF) ;; mret false
  else if (c =? ctl 72) || (c =? 0x7f) then
    ei ← gets e;
    wi ← gets w;
    when (negb (ei =? wi)) (modify (fun s => {| s with e := u32 (ei - 1) |}) ;; consputc BACKSPACE) ;;
    mret false
  else
    ei ← gets e;
    ri ← gets r;
    when (negb (c =? 0) && (u32 (ei - ri) <? INPUT_BUF)) (
      let c := if c =? 13 then 10 else c in
      set_buf ei c ;;
      modify (fun s => {| s with e := u32 (ei + 1) |}) ;;
      consputc c ;;
      when ((c =? 10) || (c =? ctl 68) || (u32 (ei + 1) =? u32 (ri + INPUT_BUF))) (
        modify (fun s => {| s with w := e s |}) ;;
        wakeup)) ;;
    mret false.
Fixpoint input_chars (cs : list Z) : M console bool :=
  match cs with
  | [] => mret false
  | c :: cs' => d ← input_char c; d' ← input_chars cs'; mret (d || d')
  end.
(** The characters that [getc] returns before -1; the result is
    [doprocdump]. *)
Definition consoleintr (cs : list Z) : M console bool :=
  acquire ;;
  d ← input_chars cs;
  release ;;
  mret d.

(** What a call of [consoleread] comes to: a result, -1, or sleeping with the
    number of bytes still wanted. *)
Inductive read_end := RDone (b : list Z) | RKilled | RSleeps (n : Z) (b : list Z).
(** The loop: [acc] has been copied to the user, [n] more are wanted. *)
Fixpoint read_loop (killed : bool) (acc : list Z) (n : nat) : M console read_end :=
  match n with
  | O => release ;; mret (RDone acc)
  | S n' =>
      ri ← gets r;
      wi ← gets w;
      if ri =? wi then if killed then release ;; mret RKilled else release ;; mret (RSleeps (Z.of_nat n) acc) else
      c ← buf_at ri;
      modify (fun s => {| s with r := u32 (ri + 1) |}) ;;
      if c =? ctl 68 then
        when (0 <? Z.of_nat (length acc)) (modify (fun s => {| s with r := u32 (r s - 1) |})) ;;
        release ;; mret (RDone acc)
      else if c =? 10 then release ;; mret (RDone (acc ++ [c]))
      else read_loop killed (acc ++ [c]) n'
  end.
Definition consoleread (killed : bool) (n : Z) : M console read_end := acquire ;; read_loop killed [] (Z.to_nat n).
(** ... after a wakeup. *)
Definition consoleread_resume (killed : bool) (n : Z) (acc : list Z) : M console read_end := acquire ;; read_loop killed acc (Z.to_nat n).

(** ** The screen

    A terminal of 24 rows of 80 columns: the rows above the cursor and the row
    of the cursor up to it. *)

Record term := mk_term { above : list (list Z); cur : list Z }.

Definition term_newline (t : term) (row : list Z) : term :=
  mk_term ((if (length (above t) <? 23)%nat then above t else drop 1 (above t)) ++ [row]) [].
Definition term_put (t : term) (c : Z) : term :=
  if c =? 10 then term_newline t (cur t)
  else if c =? BACKSPACE then
    match last (cur t), last (above t) with
    | Some _, _ => mk_term (above t) (removelast (cur t))
    | None, Some row => mk_term (removelast (above t)) (take 79 row)
    | None, None => t
    end
  else
    let row := cur t ++ [c] in
    if (length row <? 80)%nat then mk_term (above t) row else term_newline t row.
(** Going back from the first column is used only after a row that was full. *)
Definition can_put (t : term) (c : Z) : Prop :=
  c = BACKSPACE -> cur t = [] -> forall row, last (above t) = Some row -> length row = 80%nat.

Definition attr (c : Z) : Z := Z.lor (Z.land c 0xff) 0x0700.
Definition blank (v : Z) : Prop := v = 0 \/ v = 0x720.
Definition content (t : term) (i : nat) : option Z := (above t ++ [cur t]) !! (i / 80)%nat ≫= (.!! (i mod 80)%nat).
Definition cursor (t : term) : nat := (80 * length (above t) + length (cur t))%nat.
Definition cells_ok (C : list Z) (t : term) : Prop :=
  length C = 2000%nat /\ forall i, (i < 1920)%nat -> exists v, C !! i = Some v /\ match content t i with Some c => v = attr c | None => blank v end.
Definition term_ok (t : term) : Prop :=
  (length (above t) <= 23)%nat /\ (length (cur t) < 80)%nat /\ Forall (fun row => length row <= 80)%nat (above t).
(** The screen of [s] shows the terminal [t]. *)
Definition shows (s : console) (t : term) : Prop :=
  term_ok t /\ cells_ok (crt s) t /\ pos s = Z.of_nat (cursor t) /\ crt s !! cursor t = Some 0x720 /\ panicked s = false.

Lemma content_row t k j : (j < 80)%nat -> content t (80 * k + j) = (above t ++ [cur t]) !! k ≫= (.!! j).
Proof.
  intros Hj. unfold content. replace ((80 * k + j) / 80)%nat with k by (apply (Nat.div_unique _ 80 k j); lia).
  by replace ((80 * k + j) mod 80)%nat with j by (apply (Nat.mod_unique _ 80 k j); lia).
Qed.
Lemma row_col i : exists k j, i = (80 * k + j)%nat /\ (j < 80)%nat.
Proof. exists (i / 80)%nat, (i mod 80)%nat. split; [apply Nat.div_mod; lia|apply Nat.mod_upper_bound; lia]. Qed.

(** The new row at the bottom. *)
Lemma content_newline t row i :
  (length (above t) <= 23)%nat -> (length row <= 80)%nat -> (i < 1920)%nat ->
  content (term_newline t row) i =
    if (length (above t) <? 23)%nat then content (mk_term (above t) row) i else content (mk_term (above t) row) (i + 80).
Proof.
  intros Ha Hr Hi. destruct (row_col i) as (k & j & -> & Hj). unfold term_newline. destruct (Nat.ltb_spec (length (above t)) 23) as [Hlt|Hge].
  - rewrite !content_row by done. cbn [above cur]. destruct (decide (k < length (above t ++ [row]))%nat) as [Hk|Hk].
    + by rewrite lookup_app_l by done.
    + rewrite (lookup_ge_None_2 (above t ++ [row]) k) by lia. rewrite lookup_app_r by lia. destruct (k - _)%nat as [|n]; [done|by destruct n].
  - replace (80 * k + j + 80)%nat with (80 * (k + 1) + j)%nat by lia. rewrite !content_row by done. cbn [above cur].
    assert (k < 24)%nat by lia. destruct (above t) as [|row0 ab] eqn:E; [cbn in Hge; lia|]. cbn [length] in *. rewrite skipn_cons, drop_0. cbn [app].
    replace (k + 1)%nat with (S k) by lia. change ((row0 :: ab ++ [row]) !! S k) with ((ab ++ [row]) !! k). destruct (decide (k < length (ab ++ [row]))%nat) as [Hk|Hk].
    + by rewrite lookup_app_l by done.
    + rewrite (lookup_ge_None_2 (ab ++ [row]) k) by lia. rewrite lookup_app_r by lia. destruct (k - _)%nat as [|n]; [done|by destruct n].
Qed.

(** Storing a cell. *)
Lemma cells_insert C t i v :
  cells_ok C t -> (i < 1920)%nat -> match content t i with Some c => v = attr c | None => blank v end -> cells_ok (<[i := v]> C) t.
Proof.
  intros [Hl H] Hi Hv. split; [by rewrite length_insert|]. intros j Hj. destruct (decide (i = j)) as [->|Hne].
  - exists v. split; [apply list_lookup_insert_eq; lia|done].
  - rewrite list_lookup_insert_ne by done. by apply H.
Qed.
Lemma cells_more C t t' : (forall i, (i < 1920)%nat -> content t' i = content t i) -> cells_ok C t -> cells_ok C t'.
Proof. intros E [Hl H]. split; [done|]. intros i Hi. rewrite E by done. by apply H. Qed.
(** The cells after scrolling. *)
Definition scrolled (C : list Z) : list Z := take 1840 (drop 80 C) ++ replicate 80 0 ++ drop 1920 C.
Lemma cells_scrolled C t t' :
  cells_ok C t -> (forall i, (i < 1840)%nat -> content t' i = content t (i + 80)) -> (forall i, (1840 <= i)%nat -> content t' i = None) -> cells_ok (scrolled C) t'.
Proof.
  intros [Hl H] E1 E2. assert (length (take 1840 (drop 80 C)) = 1840%nat) as Ht by (rewrite length_take, length_drop; lia).
  split; [unfold scrolled; rewrite !length_app, Ht, length_drop, length_replicate; lia|]. intros i Hi. unfold scrolled. destruct (decide (i < 1840)%nat) as [Hlt|Hge].
  - rewrite lookup_app_l by lia. rewrite lookup_take_lt by lia. rewrite lookup_drop, E1 by done. rewrite (Nat.add_comm 80). apply H. lia.
  - rewrite E2 by lia. exists 0. split; [|by left]. rewrite lookup_app_r, Ht by lia. rewrite lookup_app_l by (rewrite length_replicate; lia). apply lookup_replicate_2. lia.
Qed.

Lemma wp_set_cell i v Q s : 0 <= i < Z.of_nat (length (crt s)) -> Q tt {| s with crt := <[Z.to_nat i := v]> (crt s) |} -> wp (set_cell i v) Q s.
Proof. intros Hi HQ. unfold wp, set_cell. rewrite (proj2 (Z.leb_le 0 i)), (proj2 (Z.ltb_lt i _)) by lia. done. Qed.
Lemma wp_place Q s (p : nat) :
  (p < 1920)%nat -> length (crt s) = 2000%nat -> Q tt {| s with crt := <[p := 0x720]> (crt s); pos := Z.of_nat p |} -> wp (cga_place (Z.of_nat p)) Q s.
Proof.
  intros Hp Hl HQ. unfold cga_place. rewrite (proj2 (Z.ltb_ge _ _)), (proj2 (Z.ltb_ge _ _)) by lia. cbn [orb]. rewrite (proj2 (Z.leb_gt 24 _)) by (apply Z.div_lt_upper_bound; lia).
  wp_steps. apply wp_set_cell; cbn [crt]; [rewrite Hl; lia|]. rewrite Nat2Z.id. unfold u16. rewrite Z.mod_small by lia. exact HQ.
Qed.
Lemma scrolled_eq (C : list Z) a b k : length (take a (drop 80 C)) = a -> (a <= b)%nat ->
  take a (take a (drop 80 C) ++ drop a C) ++ replicate k 0 ++ drop b (take a (drop 80 C) ++ drop a C) = take a (drop 80 C) ++ replicate k 0 ++ drop b C.
Proof.
  intros Ha Hb. rewrite take_app_length' by done. rewrite (drop_app_ge _ _ b) by lia. rewrite Ha, drop_drop. do 3 f_equal. lia.
Qed.
Lemma wp_place_scroll Q s :
  length (crt s) = 2000%nat -> Q tt {| s with crt := <[1840%nat := 0x720]> (scrolled (crt s)); pos := 1840 |} -> wp (cga_place 1920) Q s.
Proof.
  intros Hl HQ. unfold cga_place. change ((1920 <? 0) || (25 * 80 <? 1920)) with false. change (24 <=? 1920 / 80) with true. cbn beta iota. unfold scroll. wp_steps. cbn [crt].
  change (Z.to_nat (1920 - 80)) with 1840%nat. change (Z.to_nat (24 * 80 - (1920 - 80))) with 80%nat. change (Z.to_nat (Z.max (1920 - 80) (24 * 80))) with 1920%nat. change (23 * 80)%nat with 1840%nat.
  assert (length (take 1840 (drop 80 (crt s))) = 1840%nat) as Ht by (rewrite length_take, length_drop; lia).
  rewrite scrolled_eq by (done || lia). fold (scrolled (crt s)).
  apply wp_set_cell; cbn [crt]; [|exact HQ]. unfold scrolled. rewrite !length_app, Ht, length_drop, length_replicate. lia.
Qed.

(** Moving to a new row below a row that is complete. *)
Lemma wp_place_newline Q s t row :
  (length (above t) <= 23)%nat -> Forall (fun row => length row <= 80)%nat (above t) -> (length row <= 80)%nat -> panicked s = false ->
  cells_ok (crt s) (mk_term (above t) row) ->
  (forall C p, let s' := {| s with crt := C; pos := p |} in shows s' (term_newline t row) -> Q tt s') ->
  wp (cga_place (80 * Z.of_nat (S (length (above t))))) Q s.
Proof.
  intros Ha Hrows Hr Hpan HC HQ. pose proof (proj1 HC) as Hl. set (t' := term_newline t row) in *. cbn zeta in HQ.
  assert (term_ok t') as Hok.
  { unfold t', term_newline, term_ok. cbn [above cur]. split_and!; [|cbn; lia|].
    - rewrite length_app. cbn [length]. destruct (Nat.ltb_spec (length (above t)) 23); rewrite ?length_drop; lia.
    - apply list.Forall_app. split; [|constructor; [done|constructor]]. destruct (_ <? _)%nat; [done|by apply Forall_drop]. }
  destruct (Nat.ltb_spec (length (above t)) 23) as [Hlt|Hge].
  - assert (cursor t' = 80 * S (length (above t)))%nat as Hcur. { unfold cursor, t', term_newline. cbn [above cur]. rewrite (proj2 (Nat.ltb_lt _ _)) by done. rewrite length_app. cbn [length]. lia. }
    replace (80 * Z.of_nat (S (length (above t)))) with (Z.of_nat (cursor t')) by lia. apply wp_place; [lia|done|]. apply HQ. split_and!; cbn [crt pos panicked]; try done.
    + apply cells_insert; [|lia|].
      * eapply cells_more; [|exact HC]. intros i Hi. unfold t'. rewrite content_newline by done. by rewrite (proj2 (Nat.ltb_lt _ _)) by done.
      * rewrite Hcur. replace (80 * S (length (above t)))%nat with (80 * S (length (above t)) + 0)%nat by lia. rewrite content_row by lia. unfold t', term_newline. cbn [above cur].
        rewrite (proj2 (Nat.ltb_lt _ _)) by done. rewrite lookup_app_r by (rewrite length_app; cbn; lia). rewrite length_app. cbn [length]. replace (S (length (above t)) - (length (above t) + 1))%nat with O by lia. by right.
    + apply list_lookup_insert_eq. lia.
  - assert (length (above t) = 23%nat) as E by lia. rewrite E. apply wp_place_scroll; [done|]. 
    assert (cursor t' = 1840%nat) as Hcur. { unfold cursor, t', term_newline. cbn [above cur]. rewrite E. cbn [Nat.ltb Nat.leb]. rewrite length_app, length_drop, E. done. }
    assert (cells_ok (scrolled (crt s)) t') as HC'.
    { eapply cells_scrolled; [exact HC| |]; intros i Hi.
      - unfold t'. rewrite content_newline by (done || lia). by rewrite E.
      - destruct (row_col i) as (k & j & -> & Hj). rewrite content_row by done. unfold t', term_newline. cbn [above cur]. rewrite E. cbn [Nat.ltb Nat.leb].
        rewrite lookup_app_r by (rewrite length_app, length_drop, E; cbn; lia). destruct (k - _)%nat as [|n]; [done|by destruct n]. }
    apply HQ. split_and!; cbn [crt pos panicked]; try done.
    + apply cells_insert; [done|lia|]. assert (content t' 1840 = None) as ->; [|by right]. change 1840%nat with (80 * 23 + 0)%nat. rewrite content_row by lia. unfold t', term_newline. cbn [above cur]. rewrite E. cbn [Nat.ltb Nat.leb].
      rewrite lookup_app_r by (rewrite length_app, length_drop, E; cbn; lia). by rewrite length_app, length_drop, E.
    + by rewrite Hcur.
    + rewrite Hcur. apply list_lookup_insert_eq. rewrite (proj1 HC'). lia.
Qed.

Lemma lookup_single {A} (x : A) (n : nat) : [x] !! n = if (n =? 0)%nat then Some x else None.
Proof. by destruct n as [|[|n]]. Qed.
(** Going back to the position of the last character of the terminal [t]. *)
Lemma wp_place_back Q s t t' :
  term_ok t' -> cells_ok (crt s) t -> panicked s = false -> (cursor t' < 1920)%nat ->
  (forall i, (i < 1920)%nat -> i ≠ cursor t' -> content t' i = content t i) -> content t' (cursor t') = None ->
  (forall C p, let s' := {| s with crt := C; pos := p |} in shows s' t' -> Q tt s') -> wp (cga_place (Z.of_nat (cursor t'))) Q s.
Proof.
  intros Hok [Hl HC] Hpan Hcur Hsame Hnone HQ. apply wp_place; [done|done|]. apply HQ. split_and!; cbn [crt pos panicked]; try done.
  - split; [by rewrite length_insert|]. intros i Hi. destruct (decide (cursor t' = i)) as [<-|Hne].
    + exists 0x720. split; [apply list_lookup_insert_eq; lia|]. rewrite Hnone. by right.
    + rewrite list_lookup_insert_ne by done. rewrite Hsame by done. by apply HC.
  - apply list_lookup_insert_eq. lia.
Qed.
Lemma removelast_snoc {A} (l : list A) x : removelast (l ++ [x]) = l.
Proof. by rewrite removelast_app, app_nil_r. Qed.
Lemma wp_backspace Q s t :
  shows s t -> can_put t BACKSPACE -> (forall C p, let s' := {| s with crt := C; pos := p |} in shows s' (term_put t BACKSPACE) -> Q tt s') -> wp (cgaputc BACKSPACE) Q s.
Proof.
  intros ((Ha & Hc & Hrows) & HC & Hp & Hcell & Hpan) Hcan HQ. unfold cgaputc. rewrite wp_bind, wp_gets, Hp, wp_bind. change (BACKSPACE =? 10) with false. rewrite Z.eqb_refl. wp_steps.
  unfold term_put in HQ. change (BACKSPACE =? 10) with false in HQ. rewrite Z.eqb_refl in HQ. destruct t as [ab l]. cbn [above cur] in *.
  destruct l as [|x l _] using rev_ind; [destruct ab as [|row ab _] using rev_ind|].
  - change (0 <? Z.of_nat (cursor (mk_term [] []))) with false. cbn beta iota. apply (wp_place_back Q s (mk_term [] [])); [by split_and!|done|done|cbn; lia|done|done|exact HQ].
  - rewrite last_snoc, removelast_snoc in HQ. cbn [last] in HQ. pose proof (Hcan eq_refl eq_refl row) as H80. cbn [above] in H80. rewrite last_snoc in H80. specialize (H80 eq_refl).
    rewrite length_app in Ha. cbn [length] in Ha. set (t' := mk_term ab (take 79 row)) in *.
    assert (length (take 79 row) = 79%nat) as H79 by (rewrite length_take; lia).
    assert (cursor t' = (80 * length ab + 79)%nat) as Hcur by (unfold cursor, t'; cbn [above cur]; lia).
    replace (if 0 <? _ then _ else _) with (Z.of_nat (cursor t')). 2: { rewrite Hcur. unfold cursor. cbn [above cur length]. rewrite length_app. cbn [length]. destruct (Z.ltb_spec 0 (Z.of_nat (80 * (length ab + 1) + 0))); lia. }
    apply (wp_place_back Q s (mk_term (ab ++ [row]) []) t'); [|done|done|lia| | |exact HQ].
    + apply list.Forall_app in Hrows as [Hrows _]. unfold term_ok, t'. cbn [above cur]. split_and!; [lia|lia|done].
    + rewrite Hcur. intros i Hi Hne. destruct (row_col i) as (k & j & -> & Hj). rewrite !content_row by done. unfold t'. cbn [above cur]. rewrite <- app_assoc.
      destruct (decide (k < length ab)%nat) as [Hk|Hk]; [by rewrite !lookup_app_l by lia|]. rewrite !(lookup_app_r ab) by lia.
      destruct (k - length ab)%nat as [|[|n]] eqn:Ek; cbn [lookup list_lookup app mbind option_bind]; [|done|done]. rewrite lookup_take_lt; [done|]. assert (j ≠ 79%nat) by (intros ->; apply Hne; lia). lia.
    + rewrite Hcur, content_row by lia. unfold t'. cbn [above cur]. rewrite lookup_app_r, Nat.sub_diag by lia. cbn [lookup list_lookup mbind option_bind]. by rewrite lookup_ge_None_2 by lia.
  - rewrite last_snoc, removelast_snoc in HQ. rewrite length_app in Hc. cbn [length] in Hc. set (t' := mk_term ab l) in *.
    replace (if 0 <? _ then _ else _) with (Z.of_nat (cursor t')). 2: { unfold cursor, t'. cbn [above cur]. rewrite length_app. cbn [length]. destruct (Z.ltb_spec 0 (Z.of_nat (80 * length ab + (length l + 1)))); lia. }
    assert (cursor t' = 80 * length ab + length l)%nat as Hcur by done.
    apply (wp_place_back Q s (mk_term ab (l ++ [x])) t'); [unfold term_ok, t'; cbn [above cur]; split_and!; [lia|lia|done]|done|done|lia| | |exact HQ].
    + rewrite Hcur. intros i Hi Hne. destruct (row_col i) as (k & j & -> & Hj). rewrite !content_row by done. unfold t'. cbn [above cur].
      destruct (decide (k < length ab)%nat) as [Hk|Hk]; [by rewrite !lookup_app_l by lia|]. rewrite !(lookup_app_r ab) by lia. rewrite !lookup_single.
      destruct (Nat.eqb_spec (k - length ab) 0); [|done]. cbn [mbind option_bind]. destruct (decide (j < length l)%nat); [by rewrite lookup_app_l by done|].
      rewrite !lookup_ge_None_2; [done|rewrite length_app; cbn [length]|]; lia.
    + rewrite Hcur, content_row by lia. unfold t'. cbn [above cur]. rewrite lookup_app_r, Nat.sub_diag by lia. cbn [lookup list_lookup mbind option_bind]. by rewrite lookup_ge_None_2 by lia.
Qed.
(** A character on the screen. *)
Lemma wp_cgaputc Q s t c :
  shows s t -> can_put t c -> (forall C p, let s' := {| s with crt := C; pos := p |} in shows s' (term_put t c) -> Q tt s') -> wp (cgaputc c) Q s.
Proof.
  intros Hsh Hcan HQ. destruct (decide (c = BACKSPACE)) as [->|Hb]; [by apply (wp_backspace Q s t)|]. clear Hcan.
  destruct Hsh as ((Ha & Hc & Hrows) & HC & Hp & Hcell & Hpan). cbn zeta in HQ. pose proof (proj1 HC) as Hl. unfold cgaputc. rewrite wp_bind, wp_gets, Hp, wp_bind.
  assert (t = mk_term (above t) (cur t)) as Et by (by destruct t). unfold term_put in HQ.
  destruct (Z.eqb_spec c 10) as [->|Hn].
  { wp_steps. replace (Z.of_nat (cursor t) + _) with (80 * Z.of_nat (S (length (above t)))).
    - apply (wp_place_newline Q s t (cur t)); [done|done|lia|done|by rewrite <- Et|exact HQ].
    - unfold cursor. assert ((80 * Z.of_nat (length (above t)) + Z.of_nat (length (cur t))) mod 80 = Z.of_nat (length (cur t))) as E by (rewrite Z.add_comm, Z.mul_comm, Z_mod_plus_full; apply Z.mod_small; lia).
      replace (Z.of_nat (80 * length (above t) + length (cur t))) with (80 * Z.of_nat (length (above t)) + Z.of_nat (length (cur t))) by lia. rewrite E. lia. }
  rewrite (proj2 (Z.eqb_neq c BACKSPACE) Hb) in HQ |- *.
  assert (cursor t < 1920)%nat as Hcur by (unfold cursor; lia). rewrite wp_bind. apply wp_set_cell; [lia|]. rewrite Nat2Z.id. wp_steps. fold (attr c).
  set (s1 := {| s with crt := <[cursor t := attr c]> (crt s) |}). set (row := cur t ++ [c]) in *. assert (length row = S (length (cur t))) as Hrow by (unfold row; rewrite length_app; cbn; lia).
  assert (cells_ok (crt s1) (mk_term (above t) row)) as HC1.
  { split; [cbn [crt s1]; by rewrite length_insert|]. intros i Hi. destruct (row_col i) as (k & j & -> & Hj). rewrite content_row by done. cbn [above cur crt s1].
    destruct (proj2 HC (80 * k + j)%nat Hi) as (v & Hv & Hm). rewrite content_row in Hm by done. unfold cursor. destruct (decide (k < length (above t))%nat) as [Hk|Hk].
    - rewrite list_lookup_insert_ne by lia. rewrite lookup_app_l in Hm |- * by done. by exists v.
    - rewrite lookup_app_r in Hm |- * by lia. rewrite lookup_single in Hm |- *. destruct (Nat.eqb_spec (k - length (above t)) 0) as [Ek|Ek]; [|rewrite list_lookup_insert_ne by lia; by exists v].
      cbn [mbind option_bind] in Hm |- *.
      unfold row. destruct (Nat.lt_trichotomy j (length (cur t))) as [Hlt|[Heq|Hgt]].
      + rewrite list_lookup_insert_ne by lia. rewrite lookup_app_l by done. by exists v.
      + exists (attr c). split; [|by rewrite Heq, lookup_app_r, Nat.sub_diag by lia]. replace (80 * k + j)%nat with (80 * length (above t) + length (cur t))%nat by lia. apply list_lookup_insert_eq. lia.
      + rewrite list_lookup_insert_ne by lia. exists v. rewrite (lookup_ge_None_2 (cur t) j) in Hm by lia. fold row. by rewrite (lookup_ge_None_2 row j) by lia. }
  destruct (Nat.ltb_spec (length row) 80) as [Hlt|Hge].
  - replace (Z.of_nat (cursor t) + 1) with (Z.of_nat (cursor (mk_term (above t) row))) by (unfold cursor; cbn [above cur]; lia).
    apply wp_place; [unfold cursor; cbn [above cur]; lia|cbn [crt s1]; by rewrite length_insert|]. cbn zeta in HQ. apply HQ. split_and!; cbn [crt pos panicked s1]; try done.
    + apply cells_insert; [exact HC1|unfold cursor; cbn [above cur]; lia|]. unfold cursor. cbn [above cur]. rewrite content_row by done. cbn [above cur].
      rewrite lookup_app_r, Nat.sub_diag by lia. cbn [lookup list_lookup mbind option_bind]. rewrite lookup_ge_None_2 by lia. by right.
    + apply list_lookup_insert_eq. rewrite length_insert. unfold cursor. cbn [above cur]. lia.
  - replace (Z.of_nat (cursor t) + 1) with (80 * Z.of_nat (S (length (above t)))) by (unfold cursor; lia). cbn zeta in HQ.
    apply (wp_place_newline Q s1 t row); [done|done|lia|done|exact HC1|exact HQ].
Qed.

Lemma wp_consputc Q s t c :
  shows s t -> can_put t c ->
  (forall C p l, let s' := {| s with crt := C; pos := p; serial := l |} in shows s' (term_put t c) -> Q tt s') -> wp (consputc c) Q s.
Proof.
  intros Hs Hcan HQ. unfold consputc. wp_steps. destruct (Hs) as (_ & _ & _ & _ & ->). rewrite wp_bind. unfold uartputc.
  destruct (c =? BACKSPACE); wp_steps; (eapply wp_cgaputc; [exact Hs|done|]; intros C p; cbn zeta; cbn [serial]; apply HQ).
Qed.

(** The rows of a text: the complete ones, and the last. *)
Definition rows_put (x : list (list Z) * list Z) (c : Z) : list (list Z) * list Z :=
  if c =? 10 then (x.1 ++ [x.2], [])
  else if (length (x.2 ++ [c]) <? 80)%nat then (x.1, x.2 ++ [c]) else (x.1 ++ [x.2 ++ [c]], []).
Definition text_rows (l : list Z) : list (list Z) * list Z := foldl rows_put ([], []) l.
(** The part of them that fits. *)
Definition window (x : list (list Z) * list Z) : term := mk_term (drop (length x.1 - 23) x.1) x.2.

Lemma newline_window d row c : term_newline (window (d, c)) row = window (d ++ [row], []).
Proof.
  unfold term_newline, window. cbn [above fst snd]. f_equal. rewrite length_app, length_drop. cbn [length].
  destruct (Nat.ltb_spec (length d - (length d - 23)) 23).
  - replace (length d + 1 - 23)%nat with 0%nat by lia. replace (length d - 23)%nat with 0%nat by lia. by rewrite !drop_0.
  - rewrite drop_drop. rewrite drop_app_le by lia. do 2 f_equal. lia.
Qed.
Lemma put_window x c : c ≠ BACKSPACE -> term_put (window x) c = window (rows_put x c).
Proof.
  intros Hc. destruct x as [d row]. unfold term_put, rows_put. rewrite (proj2 (Z.eqb_neq c BACKSPACE) Hc). cbn [fst snd].
  destruct (c =? 10); [apply newline_window|]. cbn [window cur fst snd]. destruct (_ <? 80)%nat; [done|apply newline_window].
Qed.

(** What is written to the console is on the screen: of a text that is written
    to an empty screen the last 24 rows are shown, long lines being continued
    on the next row, and the cursor is behind the text. *)
Theorem console_shows_text l s :
  shows s (mk_term [] []) -> locked s = false -> Forall (fun c => 0 <= c < 256) l ->
  wp (consolewrite l) (fun n s' => n = Z.of_nat (length l) /\ shows s' (window (text_rows l)) /\ locked s' = false) s.
Proof.
  intros Hs Hlk Hb. unfold consolewrite, acquire. rewrite wp_bind. unfold wp at 1. rewrite Hlk. rewrite wp_bind. set (s1 := {| s with locked := true |}).
  assert (forall l x s, shows s (window x) -> locked s = true -> Forall (fun c => 0 <= c < 256) l ->
    wp (for_each l (fun c => consputc (Z.land c 0xff))) (fun _ s' => shows s' (window (foldl rows_put x l)) /\ locked s' = true) s) as Hall.
  { clear. induction l as [|c l IH]; intros x s Hs Hlk Hb; [by cbn|]. apply list.Forall_cons in Hb as [Hc Hb]. cbn [for_each foldl]. rewrite wp_bind.
    assert (Z.land c 0xff = c) as Hcc by (change 0xff with (Z.ones 8); rewrite Z.land_ones by lia; apply Z.mod_small; lia).
    apply (wp_consputc _ s (window x)); rewrite ?Hcc; [done|unfold can_put, BACKSPACE; lia|]. intros C p sr. cbn zeta. intros Hs'. apply IH; [|done|done].
    rewrite <- put_window; [done|unfold BACKSPACE; lia]. }
  eapply wp_mono; [apply (Hall l ([], []) s1); [exact Hs|done|done]|]. intros _ s2 [Hs2 Hl2]. rewrite wp_bind. unfold wp at 1, release. rewrite Hl2. wp_steps. done.
Qed.

(** ** Line editing

    The complete lines that wait for a reader, and the line being typed. *)

Definition key (c : Z) (x : list Z * list Z) : list Z * list Z :=
  let '(ready, typing) := x in
  if c =? ctl 80 then x
  else if c =? ctl 85 then (ready, [])
  else if (c =? ctl 72) || (c =? 0x7f) then (ready, removelast typing)
  else if (c =? 0) || (128 <=? length (ready ++ typing))%nat then x
  else
    let c := if c =? 13 then 10 else c in
    let typing := typing ++ [c] in
    if (c =? 10) || (c =? ctl 68) || (length (ready ++ typing) =? 128)%nat then (ready ++ typing, []) else (ready, typing).
(** What a reader of [n] bytes that already has [acc] gets, and what is left: a
    control-D ends the input, and is kept if there was something before it. *)
Fixpoint take_line (acc : list Z) (n : nat) (ready : list Z) : read_end * list Z :=
  match n with
  | O => (RDone acc, ready)
  | S n' =>
      match ready with
      | [] => (RSleeps (Z.of_nat n) acc, [])
      | c :: ready' =>
          if c =? ctl 68 then (RDone acc, match acc with [] => ready' | _ => ready end)
          else if c =? 10 then (RDone (acc ++ [c]), ready')
          else take_line (acc ++ [c]) n' ready'
      end
  end.

(** The ring of [s] holds [ready] and [typing]. *)
Definition slot (s : console) (i : nat) : nat := Z.to_nat ((r s + Z.of_nat i) mod INPUT_BUF).
Record holds (s : console) (ready typing : list Z) : Prop := {
  rg_buf : length (buf s) = 128%nat;
  rg_r : 0 <= r s < W32;
  rg_w : w s = u32 (r s + Z.of_nat (length ready));
  rg_e : e s = u32 (r s + Z.of_nat (length (ready ++ typing)));
  rg_len : (length (ready ++ typing) <= 128)%nat;
  rg_at : forall i c, (ready ++ typing) !! i = Some c -> buf s !! slot s i = Some c
}.
(** ... and a full ring or a newline end the line. *)
Definition ring (s : console) (ready typing : list Z) : Prop :=
  holds s ready typing /\ (length (ready ++ typing) = 128%nat -> typing = []) /\ 10 ∉ typing.
(** The screen can be written to. *)
Definition screen_ok (s : console) : Prop := length (crt s) = 2000%nat /\ 0 <= pos s < 1920 /\ panicked s = false.
(** Only the screen and the serial line have changed. *)
Definition echoed (s s' : console) : Prop := s' = {| s with crt := crt s'; pos := pos s'; serial := serial s' |} /\ screen_ok s'.

Lemma wp_echo Q s c : screen_ok s -> (forall s', echoed s s' -> Q tt s') -> wp (consputc c) Q s.
Proof.
  intros (Hl & Hp & Hpan) HQ. unfold consputc. wp_steps. rewrite Hpan.
  assert (forall s1 p, s1 = {| s with crt := crt s1; pos := pos s1; serial := serial s1 |} -> length (crt s1) = 2000%nat -> 0 <= p <= 1920 -> wp (cga_place p) Q s1) as Hplace.
  { intros s1 p E1 H1 Hp1. assert (panicked s1 = false) by (by rewrite E1). destruct (Z.eq_dec p 1920) as [->|Hne].
    - apply wp_place_scroll; [done|]. apply HQ. split; [rewrite E1; done|]. split_and!; cbn [crt pos panicked]; [|lia|lia|done].
      unfold scrolled. rewrite length_insert, !length_app, length_take, !length_drop, length_replicate, H1. lia.
    - rewrite <- (Z2Nat.id p) by lia. apply wp_place; [lia|done|]. apply HQ. split; [rewrite E1; done|]. split_and!; cbn [crt pos panicked]; [by rewrite length_insert|lia|lia|done]. }
  assert (forall s1, s1 = {| s with serial := serial s1 |} -> wp (cgaputc c) Q s1) as Hcga.
  { intros s1 E1. assert (crt s1 = crt s /\ pos s1 = pos s) as [E2 E3] by (by rewrite E1). unfold cgaputc. wp_steps. rewrite E3.
    destruct (c =? 10); [wp_steps; apply Hplace; [rewrite E1; done|by rewrite E2|Z.to_euclidean_division_equations; lia]|].
    destruct (c =? BACKSPACE); [wp_steps; apply Hplace; [rewrite E1; done|by rewrite E2|destruct (Z.ltb_spec 0 (pos s)); lia]|].
    rewrite wp_bind. apply wp_set_cell; [rewrite E2; lia|]. wp_steps. apply Hplace; [rewrite E1; done|cbn [crt]; rewrite length_insert, E2; done|lia]. }
  unfold uartputc. destruct (c =? BACKSPACE); wp_steps; by apply Hcga.
Qed.

Lemma u32_mod_128 x : u32 x mod 128 = x mod 128.
Proof. unfold u32, W32. Z.to_euclidean_division_equations. lia. Qed.
Lemma holds_echo s s' a b : holds s a b -> echoed s s' -> holds s' a b.
Proof.
  intros [H1 H2 H3 H4 H5 H6] [E _]. assert (buf s' = buf s /\ r s' = r s /\ w s' = w s /\ e s' = e s) as (E1 & E2 & E3 & E4) by (rewrite E; done).
  unfold slot in *. constructor; unfold slot; rewrite ?E1, ?E2, ?E3, ?E4; done.
Qed.
Lemma holds_empty s a b : holds s a b -> (e s =? w s) = bool_decide (b = []).
Proof.
  intros [_ Hr Hw He Hl _]. rewrite length_app in *. rewrite Hw, He. destruct b as [|x b]; [rewrite bool_decide_eq_true_2 by done; rewrite Z.eqb_eq; f_equal; cbn; lia|].
  rewrite bool_decide_eq_false_2 by done. apply Z.eqb_neq. cbn [length] in *. unfold u32, W32 in *. Z.to_euclidean_division_equations. lia.
Qed.
Lemma holds_back s a b x : holds s a (b ++ [x]) -> holds {| s with e := u32 (e s - 1) |} a b /\ buf s !! Z.to_nat (u32 (e s - 1) mod INPUT_BUF) = Some x.
Proof.
  intros [H1 H2 H3 H4 H5 H6]. rewrite app_assoc in H4, H5. rewrite length_app in H4, H5. cbn [length] in *.
  assert (u32 (e s - 1) = u32 (r s + Z.of_nat (length (a ++ b)))) as E by (rewrite H4; unfold u32, W32; Z.to_euclidean_division_equations; lia).
  split; [constructor; cbn [buf r w e]; try done; [lia|]|].
  - intros i c Hi. unfold slot. cbn [r]. apply H6. rewrite app_assoc. by apply lookup_app_l_Some.
  - rewrite E. change INPUT_BUF with 128. rewrite u32_mod_128. apply (H6 (length (a ++ b)) x). rewrite app_assoc, lookup_app_r by lia. by rewrite Nat.sub_diag.
Qed.
Lemma slot_inj x i j : 0 <= i < 128 -> 0 <= j < 128 -> Z.to_nat ((x + i) mod INPUT_BUF) = Z.to_nat ((x + j) mod INPUT_BUF) -> i = j.
Proof. unfold INPUT_BUF. intros Hi Hj E. apply Z2Nat.inj in E; Z.to_euclidean_division_equations; lia. Qed.
Lemma holds_push s a b c : holds s a b -> (length (a ++ b) < 128)%nat -> 0 <= c < 256 ->
  holds {| s with buf := <[Z.to_nat (e s mod INPUT_BUF) := u8 c]> (buf s); e := u32 (e s + 1) |} a (b ++ [c]).
Proof.
  intros [H1 H2 H3 H4 H5 H6] Hlt Hc.  constructor; cbn [buf r w e]; try done.
  - by rewrite length_insert.
  - rewrite H4, app_assoc, (length_app (a ++ b)). cbn [length]. unfold u32, W32. Z.to_euclidean_division_equations. lia.
  - rewrite app_assoc, (length_app (a ++ b)). cbn [length]. rewrite length_app in *. lia.
  - intros i x Hi. unfold slot. cbn [r]. rewrite app_assoc in Hi. rewrite H4. change INPUT_BUF with 128. rewrite u32_mod_128. change 128 with INPUT_BUF.
    pose proof (lookup_lt_Some _ _ _ Hi) as Hb. rewrite (length_app (a ++ b)) in Hb. cbn [length] in Hb. rewrite length_app in Hlt.
    destruct (decide (i = length (a ++ b))) as [->|Hne].
    + rewrite lookup_app_r, Nat.sub_diag in Hi by lia. injection Hi as <-. rewrite list_lookup_insert_eq; [unfold u8; by rewrite Z.mod_small|].
      rewrite H1. unfold INPUT_BUF. Z.to_euclidean_division_equations. lia.
    + rewrite lookup_app_l in Hi by lia. rewrite list_lookup_insert_ne; [by apply H6|]. intros E. apply Hne. rewrite length_app in *. apply Nat2Z.inj.
      symmetry. apply (slot_inj (r s)); [lia|lia|exact E].
Qed.
Lemma holds_commit s a b : holds s a b -> holds {| s with w := e s |} (a ++ b) [].
Proof. intros [H1 H2 H3 H4 H5 H6]. constructor; cbn [buf r w e]; rewrite ?app_nil_r; try done. Qed.
Lemma holds_pop s x a b : holds s (x :: a) b -> holds {| s with r := u32 (r s + 1) |} a b /\ buf s !! Z.to_nat (r s mod INPUT_BUF) = Some x.
Proof.
  intros [H1 H2 H3 H4 H5 H6]. cbn [length app] in *. split; [constructor; cbn [buf r w e]; try done|].
  - apply u32_range.
  - rewrite H3. unfold u32, W32. Z.to_euclidean_division_equations. lia.
  - rewrite H4. unfold u32, W32. Z.to_euclidean_division_equations. lia.
  - lia.
  - intros i c Hi. specialize (H6 (S i) c Hi). unfold slot in *. cbn [r]. change INPUT_BUF with 128 in *. rewrite <- Zplus_mod_idemp_l, u32_mod_128, Zplus_mod_idemp_l. by replace (r s + 1 + Z.of_nat i) with (r s + Z.of_nat (S i)) by lia.
  - specialize (H6 0%nat x eq_refl). unfold slot in H6. cbn in H6. by rewrite Z.add_0_r in H6.
Qed.

Lemma wp_buf_at i c Q s : buf s !! Z.to_nat (i mod INPUT_BUF) = Some c -> Q c s -> wp (buf_at i) Q s.
Proof. intros H HQ. unfold wp, buf_at. by rewrite H. Qed.
(** The lock stays as it is, and the screen can still be written to. *)
Definition stays (s s' : console) : Prop := locked s' = locked s /\ screen_ok s'.
Lemma stays_echo s s1 s' : echoed s1 s' -> locked s1 = locked s -> stays s s'.
Proof. intros [E1 H] E. split; [rewrite E1; done|done]. Qed.

Lemma wp_kill_loop a : forall b fuel s Q,
  holds s a b -> 10 ∉ b -> (length b <= fuel)%nat -> screen_ok s -> (forall s', holds s' a [] -> stays s s' -> Q tt s') -> wp (kill_loop fuel) Q s.
Proof.
  induction b as [|x b IH] using rev_ind; intros fuel s Q Hh Hn Hf Hok HQ.
  - destruct fuel; cbn [kill_loop]; wp_steps; rewrite (holds_empty s a []) by done; rewrite bool_decide_eq_true_2 by done; wp_steps; (apply HQ; [done|by split]).
  - rewrite length_app in Hf. cbn [length] in Hf. destruct fuel as [|fuel]; [lia|]. cbn [kill_loop]. wp_steps. rewrite (holds_empty s a (b ++ [x])) by done. rewrite bool_decide_eq_false_2 by (by destruct b).
    destruct (holds_back s a b x Hh) as [Hh' Hx]. rewrite wp_bind. eapply wp_buf_at; [exact Hx|]. rewrite not_elem_of_app, list_elem_of_singleton in Hn. destruct Hn as [Hn Hx10].
    rewrite (proj2 (Z.eqb_neq x 10)) by congruence. wp_steps. apply wp_echo; [exact Hok|]. intros s' Hs'. apply IH; [by eapply holds_echo|done|lia|apply Hs'|].
    intros s2 H2 [E2 O2]. apply HQ; [done|]. split; [|done]. rewrite E2. by apply (stays_echo s _ _ Hs' eq_refl).
Qed.
Lemma wp_input_char c s a b :
  ring s a b -> screen_ok s -> 0 <= c < 256 ->
  wp (input_char c) (fun d s' => ring s' (key c (a, b)).1 (key c (a, b)).2 /\ stays s s' /\ d = (c =? ctl 80)) s.
Proof.
  intros (Hh & Hfull & Hnl) Hok Hc. unfold input_char, key. destruct (c =? ctl 80); [wp_steps; by split_and!|].
  destruct (c =? ctl 85).
  { rewrite wp_bind. apply (wp_kill_loop a b); [done|done|pose proof (rg_len _ _ _ Hh) as H; rewrite length_app in H; change (Z.to_nat INPUT_BUF) with 128%nat; lia|done|].
    intros s' Hh' Hst. wp_steps. cbn [fst snd]. split_and!; [|done|done]. split_and!; [done|done|apply not_elem_of_nil]. }
  destruct ((c =? ctl 72) || (c =? 0x7f)).
  { wp_steps. rewrite (holds_empty s a b) by done. cbn [fst snd]. destruct b as [|x b _] using rev_ind.
    - rewrite bool_decide_eq_true_2 by done. cbn [negb removelast]. by split_and!.
    - rewrite bool_decide_eq_false_2 by (by destruct b). cbn [negb]. wp_steps. rewrite removelast_snoc. destruct (holds_back s a b x Hh) as [Hh' _]. apply wp_echo; [exact Hok|].
      intros s' Hs'. rewrite not_elem_of_app in Hnl. split_and!; [|exact (stays_echo s _ _ Hs' eq_refl)|done]. split_and!; [by eapply holds_echo| |by destruct Hnl].
      intros H. pose proof (rg_len _ _ _ Hh) as Hl. rewrite app_assoc, length_app in Hl. cbn [length] in Hl. lia. }
  wp_steps. pose proof (rg_len _ _ _ Hh) as Hlen. assert ((u32 (e s - r s) <? INPUT_BUF) = negb (128 <=? length (a ++ b))%nat) as ->.
  { rewrite (rg_e _ _ _ Hh). pose proof (rg_r _ _ _ Hh). replace (u32 (u32 (r s + Z.of_nat (length (a ++ b))) - r s)) with (Z.of_nat (length (a ++ b))) by (unfold u32, W32 in *; Z.to_euclidean_division_equations; lia).
    unfold INPUT_BUF. destruct (Nat.leb_spec 128 (length (a ++ b))); cbn [negb]; [apply Z.ltb_ge|apply Z.ltb_lt]; lia. }
  destruct (c =? 0) eqn:Ec0; cbn [negb andb orb]; [cbn [fst snd]; by split_and!|].
  destruct (Nat.leb_spec 128 (length (a ++ b))) as [Hge|Hlt]; cbn [negb]; [cbn [fst snd]; by split_and!|].
  set (c' := if c =? 13 then 10 else c). assert (0 <= c' < 256) as Hc' by (unfold c'; destruct (c =? 13); lia). unfold set_buf. wp_steps. cbn [e r buf].
  pose proof (holds_push s a b c' Hh Hlt Hc') as Hp. apply wp_echo; [exact Hok|]. intros s2 E2. pose proof (holds_echo _ _ _ _ Hp E2) as Hh2. wp_steps.
  assert ((u32 (e s + 1) =? u32 (r s + INPUT_BUF)) = (length (a ++ b ++ [c']) =? 128)%nat) as ->.
  { pose proof (rg_r _ _ _ Hh). rewrite (rg_e _ _ _ Hh). rewrite app_assoc, (length_app (a ++ b)). cbn [length]. unfold INPUT_BUF. unfold u32, W32 in *.
    destruct (Nat.eqb_spec (length (a ++ b) + 1) 128); [apply Z.eqb_eq|apply Z.eqb_neq]; Z.to_euclidean_division_equations; lia. }
  destruct ((c' =? 10) || (c' =? ctl 68) || (length (a ++ b ++ [c']) =? 128)%nat) eqn:Ecom; unfold wakeup; wp_steps; cbn [fst snd].
  - pose proof (holds_commit _ _ _ Hh2) as Hcm. destruct E2 as [E2 O2]. split_and!; [|split; [rewrite E2; done|exact O2]|done]. split_and!; [|done|apply not_elem_of_nil].
    destruct Hcm as [G1 G2 G3 G4 G5 G6]. by constructor.
  - apply orb_false_iff in Ecom as [Ecom E128]. apply orb_false_iff in Ecom as [E10 _]. apply Z.eqb_neq in E10. apply Nat.eqb_neq in E128. split_and!; [|exact (stays_echo s _ _ E2 eq_refl)|done]. split_and!; [done|done|].
    rewrite not_elem_of_app, list_elem_of_singleton. split; [done|congruence].
Qed.

Definition keys_in (cs : list Z) (x : list Z * list Z) : list Z * list Z := foldl (fun x c => key c x) x cs.
Lemma wp_input_chars cs : forall s a b,
  ring s a b -> screen_ok s -> Forall (fun c => 0 <= c < 256) cs ->
  wp (input_chars cs) (fun d s' => ring s' (keys_in cs (a, b)).1 (keys_in cs (a, b)).2 /\ stays s s' /\ d = bool_decide (ctl 80 ∈ cs)) s.
Proof.
  induction cs as [|c cs IH]; intros s a b Hr Hok Hc; cbn [input_chars]; [wp_steps; by split_and!|].
  apply list.Forall_cons in Hc as [Hc Hcs]. rewrite wp_bind. eapply wp_mono; [by apply wp_input_char|]. intros d s1 (Hr1 & [E1 O1] & ->). rewrite wp_bind.
  cbn [keys_in foldl]. destruct (key c (a, b)) as [a1 b1] eqn:Ek. cbn [fst snd] in Hr1. eapply wp_mono; [by apply (IH s1 a1 b1)|]. intros d' s2 (Hr2 & [E2 O2] & ->). wp_steps.
  split_and!; [exact Hr2|split; congruence|]. destruct (Z.eqb_spec c (ctl 80)) as [->|Hne]; cbn [orb].
  - symmetry. apply bool_decide_eq_true_2. set_solver.
  - apply bool_decide_ext. set_solver.
Qed.
Lemma wp_lock_cons Q s : locked s = false -> Q tt {| s with locked := true |} -> wp acquire Q s.
Proof. intros H HQ. unfold wp, acquire. by rewrite H. Qed.
Lemma wp_unlock_cons Q s : locked s = true -> Q tt {| s with locked := false |} -> wp release Q s.
Proof. intros H HQ. unfold wp, release. by rewrite H. Qed.
Lemma ring_lock s x a b : ring {| s with locked := x |} a b <-> ring s a b.
Proof. split; intros ([H1 H2 H3 H4 H5 H6] & H); (split; [by constructor|done]). Qed.

Lemma ring_line s c a b : ring s (c :: a) b -> ring {| s with r := u32 (r s + 1) |} a b.
Proof.
  intros (Hh & Hf & Hn). destruct (holds_pop s c a b Hh) as [Hp _]. split_and!; [done| |done]. intros E. pose proof (rg_len _ _ _ Hh) as H. cbn [app length] in H. lia.
Qed.
Lemma wp_read_loop killed b : forall n acc a s,
  ring s a b -> locked s = true -> screen_ok s ->
  wp (read_loop killed acc n) (fun res s' =>
    let '(res', a') := take_line acc n a in
    res = (match res' with RSleeps _ _ => if killed then RKilled else res' | _ => res' end) /\ ring s' a' b /\ locked s' = false /\ screen_ok s') s.
Proof.
  induction n as [|n IH]; intros acc a s Hr Hl Hok; cbn [read_loop take_line].
  { rewrite wp_bind. apply wp_unlock_cons; [done|]. wp_steps. by rewrite ring_lock. }
  wp_steps. destruct Hr as (Hh & Hf & Hn). assert ((r s =? w s) = bool_decide (a = [])) as ->.
  { pose proof (rg_r _ _ _ Hh). pose proof (rg_len _ _ _ Hh) as Hlen. rewrite length_app in Hlen. rewrite (rg_w _ _ _ Hh). destruct a as [|x a].
    - rewrite bool_decide_eq_true_2 by done. apply Z.eqb_eq. cbn [length]. rewrite Z.add_0_r. by rewrite u32_small.
    - rewrite bool_decide_eq_false_2 by done. apply Z.eqb_neq. cbn [length] in *. unfold u32, W32 in *. Z.to_euclidean_division_equations. lia. }
  destruct a as [|c a].
  { rewrite bool_decide_eq_true_2 by done. destruct killed; rewrite wp_bind; (apply wp_unlock_cons; [done|]); wp_steps; (split_and!; [done|by rewrite ring_lock|done|done]). }
  rewrite bool_decide_eq_false_2 by done. destruct (holds_pop s c a b Hh) as [_ Hc]. rewrite wp_bind. eapply wp_buf_at; [exact Hc|]. wp_steps.
  assert (ring {| s with r := u32 (r s + 1) |} a b) as Hr1 by (by apply (ring_line s c)).
  destruct (c =? ctl 68).
  - rewrite wp_bind, wp_when. destruct acc as [|y acc].
    + change (0 <? Z.of_nat (length [])) with false. cbn beta iota. rewrite wp_bind. apply wp_unlock_cons; [done|]. wp_steps. split_and!; [done|by rewrite ring_lock|done|done].
    + rewrite (proj2 (Z.ltb_lt 0 _)) by (cbn [length]; lia). wp_steps. cbn [r]. apply wp_unlock_cons; [done|]. split_and!; [done| |done|done].
      replace (u32 (u32 (r s + 1) - 1)) with (r s) by (pose proof (rg_r _ _ _ Hh); unfold u32, W32 in *; Z.to_euclidean_division_equations; lia).
      rewrite ring_lock. split_and!; [by destruct Hh as [G1 G2 G3 G4 G5 G6]; constructor|done|done].
  - destruct (c =? 10).
    + rewrite wp_bind. apply wp_unlock_cons; [done|]. wp_steps. split_and!; [done|by rewrite ring_lock|done|done].
    + by apply IH.
Qed.

Lemma console_input_refines_aux s a b :
  ring s a b -> screen_ok s -> locked s = false ->
  (forall cs, Forall (fun c => 0 <= c < 256) cs ->
    wp (consoleintr cs) (fun d s' => let '(a', b') := keys_in cs (a, b) in
      ring s' a' b' /\ screen_ok s' /\ locked s' = false /\ d = bool_decide (ctl 80 ∈ cs)) s) /\
  (forall n killed,
    wp (consoleread killed n) (fun res s' => let '(res', a') := take_line [] (Z.to_nat n) a in
      res = (match res' with RSleeps _ _ => if killed then RKilled else res' | _ => res' end) /\ ring s' a' b /\ screen_ok s' /\ locked s' = false) s).
Proof.
  intros Hr Hok Hl. split.
  - intros cs Hcs. unfold consoleintr. rewrite wp_bind. apply wp_lock_cons; [done|]. rewrite wp_bind.
    eapply wp_mono; [apply wp_input_chars; [by rewrite ring_lock|done|done]|]. intros d s1 (Hr1 & [E1 O1] & ->). rewrite wp_bind. apply wp_unlock_cons; [done|]. wp_steps.
    destruct (keys_in cs (a, b)) as [a' b']. split_and!; [by rewrite ring_lock|done|done|done].
  - intros n killed. unfold consoleread. rewrite wp_bind. apply wp_lock_cons; [done|]. eapply wp_mono; [apply wp_read_loop; [by rewrite ring_lock|done|done]|].
    intros res s1. destruct (take_line [] (Z.to_nat n) a) as [res' a']. intros (H1 & H2 & H3 & H4). done.
Qed.

(** C18. The ring of characters, whose indices wrap around, implements the two
    lists: an interrupt edits the line and appends complete lines, a reader
    takes at most one line, or sleeps when there is none. *)
Theorem console_input_refines s a b :
  ring s a b -> screen_ok s -> locked s = false ->
  (forall cs, Forall (fun c => 0 <= c < 256) cs ->
    wp (consoleintr cs) (fun d s' => let '(a', b') := keys_in cs (a, b) in
      ring s' a' b' /\ screen_ok s' /\ locked s' = false /\ d = bool_decide (ctl 80 ∈ cs)) s) /\
  (forall n killed,
    wp (consoleread killed n) (fun res s' => let '(res', a') := take_line [] (Z.to_nat n) a in
      res = (match res' with RSleeps _ _ => if killed then RKilled else res' | _ => res' end) /\ ring s' a' b /\ screen_ok s' /\ locked s' = false) s).
Proof. apply console_input_refines_aux. Qed.

(** ** From the keyboard to the reader *)

Lemma keys_in_zero cs : forall x, keys_in cs x = keys_in (filter (fun c => c ≠ 0) cs) x.
Proof.
  induction cs as [|c cs IH]; intros x; [done|]. rewrite filter_cons. cbn [keys_in foldl]. fold (keys_in cs). case_decide as Hc; cbn [keys_in foldl]; [apply IH|].
  destruct (decide (c = 0)) as [->|]; [|tauto]. unfold keys_in in IH. destruct x as [a b]. apply IH.
Qed.
(** Printing characters extend the line. *)
Lemma keys_in_text t : forall a b,
  Forall (fun c => 32 <= c <= 126) t -> (length (a ++ b) + length t < 128)%nat -> keys_in t (a, b) = (a, b ++ t).
Proof.
  induction t as [|c t IH]; intros a b Ht Hl; [by rewrite app_nil_r|]. apply list.Forall_cons in Ht as [Hc Ht]. cbn [length] in Hl. cbn [keys_in foldl].
  assert (key c (a, b) = (a, b ++ [c])) as ->.
  { unfold key, ctl. rewrite !(proj2 (Z.eqb_neq c _)) by lia. cbn [orb]. rewrite (proj2 (Nat.leb_gt _ _)) by lia.
    rewrite (proj2 (Nat.eqb_neq _ _)); [done|]. rewrite app_assoc, (length_app (a ++ b)). cbn [length]. lia. }
  fold (keys_in t (a, b ++ [c])). rewrite IH; [by rewrite <- app_assoc|done|]. rewrite app_assoc, (length_app (a ++ b)). cbn [length]. lia.
Qed.
Lemma take_line_text t : forall acc n, Forall (fun c => 32 <= c <= 126) t -> (length t < n)%nat -> take_line acc n (t ++ [10]) = (RDone (acc ++ t ++ [10]), []).
Proof.
  induction t as [|c t IH]; intros acc n Ht Hn; (destruct n as [|n]; [cbn in Hn; lia|]); cbn [take_line app]; [done|].
  apply list.Forall_cons in Ht as [Hc Ht]. unfold ctl. rewrite !(proj2 (Z.eqb_neq c _)) by lia. rewrite IH; [by rewrite <- app_assoc|done|cbn [length] in Hn; lia].
Qed.

(** C37. A line that is typed on the keyboard, followed by the enter key, is what a
    reader gets, whatever the position of the ring and of the case lock. *)
Theorem typed_line_is_read s t (caps : bool) n :
  ring s [] [] -> screen_ok s -> locked s = false -> Forall (fun c => 32 <= c <= 126) t -> Z.of_nat (length t) < 127 -> Z.of_nat (length t) < n ->
  wp (consoleintr (kbd_chars (type_text caps (t ++ [10])) (if caps then CAPSLOCK else 0)).1 ;; consoleread false n)
     (fun res s' => res = RDone (t ++ [10]) /\ ring s' [] []) s.
Proof.
  intros Hr Hok Hl Ht Hlen Hn. assert (Forall typeable (t ++ [10])) as Hty.
  { apply list.Forall_app. split; [|constructor; [by right; left|constructor]]. eapply Forall_weaken; [exact Ht|]. intros c Hc. by left. }
  pose proof (kbd_types_text caps (t ++ [10]) Hty) as [Hk _]. cbn zeta in Hk. pose proof (kbd_chars_range (type_text caps (t ++ [10])) (if caps then CAPSLOCK else 0)) as Hb.
  set (cs := (kbd_chars _ _).1) in *. rewrite wp_bind. destruct (console_input_refines_aux s [] [] Hr Hok Hl) as [Hi _]. eapply wp_mono; [by apply (Hi cs)|]. intros d s1.
  rewrite keys_in_zero, Hk. assert (keys_in (t ++ [10]) ([], []) = (t ++ [10], [])) as ->.
  { unfold keys_in. rewrite foldl_app. fold (keys_in t ([], [])). rewrite keys_in_text by (done || (cbn; lia)). cbn [app foldl]. unfold key. change (10 =? ctl 80) with false. change (10 =? ctl 85) with false. change ((10 =? ctl 72) || (10 =? 127)) with false.
    change (10 =? 0) with false. change (10 =? 13) with false. cbn [orb app]. rewrite (proj2 (Nat.leb_gt _ _)) by lia. by rewrite Z.eqb_refl. }
  intros (Hr1 & Hok1 & Hl1 & _). destruct (console_input_refines_aux s1 (t ++ [10]) [] Hr1 Hok1 Hl1) as [_ Hrd]. eapply wp_mono; [apply (Hrd n false)|].
  intros res s2. rewrite take_line_text by (done || lia). intros (-> & Hr2 & _). done.
Qed.

(** ** Witnesses *)

(** The state after [consoleinit], with an empty screen; the indices of the
    ring are just below the point where they wrap around. *)
Definition fresh_console : console :=
  mk_console false true false (0x720 :: replicate 1999 0) 0 [] (replicate 128 0) 4294967290 4294967290 4294967290 0.
Lemma fresh_screen : shows fresh_console (mk_term [] []).
Proof.
  split_and!; try reflexivity; [split_and!; [cbn; lia|cbn; lia|constructor]|]. split; [reflexivity|]. intros i Hi. cbn [crt fresh_console].
  assert (content (mk_term [] []) i = None) as ->. { destruct (row_col i) as (k & j & -> & Hj). rewrite content_row by done. cbn [above cur app]. rewrite lookup_single. by destruct (k =? 0)%nat. }
  destruct i as [|i]; [by exists 0x720; split; [|right]|]. exists 0. split; [apply lookup_replicate_2; lia|by left].
Qed.
Lemma fresh_ring : ring fresh_console [] [] /\ screen_ok fresh_console.
Proof. split; [|by split_and!]. split_and!; [constructor; try done; lia || (cbn; lia)|done|apply not_elem_of_nil]. Qed.
Lemma console_shows_text_witness :
  wp (consolewrite (str "init: starting sh")) (fun n s' => n = 17 /\ shows s' (mk_term [] (str "init: starting sh"))) fresh_console.
Proof.
  eapply wp_mono; [apply (console_shows_text (str "init: starting sh") fresh_console fresh_screen eq_refl); apply (bool_decide_eq_true_1 _); reflexivity|].
  intros n s' (-> & H & _). by split.
Defined.
Lemma console_input_refines_witness : wp (consoleintr [108; 115; 8; 10]) (fun d s' => ring s' [108; 10] []) fresh_console.
Proof.
  destruct fresh_ring as [Hr Hok]. destruct (console_input_refines fresh_console [] [] Hr Hok eq_refl) as [H _].
  eapply wp_mono; [apply (H [108; 115; 8; 10]); apply (bool_decide_eq_true_1 _); reflexivity|]. intros d s' (Hs & _). exact Hs.
Defined.
Lemma typed_line_is_read_witness :
  wp (consoleintr (kbd_chars (type_text true (str "ls -l" ++ [10])) CAPSLOCK).1 ;; consoleread false 100) (fun res s' => res = RDone (str "ls -l" ++ [10])) fresh_console.
Proof.
  destruct fresh_ring as [Hr Hok]. eapply wp_mono; [apply (typed_line_is_read fresh_console (str "ls -l") true 100 Hr Hok eq_refl); [apply (bool_decide_eq_true_1 _); reflexivity|reflexivity|reflexivity]|].
  intros res s' [-> _]. reflexivity.
Defined.
